(* ===== verification/_CoqProject ===== *)
-Q . S2P
Prelude.v
Bitfield.v
Common.v
Cap.v
DList.v
CSpace.v
CSpaceProps.v
CSpaceWit.v
Sched.v
Bitmap.v
SchedProps.v
SchedInv.v
EpQueue.v
SchedWit.v
State.v
Vspace.v
VspaceProps.v
Threads.v
Delete.v
Ipc.v
Finalise.v
Syscall.v
CNodeInv.v
UntypedInv.v
TcbInv.v
MmuInv.v
IrqInv.v
Kernel.v
Entry.v
FastPath.v
BootMem.v
KWindow.v
BootRoot.v
Boot.v
BootProps.v
KWindowProps.v
CapProps.v
DeleteProps.v
NtfnProps.v
EpProps.v
TransferProps.v
Keep.v
KernelKeep.v
FastProps.v
SwitchProps.v
UntypedProps.v
RetypeProps.v
Reuse.v
Reach.v
RoundRobin.v
InvProps.v
BootUntypedProps.v
BootRootProps.v
Trace.v
Machine.v
MachineProps.v
Gic.v
GicProps.v
RvCommon.v
RvCap.v
RvCapProps.v
RvCSpace.v
RvVspace.v
RvInv.v
RvTrap.v
RvWalk.v
RvProps.v
RvWindowProps.v
UnitTests.v
Devices.v
DevicesProps.v
Smp.v
SmpProps.v
