(* ===== verification/Prelude.v ===== *)
(** * reL4: a verification development

    reL4 is a rewrite of the seL4 microkernel in Rust.  This development models
    the kernel as it is built for aarch64 without SMP, in the release profile
    (arithmetic wraps, shift amounts are taken modulo 64), and the parts of the
    RISC-V port that differ from it, as executable functions on one explicit
    state, and proves theorems about them.

    ** The program and its model

    Six crates: [sel4_common] (words, bit fields, messages, faults, registers),
    [sel4_cspace] (capabilities, slots, the derivation tree), [sel4_task]
    (threads and the scheduler), [sel4_ipc] (endpoints, notifications,
    transfers), [sel4_vspace] (page tables, ASIDs) and [kernel] (system calls,
    invocations, interrupts, traps, boot).  A trap enters at
    [Entry.c_handle_syscall], [Entry.c_handle_interrupt] or a fault handler of
    [Kernel]; a system call looks up a capability ([CSpace]), decodes and
    performs an invocation ([CNodeInv], [UntypedInv], [TcbInv], [MmuInv],
    [IrqInv]) or transfers a message ([Ipc]), and schedules ([Sched],
    [Threads]).  Deleting a capability calls back from [sel4_cspace] into
    [kernel]: the class [Delete.CSpaceDeps] is that interface,
    [Finalise.kernel] its instance.  The console prints through the class
    [Devices.SerialDriver], whose instances are the two drivers.

    - [Prelude]: words, outcomes ([res]: a value, a panic, undefined behaviour,
      exhausted fuel), the state monad [ST] and its total-correctness [wp].
    - [Bitfield]: the [plus_define_bitfield!] macro, as data and two
      functions, and its round-trip lemmas.
    - [Common]: constants, enumerations, messages, faults, registers.
    - [Cap]: the sixteen capabilities and what is computed from them alone.
    - [DList]: heaps of objects with links, and doubly linked lists in them.
    - [CSpace]: slots and the mapping database; [CSpaceProps], [CSpaceWit].
    - [Sched]: the [tcb_t] record, ready queues, bitmap, scheduler operations;
      [Bitmap], [SchedProps], [SchedInv], [EpQueue], [SchedWit].
    - [State]: the state of the whole kernel; [zoom] runs a component on its
      part of it.
    - [Vspace]: page-table entries and walks, ASID pools, unmapping;
      [VspaceProps].
    - [Threads]: thread operations that reach slots and memory, message
      registers, the choice of the next thread; [SwitchProps].
    - [Delete]: deletion and revocation; [DeleteProps].
    - [Ipc]: endpoints, notifications, transfers; [NtfnProps], [EpProps],
      [TransferProps].
    - [Finalise]: finalisation of capabilities, interrupt states, preemption.
    - [Syscall]: helpers of the system-call layer, replies.
    - [CNodeInv], [UntypedInv], [TcbInv], [MmuInv], [IrqInv]: invocations;
      [UntypedProps], [RetypeProps], [InvProps], [CapProps].
    - [Kernel]: dispatch, system-call entry, faults.
    - [Entry]: the trap handlers, the return to user mode, the debugging system
      calls.
    - [FastPath]: the fast path for Call and ReplyRecv; [FastProps].
    - [BootMem], [KWindow], [BootRoot], [Boot]: the boot of the kernel: free
      and reserved memory, the kernel's page tables, the objects and the
      capabilities of the first thread, untyped memory; [BootProps],
      [KWindowProps], [BootRootProps], [BootUntypedProps].
    - [Trace]: computations that add to a trace; [Machine]: cache and TLB
      maintenance down to the instructions, [MachineProps]; [Gic]: the
      interrupt controller (GICv2), [GicProps].
    - [RvCommon], [RvCap], [RvCSpace], [RvVspace], [RvInv], [RvTrap]: what the
      RISC-V port defines itself; [RvWalk] is the SV39 walk of the hardware;
      [RvCapProps], [RvProps], [RvWindowProps]; [UnitTests]: the unit tests of
      [sel4_cspace], which run on that port.
    - [Devices]: serial ports, the console and the log, calls of the firmware;
      [DevicesProps].
    - [Smp]: the queues of the scheduler when there are several cores;
      [SmpProps].
    - [Keep], [KernelKeep], [Reuse], [Reach]: the invariant of the whole kernel;
      [RoundRobin]: turns of the threads, from the kernel's entry to its exit.

    Each definition that translates code carries a comment with the file and
    lines it translates.  Globals ([static mut]) are fields of the state; a
    typed object lives in a map from its address, and an access to an address
    without an object is undefined behaviour; page tables, IPC buffers and
    cleared memory are words.  TLB and cache maintenance and the interrupt
    controller's writes are a trace of events; what the machine answers are the
    classes [IrqInv.Hardware], [Entry.ThreadLocal], [RvTrap.RvHardware] and
    [Devices.Machine].

    ** The theorems

    - The whole kernel ([Reach.reachable_ok]): an invariant of every state that
      system calls, interrupts and faults reach, by rule induction on the runs
      of the system.  A premise is made where a system call invokes a capability
      ([Reach.reuse_ok]): no thread that the scheduler uses lies in memory that
      the invocation may clear.  The capabilities are not proved to keep it, and
      a reset of a small untyped object can break it
      ([UntypedProps.reset_small_clears_neighbours]).  [Keep] has the rules and the scheduler, [KernelKeep] every
      operation that leaves memory what it is, [Reuse] those that do not.
    - The mapping database ([CSpaceProps]): insertion, move, swap and removal
      of slots refine the operations on the list the links represent; swapping
      neighbours breaks it.  Lookup is equivalent to a relational definition
      and terminates; the lookup of the fast path agrees with it, and the fast
      path with the slow one ([FastProps]).
    - Deletion ([DeleteProps]), against the interface [CSpaceLaws]: what a
      successful deletion or revocation guarantees, and that revocation removes
      exactly the children.
    - Scheduling ([Bitmap], [SchedProps], [SchedInv], [SwitchProps]): the bitmap
      lookup is a maximum; queue operations refine lists; every operation keeps
      the invariant and cannot get stuck; the next thread is the first of the
      highest non-empty priority.
    - Time sharing ([RoundRobin]), on resting states that satisfy the kernel's
      invariant: threads of the highest ready priority take turns, none waits
      longer than a round; the end of a time slice preempts.
    - IPC ([EpQueue], [NtfnProps], [EpProps], [TransferProps]): waiting queues
      are lists, notifications are the abstract state machine of [ntfn_abs]; a
      send or receive waits or transfers the whole message (messages that are no
      faults and bring no capabilities); a receive gives a caller's reply
      capability to the receiver; cancelling undoes a wait and restarts everyone.
    - Address spaces ([VspaceProps]): unmapping clears the entry of the frame
      and nothing else, entries decode to what they were made from, deleting an
      ASID removes one entry.
    - Invocations ([RetypeProps], [UntypedProps], [InvProps], [CapProps]): objects
      of every kind but notifications are created inside the free part of an
      untyped region of at least 128 bytes, apart and as their kind asks for; a
      priority is bounded by the authority and nothing else of a thread changes; round trips of all capability constructors, rights only
      shrink; errors of the code (the inverted test for free interrupt lines,
      revocation of frames, overlapping notifications, small resets).
    - Boot ([BootProps], [KWindowProps], [BootUntypedProps], [BootRootProps]):
      free memory is the available memory that is not reserved, unless a reserved
      region reaches into the next available one; the kernel
      window translates as it should; untyped blocks tile a region; the root
      server's objects are placed apart and aligned.
    - The machine ([MachineProps], [GicProps]): each of the flush
      requests touches every line of the range and no other, invalidation loses no
      data outside it, the set/way loops cover every level; initialising the
      interrupt controller writes the registers of every line but those of the
      configuration, of which it leaves out half, and settles.
    - RISC-V ([RvCapProps], [RvProps], [RvWindowProps]): capability fields, a
      mapped frame is translated by the hardware walk, the kernel tables
      translate the whole window.

    - The unit tests ([UnitTests]) pass wherever the compiler puts their locals;
      one of them never reaches what it is to test.
    - Serial ports ([DevicesProps]): what is printed goes out byte for byte over
      every driver that keeps the promise [SerialLaws], which both drivers do;
      [shutdown] does not return; the table of cores and its inverse.
    - Several cores ([SmpProps]): an operation on the queues is the one of a
      single core, at the core of the thread; a thread may be given a core that
      does not exist.

    Theorems with hypotheses have an instance on a small concrete state, in the
    same file or in [CSpaceWit] and [SchedWit].

    ** Bounds and fuel

    - [CSpace.resolve_address_bits]: one round more than the number of bits;
      every level consumes one ([resolve_address_bits_terminates]).
      [FastPath.lookup_fp] likewise: 65 rounds.
    - Lists of waiting threads are walked with one round more than there are
      threads.
    - [Delete.revoke] and [Delete.finalise] take their fuel as an argument;
      [revoke_deletes_children] shows that one more than the number of children
      is enough.  [Finalise.kernel] nests three deletions, the most finalisation
      reaches.
    - [UntypedInv.reset_loop]: a round for every chunk of 256 bytes and one to
      stop.
    - [BootMem]: [freemem_loop] has one round more than both lists of regions
      have entries, [merge_loop] one more than the reserved regions there can
      be; [KWindow]: 261632 large pages make the window; [BootRoot]: seventeen
      free regions; [Boot]: a region is cut in at most 80 blocks and one for
      every 2^38 bytes; page tables and frames of the first thread are as many
      as their range has.
    - [Gic.ack_loop]: one round more than interrupts are active.
    - The free entry of the ASID table is found in 129 rounds, that of a pool
      in 513 ([RvInv], [MmuInv]).
    - [Devices.wait_loop]: [drains] bounds the polls after which the serial port
      has room.
    - [Entry.strnlen_loop] and the timer loop of [RvTrap] take their fuel as an
      argument: the code's loops have no bound of their own.

    ** Not modelled

    Assembly (the vectors, the context switch, the FPU), the panic handler, the
    lock around the log; of several cores, whose configuration does not
    compile, the locks and inter-processor interrupts (external functions), the
    choice of the next thread and the start of the other cores; the benchmark
    features; the device-tree parser and the boot of the RISC-V port, and the
    kernel paths that it shares with aarch64, which are modelled once.  A
    reference and a pointer are addresses: aliasing is that of the maps.  A
    message label out of the range of its [enum] is undefined behaviour, as in
    the code.  The invariant of [Reach] assumes of the capabilities that those
    to reusable memory cover no thread that the scheduler uses; the disjointness
    of all objects is not proved. *)

From stdpp Require Import base numbers gmap list.
Local Open Scope Z_scope.

(** ** Machine words

    [usize] is a [Z] in [[0, 2^64)].  The kernel is built with the release
    profile (build.py), so [+], [-], [*] wrap around and a shift amount is
    taken modulo 64. *)

Definition word_size : Z := 64.
Definition word_mod : Z := 2 ^ 64.
Definition wmax : Z := 2 ^ 64 - 1.

(** Truncation to 64 bits. *)
Definition wrap (x : Z) : Z := Z.land x (Z.ones 64).

Definition wadd (a b : Z) : Z := wrap (a + b).
Definition wsub (a b : Z) : Z := wrap (a - b).
Definition wmul (a b : Z) : Z := wrap (a * b).
Definition wshl (a n : Z) : Z := wrap (Z.shiftl a (Z.land n 63)).
Definition wshr (a n : Z) : Z := Z.shiftr a (Z.land n 63).
Definition wnot (a : Z) : Z := Z.lxor a (Z.ones 64).

(** A value that fits in a [usize]. *)
Definition is_word (x : Z) : Prop := 0 <= x < 2 ^ 64.
#[export] Instance is_word_dec x : Decision (is_word x).
Proof. unfold is_word. apply _. Defined.

(** [b as usize] of a Rust [bool]. *)
Definition b2w (b : bool) : Z := if b then 1 else 0.

Declare Scope krn_scope.
Delimit Scope krn_scope with krn.
Notation "a '&&&' b" := (Z.land a b) (at level 40, left associativity) : krn_scope.
Notation "a '|||' b" := (Z.lor a b) (at level 50, left associativity) : krn_scope.
Notation "a =w b" := (bool_decide (@eq Z a b)) (at level 70, no associativity) : krn_scope.
Notation "a <>w b" := (negb (bool_decide (@eq Z a b))) (at level 70, no associativity) : krn_scope.

(** The word macros of [sel4_common/src/utils.rs]. *)

(* src: sel4_common/src/utils.rs 98-105 BIT! *)
Definition BIT (n : Z) : Z := wshl 1 n.
(* src: sel4_common/src/utils.rs 64-72 MASK! *)
Definition MASK (n : Z) : Z := wsub (wshl 1 n) 1.
(* src: sel4_common/src/utils.rs 74-80 ROUND_DOWN! *)
Definition ROUND_DOWN (n b : Z) : Z := wshl (wshr n b) b.
(* src: sel4_common/src/utils.rs 82-88 ROUND_UP! *)
Definition ROUND_UP (n b : Z) : Z := wshl (wadd (wshr (wsub n 1) b) 1) b.
(* src: sel4_common/src/utils.rs 90-96 IS_ALIGNED! *)
Definition IS_ALIGNED (n b : Z) : bool := bool_decide (Z.land n (MASK b) = 0).

(** ** Outcomes

    A Rust computation of the kernel returns, panics (assertion, [panic!],
    [unwrap] of [None], index out of bounds), or does something the language
    leaves undefined (a dereference of an address that holds no object of the
    type, a [transmute] to an [enum] out of its range).  [NoFuel] is the
    model's own outcome for an exhausted loop bound. *)
Inductive res (A : Type) : Type :=
| Ok (a : A)
| Panic
| UB
| NoFuel.
Arguments Ok {A} a.
Arguments Panic {A}.
Arguments UB {A}.
Arguments NoFuel {A}.

#[export] Instance res_ret : MRet res := fun A a => Ok a.
#[export] Instance res_bind : MBind res := fun A B f m =>
  match m with Ok a => f a | Panic => Panic | UB => UB | NoFuel => NoFuel end.
#[export] Instance res_fmap : FMap res := fun A B f m =>
  match m with Ok a => Ok (f a) | Panic => Panic | UB => UB | NoFuel => NoFuel end.
#[export] Instance res_eq_dec `{EqDecision A} : EqDecision (res A).
Proof. solve_decision. Defined.

(** Option unwrapping, with the outcome of the missing case. *)
Definition or_panic {A} (o : option A) : res A := match o with Some a => Ok a | None => Panic end.
Definition or_ub {A} (o : option A) : res A := match o with Some a => Ok a | None => UB end.
Definition assert_r (b : bool) : res unit := if b then Ok tt else Panic.

(** Array indexing: out of bounds panics. *)
Definition idx {A} (l : list A) (i : Z) : res A :=
  if decide (0 <= i) then or_panic (l !! Z.to_nat i) else Panic.
Definition upd {A} (l : list A) (i : Z) (v : A) : res (list A) :=
  if decide (0 <= i < Z.of_nat (length l)) then Ok (<[Z.to_nat i := v]> l) else Panic.

(** ** The state monad over outcomes *)
Definition ST (S A : Type) : Type := S -> res (A * S).

#[export] Instance st_ret {S} : MRet (ST S) := fun A a s => Ok (a, s).
#[export] Instance st_bind {S} : MBind (ST S) := fun A B f m s =>
  match m s with Ok (a, s') => f a s' | Panic => Panic | UB => UB | NoFuel => NoFuel end.

Section st_ops.
Context {S : Type}.
Definition lift {A} (r : res A) : ST S A := fun s =>
  match r with Ok a => Ok (a, s) | Panic => Panic | UB => UB | NoFuel => NoFuel end.
Definition gets {A} (f : S -> A) : ST S A := fun s => Ok (f s, s).
Definition modify (f : S -> S) : ST S unit := fun s => Ok (tt, f s).
Definition panic {A} : ST S A := fun _ => Panic.
Definition ub {A} : ST S A := fun _ => UB.
Definition no_fuel {A} : ST S A := fun _ => NoFuel.
Definition assert_m (b : bool) : ST S unit := if b then mret tt else panic.
Definition skip : ST S unit := mret tt.
Definition when (b : bool) (m : ST S unit) : ST S unit := if b then m else skip.

(** [for i in lo..lo+n]. *)
Fixpoint for_range (n : nat) (lo : Z) (body : Z -> ST S unit) : ST S unit :=
  match n with
  | O => skip
  | Datatypes.S n' => body lo ;; for_range n' (lo + 1) body
  end.

(** Total correctness: [m] started in [s] returns (no panic, no undefined
    behaviour) with a value and a state in [Q]. *)
Definition wp {A} (m : ST S A) (Q : A -> S -> Prop) (s : S) : Prop :=
  match m s with Ok (a, s') => Q a s' | _ => False end.

(** The state after a computation that returns. *)
Definition after {A} (m : ST S A) (s : S) : S := match m s with Ok (_, s') => s' | _ => s end.

(** Partial correctness: if [m] returns, [Q] holds. *)
Definition wlp {A} (m : ST S A) (Q : A -> S -> Prop) (s : S) : Prop :=
  match m s with Ok (a, s') => Q a s' | _ => True end.
End st_ops.

(** ** Lemmas on words *)
Section words.
Implicit Types a b n x : Z.

Lemma wrap_mod x : wrap x = x `mod` 2 ^ 64.
Proof. unfold wrap. apply Z.land_ones. lia. Qed.

Lemma wrap_is_word x : is_word (wrap x).
Proof. rewrite wrap_mod. unfold is_word. apply Z.mod_pos_bound. lia. Qed.

Lemma wrap_id x : is_word x -> wrap x = x.
Proof. intros H. rewrite wrap_mod. apply Z.mod_small, H. Qed.

Lemma wadd_is_word a b : is_word (wadd a b).
Proof. apply wrap_is_word. Qed.
Lemma wsub_is_word a b : is_word (wsub a b).
Proof. apply wrap_is_word. Qed.

Lemma wadd_small a b : is_word (a + b) -> wadd a b = a + b.
Proof. apply wrap_id. Qed.
Lemma wsub_small a b : is_word (a - b) -> wsub a b = a - b.
Proof. apply wrap_id. Qed.

Lemma land_63 n : 0 <= n < 64 -> Z.land n 63 = n.
Proof.
  intros H. change 63 with (Z.ones 6). rewrite Z.land_ones by lia.
  apply Z.mod_small. lia.
Qed.

Lemma wshr_spec a n : 0 <= n < 64 -> wshr a n = a / 2 ^ n.
Proof. intros H. unfold wshr. rewrite land_63 by lia. apply Z.shiftr_div_pow2. lia. Qed.

Lemma wshl_spec a n : 0 <= n < 64 -> wshl a n = wrap (a * 2 ^ n).
Proof. intros H. unfold wshl. rewrite land_63 by lia. rewrite Z.shiftl_mul_pow2 by lia. done. Qed.

Lemma BIT_spec n : 0 <= n < 64 -> BIT n = 2 ^ n.
Proof.
  intros H. unfold BIT. rewrite wshl_spec by lia. rewrite Z.mul_1_l. apply wrap_id.
  split; [lia|]. apply Z.pow_lt_mono_r; lia.
Qed.

Lemma MASK_spec n : 0 <= n < 64 -> MASK n = Z.ones n.
Proof.
  intros H. unfold MASK. change (wshl 1 n) with (BIT n). rewrite BIT_spec by lia.
  rewrite Z.ones_equiv. rewrite <- Z.sub_1_r. apply wsub_small.
  assert (0 < 2 ^ n) by lia. assert (2 ^ n < 2 ^ 64) by (apply Z.pow_lt_mono_r; lia).
  unfold is_word. lia.
Qed.

(** The shift amount is reduced modulo 64, so the mask of 64 bits is empty. *)
Lemma MASK_64 : MASK 64 = 0.
Proof. reflexivity. Qed.

Lemma is_word_testbit x i : is_word x -> 64 <= i -> Z.testbit x i = false.
Proof.
  intros H Hi. rewrite <- (wrap_id x H). unfold wrap.
  rewrite Z.land_spec, Z.ones_spec_high by lia. apply andb_false_r.
Qed.

Lemma testbit_is_word x :
  0 <= x -> (forall i, 64 <= i -> Z.testbit x i = false) -> is_word x.
Proof.
  intros Hx H. assert (x = wrap x) as ->; [|apply wrap_is_word].
  apply Z.bits_inj'. intros i Hi. unfold wrap. rewrite Z.land_spec.
  destruct (decide (i < 64)).
  - rewrite Z.ones_spec_low by lia. by rewrite andb_true_r.
  - rewrite H by lia. done.
Qed.

Lemma is_word_land x y : 0 <= y -> is_word x -> is_word (Z.land x y).
Proof.
  intros Hy Hx. apply testbit_is_word.
  - apply Z.land_nonneg. by right.
  - intros i Hi. rewrite Z.land_spec, (is_word_testbit x) by done. done.
Qed.

Lemma is_word_lor x y : is_word x -> is_word y -> is_word (Z.lor x y).
Proof.
  intros Hx Hy. apply testbit_is_word.
  - apply Z.lor_nonneg. unfold is_word in *. lia.
  - intros i Hi. rewrite Z.lor_spec, !is_word_testbit by done. done.
Qed.

Lemma wnot_testbit x i :
  0 <= i -> Z.testbit (wnot x) i = if decide (i < 64) then negb (Z.testbit x i) else Z.testbit x i.
Proof.
  intros Hi. unfold wnot. rewrite Z.lxor_spec. case_decide.
  - rewrite Z.ones_spec_low by lia. by rewrite xorb_true_r.
  - rewrite Z.ones_spec_high by lia. by rewrite xorb_false_r.
Qed.

Lemma is_word_wnot x : is_word x -> is_word (wnot x).
Proof.
  intros Hx. apply testbit_is_word.
  - unfold wnot. apply Z.lxor_nonneg. split; intros; [|unfold is_word in *; lia].
    by vm_compute.
  - intros i Hi. rewrite wnot_testbit by lia. rewrite decide_False by lia.
    by apply is_word_testbit.
Qed.

(** Or of disjoint bit ranges is addition. *)
Lemma lor_add a b n : 0 <= n -> 0 <= b < 2 ^ n -> Z.lor (a * 2 ^ n) b = a * 2 ^ n + b.
Proof.
  intros Hn Hb. assert (Z.land (a * 2 ^ n) b = 0) as H0.
  { apply Z.bits_inj'. intros i Hi. rewrite Z.land_spec, Z.bits_0.
    destruct (decide (i < n)).
    - by rewrite Z.mul_pow2_bits_low by lia.
    - assert (Z.testbit b i = false) as ->; [|apply andb_false_r].
      rewrite <- (Z.mod_small b (2 ^ n)) by lia. apply Z.mod_pow2_bits_high. lia. }
  by rewrite Z.add_nocarry_lxor, Z.lxor_lor by done.
Qed.

(** Alignment: [IS_ALIGNED n b] is divisibility by [2 ^ b]. *)
Lemma IS_ALIGNED_spec n b : 0 <= b < 64 -> IS_ALIGNED n b = true <-> n `mod` 2 ^ b = 0.
Proof.
  intros Hb. unfold IS_ALIGNED. rewrite bool_decide_eq_true, MASK_spec by lia.
  rewrite Z.land_ones by lia. done.
Qed.

(** What follows aligned objects is as aligned as the smallest. *)
Lemma aligned_after (a b n k : Z) : 0 <= k <= b -> a `mod` 2 ^ k = 0 -> (a + n * 2 ^ b) `mod` 2 ^ k = 0.
Proof.
  intros Hk Ha. replace (2 ^ b) with (2 ^ (b - k) * 2 ^ k) by (rewrite <- Z.pow_add_r by lia; f_equal; lia).
  rewrite Z.mul_assoc, Z.mod_add by lia. exact Ha.
Qed.
Lemma aligned_weaken (a b k : Z) : 0 <= k <= b -> a `mod` 2 ^ b = 0 -> a `mod` 2 ^ k = 0.
Proof.
  intros Hk Ha. rewrite (Z.div_mod a (2 ^ b)), Ha, Z.add_0_r by lia. rewrite Z.mul_comm.
  apply (aligned_after 0 b _ k Hk). apply Z.mod_0_l. lia.
Qed.
Lemma ROUND_DOWN_spec n b : is_word n -> 0 <= b < 64 -> ROUND_DOWN n b = n - n `mod` 2 ^ b.
Proof.
  intros Hn Hb. unfold ROUND_DOWN. rewrite wshl_spec, wshr_spec by lia.
  assert (0 < 2 ^ b) by lia.
  pose proof (Z.div_mod n (2 ^ b) ltac:(lia)). pose proof (Z.mod_pos_bound n (2 ^ b) ltac:(lia)).
  pose proof (Z.div_pos n (2 ^ b) ltac:(unfold is_word in Hn; lia) ltac:(lia)).
  rewrite wrap_id; [lia|]. unfold is_word in *. split; nia.
Qed.
End words.

(** Bitwise reasoning: two words are equal when their bits are. *)
Create Rewrite HintDb bits.
#[export] Hint Rewrite Z.land_spec Z.lor_spec Z.lxor_spec Z.bits_0 : bits.
#[export] Hint Rewrite Z.shiftl_spec Z.shiftr_spec using lia : bits.
#[export] Hint Rewrite wnot_testbit using lia : bits.
#[export] Hint Rewrite Z.testbit_ones_nonneg using lia : bits.
#[export] Hint Rewrite andb_false_r andb_true_r orb_false_r orb_true_r andb_false_l andb_true_l
  orb_false_l orb_true_l : bits.

(** ** Lemmas on the monads *)
Section wp_rules.
Context {S : Type}.
Implicit Types s : S.

Lemma wp_ret {A} (a : A) (Q : A -> S -> Prop) s : Q a s -> wp (mret a) Q s.
Proof. done. Qed.

Lemma wp_bind {A B} (m : ST S A) (f : A -> ST S B) (Q : B -> S -> Prop) s :
  wp m (fun a s' => wp (f a) Q s') s -> wp (m ≫= f) Q s.
Proof. unfold wp, mbind, st_bind. by destruct (m s) as [[a s']| | |]. Qed.

Lemma wp_bind_inv {A B} (m : ST S A) (f : A -> ST S B) (Q : B -> S -> Prop) s :
  wp (m ≫= f) Q s -> wp m (fun a s' => wp (f a) Q s') s.
Proof. unfold wp, mbind, st_bind. by destruct (m s) as [[a s']| | |]. Qed.

Lemma wp_mono {A} (m : ST S A) (Q Q' : A -> S -> Prop) s :
  wp m Q s -> (forall a s', Q a s' -> Q' a s') -> wp m Q' s.
Proof. unfold wp. destruct (m s) as [[a s']| | |]; auto. Qed.

Lemma wp_and {A} (m : ST S A) (Q Q' : A -> S -> Prop) s :
  wp m Q s -> wp m Q' s -> wp m (fun a s' => Q a s' /\ Q' a s') s.
Proof. unfold wp. destruct (m s) as [[a s']| | |]; auto. Qed.

Lemma wp_Ok {A} (m : ST S A) (Q : A -> S -> Prop) s a s' :
  m s = Ok (a, s') -> wp m Q s -> Q a s'.
Proof. unfold wp. by intros ->. Qed.

Lemma wp_elim {A} (m : ST S A) (Q : A -> S -> Prop) s :
  wp m Q s -> exists a s', m s = Ok (a, s') /\ Q a s'.
Proof. unfold wp. destruct (m s) as [[a s']| | |]; eauto; done. Qed.

Lemma wp_intro {A} (m : ST S A) (Q : A -> S -> Prop) s a s' :
  m s = Ok (a, s') -> Q a s' -> wp m Q s.
Proof. unfold wp. by intros ->. Qed.

Lemma wp_lift {A} (r : res A) (Q : A -> S -> Prop) s a :
  r = Ok a -> Q a s -> wp (lift r) Q s.
Proof. unfold wp, lift. by intros ->. Qed.

Lemma wp_gets {A} (f : S -> A) (Q : A -> S -> Prop) s : Q (f s) s -> wp (gets f) Q s.
Proof. done. Qed.

Lemma wp_modify (f : S -> S) (Q : unit -> S -> Prop) s : Q tt (f s) -> wp (modify f) Q s.
Proof. done. Qed.

Lemma wp_assert (b : bool) (Q : unit -> S -> Prop) s : b = true -> Q tt s -> wp (assert_m b) Q s.
Proof. by intros ->. Qed.

Lemma wp_when (b : bool) (m : ST S unit) (Q : unit -> S -> Prop) s :
  (b = true -> wp m Q s) -> (b = false -> Q tt s) -> wp (when b m) Q s.
Proof. destruct b; cbn; auto. Qed.

(** A loop over a range keeps an indexed invariant. *)
Lemma wp_for_range (Inv : Z -> S -> Prop) n lo body (Q : unit -> S -> Prop) s :
  Inv lo s ->
  (forall i s', lo <= i < lo + Z.of_nat n -> Inv i s' -> wp (body i) (fun _ => Inv (i + 1)) s') ->
  (forall s', Inv (lo + Z.of_nat n) s' -> Q tt s') ->
  wp (for_range n lo body) Q s.
Proof.
  revert lo s. induction n as [|n IH]; intros lo s HI Hstep HQ; cbn.
  - apply HQ. by rewrite Z.add_0_r.
  - apply wp_bind. eapply wp_mono; [apply Hstep; [lia|done]|].
    intros ? s1 HI1. apply IH; [done| |].
    + intros i s' Hi. apply Hstep. lia.
    + intros s' Hs'. apply HQ. by replace (lo + Z.of_nat (Datatypes.S n)) with (lo + 1 + Z.of_nat n) by lia.
Qed.

Lemma st_bind_assoc {A B C} (m : ST S A) (f : A -> ST S B) (g : B -> ST S C) s :
  ((m ≫= f) ≫= g) s = (m ≫= (fun a => f a ≫= g)) s.
Proof. unfold mbind, st_bind. by destruct (m s) as [[a s']| | |]. Qed.

Lemma st_bind_Ok {A B} (m : ST S A) (f : A -> ST S B) s a s' :
  m s = Ok (a, s') -> (m ≫= f) s = f a s'.
Proof. unfold mbind, st_bind. by intros ->. Qed.

Lemma st_bind_inv {A B} (m : ST S A) (f : A -> ST S B) s b s2 :
  (m ≫= f) s = Ok (b, s2) -> exists a s1, m s = Ok (a, s1) /\ f a s1 = Ok (b, s2).
Proof. unfold mbind, st_bind. destruct (m s) as [[a s']| | |]; eauto; done. Qed.
End wp_rules.

Lemma lift_inv {S A} (r : res A) (s : S) a s' : lift r s = Ok (a, s') -> r = Ok a /\ s' = s.
Proof. unfold lift. destruct r; [by intros [= -> ->]|done..]. Qed.
Lemma assert_inv {S} (b : bool) (s : S) u s' : assert_m b s = Ok (u, s') -> b = true /\ s' = s.
Proof. destruct b; [by intros [= _ ->]|done]. Qed.

Lemma Ok_inv {S A} (a b : A) (s t : S) : Ok (a, s) = Ok (b, t) -> a = b /\ s = t.
Proof. by intros [= -> ->]. Qed.

Lemma res_bind_inv {A B} (m : res A) (f : A -> res B) b :
  m ≫= f = Ok b -> exists a, m = Ok a /\ f a = Ok b.
Proof. destruct m; cbn; eauto; done. Qed.

Lemma idx_Ok {A} (l : list A) i v : 0 <= i -> l !! Z.to_nat i = Some v -> idx l i = Ok v.
Proof. intros Hi H. unfold idx. by rewrite decide_True, H. Qed.

Lemma upd_Ok {A} (l : list A) i v :
  0 <= i < Z.of_nat (length l) -> upd l i v = Ok (<[Z.to_nat i := v]> l).
Proof. intros H. unfold upd. by rewrite decide_True. Qed.

(** Closed decidable goals by computation. *)
Ltac by_decide := apply (bool_decide_unpack _); vm_compute; exact I.
Ltac by_compute := first [by_decide | vm_compute; reflexivity | vm_compute; done].

(** One step of a total-correctness goal. *)
Ltac wp_step :=
  lazymatch goal with
  | |- wp (_ ≫= _) _ _ => apply wp_bind
  | |- wp (mret _) _ _ => apply wp_ret
  | |- wp (gets _) _ _ => apply wp_gets
  | |- wp (modify _) _ _ => apply wp_modify
  | |- wp skip _ _ => apply wp_ret
  end.
Ltac wp_steps := repeat wp_step.

(** Decompose the hypotheses that say a monadic computation returned. *)
Ltac inv_ok :=
  repeat match goal with
  | H : (_ ≫= _) _ = Ok _ |- _ => apply st_bind_inv in H as (? & ? & ? & H)
  | H : _ ≫= _ = Ok _ |- _ => apply res_bind_inv in H as (? & ? & H)
  | H : Ok _ = Ok _ |- _ => injection H as H
  | H : (_, _) = (_, _) |- _ => injection H as ? H
  | H : mret _ _ = Ok _ |- _ => apply Ok_inv in H as [? H]
  | H : skip _ = Ok _ |- _ => apply Ok_inv in H as [? H]
  | H : gets _ _ = Ok _ |- _ => apply Ok_inv in H as [? H]
  | H : modify _ _ = Ok _ |- _ => apply Ok_inv in H as [? H]
  | H : lift _ _ = Ok _ |- _ => apply lift_inv in H as [H ?]
  | H : assert_m _ _ = Ok _ |- _ => apply assert_inv in H as [H ?]
  | H : mret _ = Ok _ |- _ => injection H as H
  | H : Panic = Ok _ |- _ => discriminate H
  | H : UB = Ok _ |- _ => discriminate H
  | H : NoFuel = Ok _ |- _ => discriminate H
  end; subst.

(** Computations that only read. *)
Definition reads {S A} (m : ST S A) : Prop := forall s a s', m s = Ok (a, s') -> s' = s.

Lemma reads_bind {S A B} (m : ST S A) (f : A -> ST S B) : reads m -> (forall a, reads (f a)) -> reads (m ≫= f).
Proof. intros Hm Hf s b s' (a & s1 & H1 & H2)%st_bind_inv. apply Hm in H1 as ->. by eapply Hf. Qed.
Lemma reads_ret {S A} (a : A) : reads (S := S) (mret a).
Proof. intros s b s' H. by inv_ok. Qed.
Lemma reads_gets {S A} (f : S -> A) : reads (gets f).
Proof. intros s b s' H. by inv_ok. Qed.
Lemma reads_lift {S A} (r : res A) : reads (S := S) (lift r).
Proof. intros s b s' H. by apply lift_inv in H as [_ ->]. Qed.
Lemma reads_assert {S} (b : bool) : reads (S := S) (assert_m b).
Proof. intros s u s' H. by apply assert_inv in H as [_ ->]. Qed.

Create HintDb reads.
#[export] Hint Resolve reads_ret reads_gets reads_lift reads_assert : reads.
(** A computation reads when its parts do. *)
Ltac reads := repeat first
  [ apply reads_bind; [|intros ?] | solve [auto with reads nocore] | progress case_match ].
