(* ===== verification/Bitfield.v ===== *)
(** * Bit-field structures

    The macro [plus_define_bitfield!] of [sel4_common/src/utils.rs] defines
    every packed structure of the kernel (capabilities, MDB nodes, thread
    states, endpoints, faults, message infos) as an array of words with
    getters, setters and one constructor per variant.  This file models the
    macro once, for an arbitrary list of field descriptors, and proves what
    every instance inherits: a constructor's arguments are read back, the tag
    is read back, and a setter changes its own field only. *)

From stdpp Require Import base numbers gmap list.
From S2P Require Import Prelude.
Local Open Scope Z_scope.

(** A field: word index, bit offset, width, left shift of the value, sign
    extension of bit 47 (the aarch64 configuration of the macro). *)
(* src: sel4_common/src/utils.rs 8-8 plus_define_bitfield! *)
Record bitfield := Bf {
  bf_index : nat; bf_offset : Z; bf_bits : Z; bf_shift : Z; bf_sign : bool }.

(** A structure: number of words and position of the type tag. *)
(* src: sel4_common/src/utils.rs 7-17 plus_define_bitfield! *)
Record bitstruct := Bs {
  bs_words : nat; bs_type_index : nat; bs_type_offset : Z; bs_type_bits : Z }.

(** [((1u128 << bits) - 1) as usize] *)
Definition bf_mask (bits : Z) : Z := wrap (Z.shiftl 1 bits - 1).

(** The sign extension of the getters on aarch64. *)
(* src: sel4_common/src/utils.rs 36-43 plus_define_bitfield! getter *)
Definition bf_sext (sign : bool) (ret : Z) : Z :=
  if (sign && negb (bool_decide (Z.land ret (wshl 1 47) = 0)))%bool
  then Z.lor ret 0xffff800000000000 else ret.

(** Getter of a field. *)
(* src: sel4_common/src/utils.rs 32-45 plus_define_bitfield! getter *)
Definition bf_get (f : bitfield) (ws : list Z) : Z :=
  let mask := bf_mask (bf_bits f) in
  bf_sext (bf_sign f)
    (wshl (Z.land (wshr (ws !!! bf_index f) (bf_offset f)) mask) (bf_shift f)).

(** Setter of a field. *)
(* src: sel4_common/src/utils.rs 47-52 plus_define_bitfield! setter *)
Definition bf_set (f : bitfield) (new_field : Z) (ws : list Z) : list Z :=
  let mask := bf_mask (bf_bits f) in
  let w1 := Z.land (ws !!! bf_index f) (wnot (wshl mask (bf_offset f))) in
  let w2 := Z.lor w1 (wshl (Z.land (wshr new_field (bf_shift f)) mask) (bf_offset f)) in
  <[bf_index f := w2]> ws.

(** One field of a constructor: [words[i] |= ((v >> shift) & mask) << offset]. *)
(* src: sel4_common/src/utils.rs 22-25 plus_define_bitfield! constructor *)
Definition bf_or (ws : list Z) (fv : bitfield * Z) : list Z :=
  let '(f, v) := fv in
  <[bf_index f := Z.lor (ws !!! bf_index f)
      (wshl (Z.land (wshr v (bf_shift f)) (bf_mask (bf_bits f))) (bf_offset f))]> ws.

(** Constructor of a variant. *)
(* src: sel4_common/src/utils.rs 19-29 plus_define_bitfield! constructor *)
Definition bf_new (b : bitstruct) (fs : list (bitfield * Z)) (type_value : Z) : list Z :=
  let value := foldl bf_or (replicate (bs_words b) 0) fs in
  <[bs_type_index b := Z.lor (value !!! bs_type_index b)
      (wshl (Z.land type_value (MASK (bs_type_bits b))) (bs_type_offset b))]> value.

(** [get_type]. *)
(* src: sel4_common/src/utils.rs 56-59 plus_define_bitfield! get_type *)
Definition bf_type (b : bitstruct) (ws : list Z) : Z :=
  Z.land (wshr (ws !!! bs_type_index b) (bs_type_offset b)) (MASK (bs_type_bits b)).

(** ** Well-formed descriptors *)
Definition wf_bf (n : nat) (f : bitfield) : bool :=
  bool_decide ((bf_index f < n)%nat /\ 0 <= bf_offset f < 64 /\ 0 <= bf_bits f /\
    bf_offset f + bf_bits f <= 64 /\ 0 <= bf_shift f < 64 /\ bf_shift f + bf_bits f <= 64).

Definition disjoint_bf (f g : bitfield) : bool :=
  bool_decide (bf_index f <> bf_index g \/ bf_offset f + bf_bits f <= bf_offset g \/
    bf_offset g + bf_bits g <= bf_offset f).

(** The type tag seen as a field. *)
Definition type_bf (b : bitstruct) : bitfield :=
  Bf (bs_type_index b) (bs_type_offset b) (bs_type_bits b) 0 false.

Fixpoint pairwise_disjoint (fs : list bitfield) : bool :=
  match fs with
  | [] => true
  | f :: fs' => forallb (disjoint_bf f) fs' && pairwise_disjoint fs'
  end.

(** A variant is well formed when its fields and its tag fit in the words and
    overlap nowhere. *)
Definition variant_ok (b : bitstruct) (fs : list bitfield) : bool :=
  forallb (wf_bf (bs_words b)) (type_bf b :: fs) && pairwise_disjoint (type_bf b :: fs)
  && bool_decide (bs_type_bits b < 64).

(** What a field keeps of a value: the bits that fit, sign-extended. *)
Definition bf_norm (f : bitfield) (v : Z) : Z :=
  bf_sext (bf_sign f)
    (wshl (Z.land (wshr v (bf_shift f)) (bf_mask (bf_bits f))) (bf_shift f)).

(** ** Lemmas *)
Section bitfield_lemmas.
Implicit Types (f g : bitfield) (ws : list Z) (b : bitstruct) (v i x : Z).

Lemma ltb_bd x i : (x <? i) = bool_decide (x < i).
Proof. case_bool_decide; lia. Qed.

Lemma bf_mask_testbit n i :
  0 <= n <= 64 -> 0 <= i -> Z.testbit (bf_mask n) i = bool_decide (i < n).
Proof.
  intros Hn Hi. unfold bf_mask, wrap. rewrite Z.land_spec.
  rewrite Z.shiftl_1_l, Z.sub_1_r, <- Z.ones_equiv.
  rewrite !Z.testbit_ones_nonneg by lia.
  destruct (decide (i < n)); [rewrite bool_decide_true by lia | rewrite bool_decide_false by lia].
  - rewrite (proj2 (Z.ltb_lt i n)), (proj2 (Z.ltb_lt i 64)) by lia. done.
  - rewrite (proj2 (Z.ltb_ge i n)) by lia. done.
Qed.

Lemma wshl_testbit x n i :
  0 <= n < 64 -> 0 <= i ->
  Z.testbit (wshl x n) i = Z.testbit x (i - n) && bool_decide (i < 64).
Proof.
  intros Hn Hi. unfold wshl, wrap. rewrite land_63 by lia.
  rewrite Z.land_spec, Z.shiftl_spec by lia. f_equal.
  rewrite Z.testbit_ones_nonneg by lia. apply ltb_bd.
Qed.

Lemma wshr_testbit x n i : 0 <= n < 64 -> 0 <= i -> Z.testbit (wshr x n) i = Z.testbit x (i + n).
Proof. intros Hn Hi. unfold wshr. rewrite land_63 by lia. apply Z.shiftr_spec. lia. Qed.

(** The bits a field reads, before sign extension. *)
Definition bf_raw f ws : Z := Z.land (wshr (ws !!! bf_index f) (bf_offset f)) (bf_mask (bf_bits f)).

Lemma bf_raw_testbit n f ws i :
  wf_bf n f = true -> 0 <= i ->
  Z.testbit (bf_raw f ws) i =
    Z.testbit (ws !!! bf_index f) (i + bf_offset f) && bool_decide (i < bf_bits f).
Proof.
  unfold wf_bf. rewrite bool_decide_eq_true. intros Hf Hi. unfold bf_raw.
  rewrite Z.land_spec, wshr_testbit, bf_mask_testbit by lia. done.
Qed.

Lemma bf_get_raw f ws : bf_get f ws = bf_sext (bf_sign f) (wshl (bf_raw f ws) (bf_shift f)).
Proof. done. Qed.

(** Equal bits in the field, equal readings. *)
Lemma bf_raw_ext n f ws ws' :
  wf_bf n f = true ->
  (forall i, bf_offset f <= i < bf_offset f + bf_bits f ->
    Z.testbit (ws !!! bf_index f) i = Z.testbit (ws' !!! bf_index f) i) ->
  bf_raw f ws = bf_raw f ws'.
Proof.
  intros Hf H. apply Z.bits_inj'. intros i Hi. rewrite !(bf_raw_testbit n) by done.
  case_bool_decide; [|by rewrite !andb_false_r]. rewrite !andb_true_r. apply H. lia.
Qed.

Lemma bf_get_ext n f ws ws' :
  wf_bf n f = true ->
  (forall i, bf_offset f <= i < bf_offset f + bf_bits f ->
    Z.testbit (ws !!! bf_index f) i = Z.testbit (ws' !!! bf_index f) i) ->
  bf_get f ws = bf_get f ws'.
Proof. intros Hf H. rewrite !bf_get_raw. by rewrite (bf_raw_ext n f ws ws'). Qed.

(** The bits of the value a constructor or a setter places. *)
Lemma bf_place_testbit n f v i :
  wf_bf n f = true -> 0 <= i ->
  Z.testbit (wshl (Z.land (wshr v (bf_shift f)) (bf_mask (bf_bits f))) (bf_offset f)) i =
    bool_decide (bf_offset f <= i < bf_offset f + bf_bits f)
    && Z.testbit v (i - bf_offset f + bf_shift f).
Proof.
  unfold wf_bf. rewrite bool_decide_eq_true. intros Hf Hi.
  rewrite wshl_testbit by lia. rewrite Z.land_spec.
  destruct (decide (bf_offset f <= i)).
  - rewrite wshr_testbit, bf_mask_testbit by lia.
    destruct (decide (i < bf_offset f + bf_bits f)).
    + rewrite !bool_decide_true by lia. by rewrite !andb_true_r.
    + rewrite (bool_decide_false (i - _ < _)), (bool_decide_false (_ /\ _)) by lia.
      by rewrite andb_false_r.
  - rewrite (bool_decide_false (_ /\ _)) by lia.
    rewrite !(Z.testbit_neg_r _ (i - _)) by lia. done.
Qed.

Lemma place_mask_testbit n f i :
  wf_bf n f = true -> 0 <= i ->
  Z.testbit (wshl (bf_mask (bf_bits f)) (bf_offset f)) i =
    bool_decide (bf_offset f <= i < bf_offset f + bf_bits f).
Proof.
  unfold wf_bf. rewrite bool_decide_eq_true. intros Hf Hi.
  rewrite wshl_testbit by lia.
  destruct (decide (bf_offset f <= i)).
  - rewrite bf_mask_testbit by lia.
    destruct (decide (i < bf_offset f + bf_bits f)).
    + by rewrite !bool_decide_true by lia.
    + rewrite (bool_decide_false (i - _ < _)), (bool_decide_false (_ /\ _)) by lia. done.
  - rewrite (bool_decide_false (_ /\ _)) by lia.
    rewrite (Z.testbit_neg_r _ (i - _)) by lia. done.
Qed.

Lemma wf_bf_index n f : wf_bf n f = true -> (bf_index f < n)%nat.
Proof. unfold wf_bf. rewrite bool_decide_eq_true. lia. Qed.

Lemma lookup_total_insert_list ws k w j :
  (k < length ws)%nat -> <[k := w]> ws !!! j = if decide (j = k) then w else ws !!! j.
Proof.
  intros Hk. rewrite !list_lookup_total_alt. case_decide; subst.
  - by rewrite list_lookup_insert_eq.
  - by rewrite list_lookup_insert_ne by done.
Qed.

Lemma bf_set_length f v ws : length (bf_set f v ws) = length ws.
Proof. apply length_insert. Qed.
Lemma bf_or_length f v ws : length (bf_or ws (f, v)) = length ws.
Proof. apply length_insert. Qed.

(** What a constructor step leaves in the field it writes, when the field was clear. *)
Lemma bf_or_same n f v ws :
  wf_bf n f = true -> length ws = n -> bf_raw f ws = 0 -> bf_get f (bf_or ws (f, v)) = bf_norm f v.
Proof.
  intros Hf Hl H0. rewrite bf_get_raw. unfold bf_norm. do 2 f_equal.
  pose proof (wf_bf_index _ _ Hf) as Hk.
  apply Z.bits_inj'. intros i Hi. rewrite (bf_raw_testbit n) by done.
  unfold bf_or. rewrite lookup_total_insert_list by lia. rewrite decide_True by done.
  unfold wf_bf in Hf. rewrite Z.lor_spec, (bf_place_testbit n) by (try done; rewrite bool_decide_eq_true in Hf; lia).
  assert (Z.testbit (ws !!! bf_index f) (i + bf_offset f) && bool_decide (i < bf_bits f) = false) as Hz.
  { rewrite <- (bf_raw_testbit n) by done. by rewrite H0, Z.bits_0. }
  rewrite bool_decide_eq_true in Hf.
  rewrite Z.land_spec, wshr_testbit, bf_mask_testbit by lia.
  destruct (decide (i < bf_bits f)) as [Hi'|Hi'];
    [rewrite (bool_decide_true (i < _)) in * by lia
    |rewrite (bool_decide_false (i < _)) in * by lia; by rewrite !andb_false_r].
  rewrite andb_true_r in *. rewrite Hz.
  rewrite bool_decide_true by lia. rewrite orb_false_l, andb_true_l, andb_true_r.
  f_equal. lia.
Qed.

(** The setter: the field reads back the value (the bits it keeps). *)
Lemma bf_get_set_same n f v ws :
  wf_bf n f = true -> length ws = n -> bf_get f (bf_set f v ws) = bf_norm f v.
Proof.
  intros Hf Hl. rewrite bf_get_raw. unfold bf_norm. do 2 f_equal.
  pose proof (wf_bf_index _ _ Hf) as Hk.
  apply Z.bits_inj'. intros i Hi. rewrite (bf_raw_testbit n) by done.
  unfold bf_set. rewrite lookup_total_insert_list by lia. rewrite decide_True by done.
  pose proof Hf as Hf'. unfold wf_bf in Hf'. rewrite bool_decide_eq_true in Hf'.
  rewrite Z.lor_spec, (bf_place_testbit n), Z.land_spec, wnot_testbit,
    (place_mask_testbit n) by (done || lia).
  rewrite Z.land_spec, wshr_testbit, bf_mask_testbit by lia.
  destruct (decide (i < bf_bits f)) as [Hi'|Hi'];
    [rewrite (bool_decide_true (i < _)) by lia
    |rewrite (bool_decide_false (i < _)) by lia; by rewrite !andb_false_r].
  rewrite !andb_true_r.
  rewrite decide_True by lia. rewrite bool_decide_true by lia. cbn.
  rewrite andb_false_r, orb_false_l. f_equal. lia.
Qed.

Lemma disjoint_bf_sym f g : disjoint_bf f g = disjoint_bf g f.
Proof. unfold disjoint_bf. apply bool_decide_ext. intuition. Qed.

Lemma bf_disjoint_bits f g i :
  disjoint_bf f g = true -> bf_index f = bf_index g ->
  bf_offset f <= i < bf_offset f + bf_bits f ->
  bool_decide (bf_offset g <= i < bf_offset g + bf_bits g) = false.
Proof.
  unfold disjoint_bf. rewrite bool_decide_eq_true. intros H Hi Hr.
  apply bool_decide_false. destruct H as [?|[?|?]]; [done|lia|lia].
Qed.

(** A setter leaves every disjoint field alone. *)
Lemma bf_get_set_other n m f g v ws :
  wf_bf n f = true -> wf_bf m g = true -> disjoint_bf f g = true ->
  bf_get f (bf_set g v ws) = bf_get f ws.
Proof.
  intros Hf Hg Hd. apply (bf_get_ext n); [done|]. intros i Hi. unfold bf_set.
  destruct (decide (bf_index g < length ws)%nat) as [Hlt|Hge];
    [|by rewrite list_insert_ge by lia].
  rewrite lookup_total_insert_list by lia. case_decide as He; [|done].
  pose proof Hf as Hf'. unfold wf_bf in Hf'. rewrite bool_decide_eq_true in Hf'.
  rewrite Z.lor_spec, (bf_place_testbit m), Z.land_spec, wnot_testbit, (place_mask_testbit m)
    by (done || lia).
  rewrite (bf_disjoint_bits f g) by done. rewrite He. rewrite decide_True by lia. cbn.
  by rewrite andb_true_r, orb_false_r.
Qed.

Lemma bf_raw_or_other n m f g v ws :
  wf_bf n f = true -> wf_bf m g = true -> disjoint_bf f g = true ->
  bf_raw f (bf_or ws (g, v)) = bf_raw f ws.
Proof.
  intros Hf Hg Hd. apply (bf_raw_ext n); [done|]. intros i Hi. unfold bf_or.
  destruct (decide (bf_index g < length ws)%nat) as [Hlt|Hge];
    [|by rewrite list_insert_ge by lia].
  rewrite lookup_total_insert_list by lia. case_decide as He; [|done].
  pose proof Hf as Hf'. unfold wf_bf in Hf'. rewrite bool_decide_eq_true in Hf'.
  rewrite Z.lor_spec, (bf_place_testbit m) by (done || lia).
  rewrite (bf_disjoint_bits f g) by done. rewrite He. cbn. by rewrite orb_false_r.
Qed.

Lemma bf_get_or_other n m f g v ws :
  wf_bf n f = true -> wf_bf m g = true -> disjoint_bf f g = true ->
  bf_get f (bf_or ws (g, v)) = bf_get f ws.
Proof. intros Hf Hg Hd. rewrite !bf_get_raw. by rewrite (bf_raw_or_other n m). Qed.

Lemma bf_set_or_length fs ws : length (foldl bf_or ws fs) = length ws.
Proof.
  revert ws. induction fs as [|[f v] fs IH]; intros ws; cbn; [done|].
  by rewrite IH, length_insert.
Qed.

Lemma foldl_bf_or_other n fs f ws :
  wf_bf n f = true ->
  (forall g v, (g, v) ∈ fs -> wf_bf n g = true /\ disjoint_bf f g = true) ->
  bf_raw f (foldl bf_or ws fs) = bf_raw f ws.
Proof.
  intros Hf. revert ws. induction fs as [|[g v] fs IH]; intros ws H; cbn -[bf_or]; [done|].
  destruct (H g v) as [Hg Hd]; [set_solver|].
  rewrite IH by set_solver. by apply (bf_raw_or_other n n).
Qed.

Lemma bf_raw_zero n f : wf_bf n f = true -> bf_raw f (replicate n 0) = 0.
Proof.
  intros Hf. apply Z.bits_inj'. intros i Hi. rewrite (bf_raw_testbit n) by done.
  rewrite (list_lookup_total_correct _ _ 0); [by rewrite !Z.bits_0|].
  apply lookup_replicate_2. by apply wf_bf_index.
Qed.

(** The tag step of a constructor is a constructor step on [type_bf]. *)
Lemma bf_new_foldl b (fs : list (bitfield * Z)) ty :
  0 <= bs_type_bits b < 64 -> is_word ty ->
  bf_new b fs ty = foldl bf_or (replicate (bs_words b) 0) (fs ++ [(type_bf b, ty)]).
Proof.
  intros Hb Hty. rewrite foldl_app. unfold bf_new. cbn -[wshl]. f_equal. f_equal. f_equal.
  rewrite MASK_spec by lia. unfold wshr. cbn. rewrite Z.shiftr_0_r. f_equal.
  apply Z.bits_inj'. intros i Hi. rewrite bf_mask_testbit by lia.
  rewrite Z.testbit_ones_nonneg by lia. apply ltb_bd.
Qed.

Lemma foldl_bf_or_get n (fs : list (bitfield * Z)) f v ws :
  length ws = n ->
  forallb (wf_bf n) (fst <$> fs) = true -> pairwise_disjoint (fst <$> fs) = true ->
  (forall g, g ∈ (fst <$> fs) -> bf_raw g ws = 0) ->
  (f, v) ∈ fs -> bf_get f (foldl bf_or ws fs) = bf_norm f v.
Proof.
  revert ws. induction fs as [|[g w] fs IH]; intros ws Hl Hwf Hpd Hz Hin; [set_solver|].
  cbn in Hwf, Hpd. apply andb_true_iff in Hwf as [Hg Hwf]. apply andb_true_iff in Hpd as [Hd Hpd].
  assert (forall g', g' ∈ fs.*1 -> disjoint_bf g g' = true) as Hdg.
  { intros g' Hg'. rewrite forallb_forall in Hd. apply Hd. by apply list_elem_of_In. }
  assert (forall g', g' ∈ fs.*1 -> wf_bf n g' = true) as Hwg.
  { intros g' Hg'. rewrite forallb_forall in Hwf. apply Hwf. by apply list_elem_of_In. }
  apply elem_of_cons in Hin as [[= -> ->]|Hin].
  - cbn -[bf_or]. rewrite bf_get_raw, (foldl_bf_or_other n); [|done|].
    + rewrite <- bf_get_raw. apply (bf_or_same n); [done|done|]. apply Hz. set_solver.
    + intros g' v' Hg'. assert (g' ∈ fs.*1) by (apply list_elem_of_fmap; by exists (g', v')).
      auto.
  - cbn -[bf_or]. apply IH; [by rewrite bf_or_length|done|done| |done].
    intros g' Hg'. rewrite (bf_raw_or_other n n); [apply Hz; set_solver|auto|done|].
    rewrite disjoint_bf_sym. auto.
Qed.

Lemma variant_ok_inv b fs :
  variant_ok b fs = true ->
  forallb (wf_bf (bs_words b)) fs = true /\ wf_bf (bs_words b) (type_bf b) = true /\
  pairwise_disjoint fs = true /\ (forall f, f ∈ fs -> disjoint_bf (type_bf b) f = true) /\
  0 <= bs_type_bits b < 64.
Proof.
  unfold variant_ok. cbn. rewrite !andb_true_iff, bool_decide_eq_true.
  intros [[[Ht Hf] [Hd Hp]] Hb]. repeat split; try done.
  - rewrite forallb_forall in Hd. intros f Hin. apply Hd. by apply list_elem_of_In.
  - unfold wf_bf in Ht. rewrite bool_decide_eq_true in Ht. cbn in Ht. lia.
Qed.

Lemma forallb_app_iff {A} (P : A -> bool) l1 l2 :
  forallb P (l1 ++ l2) = (forallb P l1 && forallb P l2)%bool.
Proof. induction l1 as [|x l1 IH]; cbn; [done|]. by rewrite IH, andb_assoc. Qed.

Lemma pairwise_disjoint_snoc fs f :
  pairwise_disjoint fs = true -> (forall g, g ∈ fs -> disjoint_bf f g = true) ->
  pairwise_disjoint (fs ++ [f]) = true.
Proof.
  induction fs as [|g fs IH]; cbn; [done|]. rewrite !andb_true_iff. intros [Hd Hp] Hf.
  rewrite forallb_app_iff. cbn. rewrite Hd, disjoint_bf_sym, Hf by set_solver.
  split; [done|]. apply IH; [done|]. set_solver.
Qed.

Lemma variant_fold_ok b (fvs : list (bitfield * Z)) ty :
  variant_ok b (fst <$> fvs) = true ->
  forallb (wf_bf (bs_words b)) (fst <$> (fvs ++ [(type_bf b, ty)])) = true /\
  pairwise_disjoint (fst <$> (fvs ++ [(type_bf b, ty)])) = true.
Proof.
  intros (Hf & Ht & Hp & Hd & Hb)%variant_ok_inv. rewrite fmap_app. cbn. split.
  - rewrite forallb_app_iff. cbn. by rewrite Hf, Ht.
  - apply pairwise_disjoint_snoc; done.
Qed.

Lemma bf_new_get_gen b (fvs : list (bitfield * Z)) ty f v :
  variant_ok b (fst <$> fvs) = true -> is_word ty ->
  (f, v) ∈ fvs ++ [(type_bf b, ty)] -> bf_get f (bf_new b fvs ty) = bf_norm f v.
Proof.
  intros Hok Hty Hin.
  pose proof (variant_ok_inv _ _ Hok) as (_ & _ & _ & _ & Hb).
  destruct (variant_fold_ok b fvs ty Hok) as [Hwf Hpd].
  rewrite bf_new_foldl by done. apply (foldl_bf_or_get (bs_words b)); try done.
  - apply length_replicate.
  - intros g Hg. apply (bf_raw_zero (bs_words b)).
    rewrite forallb_forall in Hwf. apply Hwf. by apply list_elem_of_In.
Qed.

Lemma bf_type_get b ws :
  0 <= bs_type_bits b < 64 -> bf_type b ws = bf_get (type_bf b) ws.
Proof.
  intros Hb. unfold bf_type, bf_get. cbn -[wshr]. unfold wshl. cbn. rewrite Z.shiftl_0_r.
  rewrite MASK_spec by lia.
  assert (bf_mask (bs_type_bits b) = Z.ones (bs_type_bits b)) as ->.
  { apply Z.bits_inj'. intros i Hi. rewrite bf_mask_testbit by lia.
    rewrite Z.testbit_ones_nonneg by lia. symmetry. apply ltb_bd. }
  symmetry. apply wrap_id. rewrite Z.land_ones by lia.
  pose proof (Z.mod_pos_bound (wshr (ws !!! bs_type_index b) (bs_type_offset b))
    (2 ^ bs_type_bits b) ltac:(lia)).
  assert (2 ^ bs_type_bits b < 2 ^ 64) by (apply Z.pow_lt_mono_r; lia).
  unfold is_word. lia.
Qed.

(** A value that fits a field without sign extension is kept whole. *)
Lemma bf_norm_small f v :
  bf_sign f = false -> bf_shift f = 0 -> 0 <= bf_bits f <= 64 -> 0 <= v < 2 ^ bf_bits f ->
  bf_norm f v = v.
Proof.
  intros Hs Hsh Hb Hv. unfold bf_norm. rewrite Hs, Hsh. unfold bf_sext. cbn.
  unfold wshr. cbn. rewrite Z.shiftr_0_r. unfold wshl. cbn. rewrite Z.shiftl_0_r.
  assert (bf_mask (bf_bits f) = Z.ones (bf_bits f)) as ->.
  { apply Z.bits_inj'. intros i Hi. rewrite bf_mask_testbit by lia.
    rewrite Z.testbit_ones_nonneg by lia. symmetry. apply ltb_bd. }
  rewrite Z.land_ones by lia. rewrite Z.mod_small by lia. apply wrap_id.
  assert (2 ^ bf_bits f <= 2 ^ 64) by (apply Z.pow_le_mono_r; lia). unfold is_word. lia.
Qed.
End bitfield_lemmas.

(** Any constructor argument is read back by its getter, up to the bits the
    field keeps. *)
Lemma bf_new_get b (fvs : list (bitfield * Z)) ty f v :
  variant_ok b (fst <$> fvs) = true -> is_word ty -> (f, v) ∈ fvs ->
  bf_get f (bf_new b fvs ty) = bf_norm f v.
Proof. intros Hok Hty Hin. apply bf_new_get_gen; [done|done|set_solver]. Qed.

Lemma bf_new_type b (fvs : list (bitfield * Z)) ty :
  variant_ok b (fst <$> fvs) = true -> 0 <= ty < 2 ^ bs_type_bits b ->
  bf_type b (bf_new b fvs ty) = ty.
Proof.
  intros Hok Hty. pose proof (variant_ok_inv _ _ Hok) as (_ & _ & _ & _ & Hb).
  assert (2 ^ bs_type_bits b < 2 ^ 64) by (apply Z.pow_lt_mono_r; lia).
  rewrite bf_type_get by done. rewrite (bf_new_get_gen _ _ _ _ ty); [|done|unfold is_word; lia|set_solver].
  apply bf_norm_small; cbn; (done || lia).
Qed.

Lemma bf_set_type b fs f v ws :
  variant_ok b fs = true -> f ∈ fs -> bf_type b (bf_set f v ws) = bf_type b ws.
Proof.
  intros Hok Hin. pose proof (variant_ok_inv _ _ Hok) as (Hf & Ht & _ & Hd & Hb).
  rewrite !bf_type_get by done. apply (bf_get_set_other (bs_words b) (bs_words b)); [done| |auto].
  rewrite forallb_forall in Hf. apply Hf. by apply list_elem_of_In.
Qed.

Lemma bf_mask_ones n : 0 <= n <= 64 -> bf_mask n = Z.ones n.
Proof.
  intros Hn. apply Z.bits_inj'. intros i Hi. rewrite bf_mask_testbit by lia.
  rewrite Z.testbit_ones_nonneg by lia. symmetry. apply ltb_bd.
Qed.

(** A field without shift and sign is a number of [bf_bits] bits. *)
Lemma bf_get_bound n f ws :
  wf_bf n f = true -> bf_sign f = false -> bf_shift f = 0 -> 0 <= bf_get f ws < 2 ^ bf_bits f.
Proof.
  unfold wf_bf. rewrite bool_decide_eq_true. intros Hf Hs Hsh.
  unfold bf_get. rewrite Hs, Hsh, bf_mask_ones by lia. unfold bf_sext. cbn [andb].
  unfold wshl. rewrite Z.land_0_l, Z.shiftl_0_r, Z.land_ones by lia.
  pose proof (Z.mod_pos_bound (wshr (ws !!! bf_index f) (bf_offset f)) (2 ^ bf_bits f) ltac:(lia)).
  assert (2 ^ bf_bits f <= 2 ^ 64) by (apply Z.pow_le_mono_r; lia).
  rewrite wrap_id by (unfold is_word; lia). lia.
Qed.

(** The last write of a field wins. *)
Lemma bf_set_set n f v w ws :
  wf_bf n f = true -> length ws = n -> bf_set f v (bf_set f w ws) = bf_set f v ws.
Proof.
  intros Hf Hl. pose proof (wf_bf_index _ _ Hf) as Hk. unfold bf_set.
  rewrite lookup_total_insert_list by lia. rewrite decide_True by done.
  rewrite list_insert_insert_eq. f_equal. apply Z.bits_inj'. intros i Hi.
  rewrite !Z.lor_spec, !(bf_place_testbit n), !Z.land_spec, !Z.lor_spec, !Z.land_spec,
    !(bf_place_testbit n), !wnot_testbit, !(place_mask_testbit n) by done.
  unfold wf_bf in Hf. rewrite bool_decide_eq_true in Hf.
  destruct (decide (bf_offset f <= i < bf_offset f + bf_bits f)).
  - rewrite !bool_decide_true by done. rewrite decide_True by lia. cbn. by rewrite !andb_false_r.
  - rewrite !bool_decide_false by done. cbn. rewrite !orb_false_r. by case_decide; rewrite ?andb_true_r; destruct (Z.testbit _ _).
Qed.

#[global] Arguments bf_get : simpl never.
#[global] Arguments bf_set : simpl never.
#[global] Arguments bf_new : simpl never.
#[global] Arguments bf_type : simpl never.
#[global] Arguments bf_norm : simpl never.
(** Unification unfolds the accessors last. *)
Strategy 100 [bf_get bf_set bf_norm bf_new bf_type].
