(* ===== verification/Common.v ===== *)
(** * sel4_common: configuration, enumerations and small structures

    Constants of [sel4_config.rs] (aarch64, single core), the exception codes,
    capability and VM rights, message infos, faults, object types, invocation
    labels, thread registers and the IPC buffer layout. *)

From stdpp Require Import base numbers gmap list.
From S2P Require Import Prelude Bitfield.
Local Open Scope Z_scope.
Local Open Scope krn_scope.

(** ** Configuration *)
(* src: sel4_common/src/sel4_config.rs 4-4 wordRadix *)
Definition wordRadix : Z := 6.
(* src: sel4_common/src/sel4_config.rs 5-5 wordBits *)
Definition wordBits : Z := BIT wordRadix.
(* src: sel4_common/src/sel4_config.rs 6-6 seL4_EndpointBits *)
Definition seL4_EndpointBits : Z := 4.
(* src: sel4_common/src/sel4_config.rs 7-7 seL4_NotificationBits *)
Definition seL4_NotificationBits : Z := 4.
(* src: sel4_common/src/sel4_config.rs 8-8 seL4_SlotBits *)
Definition seL4_SlotBits : Z := 5.
(* src: sel4_common/src/sel4_config.rs 9-9 seL4_ReplyBits *)
Definition seL4_ReplyBits : Z := 4.
(* src: sel4_common/src/sel4_config.rs 10-10 seL4_MinUntypedBits *)
Definition seL4_MinUntypedBits : Z := 4.
(* src: sel4_common/src/sel4_config.rs 11-11 seL4_MaxUntypedBits *)
Definition seL4_MaxUntypedBits : Z := 38.
(* src: sel4_common/src/sel4_config.rs 14-14 PT_SIZE_BITS *)
Definition PT_SIZE_BITS : Z := 12.
(* src: sel4_common/src/sel4_config.rs 22-22 ARM_Small_Page *)
Definition ARM_Small_Page : Z := 0.
(* src: sel4_common/src/sel4_config.rs 23-23 ARM_Large_Page *)
Definition ARM_Large_Page : Z := 1.
(* src: sel4_common/src/sel4_config.rs 24-24 ARM_Huge_Page *)
Definition ARM_Huge_Page : Z := 2.
(* src: sel4_common/src/sel4_config.rs 30-30 ARMSmallPageBits *)
Definition ARMSmallPageBits : Z := 12.
(* src: sel4_common/src/sel4_config.rs 31-31 ARMLargePageBits *)
Definition ARMLargePageBits : Z := 21.
(* src: sel4_common/src/sel4_config.rs 32-32 ARMHugePageBits *)
Definition ARMHugePageBits : Z := 30.
(* src: sel4_common/src/sel4_config.rs 34-34 PT_INDEX_BITS *)
Definition PT_INDEX_BITS : Z := 9.
(* src: sel4_common/src/sel4_config.rs 35-35 PD_INDEX_BITS *)
Definition PD_INDEX_BITS : Z := 9.
(* src: sel4_common/src/sel4_config.rs 37-37 PUD_INDEX_BITS *)
Definition PUD_INDEX_BITS : Z := 9.
(* src: sel4_common/src/sel4_config.rs 38-38 PGD_INDEX_BITS *)
Definition PGD_INDEX_BITS : Z := 9.
(* src: sel4_common/src/sel4_config.rs 40-40 seL4_PageBits *)
Definition seL4_PageBits : Z := 12.
(* src: sel4_common/src/sel4_config.rs 41-41 seL4_PageTableBits *)
Definition seL4_PageTableBits : Z := 12.
(* src: sel4_common/src/sel4_config.rs 48-49 seL4_VSpaceBits *)
Definition seL4_VSpaceBits : Z := 12.
(* src: sel4_common/src/sel4_config.rs 51-51 PT_INDEX_OFFSET *)
Definition PT_INDEX_OFFSET : Z := seL4_PageBits.
(* src: sel4_common/src/sel4_config.rs 52-52 PD_INDEX_OFFSET *)
Definition PD_INDEX_OFFSET : Z := PT_INDEX_OFFSET + PT_INDEX_BITS.
(* src: sel4_common/src/sel4_config.rs 53-53 PUD_INDEX_OFFSET *)
Definition PUD_INDEX_OFFSET : Z := PD_INDEX_OFFSET + PD_INDEX_BITS.
(* src: sel4_common/src/sel4_config.rs 55-55 PGD_INDEX_OFFSET *)
Definition PGD_INDEX_OFFSET : Z := PUD_INDEX_OFFSET + PUD_INDEX_BITS.
(* src: sel4_common/src/sel4_config.rs 58-58 asidLowBits *)
Definition asidLowBits : Z := 9.
(* src: sel4_common/src/sel4_config.rs 59-59 asidHighBits *)
Definition asidHighBits : Z := 7.
(* src: sel4_common/src/sel4_config.rs 60-60 asidInvalid *)
Definition asidInvalid : Z := 0.
(* src: sel4_common/src/sel4_config.rs 61-61 nASIDPools *)
Definition nASIDPools : Z := BIT asidHighBits.
(* src: sel4_common/src/sel4_config.rs 63-63 seL4_ASIDPoolBits *)
Definition seL4_ASIDPoolBits : Z := 12.
(* src: sel4_common/src/sel4_config.rs 70-70 CONFIG_NUM_DOMAINS *)
Definition CONFIG_NUM_DOMAINS : Z := 1.
(* src: sel4_common/src/sel4_config.rs 71-71 CONFIG_NUM_PRIORITIES *)
Definition CONFIG_NUM_PRIORITIES : Z := 256.
(* src: sel4_common/src/sel4_config.rs 72-72 L2_BITMAP_SIZE *)
Definition L2_BITMAP_SIZE : Z := (CONFIG_NUM_PRIORITIES + wordBits - 1) / wordBits.
(* src: sel4_common/src/sel4_config.rs 73-73 NUM_READY_QUEUES *)
Definition NUM_READY_QUEUES : Z := CONFIG_NUM_DOMAINS * CONFIG_NUM_PRIORITIES.
(* src: sel4_common/src/sel4_config.rs 74-74 CONFIG_TIME_SLICE *)
Definition CONFIG_TIME_SLICE : Z := 5.
(* src: sel4_common/src/sel4_config.rs 79-80 seL4_TCBBits *)
Definition seL4_TCBBits : Z := 11.
(* src: sel4_common/src/sel4_config.rs 81-81 TCB_SIZE_BITS *)
Definition TCB_SIZE_BITS : Z := seL4_TCBBits - 1.
(* src: sel4_common/src/sel4_config.rs 82-82 TCB_OFFSET *)
Definition TCB_OFFSET : Z := BIT TCB_SIZE_BITS.
(* src: sel4_common/src/sel4_config.rs 83-83 tcbCTable *)
Definition tcbCTable : Z := 0.
(* src: sel4_common/src/sel4_config.rs 84-84 tcbVTable *)
Definition tcbVTable : Z := 1.
(* src: sel4_common/src/sel4_config.rs 85-85 tcbReply *)
Definition tcbReply : Z := 2.
(* src: sel4_common/src/sel4_config.rs 86-86 tcbCaller *)
Definition tcbCaller : Z := 3.
(* src: sel4_common/src/sel4_config.rs 87-87 tcbBuffer *)
Definition tcbBuffer : Z := 4.
(* src: sel4_common/src/sel4_config.rs 88-88 tcbCNodeEntries *)
Definition tcbCNodeEntries : Z := 5.
(* src: sel4_common/src/sel4_config.rs 112-112 seL4_MsgMaxLength *)
Definition seL4_MsgMaxLength : Z := 120.
(* src: sel4_common/src/sel4_config.rs 113-113 seL4_MsgExtraCapBits *)
Definition seL4_MsgExtraCapBits : Z := 2.
(* src: sel4_common/src/sel4_config.rs 114-114 seL4_MsgMaxExtraCaps *)
Definition seL4_MsgMaxExtraCaps : Z := BIT seL4_MsgExtraCapBits - 1.
(* src: sel4_common/src/sel4_config.rs 115-115 MessageID_Syscall *)
Definition MessageID_Syscall : Z := 0.
(* src: sel4_common/src/sel4_config.rs 116-116 MessageID_Exception *)
Definition MessageID_Exception : Z := 1.
(* src: sel4_common/src/sel4_config.rs 118-118 seL4_IPCBufferSizeBits *)
Definition seL4_IPCBufferSizeBits : Z := 10.
(* src: sel4_common/src/sel4_config.rs 120-120 CONFIG_RESET_CHUNK_BITS *)
Definition CONFIG_RESET_CHUNK_BITS : Z := 8.

(** ** Error codes of the system-call interface *)
(* src: sel4_common/src/sel4_config.rs 98-98 seL4_NoError *)
Definition seL4_NoError : Z := 0.
(* src: sel4_common/src/sel4_config.rs 99-99 seL4_InvalidArgument *)
Definition seL4_InvalidArgument : Z := 1.
(* src: sel4_common/src/sel4_config.rs 100-100 seL4_InvalidCapability *)
Definition seL4_InvalidCapability : Z := 2.
(* src: sel4_common/src/sel4_config.rs 101-101 seL4_IllegalOperation *)
Definition seL4_IllegalOperation : Z := 3.
(* src: sel4_common/src/sel4_config.rs 102-102 seL4_RangeError *)
Definition seL4_RangeError : Z := 4.
(* src: sel4_common/src/sel4_config.rs 103-103 seL4_AlignmentError *)
Definition seL4_AlignmentError : Z := 5.
(* src: sel4_common/src/sel4_config.rs 104-104 seL4_FailedLookup *)
Definition seL4_FailedLookup : Z := 6.
(* src: sel4_common/src/sel4_config.rs 105-105 seL4_TruncatedMessage *)
Definition seL4_TruncatedMessage : Z := 7.
(* src: sel4_common/src/sel4_config.rs 106-106 seL4_DeleteFirst *)
Definition seL4_DeleteFirst : Z := 8.
(* src: sel4_common/src/sel4_config.rs 107-107 seL4_RevokeFirst *)
Definition seL4_RevokeFirst : Z := 9.
(* src: sel4_common/src/sel4_config.rs 108-108 seL4_NotEnoughMemory *)
Definition seL4_NotEnoughMemory : Z := 10.

(* src: sel4_common/src/structures.rs 10-17 exception_t *)
Inductive exception_t : Type :=
| EXCEPTION_NONE | EXCEPTION_FAULT | EXCEPTION_LOOKUP_FAULT | EXCEPTION_SYSCALL_ERROR
| EXCEPTION_PREEMTED.
#[export] Instance exception_t_eq_dec : EqDecision exception_t.
Proof. solve_decision. Defined.

(** ** Capability rights *)
(* src: sel4_common/src/cap_rights.rs 3-12 seL4_CapRights_t *)
Definition seL4_CapRights_t : bitstruct := Bs 1 0 0 0.
(* src: sel4_common/src/cap_rights.rs 6-6 allow_grant_reply *)
Definition allow_grant_reply : bitfield := Bf 0 3 1 0 false.
(* src: sel4_common/src/cap_rights.rs 7-7 allow_grant *)
Definition allow_grant : bitfield := Bf 0 2 1 0 false.
(* src: sel4_common/src/cap_rights.rs 8-8 allow_read *)
Definition allow_read : bitfield := Bf 0 1 1 0 false.
(* src: sel4_common/src/cap_rights.rs 9-9 allow_write *)
Definition allow_write : bitfield := Bf 0 0 1 0 false.
(* src: sel4_common/src/cap_rights.rs 14-19 seL4_CapRights_t::from_word *)
Definition rights_from_word (word : Z) : list Z := [word].

(** ** VM rights *)
(* src: sel4_common/src/arch/aarch64/vm_rights.rs 3-9 vm_rights_t *)
Inductive vm_rights_t : Type := VMKernelOnly | VMReadWrite | VMReadOnly.
#[export] Instance vm_rights_t_eq_dec : EqDecision vm_rights_t.
Proof. solve_decision. Defined.
(* src: sel4_common/src/arch/aarch64/vm_rights.rs 5-9 vm_rights_t *)
Definition vm_rights_to_usize (r : vm_rights_t) : Z :=
  match r with VMKernelOnly => 0 | VMReadWrite => 1 | VMReadOnly => 3 end.
(** The [transmute] of a word that is none of the discriminants is undefined. *)
(* src: sel4_common/src/vm_rights.rs 3-5 vm_rights_from_word *)
Definition vm_rights_from_word (w : Z) : res vm_rights_t :=
  if w =w 0 then Ok VMKernelOnly
  else if w =w 1 then Ok VMReadWrite
  else if w =w 3 then Ok VMReadOnly
  else UB.

(* src: sel4_common/src/arch/aarch64/vm_rights.rs 11-23 maskVMRights *)
Definition maskVMRights (vm_rights : vm_rights_t) (rights : list Z) : vm_rights_t :=
  if bool_decide (vm_rights = VMReadOnly) && (bf_get allow_read rights <>w 0) then VMReadOnly
  else if bool_decide (vm_rights = VMReadWrite) && (bf_get allow_read rights <>w 0) then
    if bf_get allow_write rights <>w 0 then VMReadWrite else VMReadOnly
  else VMKernelOnly.

(** ** Invocation labels *)
(* src: sel4_common/src/arch/aarch64/message_info.rs 1-55 MessageLabel *)
Inductive MessageLabel : Type :=
| InvalidInvocation | UntypedRetype | TCBReadRegisters | TCBWriteRegisters | TCBCopyRegisters
| TCBConfigure | TCBSetPriority | TCBSetMCPriority | TCBSetSchedParams | TCBSetIPCBuffer
| TCBSetSpace | TCBSuspend | TCBResume | TCBBindNotification | TCBUnbindNotification
| TCBSetTLSBase | CNodeRevoke | CNodeDelete | CNodeCancelBadgedSends | CNodeCopy | CNodeMint
| CNodeMove | CNodeMutate | CNodeRotate | CNodeSaveCaller | IRQIssueIRQHandler | IRQAckIRQ
| IRQSetIRQHandler | IRQClearIRQHandler | DomainSetSet | ARMVSpaceClean_Data
| ARMVSpaceInvalidate_Data | ARMVSpaceCleanInvalidate_Data | ARMVSpaceUnify_Instruction
| ARMSMCCall | ARMPageTableMap | ARMPageTableUnmap | ARMPageMap | ARMPageUnmap
| ARMPageClean_Data | ARMPageInvalidate_Data | ARMPageCleanInvalidate_Data
| ARMPageUnify_Instruction | ARMPageGetAddress | ARMASIDControlMakePool | ARMASIDPoolAssign
| ARMIRQIssueIRQHandlerTrigger | nArchInvocationLabels.
#[export] Instance MessageLabel_eq_dec : EqDecision MessageLabel.
Proof. solve_decision. Defined.

(** The constructors in the order of their discriminants. *)
Definition message_labels : list MessageLabel :=
  [InvalidInvocation; UntypedRetype; TCBReadRegisters; TCBWriteRegisters; TCBCopyRegisters;
   TCBConfigure; TCBSetPriority; TCBSetMCPriority; TCBSetSchedParams; TCBSetIPCBuffer;
   TCBSetSpace; TCBSuspend; TCBResume; TCBBindNotification; TCBUnbindNotification;
   TCBSetTLSBase; CNodeRevoke; CNodeDelete; CNodeCancelBadgedSends; CNodeCopy; CNodeMint;
   CNodeMove; CNodeMutate; CNodeRotate; CNodeSaveCaller; IRQIssueIRQHandler; IRQAckIRQ;
   IRQSetIRQHandler; IRQClearIRQHandler; DomainSetSet; ARMVSpaceClean_Data;
   ARMVSpaceInvalidate_Data; ARMVSpaceCleanInvalidate_Data; ARMVSpaceUnify_Instruction;
   ARMSMCCall; ARMPageTableMap; ARMPageTableUnmap; ARMPageMap; ARMPageUnmap;
   ARMPageClean_Data; ARMPageInvalidate_Data; ARMPageCleanInvalidate_Data;
   ARMPageUnify_Instruction; ARMPageGetAddress; ARMASIDControlMakePool; ARMASIDPoolAssign;
   ARMIRQIssueIRQHandlerTrigger; nArchInvocationLabels].
Definition message_label_of (n : Z) : res MessageLabel := or_ub (message_labels !! Z.to_nat n).

(** ** Message information *)
(* src: sel4_common/src/message_info.rs 25-34 seL4_MessageInfo_t *)
Definition seL4_MessageInfo_t : bitstruct := Bs 1 0 0 0.
(* src: sel4_common/src/message_info.rs 28-28 label *)
Definition mi_label : bitfield := Bf 0 12 52 0 false.
(* src: sel4_common/src/message_info.rs 29-29 capsUnwrapped *)
Definition mi_capsUnwrapped : bitfield := Bf 0 9 3 0 false.
(* src: sel4_common/src/message_info.rs 30-30 extraCaps *)
Definition mi_extraCaps : bitfield := Bf 0 7 2 0 false.
(* src: sel4_common/src/message_info.rs 31-31 length *)
Definition mi_length : bitfield := Bf 0 0 7 0 false.
(* src: sel4_common/src/message_info.rs 26-33 seL4_MessageInfo_t::new *)
Definition message_info_new (label capsUnwrapped extraCaps length : Z) : list Z :=
  bf_new seL4_MessageInfo_t
    [(mi_label, label); (mi_capsUnwrapped, capsUnwrapped); (mi_extraCaps, extraCaps);
     (mi_length, length)] 0.
(* src: sel4_common/src/message_info.rs 38-41 seL4_MessageInfo_t::from_word *)
Definition message_info_from_word (w : Z) : list Z := [w].
(* src: sel4_common/src/message_info.rs 44-51 seL4_MessageInfo_t::from_word_security *)
Definition message_info_from_word_security (w : Z) : list Z :=
  let mi := message_info_from_word w in
  if decide (bf_get mi_length mi > seL4_MsgMaxLength) then bf_set mi_length seL4_MsgMaxLength mi
  else mi.
(* src: sel4_common/src/message_info.rs 54-57 seL4_MessageInfo_t::to_word *)
Definition message_info_to_word (mi : list Z) : Z := mi !!! 0%nat.
(** [self.get_usize_label() as u32] keeps the low 32 bits. *)
(* src: sel4_common/src/message_info.rs 60-63 seL4_MessageInfo_t::get_label *)
Definition message_info_get_label (mi : list Z) : res MessageLabel :=
  message_label_of (bf_get mi_label mi &&& Z.ones 32).

(** ** Faults *)
(* src: sel4_common/src/fault.rs 49-69 seL4_Fault_t *)
Definition seL4_Fault_t : bitstruct := Bs 2 0 0 4.
(* src: sel4_common/src/fault.rs 53-53 address *)
Definition cap_fault_address : bitfield := Bf 1 0 64 0 false.
(* src: sel4_common/src/fault.rs 54-54 in_receive_phase *)
Definition cap_fault_in_receive_phase : bitfield := Bf 0 63 1 0 false.
(* src: sel4_common/src/fault.rs 57-57 syscall_number *)
Definition unknown_syscall_syscall_number : bitfield := Bf 1 0 64 0 false.
(* src: sel4_common/src/fault.rs 60-60 number *)
Definition user_exeception_number : bitfield := Bf 0 32 32 0 false.
(* src: sel4_common/src/fault.rs 61-61 code *)
Definition user_exeception_code : bitfield := Bf 0 4 28 0 false.
(* src: sel4_common/src/fault.rs 64-64 address *)
Definition vm_fault_address : bitfield := Bf 1 0 64 0 false.
(* src: sel4_common/src/fault.rs 65-65 fsr *)
Definition vm_fault_fsr : bitfield := Bf 0 32 32 0 false.
(* src: sel4_common/src/fault.rs 66-66 instruction_fault *)
Definition vm_fault_instruction_fault : bitfield := Bf 0 31 1 0 false.

(* src: sel4_common/src/fault.rs 71-78 FaultType *)
Inductive FaultType : Type := NullFault | CapFault | UnknownSyscall | UserException | VMFault.
#[export] Instance FaultType_eq_dec : EqDecision FaultType.
Proof. solve_decision. Defined.
(* src: sel4_common/src/fault.rs 86-86 seL4_Fault_NullFault *)
Definition FaultType_to_usize (t : FaultType) : Z :=
  match t with NullFault => 0 | CapFault => 1 | UnknownSyscall => 2 | UserException => 3
  | VMFault => 5 end.
(* src: sel4_common/src/fault.rs 80-84 seL4_Fault_t::get_fault_type *)
Definition get_fault_type (f : list Z) : res FaultType :=
  match bf_type seL4_Fault_t f with
  | 0 => Ok NullFault | 1 => Ok CapFault | 2 => Ok UnknownSyscall | 3 => Ok UserException
  | 5 => Ok VMFault | _ => UB
  end.
(* src: sel4_common/src/fault.rs 51-51 new_null_fault *)
Definition fault_new_null_fault : list Z := bf_new seL4_Fault_t [] (FaultType_to_usize NullFault).
(* src: sel4_common/src/fault.rs 52-55 new_cap_fault *)
Definition fault_new_cap_fault (address in_receive_phase : Z) : list Z :=
  bf_new seL4_Fault_t [(cap_fault_address, address);
    (cap_fault_in_receive_phase, in_receive_phase)] (FaultType_to_usize CapFault).
(* src: sel4_common/src/fault.rs 56-58 new_unknown_syscall_fault *)
Definition fault_new_unknown_syscall_fault (syscall_number : Z) : list Z :=
  bf_new seL4_Fault_t [(unknown_syscall_syscall_number, syscall_number)]
    (FaultType_to_usize UnknownSyscall).
(* src: sel4_common/src/fault.rs 59-62 new_user_exeception *)
Definition fault_new_user_exeception (number code : Z) : list Z :=
  bf_new seL4_Fault_t [(user_exeception_number, number); (user_exeception_code, code)]
    (FaultType_to_usize UserException).
(* src: sel4_common/src/fault.rs 63-67 new_vm_fault *)
Definition fault_new_vm_fault (address fsr instruction_fault : Z) : list Z :=
  bf_new seL4_Fault_t [(vm_fault_address, address); (vm_fault_fsr, fsr);
    (vm_fault_instruction_fault, instruction_fault)] (FaultType_to_usize VMFault).

(* src: sel4_common/src/fault.rs 93-93 seL4_VMFault_IP *)
Definition seL4_VMFault_IP : Z := 0.
(* src: sel4_common/src/fault.rs 94-94 seL4_VMFault_Addr *)
Definition seL4_VMFault_Addr : Z := 1.
(* src: sel4_common/src/fault.rs 95-95 seL4_VMFault_PrefetchFault *)
Definition seL4_VMFault_PrefetchFault : Z := 2.
(* src: sel4_common/src/fault.rs 96-96 seL4_VMFault_FSR *)
Definition seL4_VMFault_FSR : Z := 3.
(* src: sel4_common/src/fault.rs 97-97 seL4_VMFault_Length *)
Definition seL4_VMFault_Length : Z := 4.
(* src: sel4_common/src/fault.rs 99-99 seL4_CapFault_IP *)
Definition seL4_CapFault_IP : Z := 0.
(* src: sel4_common/src/fault.rs 100-100 seL4_CapFault_Addr *)
Definition seL4_CapFault_Addr : Z := 1.
(* src: sel4_common/src/fault.rs 101-101 seL4_CapFault_InRecvPhase *)
Definition seL4_CapFault_InRecvPhase : Z := 2.
(* src: sel4_common/src/fault.rs 102-102 seL4_CapFault_LookupFailureType *)
Definition seL4_CapFault_LookupFailureType : Z := 3.
(* src: sel4_common/src/fault.rs 103-103 seL4_CapFault_BitsLeft *)
Definition seL4_CapFault_BitsLeft : Z := 4.
(* src: sel4_common/src/fault.rs 104-104 seL4_CapFault_DepthMismatch_BitsFound *)
Definition seL4_CapFault_DepthMismatch_BitsFound : Z := 5.
(* src: sel4_common/src/fault.rs 105-105 seL4_CapFault_GuardMismatch_GuardFound *)
Definition seL4_CapFault_GuardMismatch_GuardFound : Z := seL4_CapFault_DepthMismatch_BitsFound.
(* src: sel4_common/src/fault.rs 106-106 seL4_CapFault_GuardMismatch_BitsFound *)
Definition seL4_CapFault_GuardMismatch_BitsFound : Z := 6.

(** ** Lookup faults *)
(* src: sel4_common/src/fault.rs 109-115 LookupFaultType *)
Inductive LookupFaultType : Type := InvaildRoot | MissingCap | DepthMismatch | GuardMismatch.
#[export] Instance LookupFaultType_eq_dec : EqDecision LookupFaultType.
Proof. solve_decision. Defined.
(* src: sel4_common/src/fault.rs 117-117 lookup_fault_invalid_root *)
Definition LookupFaultType_to_usize (t : LookupFaultType) : Z :=
  match t with InvaildRoot => 0 | MissingCap => 1 | DepthMismatch => 2 | GuardMismatch => 3 end.
(* src: sel4_common/src/fault.rs 122-138 lookup_fault_t *)
Definition lookup_fault_t : bitstruct := Bs 2 0 0 2.
(* src: sel4_common/src/fault.rs 126-126 bits_left *)
Definition missing_cap_bits_left : bitfield := Bf 0 2 7 0 false.
(* src: sel4_common/src/fault.rs 129-129 bits_found *)
Definition depth_mismatch_bits_found : bitfield := Bf 0 9 7 0 false.
(* src: sel4_common/src/fault.rs 130-130 bits_left *)
Definition depth_mismatch_bits_left : bitfield := Bf 0 2 7 0 false.
(* src: sel4_common/src/fault.rs 133-133 guard_found *)
Definition guard_mismatch_guard_found : bitfield := Bf 1 0 64 0 false.
(* src: sel4_common/src/fault.rs 134-134 bits_found *)
Definition guard_mismatch_bits_found : bitfield := Bf 0 9 7 0 false.
(* src: sel4_common/src/fault.rs 135-135 bits_left *)
Definition guard_mismatch_bits_left : bitfield := Bf 0 2 7 0 false.
(* src: sel4_common/src/fault.rs 124-124 new_root_invalid *)
Definition lookup_fault_new_root_invalid : list Z :=
  bf_new lookup_fault_t [] (LookupFaultType_to_usize InvaildRoot).
(* src: sel4_common/src/fault.rs 125-127 new_missing_cap *)
Definition lookup_fault_new_missing_cap (bits_left : Z) : list Z :=
  bf_new lookup_fault_t [(missing_cap_bits_left, bits_left)] (LookupFaultType_to_usize MissingCap).
(* src: sel4_common/src/fault.rs 128-131 new_depth_mismatch *)
Definition lookup_fault_new_depth_mismatch (bits_found bits_left : Z) : list Z :=
  bf_new lookup_fault_t [(depth_mismatch_bits_found, bits_found);
    (depth_mismatch_bits_left, bits_left)] (LookupFaultType_to_usize DepthMismatch).
(* src: sel4_common/src/fault.rs 132-136 new_guard_mismatch *)
Definition lookup_fault_new_guard_mismatch (guard_found bits_found bits_left : Z) : list Z :=
  bf_new lookup_fault_t [(guard_mismatch_guard_found, guard_found);
    (guard_mismatch_bits_found, bits_found); (guard_mismatch_bits_left, bits_left)]
    (LookupFaultType_to_usize GuardMismatch).
(* src: sel4_common/src/fault.rs 140-144 lookup_fault_t::get_lookup_fault_type *)
Definition get_lookup_fault_type (f : list Z) : res LookupFaultType :=
  match bf_type lookup_fault_t f with
  | 0 => Ok InvaildRoot | 1 => Ok MissingCap | 2 => Ok DepthMismatch | 3 => Ok GuardMismatch
  | _ => UB
  end.

(** ** Object types *)
(* src: sel4_common/src/arch/aarch64/object.rs 9-20 ObjectType *)
Inductive ObjectType : Type :=
| UnytpedObject | TCBObject | EndpointObject | NotificationObject | CapTableObject
| seL4_ARM_HugePageObject | seL4_ARM_VSpaceObject | seL4_ARM_SmallPageObject
| seL4_ARM_LargePageObject | seL4_ARM_PageTableObject.
#[export] Instance ObjectType_eq_dec : EqDecision ObjectType.
Proof. solve_decision. Defined.
Definition object_types : list ObjectType :=
  [UnytpedObject; TCBObject; EndpointObject; NotificationObject; CapTableObject;
   seL4_ARM_HugePageObject; seL4_ARM_VSpaceObject; seL4_ARM_SmallPageObject;
   seL4_ARM_LargePageObject; seL4_ARM_PageTableObject].
(** [self as usize] *)
(* src: sel4_common/src/arch/aarch64/object.rs 9-20 ObjectType *)
Definition ObjectType_to_usize (t : ObjectType) : Z :=
  match t with
  | UnytpedObject => 0 | TCBObject => 1 | EndpointObject => 2 | NotificationObject => 3
  | CapTableObject => 4 | seL4_ARM_HugePageObject => 5 | seL4_ARM_VSpaceObject => 6
  | seL4_ARM_SmallPageObject => 7 | seL4_ARM_LargePageObject => 8 | seL4_ARM_PageTableObject => 9
  end.
(* src: sel4_common/src/object.rs 13-14 seL4_ObjectTypeCount *)
Definition seL4_ObjectTypeCount : Z := ObjectType_to_usize seL4_ARM_PageTableObject + 1.
(* src: sel4_common/src/object.rs 15-15 seL4_NonArchObjectTypeCount *)
Definition seL4_NonArchObjectTypeCount : Z := ObjectType_to_usize CapTableObject + 1.

(* src: sel4_common/src/arch/aarch64/object.rs 23-32 ObjectType::arch_get_object_size *)
Definition arch_get_object_size (t : ObjectType) : res Z :=
  match t with
  | seL4_ARM_SmallPageObject => Ok ARMSmallPageBits
  | seL4_ARM_LargePageObject => Ok ARMLargePageBits
  | seL4_ARM_HugePageObject => Ok ARMHugePageBits
  | seL4_ARM_PageTableObject => Ok seL4_PageTableBits
  | seL4_ARM_VSpaceObject => Ok seL4_VSpaceBits
  | _ => Panic
  end.
(* src: sel4_common/src/arch/aarch64/object.rs 39-48 ObjectType::get_frame_type *)
Definition get_frame_type (t : ObjectType) : res Z :=
  match t with
  | seL4_ARM_SmallPageObject => Ok ARM_Small_Page
  | seL4_ARM_LargePageObject => Ok ARM_Large_Page
  | seL4_ARM_HugePageObject => Ok ARM_Huge_Page
  | _ => Panic
  end.
(* src: sel4_common/src/arch/aarch64/object.rs 54-63 ObjectType::is_arch_type *)
Definition is_arch_type (t : ObjectType) : bool :=
  match t with
  | seL4_ARM_HugePageObject | seL4_ARM_SmallPageObject | seL4_ARM_LargePageObject
  | seL4_ARM_PageTableObject | seL4_ARM_VSpaceObject => true
  | _ => false
  end.
(* src: sel4_common/src/object.rs 27-39 ObjectType::get_object_size *)
Definition get_object_size (t : ObjectType) (user_object_size : Z) : res Z :=
  if decide (ObjectType_to_usize t >= seL4_NonArchObjectTypeCount) then arch_get_object_size t
  else match t with
  | UnytpedObject => Ok user_object_size
  | TCBObject => Ok seL4_TCBBits
  | EndpointObject => Ok seL4_EndpointBits
  | NotificationObject => Ok seL4_NotificationBits
  | CapTableObject => Ok (wadd seL4_SlotBits user_object_size)
  | _ => Panic
  end.
(* src: sel4_common/src/object.rs 50-55 ObjectType::from_usize *)
Definition ObjectType_from_usize (value : Z) : option ObjectType :=
  if decide (value >= seL4_ObjectTypeCount) then None
  else object_types !! Z.to_nat (value &&& Z.ones 8).

(** ** Registers *)
(* src: sel4_common/src/arch/aarch64/registers.rs 60-60 CONTEXT_REG_NUM *)
Definition CONTEXT_REG_NUM : Z := 37.
(* src: sel4_common/src/arch/aarch64/registers.rs 49-49 SPSR_EL1 *)
Definition SPSR_EL1 : Z := 33.
(* src: sel4_common/src/arch/aarch64/registers.rs 47-47 ELR_EL1 *)
Definition ELR_EL1 : Z := 32.
(* src: sel4_common/src/arch/aarch64/registers.rs 61-61 n_exceptionMessage *)
Definition n_exceptionMessage : Z := 3.
(* src: sel4_common/src/arch/aarch64/registers.rs 62-62 n_syscallMessage *)
Definition n_syscallMessage : Z := 12.
(* src: sel4_common/src/arch/aarch64/registers.rs 63-63 msgRegisterNum *)
Definition msgRegisterNum : Z := 4.
(* src: sel4_common/src/arch/aarch64/registers.rs 64-64 msgRegister *)
Definition msgRegister : list Z := [2; 3; 4; 5].
(* src: sel4_common/src/arch/aarch64/registers.rs 66-69 fault_messages *)
Definition fault_messages : list (list Z) :=
  [[0; 1; 2; 3; 4; 5; 6; 7; 34; 31; 32; 33]; [34; 31; 33; 0; 0; 0; 0; 0; 0; 0; 0; 0]].
(* src: sel4_common/src/arch/aarch64/registers.rs 70-70 frameRegNum *)
Definition frameRegNum : Z := 17.
(* src: sel4_common/src/arch/aarch64/registers.rs 71-71 gpRegNum *)
Definition gpRegNum : Z := 19.
(* src: sel4_common/src/arch/aarch64/registers.rs 72-73 frameRegisters *)
Definition frameRegisters : list Z := [34; 31; 33; 0; 1; 2; 3; 4; 5; 6; 7; 8; 16; 17; 18; 29; 30].
(* src: sel4_common/src/arch/aarch64/registers.rs 74-76 gpRegisters *)
Definition gpRegisters : list Z :=
  [9; 10; 11; 12; 13; 14; 15; 19; 20; 21; 22; 23; 24; 25; 26; 27; 28; 35; 36].

(* src: sel4_common/src/arch/mod.rs 51-69 ArchReg *)
Inductive ArchReg : Type :=
| TlsBase | RCap | RBadge | RMsgInfo | RFaultIP | RNextIP
| RMsg (i : Z) | RFrame (i : Z) | RGP (i : Z) | RFaultMessage (id index : Z).
(* src: sel4_common/src/arch/aarch64/registers.rs 78-94 ArchReg::to_index *)
Definition to_index (r : ArchReg) : res Z :=
  match r with
  | TlsBase => Ok 35 | RCap => Ok 0 | RBadge => Ok 0 | RMsgInfo => Ok 1
  | RFaultIP => Ok 34 | RNextIP => Ok 32
  | RMsg i => idx msgRegister i
  | RFrame i => idx frameRegisters i
  | RGP i => idx gpRegisters i
  | RFaultMessage id index => idx fault_messages id ≫= fun row => idx row index
  end.
(** The register file of a thread ([ArchTCB::registers]; the FPU context is
    saved and restored by assembly only and is left out). *)
(* src: sel4_common/src/arch/mod.rs 20-22 ArchTCB::set_register *)
Definition set_register (regs : list Z) (reg : ArchReg) (w : Z) : res (list Z) :=
  to_index reg ≫= fun i => upd regs i w.
(* src: sel4_common/src/arch/mod.rs 30-32 ArchTCB::get_register *)
Definition get_register (regs : list Z) (reg : ArchReg) : res Z :=
  to_index reg ≫= fun i => idx regs i.
(* src: sel4_common/src/arch/mod.rs 36-38 ArchTCB::copy_range *)
Definition copy_range (regs source : list Z) (lo hi : nat) : list Z :=
  take lo regs ++ take (hi - lo) (drop lo source) ++ drop hi regs.
(* src: sel4_common/src/arch/aarch64/arch_tcb.rs 35-48 ArchTCB::default *)
Definition ArchTCB_default : list Z :=
  <[Z.to_nat SPSR_EL1 := Z.lor (Z.shiftl 1 6) (Z.shiftl 1 8)]> (replicate (Z.to_nat CONTEXT_REG_NUM) 0).
(* src: sel4_common/src/arch/aarch64/arch_tcb.rs 50-54 ArchTCB::config_idle_thread *)
Definition config_idle_thread (regs : list Z) (idle_thread : Z) : res (list Z) :=
  upd regs ELR_EL1 idle_thread ≫= fun r =>
  upd r SPSR_EL1 (Z.lor (Z.lor (Z.shiftl 1 6) 5) (Z.shiftl 1 8)).

(** ** The IPC buffer

    [seL4_IPCBuffer] is [repr(C)]: 128 words.  The fields are word offsets. *)
(* src: sel4_common/src/structures.rs 19-37 seL4_IPCBuffer *)
Definition ipcbuf_words : Z := 128.
(* src: sel4_common/src/structures.rs 24-24 tag *)
Definition ipcbuf_tag : Z := 0.
(* src: sel4_common/src/structures.rs 26-26 msg *)
Definition ipcbuf_msg : Z := 1.
(* src: sel4_common/src/structures.rs 28-28 userData *)
Definition ipcbuf_userData : Z := ipcbuf_msg + seL4_MsgMaxLength.
(* src: sel4_common/src/structures.rs 30-30 caps_or_badges *)
Definition ipcbuf_caps_or_badges : Z := ipcbuf_userData + 1.
(* src: sel4_common/src/structures.rs 32-32 receiveCNode *)
Definition ipcbuf_receiveCNode : Z := ipcbuf_caps_or_badges + seL4_MsgMaxExtraCaps.
(* src: sel4_common/src/structures.rs 34-34 receiveIndex *)
Definition ipcbuf_receiveIndex : Z := ipcbuf_receiveCNode + 1.
(* src: sel4_common/src/structures.rs 36-36 receiveDepth *)
Definition ipcbuf_receiveDepth : Z := ipcbuf_receiveCNode + 2.
(* src: sel4_common/src/structures.rs 39-43 seL4_IPCBuffer::get_extra_cptr *)
Definition get_extra_cptr (buf : list Z) (i : Z) : res Z :=
  if decide (0 <= i < seL4_MsgMaxExtraCaps) then idx buf (ipcbuf_caps_or_badges + i) else Panic.
