(* ===== verification/Cap.v ===== *)
(** * Capabilities

    [sel4_cspace/src/cap/mod.rs], [cap/zombie.rs] and the aarch64 part
    [sel4_cspace/src/arch/aarch64/mod.rs].  A capability is two words with a
    five-bit tag; every operation on capabilities alone (no slots, no heap) is
    here, as a function of the words.  A tag outside [CapTag] is a
    [transmute] out of range: [UB]. *)

From stdpp Require Import base numbers gmap list.
From S2P Require Import Prelude Bitfield Common.
Local Open Scope Z_scope.
Local Open Scope krn_scope.

(** A capability: the words of [cap_t]. *)
Abbreviation cap := (list Z) (only parsing).

(* src: sel4_cspace/src/arch/aarch64/mod.rs 8-27 CapTag *)
Inductive CapTag : Type :=
| CapNullCap | CapUntypedCap | CapEndpointCap | CapNotificationCap | CapReplyCap | CapCNodeCap
| CapThreadCap | CapIrqControlCap | CapIrqHandlerCap | CapZombieCap | CapDomainCap | CapFrameCap
| CapPageTableCap | CapVspaceCap | CapASIDControlCap | CapASIDPoolCap.
#[export] Instance CapTag_eq_dec : EqDecision CapTag.
Proof. solve_decision. Defined.
Notation "a =t b" := (bool_decide (@eq CapTag a b)) (at level 70, no associativity) : krn_scope.

(** [tag as usize] *)
(* src: sel4_cspace/src/arch/aarch64/mod.rs 10-27 CapTag *)
Definition CapTag_to_usize (t : CapTag) : Z :=
  match t with
  | CapNullCap => 0 | CapUntypedCap => 2 | CapEndpointCap => 4 | CapNotificationCap => 6
  | CapReplyCap => 8 | CapCNodeCap => 10 | CapThreadCap => 12 | CapIrqControlCap => 14
  | CapIrqHandlerCap => 16 | CapZombieCap => 18 | CapDomainCap => 20 | CapFrameCap => 1
  | CapPageTableCap => 3 | CapVspaceCap => 9 | CapASIDControlCap => 11 | CapASIDPoolCap => 13
  end.
(** [transmute::<u8, CapTag>]. *)
Definition CapTag_of (n : Z) : res CapTag :=
  match n with
  | 0 => Ok CapNullCap | 2 => Ok CapUntypedCap | 4 => Ok CapEndpointCap
  | 6 => Ok CapNotificationCap | 8 => Ok CapReplyCap | 10 => Ok CapCNodeCap
  | 12 => Ok CapThreadCap | 14 => Ok CapIrqControlCap | 16 => Ok CapIrqHandlerCap
  | 18 => Ok CapZombieCap | 20 => Ok CapDomainCap | 1 => Ok CapFrameCap
  | 3 => Ok CapPageTableCap | 9 => Ok CapVspaceCap | 11 => Ok CapASIDControlCap
  | 13 => Ok CapASIDPoolCap | _ => UB
  end.

(** ** The structure and its variants *)
(* src: sel4_cspace/src/arch/aarch64/mod.rs 29-30 cap_t *)
Definition cap_t : bitstruct := Bs 2 0 59 5.
(** [cap_t::default()] *)
Definition cap_default : cap := [0; 0].

(* src: sel4_cspace/src/arch/aarch64/mod.rs 33-33 capFreeIndex *)
Definition untyped_free_index : bitfield := Bf 1 16 48 0 false.
(* src: sel4_cspace/src/arch/aarch64/mod.rs 34-34 capIsDevice *)
Definition untyped_is_device : bitfield := Bf 1 6 1 0 false.
(* src: sel4_cspace/src/arch/aarch64/mod.rs 35-35 capBlockSize *)
Definition untyped_block_size : bitfield := Bf 1 0 6 0 false.
(* src: sel4_cspace/src/arch/aarch64/mod.rs 36-36 capPtr *)
Definition untyped_ptr : bitfield := Bf 0 0 48 0 true.
(* src: sel4_cspace/src/arch/aarch64/mod.rs 39-39 capEPBadge *)
Definition ep_badge : bitfield := Bf 1 0 64 0 false.
(* src: sel4_cspace/src/arch/aarch64/mod.rs 40-40 capCanGrantReply *)
Definition ep_can_grant_reply : bitfield := Bf 0 58 1 0 false.
(* src: sel4_cspace/src/arch/aarch64/mod.rs 41-41 capCanGrant *)
Definition ep_can_grant : bitfield := Bf 0 57 1 0 false.
(* src: sel4_cspace/src/arch/aarch64/mod.rs 42-42 capCanSend *)
Definition ep_can_send : bitfield := Bf 0 55 1 0 false.
(* src: sel4_cspace/src/arch/aarch64/mod.rs 43-43 capCanReceive *)
Definition ep_can_receive : bitfield := Bf 0 56 1 0 false.
(* src: sel4_cspace/src/arch/aarch64/mod.rs 44-44 capEPPtr *)
Definition ep_ptr : bitfield := Bf 0 0 48 0 true.
(* src: sel4_cspace/src/arch/aarch64/mod.rs 47-47 capNtfnBadge *)
Definition nf_badge : bitfield := Bf 1 0 64 0 false.
(* src: sel4_cspace/src/arch/aarch64/mod.rs 48-48 capNtfnCanReceive *)
Definition nf_can_receive : bitfield := Bf 0 58 1 0 false.
(* src: sel4_cspace/src/arch/aarch64/mod.rs 49-49 capNtfnCanSend *)
Definition nf_can_send : bitfield := Bf 0 57 1 0 false.
(* src: sel4_cspace/src/arch/aarch64/mod.rs 50-50 capNtfnPtr *)
Definition nf_ptr : bitfield := Bf 0 0 48 0 true.
(* src: sel4_cspace/src/arch/aarch64/mod.rs 53-53 capReplyCanGrant *)
Definition reply_can_grant : bitfield := Bf 0 1 1 0 false.
(* src: sel4_cspace/src/arch/aarch64/mod.rs 54-54 capReplyMaster *)
Definition reply_master : bitfield := Bf 0 0 1 0 false.
(* src: sel4_cspace/src/arch/aarch64/mod.rs 55-55 capTCBPtr *)
Definition reply_tcb_ptr : bitfield := Bf 1 0 64 0 false.
(* src: sel4_cspace/src/arch/aarch64/mod.rs 58-58 capCNodeRadix *)
Definition cnode_radix : bitfield := Bf 0 47 6 0 false.
(* src: sel4_cspace/src/arch/aarch64/mod.rs 59-59 capCNodeGuardSize *)
Definition cnode_guard_size : bitfield := Bf 0 53 6 0 false.
(* src: sel4_cspace/src/arch/aarch64/mod.rs 60-60 capCNodeGuard *)
Definition cnode_guard : bitfield := Bf 1 0 64 0 false.
(* src: sel4_cspace/src/arch/aarch64/mod.rs 61-61 capCNodePtr *)
Definition cnode_ptr : bitfield := Bf 0 0 47 1 true.
(* src: sel4_cspace/src/arch/aarch64/mod.rs 64-64 capTCBPtr *)
Definition tcb_ptr : bitfield := Bf 0 0 48 0 true.
(* src: sel4_cspace/src/arch/aarch64/mod.rs 68-68 capIRQ *)
Definition irq_handler : bitfield := Bf 1 0 12 0 false.
(* src: sel4_cspace/src/arch/aarch64/mod.rs 71-71 capZombieID *)
Definition zombie_id : bitfield := Bf 1 0 64 0 false.
(* src: sel4_cspace/src/arch/aarch64/mod.rs 72-72 capZombieType *)
Definition zombie_type : bitfield := Bf 0 0 7 0 false.
(* src: sel4_cspace/src/arch/aarch64/mod.rs 76-76 capFIsDevice *)
Definition frame_is_device : bitfield := Bf 0 6 1 0 false.
(* src: sel4_cspace/src/arch/aarch64/mod.rs 77-77 capFVMRights *)
Definition frame_vm_rights : bitfield := Bf 0 7 2 0 false.
(* src: sel4_cspace/src/arch/aarch64/mod.rs 78-78 capFMappedAddress *)
Definition frame_mapped_address : bitfield := Bf 0 9 48 0 true.
(* src: sel4_cspace/src/arch/aarch64/mod.rs 79-79 capFSize *)
Definition frame_size : bitfield := Bf 0 57 2 0 false.
(* src: sel4_cspace/src/arch/aarch64/mod.rs 80-80 capFMappedASID *)
Definition frame_mapped_asid : bitfield := Bf 1 48 16 0 false.
(* src: sel4_cspace/src/arch/aarch64/mod.rs 81-81 capFBasePtr *)
Definition frame_base_ptr : bitfield := Bf 1 0 48 0 true.
(* src: sel4_cspace/src/arch/aarch64/mod.rs 85-85 capPTMappedASID *)
Definition pt_mapped_asid : bitfield := Bf 1 48 16 0 false.
(* src: sel4_cspace/src/arch/aarch64/mod.rs 86-86 capPTBasePtr *)
Definition pt_base_ptr : bitfield := Bf 1 0 48 0 true.
(* src: sel4_cspace/src/arch/aarch64/mod.rs 87-87 capPTIsMapped *)
Definition pt_is_mapped : bitfield := Bf 0 48 1 0 false.
(* src: sel4_cspace/src/arch/aarch64/mod.rs 88-88 capPTMappedAddress *)
Definition pt_mapped_address : bitfield := Bf 0 20 28 20 true.
(* src: sel4_cspace/src/arch/aarch64/mod.rs 108-108 capVSMappedASID *)
Definition vs_mapped_asid : bitfield := Bf 1 48 16 0 false.
(* src: sel4_cspace/src/arch/aarch64/mod.rs 109-109 capVSBasePtr *)
Definition vs_base_ptr : bitfield := Bf 1 0 48 0 true.
(* src: sel4_cspace/src/arch/aarch64/mod.rs 110-110 capVSIsMapped *)
Definition vs_is_mapped : bitfield := Bf 0 58 1 0 false.
(* src: sel4_cspace/src/arch/aarch64/mod.rs 114-114 capASIDBase *)
Definition asid_base : bitfield := Bf 0 43 16 0 false.
(* src: sel4_cspace/src/arch/aarch64/mod.rs 116-116 capASIDPool *)
Definition asid_pool : bitfield := Bf 0 0 37 11 true.

(* src: sel4_cspace/src/arch/aarch64/mod.rs 31-31 new_null_cap *)
Definition new_null_cap : list Z :=
  bf_new cap_t [] (CapTag_to_usize CapNullCap).
(* src: sel4_cspace/src/arch/aarch64/mod.rs 32-37 new_untyped_cap *)
Definition new_untyped_cap (capFreeIndex capIsDevice capBlockSize capPtr : Z) : list Z :=
  bf_new cap_t [(untyped_free_index, capFreeIndex); (untyped_is_device, capIsDevice); (untyped_block_size, capBlockSize); (untyped_ptr, capPtr)] (CapTag_to_usize CapUntypedCap).
(* src: sel4_cspace/src/arch/aarch64/mod.rs 38-45 new_endpoint_cap *)
Definition new_endpoint_cap (capEPBadge capCanGrantReply capCanGrant capCanSend capCanReceive capEPPtr : Z) : list Z :=
  bf_new cap_t [(ep_badge, capEPBadge); (ep_can_grant_reply, capCanGrantReply); (ep_can_grant, capCanGrant); (ep_can_send, capCanSend); (ep_can_receive, capCanReceive); (ep_ptr, capEPPtr)] (CapTag_to_usize CapEndpointCap).
(* src: sel4_cspace/src/arch/aarch64/mod.rs 46-51 new_notification_cap *)
Definition new_notification_cap (capNtfnBadge capNtfnCanReceive capNtfnCanSend capNtfnPtr : Z) : list Z :=
  bf_new cap_t [(nf_badge, capNtfnBadge); (nf_can_receive, capNtfnCanReceive); (nf_can_send, capNtfnCanSend); (nf_ptr, capNtfnPtr)] (CapTag_to_usize CapNotificationCap).
(* src: sel4_cspace/src/arch/aarch64/mod.rs 52-56 new_reply_cap *)
Definition new_reply_cap (capReplyCanGrant capReplyMaster capTCBPtr : Z) : list Z :=
  bf_new cap_t [(reply_can_grant, capReplyCanGrant); (reply_master, capReplyMaster); (reply_tcb_ptr, capTCBPtr)] (CapTag_to_usize CapReplyCap).
(* src: sel4_cspace/src/arch/aarch64/mod.rs 57-62 new_cnode_cap *)
Definition new_cnode_cap (capCNodeRadix capCNodeGuardSize capCNodeGuard capCNodePtr : Z) : list Z :=
  bf_new cap_t [(cnode_radix, capCNodeRadix); (cnode_guard_size, capCNodeGuardSize); (cnode_guard, capCNodeGuard); (cnode_ptr, capCNodePtr)] (CapTag_to_usize CapCNodeCap).
(* src: sel4_cspace/src/arch/aarch64/mod.rs 63-65 new_thread_cap *)
Definition new_thread_cap (capTCBPtr : Z) : list Z :=
  bf_new cap_t [(tcb_ptr, capTCBPtr)] (CapTag_to_usize CapThreadCap).
(* src: sel4_cspace/src/arch/aarch64/mod.rs 66-66 new_irq_control_cap *)
Definition new_irq_control_cap : list Z :=
  bf_new cap_t [] (CapTag_to_usize CapIrqControlCap).
(* src: sel4_cspace/src/arch/aarch64/mod.rs 67-69 new_irq_handler_cap *)
Definition new_irq_handler_cap (capIRQ : Z) : list Z :=
  bf_new cap_t [(irq_handler, capIRQ)] (CapTag_to_usize CapIrqHandlerCap).
(* src: sel4_cspace/src/arch/aarch64/mod.rs 70-73 new_zombie_cap *)
Definition new_zombie_cap (capZombieID capZombieType : Z) : list Z :=
  bf_new cap_t [(zombie_id, capZombieID); (zombie_type, capZombieType)] (CapTag_to_usize CapZombieCap).
(* src: sel4_cspace/src/arch/aarch64/mod.rs 74-74 new_domain_cap *)
Definition new_domain_cap : list Z :=
  bf_new cap_t [] (CapTag_to_usize CapDomainCap).
(* src: sel4_cspace/src/arch/aarch64/mod.rs 75-83 new_frame_cap *)
Definition new_frame_cap (capFIsDevice capFVMRights capFMappedAddress capFSize capFMappedASID capFBasePtr : Z) : list Z :=
  bf_new cap_t [(frame_is_device, capFIsDevice); (frame_vm_rights, capFVMRights); (frame_mapped_address, capFMappedAddress); (frame_size, capFSize); (frame_mapped_asid, capFMappedASID); (frame_base_ptr, capFBasePtr)] (CapTag_to_usize CapFrameCap).
(* src: sel4_cspace/src/arch/aarch64/mod.rs 84-89 new_page_table_cap *)
Definition new_page_table_cap (capPTMappedASID capPTBasePtr capPTIsMapped capPTMappedAddress : Z) : list Z :=
  bf_new cap_t [(pt_mapped_asid, capPTMappedASID); (pt_base_ptr, capPTBasePtr); (pt_is_mapped, capPTIsMapped); (pt_mapped_address, capPTMappedAddress)] (CapTag_to_usize CapPageTableCap).
(* src: sel4_cspace/src/arch/aarch64/mod.rs 107-111 new_vspace_cap *)
Definition new_vspace_cap (capVSMappedASID capVSBasePtr capVSIsMapped : Z) : list Z :=
  bf_new cap_t [(vs_mapped_asid, capVSMappedASID); (vs_base_ptr, capVSBasePtr); (vs_is_mapped, capVSIsMapped)] (CapTag_to_usize CapVspaceCap).
(* src: sel4_cspace/src/arch/aarch64/mod.rs 112-112 new_asid_control_cap *)
Definition new_asid_control_cap : list Z :=
  bf_new cap_t [] (CapTag_to_usize CapASIDControlCap).
(* src: sel4_cspace/src/arch/aarch64/mod.rs 113-117 new_asid_pool_cap *)
Definition new_asid_pool_cap (capASIDBase capASIDPool : Z) : list Z :=
  bf_new cap_t [(asid_base, capASIDBase); (asid_pool, capASIDPool)] (CapTag_to_usize CapASIDPoolCap).

(** Every variant's field descriptors. *)
Definition cap_variants : list (list bitfield) :=
  [[];
   [untyped_free_index; untyped_is_device; untyped_block_size; untyped_ptr];
   [ep_badge; ep_can_grant_reply; ep_can_grant; ep_can_send; ep_can_receive; ep_ptr];
   [nf_badge; nf_can_receive; nf_can_send; nf_ptr];
   [reply_can_grant; reply_master; reply_tcb_ptr];
   [cnode_radix; cnode_guard_size; cnode_guard; cnode_ptr];
   [tcb_ptr];
   [];
   [irq_handler];
   [zombie_id; zombie_type];
   [];
   [frame_is_device; frame_vm_rights; frame_mapped_address; frame_size; frame_mapped_asid; frame_base_ptr];
   [pt_mapped_asid; pt_base_ptr; pt_is_mapped; pt_mapped_address];
   [vs_mapped_asid; vs_base_ptr; vs_is_mapped];
   [];
   [asid_base; asid_pool]].

(* src: sel4_cspace/src/cap/mod.rs 140-142 cap_t::get_cap_type *)
Definition get_cap_type (c : cap) : res CapTag := CapTag_of (bf_type cap_t c).

(** ** Common operations of [cap_t] *)
(* src: sel4_cspace/src/cap/mod.rs 35-38 CNodeCapData::get_guard *)
Definition CNodeCapData_get_guard (w : Z) : Z := wshr (w &&& 0xffffffffffffffc0) 6.
(* src: sel4_cspace/src/cap/mod.rs 40-43 CNodeCapData::get_guard_size *)
Definition CNodeCapData_get_guard_size (w : Z) : Z := w &&& 0x3f.

(* src: sel4_cspace/src/cap/mod.rs 171-173 cap_t::isArchCap *)
Definition isArchCap (c : cap) : res bool :=
  t ← get_cap_type c; mret ((CapTag_to_usize t) `mod` 2 <>w 0).

(* src: sel4_cspace/src/cap/mod.rs 99-138 cap_t::update_data *)
Definition update_data (c : cap) (preserve : bool) (new_data : Z) : res cap :=
  a ← isArchCap c;
  if a : bool then mret c
  else
    t ← get_cap_type c;
    match t with
    | CapEndpointCap =>
        if negb preserve && (bf_get ep_badge c =w 0) then mret (bf_set ep_badge new_data c)
        else mret new_null_cap
    | CapNotificationCap =>
        if negb preserve && (bf_get nf_badge c =w 0) then mret (bf_set nf_badge new_data c)
        else mret new_null_cap
    | CapCNodeCap =>
        let guard_size := CNodeCapData_get_guard_size new_data in
        if decide (wadd guard_size (bf_get cnode_radix c) > wordBits) then mret new_null_cap
        else
          let guard := CNodeCapData_get_guard new_data &&& MASK guard_size in
          mret (bf_set cnode_guard_size guard_size (bf_set cnode_guard guard c))
    | _ => mret c
    end.

(* src: sel4_cspace/src/cap/mod.rs 144-154 cap_t::get_cap_size_bits *)
Definition get_cap_size_bits (c : cap) : res Z :=
  t ← get_cap_type c;
  mret match t with
  | CapUntypedCap => bf_get untyped_block_size c
  | CapEndpointCap => seL4_EndpointBits
  | CapNotificationCap => seL4_NotificationBits
  | CapCNodeCap => wadd (bf_get cnode_radix c) seL4_SlotBits
  | CapPageTableCap => PT_SIZE_BITS
  | CapReplyCap => seL4_ReplyBits
  | _ => 0
  end.

(* src: sel4_cspace/src/cap/mod.rs 156-169 cap_t::get_cap_is_physical *)
Definition get_cap_is_physical (c : cap) : res bool :=
  t ← get_cap_type c;
  mret match t with
  | CapUntypedCap | CapEndpointCap | CapNotificationCap | CapCNodeCap | CapFrameCap
  | CapASIDPoolCap | CapPageTableCap | CapZombieCap | CapThreadCap => true
  | _ => false
  end.

(** ** Zombies *)
(* src: sel4_cspace/src/cap/zombie.rs 10-10 ZombieType_ZombieTCB *)
Definition ZombieType_ZombieTCB : Z := wshl 1 wordRadix.
(* src: sel4_cspace/src/cap/zombie.rs 11-11 TCB_CNODE_RADIX *)
Definition TCB_CNODE_RADIX : Z := 4.
(* src: sel4_cspace/src/cap/zombie.rs 54-56 ZombieType_ZombieCNode *)
Definition ZombieType_ZombieCNode (n : Z) : Z := n &&& MASK wordRadix.
(* src: sel4_cspace/src/cap/zombie.rs 15-22 cap_t::get_zombie_bit *)
Definition get_zombie_bit (c : cap) : Z :=
  let type := bf_get zombie_type c in
  if type =w ZombieType_ZombieTCB then TCB_CNODE_RADIX else ZombieType_ZombieCNode type.
(* src: sel4_cspace/src/cap/zombie.rs 24-28 cap_t::get_zombie_ptr *)
Definition get_zombie_ptr (c : cap) : Z :=
  let radix := get_zombie_bit c in
  bf_get zombie_id c &&& wnot (MASK (wadd radix 1)).
(* src: sel4_cspace/src/cap/zombie.rs 30-34 cap_t::get_zombie_number *)
Definition get_zombie_number (c : cap) : Z :=
  let radix := get_zombie_bit c in
  bf_get zombie_id c &&& MASK (wadd radix 1).
(* src: sel4_cspace/src/cap/zombie.rs 36-41 cap_t::set_zombie_number *)
Definition set_zombie_number (n : Z) (c : cap) : cap :=
  let radix := get_zombie_bit c in
  let ptr := bf_get zombie_id c &&& wnot (MASK (wadd radix 1)) in
  bf_set zombie_id (ptr ||| (n &&& MASK (wadd radix 1))) c.
(* src: sel4_cspace/src/cap/zombie.rs 44-52 Zombie_new *)
Definition Zombie_new (number type ptr : Z) : cap :=
  let mask := if type =w ZombieType_ZombieTCB then MASK (wadd TCB_CNODE_RADIX 1)
              else MASK (wadd type 1) in
  new_zombie_cap ((ptr &&& wnot mask) ||| (number &&& mask)) type.
(* src: sel4_cspace/src/cap/zombie.rs 60-65 capCyclicZombie *)
Definition capCyclicZombie (c : cap) (slot : Z) : res bool :=
  let ptr := get_zombie_ptr c in
  t ← get_cap_type c; mret ((t =t CapZombieCap) && (ptr =w slot)).

(** ** Architecture part *)
(* src: sel4_cspace/src/arch/aarch64/mod.rs 121-140 cap_t::get_cap_ptr *)
Definition get_cap_ptr (c : cap) : res Z :=
  t ← get_cap_type c;
  mret match t with
  | CapUntypedCap => bf_get untyped_ptr c
  | CapEndpointCap => bf_get ep_ptr c
  | CapNotificationCap => bf_get nf_ptr c
  | CapCNodeCap => bf_get cnode_ptr c
  | CapThreadCap => bf_get tcb_ptr c
  | CapZombieCap => get_zombie_ptr c
  | CapFrameCap => bf_get frame_base_ptr c
  | CapPageTableCap => bf_get pt_base_ptr c
  | CapVspaceCap => bf_get vs_base_ptr c
  | CapASIDControlCap => 0
  | CapASIDPoolCap => bf_get asid_pool c
  | _ => 0
  end.
(* src: sel4_cspace/src/arch/aarch64/mod.rs 142-145 cap_t::is_vtable_root *)
Definition is_vtable_root (c : cap) : res bool := t ← get_cap_type c; mret (t =t CapVspaceCap).
(* src: sel4_cspace/src/arch/aarch64/mod.rs 147-150 cap_t::is_valid_native_root *)
Definition is_valid_native_root (c : cap) : res bool :=
  r ← is_vtable_root c; mret (r && (bf_get vs_is_mapped c <>w 0)).
(* src: sel4_cspace/src/arch/aarch64/mod.rs 152-155 cap_t::is_valid_vtable_root *)
Definition is_valid_vtable_root (c : cap) : res bool := is_valid_native_root c.

(* src: sel4_common/src/utils.rs 204-213 pageBitsForSize *)
Definition pageBitsForSize (page_size : Z) : res Z :=
  match page_size with 0 => Ok 12 | 1 => Ok 21 | 2 => Ok 30 | _ => Panic end.

(* src: sel4_cspace/src/arch/aarch64/mod.rs 226-236 arch_mask_cap_rights *)
Definition arch_mask_cap_rights (rights : list Z) (c : cap) : res cap :=
  t ← get_cap_type c;
  if t =t CapFrameCap then
    vm_rights ← vm_rights_from_word (bf_get frame_vm_rights c);
    let vm_rights := maskVMRights vm_rights rights in
    mret (bf_set frame_vm_rights (vm_rights_to_usize vm_rights) c)
  else mret c.

(* src: sel4_cspace/src/arch/aarch64/mod.rs 238-270 arch_same_region_as *)
Definition arch_same_region_as (cap1 cap2 : cap) : res bool :=
  t1 ← get_cap_type cap1;
  match t1 with
  | CapFrameCap =>
      t2 ← get_cap_type cap2;
      if t2 =t CapFrameCap then
        let botA := bf_get frame_base_ptr cap1 in
        let botB := bf_get frame_base_ptr cap2 in
        bitsA ← pageBitsForSize (bf_get frame_size cap1);
        bitsB ← pageBitsForSize (bf_get frame_size cap2);
        let topA := wadd botA (MASK bitsA) in
        let topB := wadd botB (MASK bitsB) in
        mret (bool_decide (botA <= botB) && bool_decide (topA >= topB) && bool_decide (botB <= topB))
      else mret false
  | CapPageTableCap =>
      t2 ← get_cap_type cap2;
      if t2 =t CapPageTableCap then mret (bf_get pt_base_ptr cap1 =w bf_get pt_base_ptr cap2)
      else mret false
  | CapVspaceCap =>
      t2 ← get_cap_type cap2;
      if t2 =t CapVspaceCap then mret (bf_get vs_base_ptr cap1 =w bf_get vs_base_ptr cap2)
      else mret false
  | CapASIDControlCap => t2 ← get_cap_type cap2; mret (t2 =t CapASIDControlCap)
  | CapASIDPoolCap =>
      t2 ← get_cap_type cap2;
      if t2 =t CapASIDPoolCap then mret (bf_get asid_pool cap1 =w bf_get asid_pool cap2)
      else mret false
  | _ => Panic
  end.

(* src: sel4_cspace/src/arch/aarch64/mod.rs 272-279 arch_same_object_as *)
Definition arch_same_object_as (cap1 cap2 : cap) : res bool :=
  t1 ← get_cap_type cap1;
  t2 ← get_cap_type cap2;
  if (t1 =t CapFrameCap) && (t2 =t CapFrameCap) then
    mret ((bf_get frame_base_ptr cap1 =w bf_get frame_base_ptr cap2)
      && (bf_get frame_size cap1 =w bf_get frame_size cap2)
      && (bf_get frame_is_device cap1 =w bf_get frame_is_device cap2))
  else arch_same_region_as cap1 cap2.

(** ** Comparing capabilities *)
(* src: sel4_cspace/src/cap/mod.rs 176-229 same_region_as *)
Definition same_region_as (cap1 cap2 : cap) : res bool :=
  t1 ← get_cap_type cap1;
  match t1 with
  | CapUntypedCap =>
      ph ← get_cap_is_physical cap2;
      if ph : bool then
        let aBase := bf_get untyped_ptr cap1 in
        bBase ← get_cap_ptr cap2;
        let aTop := wadd aBase (MASK (bf_get untyped_block_size cap1)) in
        bits2 ← get_cap_size_bits cap2;
        let bTop := wadd bBase (MASK bits2) in
        mret (bool_decide (aBase <= bBase) && bool_decide (bTop <= aTop) && bool_decide (bBase <= bTop))
      else mret false
  | CapEndpointCap | CapNotificationCap | CapPageTableCap | CapASIDPoolCap | CapThreadCap =>
      t2 ← get_cap_type cap2;
      if t2 =t t1 then p1 ← get_cap_ptr cap1; p2 ← get_cap_ptr cap2; mret (p1 =w p2)
      else mret false
  | CapASIDControlCap | CapDomainCap => t2 ← get_cap_type cap2; mret (t2 =t t1)
  | CapCNodeCap =>
      t2 ← get_cap_type cap2;
      if t2 =t CapCNodeCap then
        mret ((bf_get cnode_ptr cap1 =w bf_get cnode_ptr cap2)
          && (bf_get cnode_radix cap1 =w bf_get cnode_radix cap2))
      else mret false
  | CapIrqControlCap =>
      t2 ← get_cap_type cap2; mret ((t2 =t CapIrqControlCap) || (t2 =t CapIrqHandlerCap))
  | CapIrqHandlerCap =>
      t2 ← get_cap_type cap2;
      if t2 =t CapIrqHandlerCap then mret (bf_get irq_handler cap1 =w bf_get irq_handler cap2)
      else mret false
  | _ => mret false
  end.

(* src: sel4_cspace/src/cap/mod.rs 231-249 same_object_as *)
Definition same_object_as (cap1 cap2 : cap) : res bool :=
  t1 ← get_cap_type cap1;
  if t1 =t CapUntypedCap then mret false
  else
    t2 ← get_cap_type cap2;
    if (t1 =t CapIrqControlCap) && (t2 =t CapIrqHandlerCap) then mret false
    else
      a1 ← isArchCap cap1;
      a2 ← isArchCap cap2;
      if (a1 && a2)%bool then arch_same_object_as cap1 cap2 else same_region_as cap1 cap2.

(* src: sel4_cspace/src/cap/mod.rs 251-274 is_cap_revocable *)
Definition is_cap_revocable (derived_cap src_cap : cap) : res bool :=
  a ← isArchCap derived_cap;
  if a : bool then mret false
  else
    t ← get_cap_type derived_cap;
    match t with
    | CapEndpointCap =>
        ts ← get_cap_type src_cap;
        _ ← assert_r (ts =t CapEndpointCap);
        mret (bf_get ep_badge derived_cap <>w bf_get ep_badge src_cap)
    | CapNotificationCap =>
        ts ← get_cap_type src_cap;
        _ ← assert_r (ts =t CapNotificationCap);
        mret (bf_get nf_badge derived_cap <>w bf_get nf_badge src_cap)
    | CapIrqHandlerCap => ts ← get_cap_type src_cap; mret (ts =t CapIrqControlCap)
    | CapUntypedCap => mret true
    | _ => mret false
    end.
