(* ===== verification/DList.v ===== *)
(** * Doubly linked lists in a heap

    Three intrusive doubly linked lists run through the kernel's objects: the
    mapping database (slots), the ready queues and the endpoint queues
    (threads).  This file has what they share: heaps of objects by address,
    the interface [Links] of an object with a pair of links, the abstraction
    [dlist] of a heap to a sequence of addresses, and the effect of setting a
    link on it. *)

From stdpp Require Import base numbers gmap list.
From S2P Require Import Prelude.
Local Open Scope Z_scope.

(** ** Objects by address

    A reference is an address; dereferencing an address with no object of the
    type is undefined, and the [convert_to_*_ref] functions assert that the
    address is not null. *)
Section heap.
Context {V : Type}.
Implicit Types (h : gmap Z V) (p : Z).

(** [&*p] of a reference or a raw pointer. *)
Definition load (p : Z) : ST (gmap Z V) V := fun h =>
  match h !! p with Some x => Ok (x, h) | None => UB end.
(** A write through a reference. *)
Definition store_with (p : Z) (f : V -> V) : ST (gmap Z V) unit := fun h =>
  match h !! p with Some x => Ok (tt, <[p := f x]> h) | None => UB end.
(* src: sel4_common/src/utils.rs 131-141 convert_to_mut_type_ref *)
Definition load_ref (p : Z) : ST (gmap Z V) V := assert_m (bool_decide (p <> 0)) ;; load p.
Definition store_ref (p : Z) (f : V -> V) : ST (gmap Z V) unit :=
  assert_m (bool_decide (p <> 0)) ;; store_with p f.

Lemma load_Ok p h x : h !! p = Some x -> load p h = Ok (x, h).
Proof. unfold load. by intros ->. Qed.
Lemma store_with_Ok p f h x : h !! p = Some x -> store_with p f h = Ok (tt, <[p := f x]> h).
Proof. unfold store_with. by intros ->. Qed.

Lemma wp_load p h x (Q : V -> gmap Z V -> Prop) : h !! p = Some x -> Q x h -> wp (load p) Q h.
Proof. intros Hx HQ. unfold wp. by rewrite (load_Ok _ _ x). Qed.
Lemma wp_store_with p f h x (Q : unit -> gmap Z V -> Prop) :
  h !! p = Some x -> Q tt (<[p := f x]> h) -> wp (store_with p f) Q h.
Proof. intros Hx HQ. unfold wp. by rewrite (store_with_Ok _ _ _ x). Qed.
Lemma wp_load_ref p h x (Q : V -> gmap Z V -> Prop) :
  p <> 0 -> h !! p = Some x -> Q x h -> wp (load_ref p) Q h.
Proof.
  intros Hp Hx HQ. apply wp_bind, wp_assert; [by apply bool_decide_true|]. by eapply wp_load.
Qed.
Lemma wp_store_ref p f h x (Q : unit -> gmap Z V -> Prop) :
  p <> 0 -> h !! p = Some x -> Q tt (<[p := f x]> h) -> wp (store_ref p f) Q h.
Proof.
  intros Hp Hx HQ. apply wp_bind, wp_assert; [by apply bool_decide_true|].
  by eapply wp_store_with.
Qed.
End heap.

(** ** Objects with links *)

(** A pair of links of an object; [lk_ok] says that an address survives being
    stored in a link (a link may be a narrow bit field) and [lk_wf] that an
    object has room for its links. *)
Class Links (V : Type) := {
  lk_prev : V -> Z;
  lk_next : V -> Z;
  lk_set_prev : Z -> V -> V;
  lk_set_next : Z -> V -> V;
  lk_ok : Z -> bool;
  lk_wf : V -> bool;
  lk_prev_set_prev a x : lk_ok a = true -> lk_wf x = true -> lk_prev (lk_set_prev a x) = a;
  lk_next_set_prev a x : lk_next (lk_set_prev a x) = lk_next x;
  lk_next_set_next a x : lk_ok a = true -> lk_wf x = true -> lk_next (lk_set_next a x) = a;
  lk_prev_set_next a x : lk_prev (lk_set_next a x) = lk_prev x;
  lk_wf_set_prev a x : lk_wf (lk_set_prev a x) = lk_wf x;
  lk_wf_set_next a x : lk_wf (lk_set_next a x) = lk_wf x;
}.

(** ** Segments

    A view gives the links of every object. *)
Definition view : Type := Z -> option (Z * Z).

Definition last_or (d : Z) (l : list Z) : Z := default d (last l).
Definition head_or (d : Z) (l : list Z) : Z := default d (head l).

(** [dseg lk p l q]: the objects of [l] are linked in this order, the first
    one back to [p] and the last one on to [q]. *)
Fixpoint dseg (lk : view) (p : Z) (l : list Z) (q : Z) : Prop :=
  match l with
  | [] => True
  | x :: l' => lk x = Some (p, head_or q l') /\ dseg lk x l' q
  end.

(** A whole list: ends are null, no object twice, no null object. *)
Definition dlist (lk : view) (l : list Z) : Prop := dseg lk 0 l 0 /\ NoDup l /\ 0 ∉ l.

(** Link updates on views; the primed versions do nothing on null, as the code
    tests a link before it follows it. *)
Definition set_nx (a v : Z) (lk : view) : view := fun x =>
  if decide (x = a) then (fun pn => (pn.1, v)) <$> lk x else lk x.
Definition set_pv (a v : Z) (lk : view) : view := fun x =>
  if decide (x = a) then (fun pn => (v, pn.2)) <$> lk x else lk x.
Definition set_nx' (a v : Z) (lk : view) : view := if decide (a = 0) then lk else set_nx a v lk.
Definition set_pv' (a v : Z) (lk : view) : view := if decide (a = 0) then lk else set_pv a v lk.
Definition set_lk (a : Z) (pn : Z * Z) (lk : view) : view := fun x =>
  if decide (x = a) then Some pn else lk x.

#[export] Instance dseg_dec lk p l q : Decision (dseg lk p l q).
Proof. revert p. induction l as [|x l IH]; intros p; cbn; apply _. Defined.
#[export] Instance dlist_dec lk l : Decision (dlist lk l).
Proof. unfold dlist. apply _. Defined.

Section dseg.
Implicit Types (lk : view) (l : list Z) (a p q v x : Z).

Lemma head_or_app d l1 l2 : head_or d (l1 ++ l2) = head_or (head_or d l2) l1.
Proof. by destruct l1. Qed.
Lemma last_or_app d l1 l2 : last_or d (l1 ++ l2) = last_or (last_or d l1) l2.
Proof.
  unfold last_or. rewrite last_app. by destruct (last l2).
Qed.
Lemma last_or_cons d x l : last_or d (x :: l) = last_or x l.
Proof. unfold last_or. by rewrite last_cons; destruct (last l). Qed.
Lemma last_or_snoc d l x : last_or d (l ++ [x]) = x.
Proof. by rewrite last_or_app. Qed.

Lemma last_or_elem d l : last_or d l = d \/ last_or d l ∈ l.
Proof.
  unfold last_or. destruct (last l) eqn:E; [right|by left]. cbn.
  apply last_Some in E as [l' ->]. set_solver.
Qed.
Lemma head_or_elem d l : head_or d l = d \/ head_or d l ∈ l.
Proof. destruct l; [by left|right; cbn; set_solver]. Qed.

Lemma dseg_app lk p l1 l2 q :
  dseg lk p (l1 ++ l2) q <-> dseg lk p l1 (head_or q l2) /\ dseg lk (last_or p l1) l2 q.
Proof.
  revert p. induction l1 as [|x l1 IH]; intros p; cbn -[last_or].
  - cbn. intuition.
  - rewrite IH, last_or_cons, head_or_app. intuition.
Qed.

Lemma dseg_frame lk lk' p l q :
  (forall x, x ∈ l -> lk x = lk' x) -> dseg lk p l q -> dseg lk' p l q.
Proof.
  revert p. induction l as [|x l IH]; intros p Hf; cbn; [done|].
  intros [H1 H2]. rewrite <- Hf by set_solver. split; [done|]. apply IH; [set_solver|done].
Qed.

Lemma dseg_split lk p l1 x l2 q :
  dseg lk p (l1 ++ x :: l2) q <->
  dseg lk p l1 x /\ lk x = Some (last_or p l1, head_or q l2) /\ dseg lk x l2 q.
Proof. rewrite dseg_app. cbn. done. Qed.

Lemma set_nx_ne lk a v x : x <> a -> set_nx a v lk x = lk x.
Proof. intros H. unfold set_nx. by rewrite decide_False. Qed.
Lemma set_pv_ne lk a v x : x <> a -> set_pv a v lk x = lk x.
Proof. intros H. unfold set_pv. by rewrite decide_False. Qed.
Lemma set_nx'_ne lk a v x : x <> a -> set_nx' a v lk x = lk x.
Proof. intros H. unfold set_nx'. case_decide; [done|by apply set_nx_ne]. Qed.
Lemma set_pv'_ne lk a v x : x <> a -> set_pv' a v lk x = lk x.
Proof. intros H. unfold set_pv'. case_decide; [done|by apply set_pv_ne]. Qed.
Lemma set_lk_ne lk a pn x : x <> a -> set_lk a pn lk x = lk x.
Proof. intros H. unfold set_lk. by rewrite decide_False. Qed.
Lemma set_lk_eq lk a pn : set_lk a pn lk a = Some pn.
Proof. unfold set_lk. by rewrite decide_True. Qed.

(** Redirect the end of a segment. *)
Lemma dseg_set_nx_last lk l x q v p :
  NoDup (l ++ [x]) -> dseg lk p (l ++ [x]) q -> dseg (set_nx x v lk) p (l ++ [x]) v.
Proof.
  intros Hnd. rewrite !dseg_app. cbn. intros (H1 & H2 & _). repeat split.
  - eapply dseg_frame; [|done]. intros y Hy. rewrite set_nx_ne; [done|].
    apply NoDup_app in Hnd as (_ & Hnd & _). specialize (Hnd y Hy). set_solver.
  - unfold set_nx. rewrite decide_True by done. by rewrite H2.
Qed.

Lemma dseg_set_nx' lk l q v :
  NoDup l -> 0 ∉ l -> dseg lk 0 l q -> dseg (set_nx' (last_or 0 l) v lk) 0 l v.
Proof.
  intros Hnd H0. destruct l as [|x l] using rev_ind; [done|]. clear IHl.
  rewrite last_or_snoc. unfold set_nx'. rewrite decide_False by set_solver.
  by apply dseg_set_nx_last.
Qed.

(** Redirect the start of a segment. *)
Lemma dseg_set_pv lk l x q v p :
  NoDup (x :: l) -> dseg lk p (x :: l) q -> dseg (set_pv x v lk) v (x :: l) q.
Proof.
  intros [Hx Hnd]%NoDup_cons. cbn. intros (H1 & H2). split.
  - unfold set_pv. rewrite decide_True by done. by rewrite H1.
  - eapply dseg_frame; [|done]. intros y Hy. rewrite set_pv_ne; [done|]. by intros ->.
Qed.

Lemma dseg_set_pv' lk l v p :
  NoDup l -> 0 ∉ l -> dseg lk p l 0 -> dseg (set_pv' (head_or 0 l) v lk) v l 0.
Proof.
  intros Hnd H0. destruct l as [|x l]; [done|]. unfold set_pv'. cbn [head_or head default].
  rewrite decide_False by set_solver. by apply dseg_set_pv.
Qed.

(** Updates elsewhere. *)
Lemma dseg_set_nx'_notin lk a v p l q :
  (a = 0 \/ a ∉ l) -> dseg lk p l q -> dseg (set_nx' a v lk) p l q.
Proof.
  intros Ha. apply dseg_frame. intros x Hx. unfold set_nx'. case_decide; [done|].
  rewrite set_nx_ne; [done|]. destruct Ha; congruence.
Qed.
Lemma dseg_set_pv'_notin lk a v p l q :
  (a = 0 \/ a ∉ l) -> dseg lk p l q -> dseg (set_pv' a v lk) p l q.
Proof.
  intros Ha. apply dseg_frame. intros x Hx. unfold set_pv'. case_decide; [done|].
  rewrite set_pv_ne; [done|]. destruct Ha; congruence.
Qed.
Lemma dseg_set_lk_notin lk a pn p l q : a ∉ l -> dseg lk p l q -> dseg (set_lk a pn lk) p l q.
Proof.
  intros Ha. apply dseg_frame. intros x Hx. rewrite set_lk_ne; [done|]. by intros ->.
Qed.

Lemma dlist_nil lk : dlist lk [].
Proof. repeat split; [constructor|set_solver]. Qed.

Lemma dlist_lookup lk l1 x l2 :
  dlist lk (l1 ++ x :: l2) -> lk x = Some (last_or 0 l1, head_or 0 l2).
Proof. intros (H & _ & _). apply dseg_split in H as (_ & H & _). done. Qed.

Lemma NoDup_split l1 x l2 :
  NoDup (l1 ++ x :: l2) -> NoDup l1 /\ NoDup l2 /\ x ∉ l1 /\ x ∉ l2 /\ NoDup (l1 ++ l2) /\
    (forall y, y ∈ l1 -> y ∉ l2).
Proof.
  intros H. apply NoDup_app in H as (H1 & H2 & H3). apply NoDup_cons in H3 as [H3 H4].
  repeat split; try done.
  - intros Hx. apply (H2 x Hx). set_solver.
  - apply NoDup_app. repeat split; [done| |done]. set_solver.
  - set_solver.
Qed.

(** Unlinking an object, as [set_empty], [tcb_ep_dequeue] and
    [sched_dequeue] do it. *)
Lemma dlist_remove lk l1 x l2 :
  dlist lk (l1 ++ x :: l2) ->
  dlist (set_pv' (head_or 0 l2) (last_or 0 l1) (set_nx' (last_or 0 l1) (head_or 0 l2) lk))
    (l1 ++ l2).
Proof.
  intros (Hs & Hnd & H0). apply dseg_split in Hs as (Hs1 & _ & Hs2).
  apply NoDup_split in Hnd as (Hn1 & Hn2 & _ & _ & Hn & Hd).
  assert (0 ∉ l1 /\ 0 ∉ l2) as [H01 H02] by set_solver.
  split; [|split; [done|set_solver]]. apply dseg_app. split.
  - apply dseg_set_pv'_notin.
    { destruct (head_or_elem 0 l2) as [->|Hh]; [by left|right; intros ?; by eapply Hd]. }
    by eapply dseg_set_nx'.
  - eapply dseg_set_pv'; [done|done|].
    apply (dseg_set_nx'_notin _ _ _ x); [|done].
    destruct (last_or_elem 0 l1) as [->|Hh]; [by left|right; by apply Hd].
Qed.

(** Linking [x] in, as [cte_insert], [tcb_ep_append] and [sched_append] do it. *)
Lemma dlist_insert lk l1 x l2 :
  dlist lk (l1 ++ l2) -> x ∉ l1 ++ l2 -> x <> 0 ->
  dlist (set_pv' (head_or 0 l2) x (set_nx' (last_or 0 l1) x
    (set_lk x (last_or 0 l1, head_or 0 l2) lk))) (l1 ++ x :: l2).
Proof.
  intros (Hs & Hnd & H0) Hx Hx0. apply dseg_app in Hs as [Hs1 Hs2].
  apply NoDup_app in Hnd as (Hn1 & Hd & Hn2).
  assert (0 ∉ l1 /\ 0 ∉ l2 /\ x ∉ l1 /\ x ∉ l2) as (H01 & H02 & Hx1 & Hx2) by set_solver.
  split; [|split; [|set_solver]].
  2: { apply NoDup_app. repeat split; [done| |by constructor]. set_solver. }
  assert (head_or 0 l2 = 0 \/ head_or 0 l2 ∈ l2) as Hh by apply head_or_elem.
  assert (last_or 0 l1 = 0 \/ last_or 0 l1 ∈ l1) as Hl by apply last_or_elem.
  apply dseg_split. split; [|split].
  - apply dseg_set_pv'_notin; [destruct Hh; [by left|right; set_solver]|].
    eapply dseg_set_nx'; [done|done|]. by apply dseg_set_lk_notin.
  - assert (x <> head_or 0 l2) by (destruct Hh as [->|]; [done|by intros ->]).
    assert (x <> last_or 0 l1) by (destruct Hl as [->|]; [done|by intros ->]).
    rewrite set_pv'_ne, set_nx'_ne by done. apply set_lk_eq.
  - eapply dseg_set_pv'; [done|done|]. apply dseg_set_nx'_notin.
    { destruct Hl; [by left|right; set_solver]. }
    by apply dseg_set_lk_notin.
Qed.

(** Putting [y] in the place of [x], as [cte_move] does it. *)
Lemma dlist_replace lk l1 x l2 y pn :
  dlist lk (l1 ++ x :: l2) -> y ∉ l1 ++ x :: l2 -> y <> 0 ->
  dlist (set_pv' (head_or 0 l2) y (set_nx' (last_or 0 l1) y
    (set_lk x pn (set_lk y (last_or 0 l1, head_or 0 l2) lk)))) (l1 ++ y :: l2).
Proof.
  intros (Hs & Hnd & H0) Hx Hx0. apply dseg_split in Hs as (Hs1 & _ & Hs2).
  apply NoDup_split in Hnd as (Hn1 & Hn2 & Hxl1 & Hxl2 & _ & Hd).
  assert (0 ∉ l1 /\ 0 ∉ l2 /\ y ∉ l1 /\ y ∉ l2 /\ y <> x) as (H01 & H02 & Hy1 & Hy2 & Hyx)
    by set_solver.
  split; [|split; [|set_solver]].
  2: { apply NoDup_app. repeat split; [done| |by constructor]. set_solver. }
  assert (head_or 0 l2 = 0 \/ head_or 0 l2 ∈ l2) as Hh by apply head_or_elem.
  assert (last_or 0 l1 = 0 \/ last_or 0 l1 ∈ l1) as Hl by apply last_or_elem.
  apply dseg_split. split; [|split].
  - apply dseg_set_pv'_notin; [destruct Hh; [by left|right; set_solver]|].
    eapply dseg_set_nx'; [done|done|]. apply dseg_set_lk_notin; [done|].
    by apply dseg_set_lk_notin.
  - assert (y <> head_or 0 l2) by (destruct Hh as [->|]; [done|by intros ->]).
    assert (y <> last_or 0 l1) by (destruct Hl as [->|]; [done|by intros ->]).
    rewrite set_pv'_ne, set_nx'_ne, set_lk_ne by done. apply set_lk_eq.
  - eapply dseg_set_pv'; [done|done|]. apply dseg_set_nx'_notin.
    { destruct Hl; [by left|right; set_solver]. }
    apply dseg_set_lk_notin; [done|]. by apply dseg_set_lk_notin.
Qed.

(** Exchanging two objects that are not neighbours, as [cte_swap] does it. *)
Lemma dlist_swap lk l1 a l2 b l3 :
  dlist lk (l1 ++ a :: l2 ++ b :: l3) -> l2 <> [] ->
  dlist (set_pv' (head_or 0 l3) a (set_nx' (last_or a l2) a
    (set_lk b (last_or 0 l1, head_or b l2) (set_lk a (last_or a l2, head_or 0 l3)
      (set_pv' (head_or b l2) b (set_nx' (last_or 0 l1) b lk)))))) (l1 ++ b :: l2 ++ a :: l3).
Proof.
  intros (Hs & Hnd & H0) Hne. apply dseg_split in Hs as (Hs1 & _ & Hs2).
  apply dseg_split in Hs2 as (Hs2 & _ & Hs3).
  assert (NoDup (l1 ++ b :: l2 ++ a :: l3)) as Hnd'.
  { assert (l1 ++ b :: l2 ++ a :: l3 ≡ₚ l1 ++ a :: l2 ++ b :: l3) as ->; [|done].
    apply Permutation_app_head. rewrite <- !Permutation_middle. apply perm_swap. }
  assert (head_or b l2 ∈ l2 /\ last_or a l2 ∈ l2) as [Hh2 Hl2].
  { destruct l2 as [|y l2]; [done|]. split; [cbn; set_solver|].
    rewrite last_or_cons. destruct (last_or_elem y l2) as [->|]; set_solver. }
  assert (head_or 0 l3 = 0 \/ head_or 0 l3 ∈ l3) as Hh3 by apply head_or_elem.
  assert (last_or 0 l1 = 0 \/ last_or 0 l1 ∈ l1) as Hl1 by apply last_or_elem.
  apply NoDup_app in Hnd as (Hn1 & Hd1 & Hnd). apply NoDup_cons in Hnd as [Ha Hnd].
  apply NoDup_app in Hnd as (Hn2 & Hd2 & Hnd). apply NoDup_cons in Hnd as [Hb Hn3].
  assert (0 ∉ l1 /\ 0 ∉ l2 /\ 0 ∉ l3 /\ a <> 0 /\ b <> 0) as (H01 & H02 & H03 & Ha0 & Hb0)
    by set_solver.
  assert (a ∉ l1 /\ b ∉ l1 /\ a ∉ l2 /\ b ∉ l2 /\ a ∉ l3 /\ a <> b)
    as (Ha1 & Hb1 & Ha2 & Hb2 & Ha3 & Hab) by set_solver.
  assert (head_or 0 l3 ∉ l1 /\ head_or 0 l3 ∉ l2 /\ head_or 0 l3 <> a /\ head_or 0 l3 <> b)
    as (Hh31 & Hh32 & Hh3a & Hh3b).
  { destruct Hh3 as [->|Hh3]; [done|]. set_solver. }
  assert (last_or 0 l1 ∉ l2 /\ last_or 0 l1 ∉ l3 /\ last_or 0 l1 <> a /\ last_or 0 l1 <> b)
    as (Hl12 & Hl13 & Hl1a & Hl1b).
  { destruct Hl1 as [->|Hl1]; [done|]. set_solver. }
  assert (head_or b l2 ∉ l1 /\ head_or b l2 ∉ l3 /\ last_or a l2 ∉ l1 /\ last_or a l2 ∉ l3 /\
    last_or a l2 <> b /\ last_or a l2 <> a) as (Hh21 & Hh23 & Hl21 & Hl23 & Hl2b & Hl2a).
  { clear Hh31 Hh32 Hh3a Hh3b Hl12 Hl13 Hl1a Hl1b Hh3 Hl1 Hnd' Hs1 Hs2 Hs3.
    generalize dependent (head_or b l2). generalize dependent (last_or a l2).
    intros y Hy z Hz. set_solver. }
  assert (0 ∉ l1 ++ b :: l2 ++ a :: l3) as H0' by set_solver.
  split; [|split; [exact Hnd'|exact H0']]. clear Hd1 Hd2 H0 H0' Ha Hnd' Hh2 Hl2 Hh3 Hl1.
  apply dseg_split. split; [|split]; [| |apply dseg_split; split; [|split]].
  - apply dseg_set_pv'_notin; [by right|]. apply dseg_set_nx'_notin; [by right|].
    do 2 (apply dseg_set_lk_notin; [done|]). apply dseg_set_pv'_notin; [by right|].
    by eapply dseg_set_nx'.
  - rewrite set_pv'_ne, set_nx'_ne by congruence. rewrite set_lk_eq. by destruct l2.
  - apply dseg_set_pv'_notin; [by right|].
    destruct l2 as [|y l2 _] using rev_ind; [done|].
    rewrite last_or_snoc. unfold set_nx'. rewrite decide_False by (intros ->; set_solver).
    eapply dseg_set_nx_last; [done|]. do 2 (apply dseg_set_lk_notin; [done|]).
    destruct (l2 ++ [y]) as [|z l2'] eqn:E; [by destruct l2|].
    rewrite ?E in Hn2, Hl12, Hs2, H02. cbn [head_or head default].
    unfold set_pv'. cbn. rewrite decide_False by (intros ->; apply H02; by left).
    apply (dseg_set_pv _ _ _ b _ a); [done|]. apply dseg_set_nx'_notin; [by right|]. exact Hs2.
  - rewrite set_pv'_ne, set_nx'_ne by congruence. rewrite set_lk_ne by done. rewrite set_lk_eq.
    f_equal. f_equal. destruct l2 as [|y l2 _] using rev_ind; [done|]. by rewrite !last_or_snoc.
  - eapply dseg_set_pv'; [done|done|]. apply dseg_set_nx'_notin; [by right|].
    do 2 (apply dseg_set_lk_notin; [done|]). apply dseg_set_pv'_notin; [by right|].
    apply dseg_set_nx'_notin; [by right|]. exact Hs3.
Qed.
End dseg.

(** ** The lists of a heap *)
Section hview.
Context {V : Type} (L : Links V).
Implicit Types (h : gmap Z V) (a b p v : Z) (x : V).

Definition hview (h : gmap Z V) : view := fun a =>
  (fun x => (lk_prev x, lk_next x)) <$> h !! a.

(** [x] is null or an object of the heap. *)
Definition linked h p : Prop := p = 0 \/ is_Some (h !! p).

(** Every object of the heap is well formed. *)
Definition hwf h : Prop := forall a x, h !! a = Some x -> lk_wf x = true.

Lemma hwf_alter h a (f : V -> V) :
  (forall x, lk_wf x = true -> lk_wf (f x) = true) -> hwf h -> hwf (alter f a h).
Proof.
  intros Hf Hh b x. destruct (decide (a = b)); subst.
  - rewrite lookup_alter_eq. destruct (h !! b) as [y|] eqn:E; [|done]. intros [= <-]. eauto.
  - rewrite lookup_alter_ne by done. apply Hh.
Qed.
Lemma hwf_alter_next h a v : hwf h -> hwf (alter (lk_set_next v) a h).
Proof. apply hwf_alter. intros x. by rewrite lk_wf_set_next. Qed.
Lemma hwf_alter_prev h a v : hwf h -> hwf (alter (lk_set_prev v) a h).
Proof. apply hwf_alter. intros x. by rewrite lk_wf_set_prev. Qed.
Lemma hwf_insert h a x : hwf h -> lk_wf x = true -> hwf (<[a := x]> h).
Proof.
  intros Hh Hx b y. destruct (decide (a = b)); subst.
  - rewrite lookup_insert_eq. by intros [= <-].
  - rewrite lookup_insert_ne by done. apply Hh.
Qed.

Lemma hview_alter_next h a v b :
  hwf h -> lk_ok v = true -> hview (alter (lk_set_next v) a h) b = set_nx a v (hview h) b.
Proof.
  intros Hh Hv. unfold hview, set_nx. case_decide; subst.
  - rewrite lookup_alter_eq. destruct (h !! a) as [x|] eqn:E; [|done]. cbn.
    by rewrite lk_prev_set_next, lk_next_set_next by eauto.
  - by rewrite lookup_alter_ne.
Qed.
Lemma hview_alter_prev h a v b :
  hwf h -> lk_ok v = true -> hview (alter (lk_set_prev v) a h) b = set_pv a v (hview h) b.
Proof.
  intros Hh Hv. unfold hview, set_pv. case_decide; subst.
  - rewrite lookup_alter_eq. destruct (h !! a) as [x|] eqn:E; [|done]. cbn.
    by rewrite lk_prev_set_prev, lk_next_set_prev by eauto.
  - by rewrite lookup_alter_ne.
Qed.
Lemma hview_insert h a x b :
  hview (<[a := x]> h) b = set_lk a (lk_prev x, lk_next x) (hview h) b.
Proof.
  unfold hview, set_lk. case_decide; subst.
  - by rewrite lookup_insert_eq.
  - by rewrite lookup_insert_ne.
Qed.
(** An update that keeps the links keeps the view. *)
Lemma hview_alter_keep h a (f : V -> V) b :
  (forall x, lk_prev (f x) = lk_prev x /\ lk_next (f x) = lk_next x) ->
  hview (alter f a h) b = hview h b.
Proof.
  intros Hf. unfold hview. destruct (decide (a = b)); subst.
  - rewrite lookup_alter_eq. destruct (h !! b) as [x|]; [|done]. cbn.
    by destruct (Hf x) as [-> ->].
  - by rewrite lookup_alter_ne.
Qed.

Lemma set_nx'_null (lk : view) a v b : lk 0 = None -> set_nx' a v lk b = set_nx a v lk b.
Proof.
  intros H0. unfold set_nx'. case_decide; [|done]. subst. unfold set_nx.
  case_decide; subst; [by rewrite H0|done].
Qed.
Lemma set_pv'_null (lk : view) a v b : lk 0 = None -> set_pv' a v lk b = set_pv a v lk b.
Proof.
  intros H0. unfold set_pv'. case_decide; [|done]. subst. unfold set_pv.
  case_decide; subst; [by rewrite H0|done].
Qed.

Lemma hview_null h : h !! 0 = None -> hview h 0 = None.
Proof. intros H. unfold hview. by rewrite H. Qed.

Lemma dlist_ext lk lk' l : (forall b, lk b = lk' b) -> dlist lk l -> dlist lk' l.
Proof. intros He (H1 & H2 & H3). split; [|done]. eapply dseg_frame; [|exact H1]. auto. Qed.
Lemma dlist_frame lk lk' l : (forall b, b ∈ l -> lk b = lk' b) -> dlist lk l -> dlist lk' l.
Proof. intros He (H1 & H2 & H3). split; [|done]. eapply dseg_frame; [|exact H1]. auto. Qed.

Lemma set_nx'_ext (lk lk' : view) a v b :
  (forall b, lk b = lk' b) -> set_nx' a v lk b = set_nx' a v lk' b.
Proof. intros He. unfold set_nx', set_nx. repeat case_decide; by rewrite ?He. Qed.
Lemma set_pv'_ext (lk lk' : view) a v b :
  (forall b, lk b = lk' b) -> set_pv' a v lk b = set_pv' a v lk' b.
Proof. intros He. unfold set_pv', set_pv. repeat case_decide; by rewrite ?He. Qed.

Lemma set_lk_ext (lk lk' : view) a pn b :
  (forall b, lk b = lk' b) -> set_lk a pn lk b = set_lk a pn lk' b.
Proof. intros He. unfold set_lk. case_decide; by rewrite ?He. Qed.

Lemma hview_alter_next' h a v b :
  hwf h -> h !! 0 = None -> lk_ok v = true ->
  hview (alter (lk_set_next v) a h) b = set_nx' a v (hview h) b.
Proof.
  intros Hh H0 Hv. rewrite hview_alter_next by done. symmetry. by apply set_nx'_null, hview_null.
Qed.
Lemma hview_alter_prev' h a v b :
  hwf h -> h !! 0 = None -> lk_ok v = true ->
  hview (alter (lk_set_prev v) a h) b = set_pv' a v (hview h) b.
Proof.
  intros Hh H0 Hv. rewrite hview_alter_prev by done. symmetry. by apply set_pv'_null, hview_null.
Qed.

Lemma alter_null_lookup h (f : V -> V) a : h !! 0 = None -> alter f a h !! 0 = None.
Proof.
  intros H. destruct (decide (a = 0)); subst.
  - by rewrite lookup_alter_eq, H.
  - by rewrite lookup_alter_ne.
Qed.

(** The two kinds of link update commute. *)
Lemma set_nx'_set_pv' (lk : view) p v n w b :
  set_nx' p v (set_pv' n w lk) b = set_pv' n w (set_nx' p v lk) b.
Proof.
  unfold set_nx', set_pv', set_nx, set_pv. repeat case_decide; try done.
  by destruct (lk b).
Qed.

(** Redirecting the next link of [p] and then the previous link of [n]. *)
Lemma hview_link h p n v w b :
  hwf h -> h !! 0 = None -> lk_ok v = true -> lk_ok w = true ->
  hview (alter (lk_set_prev w) n (alter (lk_set_next v) p h)) b =
    set_pv' n w (set_nx' p v (hview h)) b.
Proof.
  intros Hh H0 Hp Hn.
  rewrite hview_alter_prev' by (done || by apply hwf_alter_next || by apply alter_null_lookup).
  apply set_pv'_ext. intros c. by apply hview_alter_next'.
Qed.

(** The same in the other order. *)
Lemma hview_link_rev h p n v w b :
  hwf h -> h !! 0 = None -> lk_ok v = true -> lk_ok w = true ->
  hview (alter (lk_set_next v) p (alter (lk_set_prev w) n h)) b =
    set_pv' n w (set_nx' p v (hview h)) b.
Proof.
  intros Hh H0 Hp Hn.
  rewrite hview_alter_next' by (done || by apply hwf_alter_prev || by apply alter_null_lookup).
  rewrite <- set_nx'_set_pv'. apply set_nx'_ext. intros c. by apply hview_alter_prev'.
Qed.

(** The elements of a list are in the heap. *)
Lemma dseg_elem lk p l q a : dseg lk p l q -> a ∈ l -> is_Some (lk a).
Proof.
  revert p. induction l as [|y l IH]; intros p; [set_solver|]. cbn.
  intros [H1 H2] [->|Ha]%elem_of_cons; [by eauto|eauto].
Qed.
Lemma dlist_elem h l a : dlist (hview h) l -> a ∈ l -> is_Some (h !! a).
Proof.
  intros (Hs & _ & _) Ha. destruct (dseg_elem _ _ _ _ _ Hs Ha) as [pn Hpn].
  unfold hview in Hpn. destruct (h !! a); [eauto|done].
Qed.
Lemma dlist_linked_last h l1 l2 : dlist (hview h) (l1 ++ l2) -> linked h (last_or 0 l1).
Proof.
  intros H. destruct (last_or_elem 0 l1) as [->|Hin]; [by left|right].
  eapply dlist_elem; [done|set_solver].
Qed.
Lemma dlist_linked_head h l1 l2 : dlist (hview h) (l1 ++ l2) -> linked h (head_or 0 l2).
Proof.
  intros H. destruct (head_or_elem 0 l2) as [->|Hin]; [by left|right].
  eapply dlist_elem; [done|set_solver].
Qed.
Lemma dlist_links h l1 a l2 x :
  dlist (hview h) (l1 ++ a :: l2) -> h !! a = Some x ->
  lk_prev x = last_or 0 l1 /\ lk_next x = head_or 0 l2.
Proof.
  intros H Hx. apply dlist_lookup in H. unfold hview in H. rewrite Hx in H. by injection H.
Qed.

(** An object with null links in a list is alone in it. *)
Lemma dlist_singleton lk l a : dlist lk l -> a ∈ l -> lk a = Some (0, 0) -> l = [a].
Proof.
  intros Hd (l1 & l2 & ->)%list_elem_of_split Ha. pose proof Hd as (_ & _ & H0).
  apply dlist_lookup in Hd. rewrite Ha in Hd. injection Hd as Hp Hn.
  destruct l2 as [|y l2]; [|cbn in Hn; set_solver].
  destruct l1 as [|y l1] using rev_ind; [done|]. rewrite last_or_snoc in Hp. set_solver.
Qed.
End hview.

Section guarded_store.
Context {V : Type}.
Implicit Types (h : gmap Z V) (p : Z) (f : V -> V).

Lemma is_Some_alter p f h a : is_Some (alter f p h !! a) <-> is_Some (h !! a).
Proof.
  destruct (decide (a = p)); subst.
  - rewrite lookup_alter_eq, fmap_is_Some. done.
  - by rewrite lookup_alter_ne.
Qed.
Lemma linked_alter p f h a : linked h a -> linked (alter f p h) a.
Proof. intros [->|H]; [by left|right; by apply is_Some_alter]. Qed.
Lemma null_alter p f h : h !! 0 = None -> alter f p h !! 0 = None.
Proof.
  intros H. destruct (alter f p h !! 0) eqn:E; [|done].
  assert (is_Some (h !! 0)) as [? ?] by (eapply is_Some_alter; eauto). congruence.
Qed.

Lemma alter_insert_id p f h x : h !! p = Some x -> alter f p h = <[p := f x]> h.
Proof.
  intros Hx. apply map_eq. intros i. destruct (decide (i = p)); subst.
  - by rewrite lookup_alter_eq, lookup_insert_eq, Hx.
  - by rewrite lookup_alter_ne, lookup_insert_ne.
Qed.

Lemma wp_store_alter p f h (Q : unit -> gmap Z V -> Prop) :
  is_Some (h !! p) -> Q tt (alter f p h) -> wp (store_with p f) Q h.
Proof.
  intros [x Hx] HQ. eapply wp_store_with; [done|]. by rewrite <- alter_insert_id.
Qed.

(** [if p != 0 { convert_to_mut_type_ref(p).f() }] is [alter]. *)
Lemma wp_store_nz p f h (Q : unit -> gmap Z V -> Prop) :
  h !! 0 = None -> linked h p -> Q tt (alter f p h) ->
  wp (when (negb (bool_decide (p = 0))) (store_ref p f)) Q h.
Proof.
  intros H0 Hp HQ. apply wp_when; intros Hb.
  - rewrite negb_true_iff, bool_decide_eq_false in Hb. destruct Hp as [?|[x Hx]]; [done|].
    eapply wp_store_ref; [done|done|]. by rewrite (alter_insert_id p f h x) in HQ.
  - rewrite negb_false_iff, bool_decide_eq_true in Hb. subst.
    assert (alter f 0 h = h) as E; [|by rewrite E in HQ].
    apply map_eq. intros i. destruct (decide (i = 0)); subst.
    + by rewrite lookup_alter_eq, H0.
    + by rewrite lookup_alter_ne.
Qed.
End guarded_store.
