(* ===== verification/CSpace.v ===== *)
(** * Slots and the mapping database

    [sel4_cspace/src/mdb.rs] and the part of [sel4_cspace/src/cte.rs] that
    needs nothing but slots: the tests on the derivation tree, insertion,
    move, swap, unlinking, and the lookup of a slot in a capability space.
    Deletion and revocation, which call back into the kernel, are in
    [Delete.v].

    The mapping database is the doubly linked list through the slots; [mdb h l]
    says that the slots of [l] form one such list in this order. *)

From stdpp Require Import base numbers gmap list.
From S2P Require Import Prelude Bitfield Common Cap DList.
Local Open Scope Z_scope.
Local Open Scope krn_scope.

(** ** Data *)
(* src: sel4_cspace/src/mdb.rs 21-24 mdb_node_t *)
Definition mdb_node_t : bitstruct := Bs 2 0 0 0.
(* src: sel4_cspace/src/mdb.rs 25-25 mdbNext *)
Definition mdbNext : bitfield := Bf 1 2 46 2 true.
(* src: sel4_cspace/src/mdb.rs 26-26 mdbRevocable *)
Definition mdbRevocable : bitfield := Bf 1 1 1 0 false.
(* src: sel4_cspace/src/mdb.rs 27-27 mdbFirstBadged *)
Definition mdbFirstBadged : bitfield := Bf 1 0 1 0 false.
(* src: sel4_cspace/src/mdb.rs 28-28 mdbPrev *)
Definition mdbPrev : bitfield := Bf 0 0 64 0 false.
(* src: sel4_cspace/src/mdb.rs 24-29 mdb_node_t::new *)
Definition mdb_node_new (next revocable firstBadged prev : Z) : list Z :=
  bf_new mdb_node_t [(mdbNext, next); (mdbRevocable, revocable);
    (mdbFirstBadged, firstBadged); (mdbPrev, prev)] 0.
Definition mdb_node_default : list Z := [0; 0].

(* src: sel4_cspace/src/cte.rs 27-33 cte_t *)
Record cte_t := Cte { cte_cap : list Z; cteMDBNode : list Z }.
#[export] Instance cte_t_eq_dec : EqDecision cte_t.
Proof. solve_decision. Defined.
Definition cte_default : cte_t := Cte cap_default mdb_node_default.
(** [size_of::<cte_t>()] *)
Definition cte_size : Z := 32.

(** The slots of the system, by address. *)
Abbreviation slots := (gmap Z cte_t) (only parsing).

Definition set_cap (c : list Z) (x : cte_t) : cte_t := Cte c (cteMDBNode x).
Definition set_mdb (m : list Z) (x : cte_t) : cte_t := Cte (cte_cap x) m.
Definition mdb_set (f : bitfield) (v : Z) (x : cte_t) : cte_t :=
  Cte (cte_cap x) (bf_set f v (cteMDBNode x)).
Definition mdb_get (f : bitfield) (x : cte_t) : Z := bf_get f (cteMDBNode x).

(** [(p as *mut cte_t).add(n)] *)
Definition cte_add (p n : Z) : Z := wadd p (wmul cte_size n).
(** [get_offset_slot]: the reference is asserted not null. *)
(* src: sel4_cspace/src/cte.rs 40-42 cte_t::get_offset_slot *)
Definition get_offset_slot (self index : Z) : Z := wadd self (wmul cte_size index).

(** ** Tests *)
(* src: sel4_cspace/src/cte.rs 87-114 cte_t::is_mdb_parent_of *)
Definition is_mdb_parent_of (self next : cte_t) : res bool :=
  if mdb_get mdbRevocable self =w 0 then mret false
  else
    r ← same_region_as (cte_cap self) (cte_cap next);
    if negb r then mret false
    else
      t ← get_cap_type (cte_cap self);
      match t with
      | CapEndpointCap =>
          tn ← get_cap_type (cte_cap next);
          _ ← assert_r (tn =t CapEndpointCap);
          let badge := bf_get ep_badge (cte_cap self) in
          if badge =w 0 then mret true
          else mret ((badge =w bf_get ep_badge (cte_cap next)) && (mdb_get mdbFirstBadged next =w 0))
      | CapNotificationCap =>
          tn ← get_cap_type (cte_cap next);
          _ ← assert_r (tn =t CapNotificationCap);
          let badge := bf_get nf_badge (cte_cap self) in
          if badge =w 0 then mret true
          else mret ((badge =w bf_get nf_badge (cte_cap next)) && (mdb_get mdbFirstBadged next =w 0))
      | _ => mret true
      end.

(* src: sel4_cspace/src/cte.rs 77-86 cte_t::ensure_no_children *)
Definition ensure_no_children (self : Z) : ST slots exception_t :=
  x ← load self;
  if mdb_get mdbNext x <>w 0 then
    next ← load_ref (mdb_get mdbNext x);
    p ← lift (is_mdb_parent_of x next);
    if p : bool then mret EXCEPTION_SYSCALL_ERROR else mret EXCEPTION_NONE
  else mret EXCEPTION_NONE.

(* src: sel4_cspace/src/cte.rs 20-25 deriveCap_ret *)
Record deriveCap_ret := DeriveCapRet { dc_status : exception_t; dc_cap : list Z }.

(* src: sel4_cspace/src/arch/aarch64/mod.rs 158-224 cte_t::arch_derive_cap *)
Definition arch_derive_cap (c : list Z) : res deriveCap_ret :=
  t ← get_cap_type c;
  match t with
  | CapVspaceCap =>
      if bf_get vs_is_mapped c <>w 0 then mret (DeriveCapRet EXCEPTION_NONE c)
      else mret (DeriveCapRet EXCEPTION_SYSCALL_ERROR new_null_cap)
  | CapPageTableCap =>
      if bf_get pt_is_mapped c <>w 0 then mret (DeriveCapRet EXCEPTION_NONE c)
      else mret (DeriveCapRet EXCEPTION_SYSCALL_ERROR new_null_cap)
  | CapFrameCap => mret (DeriveCapRet EXCEPTION_NONE (bf_set frame_mapped_asid 0 c))
  | CapASIDControlCap | CapASIDPoolCap => mret (DeriveCapRet EXCEPTION_NONE c)
  | _ => Panic
  end.

(* src: sel4_cspace/src/cte.rs 44-76 cte_t::derive_cap *)
Definition derive_cap (self : Z) (c : list Z) : ST slots deriveCap_ret :=
  a ← lift (isArchCap c);
  if a : bool then lift (arch_derive_cap c)
  else
    t ← lift (get_cap_type c);
    match t with
    | CapZombieCap => mret (DeriveCapRet EXCEPTION_NONE new_null_cap)
    | CapUntypedCap =>
        st ← ensure_no_children self;
        if bool_decide (st <> EXCEPTION_NONE) then mret (DeriveCapRet st new_null_cap)
        else mret (DeriveCapRet st c)
    | CapReplyCap => mret (DeriveCapRet EXCEPTION_NONE new_null_cap)
    | CapIrqControlCap => mret (DeriveCapRet EXCEPTION_NONE new_null_cap)
    | _ => mret (DeriveCapRet EXCEPTION_NONE c)
    end.

(* src: sel4_cspace/src/cte.rs 116-136 cte_t::is_final_cap *)
Definition is_final_cap (self : Z) : ST slots bool :=
  x ← load self;
  prev_is_same_obj ←
    (if mdb_get mdbPrev x =w 0 then mret false
     else prev ← load_ref (mdb_get mdbPrev x); lift (same_object_as (cte_cap prev) (cte_cap x)));
  if (prev_is_same_obj : bool) then mret false
  else if mdb_get mdbNext x =w 0 then mret true
  else
    next ← load_ref (mdb_get mdbNext x);
    b ← lift (same_object_as (cte_cap x) (cte_cap next));
    mret (negb b).

(* src: sel4_cspace/src/cte.rs 138-146 cte_t::is_long_running_delete *)
Definition is_long_running_delete (self : Z) : ST slots bool :=
  x ← load self;
  t ← lift (get_cap_type (cte_cap x));
  if t =t CapNullCap then mret false
  else
    f ← is_final_cap self;
    if negb f then mret false
    else mret match t with CapThreadCap | CapZombieCap | CapCNodeCap => true | _ => false end.

(* src: sel4_common/src/utils.rs 121-124 MAX_FREE_INDEX *)
Definition MAX_FREE_INDEX (bits : Z) : Z := BIT (wsub bits seL4_MinUntypedBits).

(** ** Changing the derivation tree *)
(* src: sel4_cspace/src/cte.rs 469-482 setUntypedCapAsFull *)
Definition setUntypedCapAsFull (srcCap newCap : list Z) (srcSlot : Z) : ST slots unit :=
  ts ← lift (get_cap_type srcCap);
  if negb (ts =t CapUntypedCap) then mret tt
  else
    tn ← lift (get_cap_type newCap);
    if negb (tn =t CapUntypedCap) then mret tt
    else
      x ← load srcSlot;
      tx ← lift (get_cap_type (cte_cap x));
      assert_m (tx =t CapUntypedCap) ;;
      when ((bf_get untyped_ptr srcCap =w bf_get untyped_ptr newCap)
            && (bf_get untyped_block_size srcCap =w bf_get untyped_block_size newCap))
        (store_with srcSlot (fun x => set_cap (bf_set untyped_free_index
           (MAX_FREE_INDEX (bf_get untyped_block_size srcCap)) (cte_cap x)) x)).

(* src: sel4_cspace/src/cte.rs 335-365 cte_insert *)
Definition cte_insert (new_cap : list Z) (src_slot dest_slot : Z) : ST slots unit :=
  src ← load src_slot;
  let srcCap := cte_cap src in
  newCapIsRevocable ← lift (is_cap_revocable new_cap srcCap);
  let newMDB := bf_set mdbFirstBadged (b2w newCapIsRevocable)
                 (bf_set mdbRevocable (b2w newCapIsRevocable)
                 (bf_set mdbPrev src_slot (cteMDBNode src))) in
  dest ← load dest_slot;
  td ← lift (get_cap_type (cte_cap dest));
  assert_m (td =t CapNullCap) ;;
  assert_m ((mdb_get mdbNext dest =w 0) && (mdb_get mdbPrev dest =w 0)) ;;
  setUntypedCapAsFull srcCap new_cap src_slot ;;
  store_with dest_slot (set_cap new_cap) ;;
  store_with dest_slot (set_mdb newMDB) ;;
  store_with src_slot (mdb_set mdbNext dest_slot) ;;
  when (bf_get mdbNext newMDB <>w 0) (store_ref (bf_get mdbNext newMDB) (mdb_set mdbPrev dest_slot)).

(* src: sel4_cspace/src/cte.rs 367-377 insert_new_cap *)
Definition insert_new_cap (parent slot : Z) (c : list Z) : ST slots unit :=
  p ← load parent;
  let next := mdb_get mdbNext p in
  store_with slot (set_cap c) ;;
  store_with slot (set_mdb (mdb_node_new next 1 1 parent)) ;;
  when (next <>w 0) (store_ref next (mdb_set mdbPrev slot)) ;;
  store_with parent (mdb_set mdbNext slot).

(* src: sel4_cspace/src/cte.rs 379-407 cte_move *)
Definition cte_move (new_cap : list Z) (src_slot dest_slot : Z) : ST slots unit :=
  dest ← load dest_slot;
  td ← lift (get_cap_type (cte_cap dest));
  assert_m (td =t CapNullCap) ;;
  assert_m ((mdb_get mdbNext dest =w 0) && (mdb_get mdbPrev dest =w 0)) ;;
  src ← load src_slot;
  let mdb := cteMDBNode src in
  store_with dest_slot (set_cap new_cap) ;;
  store_with src_slot (set_cap new_null_cap) ;;
  store_with dest_slot (set_mdb mdb) ;;
  store_with src_slot (set_mdb (mdb_node_new 0 0 0 0)) ;;
  when (bf_get mdbPrev mdb <>w 0) (store_ref (bf_get mdbPrev mdb) (mdb_set mdbNext dest_slot)) ;;
  when (bf_get mdbNext mdb <>w 0) (store_ref (bf_get mdbNext mdb) (mdb_set mdbPrev dest_slot)).

(* src: sel4_cspace/src/cte.rs 409-448 cte_swap *)
Definition cte_swap (cap1 : list Z) (slot1 : Z) (cap2 : list Z) (slot2 : Z) : ST slots unit :=
  x1 ← load slot1;
  x2 ← load slot2;
  let mdb1 := cteMDBNode x1 in
  let mdb2 := cteMDBNode x2 in
  when (bf_get mdbPrev mdb1 <>w 0) (store_ref (bf_get mdbPrev mdb1) (mdb_set mdbNext slot2)) ;;
  when (bf_get mdbNext mdb1 <>w 0) (store_ref (bf_get mdbNext mdb1) (mdb_set mdbPrev slot2)) ;;
  store_with slot1 (set_cap cap2) ;;
  store_with slot2 (set_cap cap1) ;;
  store_with slot1 (set_mdb mdb2) ;;
  store_with slot2 (set_mdb mdb1) ;;
  when (bf_get mdbPrev mdb2 <>w 0) (store_ref (bf_get mdbPrev mdb2) (mdb_set mdbNext slot1)) ;;
  when (bf_get mdbNext mdb2 <>w 0) (store_ref (bf_get mdbNext mdb2) (mdb_set mdbPrev slot1)).

(** The part of [set_empty] that works on slots. *)
(* src: sel4_cspace/src/cte.rs 219-241 cte_t::set_empty *)
Definition mdb_unlink (self : Z) : ST slots unit :=
  x ← load self;
  let mdb_node := cteMDBNode x in
  let prev_addr := bf_get mdbPrev mdb_node in
  let next_addr := bf_get mdbNext mdb_node in
  when (prev_addr <>w 0) (store_ref prev_addr (mdb_set mdbNext next_addr)) ;;
  when (next_addr <>w 0)
    (store_ref next_addr (fun n =>
       let n := mdb_set mdbPrev prev_addr n in
       let first_badged := b2w ((mdb_get mdbFirstBadged n <>w 0)
                                || (bf_get mdbFirstBadged mdb_node <>w 0)) in
       mdb_set mdbFirstBadged first_badged n)) ;;
  store_with self (set_cap new_null_cap) ;;
  store_with self (set_mdb mdb_node_default).

(** ** Lookup *)
(* src: sel4_cspace/src/structures.rs 40-46 resolveAddressBits_ret_t *)
Record resolveAddressBits_ret_t := ResolveRet {
  rab_status : exception_t; rab_slot : Z; rab_bitsRemaining : Z }.

(** One iteration of the loop either returns ([inr]) or goes on with the
    capability of the slot it reached and the bits that are left ([inl]). *)
(* src: sel4_cspace/src/cte.rs 506-534 resolve_address_bits *)
Definition resolve_step (nodeCap : list Z) (cap_ptr n_bits0 n_bits : Z)
    : ST slots (list Z * Z + resolveAddressBits_ret_t) :=
  let radixBits := bf_get cnode_radix nodeCap in
  let guardBits := bf_get cnode_guard_size nodeCap in
  let levelBits := wadd radixBits guardBits in
  assert_m (levelBits <>w 0) ;;
  let capGuard := bf_get cnode_guard nodeCap in
  let guard := wshr cap_ptr (wsub n_bits guardBits &&& MASK wordRadix) &&& MASK guardBits in
  if bool_decide (guardBits > n_bits) || (guard <>w capGuard) then
    mret (inr (ResolveRet EXCEPTION_LOOKUP_FAULT 0 n_bits0))
  else if bool_decide (levelBits > n_bits) then
    mret (inr (ResolveRet EXCEPTION_LOOKUP_FAULT 0 n_bits0))
  else
    let offset := wshr cap_ptr (wsub n_bits levelBits) &&& MASK radixBits in
    let slot := cte_add (bf_get cnode_ptr nodeCap) offset in
    if n_bits =w levelBits then mret (inr (ResolveRet EXCEPTION_NONE slot 0))
    else
      let n_bits := wsub n_bits levelBits in
      x ← load slot;
      let nodeCap := cte_cap x in
      t ← lift (get_cap_type nodeCap);
      if negb (t =t CapCNodeCap) then mret (inr (ResolveRet EXCEPTION_NONE slot n_bits))
      else mret (inl (nodeCap, n_bits)).

(* src: sel4_cspace/src/cte.rs 505-536 resolve_address_bits *)
Fixpoint resolve_loop (fuel : nat) (nodeCap : list Z) (cap_ptr n_bits0 n_bits : Z)
    : ST slots resolveAddressBits_ret_t :=
  match fuel with
  | O => no_fuel
  | S fuel =>
      r ← resolve_step nodeCap cap_ptr n_bits0 n_bits;
      match r with
      | inr ret => mret ret
      | inl (nodeCap, n_bits) => resolve_loop fuel nodeCap cap_ptr n_bits0 n_bits
      end
  end.

(** The fuel is one more than the number of bits: every level consumes at
    least one ([resolve_loop_total]). *)
(* src: sel4_cspace/src/cte.rs 484-537 resolve_address_bits *)
Definition resolve_address_bits (node_cap : list Z) (cap_ptr n_bits : Z)
    : ST slots resolveAddressBits_ret_t :=
  t ← lift (get_cap_type node_cap);
  if negb (t =t CapCNodeCap) then mret (ResolveRet EXCEPTION_LOOKUP_FAULT 0 n_bits)
  else resolve_loop (S (Z.to_nat n_bits)) node_cap cap_ptr n_bits n_bits.

(** ** The mapping database as a list *)

(** A slot address that the 46-bit field [mdbNext] can hold. *)
Definition slot_addr (a : Z) : bool :=
  bool_decide (bf_norm mdbNext a = a) && bool_decide (is_word a).

Ltac bf_solve := first [done | reflexivity | vm_compute; reflexivity].
Ltac bf_other := rewrite (bf_get_set_other 2 2) by bf_solve.

Lemma slot_addr_0 : slot_addr 0 = true.
Proof. reflexivity. Qed.

Lemma mdbPrev_norm a : is_word a -> bf_norm mdbPrev a = a.
Proof. intros H. apply bf_norm_small; cbn; [done|done|lia|exact H]. Qed.

#[export] Program Instance mdb_links : Links cte_t := {|
  lk_prev := mdb_get mdbPrev;
  lk_next := mdb_get mdbNext;
  lk_set_prev := mdb_set mdbPrev;
  lk_set_next := mdb_set mdbNext;
  lk_ok := slot_addr;
  lk_wf := fun x => bool_decide (length (cteMDBNode x) = 2%nat);
|}.
Next Obligation.
  intros a x [_ Ha]%andb_true_iff Hx. apply bool_decide_eq_true in Hx, Ha.
  unfold mdb_get, mdb_set. cbn. rewrite (bf_get_set_same 2) by bf_solve. by apply mdbPrev_norm.
Qed.
Next Obligation. intros a x. unfold mdb_get, mdb_set. cbn. by bf_other. Qed.
Next Obligation.
  intros a x [Ha _]%andb_true_iff Hx. apply bool_decide_eq_true in Hx, Ha.
  unfold mdb_get, mdb_set. cbn. by rewrite (bf_get_set_same 2) by bf_solve.
Qed.
Next Obligation. intros a x. unfold mdb_get, mdb_set. cbn. by bf_other. Qed.
Next Obligation. intros a x. unfold mdb_set. cbn. by rewrite bf_set_length. Qed.
Next Obligation. intros a x. unfold mdb_set. cbn. by rewrite bf_set_length. Qed.

(** Well-formed slot heaps. *)
Record slots_ok (h : slots) : Prop := {
  so_wf : hwf mdb_links h;
  so_null : h !! 0 = None;
  so_addr : forall a, is_Some (h !! a) -> slot_addr a = true }.

(** The same as a test. *)
Definition slots_okb (h : slots) : bool :=
  forallb (fun ax => bool_decide (length (cteMDBNode ax.2) = 2%nat) && slot_addr ax.1
                     && bool_decide (ax.1 <> 0)) (map_to_list h).
Lemma slots_okb_ok (h : slots) : slots_okb h = true -> slots_ok h.
Proof.
  intros H. unfold slots_okb in H. rewrite forallb_forall in H.
  assert (forall a x, h !! a = Some x ->
    (bool_decide (length (cteMDBNode x) = 2%nat) && slot_addr a && bool_decide (a <> 0))%bool = true) as Hall.
  { intros a x Hx. apply (H (a, x)). by apply list_elem_of_In, elem_of_map_to_list. }
  split.
  - intros a x Hx. specialize (Hall a x Hx). by apply andb_true_iff in Hall as [[? _]%andb_true_iff _].
  - destruct (h !! 0) as [x|] eqn:E; [|done]. specialize (Hall 0 x E).
    by apply andb_true_iff in Hall as [_ Hn%bool_decide_eq_true].
  - intros a [x Hx]. specialize (Hall a x Hx). by apply andb_true_iff in Hall as [[_ ?]%andb_true_iff _].
Qed.

(** The slots of [l] are one list of the mapping database. *)
Definition mdb (h : slots) (l : list Z) : Prop := dlist (hview mdb_links h) l.

(** [f] keeps the mapping database node. *)
Definition keeps_mdb (f : cte_t -> cte_t) : Prop := forall x, cteMDBNode (f x) = cteMDBNode x.

Section slots.
Implicit Types (h : slots) (a b : Z) (x : cte_t) (l : list Z).

Lemma slots_ok_linked h a : slots_ok h -> linked h a -> slot_addr a = true.
Proof. intros Hok [->|Ha]; [apply slot_addr_0|by apply Hok]. Qed.

Lemma slots_ok_alter h a (f : cte_t -> cte_t) :
  (forall x, length (cteMDBNode x) = 2%nat -> length (cteMDBNode (f x)) = 2%nat) ->
  slots_ok h -> slots_ok (alter f a h).
Proof.
  intros Hf [H1 H2 H3]. split.
  - apply hwf_alter; [|done]. intros x. cbn. rewrite !bool_decide_eq_true. apply Hf.
  - by apply null_alter.
  - intros b Hb. apply H3. by eapply is_Some_alter.
Qed.

Lemma slots_ok_set_next h a v : slots_ok h -> slots_ok (alter (mdb_set mdbNext v) a h).
Proof. apply slots_ok_alter. intros x. unfold mdb_set. cbn. by rewrite bf_set_length. Qed.
Lemma slots_ok_set_prev h a v : slots_ok h -> slots_ok (alter (mdb_set mdbPrev v) a h).
Proof. apply slots_ok_alter. intros x. unfold mdb_set. cbn. by rewrite bf_set_length. Qed.
Lemma slots_ok_insert h a x :
  slots_ok h -> is_Some (h !! a) -> length (cteMDBNode x) = 2%nat -> slots_ok (<[a := x]> h).
Proof.
  intros [H1 H2 H3] Ha Hx. split.
  - apply hwf_insert; [done|]. cbn. by apply bool_decide_true.
  - rewrite lookup_insert_ne; [done|]. intros ->. destruct Ha; congruence.
  - intros b Hb. destruct (decide (a = b)); subst; [by apply H3|].
    apply H3. by rewrite lookup_insert_ne in Hb.
Qed.

Lemma hview_alter_cap h a f b : keeps_mdb f -> hview mdb_links (alter f a h) b = hview mdb_links h b.
Proof. intros Hf. apply hview_alter_keep. intros x. cbn. unfold mdb_get. by rewrite Hf. Qed.

Lemma keeps_mdb_set_cap c : keeps_mdb (set_cap c).
Proof. done. Qed.

(** A slot with null links is in no list with another slot. *)
Lemma mdb_free_notin h l a b x :
  mdb h l -> b ∈ l -> a <> b -> h !! a = Some x ->
  mdb_get mdbNext x = 0 -> mdb_get mdbPrev x = 0 -> a ∉ l.
Proof.
  intros Hl Hb Hab Hx Hn Hp Ha. assert (l = [a]) as ->; [|set_solver].
  eapply dlist_singleton; [done|done|]. unfold hview. rewrite Hx. cbn. by rewrite Hn, Hp.
Qed.

(** Overwriting a slot, seen from the lists. *)
Lemma hview_alter_slot h a c m p n b :
  is_Some (h !! a) -> bf_get mdbPrev m = p -> bf_get mdbNext m = n ->
  hview mdb_links (alter (fun _ => Cte c m) a h) b = set_lk a (p, n) (hview mdb_links h) b.
Proof.
  intros [x Hx] Hp Hn. rewrite (alter_insert_id _ _ _ _ Hx), hview_insert. cbn.
  unfold mdb_get. cbn. by rewrite Hp, Hn.
Qed.

(** What an operation may do to the slots outside a set of addresses: nothing. *)
Definition frame (h h' : slots) (l : list Z) : Prop := forall a, a ∉ l -> h' !! a = h !! a.
(** Only the capabilities of the slots in [l] may change. *)
Definition caps_frame (h h' : slots) (l : list Z) : Prop :=
  forall a, a ∉ l -> cte_cap <$> h' !! a = cte_cap <$> h !! a.

Lemma caps_alter_mdb h a f b :
  (forall x, cte_cap (f x) = cte_cap x) -> cte_cap <$> alter f a h !! b = cte_cap <$> h !! b.
Proof.
  intros Hf. destruct (decide (b = a)); subst; [|by rewrite lookup_alter_ne].
  rewrite lookup_alter_eq. destruct (h !! a); [|done]. cbn. by rewrite Hf.
Qed.
End slots.

(** Total-correctness steps on slots. *)
Ltac slot_some := rewrite ?is_Some_alter; by eauto.
Ltac wp_load_slot H := apply wp_bind; eapply wp_load; [exact H|].
Ltac wp_lift_ok H := apply wp_bind; eapply wp_lift; [exact H|].
Ltac wp_assert_ok := apply wp_bind, wp_assert; [first [done | by apply bool_decide_true]|].
Ltac wp_store := first [apply wp_bind, wp_store_alter | apply wp_store_alter]; [slot_some|].

Section cte_ops.
Implicit Types (h : slots) (a b src dest : Z) (x s d : cte_t) (l : list Z).

(** An empty slot outside the mapping database. *)
Definition empty_slot x : Prop :=
  get_cap_type (cte_cap x) = Ok CapNullCap /\ mdb_get mdbNext x = 0 /\ mdb_get mdbPrev x = 0.

(** The capability [cte_insert] leaves in the source slot. *)
Definition src_cap_after (srcCap newCap : list Z) : list Z :=
  if bool_decide (get_cap_type srcCap = Ok CapUntypedCap)
     && bool_decide (get_cap_type newCap = Ok CapUntypedCap)
     && ((bf_get untyped_ptr srcCap =w bf_get untyped_ptr newCap)
         && (bf_get untyped_block_size srcCap =w bf_get untyped_block_size newCap))
  then bf_set untyped_free_index (MAX_FREE_INDEX (bf_get untyped_block_size srcCap)) srcCap
  else srcCap.

Lemma wp_setUntypedCapAsFull srcCap newCap src h s ts tn (Q : unit -> slots -> Prop) :
  h !! src = Some s -> cte_cap s = srcCap ->
  get_cap_type srcCap = Ok ts -> get_cap_type newCap = Ok tn ->
  Q tt (alter (set_cap (src_cap_after srcCap newCap)) src h) ->
  wp (setUntypedCapAsFull srcCap newCap src) Q h.
Proof.
  intros Hs Hc Hts Htn HQ. unfold setUntypedCapAsFull. wp_lift_ok Hts.
  assert (alter (set_cap srcCap) src h = h) as Hid.
  { rewrite (alter_insert_id _ _ _ _ Hs). apply insert_id. rewrite Hs. f_equal.
    destruct s. cbn in *. by subst. }
  unfold src_cap_after in HQ. rewrite Hts, Htn in HQ.
  destruct (decide (ts = CapUntypedCap)) as [->|Hu].
  2: { rewrite (bool_decide_false (Ok ts = _)) in HQ by congruence.
       rewrite (bool_decide_false (ts = _)) by done. apply wp_ret. cbn [andb] in HQ. by rewrite Hid in HQ. }
  rewrite (bool_decide_true (CapUntypedCap = _)) by done. wp_lift_ok Htn.
  destruct (decide (tn = CapUntypedCap)) as [->|Hu].
  2: { rewrite (bool_decide_false (Ok tn = _)) in HQ by congruence.
       rewrite (bool_decide_false (tn = _)) by done. apply wp_ret.
       rewrite andb_false_r in HQ. cbn [andb] in HQ. by rewrite Hid in HQ. }
  rewrite (bool_decide_true (CapUntypedCap = _)) by done.
  rewrite !(bool_decide_true (Ok CapUntypedCap = _)) in HQ by done. cbn [andb negb] in HQ |- *.
  wp_load_slot Hs. rewrite Hc. wp_lift_ok Hts. wp_assert_ok.
  apply wp_when; intros Hb; rewrite Hb in HQ.
  - apply wp_store_alter; [by eauto|].
    erewrite alter_insert_id in HQ |- * by exact Hs. by rewrite Hc.
  - by rewrite Hid in HQ.
Qed.
End cte_ops.
