(* ===== verification/CSpaceProps.v ===== *)
(** * Slots and the mapping database: properties

    Each operation of [CSpace.v] that changes the derivation tree implements
    an operation on the list of slots: insertion after the source, replacement
    of the source, removal.  The lookup of a slot terminates and is what the
    guards and radices of the capability nodes say. *)

From stdpp Require Import base numbers gmap list.
From S2P Require Import Prelude Bitfield Common Cap DList CSpace.
Local Open Scope Z_scope.
Local Open Scope krn_scope.

Section lemmas.
Implicit Types (h : slots) (a b src dest : Z) (x s d : cte_t) (l : list Z).

Lemma slot_addr_word a : slot_addr a = true -> is_word a.
Proof. intros [_ H]%andb_true_iff. by apply bool_decide_eq_true in H. Qed.
Lemma slot_addr_norm a : slot_addr a = true -> bf_norm mdbNext a = a.
Proof. intros [H _]%andb_true_iff. by apply bool_decide_eq_true in H. Qed.

(** The node [cte_insert] gives the new slot. *)
Definition inserted_mdb (src : Z) (rev : bool) (m : list Z) : list Z :=
  bf_set mdbFirstBadged (b2w rev) (bf_set mdbRevocable (b2w rev) (bf_set mdbPrev src m)).

Lemma inserted_mdb_next src rev m : bf_get mdbNext (inserted_mdb src rev m) = bf_get mdbNext m.
Proof. unfold inserted_mdb. by do 3 bf_other. Qed.
Lemma inserted_mdb_prev src rev m :
  length m = 2%nat -> is_word src -> bf_get mdbPrev (inserted_mdb src rev m) = src.
Proof.
  intros Hm Hs. unfold inserted_mdb. do 2 bf_other.
  rewrite (bf_get_set_same 2) by bf_solve. by apply mdbPrev_norm.
Qed.
Lemma flag_norm f v : bf_bits f = 1 -> bf_sign f = false -> bf_shift f = 0 -> bf_norm f (b2w v) = b2w v.
Proof. intros H1 H2 H3. apply bf_norm_small; rewrite ?H1; [done|done|lia|destruct v; cbn; lia]. Qed.
Lemma inserted_mdb_flags src rev m :
  length m = 2%nat ->
  bf_get mdbRevocable (inserted_mdb src rev m) = b2w rev /\
  bf_get mdbFirstBadged (inserted_mdb src rev m) = b2w rev.
Proof.
  intros Hm. unfold inserted_mdb. split; [bf_other|];
    (rewrite (bf_get_set_same 2); [by apply flag_norm|done|by rewrite !bf_set_length]).
Qed.

(** The heap [cte_insert] produces. *)
Definition insert_heap h src dest s (new_cap : list Z) (rev : bool) : slots :=
  alter (mdb_set mdbPrev dest) (mdb_get mdbNext s)
    (alter (mdb_set mdbNext dest) src
      (alter (fun _ => Cte new_cap (inserted_mdb src rev (cteMDBNode s))) dest
        (alter (set_cap (src_cap_after (cte_cap s) new_cap)) src h))).

Lemma wp_cte_insert h new_cap src dest s d rev ts tn l1 l2 (Q : unit -> slots -> Prop) :
  slots_ok h -> mdb h (l1 ++ src :: l2) -> h !! src = Some s -> h !! dest = Some d ->
  empty_slot d -> get_cap_type (cte_cap s) = Ok ts -> get_cap_type new_cap = Ok tn ->
  is_cap_revocable new_cap (cte_cap s) = Ok rev ->
  Q tt (insert_heap h src dest s new_cap rev) ->
  wp (cte_insert new_cap src dest) Q h.
Proof.
  intros Hok Hl Hs Hd (Hdc & Hdn & Hdp) Hts Htn Hrev HQ. unfold cte_insert.
  wp_load_slot Hs. wp_lift_ok Hrev. wp_load_slot Hd. wp_lift_ok Hdc.
  wp_assert_ok. rewrite Hdn, Hdp. wp_assert_ok.
  apply wp_bind. eapply wp_setUntypedCapAsFull; [done|done|done|done|].
  do 3 wp_store. pose proof (dlist_links _ _ _ _ _ _ Hl Hs) as [_ Hn]. cbn in Hn.
  fold (inserted_mdb src rev (cteMDBNode s)). rewrite inserted_mdb_next.
  unfold mdb_get in Hn. apply wp_store_nz.
  - do 4 apply null_alter. apply Hok.
  - do 4 apply linked_alter. rewrite Hn.
    change (l1 ++ src :: l2) with (l1 ++ [src] ++ l2) in Hl. rewrite app_assoc in Hl.
    eapply dlist_linked_head. exact Hl.
  - unfold insert_heap in HQ. rewrite alter_alter_eq. exact HQ.
Qed.

Lemma insert_heap_ok h src dest s new_cap rev :
  slots_ok h -> h !! src = Some s -> slots_ok (insert_heap h src dest s new_cap rev).
Proof.
  intros Hok Hs. unfold insert_heap. apply slots_ok_set_prev, slots_ok_set_next.
  pose proof (so_wf _ Hok src s Hs) as Hm. cbn in Hm. apply bool_decide_eq_true in Hm.
  set (h1 := alter (set_cap _) src h).
  assert (slots_ok h1) as Hok1 by by apply slots_ok_alter.
  destruct (h1 !! dest) as [y|] eqn:E.
  - rewrite (alter_insert_id _ _ _ _ E). apply slots_ok_insert; [done|by eauto|].
    unfold inserted_mdb. cbn. by rewrite !bf_set_length.
  - rewrite alter_id'; [done|]. by rewrite E.
Qed.

Lemma insert_heap_mdb h src dest s d new_cap rev l1 l2 :
  slots_ok h -> mdb h (l1 ++ src :: l2) -> h !! src = Some s -> h !! dest = Some d ->
  dest ∉ l1 ++ src :: l2 -> mdb (insert_heap h src dest s new_cap rev) (l1 ++ src :: dest :: l2).
Proof.
  intros Hok Hl Hs Hd Hnotin. pose proof (dlist_links _ _ _ _ _ _ Hl Hs) as [_ Hn]. cbn in Hn.
  assert (mdb h ((l1 ++ [src]) ++ l2)) as Hl' by by rewrite <- app_assoc.
  pose proof (so_wf _ Hok src s Hs) as Hm. cbn in Hm. apply bool_decide_eq_true in Hm.
  assert (slot_addr dest = true) as Had by (apply Hok; eauto).
  assert (slot_addr src = true) as Has by (apply Hok; eauto).
  assert (dest <> 0) as Hd0 by (intros ->; by rewrite (so_null _ Hok) in Hd).
  unfold mdb. change (l1 ++ src :: dest :: l2) with (l1 ++ [src] ++ dest :: l2). rewrite app_assoc.
  eapply dlist_ext; [|apply dlist_insert; [exact Hl'|by rewrite <- app_assoc|exact Hd0]].
  intros b. rewrite last_or_snoc. unfold insert_heap. rewrite Hn.
  set (h1 := alter (set_cap _) src h).
  assert (slots_ok h1) as Hok1 by by apply slots_ok_alter.
  set (h2 := alter (fun _ => _) dest h1).
  assert (slots_ok h2) as Hok2.
  { apply slots_ok_alter; [|done]. intros x _. unfold inserted_mdb. cbn.
    by rewrite !bf_set_length. }
  symmetry. etrans; [apply (hview_link mdb_links h2); (done || apply Hok2)|].
  apply set_pv'_ext. intros c. apply set_nx'_ext. clear c. intros c. unfold h2.
  rewrite (hview_alter_slot _ _ _ _ src (head_or 0 l2)).
  - unfold set_lk. case_decide; [done|]. apply hview_alter_cap. done.
  - apply is_Some_alter. eauto.
  - apply inserted_mdb_prev; [done|by apply slot_addr_word].
  - rewrite inserted_mdb_next. exact Hn.
Qed.

(** The neighbours of a slot of a list are null or in the list. *)
Lemma mdb_next_in h l1 a l2 x :
  mdb h (l1 ++ a :: l2) -> h !! a = Some x -> mdb_get mdbNext x = 0 \/ mdb_get mdbNext x ∈ l2.
Proof.
  intros Hl Hx. pose proof (dlist_links _ _ _ _ _ _ Hl Hx) as [_ Hn]. cbn in Hn. rewrite Hn.
  apply head_or_elem.
Qed.
Lemma mdb_prev_in h l1 a l2 x :
  mdb h (l1 ++ a :: l2) -> h !! a = Some x -> mdb_get mdbPrev x = 0 \/ mdb_get mdbPrev x ∈ l1.
Proof.
  intros Hl Hx. pose proof (dlist_links _ _ _ _ _ _ Hl Hx) as [Hp _]. cbn in Hp. rewrite Hp.
  apply last_or_elem.
Qed.

(** An update of a neighbour is outside the frame of the list. *)
Lemma alter_neighbour h f n l a :
  h !! 0 = None -> (n = 0 \/ n ∈ l) -> a ∉ l -> alter f n h !! a = h !! a.
Proof.
  intros H0 [->|Hn] Ha.
  - destruct (decide (a = 0)); subst; [|by rewrite lookup_alter_ne].
    by rewrite lookup_alter_eq, H0.
  - rewrite lookup_alter_ne; [done|]. by intros ->.
Qed.

Lemma slots_not_null h a x : slots_ok h -> h !! a = Some x -> a <> 0.
Proof. intros Hok Hx ->. by rewrite (so_null _ Hok) in Hx. Qed.
Lemma slots_ok_length h a x : slots_ok h -> h !! a = Some x -> length (cteMDBNode x) = 2%nat.
Proof. intros Hok Hx. pose proof (so_wf _ Hok a x Hx) as H. by apply bool_decide_eq_true in H. Qed.
Lemma slots_ok_addr h a x : slots_ok h -> h !! a = Some x -> slot_addr a = true.
Proof. intros Hok Hx. apply Hok. eauto. Qed.

Lemma insert_heap_frame h src dest s new_cap rev l1 l2 a :
  slots_ok h -> mdb h (l1 ++ src :: l2) -> h !! src = Some s ->
  a ∉ dest :: l1 ++ src :: l2 -> insert_heap h src dest s new_cap rev !! a = h !! a.
Proof.
  intros Hok Hl Hs Ha. unfold insert_heap.
  rewrite (alter_neighbour _ _ _ l2); [|by repeat apply null_alter; apply Hok
    |by eapply mdb_next_in|set_solver].
  rewrite !lookup_alter_ne by set_solver. done.
Qed.

Lemma insert_heap_new h src dest s d new_cap rev l1 l2 :
  slots_ok h -> mdb h (l1 ++ src :: l2) -> src <> dest -> h !! src = Some s -> h !! dest = Some d ->
  dest ∉ l1 ++ src :: l2 ->
  insert_heap h src dest s new_cap rev !! dest = Some (Cte new_cap (inserted_mdb src rev (cteMDBNode s))).
Proof.
  intros Hok Hl Hne Hs Hd Hdn.
  assert (mdb_get mdbNext s <> dest) as Hnd.
  { destruct (mdb_next_in _ _ _ _ _ Hl Hs) as [->|Hin]; [|set_solver].
    intros <-. by rewrite (so_null _ Hok) in Hd. }
  unfold insert_heap. rewrite !(lookup_alter_ne _ _ _ dest) by done. rewrite lookup_alter_eq.
  rewrite lookup_alter_ne by done. by rewrite Hd.
Qed.
Lemma insert_heap_caps h src dest s new_cap rev a :
  a <> src -> a <> dest -> cte_cap <$> insert_heap h src dest s new_cap rev !! a = cte_cap <$> h !! a.
Proof.
  intros H1 H2. unfold insert_heap. rewrite !caps_alter_mdb by done.
  by rewrite !lookup_alter_ne by done.
Qed.
End lemmas.

(** C3: [cte_insert] refines insertion into the derivation list: from a
    well-formed slot heap where [src] is in the list [l1 ++ src :: l2] and
    [dest] is empty, it returns (no assertion fails, no dangling link is
    followed) in a well-formed heap where the list is
    [l1 ++ src :: dest :: l2]; the new slot holds the capability with the
    revocable and first-badged flags of [is_cap_revocable], the source is
    marked full when it is an untyped capability that is copied whole, and no
    other capability and no slot outside the list changes. *)
Theorem cte_insert_refines (h : slots) (new_cap : list Z) (src dest : Z) (s d : cte_t)
    (rev : bool) (ts tn : CapTag) (l1 l2 : list Z) :
  slots_ok h -> mdb h (l1 ++ src :: l2) -> src <> dest ->
  h !! src = Some s -> h !! dest = Some d -> empty_slot d ->
  get_cap_type (cte_cap s) = Ok ts -> get_cap_type new_cap = Ok tn ->
  is_cap_revocable new_cap (cte_cap s) = Ok rev ->
  wp (cte_insert new_cap src dest) (fun _ h' =>
    slots_ok h' /\ mdb h' (l1 ++ src :: dest :: l2) /\
    cte_cap <$> h' !! dest = Some new_cap /\
    mdb_get mdbRevocable <$> h' !! dest = Some (b2w rev) /\
    mdb_get mdbFirstBadged <$> h' !! dest = Some (b2w rev) /\
    cte_cap <$> h' !! src = Some (src_cap_after (cte_cap s) new_cap) /\
    caps_frame h h' [src; dest] /\ frame h h' (dest :: l1 ++ src :: l2)) h.
Proof.
  intros Hok Hl Hne Hs Hd He Hts Htn Hrev.
  assert (dest ∉ l1 ++ src :: l2) as Hdn.
  { destruct He as (_ & Hn & Hp). eapply (mdb_free_notin h _ dest src d); eauto. set_solver. }
  eapply wp_cte_insert; [done..|].
  pose proof (insert_heap_new _ _ _ _ _ new_cap rev _ _ Hok Hl Hne Hs Hd Hdn) as Hdest.
  pose proof (slots_ok_length _ _ _ Hok Hs) as Hm.
  split; [by apply insert_heap_ok|]. split; [by eapply insert_heap_mdb|].
  rewrite Hdest. cbn. unfold mdb_get. cbn.
  destruct (inserted_mdb_flags src rev (cteMDBNode s) Hm) as [-> ->].
  do 3 (split; [done|]). split; [|split].
  - unfold insert_heap. rewrite !caps_alter_mdb by done. rewrite lookup_alter_ne by done.
    rewrite lookup_alter_eq, Hs. done.
  - intros a Ha. apply insert_heap_caps; set_solver.
  - intros a Ha. by eapply insert_heap_frame.
Qed.

Section mdb_node_new.
Implicit Types (h : slots).

Lemma mdb_node_variant : variant_ok mdb_node_t [mdbNext; mdbRevocable; mdbFirstBadged; mdbPrev] = true.
Proof. reflexivity. Qed.
Lemma mdb_node_new_get n r f p g v :
  (g, v) ∈ [(mdbNext, n); (mdbRevocable, r); (mdbFirstBadged, f); (mdbPrev, p)] ->
  bf_get g (mdb_node_new n r f p) = bf_norm g v.
Proof. intros H. apply bf_new_get; [exact mdb_node_variant|done|exact H]. Qed.
Lemma mdb_node_new_length n r f p : length (mdb_node_new n r f p) = 2%nat.
Proof. unfold mdb_node_new, bf_new. rewrite length_insert, bf_set_or_length. done. Qed.
End mdb_node_new.

Section insert_new_cap.
Implicit Types (h : slots) (a b parent slot : Z) (p d : cte_t) (l : list Z).

Definition new_cap_heap h parent slot p (c : list Z) : slots :=
  alter (mdb_set mdbNext slot) parent
    (alter (mdb_set mdbPrev slot) (mdb_get mdbNext p)
      (alter (fun _ => Cte c (mdb_node_new (mdb_get mdbNext p) 1 1 parent)) slot h)).

Lemma wp_insert_new_cap h parent slot c p d l1 l2 (Q : unit -> slots -> Prop) :
  slots_ok h -> mdb h (l1 ++ parent :: l2) -> h !! parent = Some p -> h !! slot = Some d ->
  Q tt (new_cap_heap h parent slot p c) -> wp (insert_new_cap parent slot c) Q h.
Proof.
  intros Hok Hl Hp Hs HQ. unfold insert_new_cap. wp_load_slot Hp. do 2 wp_store.
  pose proof (dlist_links _ _ _ _ _ _ Hl Hp) as [_ Hn]. cbn in Hn.
  apply wp_bind, wp_store_nz.
  - do 2 apply null_alter. apply Hok.
  - do 2 apply linked_alter. rewrite Hn.
    change (parent :: l2) with ([parent] ++ l2) in Hl. rewrite app_assoc in Hl.
    eapply dlist_linked_head. exact Hl.
  - apply wp_store_alter; [slot_some|]. unfold new_cap_heap in HQ. rewrite alter_alter_eq. exact HQ.
Qed.

Lemma slots_ok_insert_alter h a c m :
  slots_ok h -> length m = 2%nat -> slots_ok (alter (fun _ => Cte c m) a h).
Proof. intros Hok Hm. by apply slots_ok_alter. Qed.

Lemma new_cap_heap_ok h parent slot p c : slots_ok h -> slots_ok (new_cap_heap h parent slot p c).
Proof.
  intros Hok. unfold new_cap_heap. apply slots_ok_set_next, slots_ok_set_prev.
  apply slots_ok_insert_alter; [done|]. apply mdb_node_new_length.
Qed.

Lemma new_cap_heap_mdb h parent slot p d c l1 l2 :
  slots_ok h -> mdb h (l1 ++ parent :: l2) -> h !! parent = Some p -> h !! slot = Some d ->
  slot ∉ l1 ++ parent :: l2 -> mdb (new_cap_heap h parent slot p c) (l1 ++ parent :: slot :: l2).
Proof.
  intros Hok Hl Hp Hs Hnot. pose proof (dlist_links _ _ _ _ _ _ Hl Hp) as [_ Hn]. cbn in Hn.
  assert (mdb h ((l1 ++ [parent]) ++ l2)) as Hl' by by rewrite <- app_assoc.
  pose proof (slots_ok_addr _ _ _ Hok Hp) as Hpa. pose proof (slots_ok_addr _ _ _ Hok Hs) as Hsa.
  unfold mdb. change (l1 ++ parent :: slot :: l2) with (l1 ++ [parent] ++ slot :: l2).
  rewrite app_assoc.
  eapply dlist_ext; [|apply dlist_insert; [exact Hl'|by rewrite <- app_assoc|]].
  2: by eapply slots_not_null.
  intros b. rewrite last_or_snoc. unfold new_cap_heap. rewrite Hn.
  set (h2 := alter (fun _ => _) slot h).
  assert (slots_ok h2) as Hok2 by (apply slots_ok_insert_alter; [done|apply mdb_node_new_length]).
  symmetry. etrans; [apply (hview_link_rev mdb_links h2); (done || apply Hok2)|].
  apply set_pv'_ext. intros e. apply set_nx'_ext. clear e. intros e. unfold h2.
  rewrite (hview_alter_slot _ _ _ _ parent (head_or 0 l2)); [done|by eauto| |].
  - rewrite (mdb_node_new_get _ _ _ _ _ parent) by set_solver. by apply mdbPrev_norm, slot_addr_word.
  - rewrite (mdb_node_new_get _ _ _ _ _ (head_or 0 l2)) by set_solver. apply slot_addr_norm.
    eapply slots_ok_linked; [exact Hok|]. by eapply dlist_linked_head.
Qed.

Lemma new_cap_heap_new h parent slot p d c l1 l2 :
  slots_ok h -> mdb h (l1 ++ parent :: l2) -> h !! parent = Some p -> h !! slot = Some d ->
  slot ∉ l1 ++ parent :: l2 ->
  new_cap_heap h parent slot p c !! slot = Some (Cte c (mdb_node_new (mdb_get mdbNext p) 1 1 parent)).
Proof.
  intros Hok Hl Hp Hs Hnot.
  assert (mdb_get mdbNext p <> slot) as Hns.
  { destruct (mdb_next_in _ _ _ _ _ Hl Hp) as [->|Hin]; [|set_solver].
    intros <-. by rewrite (so_null _ Hok) in Hs. }
  assert (parent <> slot) as Hps by set_solver.
  unfold new_cap_heap. rewrite !(lookup_alter_ne _ _ _ slot) by done. by rewrite lookup_alter_eq, Hs.
Qed.
Lemma new_cap_heap_caps h parent slot p c a :
  a <> slot -> cte_cap <$> new_cap_heap h parent slot p c !! a = cte_cap <$> h !! a.
Proof. intros Ha. unfold new_cap_heap. rewrite !caps_alter_mdb by done. by rewrite lookup_alter_ne by done. Qed.
Lemma new_cap_heap_frame h parent slot p c l1 l2 a :
  slots_ok h -> mdb h (l1 ++ parent :: l2) -> h !! parent = Some p -> a ∉ slot :: l1 ++ parent :: l2 ->
  new_cap_heap h parent slot p c !! a = h !! a.
Proof.
  intros Hok Hl Hp Ha. unfold new_cap_heap. rewrite lookup_alter_ne by set_solver.
  rewrite (alter_neighbour _ _ _ l2); [|by apply null_alter, Hok|by eapply mdb_next_in|set_solver].
  by rewrite lookup_alter_ne by set_solver.
Qed.
End insert_new_cap.

(** [insert_new_cap] refines insertion after the parent: the slot becomes
    the parent's successor, holds the capability, revocable and first-badged,
    and nothing else changes. *)
Theorem insert_new_cap_refines (h : slots) (parent slot : Z) (c : list Z) (p d : cte_t)
    (l1 l2 : list Z) :
  slots_ok h -> mdb h (l1 ++ parent :: l2) -> h !! parent = Some p -> h !! slot = Some d ->
  slot ∉ l1 ++ parent :: l2 ->
  wp (insert_new_cap parent slot c) (fun _ h' =>
    slots_ok h' /\ mdb h' (l1 ++ parent :: slot :: l2) /\
    cte_cap <$> h' !! slot = Some c /\
    mdb_get mdbRevocable <$> h' !! slot = Some 1 /\
    mdb_get mdbFirstBadged <$> h' !! slot = Some 1 /\
    caps_frame h h' [slot] /\ frame h h' (slot :: l1 ++ parent :: l2)) h.
Proof.
  intros Hok Hl Hp Hs Hnot. eapply wp_insert_new_cap; [done..|].
  pose proof (new_cap_heap_new _ _ _ _ _ c _ _ Hok Hl Hp Hs Hnot) as Hslot.
  split; [by apply new_cap_heap_ok|]. split; [by eapply new_cap_heap_mdb|].
  rewrite Hslot. cbn. unfold mdb_get. cbn.
  rewrite (mdb_node_new_get _ _ _ _ mdbRevocable 1) by set_solver.
  rewrite (mdb_node_new_get _ _ _ _ mdbFirstBadged 1) by set_solver.
  do 3 (split; [done|]). split.
  - intros a Ha. apply new_cap_heap_caps. set_solver.
  - intros a Ha. by eapply new_cap_heap_frame.
Qed.

Section move_unlink.
Implicit Types (h : slots) (a b src dest self : Z) (x s d : cte_t) (l : list Z).

Lemma null_mdb : mdb_node_new 0 0 0 0 = mdb_node_default.
Proof. reflexivity. Qed.
Lemma null_mdb_get f : f ∈ [mdbNext; mdbRevocable; mdbFirstBadged; mdbPrev] ->
  bf_get f mdb_node_default = 0.
Proof.
  intros Hf. repeat (apply elem_of_cons in Hf as [->|Hf]; [reflexivity|]). set_solver.
Qed.

Definition move_heap h src dest s (c : list Z) : slots :=
  alter (mdb_set mdbPrev dest) (mdb_get mdbNext s)
    (alter (mdb_set mdbNext dest) (mdb_get mdbPrev s)
      (alter (fun _ => Cte new_null_cap mdb_node_default) src
        (alter (fun _ => Cte c (cteMDBNode s)) dest h))).

Lemma wp_cte_move h c src dest s d l1 l2 (Q : unit -> slots -> Prop) :
  slots_ok h -> mdb h (l1 ++ src :: l2) -> h !! src = Some s -> h !! dest = Some d ->
  src <> dest -> empty_slot d -> Q tt (move_heap h src dest s c) -> wp (cte_move c src dest) Q h.
Proof.
  intros Hok Hl Hs Hd Hne (Hdc & Hdn & Hdp) HQ. unfold cte_move.
  wp_load_slot Hd. wp_lift_ok Hdc. wp_assert_ok. rewrite Hdn, Hdp. wp_assert_ok.
  wp_load_slot Hs. do 4 wp_store. rewrite null_mdb.
  pose proof (dlist_links _ _ _ _ _ _ Hl Hs) as [Hp Hn]. cbn in Hp, Hn.
  assert (linked h (last_or 0 l1) /\ linked h (head_or 0 l2)) as [Hll Hlh].
  { split; [by eapply dlist_linked_last|].
    change (src :: l2) with ([src] ++ l2) in Hl. rewrite app_assoc in Hl.
    by eapply dlist_linked_head. }
  unfold mdb_get in Hp, Hn. apply wp_bind, wp_store_nz.
  - do 4 apply null_alter. apply Hok.
  - do 4 apply linked_alter. by rewrite Hp.
  - apply wp_store_nz; [do 5 apply null_alter; apply Hok|do 5 apply linked_alter; by rewrite Hn|].
    unfold move_heap in HQ.
    rewrite (alter_alter_ne _ (set_cap new_null_cap) _ dest src) by done.
    rewrite !alter_alter_eq. exact HQ.
Qed.

Lemma move_heap_ok h src dest s c :
  slots_ok h -> h !! src = Some s -> slots_ok (move_heap h src dest s c).
Proof.
  intros Hok Hs. unfold move_heap. apply slots_ok_set_prev, slots_ok_set_next.
  apply slots_ok_insert_alter; [|done]. apply slots_ok_insert_alter; [done|].
  by eapply slots_ok_length.
Qed.

Lemma move_heap_mdb h src dest s d c l1 l2 :
  slots_ok h -> mdb h (l1 ++ src :: l2) -> h !! src = Some s -> h !! dest = Some d ->
  dest ∉ l1 ++ src :: l2 -> mdb (move_heap h src dest s c) (l1 ++ dest :: l2).
Proof.
  intros Hok Hl Hs Hd Hnot. pose proof (dlist_links _ _ _ _ _ _ Hl Hs) as [Hp Hn]. cbn in Hp, Hn.
  pose proof (slots_ok_addr _ _ _ Hok Hd) as Hda.
  eapply dlist_ext; [|apply (dlist_replace (hview mdb_links h) l1 src l2 dest (0, 0)); [exact Hl|exact Hnot|]].
  2: by eapply slots_not_null.
  intros b. unfold move_heap. rewrite Hp, Hn.
  set (h1 := alter (fun _ => _) dest h). set (h2 := alter (fun _ => _) src h1).
  assert (slots_ok h2) as Hok2.
  { apply slots_ok_insert_alter; [|done]. apply slots_ok_insert_alter; [done|].
    by eapply slots_ok_length. }
  symmetry. etrans; [apply (hview_link mdb_links h2); (done || apply Hok2)|].
  apply set_pv'_ext. intros e. apply set_nx'_ext. clear e. intros e. unfold h2.
  rewrite (hview_alter_slot _ _ _ _ 0 0); [|apply is_Some_alter; by eauto|reflexivity|reflexivity].
  apply set_lk_ext. clear e. intros e. unfold h1.
  rewrite (hview_alter_slot _ _ _ _ (last_or 0 l1) (head_or 0 l2)); [done|by eauto|done|done].
Qed.

(** The first-badged mark a removed slot passes to its successor. *)
Definition pass_badged (m : list Z) (n : cte_t) : cte_t :=
  mdb_set mdbFirstBadged (b2w ((mdb_get mdbFirstBadged n <>w 0)
                               || (bf_get mdbFirstBadged m <>w 0))) n.
Definition unlink_heap h self x : slots :=
  alter (fun _ => Cte new_null_cap mdb_node_default) self
    (alter (pass_badged (cteMDBNode x)) (mdb_get mdbNext x)
      (alter (mdb_set mdbPrev (mdb_get mdbPrev x)) (mdb_get mdbNext x)
        (alter (mdb_set mdbNext (mdb_get mdbNext x)) (mdb_get mdbPrev x) h))).

Lemma wp_mdb_unlink h self x l1 l2 (Q : unit -> slots -> Prop) :
  slots_ok h -> mdb h (l1 ++ self :: l2) -> h !! self = Some x ->
  Q tt (unlink_heap h self x) -> wp (mdb_unlink self) Q h.
Proof.
  intros Hok Hl Hs HQ. unfold mdb_unlink. wp_load_slot Hs.
  pose proof (dlist_links _ _ _ _ _ _ Hl Hs) as [Hp Hn]. cbn in Hp, Hn.
  assert (linked h (last_or 0 l1) /\ linked h (head_or 0 l2)) as [Hll Hlh].
  { split; [by eapply dlist_linked_last|].
    change (self :: l2) with ([self] ++ l2) in Hl. rewrite app_assoc in Hl.
    by eapply dlist_linked_head. }
  unfold mdb_get in Hp, Hn. apply wp_bind, wp_store_nz; [apply Hok|by rewrite Hp|].
  apply wp_bind, wp_store_nz; [apply null_alter, Hok|apply linked_alter; by rewrite Hn|].
  wp_store. wp_store. unfold unlink_heap in HQ. rewrite !alter_alter_eq in *. exact HQ.
Qed.

Lemma pass_badged_keep m n :
  lk_prev (pass_badged m n) = lk_prev n /\ lk_next (pass_badged m n) = lk_next n.
Proof. unfold pass_badged. cbn. unfold mdb_get, mdb_set. cbn. split; by bf_other. Qed.

Lemma unlink_heap_ok h self x : slots_ok h -> slots_ok (unlink_heap h self x).
Proof.
  intros Hok. unfold unlink_heap. apply slots_ok_insert_alter; [|done].
  apply slots_ok_alter; [intros y Hy; unfold pass_badged, mdb_set; cbn; by rewrite bf_set_length|].
  by apply slots_ok_set_prev, slots_ok_set_next.
Qed.

Lemma unlink_heap_mdb h self x l1 l2 :
  slots_ok h -> mdb h (l1 ++ self :: l2) -> h !! self = Some x ->
  mdb (unlink_heap h self x) (l1 ++ l2).
Proof.
  intros Hok Hl Hs. pose proof (dlist_links _ _ _ _ _ _ Hl Hs) as [Hp Hn]. cbn in Hp, Hn.
  eapply dlist_frame; [|apply (dlist_remove (hview mdb_links h) l1 self l2 Hl)]. intros b Hb. symmetry.
  unfold unlink_heap. rewrite Hp, Hn.
  assert (slot_addr (last_or 0 l1) = true /\ slot_addr (head_or 0 l2) = true) as [Ha1 Ha2].
  { split; (eapply slots_ok_linked; [exact Hok|]); [by eapply dlist_linked_last|].
    change (self :: l2) with ([self] ++ l2) in Hl. rewrite app_assoc in Hl.
    by eapply dlist_linked_head. }
  assert (b <> self) as Hbs.
  { destruct Hl as (_ & Hnd & _). intros ->. apply NoDup_split in Hnd as (_ & _ & H1 & H2 & _).
    set_solver. }
  unfold hview at 1. rewrite lookup_alter_ne by done. change (hview mdb_links (alter
    (pass_badged (cteMDBNode x)) (head_or 0 l2) (alter (mdb_set mdbPrev (last_or 0 l1))
    (head_or 0 l2) (alter (mdb_set mdbNext (head_or 0 l2)) (last_or 0 l1) h))) b =
    set_pv' (head_or 0 l2) (last_or 0 l1)
      (set_nx' (last_or 0 l1) (head_or 0 l2) (hview mdb_links h)) b).
  rewrite hview_alter_keep by apply pass_badged_keep.
  apply (hview_link mdb_links h); (done || apply Hok).
Qed.

(** What unlinking leaves: an empty slot outside the list; the successor
    inherits the first-badged mark. *)
Lemma unlink_heap_spec h self x l1 l2 :
  slots_ok h -> mdb h (l1 ++ self :: l2) -> h !! self = Some x ->
  let h' := unlink_heap h self x in
  slots_ok h' /\ mdb h' (l1 ++ l2) /\
  h' !! self = Some (Cte new_null_cap mdb_node_default) /\
  (forall n y, head l2 = Some n -> h !! n = Some y ->
    mdb_get mdbFirstBadged <$> h' !! n =
      Some (b2w ((mdb_get mdbFirstBadged y <>w 0) || (mdb_get mdbFirstBadged x <>w 0)))) /\
  caps_frame h h' [self] /\ frame h h' (l1 ++ self :: l2).
Proof.
  intros Hok Hl Hs. cbv zeta.
  assert (self ∉ l1 /\ self ∉ l2 /\ (forall y, y ∈ l1 -> y ∉ l2)) as (Hs1 & Hs2 & Hd).
  { destruct Hl as (_ & Hnd & _). by apply NoDup_split in Hnd as (_ & _ & ? & ? & _ & ?). }
  pose proof (mdb_next_in _ _ _ _ _ Hl Hs) as Hni. pose proof (mdb_prev_in _ _ _ _ _ Hl Hs) as Hpi.
  split; [by apply unlink_heap_ok|]. split; [by eapply unlink_heap_mdb|].
  split; [|split; [|split]].
  - unfold unlink_heap. rewrite lookup_alter_eq, !alter_alter_eq.
    rewrite (alter_neighbour _ _ _ l2); [|by apply null_alter, Hok|done|done].
    rewrite (alter_neighbour _ _ _ l1); [|by apply Hok|done|done]. by rewrite Hs.
  - intros n y Hn Hy. destruct l2 as [|n' l2]; [done|]. injection Hn as ->.
    assert (n <> self) by set_solver. assert (mdb_get mdbNext x = n) as Hnx.
    { by pose proof (dlist_links _ _ _ _ _ _ Hl Hs) as [_ ?]. }
    unfold unlink_heap. rewrite Hnx. rewrite lookup_alter_ne, !lookup_alter_eq by done.
    rewrite (alter_neighbour _ _ _ l1); [|by apply Hok|done|set_solver]. rewrite Hy. cbn.
    f_equal. unfold pass_badged, mdb_get, mdb_set. cbn.
    rewrite (bf_get_set_same 2); [|done|by rewrite bf_set_length; eapply slots_ok_length].
    bf_other. rewrite flag_norm by done. done.
  - intros a Ha. unfold unlink_heap. rewrite lookup_alter_ne by set_solver.
    by rewrite !caps_alter_mdb by done.
  - intros a Ha. unfold unlink_heap. rewrite lookup_alter_ne, !alter_alter_eq by set_solver.
    rewrite (alter_neighbour _ _ _ l2); [|by apply null_alter, Hok|done|set_solver].
    by rewrite (alter_neighbour _ _ _ l1); [|by apply Hok|done|set_solver].
Qed.
End move_unlink.

(** [cte_move] refines replacement: the destination takes the source's
    place in the list, with its flags and the new capability, and the source
    is left empty and outside the mapping database. *)
Theorem cte_move_refines (h : slots) (c : list Z) (src dest : Z) (s d : cte_t) (l1 l2 : list Z) :
  slots_ok h -> mdb h (l1 ++ src :: l2) -> src <> dest ->
  h !! src = Some s -> h !! dest = Some d -> empty_slot d ->
  wp (cte_move c src dest) (fun _ h' =>
    slots_ok h' /\ mdb h' (l1 ++ dest :: l2) /\
    h' !! dest = Some (Cte c (cteMDBNode s)) /\
    h' !! src = Some (Cte new_null_cap mdb_node_default) /\
    caps_frame h h' [src; dest] /\ frame h h' (dest :: l1 ++ src :: l2)) h.
Proof.
  intros Hok Hl Hne Hs Hd He.
  assert (dest ∉ l1 ++ src :: l2) as Hdn.
  { destruct He as (_ & Hn & Hp). eapply (mdb_free_notin h _ dest src d); eauto. set_solver. }
  eapply wp_cte_move; [done..|].
  assert (src ∉ l1 /\ src ∉ l2) as [Hs1 Hs2].
  { destruct Hl as (_ & Hnd & _). by apply NoDup_split in Hnd as (_ & _ & ? & ? & _). }
  pose proof (mdb_next_in _ _ _ _ _ Hl Hs) as Hni. pose proof (mdb_prev_in _ _ _ _ _ Hl Hs) as Hpi.
  assert (forall a, a ∉ l1 ++ l2 ->
    move_heap h src dest s c !! a = alter (fun _ => Cte new_null_cap mdb_node_default) src
          (alter (fun _ => Cte c (cteMDBNode s)) dest h) !! a) as Hlook.
  { intros a Ha. unfold move_heap.
    rewrite (alter_neighbour _ _ _ l2); [|by do 3 apply null_alter; apply Hok|done|set_solver].
    rewrite (alter_neighbour _ _ _ l1); [done|by do 2 apply null_alter; apply Hok|done|set_solver]. }
  split; [by apply move_heap_ok|]. split; [by eapply move_heap_mdb|].
  rewrite !Hlook by set_solver. split; [|split; [|split]].
  - rewrite lookup_alter_ne, lookup_alter_eq, Hd by done. done.
  - rewrite lookup_alter_eq, lookup_alter_ne, Hs by done. done.
  - intros a Ha. unfold move_heap. rewrite !caps_alter_mdb by done.
    by rewrite !lookup_alter_ne by set_solver.
  - intros a Ha. rewrite Hlook by set_solver. by rewrite !lookup_alter_ne by set_solver.
Qed.

(** C11: the slot part of [set_empty] refines removal: the slot leaves the
    list, empty; its successor inherits the first-badged mark. *)
Theorem mdb_unlink_refines (h : slots) (self : Z) (x : cte_t) (l1 l2 : list Z) :
  slots_ok h -> mdb h (l1 ++ self :: l2) -> h !! self = Some x ->
  wp (mdb_unlink self) (fun _ h' =>
    slots_ok h' /\ mdb h' (l1 ++ l2) /\
    h' !! self = Some (Cte new_null_cap mdb_node_default) /\
    (forall n y, head l2 = Some n -> h !! n = Some y ->
      mdb_get mdbFirstBadged <$> h' !! n =
        Some (b2w ((mdb_get mdbFirstBadged y <>w 0) || (mdb_get mdbFirstBadged x <>w 0)))) /\
    caps_frame h h' [self] /\ frame h h' (l1 ++ self :: l2)) h.
Proof.
  intros Hok Hl Hs. eapply wp_mdb_unlink; [done..|]. by apply unlink_heap_spec.
Qed.

Section swap.
Implicit Types (h : slots) (a b : Z) (x y : cte_t) (l : list Z).

Definition swap_heap h a b x y (cap1 cap2 : list Z) : slots :=
  alter (mdb_set mdbPrev a) (mdb_get mdbNext y)
    (alter (mdb_set mdbNext a) (mdb_get mdbPrev y)
      (alter (fun _ => Cte cap1 (cteMDBNode x)) b
        (alter (fun _ => Cte cap2 (cteMDBNode y)) a
          (alter (mdb_set mdbPrev b) (mdb_get mdbNext x)
            (alter (mdb_set mdbNext b) (mdb_get mdbPrev x) h))))).

(** The links of the two slots lead to slots. *)
Lemma wp_cte_swap h cap1 cap2 a b x y (Q : unit -> slots -> Prop) :
  slots_ok h -> h !! a = Some x -> h !! b = Some y -> a <> b ->
  linked h (mdb_get mdbPrev x) -> linked h (mdb_get mdbNext x) ->
  linked h (mdb_get mdbPrev y) -> linked h (mdb_get mdbNext y) ->
  Q tt (swap_heap h a b x y cap1 cap2) -> wp (cte_swap cap1 a cap2 b) Q h.
Proof.
  intros Hok Hx Hy Hne Hpx Hnx Hpy Hny HQ. unfold cte_swap. wp_load_slot Hx. wp_load_slot Hy.
  unfold mdb_get in Hpx, Hnx, Hpy, Hny.
  apply wp_bind, wp_store_nz; [apply Hok|done|].
  apply wp_bind, wp_store_nz; [apply null_alter, Hok|by apply linked_alter|].
  do 4 wp_store.
  apply wp_bind, wp_store_nz; [do 6 apply null_alter; apply Hok|by do 6 apply linked_alter|].
  apply wp_store_nz; [do 7 apply null_alter; apply Hok|by do 7 apply linked_alter|].
  unfold swap_heap in HQ. rewrite (alter_alter_ne _ (set_cap cap1) _ a b) by done.
  rewrite !(alter_alter_eq _ (set_cap _)). exact HQ.
Qed.

Lemma mdb_linked h l1 a l2 x :
  mdb h (l1 ++ a :: l2) -> h !! a = Some x ->
  linked h (mdb_get mdbPrev x) /\ linked h (mdb_get mdbNext x).
Proof.
  intros Hl Hx. pose proof (dlist_links _ _ _ _ _ _ Hl Hx) as [Hp Hn]. cbn in Hp, Hn.
  rewrite Hp, Hn. split; [by eapply dlist_linked_last|].
  change (a :: l2) with ([a] ++ l2) in Hl. rewrite app_assoc in Hl. by eapply dlist_linked_head.
Qed.

Lemma swap_heap_ok h a b x y cap1 cap2 :
  slots_ok h -> h !! a = Some x -> h !! b = Some y -> slots_ok (swap_heap h a b x y cap1 cap2).
Proof.
  intros Hok Hx Hy. unfold swap_heap. apply slots_ok_set_prev, slots_ok_set_next.
  do 2 (apply slots_ok_insert_alter; [|by eapply slots_ok_length]).
  by apply slots_ok_set_prev, slots_ok_set_next.
Qed.

Lemma swap_heap_view h a b x y cap1 cap2 c :
  slots_ok h -> h !! a = Some x -> h !! b = Some y ->
  hview mdb_links (swap_heap h a b x y cap1 cap2) c =
    set_pv' (mdb_get mdbNext y) a (set_nx' (mdb_get mdbPrev y) a
      (set_lk b (mdb_get mdbPrev x, mdb_get mdbNext x)
        (set_lk a (mdb_get mdbPrev y, mdb_get mdbNext y)
          (set_pv' (mdb_get mdbNext x) b (set_nx' (mdb_get mdbPrev x) b
            (hview mdb_links h)))))) c.
Proof.
  intros Hok Hx Hy. unfold swap_heap.
  pose proof (slots_ok_addr _ _ _ Hok Hx) as Ha. pose proof (slots_ok_addr _ _ _ Hok Hy) as Hb.
  set (h2 := alter (mdb_set mdbPrev b) _ _). set (h3 := alter _ a h2). set (h4 := alter _ b h3).
  assert (slots_ok h2) as Hok2 by by apply slots_ok_set_prev, slots_ok_set_next.
  assert (slots_ok h3) as Hok3 by (apply slots_ok_insert_alter; [done|by eapply (slots_ok_length h)]).
  assert (slots_ok h4) as Hok4 by (apply slots_ok_insert_alter; [done|by eapply (slots_ok_length h)]).
  etrans; [apply (hview_link mdb_links h4); (done || apply Hok4)|].
  apply set_pv'_ext. intros c1. apply set_nx'_ext. clear c1. intros c1. unfold h4.
  rewrite (hview_alter_slot _ _ _ _ (mdb_get mdbPrev x) (mdb_get mdbNext x));
    [|unfold h3, h2; rewrite !is_Some_alter; by eauto|done|done].
  apply set_lk_ext. clear c1. intros c1. unfold h3.
  rewrite (hview_alter_slot _ _ _ _ (mdb_get mdbPrev y) (mdb_get mdbNext y));
    [|unfold h2; rewrite !is_Some_alter; by eauto|done|done].
  apply set_lk_ext. clear c1. intros c1.
  apply (hview_link mdb_links h); (done || apply Hok).
Qed.

Lemma swap_heap_caps h a b x y cap1 cap2 :
  h !! a = Some x -> h !! b = Some y -> a <> b ->
  cte_cap <$> swap_heap h a b x y cap1 cap2 !! a = Some cap2 /\
  cte_cap <$> swap_heap h a b x y cap1 cap2 !! b = Some cap1 /\
  caps_frame h (swap_heap h a b x y cap1 cap2) [a; b].
Proof.
  intros Hx Hy Hne.
  assert (forall c, c ∈ [a; b] -> is_Some (alter (mdb_set mdbPrev b) (mdb_get mdbNext x)
            (alter (mdb_set mdbNext b) (mdb_get mdbPrev x) h) !! c)) as Hs.
  { intros c Hc. do 2 apply is_Some_alter. set_solver. }
  destruct (Hs a ltac:(set_solver)) as [xa Hxa]. destruct (Hs b ltac:(set_solver)) as [xb Hxb].
  unfold swap_heap. split; [|split; [|intros c Hc]]; rewrite !caps_alter_mdb by done.
  - by rewrite lookup_alter_ne, lookup_alter_eq, Hxa by done.
  - by rewrite lookup_alter_eq, lookup_alter_ne, Hxb by done.
  - assert (a <> c /\ b <> c) as [? ?] by (split; intros ->; apply Hc; set_solver +).
    rewrite !(lookup_alter_ne (fun _ => _)) by done. by rewrite !caps_alter_mdb by done.
Qed.
End swap.

(** C34: [cte_swap] of two slots of a list that are not neighbours exchanges
    their places (and gives each the capability it is passed). *)
Theorem cte_swap_refines (h : slots) (cap1 cap2 : list Z) (a b : Z) (x y : cte_t)
    (l1 l2 l3 : list Z) :
  slots_ok h -> mdb h (l1 ++ a :: l2 ++ b :: l3) -> l2 <> [] ->
  h !! a = Some x -> h !! b = Some y ->
  wp (cte_swap cap1 a cap2 b) (fun _ h' =>
    slots_ok h' /\ mdb h' (l1 ++ b :: l2 ++ a :: l3) /\
    cte_cap <$> h' !! a = Some cap2 /\ cte_cap <$> h' !! b = Some cap1 /\
    caps_frame h h' [a; b]) h.
Proof.
  intros Hok Hl Hne Hx Hy.
  assert (mdb h ((l1 ++ a :: l2) ++ b :: l3)) as Hl' by by rewrite <- app_assoc.
  assert (a <> b) as Hab.
  { destruct Hl as (_ & Hnd & _). apply NoDup_split in Hnd as (_ & _ & _ & Hn & _). set_solver. }
  destruct (mdb_linked _ _ _ _ _ Hl Hx). destruct (mdb_linked _ _ _ _ _ Hl' Hy).
  eapply wp_cte_swap; [done..|].
  split; [by apply swap_heap_ok|]. split; [|by apply swap_heap_caps].
  pose proof (dlist_links _ _ _ _ _ _ Hl Hx) as [Hpx Hnx].
  pose proof (dlist_links _ _ _ _ _ _ Hl' Hy) as [Hpy Hny]. cbn in Hpx, Hnx, Hpy, Hny.
  eapply dlist_ext; [|apply (dlist_swap _ l1 a l2 b l3 Hl Hne)]. intros c. symmetry.
  etrans; [by apply swap_heap_view|]. rewrite Hpx, Hnx, Hpy, Hny.
  rewrite head_or_app, last_or_app, last_or_cons. by destruct l2.
Qed.

(** C35: [cte_swap] of two neighbours corrupts the mapping database.  It reads
    the second node before it redirects the neighbours of the first, so each
    slot ends up linked to itself and belongs to no list any more. *)
Theorem cte_swap_neighbours_corrupts (h : slots) (cap1 cap2 : list Z) (a b : Z) (x y : cte_t)
    (l1 l3 : list Z) :
  slots_ok h -> mdb h (l1 ++ a :: b :: l3) -> h !! a = Some x -> h !! b = Some y ->
  wp (cte_swap cap1 a cap2 b) (fun _ h' =>
    mdb_get mdbPrev <$> h' !! a = Some a /\ mdb_get mdbNext <$> h' !! b = Some b /\
    forall l, mdb h' l -> a ∉ l /\ b ∉ l) h.
Proof.
  intros Hok Hl Hx Hy.
  assert (mdb h ((l1 ++ [a]) ++ b :: l3)) as Hl' by by rewrite <- app_assoc.
  assert (a <> b /\ b ∉ l3) as [Hab Hb3].
  { destruct Hl as (_ & Hnd & _). apply NoDup_split in Hnd as (_ & Hnd & _ & Hn & _).
    apply NoDup_cons in Hnd as [? _]. split; [intros ->; apply Hn; by left|done]. }
  assert (b ∉ l1 /\ a ∉ l3) as [Hb1 Ha3].
  { destruct Hl as (_ & Hnd & _). apply NoDup_split in Hnd as (_ & _ & _ & Hn & _ & Hd).
    split; [intros Hb; apply (Hd b Hb); by left|intros Hin; apply Hn; by right]. }
  destruct (mdb_linked _ _ _ _ _ Hl Hx). destruct (mdb_linked _ _ _ _ _ Hl' Hy).
  eapply wp_cte_swap; [done..|].
  pose proof (dlist_links _ _ _ _ _ _ Hl Hx) as [Hpx Hnx].
  pose proof (dlist_links _ _ _ _ _ _ Hl' Hy) as [Hpy Hny]. cbn in Hpx, Hnx, Hpy, Hny.
  rewrite last_or_snoc in Hpy.
  pose proof (slots_not_null _ _ _ Hok Hx) as Ha0. pose proof (slots_not_null _ _ _ Hok Hy) as Hb0.
  set (h' := swap_heap h a b x y cap1 cap2).
  assert (exists n, hview mdb_links h' a = Some (a, n)) as [na Hva].
  { unfold h'. rewrite swap_heap_view by done. rewrite Hpy, Hny.
    rewrite set_pv'_ne by (destruct (head_or_elem 0 l3) as [->|]; congruence).
    unfold set_nx'. rewrite decide_False by done. unfold set_nx at 1. rewrite decide_True by done.
    rewrite set_lk_ne, set_lk_eq by done. cbn. eauto. }
  assert (exists p, hview mdb_links h' b = Some (p, b)) as [pb Hvb].
  { unfold h'. rewrite swap_heap_view by done. rewrite Hpy, Hny, Hnx.
    rewrite set_pv'_ne by (destruct (head_or_elem 0 l3) as [->|]; congruence).
    rewrite set_nx'_ne, set_lk_eq by done. cbn. eauto. }
  split; [|split].
  - unfold hview in Hva. destruct (h' !! a); [|done]. injection Hva as E _. cbn in E |- *. by rewrite E.
  - unfold hview in Hvb. destruct (h' !! b); [|done]. injection Hvb as _ E. cbn in E |- *. by rewrite E.
  - intros l Hd. split; intros (k1 & k2 & ->)%list_elem_of_split.
    + pose proof (dlist_lookup _ _ _ _ Hd) as E. rewrite Hva in E. injection E as Hp _.
      destruct Hd as (_ & Hnd & _). apply NoDup_split in Hnd as (_ & _ & Hn & _).
      destruct (last_or_elem 0 k1) as [|]; [congruence|]. rewrite <- Hp in H3. done.
    + pose proof (dlist_lookup _ _ _ _ Hd) as E. rewrite Hvb in E. injection E as _ Hp.
      destruct Hd as (_ & Hnd & _). apply NoDup_split in Hnd as (_ & _ & _ & Hn & _).
      destruct (head_or_elem 0 k2) as [|]; [congruence|]. rewrite <- Hp in H3. done.
Qed.

(** ** Lookup *)
Section resolve.
Implicit Types (h : slots) (c : list Z) (cptr n slot rem : Z).

Definition radix c : Z := bf_get cnode_radix c.
Definition guard_size c : Z := bf_get cnode_guard_size c.
Definition level c : Z := radix c + guard_size c.

(** The guard matches the address bits it stands for. *)
Definition guard_ok c cptr n : Prop :=
  (cptr / 2 ^ (n - guard_size c)) `mod` 2 ^ guard_size c = bf_get cnode_guard c.
(** The slot of this level: the [radix] bits below the guard are its index. *)
Definition level_slot c cptr n : Z :=
  cte_add (bf_get cnode_ptr c) ((cptr / 2 ^ (n - level c)) `mod` 2 ^ radix c).

(** The lookup as a relation: the levels a capability address walks through. *)
Inductive cspace_path h cptr : list Z -> Z -> Z -> Z -> Prop :=
| path_leaf c n :
    level c = n -> 0 < level c -> guard_ok c cptr n ->
    cspace_path h cptr c n (level_slot c cptr n) 0
| path_stop c n x t :
    level c < n -> 0 < level c -> guard_ok c cptr n ->
    h !! level_slot c cptr n = Some x -> get_cap_type (cte_cap x) = Ok t -> t <> CapCNodeCap ->
    cspace_path h cptr c n (level_slot c cptr n) (n - level c)
| path_step c n x slot rem :
    level c < n -> 0 < level c -> guard_ok c cptr n ->
    h !! level_slot c cptr n = Some x -> get_cap_type (cte_cap x) = Ok CapCNodeCap ->
    cspace_path h cptr (cte_cap x) (n - level c) slot rem ->
    cspace_path h cptr c n slot rem.

#[local] Instance guard_ok_dec c cptr n : Decision (guard_ok c cptr n).
Proof. unfold guard_ok. apply _. Defined.

Lemma radix_bound c : 0 <= radix c < 64.
Proof. apply (bf_get_bound 2); reflexivity. Qed.
Lemma guard_size_bound c : 0 <= guard_size c < 64.
Proof. apply (bf_get_bound 2); reflexivity. Qed.

Lemma level_wadd c : wadd (bf_get cnode_radix c) (bf_get cnode_guard_size c) = level c.
Proof.
  pose proof (radix_bound c). pose proof (guard_size_bound c).
  apply wadd_small. unfold is_word, radix, guard_size in *. lia.
Qed.

Lemma wshr_mask x k m : 0 <= k < 64 -> 0 <= m < 64 -> wshr x k &&& MASK m = (x / 2 ^ k) `mod` 2 ^ m.
Proof. intros Hk Hm. rewrite wshr_spec, MASK_spec by lia. apply Z.land_ones. lia. Qed.

Lemma guard_bits c cptr n :
  guard_size c <= n <= 64 ->
  wshr cptr (wsub n (bf_get cnode_guard_size c) &&& MASK wordRadix)
    &&& MASK (bf_get cnode_guard_size c)
  = (cptr / 2 ^ (n - guard_size c)) `mod` 2 ^ guard_size c.
Proof.
  intros Hn. pose proof (guard_size_bound c) as Hg. fold (guard_size c).
  rewrite wsub_small by (unfold is_word; lia).
  change (MASK wordRadix) with (Z.ones 6). rewrite Z.land_ones by lia.
  destruct (decide (n - guard_size c = 64)) as [E|E].
  - rewrite E. replace (guard_size c) with 0 by lia. rewrite Z.pow_0_r, Z.mod_1_r.
    change (MASK 0) with 0. by rewrite Z.land_0_r.
  - rewrite (Z.mod_small (n - _)) by lia. apply wshr_mask; lia.
Qed.

(** One level of the code against one level of the relation. *)
Lemma resolve_step_spec h c cptr n0 n :
  0 <= n <= 64 -> 0 < level c ->
  resolve_step c cptr n0 n h =
    if decide (guard_size c <= n /\ guard_ok c cptr n) then
      if decide (level c > n) then Ok (inr (ResolveRet EXCEPTION_LOOKUP_FAULT 0 n0), h)
      else if decide (n = level c) then
        Ok (inr (ResolveRet EXCEPTION_NONE (level_slot c cptr n) 0), h)
      else
        (x ← load (level_slot c cptr n);
         t ← lift (get_cap_type (cte_cap x));
         if negb (bool_decide (t = CapCNodeCap))
         then mret (inr (ResolveRet EXCEPTION_NONE (level_slot c cptr n) (n - level c)))
         else mret (inl (cte_cap x, n - level c))) h
    else Ok (inr (ResolveRet EXCEPTION_LOOKUP_FAULT 0 n0), h).
Proof.
  intros Hn Hl. unfold resolve_step. rewrite level_wadd.
  pose proof (radix_bound c). pose proof (guard_size_bound c).
  rewrite (bool_decide_false (level c = 0)) by lia. cbn [negb assert_m].
  rewrite (st_bind_Ok _ _ h tt h) by done.
  destruct (decide (guard_size c <= n)) as [Hg|Hg].
  2: { rewrite (decide_False (P := _ /\ _)) by lia. fold (guard_size c).
       by rewrite (bool_decide_true (guard_size c > n)) by lia. }
  rewrite guard_bits by lia. rewrite (bool_decide_false (bf_get cnode_guard_size c > n))
    by (fold (guard_size c); lia). cbn [orb].
  destruct (decide (guard_ok c cptr n)) as [Ho|Ho].
  2: { rewrite (decide_False (P := _ /\ _)) by tauto. by rewrite bool_decide_false. }
  rewrite (decide_True (P := _ /\ _)) by done. rewrite bool_decide_true by done. cbn [negb].
  destruct (decide (level c > n)); [by rewrite bool_decide_true by done|].
  rewrite bool_decide_false by done. fold (radix c).
  rewrite (wsub_small n) by (unfold is_word; lia).
  rewrite wshr_mask by (unfold level in *; lia). fold (level_slot c cptr n).
  destruct (decide (n = level c)); [by rewrite bool_decide_true by done|].
  by rewrite bool_decide_false by done.
Qed.

Lemma level_zero_panic c cptr n0 n h : level c <= 0 -> resolve_step c cptr n0 n h = Panic.
Proof.
  intros Hl. pose proof (radix_bound c). pose proof (guard_size_bound c).
  unfold resolve_step. rewrite level_wadd.
  by rewrite (bool_decide_true (level c = 0)) by (unfold level in *; lia).
Qed.

(** Every level that is passed consumes bits: the fuel suffices. *)
Lemma resolve_loop_total fuel c cptr n0 n h :
  0 <= n <= 64 -> (Z.to_nat n < fuel)%nat -> resolve_loop fuel c cptr n0 n h <> NoFuel.
Proof.
  revert c n. induction fuel as [|fuel IH]; intros c n Hn Hf; [lia|].
  destruct (decide (0 < level c)) as [Hl|Hl].
  2: { cbn. unfold mbind, st_bind. by rewrite level_zero_panic by lia. }
  cbn. unfold mbind, st_bind at 1. rewrite resolve_step_spec by lia.
  case_decide; [|done]. case_decide; [done|]. case_decide; [done|].
  unfold mbind, st_bind, load. destruct (h !! _) as [x|]; [|done].
  unfold lift. destruct (get_cap_type (cte_cap x)) as [t| | |] eqn:E; try done.
  - case_bool_decide; cbn; [|done]. apply IH; lia.
  - unfold get_cap_type, CapTag_of in E. repeat case_match; done.
Qed.

Lemma resolve_loop_path fuel c cptr n0 n slot rem h :
  0 <= n <= 64 -> (Z.to_nat n < fuel)%nat ->
  resolve_loop fuel c cptr n0 n h = Ok (ResolveRet EXCEPTION_NONE slot rem, h) <->
  cspace_path h cptr c n slot rem.
Proof.
  revert c n. induction fuel as [|fuel IH]; intros c n Hn Hf; [lia|].
  destruct (decide (0 < level c)) as [Hl|Hl].
  2: { cbn. unfold mbind, st_bind. rewrite level_zero_panic by lia.
       split; [done|]. inversion 1; subst; lia. }
  cbn. unfold mbind, st_bind at 1. rewrite resolve_step_spec by lia.
  pose proof (radix_bound c). pose proof (guard_size_bound c).
  destruct (decide (_ /\ _)) as [[Hg Ho]|Hno].
  2: { split; [done|]. intros Hp. contradict Hno. inversion Hp; subst; unfold level in *; split; (lia || done). }
  destruct (decide (level c > n)); [split; [done|inversion 1; subst; lia]|].
  destruct (decide (n = level c)) as [E|E].
  { split.
    - intros [= <- <-]. by apply path_leaf.
    - inversion 1; subst; [done|lia|lia]. }
  unfold mbind, st_bind, load.
  destruct (h !! level_slot c cptr n) as [x|] eqn:Ex.
  2: { split; [done|]. inversion 1; subst; congruence. }
  unfold lift. destruct (get_cap_type (cte_cap x)) as [t| | |] eqn:Et;
    [|split; [done|inversion 1; subst; congruence]..].
  case_bool_decide as Hc; cbn.
  - subst t. rewrite (IH (cte_cap x) (n - level c)) by lia. split.
    + intros Hp. eapply path_step; eauto. lia.
    + inversion 1; subst; [lia|congruence|congruence].
  - split.
    + intros [= <- <-]. eapply path_stop; eauto. lia.
    + inversion 1; subst; [lia|done|congruence].
Qed.
End resolve.

(** The lookup of a capability address terminates: with at most 64 bits the
    loop never runs out of the fuel of [resolve_address_bits] (it returns or
    panics on a capability node with neither guard nor radix). *)
Theorem resolve_address_bits_terminates (h : slots) (c : list Z) (cptr n : Z) :
  0 <= n <= 64 -> resolve_address_bits c cptr n h <> NoFuel.
Proof.
  intros Hn. unfold resolve_address_bits, mbind, st_bind, lift.
  destruct (get_cap_type c) as [t| | |] eqn:E; try done.
  - case_bool_decide; cbn -[resolve_loop]; [|done]. apply resolve_loop_total; lia.
  - unfold get_cap_type, CapTag_of in E. repeat case_match; done.
Qed.

(** C12: [resolve_address_bits] finds a slot exactly when the levels of the
    capability space lead to it: each level's guard equals the next address
    bits, its radix bits index the node's slots, and the walk ends where the
    bits do or at a capability that is no capability node, with the bits that
    are left.  The slots are not changed. *)
Theorem resolve_address_bits_spec (h : slots) (c : list Z) (cptr n slot rem : Z) :
  0 <= n <= 64 -> get_cap_type c = Ok CapCNodeCap ->
  resolve_address_bits c cptr n h = Ok (ResolveRet EXCEPTION_NONE slot rem, h) <->
  cspace_path h cptr c n slot rem.
Proof.
  intros Hn Hc. unfold resolve_address_bits, mbind, st_bind, lift. rewrite Hc.
  rewrite bool_decide_true by done. cbn -[resolve_loop]. apply resolve_loop_path; lia.
Qed.
