(* ===== verification/CSpaceWit.v ===== *)
(** * Slots: instances of the theorems

    Each theorem of [CSpaceProps.v] applied to a small capability space: an
    endpoint capability at [sA] with a derived copy at [sB], an empty slot at
    [sC], and a two-level capability address. *)

From stdpp Require Import base numbers gmap list.
From S2P Require Import Prelude Bitfield Common Cap DList CSpace CSpaceProps.
Local Open Scope Z_scope.


Definition sA : Z := 0xffffff8000001000.
Definition sB : Z := 0xffffff8000001020.
Definition sC : Z := 0xffffff8000001040.
Definition sD : Z := 0xffffff8000001060.
Definition w_ep (badge : Z) : list Z := new_endpoint_cap badge 1 1 1 1 0xffffff8000002000.
Definition w_slots : slots :=
  <[sA := Cte (w_ep 0) (mdb_node_new sB 1 1 0)]>
  (<[sB := Cte (w_ep 7) (mdb_node_new sD 0 0 sA)]>
  (<[sC := cte_default]>
  (<[sD := Cte (w_ep 7) (mdb_node_new 0 0 1 sB)]> ∅))).
Definition w_at (a : Z) : cte_t := default cte_default (w_slots !! a).

Lemma w_slots_ok : slots_ok w_slots.
Proof. apply slots_okb_ok. vm_compute. reflexivity. Qed.
Lemma w_mdb : mdb w_slots [sA; sB; sD].
Proof. unfold mdb. by_decide. Qed.

Lemma cte_insert_refines_witness :
  wp (cte_insert (w_ep 5) sB sC) (fun _ h' =>
    slots_ok h' /\ mdb h' ([sA] ++ sB :: sC :: [sD]) /\
    cte_cap <$> h' !! sC = Some (w_ep 5) /\
    mdb_get mdbRevocable <$> h' !! sC = Some (b2w true) /\
    mdb_get mdbFirstBadged <$> h' !! sC = Some (b2w true) /\
    cte_cap <$> h' !! sB = Some (src_cap_after (cte_cap (w_at sB)) (w_ep 5)) /\
    caps_frame w_slots h' [sB; sC] /\ frame w_slots h' (sC :: [sA] ++ sB :: [sD])) w_slots.
Proof.
  apply (cte_insert_refines w_slots (w_ep 5) sB sC (w_at sB) (w_at sC) true CapEndpointCap
    CapEndpointCap [sA] [sD]); first [exact w_slots_ok | exact w_mdb | by_compute].
Defined.

Lemma insert_new_cap_refines_witness :
  wp (insert_new_cap sB sC (w_ep 5)) (fun _ h' =>
    slots_ok h' /\ mdb h' ([sA] ++ sB :: sC :: [sD]) /\
    cte_cap <$> h' !! sC = Some (w_ep 5) /\
    mdb_get mdbRevocable <$> h' !! sC = Some 1 /\
    mdb_get mdbFirstBadged <$> h' !! sC = Some 1 /\
    caps_frame w_slots h' [sC] /\ frame w_slots h' (sC :: [sA] ++ sB :: [sD])) w_slots.
Proof.
  apply (insert_new_cap_refines w_slots sB sC (w_ep 5) (w_at sB) (w_at sC) [sA] [sD]);
    first [exact w_slots_ok | exact w_mdb | by_compute].
Defined.

Lemma cte_move_refines_witness :
  wp (cte_move (w_ep 7) sB sC) (fun _ h' =>
    slots_ok h' /\ mdb h' ([sA] ++ sC :: [sD]) /\
    h' !! sC = Some (Cte (w_ep 7) (cteMDBNode (w_at sB))) /\
    h' !! sB = Some (Cte new_null_cap mdb_node_default) /\
    caps_frame w_slots h' [sB; sC] /\ frame w_slots h' (sC :: [sA] ++ sB :: [sD])) w_slots.
Proof.
  apply (cte_move_refines w_slots (w_ep 7) sB sC (w_at sB) (w_at sC) [sA] [sD]);
    first [exact w_slots_ok | exact w_mdb | by_compute].
Defined.

Lemma mdb_unlink_refines_witness :
  wp (mdb_unlink sB) (fun _ h' =>
    slots_ok h' /\ mdb h' ([sA] ++ [sD]) /\
    h' !! sB = Some (Cte new_null_cap mdb_node_default) /\
    (forall n y, head [sD] = Some n -> w_slots !! n = Some y ->
      mdb_get mdbFirstBadged <$> h' !! n =
        Some (b2w ((negb (bool_decide (mdb_get mdbFirstBadged y = 0)))
                   || (negb (bool_decide (mdb_get mdbFirstBadged (w_at sB) = 0)))))) /\
    caps_frame w_slots h' [sB] /\ frame w_slots h' ([sA] ++ sB :: [sD])) w_slots.
Proof.
  apply (mdb_unlink_refines w_slots sB (w_at sB) [sA] [sD]);
    first [exact w_slots_ok | exact w_mdb | by_compute].
Defined.

Lemma cte_swap_refines_witness :
  wp (cte_swap (w_ep 0) sA (w_ep 7) sD) (fun _ h' =>
    slots_ok h' /\ mdb h' ([] ++ sD :: [sB] ++ sA :: []) /\
    cte_cap <$> h' !! sA = Some (w_ep 7) /\ cte_cap <$> h' !! sD = Some (w_ep 0) /\
    caps_frame w_slots h' [sA; sD]) w_slots.
Proof.
  apply (cte_swap_refines w_slots (w_ep 0) (w_ep 7) sA sD (w_at sA) (w_at sD) [] [sB] []);
    first [exact w_slots_ok | exact w_mdb | by_compute].
Defined.

Lemma cte_swap_neighbours_corrupts_witness :
  wp (cte_swap (w_ep 0) sA (w_ep 7) sB) (fun _ h' =>
    mdb_get mdbPrev <$> h' !! sA = Some sA /\ mdb_get mdbNext <$> h' !! sB = Some sB /\
    forall l, mdb h' l -> sA ∉ l /\ sB ∉ l) w_slots.
Proof.
  apply (cte_swap_neighbours_corrupts w_slots (w_ep 0) (w_ep 7) sA sB (w_at sA) (w_at sB) [] [sD]);
    first [exact w_slots_ok | exact w_mdb | by_compute].
Defined.

(** A node of four slots whose entry 1 is a node of two slots. *)
Definition w_node2 : list Z := new_cnode_cap 1 0 0 0xffffff8000004000.
Definition w_node1 : list Z := new_cnode_cap 2 60 0 0xffffff8000003000.
Definition w_cspace : slots :=
  <[0xffffff8000003020 := Cte w_node2 mdb_node_default]>
  (<[0xffffff8000004000 := Cte (w_ep 3) mdb_node_default]> ∅).

Lemma resolve_address_bits_terminates_witness :
  resolve_address_bits w_node1 0x2 64 w_cspace <> NoFuel.
Proof. apply (resolve_address_bits_terminates w_cspace w_node1 0x2 64). lia. Defined.

Lemma resolve_address_bits_spec_witness :
  resolve_address_bits w_node1 0x4 64 w_cspace =
    Ok (ResolveRet EXCEPTION_NONE 0xffffff8000004000 1, w_cspace) /\
  cspace_path w_cspace 0x4 w_node1 64 0xffffff8000004000 1.
Proof.
  split; [vm_compute; reflexivity|].
  apply (resolve_address_bits_spec w_cspace w_node1 0x4 64); [lia|reflexivity|].
  vm_compute. reflexivity.
Defined.
