(* ===== verification/Sched.v ===== *)
(** * Threads and the scheduler's queues

    [sel4_task/src/thread_state.rs], [tcb_queue.rs], the thread control block
    and those of its operations (from [tcb.rs]) and of the scheduler's (from
    [scheduler.rs]) that touch only threads and the scheduler's globals, in
    the single-core configuration.  Choosing and switching to a thread, which
    changes the address space, is in [Threads.v]. *)

From stdpp Require Import base numbers gmap list.
From S2P Require Import Prelude Bitfield Common DList.
Local Open Scope Z_scope.
Local Open Scope krn_scope.

(** ** Thread states *)
(* src: sel4_task/src/thread_state.rs 3-15 ThreadState *)
Inductive ThreadState : Type :=
| ThreadStateInactive | ThreadStateRunning | ThreadStateRestart | ThreadStateBlockedOnReceive
| ThreadStateBlockedOnSend | ThreadStateBlockedOnReply | ThreadStateBlockedOnNotification
| ThreadStateIdleThreadState | ThreadStateExited.
#[export] Instance ThreadState_eq_dec : EqDecision ThreadState.
Proof. solve_decision. Defined.
(* src: sel4_task/src/thread_state.rs 5-15 ThreadState *)
Definition ThreadState_to_usize (t : ThreadState) : Z :=
  match t with
  | ThreadStateInactive => 0 | ThreadStateRunning => 1 | ThreadStateRestart => 2
  | ThreadStateBlockedOnReceive => 3 | ThreadStateBlockedOnSend => 4
  | ThreadStateBlockedOnReply => 5 | ThreadStateBlockedOnNotification => 6
  | ThreadStateIdleThreadState => 7 | ThreadStateExited => 8
  end.
Definition ThreadState_of (n : Z) : res ThreadState :=
  match n with
  | 0 => Ok ThreadStateInactive | 1 => Ok ThreadStateRunning | 2 => Ok ThreadStateRestart
  | 3 => Ok ThreadStateBlockedOnReceive | 4 => Ok ThreadStateBlockedOnSend
  | 5 => Ok ThreadStateBlockedOnReply | 6 => Ok ThreadStateBlockedOnNotification
  | 7 => Ok ThreadStateIdleThreadState | 8 => Ok ThreadStateExited | _ => UB
  end.

(* src: sel4_task/src/thread_state.rs 33-36 thread_state_t *)
Definition thread_state_t : bitstruct := Bs 3 0 0 0.
(* src: sel4_task/src/thread_state.rs 37-37 blocking_ipc_badge *)
Definition blocking_ipc_badge : bitfield := Bf 2 0 64 0 false.
(* src: sel4_task/src/thread_state.rs 38-38 blocking_ipc_can_grant *)
Definition blocking_ipc_can_grant : bitfield := Bf 1 3 1 0 false.
(* src: sel4_task/src/thread_state.rs 39-39 blocking_ipc_can_grant_relpy *)
Definition blocking_ipc_can_grant_reply : bitfield := Bf 1 2 1 0 false.
(* src: sel4_task/src/thread_state.rs 40-40 blocking_ipc_is_call *)
Definition blocking_ipc_is_call : bitfield := Bf 1 1 1 0 false.
(* src: sel4_task/src/thread_state.rs 41-41 tcb_queued *)
Definition tcb_queued : bitfield := Bf 1 0 1 0 false.
(* src: sel4_task/src/thread_state.rs 42-42 blocking_object *)
Definition blocking_object : bitfield := Bf 0 4 44 4 true.
(* src: sel4_task/src/thread_state.rs 43-43 ts_type *)
Definition ts_type : bitfield := Bf 0 0 4 0 false.

(** ** Threads *)
(* src: sel4_task/src/tcb.rs 31-68 tcb_t *)
Record tcb_t := Tcb {
  tcbArch : list Z;
  tcbState : list Z;
  tcbBoundNotification : Z;
  tcbFault : list Z;
  tcbLookupFailure : list Z;
  domain : Z;
  tcbMCP : Z;
  tcbPriority : Z;
  tcbTimeSlice : Z;
  tcbFaultHandler : Z;
  tcbIPCBuffer : Z;
  tcbSchedNext : Z;
  tcbSchedPrev : Z;
  tcbEPNext : Z;
  tcbEPPrev : Z;
}.
#[export] Instance tcb_t_eq_dec : EqDecision tcb_t.
Proof. solve_decision. Defined.

Definition set_tcbArch v t := Tcb v (tcbState t) (tcbBoundNotification t) (tcbFault t)
  (tcbLookupFailure t) (domain t) (tcbMCP t) (tcbPriority t) (tcbTimeSlice t) (tcbFaultHandler t)
  (tcbIPCBuffer t) (tcbSchedNext t) (tcbSchedPrev t) (tcbEPNext t) (tcbEPPrev t).
Definition set_tcbState v t := Tcb (tcbArch t) v (tcbBoundNotification t) (tcbFault t)
  (tcbLookupFailure t) (domain t) (tcbMCP t) (tcbPriority t) (tcbTimeSlice t) (tcbFaultHandler t)
  (tcbIPCBuffer t) (tcbSchedNext t) (tcbSchedPrev t) (tcbEPNext t) (tcbEPPrev t).
Definition set_tcbBoundNotification v t := Tcb (tcbArch t) (tcbState t) v (tcbFault t)
  (tcbLookupFailure t) (domain t) (tcbMCP t) (tcbPriority t) (tcbTimeSlice t) (tcbFaultHandler t)
  (tcbIPCBuffer t) (tcbSchedNext t) (tcbSchedPrev t) (tcbEPNext t) (tcbEPPrev t).
Definition set_tcbFault v t := Tcb (tcbArch t) (tcbState t) (tcbBoundNotification t) v
  (tcbLookupFailure t) (domain t) (tcbMCP t) (tcbPriority t) (tcbTimeSlice t) (tcbFaultHandler t)
  (tcbIPCBuffer t) (tcbSchedNext t) (tcbSchedPrev t) (tcbEPNext t) (tcbEPPrev t).
Definition set_tcbLookupFailure v t := Tcb (tcbArch t) (tcbState t) (tcbBoundNotification t)
  (tcbFault t) v (domain t) (tcbMCP t) (tcbPriority t) (tcbTimeSlice t) (tcbFaultHandler t)
  (tcbIPCBuffer t) (tcbSchedNext t) (tcbSchedPrev t) (tcbEPNext t) (tcbEPPrev t).
Definition set_tcb_domain v t := Tcb (tcbArch t) (tcbState t) (tcbBoundNotification t)
  (tcbFault t) (tcbLookupFailure t) v (tcbMCP t) (tcbPriority t) (tcbTimeSlice t)
  (tcbFaultHandler t) (tcbIPCBuffer t) (tcbSchedNext t) (tcbSchedPrev t) (tcbEPNext t) (tcbEPPrev t).
Definition set_tcbMCP v t := Tcb (tcbArch t) (tcbState t) (tcbBoundNotification t) (tcbFault t)
  (tcbLookupFailure t) (domain t) v (tcbPriority t) (tcbTimeSlice t) (tcbFaultHandler t)
  (tcbIPCBuffer t) (tcbSchedNext t) (tcbSchedPrev t) (tcbEPNext t) (tcbEPPrev t).
Definition set_tcbPriority v t := Tcb (tcbArch t) (tcbState t) (tcbBoundNotification t)
  (tcbFault t) (tcbLookupFailure t) (domain t) (tcbMCP t) v (tcbTimeSlice t) (tcbFaultHandler t)
  (tcbIPCBuffer t) (tcbSchedNext t) (tcbSchedPrev t) (tcbEPNext t) (tcbEPPrev t).
Definition set_tcbTimeSlice v t := Tcb (tcbArch t) (tcbState t) (tcbBoundNotification t)
  (tcbFault t) (tcbLookupFailure t) (domain t) (tcbMCP t) (tcbPriority t) v (tcbFaultHandler t)
  (tcbIPCBuffer t) (tcbSchedNext t) (tcbSchedPrev t) (tcbEPNext t) (tcbEPPrev t).
Definition set_tcbFaultHandler v t := Tcb (tcbArch t) (tcbState t) (tcbBoundNotification t)
  (tcbFault t) (tcbLookupFailure t) (domain t) (tcbMCP t) (tcbPriority t) (tcbTimeSlice t) v
  (tcbIPCBuffer t) (tcbSchedNext t) (tcbSchedPrev t) (tcbEPNext t) (tcbEPPrev t).
Definition set_tcbIPCBuffer v t := Tcb (tcbArch t) (tcbState t) (tcbBoundNotification t)
  (tcbFault t) (tcbLookupFailure t) (domain t) (tcbMCP t) (tcbPriority t) (tcbTimeSlice t)
  (tcbFaultHandler t) v (tcbSchedNext t) (tcbSchedPrev t) (tcbEPNext t) (tcbEPPrev t).
Definition set_tcbSchedNext v t := Tcb (tcbArch t) (tcbState t) (tcbBoundNotification t)
  (tcbFault t) (tcbLookupFailure t) (domain t) (tcbMCP t) (tcbPriority t) (tcbTimeSlice t)
  (tcbFaultHandler t) (tcbIPCBuffer t) v (tcbSchedPrev t) (tcbEPNext t) (tcbEPPrev t).
Definition set_tcbSchedPrev v t := Tcb (tcbArch t) (tcbState t) (tcbBoundNotification t)
  (tcbFault t) (tcbLookupFailure t) (domain t) (tcbMCP t) (tcbPriority t) (tcbTimeSlice t)
  (tcbFaultHandler t) (tcbIPCBuffer t) (tcbSchedNext t) v (tcbEPNext t) (tcbEPPrev t).
Definition set_tcbEPNext v t := Tcb (tcbArch t) (tcbState t) (tcbBoundNotification t)
  (tcbFault t) (tcbLookupFailure t) (domain t) (tcbMCP t) (tcbPriority t) (tcbTimeSlice t)
  (tcbFaultHandler t) (tcbIPCBuffer t) (tcbSchedNext t) (tcbSchedPrev t) v (tcbEPPrev t).
Definition set_tcbEPPrev v t := Tcb (tcbArch t) (tcbState t) (tcbBoundNotification t)
  (tcbFault t) (tcbLookupFailure t) (domain t) (tcbMCP t) (tcbPriority t) (tcbTimeSlice t)
  (tcbFaultHandler t) (tcbIPCBuffer t) (tcbSchedNext t) (tcbSchedPrev t) (tcbEPNext t) v.
(** A setter of a field of [tcbState]. *)
Definition ts_set (f : bitfield) (v : Z) (t : tcb_t) : tcb_t :=
  set_tcbState (bf_set f v (tcbState t)) t.
Definition ts_get (f : bitfield) (t : tcb_t) : Z := bf_get f (tcbState t).

(** Zeroed memory of a thread. *)
Definition tcb_zero : tcb_t :=
  Tcb (replicate (Z.to_nat CONTEXT_REG_NUM) 0) [0; 0; 0] 0 [0; 0] [0; 0] 0 0 0 0 0 0 0 0 0 0.

(* src: sel4_task/src/tcb_queue.rs 5-13 tcb_queue_t *)
Record tcb_queue_t := Queue { head : Z; tail : Z }.
#[export] Instance tcb_queue_t_eq_dec : EqDecision tcb_queue_t.
Proof. solve_decision. Defined.
(* src: sel4_task/src/tcb_queue.rs 44-48 tcb_queue_t::empty *)
Definition queue_empty (q : tcb_queue_t) : bool := head q =w 0.

(** ** The scheduler's globals *)
(* src: sel4_task/src/scheduler.rs 68-76 dschedule_t *)
Record dschedule_t := DSchedule { ds_domain : Z; ds_length : Z }.
(* src: sel4_task/src/scheduler.rs 78-78 SchedulerAction_ResumeCurrentThread *)
Definition SchedulerAction_ResumeCurrentThread : Z := 0.
(* src: sel4_task/src/scheduler.rs 79-79 SchedulerAction_ChooseNewThread *)
Definition SchedulerAction_ChooseNewThread : Z := 1.
(* src: sel4_task/src/scheduler.rs 80-80 ksDomScheduleLength *)
Definition ksDomScheduleLength : Z := 1.
(* src: sel4_task/src/scheduler.rs 115-119 ksDomSchedule *)
Definition ksDomSchedule : list dschedule_t := [DSchedule 0 60].

(* src: sel4_task/src/scheduler.rs 82-113 ksReadyQueues *)
Record sched_t := Sched {
  ksDomainTime : Z;
  ksCurDomain : Z;
  ksDomScheduleIdx : Z;
  ksCurThread : Z;
  ksIdleThread : Z;
  ksSchedulerAction : Z;
  ksReadyQueues : list tcb_queue_t;
  ksReadyQueuesL2Bitmap : list (list Z);
  ksReadyQueuesL1Bitmap : list Z;
  ksWorkUnitsCompleted : Z;
}.
(** The initial values. *)
(* src: sel4_task/src/scheduler.rs 83-113 ksReadyQueues *)
Definition sched_init : sched_t :=
  Sched 0 0 0 0 0 1 (replicate (Z.to_nat NUM_READY_QUEUES) (Queue 0 0))
    [replicate (Z.to_nat L2_BITMAP_SIZE) 0] [0] 0.

Definition set_ksDomainTime v s := Sched v (ksCurDomain s) (ksDomScheduleIdx s) (ksCurThread s)
  (ksIdleThread s) (ksSchedulerAction s) (ksReadyQueues s) (ksReadyQueuesL2Bitmap s)
  (ksReadyQueuesL1Bitmap s) (ksWorkUnitsCompleted s).
Definition set_ksCurDomain v s := Sched (ksDomainTime s) v (ksDomScheduleIdx s) (ksCurThread s)
  (ksIdleThread s) (ksSchedulerAction s) (ksReadyQueues s) (ksReadyQueuesL2Bitmap s)
  (ksReadyQueuesL1Bitmap s) (ksWorkUnitsCompleted s).
Definition set_ksDomScheduleIdx v s := Sched (ksDomainTime s) (ksCurDomain s) v (ksCurThread s)
  (ksIdleThread s) (ksSchedulerAction s) (ksReadyQueues s) (ksReadyQueuesL2Bitmap s)
  (ksReadyQueuesL1Bitmap s) (ksWorkUnitsCompleted s).
Definition set_ksCurThread v s := Sched (ksDomainTime s) (ksCurDomain s) (ksDomScheduleIdx s) v
  (ksIdleThread s) (ksSchedulerAction s) (ksReadyQueues s) (ksReadyQueuesL2Bitmap s)
  (ksReadyQueuesL1Bitmap s) (ksWorkUnitsCompleted s).
Definition set_ksIdleThread v s := Sched (ksDomainTime s) (ksCurDomain s) (ksDomScheduleIdx s)
  (ksCurThread s) v (ksSchedulerAction s) (ksReadyQueues s) (ksReadyQueuesL2Bitmap s)
  (ksReadyQueuesL1Bitmap s) (ksWorkUnitsCompleted s).
Definition set_ksSchedulerAction v s := Sched (ksDomainTime s) (ksCurDomain s) (ksDomScheduleIdx s)
  (ksCurThread s) (ksIdleThread s) v (ksReadyQueues s) (ksReadyQueuesL2Bitmap s)
  (ksReadyQueuesL1Bitmap s) (ksWorkUnitsCompleted s).
Definition set_ksReadyQueues v s := Sched (ksDomainTime s) (ksCurDomain s) (ksDomScheduleIdx s)
  (ksCurThread s) (ksIdleThread s) (ksSchedulerAction s) v (ksReadyQueuesL2Bitmap s)
  (ksReadyQueuesL1Bitmap s) (ksWorkUnitsCompleted s).
Definition set_L2Bitmap v s := Sched (ksDomainTime s) (ksCurDomain s) (ksDomScheduleIdx s)
  (ksCurThread s) (ksIdleThread s) (ksSchedulerAction s) (ksReadyQueues s) v
  (ksReadyQueuesL1Bitmap s) (ksWorkUnitsCompleted s).
Definition set_L1Bitmap v s := Sched (ksDomainTime s) (ksCurDomain s) (ksDomScheduleIdx s)
  (ksCurThread s) (ksIdleThread s) (ksSchedulerAction s) (ksReadyQueues s)
  (ksReadyQueuesL2Bitmap s) v (ksWorkUnitsCompleted s).
Definition set_ksWorkUnits v s := Sched (ksDomainTime s) (ksCurDomain s) (ksDomScheduleIdx s)
  (ksCurThread s) (ksIdleThread s) (ksSchedulerAction s) (ksReadyQueues s)
  (ksReadyQueuesL2Bitmap s) (ksReadyQueuesL1Bitmap s) v.

(** Threads and globals together: the state of this file. *)
Record sst := Sst { tcbs : gmap Z tcb_t; gl : sched_t }.
Definition on_tcbs {A} (m : ST (gmap Z tcb_t) A) : ST sst A := fun s =>
  match m (tcbs s) with
  | Ok (a, h) => Ok (a, Sst h (gl s)) | Panic => Panic | UB => UB | NoFuel => NoFuel
  end.
Definition tcb_get (p : Z) : ST sst tcb_t := on_tcbs (load p).
Definition tcb_get_ref (p : Z) : ST sst tcb_t := on_tcbs (load_ref p).
Definition tcb_mod (p : Z) (f : tcb_t -> tcb_t) : ST sst unit := on_tcbs (store_with p f).
Definition tcb_mod_ref (p : Z) (f : tcb_t -> tcb_t) : ST sst unit := on_tcbs (store_ref p f).
Definition gl_get {A} (f : sched_t -> A) : ST sst A := gets (fun s => f (gl s)).
Definition gl_mod (f : sched_t -> sched_t) : ST sst unit := modify (fun s => Sst (tcbs s) (f (gl s))).

(* src: sel4_task/src/scheduler.rs 139-152 get_ks_scheduler_action *)
Definition get_ks_scheduler_action : ST sst Z := gl_get ksSchedulerAction.
(* src: sel4_task/src/scheduler.rs 154-170 set_ks_scheduler_action *)
Definition set_ks_scheduler_action (action : Z) : ST sst unit := gl_mod (set_ksSchedulerAction action).
(* src: sel4_task/src/scheduler.rs 203-216 set_current_scheduler_action *)
Definition set_current_scheduler_action (action : Z) : ST sst unit :=
  gl_mod (set_ksSchedulerAction action).
(** The reference to the current thread: its address, asserted not null. *)
(* src: sel4_task/src/scheduler.rs 172-186 get_currenct_thread *)
Definition get_currenct_thread : ST sst Z :=
  p ← gl_get ksCurThread; assert_m (p <>w 0) ;; mret p.
(* src: sel4_task/src/scheduler.rs 188-201 get_currenct_thread_unsafe *)
Definition get_currenct_thread_unsafe : ST sst Z := gl_get ksCurThread.
(* src: sel4_task/src/scheduler.rs 124-137 get_idle_thread *)
Definition get_idle_thread : ST sst Z :=
  p ← gl_get ksIdleThread; assert_m (p <>w 0) ;; mret p.
(* src: sel4_task/src/scheduler.rs 218-231 set_current_thread *)
Definition set_current_thread (thread : Z) : ST sst unit := gl_mod (set_ksCurThread thread).
(* src: sel4_task/src/scheduler.rs 233-237 get_current_domain *)
Definition get_current_domain : ST sst Z := gl_get ksCurDomain.

(** ** Ready queues and their bitmap *)
(* src: sel4_task/src/scheduler.rs 239-243 ready_queues_index *)
Definition ready_queues_index (dom prio : Z) : Z := wadd (wmul dom CONFIG_NUM_PRIORITIES) prio.
(* src: sel4_task/src/scheduler.rs 245-249 prio_to_l1index *)
Definition prio_to_l1index (prio : Z) : Z := wshr prio wordRadix.
(* src: sel4_task/src/scheduler.rs 251-255 l1index_to_prio *)
Definition l1index_to_prio (l1index : Z) : Z := wshl l1index wordRadix.
(* src: sel4_task/src/scheduler.rs 257-262 invert_l1index *)
Definition invert_l1index (l1index : Z) : Z := wsub (wsub L2_BITMAP_SIZE 1) l1index.

(** [usize::leading_zeros] *)
Definition leading_zeros (x : Z) : Z := if x =w 0 then 64 else 63 - Z.log2 x.

(* src: sel4_task/src/scheduler.rs 264-275 getHighestPrio *)
Definition getHighestPrio (dom : Z) : ST sst Z :=
  g ← gl_get id;
  l1 ← lift (idx (ksReadyQueuesL1Bitmap g) dom);
  let l1index := wsub (wsub wordBits 1) (leading_zeros l1) in
  let l1index_inverted := invert_l1index l1index in
  row ← lift (idx (ksReadyQueuesL2Bitmap g) dom);
  l2 ← lift (idx row l1index_inverted);
  let l2index := wsub (wsub wordBits 1) (leading_zeros l2) in
  mret (l1index_to_prio l1index ||| l2index).

(* src: sel4_task/src/scheduler.rs 293-304 isHighestPrio *)
Definition isHighestPrio (dom prio : Z) : ST sst bool :=
  g ← gl_get id;
  l1 ← lift (idx (ksReadyQueuesL1Bitmap g) dom);
  if l1 =w 0 then mret true
  else hp ← getHighestPrio dom; mret (bool_decide (prio >= hp)).

(** Update one word of the two-level bitmap. *)
Definition upd_l1 (dom : Z) (f : Z -> Z) : ST sst unit :=
  g ← gl_get id;
  w ← lift (idx (ksReadyQueuesL1Bitmap g) dom);
  l ← lift (upd (ksReadyQueuesL1Bitmap g) dom (f w));
  gl_mod (set_L1Bitmap l).
Definition get_l2 (dom i : Z) : ST sst Z :=
  g ← gl_get id;
  row ← lift (idx (ksReadyQueuesL2Bitmap g) dom);
  lift (idx row i).
Definition upd_l2 (dom i : Z) (f : Z -> Z) : ST sst unit :=
  g ← gl_get id;
  row ← lift (idx (ksReadyQueuesL2Bitmap g) dom);
  w ← lift (idx row i);
  row' ← lift (upd row i (f w));
  l ← lift (upd (ksReadyQueuesL2Bitmap g) dom row');
  gl_mod (set_L2Bitmap l).

(* src: sel4_task/src/scheduler.rs 306-324 addToBitmap *)
Definition addToBitmap (cpu dom prio : Z) : ST sst unit :=
  let l1index := prio_to_l1index prio in
  let l1index_inverted := invert_l1index l1index in
  upd_l1 dom (fun w => w ||| BIT l1index) ;;
  upd_l2 dom l1index_inverted (fun w => w ||| BIT (prio &&& MASK wordRadix)).

(* src: sel4_task/src/scheduler.rs 326-348 removeFromBitmap *)
Definition removeFromBitmap (cpu dom prio : Z) : ST sst unit :=
  let l1index := prio_to_l1index prio in
  let l1index_inverted := invert_l1index l1index in
  upd_l2 dom l1index_inverted (fun w => w &&& wnot (BIT (prio &&& MASK wordRadix))) ;;
  w2 ← get_l2 dom l1index_inverted;
  when (w2 =w 0) (upd_l1 dom (fun w => w &&& wnot (BIT l1index))).

(* src: sel4_task/src/scheduler.rs 350-362 nextDomain *)
Definition nextDomain : ST sst unit :=
  gl_mod (fun g => set_ksDomScheduleIdx (wadd (ksDomScheduleIdx g) 1) g) ;;
  i ← gl_get ksDomScheduleIdx;
  when (bool_decide (i >= ksDomScheduleLength)) (gl_mod (set_ksDomScheduleIdx 0)) ;;
  gl_mod (set_ksWorkUnits 0) ;;
  i ← gl_get ksDomScheduleIdx;
  d ← lift (idx ksDomSchedule i);
  gl_mod (set_ksCurDomain (ds_domain d)) ;;
  gl_mod (set_ksDomainTime (ds_length d)).

(** ** Thread operations *)
(* src: sel4_task/src/tcb.rs 95-99 tcb_t::get_state *)
Definition get_state (t : tcb_t) : res ThreadState := ThreadState_of (ts_get ts_type t).
(* src: sel4_task/src/tcb.rs 101-113 tcb_t::is_stopped *)
Definition is_stopped (t : tcb_t) : res bool :=
  st ← get_state t;
  mret match st with
  | ThreadStateInactive | ThreadStateBlockedOnNotification | ThreadStateBlockedOnReceive
  | ThreadStateBlockedOnReply | ThreadStateBlockedOnSend => true
  | _ => false
  end.
(* src: sel4_task/src/tcb.rs 115-122 tcb_t::is_runnable *)
Definition is_runnable (t : tcb_t) : res bool :=
  st ← get_state t;
  mret match st with ThreadStateRunning | ThreadStateRestart => true | _ => false end.
(* src: sel4_task/src/tcb.rs 124-128 tcb_t::is_current *)
Definition is_current (self : Z) : ST sst bool := p ← get_currenct_thread; mret (self =w p).
(* src: sel4_task/src/tcb.rs 218-229 tcb_t::get_cpu *)
Definition get_cpu (self : Z) : Z := 0.
(* src: sel4_task/src/tcb.rs 80-84 tcb_t::init *)
Definition tcb_init (self : Z) : ST sst unit := tcb_mod self (set_tcbArch ArchTCB_default).
(* src: sel4_task/src/tcb.rs 130-133 tcb_t::set_mcp_priority *)
Definition set_mcp_priority (self mcp : Z) : ST sst unit := tcb_mod self (set_tcbMCP mcp).
(* src: sel4_task/src/tcb.rs 149-155 tcb_t::bind_notification *)
Definition tcb_bind_notification (self addr : Z) : ST sst unit :=
  tcb_mod self (set_tcbBoundNotification addr).
(* src: sel4_task/src/tcb.rs 157-161 tcb_t::unbind_notification *)
Definition tcb_unbind_notification (self : Z) : ST sst unit :=
  tcb_mod self (set_tcbBoundNotification 0).

(** [get_sched_queue(idx)] gives a reference into [ksReadyQueues]; these read
    and write through it. *)
(* src: sel4_task/src/tcb.rs 201-216 tcb_t::get_sched_queue *)
Definition get_sched_queue (i : Z) : ST sst tcb_queue_t :=
  g ← gl_get id; lift (idx (ksReadyQueues g) i).
(* src: sel4_task/src/tcb.rs 201-216 tcb_t::get_sched_queue *)
Definition mod_sched_queue (i : Z) (f : tcb_queue_t -> tcb_queue_t) : ST sst unit :=
  g ← gl_get id;
  q ← lift (idx (ksReadyQueues g) i);
  l ← lift (upd (ksReadyQueues g) i (f q));
  gl_mod (set_ksReadyQueues l).
Definition set_head (v : Z) (q : tcb_queue_t) : tcb_queue_t := Queue v (tail q).
Definition set_tail (v : Z) (q : tcb_queue_t) : tcb_queue_t := Queue (head q) v.

(* src: sel4_task/src/tcb.rs 177-199 tcb_t::sched_enqueue *)
Definition sched_enqueue (self : Z) : ST sst unit :=
  t ← tcb_get self;
  if ts_get tcb_queued t =w 0 then
    let dom := domain t in
    let prio := tcbPriority t in
    let i := ready_queues_index dom prio in
    queue ← get_sched_queue i;
    (if tail queue =w 0 then
       mod_sched_queue i (set_head self) ;;
       addToBitmap (get_cpu self) dom prio
     else tcb_mod_ref (tail queue) (set_tcbSchedNext self)) ;;
    tcb_mod self (set_tcbSchedPrev (tail queue)) ;;
    tcb_mod self (set_tcbSchedNext 0) ;;
    mod_sched_queue i (set_tail self) ;;
    tcb_mod self (ts_set tcb_queued 1)
  else skip.

(* src: sel4_task/src/tcb.rs 258-286 tcb_t::sched_append *)
Definition sched_append (self : Z) : ST sst unit :=
  t ← tcb_get self;
  if ts_get tcb_queued t =w 0 then
    let dom := domain t in
    let prio := tcbPriority t in
    let i := ready_queues_index dom prio in
    queue ← get_sched_queue i;
    (if head queue =w 0 then
       mod_sched_queue i (set_head self) ;;
       addToBitmap (get_cpu self) dom prio
     else
       let next := tail queue in
       tcb_mod_ref next (set_tcbSchedNext self)) ;;
    tcb_mod self (set_tcbSchedPrev (tail queue)) ;;
    tcb_mod self (set_tcbSchedNext 0) ;;
    mod_sched_queue i (set_tail self) ;;
    tcb_mod self (ts_set tcb_queued 1)
  else skip.

(* src: sel4_task/src/tcb.rs 231-256 tcb_t::sched_dequeue *)
Definition sched_dequeue (self : Z) : ST sst unit :=
  t ← tcb_get self;
  if ts_get tcb_queued t <>w 0 then
    let dom := domain t in
    let prio := tcbPriority t in
    let i := ready_queues_index dom prio in
    _ ← get_sched_queue i;
    (if tcbSchedPrev t <>w 0 then
       tcb_mod_ref (tcbSchedPrev t) (set_tcbSchedNext (tcbSchedNext t))
     else
       mod_sched_queue i (set_head (tcbSchedNext t)) ;;
       when (tcbSchedNext t =w 0) (removeFromBitmap (get_cpu self) dom prio)) ;;
    (if tcbSchedNext t <>w 0 then
       tcb_mod_ref (tcbSchedNext t) (set_tcbSchedPrev (tcbSchedPrev t))
     else mod_sched_queue i (set_tail (tcbSchedPrev t))) ;;
    tcb_mod self (ts_set tcb_queued 0)
  else skip.

(* src: sel4_task/src/scheduler.rs 419-429 rescheduleRequired *)
Definition rescheduleRequired : ST sst unit :=
  a ← get_ks_scheduler_action;
  when ((a <>w SchedulerAction_ResumeCurrentThread) && (a <>w SchedulerAction_ChooseNewThread))
    (assert_m (a <>w 0) ;; sched_enqueue a) ;;
  set_ks_scheduler_action SchedulerAction_ChooseNewThread.

(* src: sel4_task/src/scheduler.rs 473-482 schedule_tcb *)
Definition schedule_tcb (tcb_ref : Z) : ST sst unit :=
  cur ← get_currenct_thread_unsafe;
  a ← get_ks_scheduler_action;
  if (tcb_ref =w cur) && (a =w SchedulerAction_ResumeCurrentThread) then
    t ← tcb_get tcb_ref;
    r ← lift (is_runnable t);
    when (negb r) rescheduleRequired
  else skip.

(* src: sel4_task/src/scheduler.rs 498-510 possible_switch_to *)
Definition possible_switch_to (target : Z) : ST sst unit :=
  d ← gl_get ksCurDomain;
  t ← tcb_get target;
  if d <>w domain t then sched_enqueue target
  else
    a ← get_ks_scheduler_action;
    if a <>w SchedulerAction_ResumeCurrentThread then
      rescheduleRequired ;; sched_enqueue target
    else set_ks_scheduler_action target.

(* src: sel4_task/src/tcb.rs 791-799 set_thread_state *)
Definition set_thread_state (tcb : Z) (state : ThreadState) : ST sst unit :=
  tcb_mod tcb (ts_set ts_type (ThreadState_to_usize state)) ;; schedule_tcb tcb.
(* src: sel4_task/src/tcb.rs 781-786 tcb_t::set_state *)
Definition set_state (self : Z) (state : ThreadState) : ST sst unit :=
  tcb_mod self (ts_set ts_type (ThreadState_to_usize state)) ;; schedule_tcb self.

(* src: sel4_task/src/tcb.rs 135-147 tcb_t::set_priority *)
Definition set_priority (self priority : Z) : ST sst unit :=
  sched_dequeue self ;;
  tcb_mod self (set_tcbPriority priority) ;;
  t ← tcb_get self;
  r ← lift (is_runnable t);
  if r : bool then
    c ← is_current self;
    if c : bool then rescheduleRequired else possible_switch_to self
  else skip.

(* src: sel4_task/src/tcb.rs 163-175 tcb_t::set_domain *)
Definition set_domain (self dom : Z) : ST sst unit :=
  sched_dequeue self ;;
  tcb_mod self (set_tcb_domain dom) ;;
  t ← tcb_get self;
  r ← lift (is_runnable t);
  when r (sched_enqueue self) ;;
  c ← is_current self;
  when c rescheduleRequired.

(* src: sel4_task/src/tcb.rs 388-400 tcb_t::suspend *)
Definition suspend (self : Z) : ST sst unit :=
  t ← tcb_get self;
  st ← lift (get_state t);
  when (bool_decide (st = ThreadStateRunning))
    (v ← lift (get_register (tcbArch t) RFaultIP);
     regs ← lift (set_register (tcbArch t) RFaultIP v);
     tcb_mod self (set_tcbArch regs)) ;;
  set_thread_state self ThreadStateInactive ;;
  sched_dequeue self.

(* src: sel4_task/src/scheduler.rs 512-536 timerTick *)
Definition timerTick : ST sst unit :=
  current ← get_currenct_thread;
  t ← tcb_get current;
  st ← lift (get_state t);
  when (bool_decide (st = ThreadStateRunning))
    (if decide (tcbTimeSlice t > 1) then
       tcb_mod current (fun t => set_tcbTimeSlice (wsub (tcbTimeSlice t) 1) t)
     else
       tcb_mod current (set_tcbTimeSlice CONFIG_TIME_SLICE) ;;
       sched_append current ;;
       rescheduleRequired).

(* src: sel4_task/src/scheduler.rs 538-561 activateThread *)
Definition activateThread : ST sst unit :=
  thread ← get_currenct_thread;
  t ← tcb_get thread;
  st ← lift (get_state t);
  match st with
  | ThreadStateRunning => skip
  | ThreadStateRestart =>
      pc ← lift (get_register (tcbArch t) RFaultIP);
      regs ← lift (set_register (tcbArch t) RNextIP pc);
      tcb_mod thread (set_tcbArch regs) ;;
      set_thread_state thread ThreadStateRunning
  | ThreadStateIdleThreadState => skip
  | _ => panic
  end.

(** [pptr.add(TCB_OFFSET)] counts words of eight bytes.  The arguments are the
    addresses of the static [ksIdleThreadTCB] and of the idle loop. *)
(* src: sel4_task/src/scheduler.rs 563-578 create_idle_thread *)
Definition create_idle_thread (ksIdleThreadTCB idle_thread : Z) : ST sst unit :=
  let pptr := ksIdleThreadTCB in
  gl_mod (set_ksIdleThread (wadd pptr (wmul 8 TCB_OFFSET))) ;;
  tcb ← get_idle_thread;
  t ← tcb_get tcb;
  regs ← lift (config_idle_thread (tcbArch t) idle_thread);
  tcb_mod tcb (set_tcbArch regs) ;;
  set_thread_state tcb ThreadStateIdleThreadState.

(** ** Endpoint queues

    [tcb_queue_t] is a local copy the caller writes back; the operations
    return the new queue. *)
(* src: sel4_task/src/tcb_queue.rs 16-27 tcb_queue_t::ep_append *)
Definition ep_append (q : tcb_queue_t) (tcb : Z) : ST sst tcb_queue_t :=
  q' ← (if head q =w 0 then mret (set_head tcb q)
        else tcb_mod_ref (tail q) (set_tcbEPNext tcb) ;; mret q);
  tcb_mod tcb (set_tcbEPPrev (tail q')) ;;
  tcb_mod tcb (set_tcbEPNext 0) ;;
  mret (set_tail tcb q').

(* src: sel4_task/src/tcb_queue.rs 29-42 tcb_queue_t::ep_dequeue *)
Definition ep_dequeue (q : tcb_queue_t) (tcb : Z) : ST sst tcb_queue_t :=
  t ← tcb_get tcb;
  q1 ← (if tcbEPPrev t <>w 0 then
          tcb_mod_ref (tcbEPPrev t) (set_tcbEPNext (tcbEPNext t)) ;; mret q
        else mret (set_head (tcbEPNext t) q));
  t ← tcb_get tcb;
  if tcbEPNext t <>w 0 then
    tcb_mod_ref (tcbEPNext t) (set_tcbEPPrev (tcbEPPrev t)) ;; mret q1
  else mret (set_tail (tcbEPPrev t) q1).
