(* ===== verification/Bitmap.v ===== *)
(** * The two-level priority bitmap

    The bitmap of the ready queues ([addToBitmap], [removeFromBitmap],
    [getHighestPrio], [isHighestPrio] of [scheduler.rs]) represents the set of
    priorities with a non-empty queue; the lookup finds its maximum. *)

From stdpp Require Import base numbers gmap list.
From S2P Require Import Prelude Bitfield Common DList Sched.
Local Open Scope Z_scope.
Local Open Scope krn_scope.

(** The two levels represent the set [f] of priorities. *)
Record bitmap_ok (l1 : list Z) (l2 : list (list Z)) (f : Z -> bool) : Prop := {
  bm_l1 : exists w1, l1 = [w1] /\ 0 <= w1;
  bm_l2 : exists row, l2 = [row] /\ length row = 4%nat /\ Forall (Z.le 0) row;
  bm_top : forall w1 row i, l1 = [w1] -> l2 = [row] -> 0 <= i ->
    Z.testbit w1 i = (bool_decide (i < 4) && (row !!! Z.to_nat (3 - i) <>w 0))%bool;
  bm_row : forall row i b, l2 = [row] -> 0 <= i < 4 -> 0 <= b ->
    Z.testbit (row !!! Z.to_nat (3 - i)) b = (bool_decide (b < 64) && f (64 * i + b))%bool;
}.

Section bitmap.
Implicit Types (f : Z -> bool) (row : list Z) (p i b w : Z) (s : sst).

(** The parts of a priority. *)
Lemma prio_split p : 0 <= p < 256 -> 0 <= p / 64 < 4 /\ 0 <= p mod 64 < 64 /\ p = 64 * (p / 64) + p mod 64.
Proof.
  intros Hp. pose proof (Z.div_mod p 64 ltac:(lia)). pose proof (Z.mod_pos_bound p 64 ltac:(lia)).
  repeat split; lia.
Qed.
Lemma prio_to_l1index_spec p : prio_to_l1index p = p / 64.
Proof. unfold prio_to_l1index. rewrite wshr_spec by (unfold wordRadix; lia). done. Qed.
Lemma invert_spec i : 0 <= i < 4 -> invert_l1index i = 3 - i.
Proof.
  intros Hi. unfold invert_l1index. change (wsub L2_BITMAP_SIZE 1) with 3.
  apply wsub_small. unfold is_word. lia.
Qed.
Lemma prio_bit_spec p : 0 <= p -> BIT (p &&& MASK wordRadix) = 2 ^ (p mod 64).
Proof.
  intros Hp. change (MASK wordRadix) with (Z.ones 6). rewrite Z.land_ones by lia.
  change (2 ^ 6) with 64. pose proof (Z.mod_pos_bound p 64 ltac:(lia)). apply BIT_spec. lia.
Qed.
Lemma pow2_testbit n i : 0 <= n -> 0 <= i -> Z.testbit (2 ^ n) i = bool_decide (i = n).
Proof.
  intros Hn Hi. rewrite Z.pow2_bits_eqb by done. case_bool_decide; lia.
Qed.

Lemma lz_log2 w : 0 < w -> w < 2 ^ 64 -> wsub (wsub wordBits 1) (leading_zeros w) = Z.log2 w.
Proof.
  intros H1 H2. unfold leading_zeros. rewrite bool_decide_false by lia.
  change (wsub wordBits 1) with 63. pose proof (Z.log2_nonneg w).
  assert (Z.log2 w < 64) by (apply Z.log2_lt_pow2; lia).
  rewrite wsub_small by (unfold is_word; lia). lia.
Qed.

Lemma bits_lt_word w : 0 <= w -> (forall i, 64 <= i -> Z.testbit w i = false) -> w < 2 ^ 64.
Proof. intros Hw H. by apply testbit_is_word. Qed.

Lemma row_insert row i j w :
  length row = 4%nat -> 0 <= i < 4 -> 0 <= j < 4 ->
  <[Z.to_nat (3 - i) := w]> row !!! Z.to_nat (3 - j) =
    if decide (j = i) then w else row !!! Z.to_nat (3 - j).
Proof.
  intros Hl Hi Hj. rewrite !list_lookup_total_alt. case_decide; subst.
  - rewrite list_lookup_insert_eq by lia. done.
  - rewrite list_lookup_insert_ne by lia. done.
Qed.

(** Updating a word of each level. *)
Lemma bitmap_shapes l1 l2 f :
  bitmap_ok l1 l2 f ->
  exists w1 row, l1 = [w1] /\ l2 = [row] /\ 0 <= w1 /\ length row = 4%nat /\ Forall (Z.le 0) row.
Proof.
  intros H. destruct (bm_l1 _ _ _ H) as (w1 & -> & ?). destruct (bm_l2 _ _ _ H) as (row & -> & ? & ?).
  eauto 10.
Qed.

Lemma row_nonneg row i : length row = 4%nat -> Forall (Z.le 0) row -> 0 <= i < 4 ->
  0 <= row !!! Z.to_nat (3 - i).
Proof.
  intros Hl Hr Hi. rewrite Forall_lookup in Hr.
  destruct (lookup_lt_is_Some_2 row (Z.to_nat (3 - i)) ltac:(lia)) as [w Hw].
  rewrite (list_lookup_total_correct _ _ _ Hw). eauto.
Qed.

Lemma bitmap_row_eq w1 row f i :
  bitmap_ok [w1] [row] f -> 0 <= i < 4 ->
  row !!! Z.to_nat (3 - i) = 0 <-> (forall b, 0 <= b < 64 -> f (64 * i + b) = false).
Proof.
  intros H Hi. split.
  - intros H0 b Hb. pose proof (bm_row _ _ _ H row i b eq_refl Hi ltac:(lia)) as E.
    rewrite H0, Z.bits_0, bool_decide_true in E by lia. done.
  - intros Hf. apply Z.bits_inj'. intros b Hb. rewrite (bm_row _ _ _ H row i b) by done.
    rewrite Z.bits_0. destruct (decide (b < 64)); [|by rewrite bool_decide_false by lia].
    by rewrite Hf, andb_false_r by lia.
Qed.

(** The same set, bit by bit. *)
Lemma bitmap_change w1 row w1' row' f f' :
  bitmap_ok [w1] [row] f -> 0 <= w1' -> length row' = 4%nat -> Forall (Z.le 0) row' ->
  (forall i, 0 <= i -> Z.testbit w1' i = (bool_decide (i < 4) && (row' !!! Z.to_nat (3 - i) <>w 0))%bool) ->
  (forall i b, 0 <= i < 4 -> 0 <= b ->
    Z.testbit (row' !!! Z.to_nat (3 - i)) b = (bool_decide (b < 64) && f' (64 * i + b))%bool) ->
  bitmap_ok [w1'] [row'] f'.
Proof.
  intros _ H1 H2 H3 H4 H5. split; [eauto|eauto| |].
  - intros w r i [= <-] [= <-]. apply H4.
  - intros r i b [= <-]. apply H5.
Qed.

Definition set_bitmaps (l1 : list Z) (l2 : list (list Z)) s : sst :=
  Sst (tcbs s) (set_L1Bitmap l1 (set_L2Bitmap l2 (gl s))).

Lemma wp_upd_l1 (g : Z -> Z) w1 s (Q : unit -> sst -> Prop) :
  ksReadyQueuesL1Bitmap (gl s) = [w1] ->
  Q tt (Sst (tcbs s) (set_L1Bitmap [g w1] (gl s))) -> wp (upd_l1 0 g) Q s.
Proof.
  intros Hl HQ. unfold upd_l1, gl_get, gl_mod. wp_steps. unfold id. rewrite Hl.
  eapply wp_lift; [done|]. wp_steps. eapply wp_lift; [done|]. by wp_steps.
Qed.

Lemma idx_row row i : length row = 4%nat -> 0 <= i < 4 -> idx row (3 - i) = Ok (row !!! Z.to_nat (3 - i)).
Proof.
  intros Hl Hi. apply idx_Ok; [lia|]. apply list_lookup_lookup_total_lt. lia.
Qed.

Lemma wp_upd_l2 (g : Z -> Z) row i s (Q : unit -> sst -> Prop) :
  ksReadyQueuesL2Bitmap (gl s) = [row] -> length row = 4%nat -> 0 <= i < 4 ->
  Q tt (Sst (tcbs s) (set_L2Bitmap [<[Z.to_nat (3 - i) := g (row !!! Z.to_nat (3 - i))]> row] (gl s))) ->
  wp (upd_l2 0 (3 - i) g) Q s.
Proof.
  intros Hl Hr Hi HQ. unfold upd_l2, gl_get, gl_mod. wp_steps. unfold id. rewrite Hl.
  eapply wp_lift; [done|]. wp_steps. eapply wp_lift; [by apply idx_row|]. wp_steps.
  eapply wp_lift; [apply upd_Ok; lia|]. wp_steps. eapply wp_lift; [done|]. by wp_steps.
Qed.

(** [addToBitmap] adds the priority to the set and touches nothing else. *)
Lemma wp_addToBitmap s f p cpu (Q : unit -> sst -> Prop) :
  bitmap_ok (ksReadyQueuesL1Bitmap (gl s)) (ksReadyQueuesL2Bitmap (gl s)) f -> 0 <= p < 256 ->
  (forall l1 l2, bitmap_ok l1 l2 (fun q => f q || (q =w p))%bool -> Q tt (set_bitmaps l1 l2 s)) ->
  wp (addToBitmap cpu 0 p) Q s.
Proof.
  intros Hb Hp HQ. destruct (prio_split p Hp) as (Hi & Hm & He).
  destruct (bitmap_shapes _ _ _ Hb) as (w1 & row & E1 & E2 & Hw1 & Hlen & Hrow).
  rewrite E1, E2 in Hb. unfold addToBitmap.
  rewrite prio_to_l1index_spec, invert_spec, prio_bit_spec by lia.
  apply wp_bind. eapply wp_upd_l1; [exact E1|]. eapply wp_upd_l2; [exact E2|done|done|].
  cbn [tcbs gl].
  apply (HQ [w1 ||| BIT (p / 64)]
    [<[Z.to_nat (3 - p / 64) := row !!! Z.to_nat (3 - p / 64) ||| 2 ^ (p mod 64)]> row]).
  rewrite BIT_spec by lia.
  pose proof (row_nonneg row (p / 64) Hlen Hrow Hi) as Hnn.
  assert (0 <= row !!! Z.to_nat (3 - p / 64) ||| 2 ^ (p mod 64)) as Hnn'.
  { apply Z.lor_nonneg. split; [done|lia]. }
  eapply bitmap_change; [exact Hb| | | | |].
  - apply Z.lor_nonneg. split; [done|lia].
  - by rewrite length_insert.
  - by apply Forall_insert.
  - intros i Hi'. rewrite Z.lor_spec, pow2_testbit by lia.
    rewrite (bm_top _ _ _ Hb w1 row i) by done.
    destruct (decide (i < 4)); [rewrite bool_decide_true by lia
      |rewrite bool_decide_false by lia; cbn; apply bool_decide_false; lia].
    rewrite row_insert by (done || lia). cbn [andb]. case_decide; subst.
    + rewrite (bool_decide_true (p / 64 = p / 64)) by done. rewrite orb_true_r.
      rewrite bool_decide_false; [done|]. intros H0.
      assert (Z.testbit (row !!! Z.to_nat (3 - p / 64) ||| 2 ^ (p mod 64)) (p mod 64) = false) as Hf
        by by rewrite H0, Z.bits_0.
      rewrite Z.lor_spec, pow2_testbit in Hf by lia.
      rewrite (bool_decide_true (_ = _)) in Hf by done. by rewrite orb_true_r in Hf.
    + rewrite (bool_decide_false (i = p / 64)) by done. by rewrite orb_false_r.
  - intros i b Hi' Hb'. rewrite row_insert by (done || lia). case_decide; subst.
    + rewrite Z.lor_spec, pow2_testbit by lia. rewrite (bm_row _ _ _ Hb row) by done.
      destruct (decide (b < 64)).
      * rewrite bool_decide_true by lia. cbn [andb]. f_equal. apply bool_decide_ext. lia.
      * rewrite bool_decide_false by lia. cbn. apply bool_decide_false. lia.
    + rewrite (bm_row _ _ _ Hb row) by done. destruct (decide (b < 64)).
      * rewrite (bool_decide_false (64 * i + b = p)) by lia. by rewrite orb_false_r.
      * by rewrite !(bool_decide_false (b < 64)) by lia.
Qed.

(** [removeFromBitmap] removes it. *)
Lemma wp_removeFromBitmap s f p cpu (Q : unit -> sst -> Prop) :
  bitmap_ok (ksReadyQueuesL1Bitmap (gl s)) (ksReadyQueuesL2Bitmap (gl s)) f -> 0 <= p < 256 ->
  (forall l1 l2, bitmap_ok l1 l2 (fun q => f q && (q <>w p))%bool -> Q tt (set_bitmaps l1 l2 s)) ->
  wp (removeFromBitmap cpu 0 p) Q s.
Proof.
  intros Hb Hp HQ. destruct (prio_split p Hp) as (Hi & Hm & He).
  destruct (bitmap_shapes _ _ _ Hb) as (w1 & row & E1 & E2 & Hw1 & Hlen & Hrow).
  rewrite E1, E2 in Hb. unfold removeFromBitmap.
  rewrite prio_to_l1index_spec, invert_spec, prio_bit_spec by lia.
  apply wp_bind. eapply wp_upd_l2; [exact E2|done|done|].
  set (w2 := row !!! Z.to_nat (3 - p / 64) &&& wnot (2 ^ (p mod 64))).
  set (row' := <[_ := w2]> row).
  assert (length row' = 4%nat) as Hlen' by (unfold row'; by rewrite length_insert).
  assert (row' !!! Z.to_nat (3 - p / 64) = w2) as Hw2.
  { unfold row'. rewrite row_insert by done. by rewrite decide_True. }
  pose proof (row_nonneg row (p / 64) Hlen Hrow Hi) as Hnn.
  assert (0 <= w2) as Hnn' by (apply Z.land_nonneg; by left).
  assert (forall i b, 0 <= i < 4 -> 0 <= b -> Z.testbit (row' !!! Z.to_nat (3 - i)) b =
    (bool_decide (b < 64) && (f (64 * i + b) && (64 * i + b <>w p)))%bool) as Hrow'.
  { intros i b Hi' Hb'. unfold row'. rewrite row_insert by done. case_decide; subst.
    - unfold w2. rewrite Z.land_spec, wnot_testbit, pow2_testbit by lia.
      rewrite (bm_row _ _ _ Hb row) by done. destruct (decide (b < 64)).
      + rewrite (bool_decide_true (b < 64)) by lia. cbn [andb]. f_equal. f_equal.
        apply bool_decide_ext. lia.
      + by rewrite (bool_decide_false (b < 64)) by lia.
    - rewrite (bm_row _ _ _ Hb row) by done. destruct (decide (b < 64)).
      + rewrite (bool_decide_false (64 * i + b = p)) by lia. cbn. by rewrite andb_true_r.
      + by rewrite !(bool_decide_false (b < 64)) by lia. }
  assert (Forall (Z.le 0) row') as Hfrow by by apply Forall_insert.
  apply wp_bind. unfold get_l2, gl_get. wp_steps. unfold id. cbn [gl ksReadyQueuesL2Bitmap set_L2Bitmap].
  eapply wp_lift; [done|]. eapply wp_lift; [by apply idx_row|]. rewrite Hw2.
  apply wp_when; intros Hz.
  - apply bool_decide_eq_true in Hz. eapply wp_upd_l1; [exact E1|].
    apply (HQ [w1 &&& wnot (BIT (p / 64))] [row']). rewrite BIT_spec by lia.
    eapply bitmap_change; [exact Hb| |done|done| |exact Hrow'].
    + apply Z.land_nonneg. by left.
    + intros i Hi'. rewrite Z.land_spec, wnot_testbit, pow2_testbit by lia.
      rewrite (bm_top _ _ _ Hb w1 row i) by done.
      destruct (decide (i < 4)); [rewrite !(bool_decide_true (i < 4)) by lia
        |by rewrite !(bool_decide_false (i < 4)) by lia].
      unfold row'. rewrite row_insert by (done || lia). cbn [andb].
      rewrite decide_True by lia. case_decide; subst.
      * rewrite (bool_decide_true (p / 64 = p / 64)) by done. rewrite andb_false_r.
        by rewrite bool_decide_true.
      * rewrite (bool_decide_false (i = p / 64)) by done. by rewrite andb_true_r.
  - apply bool_decide_eq_false in Hz.
    replace (Sst _ _) with (set_bitmaps [w1] [row'] s).
    2: { unfold set_bitmaps. rewrite <- E1. by destruct s as [h []]. }
    apply HQ. eapply bitmap_change; [exact Hb|done|done|done| |exact Hrow'].
    intros i Hi'. rewrite (bm_top _ _ _ Hb w1 row i) by done.
    destruct (decide (i < 4)); [|by rewrite !(bool_decide_false (i < 4)) by lia].
    unfold row'. rewrite row_insert by (done || lia). case_decide; subst; [|done].
    rewrite (bool_decide_false (w2 = 0)) by done. rewrite (bool_decide_false (_ = 0)); [done|].
    intros H0. apply Hz. unfold w2. by rewrite H0.
Qed.
End bitmap.

(** The first level is zero exactly for the empty set. *)
Lemma bitmap_empty w1 l2 (f : Z -> bool) :
  bitmap_ok [w1] l2 f -> w1 = 0 <-> (forall p, 0 <= p < 256 -> f p = false).
Proof.
  intros Hb. destruct (bitmap_shapes _ _ _ Hb) as (w & row & [= <-] & -> & Hw & Hlen & Hrow). split.
  - intros -> p Hp. destruct (prio_split p Hp) as (Hi & Hm & ->).
    pose proof (bm_top _ _ _ Hb 0 row (p / 64) eq_refl eq_refl ltac:(lia)) as Ht.
    rewrite Z.bits_0, bool_decide_true in Ht by lia. symmetry in Ht. cbn in Ht.
    rewrite negb_false_iff, bool_decide_eq_true in Ht. by apply (bitmap_row_eq _ _ _ _ Hb Hi).
  - intros Hf. apply Z.bits_inj'. intros i Hi. rewrite (bm_top _ _ _ Hb w1 row), Z.bits_0 by done.
    destruct (decide (i < 4)); [|by rewrite bool_decide_false].
    rewrite (proj2 (bitmap_row_eq _ _ _ i Hb ltac:(lia))); [by rewrite andb_false_r|].
    intros b Hb'. apply Hf. lia.
Qed.

(** The lookup. *)
Lemma highest_prio_spec (s : sst) (f : Z -> bool) (p : Z) :
  bitmap_ok (ksReadyQueuesL1Bitmap (gl s)) (ksReadyQueuesL2Bitmap (gl s)) f ->
  0 <= p < 256 -> f p = true ->
  exists m, getHighestPrio 0 s = Ok (m, s) /\ 0 <= m < 256 /\ f m = true /\
    forall q, 0 <= q < 256 -> f q = true -> q <= m.
Proof.
  intros Hb Hp Hf.
  destruct (bitmap_shapes _ _ _ Hb) as (w1 & row & E1 & E2 & Hw1 & Hlen & Hrow).
  rewrite E1, E2 in Hb.
  assert (forall q, 0 <= q < 256 -> f q = true -> Z.testbit w1 (q / 64) = true) as Htop.
  { intros q Hq Hfq. destruct (prio_split q Hq) as (Hi & Hm & He).
    rewrite (bm_top _ _ _ Hb w1 row) by (done || lia). rewrite bool_decide_true by lia. cbn.
    rewrite bool_decide_false; [done|]. intros H0.
    pose proof (proj1 (bitmap_row_eq _ _ _ _ Hb Hi) H0 (q mod 64) Hm). rewrite <- He in *. congruence. }
  assert (0 < w1) as Hpos.
  { destruct (decide (w1 = 0)) as [->|]; [|lia]. specialize (Htop p Hp Hf). by rewrite Z.bits_0 in Htop. }
  assert (w1 < 2 ^ 64) as Hlt1.
  { apply bits_lt_word; [lia|]. intros i Hi. rewrite (bm_top _ _ _ Hb w1 row) by (done || lia).
    by rewrite bool_decide_false by lia. }
  set (i := Z.log2 w1). pose proof (Z.bit_log2 w1 Hpos) as Hbi. fold i in Hbi.
  assert (0 <= i) as Hi0 by apply Z.log2_nonneg.
  rewrite (bm_top _ _ _ Hb w1 row) in Hbi by done. apply andb_true_iff in Hbi as [Hi4 Hne].
  apply bool_decide_eq_true in Hi4. rewrite negb_true_iff, bool_decide_eq_false in Hne.
  pose proof (row_nonneg row i Hlen Hrow ltac:(lia)) as Hnn.
  set (w2 := row !!! Z.to_nat (3 - i)) in *. assert (0 < w2) as Hpos2 by lia.
  assert (w2 < 2 ^ 64) as Hlt2.
  { apply bits_lt_word; [lia|]. intros b Hb'. unfold w2. rewrite (bm_row _ _ _ Hb row) by (done || lia).
    by rewrite bool_decide_false by lia. }
  set (b := Z.log2 w2). pose proof (Z.bit_log2 w2 Hpos2) as Hbb. fold b in Hbb.
  assert (0 <= b) as Hb0 by apply Z.log2_nonneg.
  unfold w2 in Hbb. rewrite (bm_row _ _ _ Hb row) in Hbb by (done || lia).
  apply andb_true_iff in Hbb as [Hb64 Hfm]. apply bool_decide_eq_true in Hb64.
  assert (l1index_to_prio i ||| b = 64 * i + b) as Hprio.
  { unfold l1index_to_prio. rewrite wshl_spec by (unfold wordRadix; lia).
    change (2 ^ wordRadix) with 64. rewrite wrap_id by (unfold is_word; lia).
    change 64 with (2 ^ 6) at 1. rewrite lor_add by (done || lia). lia. }
  exists (64 * i + b). split; [|split; [lia|split; [done|]]].
  - unfold getHighestPrio, gl_get. unfold mbind, st_bind, gets, id. rewrite E1. cbn [idx lift].
    unfold lift at 1. rewrite (idx_Ok [w1] 0 w1) by done. cbn beta iota.
    rewrite (lz_log2 w1) by done. fold i. rewrite invert_spec by lia. rewrite E2.
    unfold lift at 1. rewrite (idx_Ok [row] 0 row) by done. cbn beta iota.
    unfold lift. rewrite idx_row by (done || lia). fold w2. rewrite (lz_log2 w2) by done. fold b.
    by rewrite Hprio.
  - intros q Hq Hfq. pose proof (Htop q Hq Hfq) as Ht.
    destruct (prio_split q Hq) as (Hqi & Hqm & Hqe).
    assert (q / 64 <= i) as Hle.
    { destruct (decide (q / 64 <= i)); [done|]. rewrite Z.bits_above_log2 in Ht by lia. done. }
    destruct (decide (q / 64 = i)) as [E|]; [|lia].
    assert (q mod 64 <= b); [|lia].
    destruct (decide (q mod 64 <= b)); [done|].
    assert (Z.testbit w2 (q mod 64) = true) as Hc.
    { unfold w2. rewrite (bm_row _ _ _ Hb row) by (done || lia). rewrite bool_decide_true by lia.
      cbn. by rewrite <- E, <- Hqe. }
    rewrite Z.bits_above_log2 in Hc by (fold b; lia). done.
Qed.

(** [getHighestPrio] is the maximum of the set the bitmap represents:
    when some priority is in it, the lookup returns (no index is out of
    bounds) a priority of the set that no other exceeds, and changes nothing. *)
Theorem getHighestPrio_max (s : sst) (f : Z -> bool) (p : Z) :
  bitmap_ok (ksReadyQueuesL1Bitmap (gl s)) (ksReadyQueuesL2Bitmap (gl s)) f ->
  0 <= p < 256 -> f p = true ->
  exists m, getHighestPrio 0 s = Ok (m, s) /\ 0 <= m < 256 /\ f m = true /\
    forall q, 0 <= q < 256 -> f q = true -> q <= m.
Proof. apply highest_prio_spec. Qed.
