(* ===== verification/SchedProps.v ===== *)
(** * The scheduler's queues: properties

    [rq_ok s Q] says that the ready queues, the threads' links, their queued
    flags and the bitmap represent one list of threads per priority, [Q].
    Enqueueing, appending and dequeueing a thread are then operations on [Q];
    every other operation of [Sched.v] keeps the invariant.  [ep_append] and
    [ep_dequeue] are operations on one list of waiting threads. *)

From stdpp Require Import base numbers gmap list.
From S2P Require Import Prelude Bitfield Common DList Sched Bitmap.
Local Open Scope Z_scope.
Local Open Scope krn_scope.

(** ** The links of a thread *)
#[export] Program Instance sched_links : Links tcb_t := {|
  lk_prev := tcbSchedPrev; lk_next := tcbSchedNext;
  lk_set_prev := set_tcbSchedPrev; lk_set_next := set_tcbSchedNext;
  lk_ok := fun _ => true; lk_wf := fun _ => true |}.
Solve All Obligations with done.
Program Definition ep_links : Links tcb_t := {|
  lk_prev := tcbEPPrev; lk_next := tcbEPNext;
  lk_set_prev := set_tcbEPPrev; lk_set_next := set_tcbEPNext;
  lk_ok := fun _ => true; lk_wf := fun _ => true |}.
Solve All Obligations with done.

Definition queue_of (l : list Z) : tcb_queue_t := Queue (head_or 0 l) (last_or 0 l).

(** Threads have a state of three words, a priority and the only domain. *)
Definition tcb_ok (t : tcb_t) : Prop :=
  length (tcbState t) = 3%nat /\ domain t = 0 /\ 0 <= tcbPriority t < 256.
Definition queued (t : tcb_t) : bool := ts_get tcb_queued t <>w 0.

(** The priorities with a thread. *)
Definition nonempty_at (Q : list (list Z)) (p : Z) : bool :=
  match Q !! Z.to_nat p with Some (_ :: _) => bool_decide (0 <= p) | _ => false end.

Record rq_ok (s : sst) (Q : list (list Z)) : Prop := {
  rq_len : length Q = 256%nat;
  rq_queues : ksReadyQueues (gl s) = queue_of <$> Q;
  rq_list : forall p l, Q !! p = Some l -> dlist (hview sched_links (tcbs s)) l;
  rq_mem : forall a t p l, tcbs s !! a = Some t -> Q !! p = Some l ->
    a ∈ l <-> (queued t = true /\ p = Z.to_nat (tcbPriority t));
  rq_bitmap : bitmap_ok (ksReadyQueuesL1Bitmap (gl s)) (ksReadyQueuesL2Bitmap (gl s)) (nonempty_at Q);
  rq_null : tcbs s !! 0 = None;
  rq_tcb : forall a t, tcbs s !! a = Some t -> tcb_ok t;
}.

Section rq.
Implicit Types (s : sst) (Q : list (list Z)) (a p self : Z) (t : tcb_t) (l : list Z).

Lemma wp_on_tcbs {A} (m : ST (gmap Z tcb_t) A) s (P : A -> sst -> Prop) :
  wp m (fun x h => P x (Sst h (gl s))) (tcbs s) -> wp (on_tcbs m) P s.
Proof. unfold wp, on_tcbs. by destruct (m (tcbs s)) as [[? ?]| | |]. Qed.

Lemma wp_tcb_get a t s (P : tcb_t -> sst -> Prop) :
  tcbs s !! a = Some t -> P t s -> wp (tcb_get a) P s.
Proof. intros Ha HP. apply wp_on_tcbs. eapply wp_load; [done|]. by destruct s. Qed.
Lemma wp_tcb_mod a (f : tcb_t -> tcb_t) s (P : unit -> sst -> Prop) :
  is_Some (tcbs s !! a) -> P tt (Sst (alter f a (tcbs s)) (gl s)) -> wp (tcb_mod a f) P s.
Proof. intros Ha HP. apply wp_on_tcbs. by apply wp_store_alter. Qed.
Lemma wp_tcb_mod_ref a (f : tcb_t -> tcb_t) s (P : unit -> sst -> Prop) :
  tcbs s !! 0 = None -> is_Some (tcbs s !! a) ->
  P tt (Sst (alter f a (tcbs s)) (gl s)) -> wp (tcb_mod_ref a f) P s.
Proof.
  intros H0 [t Ha] HP. apply wp_on_tcbs. eapply wp_store_ref; [|done|].
  - intros ->. congruence.
  - by rewrite <- alter_insert_id.
Qed.

Lemma wp_get_sched_queue s Q i l (P : tcb_queue_t -> sst -> Prop) :
  ksReadyQueues (gl s) = queue_of <$> Q -> 0 <= i -> Q !! Z.to_nat i = Some l ->
  P (queue_of l) s -> wp (get_sched_queue i) P s.
Proof.
  intros Hq Hi Hl HP. unfold get_sched_queue, gl_get. wp_steps. unfold id.
  eapply wp_lift; [|exact HP]. apply idx_Ok; [done|]. by rewrite Hq, list_lookup_fmap, Hl.
Qed.

(** The ready queues with one queue changed. *)
Definition set_queue (i : Z) (q : tcb_queue_t) s : sst :=
  Sst (tcbs s) (set_ksReadyQueues (<[Z.to_nat i := q]> (ksReadyQueues (gl s))) (gl s)).

Lemma wp_mod_sched_queue s i (f : tcb_queue_t -> tcb_queue_t) q (P : unit -> sst -> Prop) :
  0 <= i -> ksReadyQueues (gl s) !! Z.to_nat i = Some q ->
  P tt (set_queue i (f q) s) -> wp (mod_sched_queue i f) P s.
Proof.
  intros Hi Hq HP. unfold mod_sched_queue, gl_get, gl_mod. wp_steps. unfold id.
  eapply wp_lift; [by apply idx_Ok|]. wp_steps.
  pose proof (lookup_lt_Some _ _ _ Hq). eapply wp_lift; [apply upd_Ok; lia|]. by wp_steps.
Qed.

Lemma ready_queues_index_spec p : 0 <= p < 256 -> ready_queues_index 0 p = p.
Proof.
  intros Hp. unfold ready_queues_index. change (wmul 0 CONFIG_NUM_PRIORITIES) with 0.
  rewrite Z.add_0_l || rewrite wadd_small by (unfold is_word; lia). lia.
Qed.

(** The queued flag. *)
Lemma queued_set v t :
  length (tcbState t) = 3%nat -> 0 <= v < 2 -> queued (ts_set tcb_queued v t) = (v <>w 0).
Proof.
  intros Hl Hv. unfold queued, ts_get, ts_set. cbn.
  rewrite (bf_get_set_same 3) by done. by rewrite bf_norm_small by (cbn; lia || done).
Qed.
Lemma tcb_ok_ts_set f v t : tcb_ok t -> tcb_ok (ts_set f v t).
Proof. intros (H1 & H2 & H3). split; [|done]. unfold ts_set. cbn. by rewrite bf_set_length. Qed.

(** Threads of a queue are in the heap, with its priority. *)
Lemma rq_elem s Q (p : nat) l a :
  rq_ok s Q -> Q !! p = Some l -> a ∈ l ->
  exists t, tcbs s !! a = Some t /\ queued t = true /\ p = Z.to_nat (tcbPriority t).
Proof.
  intros Hok Hl Ha. destruct (dlist_elem _ _ _ _ (rq_list _ _ Hok _ _ Hl) Ha) as [t Ht].
  exists t. split; [done|]. by apply (rq_mem _ _ Hok a t p l).
Qed.

Lemma rq_lookup s Q p : rq_ok s Q -> 0 <= p < 256 -> exists l, Q !! Z.to_nat p = Some l.
Proof.
  intros Hok Hp. apply lookup_lt_is_Some_2. rewrite (rq_len _ _ Hok). lia.
Qed.

(** The queues of different priorities share no thread. *)
Lemma rq_disjoint s Q (p p' : nat) l l' a :
  rq_ok s Q -> Q !! p = Some l -> Q !! p' = Some l' -> a ∈ l -> a ∈ l' -> p = p'.
Proof.
  intros Hok Hl Hl' Ha Ha'. destruct (rq_elem _ _ _ _ _ Hok Hl Ha) as (t & Ht & _ & ->).
  destruct (rq_elem _ _ _ _ _ Hok Hl' Ha') as (t' & Ht' & _ & ->). congruence.
Qed.

Lemma nonempty_insert Q p l q :
  0 <= p -> (Z.to_nat p < length Q)%nat ->
  nonempty_at (<[Z.to_nat p := l]> Q) q =
    if decide (q = p) then bool_decide (l <> []) else nonempty_at Q q.
Proof.
  intros Hp Hlen. unfold nonempty_at. case_decide as E; subst.
  - rewrite list_lookup_insert_eq by done. destruct l; [done|]. rewrite !bool_decide_true by done. done.
  - destruct (decide (0 <= q)).
    + by rewrite list_lookup_insert_ne by lia.
    + repeat case_match; try done; by rewrite ?bool_decide_false by done.
Qed.

Lemma bitmap_ext l1 (l2 : list (list Z)) (f f' : Z -> bool) :
  (forall p, 0 <= p < 256 -> f p = f' p) -> bitmap_ok l1 l2 f -> bitmap_ok l1 l2 f'.
Proof.
  intros Hf [H1 H2 H3 H4]. split; [done|done|done|].
  intros row i b Hr Hi Hb. rewrite (H4 row) by done.
  destruct (decide (b < 64)); [by rewrite Hf by lia|by rewrite !bool_decide_false by done].
Qed.
End rq.

(** What enqueueing and dequeueing leave alone: the globals other than the
    queues and the bitmap, and everything of a thread but its scheduler links
    and its queued flag. *)
Definition tcb_strip (t : tcb_t) : tcb_t :=
  ts_set tcb_queued 0 (set_tcbSchedNext 0 (set_tcbSchedPrev 0 t)).
Definition gl_strip (g : sched_t) : sched_t :=
  set_ksReadyQueues [] (set_L1Bitmap [] (set_L2Bitmap [] g)).
Definition sched_frame (s s' : sst) : Prop :=
  gl_strip (gl s') = gl_strip (gl s) /\
  forall a, tcb_strip <$> tcbs s' !! a = tcb_strip <$> tcbs s !! a.

Ltac slot_some' := cbn [tcbs set_bitmaps set_queue]; rewrite ?is_Some_alter; by eauto.

Section enqueue.
Implicit Types (s : sst) (Q : list (list Z)) (a p self : Z) (t : tcb_t) (l : list Z).

Lemma sched_frame_refl s : sched_frame s s.
Proof. done. Qed.
Lemma sched_frame_trans s1 s2 s3 : sched_frame s1 s2 -> sched_frame s2 s3 -> sched_frame s1 s3.
Proof.
  intros [H1 H2] [H3 H4]. split; [congruence|]. intros a. by rewrite H4.
Qed.

(** The threads after linking [self] behind [last]. *)
Definition append_tcbs (last self : Z) (h : gmap Z tcb_t) : gmap Z tcb_t :=
  alter (ts_set tcb_queued 1) self (alter (set_tcbSchedNext 0) self
    (alter (set_tcbSchedPrev last) self (alter (set_tcbSchedNext self) last h))).
Definition with_queue s (h : gmap Z tcb_t) p (q : tcb_queue_t) (l1 : list Z) (l2 : list (list Z)) : sst :=
  Sst h (set_L1Bitmap l1 (set_L2Bitmap l2
    (set_ksReadyQueues (<[Z.to_nat p := q]> (ksReadyQueues (gl s))) (gl s)))).

Lemma append_tcbs_self last self h t :
  h !! self = Some t -> last <> self ->
  append_tcbs last self h !! self =
    Some (ts_set tcb_queued 1 (set_tcbSchedNext 0 (set_tcbSchedPrev last t))).
Proof.
  intros Hs Hne. unfold append_tcbs. rewrite !lookup_alter_eq.
  rewrite lookup_alter_ne by done. by rewrite Hs.
Qed.
Lemma append_tcbs_ne last self h a :
  a <> self -> append_tcbs last self h !! a = alter (set_tcbSchedNext self) last h !! a.
Proof. intros Hne. unfold append_tcbs. by rewrite !lookup_alter_ne by done. Qed.

Lemma tcb_strip_next v t : tcb_strip (set_tcbSchedNext v t) = tcb_strip t.
Proof. by destruct t. Qed.
Lemma tcb_strip_prev v t : tcb_strip (set_tcbSchedPrev v t) = tcb_strip t.
Proof. by destruct t. Qed.
Lemma tcb_strip_queued v t :
  length (tcbState t) = 3%nat -> tcb_strip (ts_set tcb_queued v t) = tcb_strip t.
Proof.
  intros Hl. destruct t. cbn in Hl. unfold tcb_strip, ts_set, set_tcbState. cbn -[bf_set].
  by rewrite (bf_set_set 3) by done.
Qed.

Lemma append_frame last self h t a :
  h !! self = Some t -> length (tcbState t) = 3%nat -> last <> self ->
  tcb_strip <$> append_tcbs last self h !! a = tcb_strip <$> h !! a.
Proof.
  intros Hs Hl Hne. destruct (decide (a = self)); subst.
  - rewrite (append_tcbs_self _ _ _ t), Hs by done. cbn [fmap option_fmap option_map]. f_equal.
    by rewrite tcb_strip_queued, tcb_strip_next, tcb_strip_prev.
  - rewrite append_tcbs_ne by done. destruct (decide (a = last)); subst.
    + rewrite lookup_alter_eq. destruct (h !! last); [|done].
      cbn [fmap option_fmap option_map]. by rewrite tcb_strip_next.
    + by rewrite lookup_alter_ne.
Qed.

Lemma append_list s Q p l self t :
  rq_ok s Q -> tcbs s !! self = Some t -> queued t = false -> Q !! Z.to_nat p = Some l ->
  dlist (hview sched_links (append_tcbs (last_or 0 l) self (tcbs s))) (l ++ [self]).
Proof.
  intros Hok Hs Hq Hl. pose proof (rq_list _ _ Hok _ _ Hl) as Hd.
  assert (self ∉ l) as Hn.
  { intros Hin. apply (rq_mem _ _ Hok self t (Z.to_nat p) l) in Hin as [? _]; congruence. }
  assert (self <> 0) as H0 by (intros ->; by rewrite (rq_null _ _ Hok) in Hs).
  assert (last_or 0 l <> self) as Hls.
  { destruct (last_or_elem 0 l) as [->|]; [done|]. intros E. by rewrite E in *. }
  eapply dlist_ext; [|apply (dlist_insert (hview sched_links (tcbs s)) l self [])].
  2: by rewrite app_nil_r. 2: by rewrite app_nil_r. 2: done.
  intros b. change (head_or 0 []) with 0. unfold set_pv'. rewrite decide_True by done.
  destruct (decide (b = self)); subst.
  - rewrite set_nx'_ne by done. rewrite set_lk_eq. unfold hview.
    by rewrite (append_tcbs_self _ _ _ t) by done.
  - unfold hview at 2. rewrite append_tcbs_ne by done.
    change (set_nx' (last_or 0 l) self (set_lk self (last_or 0 l, 0) (hview sched_links (tcbs s))) b
      = hview sched_links (alter (set_tcbSchedNext self) (last_or 0 l) (tcbs s)) b).
    symmetry. etrans; [apply (hview_alter_next' sched_links)|]; [done|apply Hok|done|].
    unfold set_nx', set_nx. repeat case_decide; subst; by rewrite ?set_lk_ne.
Qed.

(** A thread that is not queued is in no ready queue. *)
Lemma unqueued_notin s Q self t (p : nat) l :
  rq_ok s Q -> tcbs s !! self = Some t -> queued t = false -> Q !! p = Some l -> self ∉ l.
Proof.
  intros Hok Hs Hq Hl Hin. apply (rq_mem _ _ Hok self t p l) in Hin as [? _]; congruence.
Qed.

Lemma queued_next v t : queued (set_tcbSchedNext v t) = queued t.
Proof. done. Qed.

(** A change of scheduler links keeps a list whose threads it does not touch. *)
Lemma sched_list_frame h h' l :
  (forall a, a ∈ l -> h' !! a = h !! a) ->
  dlist (hview sched_links h) l -> dlist (hview sched_links h') l.
Proof. intros Hf. apply dlist_frame. intros b Hb. unfold hview. by rewrite Hf. Qed.

Lemma last_or_ne l self : self ∉ l -> self <> 0 -> last_or 0 l <> self.
Proof. intros Hn H0. destruct (last_or_elem 0 l) as [->|]; [done|]. intros E. by rewrite E in *. Qed.

(** What a thread is after the append. *)
Lemma append_lookup s Q self t l a t' :
  rq_ok s Q -> tcbs s !! self = Some t -> last_or 0 l <> self ->
  append_tcbs (last_or 0 l) self (tcbs s) !! a = Some t' ->
  exists t0, tcbs s !! a = Some t0 /\ tcb_ok t' /\ tcbPriority t' = tcbPriority t0 /\
    queued t' = (queued t0 || bool_decide (a = self))%bool.
Proof.
  intros Hok Hs Hls. destruct (decide (a = self)); subst.
  - rewrite (append_tcbs_self _ _ _ t) by done. intros [= <-]. exists t.
    destruct (rq_tcb _ _ Hok _ _ Hs) as (Hlen & Hdom & Hprio).
    split; [done|]. split; [by apply tcb_ok_ts_set|]. split; [done|].
    rewrite queued_set by (done || lia). rewrite (bool_decide_true (self = self)) by done.
    by rewrite orb_true_r.
  - rewrite append_tcbs_ne by done. rewrite (bool_decide_false (a = self)) by done.
    destruct (decide (a = last_or 0 l)) as [->|].
    + rewrite lookup_alter_eq. destruct (tcbs s !! last_or 0 l) as [t0|] eqn:E; [|done].
      intros [= <-]. exists t0. split; [done|]. rewrite orb_false_r.
      split; [exact (rq_tcb _ _ Hok _ _ E)|]. by rewrite queued_next.
    + rewrite lookup_alter_ne by done. intros E. exists t'. rewrite orb_false_r.
      split; [done|]. split; [by eapply rq_tcb|done].
Qed.

Lemma append_mem s Q self t l a t' (p : nat) l' :
  rq_ok s Q -> tcbs s !! self = Some t -> queued t = false ->
  Q !! Z.to_nat (tcbPriority t) = Some l ->
  append_tcbs (last_or 0 l) self (tcbs s) !! a = Some t' ->
  <[Z.to_nat (tcbPriority t) := l ++ [self]]> Q !! p = Some l' ->
  a ∈ l' <-> (queued t' = true /\ p = Z.to_nat (tcbPriority t')).
Proof.
  intros Hok Hs Hq Hl Ha Hp. pose proof (lookup_lt_Some _ _ _ Hl) as Hlt.
  assert (self <> 0) as H0 by (intros ->; by rewrite (rq_null _ _ Hok) in Hs).
  assert (self ∉ l) as Hn by by eapply unqueued_notin.
  destruct (append_lookup s Q self t l a t') as (t0 & Ht0 & _ & -> & ->);
    [done|done|by apply last_or_ne|done|].
  destruct (decide (a = self)) as [->|Has].
  - rewrite Hs in Ht0. injection Ht0 as <-. rewrite (bool_decide_true (self = self)), orb_true_r by done.
    destruct (decide (p = Z.to_nat (tcbPriority t))) as [->|Hne].
    + rewrite list_lookup_insert_eq in Hp by done. injection Hp as <-. set_solver.
    + rewrite list_lookup_insert_ne in Hp by done. split; [|by intros [_ ?]].
      intros Hin. by apply (unqueued_notin s Q self t p l') in Hin.
  - rewrite (bool_decide_false (a = self)), orb_false_r by done.
    destruct (decide (p = Z.to_nat (tcbPriority t))) as [->|Hne].
    + rewrite list_lookup_insert_eq in Hp by done. injection Hp as <-.
      rewrite elem_of_app, list_elem_of_singleton, (rq_mem _ _ Hok a t0 _ l) by done. tauto.
    + rewrite list_lookup_insert_ne in Hp by done. by rewrite (rq_mem _ _ Hok a t0 p l').
Qed.

(** The other queues are not touched. *)
Lemma append_other s Q self t l (p : nat) l' :
  rq_ok s Q -> tcbs s !! self = Some t -> queued t = false ->
  Q !! Z.to_nat (tcbPriority t) = Some l -> Q !! p = Some l' -> p <> Z.to_nat (tcbPriority t) ->
  dlist (hview sched_links (append_tcbs (last_or 0 l) self (tcbs s))) l'.
Proof.
  intros Hok Hs Hq Hl Hp Hne. eapply sched_list_frame; [|by eapply (rq_list _ _ Hok)].
  intros a Ha. assert (a <> self) as Has.
  { intros ->. by apply (unqueued_notin s Q self t p l'). }
  rewrite append_tcbs_ne by done. rewrite lookup_alter_ne; [done|]. intros E.
  destruct (last_or_elem 0 l) as [E0|Hin].
  - rewrite E0 in E. subst a. destruct (rq_elem _ _ _ _ _ Hok Hp Ha) as (t0 & Ht0 & _).
    by rewrite (rq_null _ _ Hok) in Ht0.
  - rewrite E in Hin. apply Hne. by eapply rq_disjoint.
Qed.

Lemma rq_ok_append s Q self t l l1 (l2 : list (list Z)) :
  rq_ok s Q -> tcbs s !! self = Some t -> queued t = false ->
  Q !! Z.to_nat (tcbPriority t) = Some l ->
  bitmap_ok l1 l2 (nonempty_at (<[Z.to_nat (tcbPriority t) := l ++ [self]]> Q)) ->
  rq_ok (with_queue s (append_tcbs (last_or 0 l) self (tcbs s)) (tcbPriority t)
           (queue_of (l ++ [self])) l1 l2)
    (<[Z.to_nat (tcbPriority t) := l ++ [self]]> Q).
Proof.
  intros Hok Hs Hq Hl Hbm.
  assert (self <> 0) as H0 by (intros ->; by rewrite (rq_null _ _ Hok) in Hs).
  assert (self ∉ l) as Hn by by eapply unqueued_notin.
  pose proof (last_or_ne _ _ Hn H0) as Hls. pose proof (lookup_lt_Some _ _ _ Hl) as Hlt.
  split.
  - by rewrite length_insert, (rq_len _ _ Hok).
  - cbn. rewrite (rq_queues _ _ Hok). by rewrite list_fmap_insert.
  - intros p l' Hp. cbn. destruct (decide (p = Z.to_nat (tcbPriority t))) as [->|Hne].
    + rewrite list_lookup_insert_eq in Hp by done. injection Hp as <-. by eapply append_list.
    + rewrite list_lookup_insert_ne in Hp by done. by eapply append_other.
  - intros a t' p l' Ha Hp. by eapply append_mem.
  - exact Hbm.
  - cbn. rewrite append_tcbs_ne by done. apply alter_null_lookup, Hok.
  - intros a t' Ha. cbn in Ha.
    by destruct (append_lookup s Q self t l a t' Hok Hs Hls Ha) as (? & ? & ? & ?).
Qed.

Lemma append_frame_ok s Q self t l p q l1 (l2 : list (list Z)) :
  rq_ok s Q -> tcbs s !! self = Some t -> queued t = false -> last_or 0 l <> self ->
  sched_frame s (with_queue s (append_tcbs (last_or 0 l) self (tcbs s)) p q l1 l2).
Proof.
  intros Hok Hs Hq Hls. split; [done|]. intros a. cbn.
  apply (append_frame _ _ _ t); [done|by eapply rq_tcb|done].
Qed.

Lemma queue_of_head_null s Q (p : nat) l :
  rq_ok s Q -> Q !! p = Some l -> (head (queue_of l) =w 0) = bool_decide (l = []).
Proof.
  intros Hok Hl. destruct (rq_list _ _ Hok _ _ Hl) as (_ & _ & H0).
  destruct l as [|x l]; [done|]. cbn. apply bool_decide_false. set_solver.
Qed.
Lemma queue_of_tail_null s Q (p : nat) l :
  rq_ok s Q -> Q !! p = Some l -> (tail (queue_of l) =w 0) = bool_decide (l = []).
Proof.
  intros Hok Hl. destruct (rq_list _ _ Hok _ _ Hl) as (_ & _ & H0).
  destruct l as [|x l]; [done|]. cbn -[last_or]. rewrite last_or_cons.
  apply bool_decide_false.
  destruct (last_or_elem x l) as [->|]; [set_solver|]. intros E. rewrite E in *. set_solver.
Qed.

(** The tail common to [sched_enqueue] and [sched_append], which differ in
    the end of the queue they test. *)
Definition append_body (test : tcb_queue_t -> bool) (self dom prio : Z) : ST sst unit :=
  queue ← get_sched_queue (ready_queues_index dom prio);
  (if test queue then
     mod_sched_queue (ready_queues_index dom prio) (set_head self) ;;
     addToBitmap (get_cpu self) dom prio
   else tcb_mod_ref (tail queue) (set_tcbSchedNext self)) ;;
  tcb_mod self (set_tcbSchedPrev (tail queue)) ;;
  tcb_mod self (set_tcbSchedNext 0) ;;
  mod_sched_queue (ready_queues_index dom prio) (set_tail self) ;;
  tcb_mod self (ts_set tcb_queued 1).

Lemma wp_append_body test s Q self t l (P : unit -> sst -> Prop) :
  rq_ok s Q -> tcbs s !! self = Some t -> queued t = false ->
  Q !! Z.to_nat (tcbPriority t) = Some l -> test (queue_of l) = bool_decide (l = []) ->
  (forall s', rq_ok s' (<[Z.to_nat (tcbPriority t) := l ++ [self]]> Q) -> sched_frame s s' -> P tt s') ->
  wp (append_body test self (domain t) (tcbPriority t)) P s.
Proof.
  intros Hok Hs Hq Hl Htest HP. destruct (rq_tcb _ _ Hok _ _ Hs) as (Hlen & Hdom & Hprio).
  assert (self <> 0) as H0 by (intros ->; by rewrite (rq_null _ _ Hok) in Hs).
  assert (self ∉ l) as Hn by by eapply unqueued_notin.
  pose proof (last_or_ne _ _ Hn H0) as Hls. pose proof (lookup_lt_Some _ _ _ Hl) as Hlt.
  unfold append_body. rewrite Hdom, ready_queues_index_spec by done.
  set (p := tcbPriority t) in *.
  assert (forall l1 (l2 : list (list Z)),
    bitmap_ok l1 l2 (nonempty_at (<[Z.to_nat p := l ++ [self]]> Q)) ->
    P tt (with_queue s (append_tcbs (last_or 0 l) self (tcbs s)) p (queue_of (l ++ [self])) l1 l2)) as HP'.
  { intros l1 l2 Hb. apply HP; [by apply rq_ok_append|by eapply append_frame_ok]. }
  assert (ksReadyQueues (gl s) !! Z.to_nat p = Some (queue_of l)) as Hqs.
  { by rewrite (rq_queues _ _ Hok), list_lookup_fmap, Hl. }
  apply wp_bind. eapply wp_get_sched_queue; [apply Hok|lia|exact Hl|]. rewrite Htest.
  apply wp_bind. case_bool_decide as El.
  - subst l. apply wp_bind. eapply wp_mod_sched_queue; [lia|exact Hqs|].
    eapply wp_addToBitmap; [apply Hok|done|]. intros l1 l2 Hb.
    apply wp_bind, wp_tcb_mod; [by eauto|]. apply wp_bind, wp_tcb_mod; [slot_some'|].
    apply wp_bind. eapply wp_mod_sched_queue; [lia|cbn; by rewrite list_lookup_insert_eq by
      (rewrite (rq_queues _ _ Hok), length_fmap; done)|].
    apply wp_tcb_mod; [slot_some'|]. cbn.
    assert (append_tcbs 0 self (tcbs s) = alter (ts_set tcb_queued 1) self (alter
      (set_tcbSchedNext 0) self (alter (set_tcbSchedPrev 0) self (tcbs s)))) as E.
    { unfold append_tcbs. f_equal. f_equal. f_equal. apply alter_id'. by rewrite (rq_null _ _ Hok). }
    cbn in HP'. rewrite E in HP'. unfold with_queue in HP'.
    rewrite list_insert_insert_eq. apply HP'. eapply bitmap_ext; [|exact Hb].
    intros q Hq'. rewrite nonempty_insert by lia. case_decide; subst.
    + rewrite (bool_decide_true (p = p)), orb_true_r by done. by rewrite bool_decide_true.
    + rewrite (bool_decide_false (q = p)) by done. by rewrite orb_false_r.
  - assert (last_or 0 l ∈ l) as Hin.
    { destruct l as [|x l]; [done|]. rewrite last_or_cons. destruct (last_or_elem x l) as [->|]; set_solver. }
    destruct (rq_elem _ _ _ _ _ Hok Hl Hin) as (tl & Htl & _).
    apply wp_tcb_mod_ref; [apply Hok|by eauto|].
    apply wp_bind, wp_tcb_mod; [slot_some'|]. apply wp_bind, wp_tcb_mod; [slot_some'|].
    apply wp_bind. eapply wp_mod_sched_queue; [lia|exact Hqs|]. apply wp_tcb_mod; [slot_some'|].
    specialize (HP' (ksReadyQueuesL1Bitmap (gl s)) (ksReadyQueuesL2Bitmap (gl s))).
    unfold with_queue in HP'. unfold queue_of in HP'.
    rewrite last_or_snoc, head_or_app in HP'.
    replace (head_or (head_or 0 [self]) l) with (head_or 0 l) in HP' by by destruct l.
    replace (set_L1Bitmap _ _) with (set_ksReadyQueues (<[Z.to_nat p := Queue (head_or 0 l) self]>
      (ksReadyQueues (gl s))) (gl s)) in HP' by by destruct (gl s).
    apply HP'. eapply bitmap_ext; [|apply Hok].
    intros q Hq'. rewrite nonempty_insert by lia. case_decide; subst; [|done].
    unfold nonempty_at. rewrite Hl. destruct l; [done|]. by rewrite !bool_decide_true by lia || done.
Qed.
End enqueue.

Section dequeue.
Implicit Types (s : sst) (Q : list (list Z)) (a self : Z) (t : tcb_t) (l : list Z).

(** The threads after joining [p] and [n] around [self]. *)
Definition dequeue_tcbs (p n self : Z) (h : gmap Z tcb_t) : gmap Z tcb_t :=
  alter (ts_set tcb_queued 0) self (alter (set_tcbSchedPrev p) n (alter (set_tcbSchedNext n) p h)).

Local Ltac alter_cases a x y z :=
  destruct (decide (a = x)), (decide (a = y)), (decide (a = z)); subst;
  repeat first [rewrite lookup_alter_eq | rewrite lookup_alter_ne by congruence].

(** A property of threads that links do not matter for, and that clearing
    the flag of [self] establishes there, holds after the dequeue. *)
Lemma dequeue_lookup p n self h a t' :
  dequeue_tcbs p n self h !! a = Some t' ->
  exists t0, h !! a = Some t0 /\ domain t' = domain t0 /\ tcbPriority t' = tcbPriority t0 /\
    tcbState t' = if decide (a = self) then bf_set tcb_queued 0 (tcbState t0) else tcbState t0.
Proof.
  unfold dequeue_tcbs. alter_cases a self n p;
  (destruct (h !! _) as [t0|]; intros Ha; [|discriminate Ha]); injection Ha as <-; exists t0;
  repeat case_decide; done || congruence.
Qed.

Lemma dequeue_frame p n self h a :
  (forall t, h !! self = Some t -> length (tcbState t) = 3%nat) ->
  tcb_strip <$> dequeue_tcbs p n self h !! a = tcb_strip <$> h !! a.
Proof.
  intros Hl. unfold dequeue_tcbs. alter_cases a self n p;
    (match goal with |- context [h !! ?x] => destruct (h !! x) as [t0|] eqn:E end; [|done]);
    cbn [fmap option_fmap option_map]; rewrite ?tcb_strip_queued by (cbn; eauto); by rewrite ?tcb_strip_next, ?tcb_strip_prev.
Qed.

Lemma dequeue_list s Q (p : nat) la self lb :
  rq_ok s Q -> Q !! p = Some (la ++ self :: lb) ->
  dlist (hview sched_links (dequeue_tcbs (last_or 0 la) (head_or 0 lb) self (tcbs s))) (la ++ lb).
Proof.
  intros Hok Hl. pose proof (rq_list _ _ Hok _ _ Hl) as Hd.
  eapply dlist_ext; [|apply (dlist_remove _ _ _ _ Hd)]. intros b. symmetry.
  unfold dequeue_tcbs. rewrite hview_alter_keep by done.
  apply (hview_link sched_links); [done|apply Hok|done|done].
Qed.

Lemma nodup_mem la lb self a :
  NoDup (la ++ self :: lb) -> a ∈ la ++ lb <-> (a ∈ la ++ self :: lb /\ a <> self).
Proof.
  intros Hn. apply NoDup_split in Hn as (_ & _ & H1 & H2 & _). rewrite !elem_of_app, elem_of_cons.
  split; [|tauto]. intros [H|H]; (split; [tauto|by intros ->]).
Qed.

Lemma dequeue_other s Q (p p' : nat) la self lb l' :
  rq_ok s Q -> Q !! p = Some (la ++ self :: lb) -> Q !! p' = Some l' -> p' <> p ->
  dlist (hview sched_links (dequeue_tcbs (last_or 0 la) (head_or 0 lb) self (tcbs s))) l'.
Proof.
  intros Hok Hl Hl' Hne. eapply sched_list_frame; [|by eapply (rq_list _ _ Hok)]. intros a Ha.
  assert (a <> 0) as Ha0.
  { destruct (rq_elem _ _ _ _ _ Hok Hl' Ha) as (t0 & Ht0 & _). intros ->.
    by rewrite (rq_null _ _ Hok) in Ht0. }
  assert (a ∉ la ++ self :: lb) as Hn by (intros Hin; apply Hne; by eapply rq_disjoint).
  unfold dequeue_tcbs. rewrite !lookup_alter_ne; [done|..].
  - intros E. destruct (last_or_elem 0 la); [congruence|]. apply Hn. set_solver.
  - intros E. destruct (head_or_elem 0 lb); [congruence|]. apply Hn. set_solver.
  - set_solver.
Qed.

Lemma rq_ok_dequeue s Q (p : nat) la self lb l1 (l2 : list (list Z)) :
  rq_ok s Q -> Q !! p = Some (la ++ self :: lb) ->
  bitmap_ok l1 l2 (nonempty_at (<[p := la ++ lb]> Q)) ->
  rq_ok (with_queue s (dequeue_tcbs (last_or 0 la) (head_or 0 lb) self (tcbs s)) (Z.of_nat p)
           (queue_of (la ++ lb)) l1 l2) (<[p := la ++ lb]> Q).
Proof.
  intros Hok Hl Hbm. pose proof (lookup_lt_Some _ _ _ Hl) as Hlt.
  pose proof (rq_list _ _ Hok _ _ Hl) as (_ & Hnd & _). unfold with_queue. rewrite Nat2Z.id.
  split.
  - by rewrite length_insert, (rq_len _ _ Hok).
  - cbn. by rewrite (rq_queues _ _ Hok), list_fmap_insert.
  - intros p' l' Hp. cbn. destruct (decide (p' = p)) as [->|Hne].
    + rewrite list_lookup_insert_eq in Hp by done. injection Hp as <-. by eapply dequeue_list.
    + rewrite list_lookup_insert_ne in Hp by done. by eapply dequeue_other.
  - intros a t' p' l' Ha Hp. cbn in Ha.
    destruct (dequeue_lookup _ _ _ _ _ _ Ha) as (t0 & Ht0 & _ & -> & Hst).
    pose proof (rq_tcb _ _ Hok _ _ Ht0) as (Hlen & _ & _).
    assert (queued t' = (queued t0 && bool_decide (a <> self))%bool) as ->.
    { unfold queued, ts_get. rewrite Hst. case_decide; subst.
      - rewrite (bf_get_set_same 3) by done. by rewrite (bool_decide_false (_ <> _)), andb_false_r by tauto.
      - by rewrite (bool_decide_true (_ <> _)), andb_true_r by done. }
    rewrite andb_true_iff, bool_decide_eq_true.
    destruct (decide (p' = p)) as [->|Hne].
    + rewrite list_lookup_insert_eq in Hp by done. injection Hp as <-.
      rewrite nodup_mem by done. rewrite (rq_mem _ _ Hok a t0 p _ Ht0 Hl). tauto.
    + rewrite list_lookup_insert_ne in Hp by done. rewrite (rq_mem _ _ Hok a t0 p' _ Ht0 Hp).
      split; [|tauto]. intros [Hq Hp']. split; [|done]. split; [done|]. intros ->. apply Hne.
      rewrite Hp'. destruct (rq_elem _ _ _ _ self Hok Hl) as (t1 & Ht1 & _ & ->); [set_solver|].
      congruence.
  - exact Hbm.
  - cbn. unfold dequeue_tcbs. do 3 apply alter_null_lookup. apply Hok.
  - intros a t' Ha. cbn in Ha. destruct (dequeue_lookup _ _ _ _ _ _ Ha) as (t0 & Ht0 & H1 & H2 & H3).
    destruct (rq_tcb _ _ Hok _ _ Ht0) as (? & ? & ?). split; [|split; [congruence|by rewrite H2]].
    rewrite H3. case_decide; by rewrite ?bf_set_length.
Qed.

Lemma alter_null (h : gmap Z tcb_t) f : h !! 0 = None -> alter f 0 h = h.
Proof. intros H0. apply alter_id'. by rewrite H0. Qed.

(** A queue that keeps a thread keeps its bit. *)
Lemma bitmap_keep s Q (p : nat) l l' :
  rq_ok s Q -> Q !! p = Some l -> l <> [] -> l' <> [] ->
  bitmap_ok (ksReadyQueuesL1Bitmap (gl s)) (ksReadyQueuesL2Bitmap (gl s)) (nonempty_at (<[p := l']> Q)).
Proof.
  intros Hok Hl Hn Hn'. eapply bitmap_ext; [|apply Hok]. intros q Hq.
  pose proof (lookup_lt_Some _ _ _ Hl) as Hlt. rewrite <- (Nat2Z.id p).
  rewrite nonempty_insert by (rewrite ?Nat2Z.id; lia). case_decide; subst; [|done].
  unfold nonempty_at. rewrite Nat2Z.id, Hl. destruct l; [done|].
  rewrite !bool_decide_true by (done || lia). done.
Qed.

Lemma gl_same_bitmaps (g : sched_t) qs :
  set_L1Bitmap (ksReadyQueuesL1Bitmap g) (set_L2Bitmap (ksReadyQueuesL2Bitmap g)
    (set_ksReadyQueues qs g)) = set_ksReadyQueues qs g.
Proof. by destruct g. Qed.

Lemma head_or_null l : 0 ∉ l -> head_or 0 l = 0 -> l = [].
Proof. destruct l; [done|]. cbn. intros H1 ->. set_solver. Qed.
Lemma last_or_null l : 0 ∉ l -> last_or 0 l = 0 -> l = [].
Proof.
  intros H1 H2. destruct l as [|x l]; [done|]. rewrite last_or_cons in H2.
  destruct (last_or_elem x l) as [E|E]; rewrite H2 in E; set_solver.
Qed.

Definition dequeue_body (self : Z) (t : tcb_t) : ST sst unit :=
  _ ← get_sched_queue (ready_queues_index (domain t) (tcbPriority t));
  (if tcbSchedPrev t <>w 0 then
     tcb_mod_ref (tcbSchedPrev t) (set_tcbSchedNext (tcbSchedNext t))
   else
     mod_sched_queue (ready_queues_index (domain t) (tcbPriority t)) (set_head (tcbSchedNext t)) ;;
     when (tcbSchedNext t =w 0) (removeFromBitmap (get_cpu self) (domain t) (tcbPriority t))) ;;
  (if tcbSchedNext t <>w 0 then
     tcb_mod_ref (tcbSchedNext t) (set_tcbSchedPrev (tcbSchedPrev t))
   else mod_sched_queue (ready_queues_index (domain t) (tcbPriority t)) (set_tail (tcbSchedPrev t))) ;;
  tcb_mod self (ts_set tcb_queued 0).

(** The first half of the dequeue: the predecessor or the head. *)
Lemma wp_dequeue_prev s Q self t la lb (P : unit -> sst -> Prop) :
  rq_ok s Q -> tcbs s !! self = Some t -> Q !! Z.to_nat (tcbPriority t) = Some (la ++ self :: lb) ->
  (forall l1 (l2 : list (list Z)),
    bitmap_ok l1 l2 (nonempty_at (<[Z.to_nat (tcbPriority t) := la ++ lb]> Q)) ->
    P tt (with_queue s (alter (set_tcbSchedNext (head_or 0 lb)) (last_or 0 la) (tcbs s)) (tcbPriority t)
      (Queue (head_or 0 (la ++ lb)) (last_or 0 (la ++ self :: lb))) l1 l2)) ->
  wp (if last_or 0 la <>w 0 then
       tcb_mod_ref (last_or 0 la) (set_tcbSchedNext (head_or 0 lb))
     else
       mod_sched_queue (tcbPriority t) (set_head (head_or 0 lb)) ;;
       when (head_or 0 lb =w 0) (removeFromBitmap (get_cpu self) 0 (tcbPriority t))) P s.
Proof.
  intros Hok Hs Hl HP. destruct (rq_tcb _ _ Hok _ _ Hs) as (_ & _ & Hprio).
  pose proof (rq_list _ _ Hok _ _ Hl) as Hd. pose proof Hd as (_ & Hnd & H0).
  pose proof (lookup_lt_Some _ _ _ Hl) as Hlt.
  assert (ksReadyQueues (gl s) !! Z.to_nat (tcbPriority t) = Some (queue_of (la ++ self :: lb))) as Hqs.
  { by rewrite (rq_queues _ _ Hok), list_lookup_fmap, Hl. }
  assert (0 ∉ la /\ 0 ∉ lb) as [Hla Hlb] by set_solver.
  unfold with_queue in HP. case_bool_decide as Ep; cbn [negb].
  - assert (la = []) as -> by by apply last_or_null. cbn [app] in *.
    change (last_or 0 []) with 0 in HP. rewrite alter_null in HP by apply Hok.
    apply wp_bind. eapply wp_mod_sched_queue; [lia|exact Hqs|]. apply wp_when; intros En.
    + apply bool_decide_eq_true in En. assert (lb = []) as -> by by apply head_or_null.
      eapply wp_removeFromBitmap; [apply Hok|done|]. intros l1 l2 Hb. apply HP.
      eapply bitmap_ext; [|exact Hb]. intros q Hq. rewrite nonempty_insert by lia.
      case_decide; subst.
      * rewrite (bool_decide_true (tcbPriority t = _)) by done. cbn. rewrite andb_false_r. done.
      * rewrite (bool_decide_false (q = _)) by done. cbn. by rewrite andb_true_r.
    + apply bool_decide_eq_false in En.
      specialize (HP (ksReadyQueuesL1Bitmap (gl s)) (ksReadyQueuesL2Bitmap (gl s))).
      rewrite gl_same_bitmaps in HP. apply HP. eapply bitmap_keep; [done|done|done|by intros ->].
  - assert (last_or 0 la ∈ la) as Hin by (destruct (last_or_elem 0 la) as [E|]; [congruence|done]).
    specialize (HP (ksReadyQueuesL1Bitmap (gl s)) (ksReadyQueuesL2Bitmap (gl s))).
    rewrite gl_same_bitmaps in HP. destruct la as [|x la]; [done|].
    change (Queue (head_or 0 ((x :: la) ++ lb)) (last_or 0 ((x :: la) ++ self :: lb)))
      with (queue_of ((x :: la) ++ self :: lb)) in HP.
    rewrite (list_insert_id (ksReadyQueues (gl s))) in HP by exact Hqs.
    apply wp_tcb_mod_ref; [apply Hok|eapply (dlist_elem sched_links); [exact Hd|set_solver]|].
    replace (gl s) with (set_ksReadyQueues (ksReadyQueues (gl s)) (gl s)) by by destruct (gl s).
    apply HP. eapply bitmap_keep; [done|done|done|done].
Qed.

Lemma wp_dequeue_body s Q self t la lb (P : unit -> sst -> Prop) :
  rq_ok s Q -> tcbs s !! self = Some t -> Q !! Z.to_nat (tcbPriority t) = Some (la ++ self :: lb) ->
  (forall s', rq_ok s' (<[Z.to_nat (tcbPriority t) := la ++ lb]> Q) -> sched_frame s s' -> P tt s') ->
  wp (dequeue_body self t) P s.
Proof.
  intros Hok Hs Hl HP. destruct (rq_tcb _ _ Hok _ _ Hs) as (Hlen & Hdom & Hprio).
  pose proof (rq_list _ _ Hok _ _ Hl) as Hd. pose proof Hd as (_ & Hnd & H0).
  pose proof (lookup_lt_Some _ _ _ Hl) as Hlt.
  destruct (dlist_links _ _ _ _ _ _ Hd Hs) as [Ep En]. cbn in Ep, En.
  unfold dequeue_body. rewrite Ep, En, Hdom, ready_queues_index_spec by done.
  apply wp_bind. eapply wp_get_sched_queue; [apply Hok|lia|exact Hl|].
  apply wp_bind. eapply wp_dequeue_prev; [done|done|done|]. intros l1 l2 Hb.
  assert (rq_ok (with_queue s (dequeue_tcbs (last_or 0 la) (head_or 0 lb) self (tcbs s))
    (tcbPriority t) (queue_of (la ++ lb)) l1 l2) (<[Z.to_nat (tcbPriority t) := la ++ lb]> Q)) as Hok'.
  { rewrite <- (Z2Nat.id (tcbPriority t)) at 1 by lia. by eapply rq_ok_dequeue. }
  specialize (HP _ Hok'). apply wp_bind.
  assert (P tt (with_queue s (dequeue_tcbs (last_or 0 la) (head_or 0 lb) self (tcbs s))
    (tcbPriority t) (queue_of (la ++ lb)) l1 l2)) as HP'.
  { apply HP. split; [done|]. intros a. cbn. apply dequeue_frame. intros t' Ht'. by eapply (rq_tcb s Q). }
  unfold with_queue, dequeue_tcbs in HP'. clear HP Hok'.
  assert (0 ∉ la /\ 0 ∉ lb) as [Hla Hlb] by set_solver.
  case_bool_decide as E; cbn [negb].
  - assert (lb = []) as -> by by apply head_or_null. rewrite app_nil_r in HP'.
    change (head_or 0 []) with 0 in HP' |- *.
    rewrite (alter_null (alter _ _ _)) in HP' by by apply alter_null_lookup, Hok.
    eapply wp_mod_sched_queue; [lia|cbn; by rewrite list_lookup_insert_eq by
      (rewrite (rq_queues _ _ Hok), length_fmap; done)|].
    apply wp_tcb_mod; [cbn [tcbs set_queue with_queue]; rewrite !is_Some_alter; by eauto|]. cbn. rewrite list_insert_insert_eq.
    rewrite app_nil_r. exact HP'.
  - assert (head_or 0 lb ∈ lb) as Hin by (destruct (head_or_elem 0 lb); [congruence|done]).
    apply wp_tcb_mod_ref; [cbn; by apply alter_null_lookup, Hok| |].
    { cbn. apply is_Some_alter. eapply (dlist_elem sched_links); [exact Hd|set_solver]. }
    apply wp_tcb_mod; [cbn [tcbs with_queue]; rewrite !is_Some_alter; by eauto|].
    replace (last_or 0 (la ++ self :: lb)) with (last_or 0 (la ++ lb)); [exact HP'|].
    rewrite !last_or_app, last_or_cons. destruct lb as [|y lb]; [done|]. by rewrite !last_or_cons.
Qed.
End dequeue.

(** The queues after a thread joins the end of its queue. *)
Definition enqueued (self : Z) (t : tcb_t) (Q : list (list Z)) : list (list Z) :=
  if queued t then Q
  else <[Z.to_nat (tcbPriority t) := (Q !!! Z.to_nat (tcbPriority t)) ++ [self]]> Q.
(** The queues after a thread leaves its queue. *)
Definition dequeued (self : Z) (t : tcb_t) (Q : list (list Z)) : list (list Z) :=
  if queued t
  then <[Z.to_nat (tcbPriority t) := filter (fun a => a <> self) (Q !!! Z.to_nat (tcbPriority t))]> Q
  else Q.

Section queue_ops.
Implicit Types (s : sst) (Q : list (list Z)) (a self : Z) (t : tcb_t) (l : list Z).

Lemma sched_enqueue_body self s t :
  tcbs s !! self = Some t ->
  sched_enqueue self s = if queued t then Ok (tt, s)
    else append_body (fun q => tail q =w 0) self (domain t) (tcbPriority t) s.
Proof.
  intros Ht. unfold sched_enqueue. rewrite (st_bind_Ok _ _ s t s).
  2: { unfold tcb_get, on_tcbs, load. rewrite Ht. by destruct s. }
  unfold queued. by case_bool_decide.
Qed.
Lemma sched_append_body self s t :
  tcbs s !! self = Some t ->
  sched_append self s = if queued t then Ok (tt, s)
    else append_body (fun q => head q =w 0) self (domain t) (tcbPriority t) s.
Proof.
  intros Ht. unfold sched_append. rewrite (st_bind_Ok _ _ s t s).
  2: { unfold tcb_get, on_tcbs, load. rewrite Ht. by destruct s. }
  unfold queued. by case_bool_decide.
Qed.
Lemma sched_dequeue_body self s t :
  tcbs s !! self = Some t ->
  sched_dequeue self s = if queued t then dequeue_body self t s else Ok (tt, s).
Proof.
  intros Ht. unfold sched_dequeue. rewrite (st_bind_Ok _ _ s t s).
  2: { unfold tcb_get, on_tcbs, load. rewrite Ht. by destruct s. }
  unfold queued. by case_bool_decide.
Qed.

Lemma rq_lookup_total s Q self t :
  rq_ok s Q -> tcbs s !! self = Some t ->
  Q !! Z.to_nat (tcbPriority t) = Some (Q !!! Z.to_nat (tcbPriority t)).
Proof.
  intros Hok Hs. destruct (rq_tcb _ _ Hok _ _ Hs) as (_ & _ & Hp).
  apply list_lookup_lookup_total_lt. rewrite (rq_len _ _ Hok). lia.
Qed.

Lemma wp_sched_enqueue s Q self t (P : unit -> sst -> Prop) :
  rq_ok s Q -> tcbs s !! self = Some t ->
  (forall s', rq_ok s' (enqueued self t Q) -> sched_frame s s' -> P tt s') ->
  wp (sched_enqueue self) P s.
Proof.
  intros Hok Hs HP. unfold wp. rewrite (sched_enqueue_body _ _ t Hs). unfold enqueued in HP.
  destruct (queued t) eqn:Eq; [by apply HP|].
  pose proof (rq_lookup_total _ _ _ _ Hok Hs) as Hl.
  eapply (wp_append_body _ s Q self t); [done|done|done|exact Hl| |exact HP].
  by eapply queue_of_tail_null.
Qed.
Lemma wp_sched_append s Q self t (P : unit -> sst -> Prop) :
  rq_ok s Q -> tcbs s !! self = Some t ->
  (forall s', rq_ok s' (enqueued self t Q) -> sched_frame s s' -> P tt s') ->
  wp (sched_append self) P s.
Proof.
  intros Hok Hs HP. unfold wp. rewrite (sched_append_body _ _ t Hs). unfold enqueued in HP.
  destruct (queued t) eqn:Eq; [by apply HP|].
  pose proof (rq_lookup_total _ _ _ _ Hok Hs) as Hl.
  eapply (wp_append_body _ s Q self t); [done|done|done|exact Hl| |exact HP].
  by eapply queue_of_head_null.
Qed.

Lemma filter_ne_notin l self : self ∉ l -> filter (fun a => a <> self) l = l.
Proof.
  induction l as [|x l IH]; intros Hn; [done|]. rewrite filter_cons_True by set_solver.
  rewrite IH by set_solver. done.
Qed.
Lemma filter_ne_split la self lb :
  NoDup (la ++ self :: lb) -> filter (fun a => a <> self) (la ++ self :: lb) = la ++ lb.
Proof.
  intros Hn. apply NoDup_split in Hn as (_ & _ & H1 & H2 & _).
  rewrite filter_app, filter_cons_False by tauto. by rewrite !filter_ne_notin.
Qed.

Lemma wp_sched_dequeue s Q self t (P : unit -> sst -> Prop) :
  rq_ok s Q -> tcbs s !! self = Some t ->
  (forall s', rq_ok s' (dequeued self t Q) -> sched_frame s s' -> P tt s') ->
  wp (sched_dequeue self) P s.
Proof.
  intros Hok Hs HP. unfold wp. rewrite (sched_dequeue_body _ _ t Hs). unfold dequeued in HP.
  destruct (queued t) eqn:Eq; [|by apply HP].
  pose proof (rq_lookup_total _ _ _ _ Hok Hs) as Hl.
  assert (self ∈ Q !!! Z.to_nat (tcbPriority t)) as Hin by by apply (rq_mem _ _ Hok self t _ _ Hs Hl).
  apply list_elem_of_split in Hin as (la & lb & E). rewrite E in Hl.
  eapply (wp_dequeue_body s Q self t); [done|done|exact Hl|].
  rewrite E, filter_ne_split in HP; [exact HP|]. by apply (rq_list _ _ Hok _ _ Hl).
Qed.
End queue_ops.

(** [sched_enqueue] refines the abstract queue: under the representation
    invariant it returns, the invariant holds for the queues where the thread
    has joined the end of the queue of its priority (no change when it was
    queued already), and only scheduler links, queued flags, queues and bitmap
    change. *)
Theorem sched_enqueue_refines (s : sst) (Q : list (list Z)) (self : Z) (t : tcb_t) :
  rq_ok s Q -> tcbs s !! self = Some t ->
  wp (sched_enqueue self) (fun _ s' => rq_ok s' (enqueued self t Q) /\ sched_frame s s') s.
Proof. intros Hok Hs. eapply wp_sched_enqueue; eauto. Qed.

(** [sched_dequeue] refines removal from the queue of the thread's
    priority. *)
Theorem sched_dequeue_refines (s : sst) (Q : list (list Z)) (self : Z) (t : tcb_t) :
  rq_ok s Q -> tcbs s !! self = Some t ->
  wp (sched_dequeue self) (fun _ s' => rq_ok s' (dequeued self t Q) /\ sched_frame s s') s.
Proof. intros Hok Hs. eapply wp_sched_dequeue; eauto. Qed.

(** Under the invariant [sched_append] is [sched_enqueue] (the two test
    different ends of the queue for emptiness). *)
Theorem sched_append_is_enqueue (s : sst) (Q : list (list Z)) (self : Z) (t : tcb_t) :
  rq_ok s Q -> tcbs s !! self = Some t -> sched_append self s = sched_enqueue self s.
Proof.
  intros Hok Hs. rewrite (sched_append_body _ _ _ Hs), (sched_enqueue_body _ _ _ Hs).
  destruct (queued t) eqn:Eq; [done|]. destruct (rq_tcb _ _ Hok _ _ Hs) as (_ & Hd & Hp).
  pose proof (rq_lookup_total _ _ _ _ Hok Hs) as Hl.
  unfold append_body. rewrite Hd, ready_queues_index_spec by done.
  assert (get_sched_queue (tcbPriority t) s =
    Ok (queue_of (Q !!! Z.to_nat (tcbPriority t)), s)) as Eg.
  { unfold get_sched_queue, gl_get, mbind, st_bind, gets, id, lift.
    rewrite (idx_Ok _ _ (queue_of (Q !!! Z.to_nat (tcbPriority t)))); [done|lia|].
    by rewrite (rq_queues _ _ Hok), list_lookup_fmap, Hl. }
  rewrite !(st_bind_Ok _ _ s _ s Eg).
  by rewrite (queue_of_head_null _ _ _ _ Hok Hl), (queue_of_tail_null _ _ _ _ Hok Hl).
Qed.
