(* ===== verification/SchedInv.v ===== *)
(** * The scheduler's operations keep its invariant

    [sched_inv] collects what the thread and scheduler operations rely on: the
    ready queues are represented ([rq_ok]), every thread has a legal state and
    a full register file, and the current thread and a pending scheduler
    action are threads.  Every operation of [Sched.v] returns from a state
    that satisfies it and establishes it again, so any sequence of operations
    does. *)

From stdpp Require Import base numbers gmap list.
From S2P Require Import Prelude Bitfield Common DList Sched Bitmap SchedProps.
Local Open Scope Z_scope.
Local Open Scope krn_scope.

(** A thread's state is a [ThreadState] and its registers are there. *)
Definition thr_ok (t : tcb_t) : Prop :=
  length (tcbArch t) = 37%nat /\ exists st, get_state t = Ok st.

Record sched_inv (s : sst) : Prop := {
  si_rq : exists Q, rq_ok s Q;
  si_thr : forall a t, tcbs s !! a = Some t -> thr_ok t;
  si_cur : is_Some (tcbs s !! ksCurThread (gl s));
  si_act : ksSchedulerAction (gl s) = SchedulerAction_ResumeCurrentThread \/
    ksSchedulerAction (gl s) = SchedulerAction_ChooseNewThread \/
    is_Some (tcbs s !! ksSchedulerAction (gl s));
  si_idx : ksDomScheduleIdx (gl s) = 0;
}.

Section inv.
Implicit Types (s : sst) (Q : list (list Z)) (a self : Z) (t : tcb_t) (l : list Z).

(** The strip of a thread keeps what [thr_ok] looks at. *)
Lemma get_state_strip t : get_state (tcb_strip t) = get_state t.
Proof.
  unfold get_state. f_equal.
  change (bf_get ts_type (bf_set tcb_queued 0 (tcbState t)) = bf_get ts_type (tcbState t)).
  apply (bf_get_set_other 3 3); reflexivity.
Qed.
Lemma thr_ok_strip t : thr_ok (tcb_strip t) <-> thr_ok t.
Proof. unfold thr_ok. rewrite get_state_strip. by destruct t. Qed.

Lemma frame_lookup s s' a :
  sched_frame s s' -> is_Some (tcbs s !! a) <-> is_Some (tcbs s' !! a).
Proof.
  intros [_ Hf]. specialize (Hf a). rewrite <- (fmap_is_Some tcb_strip (tcbs s !! a)).
  rewrite <- (fmap_is_Some tcb_strip (tcbs s' !! a)). by rewrite Hf.
Qed.
Lemma frame_thread s s' a t :
  sched_frame s s' -> tcbs s !! a = Some t ->
  exists t', tcbs s' !! a = Some t' /\ tcb_strip t' = tcb_strip t.
Proof.
  intros [_ Hf] Ht. specialize (Hf a). rewrite Ht in Hf. revert Hf.
  destruct (tcbs s' !! a) as [t'|]; intros Hf; [|discriminate Hf]. exists t'. split; [done|].
  by apply (inj Some) in Hf.
Qed.
Lemma frame_thread_rev s s' a t' :
  sched_frame s s' -> tcbs s' !! a = Some t' ->
  exists t, tcbs s !! a = Some t /\ tcb_strip t' = tcb_strip t.
Proof.
  intros [_ Hf] Ht. specialize (Hf a). rewrite Ht in Hf. revert Hf.
  destruct (tcbs s !! a) as [t|]; intros Hf; [|discriminate Hf]. exists t. split; [done|].
  by apply (inj Some) in Hf.
Qed.
Lemma frame_gl s s' :
  sched_frame s s' ->
  ksCurThread (gl s') = ksCurThread (gl s) /\ ksSchedulerAction (gl s') = ksSchedulerAction (gl s) /\
  ksDomScheduleIdx (gl s') = ksDomScheduleIdx (gl s) /\ ksCurDomain (gl s') = ksCurDomain (gl s) /\
  ksIdleThread (gl s') = ksIdleThread (gl s) /\ ksDomainTime (gl s') = ksDomainTime (gl s).
Proof.
  intros [Hg _]. unfold gl_strip in Hg. destruct (gl s), (gl s'). cbn in *. by simplify_eq.
Qed.
Lemma strip_state t t' : tcb_strip t' = tcb_strip t -> get_state t' = get_state t.
Proof. intros H. by rewrite <- (get_state_strip t), <- H, get_state_strip. Qed.
Lemma strip_prio t t' :
  tcb_strip t' = tcb_strip t -> tcbPriority t' = tcbPriority t /\ domain t' = domain t /\
    tcbTimeSlice t' = tcbTimeSlice t /\ tcbArch t' = tcbArch t.
Proof. destruct t, t'. unfold tcb_strip, ts_set. cbn. intros [=]. done. Qed.

(** What changes queues only keeps the invariant. *)
Lemma sched_inv_frame s s' Q :
  sched_inv s -> sched_frame s s' -> rq_ok s' Q -> sched_inv s'.
Proof.
  intros [H1 H2 H3 H4 H5] Hf Hok. destruct (frame_gl _ _ Hf) as (E1 & E2 & E3 & _).
  split.
  - by exists Q.
  - intros a t Ha. destruct (frame_thread_rev _ _ _ _ Hf Ha) as (t0 & Ht0 & E).
    apply thr_ok_strip. rewrite E. apply thr_ok_strip. eauto.
  - rewrite E1. by apply (frame_lookup _ _ _ Hf).
  - rewrite E2, <- (frame_lookup s s' _ Hf). done.
  - by rewrite E3.
Qed.

(** A change of a thread that the queues do not see. *)
Lemma rq_ok_tcb_mod s Q a (f : tcb_t -> tcb_t) :
  (forall t, tcbs s !! a = Some t -> tcbSchedNext (f t) = tcbSchedNext t /\
    tcbSchedPrev (f t) = tcbSchedPrev t /\ queued (f t) = queued t /\
    tcbPriority (f t) = tcbPriority t /\ tcb_ok (f t)) ->
  rq_ok s Q -> rq_ok (Sst (alter f a (tcbs s)) (gl s)) Q.
Proof.
  intros Hf Hok.
  assert (forall b t', alter f a (tcbs s) !! b = Some t' -> exists t, tcbs s !! b = Some t /\
    tcbSchedNext t' = tcbSchedNext t /\ tcbSchedPrev t' = tcbSchedPrev t /\
    queued t' = queued t /\ tcbPriority t' = tcbPriority t /\ tcb_ok t') as Hl.
  { intros b t' Hb. destruct (decide (b = a)); subst.
    - rewrite lookup_alter_eq in Hb. destruct (tcbs s !! a) as [t|] eqn:E; rewrite ?E in Hb; [|discriminate Hb].
      injection Hb as <-. exists t. by destruct (Hf t eq_refl) as (? & ? & ? & ? & ?).
    - rewrite lookup_alter_ne in Hb by done. exists t'. repeat split; try done.
      all: by eapply rq_tcb. }
  split; cbn; try apply Hok.
  - intros p l Hp. eapply dlist_frame; [|by apply (rq_list _ _ Hok p)]. intros b Hb.
    unfold hview. destruct (decide (b = a)); subst; [|by rewrite lookup_alter_ne].
    rewrite lookup_alter_eq. destruct (tcbs s !! a) as [t|] eqn:E; [|done]. cbn.
    destruct (Hf t eq_refl) as (-> & -> & _). done.
  - intros b t' p l Hb Hp. destruct (Hl _ _ Hb) as (t & Ht & _ & _ & -> & -> & _).
    by apply (rq_mem _ _ Hok).
  - by apply alter_null_lookup, Hok.
  - intros b t' Hb. by destruct (Hl _ _ Hb) as (? & ? & ? & ? & ? & ? & ?).
Qed.

(** A thread in no queue may change its links and its priority. *)
Lemma rq_ok_unqueued_mod s Q a (f : tcb_t -> tcb_t) :
  (forall t, tcbs s !! a = Some t -> queued t = false /\ queued (f t) = false /\ tcb_ok (f t)) ->
  rq_ok s Q -> rq_ok (Sst (alter f a (tcbs s)) (gl s)) Q.
Proof.
  intros Hf Hok.
  assert (forall p l, Q !! p = Some l -> a ∉ l) as Hn.
  { intros p l Hp Hin. destruct (rq_elem _ _ _ _ _ Hok Hp Hin) as (t & Ht & Hq & _).
    destruct (Hf t Ht). congruence. }
  split; cbn; try apply Hok.
  - intros p l Hp. eapply sched_list_frame; [|by apply (rq_list _ _ Hok p)]. intros b Hb.
    rewrite lookup_alter_ne; [done|]. intros ->. by apply (Hn p l).
  - intros b t' p l Hb Hp. destruct (decide (b = a)); subst.
    + rewrite lookup_alter_eq in Hb. destruct (tcbs s !! a) as [t|] eqn:E; rewrite ?E in Hb; [|discriminate Hb].
      injection Hb as <-. destruct (Hf t eq_refl) as (_ & -> & _). split; [|by intros [? _]].
      intros Hin. by apply (Hn p l) in Hin.
    + rewrite lookup_alter_ne in Hb by done. by apply (rq_mem _ _ Hok).
  - by apply alter_null_lookup, Hok.
  - intros b t' Hb. destruct (decide (b = a)); subst.
    + rewrite lookup_alter_eq in Hb. destruct (tcbs s !! a) as [t|] eqn:E; rewrite ?E in Hb; [|discriminate Hb].
      injection Hb as <-. by destruct (Hf t eq_refl) as (_ & _ & ?).
    + rewrite lookup_alter_ne in Hb by done. by eapply rq_tcb.
Qed.
End inv.

Section ops.
Implicit Types (s : sst) (Q : list (list Z)) (a self : Z) (t : tcb_t).

(** Only the current thread, the action, the domain and the threads that do
    not concern the queues matter for [sched_inv] beyond [rq_ok]. *)
Lemma sched_inv_gl s (g : sched_t) :
  sched_inv s -> ksReadyQueues g = ksReadyQueues (gl s) ->
  ksReadyQueuesL1Bitmap g = ksReadyQueuesL1Bitmap (gl s) ->
  ksReadyQueuesL2Bitmap g = ksReadyQueuesL2Bitmap (gl s) ->
  is_Some (tcbs s !! ksCurThread g) ->
  (ksSchedulerAction g = SchedulerAction_ResumeCurrentThread \/
   ksSchedulerAction g = SchedulerAction_ChooseNewThread \/
   is_Some (tcbs s !! ksSchedulerAction g)) ->
  ksDomScheduleIdx g = 0 -> sched_inv (Sst (tcbs s) g).
Proof.
  intros [(Q & Hok) H2 H3 H4 H5] E1 E2 E3 Hc Ha Hi. split; try done.
  exists Q. destruct Hok. split; cbn; rewrite ?E1, ?E2, ?E3; done.
Qed.

Lemma wp_set_action s v (P : unit -> sst -> Prop) :
  sched_inv s ->
  (v = SchedulerAction_ResumeCurrentThread \/ v = SchedulerAction_ChooseNewThread \/
   is_Some (tcbs s !! v)) ->
  (forall s', sched_inv s' -> tcbs s' = tcbs s -> ksCurThread (gl s') = ksCurThread (gl s) -> P tt s') ->
  wp (set_ks_scheduler_action v) P s.
Proof.
  intros Hi Hv HP. unfold set_ks_scheduler_action, gl_mod. apply wp_modify. apply HP; [|done|done].
  apply sched_inv_gl; try done; apply Hi.
Qed.

Lemma inv_get s a t : sched_inv s -> tcbs s !! a = Some t -> tcb_get a s = Ok (t, s).
Proof. intros _ Ht. unfold tcb_get, on_tcbs, load. rewrite Ht. by destruct s. Qed.

Lemma inv_enqueue s a (P : unit -> sst -> Prop) :
  sched_inv s -> is_Some (tcbs s !! a) ->
  (forall s', sched_inv s' -> sched_frame s s' -> P tt s') -> wp (sched_enqueue a) P s.
Proof.
  intros Hi [t Ht] HP. destruct (si_rq _ Hi) as [Q Hok].
  eapply wp_sched_enqueue; [done|done|]. intros s' Hok' Hf. apply HP; [|done].
  by eapply sched_inv_frame.
Qed.
Lemma inv_append s a (P : unit -> sst -> Prop) :
  sched_inv s -> is_Some (tcbs s !! a) ->
  (forall s', sched_inv s' -> sched_frame s s' -> P tt s') -> wp (sched_append a) P s.
Proof.
  intros Hi [t Ht] HP. destruct (si_rq _ Hi) as [Q Hok].
  eapply wp_sched_append; [done|done|]. intros s' Hok' Hf. apply HP; [|done].
  by eapply sched_inv_frame.
Qed.

(** After a dequeue the thread is not queued. *)
Lemma dequeued_out s s' Q self t t' :
  rq_ok s Q -> tcbs s !! self = Some t -> rq_ok s' (dequeued self t Q) -> sched_frame s s' ->
  tcbs s' !! self = Some t' -> queued t' = false.
Proof.
  intros Hok Hs Hok' Hf Ht'. destruct (frame_thread _ _ _ _ Hf Hs) as (t1 & Ht1 & E).
  rewrite Ht' in Ht1. injection Ht1 as <-. destruct (strip_prio _ _ E) as (Ep & _).
  destruct (queued t') eqn:Eq; [|done]. exfalso.
  pose proof (rq_lookup_total _ _ _ _ Hok Hs) as Hl. pose proof (lookup_lt_Some _ _ _ Hl) as Hlt.
  unfold dequeued in Hok'. destruct (queued t) eqn:Eq0.
  - assert (self ∈ filter (fun a => a <> self) (Q !!! Z.to_nat (tcbPriority t))) as Hin.
    { eapply (rq_mem _ _ Hok' self t' (Z.to_nat (tcbPriority t))); [done| |by rewrite Ep].
      by rewrite list_lookup_insert_eq. }
    apply list_elem_of_filter in Hin as [? _]. done.
  - assert (self ∈ Q !!! Z.to_nat (tcbPriority t)) as Hin.
    { eapply (rq_mem _ _ Hok' self t' (Z.to_nat (tcbPriority t))); [done|done|by rewrite Ep]. }
    apply (rq_mem _ _ Hok self t _ _ Hs Hl) in Hin as [? _]. congruence.
Qed.

Lemma inv_dequeue s a (P : unit -> sst -> Prop) :
  sched_inv s -> is_Some (tcbs s !! a) ->
  (forall s', sched_inv s' -> sched_frame s s' ->
     (forall t', tcbs s' !! a = Some t' -> queued t' = false) -> P tt s') ->
  wp (sched_dequeue a) P s.
Proof.
  intros Hi [t Ht] HP. destruct (si_rq _ Hi) as [Q Hok].
  eapply wp_sched_dequeue; [done|done|]. intros s' Hok' Hf. apply HP; [by eapply sched_inv_frame|done|].
  intros t' Ht'. by eapply (dequeued_out s s' Q a t).
Qed.

(** What every operation establishes: the invariant, and the same threads. *)
Definition keeps (s : sst) (s' : sst) : Prop :=
  sched_inv s' /\ forall a, is_Some (tcbs s !! a) <-> is_Some (tcbs s' !! a).

Lemma keeps_refl s : sched_inv s -> keeps s s.
Proof. done. Qed.
Lemma keeps_trans s1 s2 s3 : keeps s1 s2 -> keeps s2 s3 -> keeps s1 s3.
Proof. intros [_ H1] [? H2]. split; [done|]. intros a. by rewrite H1. Qed.
Lemma wp_keeps_from {A} (m : ST sst A) s s1 :
  keeps s s1 -> wp m (fun _ => keeps s1) s1 -> wp m (fun _ => keeps s) s1.
Proof.
  intros Hk Hm. eapply wp_mono; [exact Hm|]. intros x s2 Hk2. exact (keeps_trans _ _ _ Hk Hk2).
Qed.
Lemma keeps_frame s s' : sched_inv s' -> sched_frame s s' -> keeps s s'.
Proof. intros Hi Hf. split; [done|]. intros a. by apply frame_lookup. Qed.

(** [keeps] composes along a sequence. *)
Lemma wp_keeps_bind {A} (m : ST sst unit) (f : unit -> ST sst A) s (P : A -> sst -> Prop) :
  wp m (fun _ => keeps s) s ->
  (forall s1, keeps s s1 -> wp (f tt) P s1) -> wp (m ≫= f) P s.
Proof.
  intros Hm Hf. apply wp_bind. eapply wp_mono; [exact Hm|]. intros [] s1 Hk. auto.
Qed.

Lemma keeps_action s v :
  sched_inv s ->
  (v = SchedulerAction_ResumeCurrentThread \/ v = SchedulerAction_ChooseNewThread \/
   is_Some (tcbs s !! v)) ->
  wp (set_ks_scheduler_action v) (fun _ => keeps s) s.
Proof.
  intros Hi Hv. eapply wp_set_action; [done|done|]. intros s' Hi' E _. split; [done|].
  intros a. by rewrite E.
Qed.
Lemma keeps_enqueue s a :
  sched_inv s -> is_Some (tcbs s !! a) -> wp (sched_enqueue a) (fun _ => keeps s) s.
Proof. intros Hi Ha. eapply inv_enqueue; [done|done|]. intros. by apply keeps_frame. Qed.
Lemma keeps_append s a :
  sched_inv s -> is_Some (tcbs s !! a) -> wp (sched_append a) (fun _ => keeps s) s.
Proof. intros Hi Ha. eapply inv_append; [done|done|]. intros. by apply keeps_frame. Qed.
Lemma keeps_dequeue s a :
  sched_inv s -> is_Some (tcbs s !! a) ->
  wp (sched_dequeue a) (fun _ s' => keeps s s' /\
    forall t', tcbs s' !! a = Some t' -> queued t' = false) s.
Proof.
  intros Hi Ha. eapply inv_dequeue; [done|done|]. intros. split; [by apply keeps_frame|done].
Qed.

Lemma keeps_reschedule s : sched_inv s -> wp rescheduleRequired (fun _ => keeps s) s.
Proof.
  intros Hi. unfold rescheduleRequired, get_ks_scheduler_action, gl_get. do 2 wp_step.
  apply wp_bind. apply wp_when; intros Hb.
  - apply andb_true_iff in Hb as [H1 H2]. rewrite negb_true_iff, bool_decide_eq_false in H1, H2.
    destruct (si_act _ Hi) as [|[|Ha]]; [done|done|].
    apply wp_bind, wp_assert; [by rewrite bool_decide_false by done|].
    eapply wp_mono; [by apply keeps_enqueue|]. intros [] s1 Hk.
    eapply wp_mono; [apply keeps_action; [apply Hk|by right; left]|].
    intros [] s2 Hk2. by eapply keeps_trans.
  - apply keeps_action; [done|by right; left].
Qed.

(** A change of one thread that neither the queues nor [thr_ok] notice. *)
Lemma keeps_mod s a (f : tcb_t -> tcb_t) :
  sched_inv s -> is_Some (tcbs s !! a) ->
  (forall t, tcbs s !! a = Some t -> tcb_ok t -> thr_ok t -> tcbSchedNext (f t) = tcbSchedNext t /\
    tcbSchedPrev (f t) = tcbSchedPrev t /\ queued (f t) = queued t /\
    tcbPriority (f t) = tcbPriority t /\ tcb_ok (f t) /\ thr_ok (f t)) ->
  wp (tcb_mod a f) (fun _ => keeps s) s.
Proof.
  intros Hi Ha Hf. destruct (si_rq _ Hi) as [Q Hok]. apply wp_tcb_mod; [done|].
  assert (rq_ok (Sst (alter f a (tcbs s)) (gl s)) Q) as Hok'.
  { apply rq_ok_tcb_mod; [|done]. intros t Ht.
    destruct (Hf t Ht) as (? & ? & ? & ? & ? & ?); [by eapply rq_tcb|by eapply si_thr|]. done. }
  split; [|intros b; cbn; by rewrite is_Some_alter].
  split; cbn; rewrite ?is_Some_alter; try apply Hi; [by eauto|].
  intros b t' Hb. destruct (decide (b = a)); subst.
  - rewrite lookup_alter_eq in Hb. destruct (tcbs s !! a) as [t|] eqn:E; rewrite ?E in Hb; [|discriminate Hb].
    apply (inj Some) in Hb. subst. destruct (Hf t eq_refl) as (_ & _ & _ & _ & _ & ?); [by apply (rq_tcb _ _ Hok a)|by apply (si_thr _ Hi a)|done].
  - rewrite lookup_alter_ne in Hb by done. by eapply si_thr.
Qed.

(** Writing a legal thread state. *)
Lemma state_written t st :
  length (tcbState t) = 3%nat -> get_state (ts_set ts_type (ThreadState_to_usize st) t) = Ok st.
Proof.
  intros Hl. unfold get_state, ts_get, ts_set. cbn [tcbState set_tcbState].
  rewrite (bf_get_set_same 3) by done.
  rewrite bf_norm_small; [by destruct st|done|done|cbn; lia|destruct st; cbn; lia].
Qed.
Lemma queued_ts_type v t : queued (ts_set ts_type v t) = queued t.
Proof.
  unfold queued, ts_get, ts_set. cbn [tcbState set_tcbState].
  by rewrite (bf_get_set_other 3 3) by reflexivity.
Qed.

Lemma keeps_schedule_tcb s a : sched_inv s -> is_Some (tcbs s !! a) -> wp (schedule_tcb a) (fun _ => keeps s) s.
Proof.
  intros Hi [t Ht]. unfold schedule_tcb, get_currenct_thread_unsafe, get_ks_scheduler_action, gl_get.
  wp_steps. destruct (_ && _)%bool; [|by apply keeps_refl].
  apply wp_bind. eapply wp_tcb_get; [done|]. destruct (si_thr _ Hi _ _ Ht) as (_ & st & Est).
  apply wp_bind. eapply wp_lift; [unfold is_runnable; by rewrite Est|].
  apply wp_when; intros _; [by apply keeps_reschedule|by apply keeps_refl].
Qed.

Lemma keeps_set_thread_state s a st :
  sched_inv s -> is_Some (tcbs s !! a) -> wp (set_thread_state a st) (fun _ => keeps s) s.
Proof.
  intros Hi Ha. unfold set_thread_state. apply wp_keeps_bind.
  - apply keeps_mod; [done|done|]. intros t Ht Hok Hthr. split; [done|]. split; [done|].
    split; [apply queued_ts_type|]. split; [done|]. split; [by apply tcb_ok_ts_set|].
    split; [apply Hthr|]. exists st. apply state_written, Hok.
  - intros s1 Hk. eapply wp_mono; [apply keeps_schedule_tcb; [apply Hk|by apply Hk]|].
    intros [] s2 Hk2. by eapply keeps_trans.
Qed.

Lemma keeps_possible_switch_to s a :
  sched_inv s -> is_Some (tcbs s !! a) -> wp (possible_switch_to a) (fun _ => keeps s) s.
Proof.
  intros Hi Ha. destruct Ha as [t Ht]. unfold possible_switch_to, get_ks_scheduler_action, gl_get.
  wp_steps. eapply wp_tcb_get; [done|]. destruct (negb _); [by apply keeps_enqueue; eauto|].
  wp_steps. destruct (negb _); [|by apply keeps_action; eauto].
  apply wp_keeps_bind; [by apply keeps_reschedule|]. intros s1 Hk.
  eapply wp_mono; [apply keeps_enqueue; [apply Hk|apply Hk; by eauto]|].
  intros [] s2 Hk2. by eapply keeps_trans.
Qed.

Lemma cur_nonzero s : sched_inv s -> ksCurThread (gl s) <> 0.
Proof.
  intros Hi E. destruct (si_cur _ Hi) as [t Ht], (si_rq _ Hi) as [Q Hok].
  by rewrite E, (rq_null _ _ Hok) in Ht.
Qed.
Lemma wp_cur s (P : Z -> sst -> Prop) :
  sched_inv s -> P (ksCurThread (gl s)) s -> wp get_currenct_thread P s.
Proof.
  intros Hi HP. unfold get_currenct_thread, gl_get. wp_steps.
  apply wp_assert; [|by apply wp_ret]. by rewrite bool_decide_false by by apply cur_nonzero.
Qed.

(** Changing a thread that is in no queue. *)
Lemma keeps_unqueued_mod s a (f : tcb_t -> tcb_t) :
  sched_inv s -> is_Some (tcbs s !! a) ->
  (forall t, tcbs s !! a = Some t -> queued t = false) ->
  (forall t, tcb_ok t -> thr_ok t -> queued (f t) = queued t /\ tcb_ok (f t) /\ thr_ok (f t)) ->
  wp (tcb_mod a f) (fun _ => keeps s) s.
Proof.
  intros Hi Ha Hq Hf. destruct (si_rq _ Hi) as [Q Hok]. apply wp_tcb_mod; [done|].
  assert (rq_ok (Sst (alter f a (tcbs s)) (gl s)) Q) as Hok'.
  { apply rq_ok_unqueued_mod; [|done]. intros t Ht.
    destruct (Hf t) as (E & ? & ?); [by eapply rq_tcb|by eapply si_thr|].
    rewrite E. rewrite (Hq t Ht). done. }
  split; [|intros b; cbn; by rewrite is_Some_alter].
  split; cbn; rewrite ?is_Some_alter; try apply Hi; [by eauto|].
  intros b t' Hb. destruct (decide (b = a)); subst.
  - rewrite lookup_alter_eq in Hb. destruct (tcbs s !! a) as [t|] eqn:E; rewrite ?E in Hb; [|discriminate Hb].
    apply (inj Some) in Hb. subst. destruct (Hf t) as (_ & _ & ?); [by apply (rq_tcb _ _ Hok a)|by apply (si_thr _ Hi a)|done].
  - rewrite lookup_alter_ne in Hb by done. by eapply si_thr.
Qed.

Lemma keeps_set_priority s a p :
  sched_inv s -> is_Some (tcbs s !! a) -> 0 <= p < 256 -> wp (set_priority a p) (fun _ => keeps s) s.
Proof.
  intros Hi Ha Hp. unfold set_priority. apply wp_bind.
  eapply wp_mono; [by apply keeps_dequeue|]. intros [] s1 [Hk Hq].
  apply wp_bind. eapply wp_mono; [apply keeps_unqueued_mod; [apply Hk|by apply Hk|done|]|].
  { intros t (? & ? & ?) ?. done. }
  intros [] s2 Hk2. pose proof (keeps_trans _ _ _ Hk Hk2) as Hk'.
  assert (is_Some (tcbs s2 !! a)) as [t Ht] by by apply Hk'.
  apply wp_bind. eapply wp_tcb_get; [done|].
  destruct (si_thr _ (proj1 Hk') _ _ Ht) as (_ & st & Est).
  apply wp_bind. eapply wp_lift; [unfold is_runnable; by rewrite Est|].
  destruct (match st with ThreadStateRunning => _ | _ => _ end); [|done].
  unfold is_current. apply wp_bind. wp_step. apply wp_cur; [apply Hk'|]. wp_step.
  destruct (bool_decide _); (eapply wp_keeps_from; [exact Hk'|]).
  - apply keeps_reschedule, Hk'.
  - apply keeps_possible_switch_to; [apply Hk'|by eauto].
Qed.

Lemma keeps_suspend s a :
  sched_inv s -> is_Some (tcbs s !! a) -> wp (suspend a) (fun _ => keeps s) s.
Proof.
  intros Hi Ha. destruct Ha as [t Ht]. unfold suspend. apply wp_bind. eapply wp_tcb_get; [done|].
  destruct (si_thr _ Hi _ _ Ht) as (Hlen & st & Est).
  apply wp_bind. eapply wp_lift; [exact Est|]. apply wp_keeps_bind.
  - apply wp_when; intros _; [|by apply keeps_refl].
    destruct (lookup_lt_is_Some_2 (tcbArch t) 34 ltac:(lia)) as [v Hv].
    apply wp_bind. eapply (wp_lift _ _ _ v); [unfold get_register; cbn; by apply idx_Ok|].
    apply wp_bind. eapply wp_lift; [unfold set_register; cbn; apply upd_Ok; lia|].
    apply keeps_mod; [done|by eauto|]. intros t' Ht' (? & ? & ?) [? Hst]. repeat split; cbn; try done; try lia.
    by rewrite length_insert.
  - intros s1 Hk. apply wp_bind. eapply wp_mono; [apply keeps_set_thread_state; [apply Hk|apply Hk; by eauto]|].
    intros [] s2 Hk2. pose proof (keeps_trans _ _ _ Hk Hk2) as Hk'.
    eapply wp_mono; [apply keeps_dequeue; [apply Hk'|apply Hk'; by eauto]|].
    intros [] s3 [Hk3 _]. by eapply keeps_trans.
Qed.

Lemma keeps_timerTick s : sched_inv s -> wp timerTick (fun _ => keeps s) s.
Proof.
  intros Hi. unfold timerTick. apply wp_bind, wp_cur; [done|]. destruct (si_cur _ Hi) as [t Ht].
  apply wp_bind. eapply wp_tcb_get; [done|]. destruct (si_thr _ Hi _ _ Ht) as (_ & st & Est).
  apply wp_bind. eapply wp_lift; [exact Est|]. apply wp_when; intros _; [|by apply keeps_refl].
  case_decide.
  - apply keeps_mod; [done|by eauto|]. intros t' _ (? & ? & ?) [? ?]. done.
  - apply wp_keeps_bind; [apply keeps_mod; [done|by eauto|]; by intros t' _ (? & ? & ?) [? ?]|].
    intros s1 Hk. apply wp_bind.
    eapply wp_mono; [apply keeps_append; [apply Hk|apply Hk; by eauto]|].
    intros [] s2 Hk2. eapply wp_mono; [apply keeps_reschedule, Hk2|].
    intros [] s3 Hk3. eapply keeps_trans; [done|]. by eapply keeps_trans.
Qed.

Lemma keeps_set_domain s a :
  sched_inv s -> is_Some (tcbs s !! a) -> wp (set_domain a 0) (fun _ => keeps s) s.
Proof.
  intros Hi Ha. unfold set_domain. apply wp_bind.
  eapply wp_mono; [by apply keeps_dequeue|]. intros [] s1 [Hk Hq].
  apply wp_bind. eapply wp_mono; [apply keeps_unqueued_mod; [apply Hk|by apply Hk|done|]|].
  { intros t (? & ? & ?) ?. done. }
  intros [] s2 Hk2. pose proof (keeps_trans _ _ _ Hk Hk2) as Hk'.
  assert (is_Some (tcbs s2 !! a)) as [t Ht] by by apply Hk'.
  apply wp_bind. eapply wp_tcb_get; [done|].
  destruct (si_thr _ (proj1 Hk') _ _ Ht) as (_ & st & Est).
  apply wp_bind. eapply wp_lift; [unfold is_runnable; by rewrite Est|].
  apply wp_bind. eapply (wp_mono _ (fun _ => keeps s)).
  - apply wp_when; intros _; [|done].
    apply (wp_keeps_from _ _ _ Hk'). apply keeps_enqueue; [apply Hk'|by eauto].
  - intros [] s3 Hk3. unfold is_current. apply wp_bind. wp_step. apply wp_cur; [apply Hk3|]. wp_step.
    apply wp_when; intros _; [|done]. apply (wp_keeps_from _ _ _ Hk3), keeps_reschedule, Hk3.
Qed.

Lemma keeps_nextDomain s : sched_inv s -> wp nextDomain (fun _ => keeps s) s.
Proof.
  intros Hi. unfold nextDomain, gl_mod, gl_get. wp_steps. cbn. rewrite (si_idx _ Hi). cbn.
  repeat (wp_steps; cbn; rewrite ?(si_idx _ Hi)). split; [|done].
  cbn. by apply (sched_inv_gl s); try done; apply Hi.
Qed.

(** [activateThread] is called with a current thread that may run. *)
Lemma keeps_activateThread s t st :
  sched_inv s -> tcbs s !! ksCurThread (gl s) = Some t -> get_state t = Ok st ->
  st = ThreadStateRunning \/ st = ThreadStateRestart \/ st = ThreadStateIdleThreadState ->
  wp activateThread (fun _ => keeps s) s.
Proof.
  intros Hi Ht Est Hst. unfold activateThread. apply wp_bind, wp_cur; [done|].
  apply wp_bind. eapply wp_tcb_get; [done|]. apply wp_bind. eapply wp_lift; [exact Est|].
  destruct (si_thr _ Hi _ _ Ht) as (Hlen & _).
  destruct Hst as [-> | [-> | ->]]; [by apply keeps_refl| |by apply keeps_refl].
  destruct (lookup_lt_is_Some_2 (tcbArch t) 34 ltac:(lia)) as [v Hv].
  apply wp_bind. eapply (wp_lift _ _ _ v); [unfold get_register; cbn; by apply idx_Ok|].
  apply wp_bind. eapply wp_lift; [unfold set_register; cbn; apply upd_Ok; lia|].
  apply wp_keeps_bind.
  - apply keeps_mod; [done|by eauto|]. intros t' Ht' (? & ? & ?) [? Hst].
    repeat split; cbn; try done; try lia. by rewrite length_insert.
  - intros s1 Hk. apply (wp_keeps_from _ _ _ Hk), keeps_set_thread_state; [apply Hk|].
    apply Hk. by eauto.
Qed.

Lemma keeps_field s a (f : tcb_t -> tcb_t) :
  (forall t, tcbArch (f t) = tcbArch t /\ tcbState (f t) = tcbState t /\ domain (f t) = domain t /\ tcbPriority (f t) = tcbPriority t /\ tcbSchedNext (f t) = tcbSchedNext t /\ tcbSchedPrev (f t) = tcbSchedPrev t) ->
  sched_inv s -> is_Some (tcbs s !! a) -> wp (tcb_mod a f) (fun _ => keeps s) s.
Proof.
  intros Hf Hi Ha. apply keeps_mod; [done|done|]. intros t _ Ho Hth.
  destruct (Hf t) as (E1 & E2 & E3 & E4 & E5 & E6).
  unfold tcb_ok, thr_ok, queued, get_state, ts_get in *. by rewrite E1, E2, E3, E4, E5, E6.
Qed.
End ops.

(** ** Any sequence of operations

    The operations a system call or an interrupt performs on threads and the
    scheduler.  [CONFIG_NUM_DOMAINS] is one, so the only domain a thread can
    be given is 0. *)
Inductive sched_op : Type :=
| OpEnqueue (a : Z) | OpAppend (a : Z) | OpDequeue (a : Z) | OpReschedule
| OpScheduleTcb (a : Z) | OpPossibleSwitchTo (a : Z) | OpSetState (a : Z) (st : ThreadState)
| OpSetPriority (a p : Z) | OpSetMCPriority (a p : Z) | OpSetDomain (a : Z) | OpSuspend (a : Z)
| OpBindNotification (a n : Z) | OpUnbindNotification (a : Z) | OpTimerTick | OpNextDomain.

Definition run_op (o : sched_op) : ST sst unit :=
  match o with
  | OpEnqueue a => sched_enqueue a
  | OpAppend a => sched_append a
  | OpDequeue a => sched_dequeue a
  | OpReschedule => rescheduleRequired
  | OpScheduleTcb a => schedule_tcb a
  | OpPossibleSwitchTo a => possible_switch_to a
  | OpSetState a st => set_thread_state a st
  | OpSetPriority a p => set_priority a p
  | OpSetMCPriority a p => set_mcp_priority a p
  | OpSetDomain a => set_domain a 0
  | OpSuspend a => suspend a
  | OpBindNotification a n => tcb_bind_notification a n
  | OpUnbindNotification a => tcb_unbind_notification a
  | OpTimerTick => timerTick
  | OpNextDomain => nextDomain
  end.
Fixpoint run_ops (os : list sched_op) : ST sst unit :=
  match os with [] => skip | o :: os => run_op o ;; run_ops os end.

(** The threads named are threads, and the priorities are priorities. *)
Definition op_valid (h : gmap Z tcb_t) (o : sched_op) : Prop :=
  match o with
  | OpEnqueue a | OpAppend a | OpDequeue a | OpScheduleTcb a | OpPossibleSwitchTo a
  | OpSetState a _ | OpSetMCPriority a _ | OpSetDomain a | OpSuspend a
  | OpBindNotification a _ | OpUnbindNotification a => is_Some (h !! a)
  | OpSetPriority a p => is_Some (h !! a) /\ 0 <= p < CONFIG_NUM_PRIORITIES
  | OpReschedule | OpTimerTick | OpNextDomain => True
  end.

Create HintDb sched.
#[export] Hint Resolve keeps_enqueue keeps_append keeps_reschedule keeps_schedule_tcb
  keeps_possible_switch_to keeps_set_thread_state keeps_set_priority keeps_set_domain
  keeps_suspend keeps_timerTick keeps_nextDomain : sched.

Lemma keeps_run_op s o : sched_inv s -> op_valid (tcbs s) o -> wp (run_op o) (fun _ => keeps s) s.
Proof.
  intros Hi Hv. destruct o; cbn in *; auto with sched.
  - eapply wp_mono; [by apply keeps_dequeue|]. by intros [] s' [? _].
  - destruct Hv. by apply keeps_set_priority.
  - by apply keeps_field.
  - by apply keeps_field.
  - by apply keeps_field.
Qed.

(** C6: the scheduler never gets stuck and never loses its invariant: from a
    state where the ready queues are well formed and the bitmap agrees with
    them, every thread state is legal and the current thread and scheduler
    action are threads, any sequence of enqueues, appends, dequeues, state,
    priority and domain changes, suspensions, reschedules, timer ticks and
    domain switches returns (no panic, no dereference of a pointer that is not
    a thread) and the invariant holds again, with the same threads. *)
Theorem sched_ops_keep_inv s os :
  sched_inv s -> Forall (op_valid (tcbs s)) os ->
  wp (run_ops os) (fun _ s' => sched_inv s' /\ forall a, is_Some (tcbs s !! a) <-> is_Some (tcbs s' !! a)) s.
Proof.
  change (sched_inv s -> Forall (op_valid (tcbs s)) os -> wp (run_ops os) (fun _ => keeps s) s).
  revert s. induction os as [|o os IH]; intros s Hi Hv; [by apply keeps_refl|].
  apply Forall_cons in Hv as [Ho Hv]. cbn. apply wp_keeps_bind; [by apply keeps_run_op|].
  intros s1 Hk. apply (wp_keeps_from _ _ _ Hk), IH; [apply Hk|].
  eapply Forall_impl; [exact Hv|]. intros x Hx. destruct Hk as [_ Hk].
  destruct x; cbn in *; rewrite <- ?Hk; done.
Qed.
