(* ===== verification/EpQueue.v ===== *)
(** * The queue of an endpoint or a notification

    [ep_append] and [ep_dequeue] of [sel4_task/src/tcb_queue.rs] work on a
    local copy of the queue's ends and on the threads' endpoint links.  With
    [ep_queue h q l], the queue [q] and the links of [h] represent the list
    [l] of waiting threads; the two operations are then list operations. *)

From stdpp Require Import base numbers gmap list.
From S2P Require Import Prelude Bitfield Common DList Sched SchedProps.
Local Open Scope Z_scope.
Local Open Scope krn_scope.

Definition ep_queue (h : gmap Z tcb_t) (q : tcb_queue_t) (l : list Z) : Prop :=
  q = queue_of l /\ dlist (hview ep_links h) l.

(** A thread without its endpoint links, and what the operations leave alone. *)
Definition ep_strip (t : tcb_t) : tcb_t := set_tcbEPNext 0 (set_tcbEPPrev 0 t).
Definition ep_frame (s s' : sst) : Prop :=
  gl s' = gl s /\ forall a, ep_strip <$> tcbs s' !! a = ep_strip <$> tcbs s !! a.

Section ep.
Implicit Types (s : sst) (h : gmap Z tcb_t) (a self : Z) (l : list Z).

Lemma ep_frame_refl s : ep_frame s s.
Proof. done. Qed.
Lemma ep_frame_trans s1 s2 s3 : ep_frame s1 s2 -> ep_frame s2 s3 -> ep_frame s1 s3.
Proof. intros [H1 H2] [H3 H4]. split; [congruence|]. intros a. by rewrite H4. Qed.
Lemma ep_frame_alter s h a f :
  (forall t, ep_strip (f t) = ep_strip t) -> ep_frame s (Sst h (gl s)) ->
  ep_frame s (Sst (alter f a h) (gl s)).
Proof.
  intros Hf [_ Hh]. split; [done|]. intros b. rewrite <- Hh. cbn.
  destruct (decide (b = a)); subst; [|by rewrite lookup_alter_ne].
  rewrite lookup_alter_eq. destruct (h !! a); [|done]. cbn. by rewrite Hf.
Qed.
Lemma ep_hwf h : hwf ep_links h.
Proof. by intros ?. Qed.

Lemma alter_id_None h (f : tcb_t -> tcb_t) a : h !! a = None -> alter f a h = h.
Proof.
  intros Ha. apply map_eq. intros b. destruct (decide (b = a)); subst.
  - by rewrite lookup_alter_eq, Ha.
  - by rewrite lookup_alter_ne.
Qed.

Lemma queue_of_null h l : dlist (hview ep_links h) l ->
  (head (queue_of l) =w 0) = bool_decide (l = []).
Proof.
  intros (_ & _ & H0). destruct l as [|x l]; [done|].
  rewrite (bool_decide_false (x :: l = [])) by done. apply bool_decide_false.
  change (x <> 0). intros ->. set_solver.
Qed.
Lemma last_or_notin l self : self ∉ l -> self <> 0 -> last_or 0 l <> self.
Proof. intros Hn H0. destruct (last_or_elem 0 l) as [->|]; [done|]. intros E. by rewrite E in *. Qed.

Lemma last_or_nonnil l : l <> [] -> last_or 0 l ∈ l.
Proof.
  intros Hl. destruct l as [|x l] using rev_ind; [done|]. rewrite last_or_snoc. set_solver.
Qed.
Lemma head_or_nonnil l : l <> [] -> head_or 0 l ∈ l.
Proof. destruct l; [done|]. cbn. set_solver. Qed.

(** Appending [self]: the links written. *)
Lemma ep_append_list h l self :
  h !! 0 = None -> dlist (hview ep_links h) l -> self ∉ l -> self <> 0 -> is_Some (h !! self) ->
  dlist (hview ep_links (alter (set_tcbEPNext 0) self (alter (set_tcbEPPrev (last_or 0 l)) self
    (alter (set_tcbEPNext self) (last_or 0 l) h)))) (l ++ [self]).
Proof.
  intros Hz Hd Hn H0 [t Ht]. pose proof (last_or_notin l self Hn H0) as Hls.
  eapply dlist_ext; [|apply (dlist_insert (hview ep_links h) l self [])];
    [|by rewrite app_nil_r|by rewrite app_nil_r|done].
  intros b. change (head_or 0 []) with 0. unfold set_pv'. rewrite decide_True by done.
  destruct (decide (b = self)); subst.
  - rewrite set_nx'_ne by done. rewrite set_lk_eq. unfold hview.
    rewrite !lookup_alter_eq, lookup_alter_ne, Ht by done. done.
  - unfold hview at 2. rewrite 2!lookup_alter_ne by done.
    change (set_nx' (last_or 0 l) self (set_lk self (last_or 0 l, 0) (hview ep_links h)) b
      = hview ep_links (alter (set_tcbEPNext self) (last_or 0 l) h) b).
    symmetry. etrans; [apply (hview_alter_next' ep_links); [apply ep_hwf|done|done]|].
    unfold set_nx', set_nx. repeat case_decide; subst; by rewrite ?set_lk_ne.
Qed.

Lemma wp_ep_append s q l self (P : tcb_queue_t -> sst -> Prop) :
  tcbs s !! 0 = None -> ep_queue (tcbs s) q l -> self ∉ l -> is_Some (tcbs s !! self) ->
  (forall q' s', ep_queue (tcbs s') q' (l ++ [self]) -> ep_frame s s' -> P q' s') ->
  wp (ep_append q self) P s.
Proof.
  intros Hz [-> Hd] Hn Hs HP. assert (self <> 0) as H0 by (intros ->; by destruct Hs; congruence).
  unfold ep_append. rewrite (queue_of_null _ _ Hd). apply wp_bind.
  assert (forall q', q' = Queue (head_or 0 (l ++ [self])) (last_or 0 l) ->
    wp (tcb_mod self (set_tcbEPPrev (tail q')) ;; tcb_mod self (set_tcbEPNext 0) ;;
      mret (set_tail self q')) P (Sst (alter (set_tcbEPNext self) (last_or 0 l) (tcbs s)) (gl s))) as Hrest.
  { intros q' ->. cbn [tail]. apply wp_bind, wp_tcb_mod; [cbn; by rewrite is_Some_alter|].
    apply wp_bind, wp_tcb_mod; [cbn; by rewrite !is_Some_alter|]. apply wp_ret, HP.
    - split; [unfold queue_of, set_tail; by rewrite last_or_snoc|]. by apply ep_append_list.
    - cbn. repeat (apply ep_frame_alter; [by intros []|]). done. }
  case_bool_decide as El.
  - subst l. cbn. apply wp_ret. specialize (Hrest (set_head self (queue_of [])) eq_refl).
    cbn in Hrest. assert (alter (set_tcbEPNext self) 0 (tcbs s) = tcbs s) as E.
    { apply alter_id_None. done. } 
    change (last_or 0 []) with 0 in Hrest. rewrite E in Hrest. by destruct s.
  - apply wp_bind, wp_tcb_mod_ref; [done| |].
    { eapply (dlist_elem ep_links); [done|]. by apply last_or_nonnil. }
    apply wp_ret, Hrest. unfold queue_of. f_equal. by destruct l.
Qed.

(** Removing [self]. *)
Lemma wp_ep_dequeue s q l1 self l2 (P : tcb_queue_t -> sst -> Prop) :
  tcbs s !! 0 = None -> ep_queue (tcbs s) q (l1 ++ self :: l2) ->
  (forall q' s', ep_queue (tcbs s') q' (l1 ++ l2) -> ep_frame s s' -> P q' s') ->
  wp (ep_dequeue q self) P s.
Proof.
  intros Hz [-> Hd] HP.
  destruct (dlist_elem ep_links _ _ self Hd ltac:(set_solver)) as [t Ht].
  destruct (dlist_links ep_links _ _ _ _ _ Hd Ht) as [Ep En]. cbn in Ep, En.
  assert (self ∉ l1 /\ self ∉ l2 /\ self <> 0) as (Hn1 & Hn2 & H0).
  { destruct Hd as (_ & Hnd & H0). apply NoDup_split in Hnd as (? & ? & ? & ? & _). set_solver. }
  unfold ep_dequeue. apply wp_bind. eapply wp_tcb_get; [done|]. rewrite Ep, En.
  set (s1 := Sst (alter (set_tcbEPNext (head_or 0 l2)) (last_or 0 l1) (tcbs s)) (gl s)).
  assert (tcbs s1 !! self = Some t) as Ht1.
  { cbn. rewrite lookup_alter_ne; [done|]. by apply last_or_notin. }
  apply wp_bind, (wp_mono _ (fun q1 s' => s' = s1 /\
    q1 = Queue (head_or 0 (l1 ++ l2)) (last_or 0 (l1 ++ self :: l2)))).
  { destruct (decide (l1 = [])) as [->|Hl1].
    - apply wp_ret. split; [|done]. unfold s1. change (last_or 0 []) with 0.
      rewrite alter_id_None by done. by destruct s.
    - pose proof (last_or_nonnil _ Hl1) as Hin.
      rewrite bool_decide_false by (intros E; rewrite E in Hin; destruct Hd as (_ & _ & H0'); set_solver).
      apply wp_bind, wp_tcb_mod_ref; [done|eapply (dlist_elem ep_links); [done|set_solver]|].
      apply wp_ret. split; [done|]. by destruct l1. }
  intros q1 s' [-> ->]. apply wp_bind. eapply wp_tcb_get; [done|]. rewrite Ep, En.
  assert (forall q', q' = queue_of (l1 ++ l2) ->
    P q' (Sst (alter (set_tcbEPPrev (last_or 0 l1)) (head_or 0 l2) (tcbs s1)) (gl s))) as Hfin.
  { intros q' ->. apply HP.
    - split; [done|]. eapply dlist_ext; [|exact (dlist_remove _ _ _ _ Hd)]. intros b. symmetry.
      by apply (hview_link ep_links); [apply ep_hwf|..].
    - repeat (apply ep_frame_alter; [by intros []|]). done. }
  destruct (decide (l2 = [])) as [->|Hl2].
  - apply wp_ret. cbn. specialize (Hfin (queue_of (l1 ++ [])) eq_refl).
    change (head_or 0 []) with 0 in Hfin. rewrite alter_id_None in Hfin by (cbn; by apply null_alter).
    rewrite last_or_snoc || idtac. unfold queue_of, set_tail in *. cbn. rewrite app_nil_r in *. done.
  - pose proof (head_or_nonnil _ Hl2) as Hin.
    rewrite bool_decide_false by (intros E; rewrite E in Hin; destruct Hd as (_ & _ & H0'); set_solver).
    apply wp_bind, wp_tcb_mod_ref; [by apply null_alter|cbn; rewrite is_Some_alter; eapply (dlist_elem ep_links); [done|set_solver]|].
    apply wp_ret, Hfin. unfold queue_of. f_equal. rewrite !last_or_app. by destruct l2.
Qed.
End ep.

(** [ep_append] puts a thread that is not waiting at the end of the list
    of waiting threads, and changes no thread but for its endpoint links. *)
Theorem ep_append_refines (s : sst) (q : tcb_queue_t) (l : list Z) (self : Z) :
  tcbs s !! 0 = None -> ep_queue (tcbs s) q l -> self ∉ l -> is_Some (tcbs s !! self) ->
  wp (ep_append q self) (fun q' s' => ep_queue (tcbs s') q' (l ++ [self]) /\ ep_frame s s') s.
Proof. intros. eapply wp_ep_append; eauto. Qed.

(** [ep_dequeue] takes a waiting thread out of the list, wherever in the
    list it is, and changes no thread but for its endpoint links. *)
Theorem ep_dequeue_refines (s : sst) (q : tcb_queue_t) (l1 l2 : list Z) (self : Z) :
  tcbs s !! 0 = None -> ep_queue (tcbs s) q (l1 ++ self :: l2) ->
  wp (ep_dequeue q self) (fun q' s' => ep_queue (tcbs s') q' (l1 ++ l2) /\ ep_frame s s') s.
Proof. intros. eapply wp_ep_dequeue; eauto. Qed.
