(* ===== verification/SchedWit.v ===== *)
(** * Threads and the scheduler: instances of the theorems

    Two threads of priorities 200 and 7 with empty queues, as after boot, and
    the state after the first of them has been enqueued; an endpoint queue of
    three threads. *)

From stdpp Require Import base numbers gmap list.
From S2P Require Import Prelude Bitfield Common DList Sched Bitmap SchedProps SchedInv EpQueue.
Local Open Scope Z_scope.


Definition tA : Z := 0xffffff8000010400.
Definition tB : Z := 0xffffff8000010c00.
Definition tC : Z := 0xffffff8000011400.
Definition w_tcb (prio : Z) : tcb_t :=
  ts_set ts_type 1 (set_tcbPriority prio (set_tcbTimeSlice 5 tcb_zero)).
Definition w_sst : sst :=
  Sst (<[tA := w_tcb 200]> (<[tB := w_tcb 7]> ∅)) (set_ksCurThread tA sched_init).
Definition w_Q : list (list Z) := replicate 256 [].

(** Nothing queued: the invariant is a check of the threads. *)
Definition idle_okb (s : sst) : bool :=
  bool_decide (ksReadyQueues (gl s) = ksReadyQueues sched_init /\
    ksReadyQueuesL1Bitmap (gl s) = [0] /\ ksReadyQueuesL2Bitmap (gl s) = [[0; 0; 0; 0]] /\
    tcbs s !! 0 = None /\
    map_Forall (fun _ t => queued t = false /\ length (tcbState t) = 3%nat /\ domain t = 0 /\
      0 <= tcbPriority t < 256) (tcbs s)).

Lemma w_bitmap_empty : bitmap_ok [0] [[0; 0; 0; 0]] (nonempty_at w_Q).
Proof.
  assert (forall i, [0; 0; 0; 0] !!! i = 0 \/ (4 <= i)%nat) as Hz.
  { intros i. do 4 (destruct i; [by left|]). right. lia. }
  split.
  - by exists 0.
  - exists [0; 0; 0; 0]. split; [done|]. split; [done|]. by_decide.
  - intros w1 row i [= <-] [= <-] Hi. rewrite Z.bits_0. case_bool_decide; [|done].
    destruct (Hz (Z.to_nat (3 - i))) as [->|]; [done|lia].
  - intros row i b [= <-] Hi Hb. destruct (Hz (Z.to_nat (3 - i))) as [->|]; [|lia].
    rewrite Z.bits_0. unfold nonempty_at, w_Q.
    destruct (replicate 256 [] !! Z.to_nat (64 * i + b)) as [l|] eqn:E; [|by rewrite andb_false_r].
    apply lookup_replicate in E as [-> _]. by rewrite andb_false_r.
Qed.

Lemma idle_okb_ok s : idle_okb s = true -> rq_ok s w_Q.
Proof.
  unfold idle_okb. rewrite bool_decide_eq_true.
  intros (E1 & E2 & E3 & H0 & Hf). split.
  - done.
  - by rewrite E1.
  - intros p l Hp. apply lookup_replicate in Hp as [-> _]. by_decide || apply dlist_nil.
  - intros a t p l Ha Hp. apply lookup_replicate in Hp as [-> _]. destruct (Hf _ _ Ha) as (-> & _).
    split; [set_solver|]. by intros [? _].
  - rewrite E2, E3. apply w_bitmap_empty.
  - done.
  - intros a t Ha. destruct (Hf _ _ Ha) as (_ & ? & ? & ?). done.
Qed.

Lemma w_rq : rq_ok w_sst w_Q.
Proof. apply idle_okb_ok. vm_compute. reflexivity. Qed.

Lemma w_sched_inv : sched_inv w_sst.
Proof.
  split.
  - exists w_Q. apply w_rq.
  - intros a t Ha. assert (t = w_tcb 200 \/ t = w_tcb 7) as [-> | ->].
    { unfold w_sst in Ha. cbn in Ha. apply lookup_insert_Some in Ha as [[_ <-]|[_ Ha]]; [by left|].
      apply lookup_insert_Some in Ha as [[_ <-]|[_ Ha]]; [by right|]. by rewrite lookup_empty in Ha. }
    all: (split; [reflexivity|by exists ThreadStateRunning]).
  - by exists (w_tcb 200).
  - right. left. reflexivity.
  - reflexivity.
Qed.

(** The state after [tB] has been enqueued. *)
Definition w_sst1 : sst := match sched_enqueue tB w_sst with Ok (_, s) => s | _ => w_sst end.
Definition w_Q1 : list (list Z) := enqueued tB (w_tcb 7) w_Q.
Lemma w_rq1 : rq_ok w_sst1 w_Q1.
Proof.
  assert (wp (sched_enqueue tB) (fun _ s' => rq_ok s' w_Q1) w_sst) as H.
  { eapply wp_sched_enqueue; [exact w_rq|reflexivity|]. done. }
  unfold w_sst1. revert H. unfold wp. by destruct (sched_enqueue tB w_sst) as [[]| | |].
Qed.
Definition w_t1 : tcb_t := default tcb_zero (tcbs w_sst1 !! tB).

Lemma getHighestPrio_max_witness :
  (exists m, getHighestPrio 0 w_sst1 = Ok (m, w_sst1) /\ 0 <= m < 256 /\ nonempty_at w_Q1 m = true /\
    forall q, 0 <= q < 256 -> nonempty_at w_Q1 q = true -> q <= m) /\
  getHighestPrio 0 w_sst1 = Ok (7, w_sst1).
Proof.
  split; [|vm_compute; reflexivity].
  apply (getHighestPrio_max w_sst1 (nonempty_at w_Q1) 7);
    [exact (rq_bitmap _ _ w_rq1)|lia|vm_compute; reflexivity].
Defined.

Lemma sched_enqueue_refines_witness :
  wp (sched_enqueue tA) (fun _ s' => rq_ok s' (enqueued tA (w_tcb 200) w_Q1) /\ sched_frame w_sst1 s') w_sst1.
Proof.
  apply (sched_enqueue_refines w_sst1 w_Q1 tA (w_tcb 200)); [exact w_rq1|vm_compute; reflexivity].
Defined.

Lemma sched_dequeue_refines_witness :
  wp (sched_dequeue tB) (fun _ s' => rq_ok s' (dequeued tB w_t1 w_Q1) /\ sched_frame w_sst1 s') w_sst1 /\
  dequeued tB w_t1 w_Q1 = w_Q.
Proof.
  split; [|vm_compute; reflexivity].
  apply (sched_dequeue_refines w_sst1 w_Q1 tB w_t1); [exact w_rq1|vm_compute; reflexivity].
Defined.

Lemma sched_append_is_enqueue_witness : sched_append tA w_sst1 = sched_enqueue tA w_sst1.
Proof.
  apply (sched_append_is_enqueue w_sst1 w_Q1 tA (w_tcb 200)); [exact w_rq1|vm_compute; reflexivity].
Defined.

Definition w_ops : list sched_op :=
  [OpEnqueue tB; OpSetPriority tB 250; OpTimerTick; OpSetState tA ThreadStateBlockedOnReceive;
   OpPossibleSwitchTo tB; OpSuspend tA; OpNextDomain; OpDequeue tB].
Lemma sched_ops_keep_inv_witness :
  wp (run_ops w_ops) (fun _ s' => sched_inv s' /\
    forall a, is_Some (tcbs w_sst !! a) <-> is_Some (tcbs s' !! a)) w_sst.
Proof.
  apply (sched_ops_keep_inv w_sst w_ops); [exact w_sched_inv|].
  unfold w_ops. repeat apply Forall_cons_2; try apply Forall_nil_2; try exact I.
  all: first [split; [eexists; vm_compute; reflexivity|split; vm_compute; congruence]
             |eexists; vm_compute; reflexivity].
Defined.

(** Three threads waiting. *)
Definition w_link (p n : Z) : tcb_t := set_tcbEPPrev p (set_tcbEPNext n tcb_zero).
Definition w_eps : sst :=
  Sst (<[tA := w_link 0 tB]> (<[tB := w_link tA 0]> (<[tC := w_link 0 0]> ∅))) sched_init.
Lemma w_ep_queue : ep_queue (tcbs w_eps) (Queue tA tB) [tA; tB].
Proof. split; [reflexivity|]. by_decide. Qed.

Lemma ep_append_refines_witness :
  wp (ep_append (Queue tA tB) tC) (fun q' s' =>
    ep_queue (tcbs s') q' ([tA; tB] ++ [tC]) /\ ep_frame w_eps s') w_eps.
Proof.
  apply (ep_append_refines w_eps (Queue tA tB) [tA; tB] tC);
    [reflexivity|exact w_ep_queue|by_decide|by_decide].
Defined.
Lemma ep_dequeue_refines_witness :
  wp (ep_dequeue (Queue tA tB) tA) (fun q' s' =>
    ep_queue (tcbs s') q' ([] ++ [tB]) /\ ep_frame w_eps s') w_eps.
Proof.
  apply (ep_dequeue_refines w_eps (Queue tA tB) [] [tB] tA); [reflexivity|exact w_ep_queue].
Defined.
