(* ===== verification/State.v ===== *)
(** * The state of the kernel

    One record of the memory the components share.  Typed objects live in
    maps from their address ([cte_t] slots, threads, endpoints, notifications,
    ASID pools); untyped words (IPC buffers and page tables) in one map of
    64-bit words; the globals of the kernel crate and of the address-space
    crate in records of their own.  An access to an address where no object of
    the type lives is undefined behaviour.  Hardware effects (TLB and cache
    maintenance) are recorded in a trace. *)

From stdpp Require Import base numbers gmap list.
From S2P Require Import Prelude Bitfield Common Cap DList CSpace Sched.
Local Open Scope Z_scope.
Local Open Scope krn_scope.

(** ** Globals of the kernel crate *)
(* src: kernel/src/structures.rs 160-168 syscall_error_t *)
Record syscall_error_t := SyscallError {
  invalidArgumentNumber : Z; invalidCapNumber : Z; rangeErrorMin : Z; rangeErrorMax : Z;
  memoryLeft : Z; failedLookupWasSource : Z; se_type : Z }.
#[export] Instance syscall_error_t_eq_dec : EqDecision syscall_error_t.
Proof. solve_decision. Defined.
(* src: kernel/src/kernel/boot.rs 22-33 current_syscall_error *)
Definition syscall_error_init : syscall_error_t := SyscallError 0 0 0 0 0 0 0.

Definition set_se_type v e := SyscallError (invalidArgumentNumber e) (invalidCapNumber e)
  (rangeErrorMin e) (rangeErrorMax e) (memoryLeft e) (failedLookupWasSource e) v.
Definition set_invalidArgumentNumber v e := SyscallError v (invalidCapNumber e)
  (rangeErrorMin e) (rangeErrorMax e) (memoryLeft e) (failedLookupWasSource e) (se_type e).
Definition set_invalidCapNumber v e := SyscallError (invalidArgumentNumber e) v
  (rangeErrorMin e) (rangeErrorMax e) (memoryLeft e) (failedLookupWasSource e) (se_type e).
Definition set_rangeError lo hi e := SyscallError (invalidArgumentNumber e) (invalidCapNumber e)
  lo hi (memoryLeft e) (failedLookupWasSource e) (se_type e).
Definition set_memoryLeft v e := SyscallError (invalidArgumentNumber e) (invalidCapNumber e)
  (rangeErrorMin e) (rangeErrorMax e) v (failedLookupWasSource e) (se_type e).
Definition set_failedLookupWasSource v e := SyscallError (invalidArgumentNumber e)
  (invalidCapNumber e) (rangeErrorMin e) (rangeErrorMax e) (memoryLeft e) v (se_type e).

(* src: kernel/src/kernel/boot.rs 12-39 current_lookup_fault *)
Record sys_t := Sys {
  current_lookup_fault : list Z;
  current_fault : list Z;
  current_syscall_error : syscall_error_t;
  excaprefs : list Z }.
Definition sys_init : sys_t := Sys [0; 0] [0; 0] syscall_error_init [0; 0; 0].
Definition set_lookup_fault v s := Sys v (current_fault s) (current_syscall_error s) (excaprefs s).
Definition set_fault v s := Sys (current_lookup_fault s) v (current_syscall_error s) (excaprefs s).
Definition on_syscall_error f s :=
  Sys (current_lookup_fault s) (current_fault s) (f (current_syscall_error s)) (excaprefs s).
Definition set_excaprefs v s :=
  Sys (current_lookup_fault s) (current_fault s) (current_syscall_error s) v.

(** ** Interrupts *)
(* src: kernel/src/config.rs 121-122 maxIRQ *)
Definition maxIRQ : Z := 159.
(* src: kernel/src/config.rs 115-116 KERNEL_TIMER_IRQ *)
Definition KERNEL_TIMER_IRQ : Z := 27.
(* src: kernel/src/config.rs 124-124 irqInvalid *)
Definition irqInvalid : Z := 0.
(* src: kernel/src/config.rs 138-138 CONFIG_MAX_NUM_WORK_UNITS_PER_PREEMPTION *)
Definition CONFIG_MAX_NUM_WORK_UNITS_PER_PREEMPTION : Z := 100.
(* src: kernel/src/interrupt/mod.rs 20-27 intStateIRQTable *)
Record irq_t := Irq { intStateIRQTable : list Z; intStateIRQNode : Z; active_irq : Z }.
Definition irq_init : irq_t := Irq (replicate (Z.to_nat (maxIRQ + 1)) 0) 0 0.

(** ** Address spaces and the machine *)
Inductive hw_event : Type :=
| TlbAll                      (** [tlbi vmalle1] *)
| TlbAsid (asid : Z)          (** [tlbi aside1] *)
| TlbVaAsid (v : Z)           (** [tlbi vae1] *)
| CleanPoU (vaddr : Z)        (** [dc cvau] *)
| CleanRAM (start end_ pstart : Z) (** [clean_cache_range_ram] *)
| CleanInvalidateL1           (** [clean_invalidate_l1_caches] *)
| SetTtbr1 (val : Z)          (** [setCurrentKernelVSpaceRoot] *)
| CacheOp (label : MessageLabel) (start end_ pstart : Z) (** the ranges of [doFlush] *)
| IrqEnable (irq : Z)         (** the interrupt controller *)
| IrqAck (irq : Z)
| ResetTimer.
#[export] Instance hw_event_eq_dec : EqDecision hw_event.
Proof. solve_decision. Defined.

(** [armKSASIDTable], the ASID pools by address, the user translation base
    register, the link-time address of [armKSGlobalUserVSpace], the trace. *)
(* src: sel4_vspace/src/arch/aarch64/asid.rs 19-19 armKSASIDTable *)
Record vm_t := Vm {
  armKSASIDTable : list Z;
  asid_pools : gmap Z (list Z);
  ttbr0 : Z;
  arm_global_user_vspace_base : Z;
  hw_trace : list hw_event }.
Definition vm_init (base : Z) : vm_t := Vm (replicate (Z.to_nat nASIDPools) 0) ∅ 0 base [].

(** ** The whole state *)
Record kst := Kst {
  k_slots : gmap Z cte_t;
  k_sst : sst;
  k_eps : gmap Z (list Z);
  k_ntfns : gmap Z (list Z);
  k_mem : gmap Z Z;
  k_sys : sys_t;
  k_irq : irq_t;
  k_vm : vm_t }.

Definition set_k_slots v s :=
  Kst v (k_sst s) (k_eps s) (k_ntfns s) (k_mem s) (k_sys s) (k_irq s) (k_vm s).
Definition set_k_sst v s :=
  Kst (k_slots s) v (k_eps s) (k_ntfns s) (k_mem s) (k_sys s) (k_irq s) (k_vm s).
Definition set_k_eps v s :=
  Kst (k_slots s) (k_sst s) v (k_ntfns s) (k_mem s) (k_sys s) (k_irq s) (k_vm s).
Definition set_k_ntfns v s :=
  Kst (k_slots s) (k_sst s) (k_eps s) v (k_mem s) (k_sys s) (k_irq s) (k_vm s).
Definition set_k_mem v s :=
  Kst (k_slots s) (k_sst s) (k_eps s) (k_ntfns s) v (k_sys s) (k_irq s) (k_vm s).
Definition set_k_sys v s :=
  Kst (k_slots s) (k_sst s) (k_eps s) (k_ntfns s) (k_mem s) v (k_irq s) (k_vm s).
Definition set_k_irq v s :=
  Kst (k_slots s) (k_sst s) (k_eps s) (k_ntfns s) (k_mem s) (k_sys s) v (k_vm s).
Definition set_k_vm v s :=
  Kst (k_slots s) (k_sst s) (k_eps s) (k_ntfns s) (k_mem s) (k_sys s) (k_irq s) v.

(** A state without objects. *)
Definition kst_empty : kst := Kst ∅ (Sst ∅ sched_init) ∅ ∅ ∅ sys_init irq_init (vm_init 0).

(** ** Computations on a part of the state *)
Section zoom.
Context {S T : Type} (get : S -> T) (set : T -> S -> S).
Definition zoom {A} (m : ST T A) : ST S A := fun s =>
  match m (get s) with
  | Ok (a, t) => Ok (a, set t s) | Panic => Panic | UB => UB | NoFuel => NoFuel
  end.
Lemma wp_zoom {A} (m : ST T A) (Q : A -> S -> Prop) s :
  wp m (fun a t => Q a (set t s)) (get s) -> wp (zoom m) Q s.
Proof. unfold wp, zoom. by destruct (m (get s)) as [[? ?]| | |]. Qed.
Lemma wp_zoom_inv {A} (m : ST T A) (Q : A -> S -> Prop) s :
  wp (zoom m) Q s -> wp m (fun a t => Q a (set t s)) (get s).
Proof. unfold wp, zoom. by destruct (m (get s)) as [[? ?]| | |]. Qed.
Lemma zoom_inv {A} (m : ST T A) s a s' :
  zoom m s = Ok (a, s') -> exists t, m (get s) = Ok (a, t) /\ s' = set t s.
Proof. unfold zoom. destruct (m (get s)) as [[? ?]| | |]; [intros [= -> <-]; eauto|done..]. Qed.
Lemma zoom_Ok {A} (m : ST T A) s a t : m (get s) = Ok (a, t) -> zoom m s = Ok (a, set t s).
Proof. unfold zoom. by intros ->. Qed.
End zoom.

Definition on_slots {A} : ST (gmap Z cte_t) A -> ST kst A := zoom k_slots set_k_slots.
Definition on_sst {A} : ST sst A -> ST kst A := zoom k_sst set_k_sst.
Definition on_eps {A} : ST (gmap Z (list Z)) A -> ST kst A := zoom k_eps set_k_eps.
Definition on_ntfns {A} : ST (gmap Z (list Z)) A -> ST kst A := zoom k_ntfns set_k_ntfns.
Definition on_mem {A} : ST (gmap Z Z) A -> ST kst A := zoom k_mem set_k_mem.

Definition sys_get {A} (f : sys_t -> A) : ST kst A := gets (fun s => f (k_sys s)).
Definition sys_mod (f : sys_t -> sys_t) : ST kst unit := modify (fun s => set_k_sys (f (k_sys s)) s).
Definition irq_get {A} (f : irq_t -> A) : ST kst A := gets (fun s => f (k_irq s)).
Definition irq_mod (f : irq_t -> irq_t) : ST kst unit := modify (fun s => set_k_irq (f (k_irq s)) s).
Definition vm_get {A} (f : vm_t -> A) : ST kst A := gets (fun s => f (k_vm s)).
Definition vm_mod (f : vm_t -> vm_t) : ST kst unit := modify (fun s => set_k_vm (f (k_vm s)) s).
Definition hw (e : hw_event) : ST kst unit :=
  vm_mod (fun v => Vm (armKSASIDTable v) (asid_pools v) (ttbr0 v) (arm_global_user_vspace_base v)
    (hw_trace v ++ [e])).

(** Threads, slots, endpoints, notifications. *)
Definition thread (p : Z) : ST kst tcb_t := on_sst (tcb_get p).
Definition thread_mod (p : Z) (f : tcb_t -> tcb_t) : ST kst unit := on_sst (tcb_mod p f).
Definition thread_ref (p : Z) : ST kst tcb_t := on_sst (tcb_get_ref p).
Definition slot (p : Z) : ST kst cte_t := on_slots (load p).
Definition slot_mod (p : Z) (f : cte_t -> cte_t) : ST kst unit := on_slots (store_with p f).
Definition ep_get (p : Z) : ST kst (list Z) := on_eps (load p).
Definition ep_mod (p : Z) (f : list Z -> list Z) : ST kst unit := on_eps (store_with p f).
Definition ntfn_get (p : Z) : ST kst (list Z) := on_ntfns (load p).
Definition ntfn_mod (p : Z) (f : list Z -> list Z) : ST kst unit := on_ntfns (store_with p f).

(** [convert_to_mut_type_ref] alone: the address is asserted not null. *)
(* src: sel4_common/src/utils.rs 137-141 convert_to_mut_type_ref *)
Definition ref (p : Z) : ST kst Z := assert_m (p <>w 0) ;; mret p.
(** [ptr_to_mut] panics on the null pointer. *)
(* src: sel4_common/src/utils.rs 185-189 ptr_to_mut *)
Definition ptr_to_mut (p : Z) : ST kst Z := assert_m (p <>w 0) ;; mret p.

(** The 64-bit word at an address. *)
Definition word_get (p : Z) : ST kst Z := on_mem (load p).
Definition word_set (p v : Z) : ST kst unit := on_mem (store_with p (fun _ => v)).

(** Registers of a thread. *)
Definition reg_get (t : Z) (r : ArchReg) : ST kst Z :=
  x ← thread t; lift (get_register (tcbArch x) r).
Definition reg_set (t : Z) (r : ArchReg) (v : Z) : ST kst unit :=
  x ← thread t; regs ← lift (set_register (tcbArch x) r v); thread_mod t (set_tcbArch regs).

(** Writes to the pending system-call error. *)
Definition syscall_error (f : syscall_error_t -> syscall_error_t) : ST kst unit :=
  sys_mod (on_syscall_error f).
Definition set_error (type : Z) : ST kst unit := syscall_error (set_se_type type).

(** ** Computations that only read, through the components of the state *)
Lemma reads_load {V} p : reads (load (V := V) p).
Proof. intros h a h' H. unfold load in H. destruct (h !! p); [|done]. by injection H as _ <-. Qed.
Lemma reads_zoom {S T A} (get : S -> T) (set : T -> S -> S) (m : ST T A) :
  (forall s, set (get s) s = s) -> reads m -> reads (zoom get set m).
Proof. intros Hs Hm s a s' (t & H & ->)%zoom_inv. apply Hm in H as ->. apply Hs. Qed.
Lemma reads_on_sst {A} (m : ST sst A) : reads m -> reads (on_sst m).
Proof. apply reads_zoom. by intros []. Qed.
Lemma reads_on_mem {A} (m : ST (gmap Z Z) A) : reads m -> reads (on_mem m).
Proof. apply reads_zoom. by intros []. Qed.
Lemma reads_on_slots {A} (m : ST (gmap Z cte_t) A) : reads m -> reads (on_slots m).
Proof. apply reads_zoom. by intros []. Qed.
Lemma reads_on_tcbs {A} (m : ST (gmap Z tcb_t) A) : reads m -> reads (on_tcbs m).
Proof.
  intros Hm [h g] a s' H. unfold on_tcbs in H. cbn in H. destruct (m h) as [[b h']| | |] eqn:E; try done.
  injection H as _ <-. by rewrite (Hm _ _ _ E).
Qed.
#[export] Hint Resolve reads_load : reads.
Ltac reads_k := repeat first
  [ progress reads | apply reads_on_sst | apply reads_on_mem | apply reads_on_slots | apply reads_on_tcbs ].
