(* ===== verification/Vspace.v ===== *)
(** * Address spaces

    [sel4_vspace/src/arch/aarch64]: page table entries and the walk of a page
    table ([pte.rs], [utils.rs]), ASID pools ([asid.rs], [structures.rs]),
    unmapping and the switch of the translation base register
    ([interface.rs], [machine.rs]).  A page table is the words of memory at
    its address. *)

From stdpp Require Import base numbers gmap list.
From S2P Require Import Prelude Bitfield Common Cap DList CSpace Sched State.
Local Open Scope Z_scope.
Local Open Scope krn_scope.

(** ** Addresses *)
(* src: sel4_common/src/arch/aarch64/config.rs 8-8 PPTR_BASE *)
Definition PPTR_BASE : Z := 0xffffff8000000000.
(* src: sel4_common/src/arch/aarch64/config.rs 9-9 PADDR_BASE *)
Definition PADDR_BASE : Z := 0.
(* src: sel4_common/src/arch/aarch64/config.rs 10-10 PPTR_BASE_OFFSET *)
Definition PPTR_BASE_OFFSET : Z := PPTR_BASE - PADDR_BASE.
(* src: sel4_common/src/arch/aarch64/config.rs 3-3 physBase *)
Definition KERNEL_ELF_PADDR_BASE : Z := 0x40000000.
(* src: sel4_common/src/arch/aarch64/config.rs 6-6 KERNEL_ELF_BASE *)
Definition KERNEL_ELF_BASE : Z := wadd PPTR_BASE_OFFSET KERNEL_ELF_PADDR_BASE.
(* src: sel4_common/src/arch/aarch64/config.rs 7-7 KERNEL_ELF_BASE_OFFSET *)
Definition KERNEL_ELF_BASE_OFFSET : Z := wsub KERNEL_ELF_BASE KERNEL_ELF_PADDR_BASE.

(* src: sel4_vspace/src/arch/aarch64/utils.rs 64-66 kpptr_to_paddr *)
Definition kpptr_to_paddr (x : Z) : Z := wsub x KERNEL_ELF_BASE_OFFSET.
(* src: sel4_vspace/src/arch/aarch64/utils.rs 70-72 pptr_to_paddr *)
Definition pptr_to_paddr (x : Z) : Z := wsub x PPTR_BASE_OFFSET.
(* src: sel4_vspace/src/arch/aarch64/utils.rs 76-78 paddr_to_pptr *)
Definition paddr_to_pptr (x : Z) : Z := wadd x PPTR_BASE_OFFSET.

(* src: sel4_vspace/src/arch/aarch64/utils.rs 14-14 UPT_LEVELS *)
Definition UPT_LEVELS : Z := 4.
(* src: sel4_vspace/src/arch/aarch64/utils.rs 15-15 seL4_VSpaceIndexBits *)
Definition seL4_VSpaceIndexBits : Z := 9.
(* src: sel4_vspace/src/arch/aarch64/utils.rs 16-16 PAGE_ADDR_MASK *)
Definition PAGE_ADDR_MASK : Z := MASK 48 &&& wnot 0xfff.
(* src: sel4_vspace/src/arch/aarch64/utils.rs 16-19 ULVL_FRM_ARM_PT_LVL *)
Definition ULVL_FRM_ARM_PT_LVL (n : Z) : Z := n.
(* src: sel4_vspace/src/arch/aarch64/utils.rs 25-28 GET_PT_INDEX *)
Definition GET_PT_INDEX (addr : Z) : Z := wshr addr PT_INDEX_OFFSET &&& MASK PT_INDEX_BITS.
(* src: sel4_vspace/src/arch/aarch64/utils.rs 29-32 GET_PD_INDEX *)
Definition GET_PD_INDEX (addr : Z) : Z := wshr addr PD_INDEX_OFFSET &&& MASK PD_INDEX_BITS.
(* src: sel4_vspace/src/arch/aarch64/utils.rs 37-40 GET_PUD_INDEX *)
Definition GET_PUD_INDEX (addr : Z) : Z := wshr addr PUD_INDEX_OFFSET &&& MASK PUD_INDEX_BITS.
(* src: sel4_vspace/src/arch/aarch64/utils.rs 41-44 GET_PGD_INDEX *)
Definition GET_PGD_INDEX (addr : Z) : Z := wshr addr PGD_INDEX_OFFSET &&& MASK PGD_INDEX_BITS.
(* src: sel4_vspace/src/arch/aarch64/utils.rs 49-52 UPT_LEVEL_SHIFT *)
Definition UPT_LEVEL_SHIFT (n : Z) : Z :=
  wadd (wmul PT_INDEX_BITS (wsub (wsub UPT_LEVELS 1) n)) seL4_PageBits.
(* src: sel4_vspace/src/arch/aarch64/utils.rs 53-56 GET_ULVL_PGSIZE_BITS *)
Definition GET_ULVL_PGSIZE_BITS (n : Z) : Z := UPT_LEVEL_SHIFT n.
(* src: sel4_vspace/src/arch/aarch64/utils.rs 57-60 GET_ULVL_PGSIZE *)
Definition GET_ULVL_PGSIZE (n : Z) : Z := BIT (UPT_LEVEL_SHIFT n).
(* src: sel4_vspace/src/arch/aarch64/utils.rs 84-86 VAddr::GET_UPT_INDEX *)
Definition GET_UPT_INDEX (vaddr n : Z) : Z := wshr vaddr (UPT_LEVEL_SHIFT n) &&& MASK PT_INDEX_BITS.

(** [(p as *mut PTE).add(n)] *)
Definition pte_add (p n : Z) : Z := wadd p (wmul 8 n).

(** ** Page table entries *)
(* src: sel4_vspace/src/arch/aarch64/pte.rs 42-47 pte_tag_t *)
Definition pte_table : Z := 3.
(* src: sel4_vspace/src/arch/aarch64/pte.rs 42-47 pte_tag_t *)
Definition pte_page : Z := 1.
(* src: sel4_vspace/src/arch/aarch64/pte.rs 42-47 pte_tag_t *)
Definition pte_4k_page : Z := 7.
(* src: sel4_vspace/src/arch/aarch64/pte.rs 46-46 pte_tag_t *)
Definition pte_invalid : Z := 0.

(* src: sel4_vspace/src/arch/aarch64/utils.rs 222-224 PTE::get_type *)
Definition pte_get_type (pte : Z) : Z :=
  (pte &&& 3) ||| wshr (pte &&& wshl 1 58) 56.
(* src: sel4_vspace/src/arch/aarch64/utils.rs 188-190 PTE::next_level_paddr *)
Definition next_level_paddr (pte : Z) : Z := pte &&& PAGE_ADDR_MASK.
(* src: sel4_vspace/src/arch/aarch64/utils.rs 196-198 PTE::set_next_level_paddr *)
Definition set_next_level_paddr (value pte : Z) : Z :=
  (pte &&& wnot PAGE_ADDR_MASK) ||| (value &&& PAGE_ADDR_MASK).
(* src: sel4_vspace/src/arch/aarch64/utils.rs 201-203 PTE::set_attr *)
Definition pte_set_attr (value pte : Z) : Z :=
  (pte &&& PAGE_ADDR_MASK) ||| (value &&& wnot PAGE_ADDR_MASK).
(* src: sel4_vspace/src/arch/aarch64/utils.rs 211-213 PTE::attr *)
Definition pte_attr (pte : Z) : Z := pte &&& wnot PAGE_ADDR_MASK.
(* src: sel4_vspace/src/arch/aarch64/utils.rs 216-218 PTE::new_page *)
Definition pte_new_page_sign (addr sign : Z) : Z :=
  (addr &&& PAGE_ADDR_MASK) ||| (sign &&& wnot PAGE_ADDR_MASK).
(* src: sel4_vspace/src/arch/aarch64/utils.rs 601-603 PTE::get_reserved *)
Definition pte_get_reserved (pte : Z) : Z := pte &&& 3.
(* src: sel4_vspace/src/arch/aarch64/utils.rs 606-608 PTE::is_present *)
Definition pte_is_present (pte : Z) : bool := pte_get_reserved pte =w 3.
(* src: sel4_vspace/src/arch/aarch64/pte.rs 125-127 PTE::get_page_base_address *)
Definition get_page_base_address (pte : Z) : Z := pte &&& 0xfffffffff000.
(* src: sel4_vspace/src/arch/aarch64/pte.rs 133-135 PTE::get_ppn *)
Definition get_ppn (pte : Z) : Z := wshr (pte &&& 0xfffffffff000) 10.
(** The address of the table [get_pte_from_ppn_mut] refers to. *)
(* src: sel4_vspace/src/arch/aarch64/pte.rs 129-131 PTE::get_pte_from_ppn_mut *)
Definition get_pte_from_ppn_mut (pte : Z) : Z :=
  paddr_to_pptr (wshl (get_ppn pte) seL4_PageTableBits).
(* src: sel4_vspace/src/arch/aarch64/pte.rs 150-153 PTE::pte_is_page_type *)
Definition pte_is_page_type (pte : Z) : bool :=
  (pte_get_type pte =w pte_4k_page) || (pte_get_type pte =w pte_page).
(* src: sel4_vspace/src/arch/aarch64/pte.rs 154-156 PTE::is_pte_table *)
Definition is_pte_table (pte : Z) : bool := pte_get_type pte <>w pte_table.
(* src: sel4_vspace/src/arch/aarch64/pte.rs 157-159 PTE::get_valid *)
Definition pte_get_valid (pte : Z) : Z := b2w (pte_get_type pte <>w pte_invalid).
(* src: sel4_vspace/src/arch/aarch64/pte.rs 161-163 PTE::pte_table_get_present *)
Definition pte_table_get_present (pte : Z) : bool := pte_get_type pte <>w pte_table.

(** The flags the constructors use. *)
(* src: sel4_vspace/src/arch/aarch64/pte.rs 79-79 PTEFlags::AP_EL0 *)
Definition PTE_AP_EL0 : Z := BIT 6.
(* src: sel4_vspace/src/arch/aarch64/pte.rs 81-81 PTEFlags::AP_RO *)
Definition PTE_AP_RO : Z := BIT 7.
(* src: sel4_vspace/src/arch/aarch64/pte.rs 115-117 PTE::new *)
Definition pte_new (addr flags : Z) : Z := (addr &&& 0xfffffffff000) ||| flags.
(* src: sel4_vspace/src/arch/aarch64/pte.rs 118-120 PTE::pte_next_table *)
Definition pte_next_table (addr : Z) : Z := pte_new addr (BIT 0 ||| BIT 1).

(* src: sel4_vspace/src/arch/aarch64/pte.rs 174-180 PTE::ap_from_vm_rights_t *)
Definition ap_from_vm_rights_t (rights : vm_rights_t) : Z :=
  match rights with
  | VMKernelOnly => 0
  | VMReadWrite => PTE_AP_EL0
  | VMReadOnly => PTE_AP_EL0 ||| PTE_AP_RO
  end.
(* src: sel4_vspace/src/arch/aarch64/pte.rs 203-206 PTE::pte_new_table *)
Definition pte_new_table (pt_base_address : Z) : Z := (pt_base_address &&& 0xfffffffff000) ||| 3.
(** The fields common to the two page constructors. *)
(* src: sel4_vspace/src/arch/aarch64/pte.rs 208-228 PTE::pte_new_page *)
Definition pte_page_val (UXN page_base_address nG AF SH AP AttrIndx : Z) : Z :=
  wshl (UXN &&& 1) 54 ||| wshr (page_base_address &&& 0xfffffffff000) 0 ||| wshl (nG &&& 1) 11
  ||| wshl (AF &&& 1) 10 ||| wshl (SH &&& 3) 8 ||| wshl (AP &&& 3) 6 ||| wshl (AttrIndx &&& 7) 2.
(* src: sel4_vspace/src/arch/aarch64/pte.rs 208-228 PTE::pte_new_page *)
Definition pte_new_page (UXN page_base_address nG AF SH AP AttrIndx : Z) : Z :=
  pte_page_val UXN page_base_address nG AF SH AP AttrIndx ||| wshl 1 0.
(* src: sel4_vspace/src/arch/aarch64/pte.rs 230-249 PTE::pte_new_4k_page *)
Definition pte_new_4k_page (UXN page_base_address nG AF SH AP AttrIndx : Z) : Z :=
  pte_page_val UXN page_base_address nG AF SH AP AttrIndx ||| 0x400000000000003.

(* src: sel4_vspace/src/arch/aarch64/structures.rs 11-17 vm_attributes_t::get_armExecuteNever *)
Definition get_armExecuteNever (attr : Z) : bool := (attr &&& 4) <>w 0.
(* src: sel4_vspace/src/arch/aarch64/structures.rs 19-25 vm_attributes_t::get_armPageCacheable *)
Definition get_armPageCacheable (attr : Z) : bool := (attr &&& 1) <>w 0.
(* src: sel4_vspace/src/arch/aarch64/machine.rs 325-332 mair_types *)
Definition mair_NORMAL : Z := 4.
(* src: sel4_vspace/src/arch/aarch64/machine.rs 326-326 mair_types *)
Definition mair_DEVICE_nGnRnE : Z := 0.
(* src: sel4_vspace/src/arch/aarch64/pte.rs 182-201 PTE::make_user_pte *)
Definition make_user_pte (paddr : Z) (rights : vm_rights_t) (attr page_size : Z) : Z :=
  let nonexecutable := get_armExecuteNever attr in
  let attrindx := if get_armPageCacheable attr then mair_NORMAL else mair_DEVICE_nGnRnE in
  let vm_right := wshr (ap_from_vm_rights_t rights) 6 in
  if page_size =w ARM_Small_Page
  then pte_new_4k_page (b2w nonexecutable) paddr 1 1 0 vm_right attrindx
  else pte_new_page (b2w nonexecutable) paddr 1 1 0 vm_right attrindx.

(** ** The machine *)
(* src: sel4_vspace/src/arch/aarch64/machine.rs 18-20 ttbr_new *)
Definition ttbr_new (asid addr : Z) : Z := wshl (asid &&& 0xffff) 48 ||| (addr &&& 0xffffffffffff).
(* src: sel4_vspace/src/arch/aarch64/machine.rs 11-15 setCurrentUserVSpaceRoot *)
Definition setCurrentUserVSpaceRoot (val : Z) : ST kst unit :=
  vm_mod (fun v => Vm (armKSASIDTable v) (asid_pools v) val (arm_global_user_vspace_base v) (hw_trace v)) ;;
  hw TlbAll.
(* src: sel4_vspace/src/arch/aarch64/machine.rs 48-57 invalidate_local_tlb_asid *)
Definition invalidate_local_tlb_asid (asid : Z) : ST kst unit :=
  assert_m (bool_decide (asid < wshl 1 16)) ;; hw (TlbAsid (wshl asid 48)).
(* src: sel4_vspace/src/arch/aarch64/machine.rs 60-67 invalidate_local_tlb_va_asid *)
Definition invalidate_local_tlb_va_asid (mva_plus_asid : Z) : ST kst unit :=
  hw (TlbVaAsid mva_plus_asid).
(* src: sel4_vspace/src/arch/aarch64/machine.rs 70-75 clean_by_va_pou *)
Definition clean_by_va_pou (vaddr _paddr : Z) : ST kst unit := hw (CleanPoU vaddr).
(* src: sel4_vspace/src/arch/aarch64/interface.rs 271-273 invalidate_tlb_by_asid *)
Definition invalidate_tlb_by_asid (asid : Z) : ST kst unit := invalidate_local_tlb_asid asid.
(* src: sel4_vspace/src/arch/aarch64/interface.rs 276-278 invalidate_tlb_by_asid_va *)
Definition invalidate_tlb_by_asid_va (asid vaddr : Z) : ST kst unit :=
  invalidate_local_tlb_va_asid (wshl asid 48 ||| wshr vaddr seL4_PageBits).

(** [pte.update(v)] at the address of the entry. *)
(* src: sel4_vspace/src/arch/aarch64/pte.rs 166-172 PTE::update *)
Definition pte_update (p v : Z) : ST kst unit := word_set p v ;; clean_by_va_pou p p.

(* src: sel4_vspace/src/arch/aarch64/structures.rs 41-44 lookupPTSlot_ret_t *)
Record lookupPTSlot_ret_t := LookupPTSlotRet { ptSlot : Z; ptBitsLeft : Z }.

(** The loop runs while [level > 0]: its fuel is the level. *)
(* src: sel4_vspace/src/arch/aarch64/pte.rs 260-268 PTE::lookup_pt_slot *)
Fixpoint lookup_pt_loop (level : nat) (vptr : Z) (ret : lookupPTSlot_ret_t)
    : ST kst lookupPTSlot_ret_t :=
  p ← ptr_to_mut (ptSlot ret);
  e ← word_get p;
  match level with
  | S level =>
      if pte_get_type e =w pte_table then
        let bits := wsub (ptBitsLeft ret) PT_INDEX_BITS in
        let pt := paddr_to_pptr (next_level_paddr e) in
        lookup_pt_loop level vptr
          (LookupPTSlotRet (pte_add pt (wshr vptr bits &&& MASK PT_INDEX_BITS)) bits)
      else mret ret
  | O => mret ret
  end.
(** [self] is the temporary entry that holds the root's address. *)
(* src: sel4_vspace/src/arch/aarch64/pte.rs 251-270 PTE::lookup_pt_slot *)
Definition lookup_pt_slot (self vptr : Z) : ST kst lookupPTSlot_ret_t :=
  let level := UPT_LEVELS - 1 in
  let bits := wadd (wmul PT_INDEX_BITS level) seL4_PageBits in
  let pt := pte_add self (wshr vptr bits &&& MASK seL4_VSpaceIndexBits) in
  lookup_pt_loop (Z.to_nat level) vptr (LookupPTSlotRet pt bits).

(** ** ASIDs *)
(* src: sel4_vspace/src/arch/aarch64/structures.rs 131-136 asid_map_t *)
Definition asid_map_t : bitstruct := Bs 1 0 0 1.
(* src: sel4_vspace/src/arch/aarch64/structures.rs 134-134 vspace_root *)
Definition asid_vspace_root : bitfield := Bf 0 12 36 12 true.
(* src: sel4_vspace/src/arch/aarch64/structures.rs 132-132 asid_map_t::new_none *)
Definition asid_map_new_none : Z := bf_new asid_map_t [] 0 !!! 0%nat.
(* src: sel4_vspace/src/arch/aarch64/structures.rs 133-135 asid_map_t::new_vspace *)
Definition asid_map_new_vspace (root : Z) : Z :=
  bf_new asid_map_t [(asid_vspace_root, root)] 1 !!! 0%nat.
(* src: sel4_vspace/src/arch/aarch64/asid.rs 16-16 asid_map_asid_map_none *)
Definition asid_map_asid_map_none : Z := 0.
(* src: sel4_vspace/src/arch/aarch64/asid.rs 17-17 asid_map_asid_map_vspace *)
Definition asid_map_asid_map_vspace : Z := 1.
Definition asid_map_get_type (m : Z) : Z := bf_type asid_map_t [m].
Definition asid_map_get_vspace_root (m : Z) : Z := bf_get asid_vspace_root [m].

Definition set_asid_table v m :=
  Vm v (asid_pools m) (ttbr0 m) (arm_global_user_vspace_base m) (hw_trace m).
Definition set_asid_pools v m :=
  Vm (armKSASIDTable m) v (ttbr0 m) (arm_global_user_vspace_base m) (hw_trace m).

(* src: sel4_vspace/src/arch/aarch64/asid.rs 26-29 get_asid_pool_by_index *)
Definition get_asid_pool_by_index (i : Z) : ST kst Z :=
  t ← vm_get armKSASIDTable; lift (idx t i).
(* src: sel4_vspace/src/arch/aarch64/asid.rs 31-36 set_asid_pool_by_index *)
Definition set_asid_pool_by_index (i val : Z) : ST kst unit :=
  t ← vm_get armKSASIDTable; t' ← lift (upd t i val); vm_mod (set_asid_table t').
(** The pool at an address, and a write to one of its entries. *)
Definition pool_get (p : Z) : ST kst (list Z) :=
  m ← vm_get asid_pools; lift (or_ub (m !! p)).
Definition pool_set (p i v : Z) : ST kst unit :=
  pool ← pool_get p; pool' ← lift (upd pool i v);
  vm_mod (fun m => set_asid_pools (<[p := pool']> (asid_pools m)) m).

(* src: sel4_vspace/src/arch/aarch64/asid.rs 38-46 find_map_for_asid *)
Definition find_map_for_asid (asid : Z) : ST kst (option Z) :=
  poolPtr ← get_asid_pool_by_index (wshr asid asidLowBits);
  if poolPtr =w 0 then mret None
  else
    pool ← pool_get poolPtr;
    m ← lift (idx pool (asid &&& MASK asidLowBits));
    mret (Some m).

(* src: sel4_vspace/src/structures.rs 31-36 findVSpaceForASID_ret *)
Record findVSpaceForASID_ret := FindVSpaceRet {
  fv_status : exception_t; fv_vspace_root : option Z; fv_lookup_fault : option (list Z) }.
(* src: sel4_vspace/src/arch/aarch64/asid.rs 48-65 find_vspace_for_asid *)
Definition find_vspace_for_asid (asid : Z) : ST kst findVSpaceForASID_ret :=
  let fault := Some lookup_fault_new_root_invalid in
  m ← find_map_for_asid asid;
  mret match m with
       | Some asid_map =>
           if asid_map_get_type asid_map =w asid_map_asid_map_vspace
           then FindVSpaceRet EXCEPTION_NONE (Some (asid_map_get_vspace_root asid_map)) fault
           else FindVSpaceRet EXCEPTION_LOOKUP_FAULT None fault
       | None => FindVSpaceRet EXCEPTION_LOOKUP_FAULT None fault
       end.

(** [set_vm_root] always succeeds on this architecture. *)
(* src: sel4_vspace/src/arch/aarch64/interface.rs 121-124 set_vm_root *)
Definition set_vm_root (vspace_root : list Z) : ST kst unit :=
  setCurrentUserVSpaceRoot (pptr_to_paddr (bf_get vs_base_ptr vspace_root)).

(* src: sel4_vspace/src/arch/aarch64/asid.rs 68-81 delete_asid *)
Definition delete_asid (asid vspace : Z) (c : list Z) : ST kst unit :=
  ptr ← get_asid_pool_by_index (wshr asid asidLowBits);
  if ptr =w 0 then skip
  else
    pool ← pool_get ptr;
    m ← lift (idx pool (asid &&& MASK asidLowBits));
    if (asid_map_get_type m =w asid_map_asid_map_vspace)
       && (asid_map_get_vspace_root m =w vspace) then
      invalidate_local_tlb_asid asid ;;
      pool_set ptr (asid &&& MASK asidLowBits) asid_map_new_none ;;
      set_vm_root c
    else skip.

(* src: sel4_vspace/src/arch/aarch64/asid.rs 84-103 delete_asid_pool *)
Definition delete_asid_pool (asid_base pool : Z) (default_vspace_cap : list Z) : ST kst unit :=
  pool_in_table ← get_asid_pool_by_index (wshr asid_base asidLowBits);
  if pool =w pool_in_table then
    p ← ref pool_in_table;
    for_range (Z.to_nat (BIT asidLowBits)) 0 (fun offset =>
      ms ← pool_get p;
      m ← lift (idx ms offset);
      when (asid_map_get_type m =w asid_map_asid_map_vspace)
        (invalidate_local_tlb_asid (wadd asid_base offset))) ;;
    set_asid_pool_by_index (wshr asid_base asidLowBits) 0 ;;
    set_vm_root default_vspace_cap
  else skip.

(* src: sel4_vspace/src/arch/aarch64/interface.rs 188-203 set_vm_root_for_flush_with_thread_root *)
Definition set_vm_root_for_flush_with_thread_root (vspace asid : Z) (thread_root : list Z)
    : ST kst bool :=
  t ← lift (get_cap_type thread_root);
  if (t =t CapVspaceCap) && (bf_get vs_is_mapped thread_root <>w 0)
     && (bf_get vs_base_ptr thread_root =w vspace) then mret false
  else setCurrentUserVSpaceRoot (ttbr_new asid vspace) ;; mret true.

(** ** Unmapping *)
(** One step down the table; [None] when the walk met an entry that is not a
    table. The loop runs while [level < UPT_LEVELS - 1]. *)
(* src: sel4_vspace/src/arch/aarch64/interface.rs 309-319 unmap_page_table *)
Fixpoint unmap_walk (fuel : nat) (level vaddr pt slot_ pte : Z) : ST kst (option (Z * Z)) :=
  match fuel with
  | O => mret (Some (slot_, pte))
  | S fuel =>
      if pte =w pt then mret (Some (slot_, pte))
      else
        let slot_ := pte_add pte (GET_UPT_INDEX vaddr level) in
        p ← ptr_to_mut slot_;
        e ← word_get p;
        if pte_get_type e <>w pte_table then mret None
        else unmap_walk fuel (level + 1) vaddr pt slot_ (paddr_to_pptr (next_level_paddr e))
  end.
(* src: sel4_vspace/src/arch/aarch64/interface.rs 304-329 unmap_page_table *)
Definition unmap_page_table (asid vaddr pt : Z) : ST kst unit :=
  find_ret ← find_vspace_for_asid asid;
  if bool_decide (fv_status find_ret <> EXCEPTION_NONE) then skip
  else
    root ← lift (or_panic (fv_vspace_root find_ret));
    r ← unmap_walk (Z.to_nat (UPT_LEVELS - 1)) 0 vaddr pt 0 root;
    match r with
    | None => skip
    | Some (slot_, pte) =>
        if pte <>w pt then skip
        else
          assert_m (slot_ <>w 0) ;;
          word_set slot_ 0 ;;
          v ← word_get pte;
          pte_update slot_ v ;;
          invalidate_tlb_by_asid asid
    end.

(** [Err] is never returned. *)
(* src: sel4_vspace/src/arch/aarch64/interface.rs 333-365 unmapPage *)
Definition unmapPage (page_size asid vptr pptr : Z) : ST kst unit :=
  let addr := pptr_to_paddr pptr in
  find_ret ← find_vspace_for_asid asid;
  if bool_decide (fv_status find_ret <> EXCEPTION_NONE) then skip
  else
    root ← lift (or_panic (fv_vspace_root find_ret));
    lu_ret ← lookup_pt_slot root vptr;
    bits ← lift (pageBitsForSize page_size);
    if ptBitsLeft lu_ret <>w bits then skip
    else
      p ← ptr_to_mut (ptSlot lu_ret);
      pte ← word_get p;
      if negb ((pte_get_type pte =w pte_4k_page) || (pte_get_type pte =w pte_page)) then skip
      else if get_page_base_address pte <>w addr then skip
      else
        word_set (ptSlot lu_ret) 0 ;;
        v ← word_get (ptSlot lu_ret);
        pte_update p v ;;
        assert_m (bool_decide (asid < BIT 16)) ;;
        invalidate_tlb_by_asid asid.

(** The cache operations themselves are assembly: the range is recorded. *)
(* src: sel4_vspace/src/arch/aarch64/interface.rs 440-459 doFlush *)
Definition doFlush (invLabel : MessageLabel) (start end_ pstart : Z) : ST kst unit :=
  match invLabel with
  | ARMPageClean_Data | ARMVSpaceClean_Data | ARMPageInvalidate_Data | ARMVSpaceInvalidate_Data
  | ARMVSpaceCleanInvalidate_Data | ARMPageCleanInvalidate_Data
  | ARMPageUnify_Instruction | ARMVSpaceUnify_Instruction => hw (CacheOp invLabel start end_ pstart)
  | _ => panic
  end.

(** [write_it_asid_pool] of boot. *)
(* src: sel4_vspace/src/arch/aarch64/structures.rs 99-104 asid_pool_from_addr *)
Definition asid_pool_from_addr (addr : Z) : ST kst Z := assert_m (addr <>w 0) ;; ref addr.
(* src: sel4_common/src/sel4_config.rs 64-64 IT_ASID *)
Definition IT_ASID : Z := 1.
(* src: sel4_vspace/src/arch/aarch64/asid.rs 107-112 write_it_asid_pool *)
Definition write_it_asid_pool (it_ap_cap it_vspace_cap : list Z) : ST kst unit :=
  p ← lift (get_cap_ptr it_ap_cap);
  ap ← asid_pool_from_addr p;
  pool_set ap IT_ASID (asid_map_new_vspace (bf_get vs_base_ptr it_vspace_cap)) ;;
  set_asid_pool_by_index (wshr IT_ASID asidLowBits) ap.
