(* ===== verification/VspaceProps.v ===== *)
(** * Address spaces: theorems

    [vm_ok] says that the entries of the ASID table lead to pools of the right
    size, each pool at most once.  [asid_root] is then the finite map from ASIDs to
    address spaces the two levels represent: the lookup reads it, deletion
    removes one entry.  The entries [make_user_pte] builds decode to the
    mapping asked for; unmapping a page clears exactly its entry. *)

From stdpp Require Import base numbers gmap list.
From S2P Require Import Prelude Bitfield Common Cap DList CSpace Sched State Vspace.
Local Open Scope Z_scope.
Local Open Scope krn_scope.

(** ** ASIDs *)
Record vm_ok (v : vm_t) : Prop := {
  vm_table : length (armKSASIDTable v) = 128%nat;
  vm_pools : forall i p, armKSASIDTable v !! i = Some p -> p <> 0 ->
    exists l, asid_pools v !! p = Some l /\ length l = 512%nat;
  vm_inj : forall i j p, armKSASIDTable v !! i = Some p -> armKSASIDTable v !! j = Some p ->
    p <> 0 -> i = j }.

Section vm.
Implicit Types (v : vm_t) (s : kst) (asid : Z).

Lemma asid_split asid : 0 <= asid < 2 ^ 16 ->
  wshr asid asidLowBits = asid / 512 /\ asid &&& MASK asidLowBits = asid `mod` 512 /\
  0 <= asid / 512 < 128 /\ 0 <= asid `mod` 512 < 512.
Proof.
  intros H. change (MASK asidLowBits) with (Z.ones 9). rewrite Z.land_ones by lia.
  rewrite wshr_spec by (unfold asidLowBits; lia). change (2 ^ 9) with 512. change (2 ^ asidLowBits) with 512.
  split; [done|]. split; [done|]. split; [|apply Z.mod_pos_bound; lia].
  split; [apply Z.div_pos; lia|apply Z.div_lt_upper_bound; lia].
Qed.

(** The entry of an ASID: the table's entry, and the pool's. *)
Definition asid_entry v asid : option Z :=
  p ← armKSASIDTable v !! Z.to_nat (asid / 512);
  if decide (p = 0) then None
  else l ← asid_pools v !! p; l !! Z.to_nat (asid `mod` 512).

Lemma find_map_spec s asid : vm_ok (k_vm s) -> 0 <= asid < 2 ^ 16 ->
  find_map_for_asid asid s = Ok (asid_entry (k_vm s) asid, s).
Proof.
  intros Hv Ha. destruct (asid_split asid Ha) as (E1 & E2 & H1 & H2).
  unfold find_map_for_asid, asid_entry, get_asid_pool_by_index. rewrite E1, E2.
  destruct (lookup_lt_is_Some_2 (armKSASIDTable (k_vm s)) (Z.to_nat (asid / 512))) as [p Hp].
  { rewrite (vm_table _ Hv). lia. }
  unfold vm_get, gets, mbind, st_bind, lift. rewrite (idx_Ok _ _ p) by (done || lia).
  rewrite Hp. cbn [mbind option_bind]. destruct (decide (p = 0)) as [->|Hn]; [done|].
  rewrite bool_decide_false by done. destruct (vm_pools _ Hv _ _ Hp Hn) as (l & Hl & Hlen).
  unfold pool_get, vm_get, gets, mbind, st_bind, lift, or_ub. rewrite Hl. cbn [mbind option_bind].
  destruct (lookup_lt_is_Some_2 l (Z.to_nat (asid `mod` 512))) as [m Hm]; [lia|].
  rewrite (idx_Ok _ _ m) by (done || lia). by rewrite Hm.
Qed.

(** The result of the lookup. *)
Definition asid_root v asid : option Z :=
  match asid_entry v asid with
  | Some m => if asid_map_get_type m =w asid_map_asid_map_vspace
              then Some (asid_map_get_vspace_root m) else None
  | None => None
  end.
Definition find_ret (r : option Z) : findVSpaceForASID_ret :=
  FindVSpaceRet (match r with Some _ => EXCEPTION_NONE | None => EXCEPTION_LOOKUP_FAULT end) r
    (Some lookup_fault_new_root_invalid).
Lemma find_vspace_spec s asid : vm_ok (k_vm s) -> 0 <= asid < 2 ^ 16 ->
  find_vspace_for_asid asid s = Ok (find_ret (asid_root (k_vm s) asid), s).
Proof.
  intros Hv Ha. unfold find_vspace_for_asid. rewrite (st_bind_Ok _ _ _ _ _ (find_map_spec s asid Hv Ha)).
  unfold asid_root. destruct (asid_entry (k_vm s) asid); [|done]. by case_bool_decide.
Qed.
End vm.


(** ** Deleting an ASID *)
Section delete_asid.
Implicit Types (v : vm_t) (s : kst) (asid a : Z).

Lemma asid_entry_root v asid r : asid_root v asid = Some r ->
  exists p l m, armKSASIDTable v !! Z.to_nat (asid / 512) = Some p /\ p <> 0 /\
    asid_pools v !! p = Some l /\ l !! Z.to_nat (asid `mod` 512) = Some m /\
    asid_map_get_type m = asid_map_asid_map_vspace /\ asid_map_get_vspace_root m = r.
Proof.
  unfold asid_root, asid_entry.
  destruct (armKSASIDTable v !! Z.to_nat (asid / 512)) as [p|]; cbn [mbind option_bind]; [|done].
  case_decide; [done|]. destruct (asid_pools v !! p) as [l|] eqn:Hl; cbn [mbind option_bind]; [|done].
  destruct (l !! Z.to_nat (asid `mod` 512)) as [m|] eqn:Hm; [|done].
  case_bool_decide; [|done]. intros [= <-]. exists p, l, m. done.
Qed.

(** The pools with one entry of one pool changed. *)
Definition set_entry v p l (asid m : Z) : vm_t :=
  set_asid_pools (<[p := <[Z.to_nat (asid `mod` 512) := m]> l]> (asid_pools v)) v.

Lemma set_entry_ok v p l asid m : vm_ok v -> asid_pools v !! p = Some l -> length l = 512%nat ->
  vm_ok (set_entry v p l asid m).
Proof.
  intros [H1 H2 H3] Hl Hlen. split; [done| |done]. cbn. intros i q Hq Hn.
  destruct (decide (q = p)) as [->|]; [|rewrite lookup_insert_ne by done; by apply (H2 i)].
  rewrite lookup_insert_eq. eexists. split; [done|]. by rewrite length_insert.
Qed.

Lemma set_entry_root v p l asid m a :
  vm_ok v -> 0 <= asid < 2 ^ 16 -> 0 <= a < 2 ^ 16 ->
  armKSASIDTable v !! Z.to_nat (asid / 512) = Some p -> p <> 0 -> asid_pools v !! p = Some l ->
  asid_entry (set_entry v p l asid m) a = if decide (a = asid) then Some m else asid_entry v a.
Proof.
  intros Hv Ha Hb Hp Hn Hl. unfold asid_entry. cbn [armKSASIDTable set_entry set_asid_pools asid_pools].
  destruct (asid_split a Hb) as (_ & _ & Ha1 & Ha2). destruct (asid_split asid Ha) as (_ & _ & Hb1 & Hb2).
  destruct (vm_pools _ Hv _ _ Hp Hn) as (l' & Hl' & Hlen). rewrite Hl in Hl'. injection Hl' as <-.
  case_decide as E.
  - subst a. rewrite Hp. cbn [mbind option_bind]. rewrite decide_False by done.
    rewrite lookup_insert_eq. cbn [mbind option_bind]. apply list_lookup_insert_eq. lia.
  - destruct (armKSASIDTable v !! Z.to_nat (a / 512)) as [q|] eqn:Hq; cbn [mbind option_bind]; [|done].
    case_decide as Hq0; [done|]. destruct (decide (q = p)) as [->|Hqp].
    + rewrite lookup_insert_eq, Hl. cbn [mbind option_bind]. apply list_lookup_insert_ne.
      pose proof (vm_inj _ Hv _ _ _ Hq Hp Hn) as Hi. assert (a / 512 = asid / 512) by lia.
      intros Hm. apply E. rewrite (Z.div_mod a 512), (Z.div_mod asid 512) by lia. lia.
    + by rewrite lookup_insert_ne by done.
Qed.

Lemma wp_hw s e (P : unit -> kst -> Prop) :
  (forall v, armKSASIDTable v = armKSASIDTable (k_vm s) -> asid_pools v = asid_pools (k_vm s) ->
     hw_trace v = hw_trace (k_vm s) ++ [e] -> P tt (set_k_vm v s)) -> wp (hw e) P s.
Proof. intros HP. unfold hw, vm_mod. wp_steps. by apply HP. Qed.

(** [asid_root] depends on the table and the pools only. *)
Lemma asid_root_ext v v' asid :
  armKSASIDTable v' = armKSASIDTable v -> asid_pools v' = asid_pools v -> asid_root v' asid = asid_root v asid.
Proof. unfold asid_root, asid_entry. by intros -> ->. Qed.
Lemma vm_ok_ext v v' :
  armKSASIDTable v' = armKSASIDTable v -> asid_pools v' = asid_pools v -> vm_ok v -> vm_ok v'.
Proof. intros E1 E2 [H1 H2 H3]. split; rewrite ?E1, ?E2; done. Qed.

Lemma wp_delete_asid s asid vspace c (P : unit -> kst -> Prop) :
  vm_ok (k_vm s) -> 0 <= asid < 2 ^ 16 -> asid_root (k_vm s) asid = Some vspace ->
  (forall v, vm_ok v -> hw_trace v = hw_trace (k_vm s) ++ [TlbAsid (wshl asid 48); TlbAll] ->
    (forall a, 0 <= a < 2 ^ 16 ->
      asid_root v a = if decide (a = asid) then None else asid_root (k_vm s) a) ->
    P tt (set_k_vm v s)) ->
  wp (delete_asid asid vspace c) P s.
Proof.
  intros Hv Ha Hr HP. destruct (asid_entry_root _ _ _ Hr) as (p & l & m & Hp & Hn & Hl & Hm & Ht & Hroot).
  destruct (asid_split asid Ha) as (E1 & E2 & H1 & H2).
  destruct (vm_pools _ Hv _ _ Hp Hn) as (l' & Hl' & Hlen). rewrite Hl in Hl'. injection Hl' as <-.
  unfold delete_asid, get_asid_pool_by_index, pool_set, pool_get, vm_get. rewrite E1, E2.
  wp_steps. eapply wp_lift; [apply idx_Ok; [lia|exact Hp]|]. rewrite bool_decide_false by done.
  wp_steps. eapply wp_lift; [unfold or_ub; by rewrite Hl|].
  wp_steps. eapply wp_lift; [apply idx_Ok; [lia|exact Hm]|].
  rewrite Ht, Hroot, !bool_decide_true by done. cbn [andb]. unfold invalidate_local_tlb_asid.
  wp_steps. apply wp_assert; [apply bool_decide_true; change (wshl 1 16) with (2 ^ 16); lia|].
  apply wp_hw. intros v1 T1 P1 W1. wp_steps. cbn [k_vm set_k_vm]. rewrite P1.
  eapply wp_lift; [by rewrite Hl|]. wp_steps. eapply wp_lift; [apply upd_Ok; lia|]. wp_steps.
  unfold vm_mod, set_vm_root, setCurrentUserVSpaceRoot. wp_steps. cbn [k_vm set_k_vm].
  apply wp_hw. cbn [k_vm set_k_vm armKSASIDTable asid_pools hw_trace set_asid_pools].
  intros v2 T2 P2 W2. unfold set_k_vm at 2 3. cbn.
  assert (vm_ok (set_entry (k_vm s) p l asid asid_map_new_none)) as Hok by by apply set_entry_ok.
  refine (HP v2 _ _ _).
  - eapply vm_ok_ext; [..|exact Hok]; cbn; congruence.
  - rewrite W2, W1, <- app_assoc. done.
  - intros a Hb.
    rewrite (asid_root_ext (set_entry (k_vm s) p l asid asid_map_new_none) v2) by (cbn; congruence).
    unfold asid_root. erewrite set_entry_root by done. by case_decide.
Qed.

(** An ASID that is not mapped to the address space is left alone. *)
Lemma wp_delete_asid_other s asid vspace c (P : unit -> kst -> Prop) :
  vm_ok (k_vm s) -> 0 <= asid < 2 ^ 16 -> asid_root (k_vm s) asid <> Some vspace -> P tt s ->
  wp (delete_asid asid vspace c) P s.
Proof.
  intros Hv Ha Hr HP. destruct (asid_split asid Ha) as (E1 & E2 & H1 & H2). revert Hr.
  unfold asid_root, asid_entry, delete_asid, get_asid_pool_by_index, pool_get, vm_get. rewrite E1, E2.
  destruct (lookup_lt_is_Some_2 (armKSASIDTable (k_vm s)) (Z.to_nat (asid / 512))) as [p Hp].
  { rewrite (vm_table _ Hv). lia. }
  rewrite Hp. cbn. intros Hr. wp_steps. eapply wp_lift; [apply idx_Ok; [lia|exact Hp]|].
  case_bool_decide as Ep; [by apply wp_ret|]. rewrite decide_False in Hr by done.
  destruct (vm_pools _ Hv _ _ Hp Ep) as (l & Hl & Hlen). rewrite Hl in Hr. cbn in Hr.
  destruct (lookup_lt_is_Some_2 l (Z.to_nat (asid `mod` 512))) as [m Hm]; [lia|]. rewrite Hm in Hr.
  wp_steps. eapply wp_lift; [unfold or_ub; by rewrite Hl|]. wp_steps. eapply wp_lift; [apply idx_Ok; [lia|exact Hm]|].
  case_bool_decide as Et; [|by apply wp_ret]. case_bool_decide as Er; [by rewrite Er in Hr|by apply wp_ret].
Qed.
End delete_asid.

(** C22: deleting an ASID that maps to the given address space removes exactly
    that entry: its lookup then faults, every other ASID still finds its address
    space, the ASID table stays well formed, and the translations of the ASID
    are invalidated. *)
Theorem delete_asid_removes (s : kst) (asid vspace : Z) (c : list Z) :
  vm_ok (k_vm s) -> 0 <= asid < 2 ^ 16 -> asid_root (k_vm s) asid = Some vspace ->
  wp (delete_asid asid vspace c) (fun _ s' =>
    vm_ok (k_vm s') /\ hw_trace (k_vm s') = hw_trace (k_vm s) ++ [TlbAsid (wshl asid 48); TlbAll] /\
    forall a, 0 <= a < 2 ^ 16 -> find_vspace_for_asid a s' =
      Ok (find_ret (if decide (a = asid) then None else asid_root (k_vm s) a), s')) s.
Proof.
  intros Hv Ha Hr. eapply wp_delete_asid; [done..|]. intros v Hok Htr Hall. split; [done|]. split; [done|].
  intros a Hb. rewrite find_vspace_spec by done. cbn [k_vm set_k_vm]. by rewrite Hall.
Qed.

(** ** Page-table entries *)
Section pte.
Implicit Types (paddr attr size : Z) (rights : vm_rights_t).

(** The bits of an address in an entry. *)
Definition ADDR_BITS : Z := 0xfffffffff000.

Lemma make_user_pte_shape paddr rights attr size :
  paddr &&& ADDR_BITS = paddr ->
  make_user_pte paddr rights attr size = paddr ||| make_user_pte 0 rights attr size.
Proof.
  intros Hp. unfold make_user_pte, pte_new_4k_page, pte_new_page, pte_page_val.
  assert (wshr (paddr &&& 0xfffffffff000) 0 = paddr) as ->.
  { unfold wshr. rewrite Z.land_0_l, Z.shiftr_0_r. exact Hp. }
  change (wshr (0 &&& 0xfffffffff000) 0) with 0. rewrite !Z.lor_0_r.
  destruct (bool_decide _); apply Z.bits_inj'; intros i Hi; rewrite !Z.lor_spec;
    destruct (Z.testbit paddr i); by rewrite ?orb_true_r, ?orb_false_r.
Qed.

Lemma land_split paddr k x :
  paddr &&& ADDR_BITS = paddr -> (paddr ||| k) &&& x = (paddr &&& (ADDR_BITS &&& x)) ||| (k &&& x).
Proof. intros Hp. rewrite Z.land_lor_distr_l. f_equal. by rewrite <- Hp at 1; rewrite Z.land_assoc. Qed.
Lemma land_out paddr k x :
  paddr &&& ADDR_BITS = paddr -> ADDR_BITS &&& x = 0 -> (paddr ||| k) &&& x = k &&& x.
Proof. intros Hp Hx. by rewrite land_split, Hx, Z.land_0_r, Z.lor_0_l. Qed.
End pte.

(** What the hardware reads from an entry: execute never, access permissions
    and the index of the memory attributes. *)
Definition pte_UXN (pte : Z) : Z := pte &&& wshl 1 54.
Definition pte_AP (pte : Z) : Z := pte &&& 0xc0.
Definition pte_AttrIndx (pte : Z) : Z := pte &&& 0x1c.

(** C23: an entry for a user page decodes to the mapping it was made for: the
    address, a page (never a table or an invalid entry), the access rights, and
    execute-never and cacheability of the attributes. *)
Theorem make_user_pte_decodes (paddr : Z) (rights : vm_rights_t) (attr size : Z) :
  paddr &&& ADDR_BITS = paddr ->
  let pte := make_user_pte paddr rights attr size in
  get_page_base_address pte = paddr /\
  pte_get_type pte = (if decide (size = ARM_Small_Page) then pte_4k_page else pte_page) /\
  pte_AP pte = ap_from_vm_rights_t rights /\
  (pte_UXN pte <> 0 <-> get_armExecuteNever attr = true) /\
  pte_AttrIndx pte = (if get_armPageCacheable attr then wshl mair_NORMAL 2 else 0).
Proof.
  intros Hp pte. unfold pte. rewrite make_user_pte_shape by done.
  unfold get_page_base_address, pte_get_type, pte_AP, pte_UXN, pte_AttrIndx.
  rewrite (land_split paddr _ 0xfffffffff000) by done. rewrite !land_out by done.
  change (ADDR_BITS &&& 0xfffffffff000) with ADDR_BITS. rewrite Hp.
  unfold make_user_pte. destruct (get_armExecuteNever attr), (get_armPageCacheable attr), rights;
    case_decide as E; (rewrite bool_decide_true by done) || (rewrite bool_decide_false by done);
    (split; [by rewrite <- Z.lor_0_r|]); (split; [done|]); (split; [done|]); done.
Qed.

(** ** Unmapping *)
Section unmap.
Implicit Types (s : kst) (asid vptr pptr root p bits pte size pt : Z) (v : vm_t).

Lemma wp_word_get s p w (P : Z -> kst -> Prop) : k_mem s !! p = Some w -> P w s -> wp (word_get p) P s.
Proof. intros Hv HP. apply wp_zoom. eapply wp_load; [exact Hv|]. by destruct s. Qed.
Lemma wp_word_set s p w (P : unit -> kst -> Prop) :
  is_Some (k_mem s !! p) -> P tt (set_k_mem (<[p := w]> (k_mem s)) s) -> wp (word_set p w) P s.
Proof. intros [v Hv] HP. apply wp_zoom. by eapply wp_store_with. Qed.
Lemma wp_pte_update s p w (P : unit -> kst -> Prop) :
  is_Some (k_mem s !! p) ->
  (forall v, armKSASIDTable v = armKSASIDTable (k_vm s) -> asid_pools v = asid_pools (k_vm s) ->
     hw_trace v = hw_trace (k_vm s) ++ [CleanPoU p] ->
     P tt (set_k_vm v (set_k_mem (<[p := w]> (k_mem s)) s))) ->
  wp (pte_update p w) P s.
Proof.
  intros Hp HP. unfold pte_update, clean_by_va_pou. apply wp_bind, wp_word_set; [done|].
  apply wp_hw. cbn [k_vm set_k_mem]. exact HP.
Qed.
Lemma wp_find_vspace s asid (P : findVSpaceForASID_ret -> kst -> Prop) :
  vm_ok (k_vm s) -> 0 <= asid < 2 ^ 16 -> P (find_ret (asid_root (k_vm s) asid)) s ->
  wp (find_vspace_for_asid asid) P s.
Proof. intros Hv Ha HP. eapply wp_intro; [by apply find_vspace_spec|done]. Qed.
Lemma wp_invalidate_asid s asid (P : unit -> kst -> Prop) :
  0 <= asid < 2 ^ 16 ->
  (forall v, armKSASIDTable v = armKSASIDTable (k_vm s) -> asid_pools v = asid_pools (k_vm s) ->
     hw_trace v = hw_trace (k_vm s) ++ [TlbAsid (wshl asid 48)] -> P tt (set_k_vm v s)) ->
  wp (invalidate_tlb_by_asid asid) P s.
Proof.
  intros Ha HP. unfold invalidate_tlb_by_asid, invalidate_local_tlb_asid. apply wp_bind, wp_assert.
  - apply bool_decide_true. change (wshl 1 16) with (2 ^ 16). lia.
  - by apply wp_hw.
Qed.

(** The entry [pte], found with [b] bits left, maps the frame. *)
Definition maps_frame pte b bits pptr : bool :=
  (b =w bits) && ((pte_get_type pte =w pte_4k_page) || (pte_get_type pte =w pte_page))
  && (get_page_base_address pte =w pptr_to_paddr pptr).
End unmap.

(** C21: [unmapPage] removes the mapping of a frame and nothing else: when the
    walk of the address space ends, at the frame's level, at an entry that maps
    the frame, this entry is cleared and the ASID's translations are
    invalidated; when it ends anywhere else, nothing happens. *)
Theorem unmapPage_exact (s : kst) (size bits asid vptr pptr root p b pte : Z) :
  vm_ok (k_vm s) -> 0 <= asid < 2 ^ 16 -> asid_root (k_vm s) asid = Some root ->
  lookup_pt_slot root vptr s = Ok (LookupPTSlotRet p b, s) -> pageBitsForSize size = Ok bits ->
  p <> 0 -> k_mem s !! p = Some pte ->
  wp (unmapPage size asid vptr pptr) (fun _ s' =>
    if maps_frame pte b bits pptr then
      exists v, s' = set_k_vm v (set_k_mem (<[p := 0]> (k_mem s)) s) /\ vm_ok v /\
        hw_trace v = hw_trace (k_vm s) ++ [CleanPoU p; TlbAsid (wshl asid 48)]
    else s' = s) s.
Proof.
  intros Hv Ha Hr Hl Hb Hp Hm. unfold unmapPage, maps_frame. cbv zeta.
  apply wp_bind, wp_find_vspace; [done..|]. rewrite Hr. cbn [find_ret fv_status fv_vspace_root].
  rewrite bool_decide_false by (intros Hn; by apply Hn).
  apply wp_bind. eapply wp_lift; [done|]. apply wp_bind. eapply wp_intro; [exact Hl|].
  apply wp_bind. eapply wp_lift; [exact Hb|]. cbn [ptBitsLeft ptSlot].
  destruct (b =w bits); cbn [negb andb]; [|done].
  unfold ptr_to_mut. apply wp_bind, wp_bind, wp_assert; [by rewrite bool_decide_false|]. apply wp_ret.
  apply wp_bind. eapply wp_word_get; [exact Hm|].
  destruct (_ || _)%bool; cbn [negb andb]; [|done].
  destruct (get_page_base_address pte =w pptr_to_paddr pptr); cbn [negb]; [|done].
  apply wp_bind, wp_word_set; [by eauto|]. apply wp_bind. eapply wp_word_get.
  { cbn. apply lookup_insert_eq. }
  apply wp_bind, wp_pte_update; [cbn; rewrite lookup_insert_eq; by eauto|]. intros v T1 P1 W1.
  cbn in T1, P1, W1. apply wp_bind, wp_assert.
  { apply bool_decide_true. rewrite BIT_spec by lia. lia. }
  apply wp_invalidate_asid; [done|]. intros v2 T2 P2 W2. cbn in T2, P2, W2. exists v2. split_and!.
  - unfold set_k_vm, set_k_mem. cbn. by rewrite insert_insert_eq.
  - eapply vm_ok_ext; [..|exact Hv]; congruence.
  - by rewrite W2, W1, <- app_assoc.
Qed.

(** [unmap_page_table] does not clear the entry of the table it unmaps:
    when the walk reaches the table, its entry in the parent is overwritten with
    the first entry of the table itself. *)
Theorem unmap_page_table_copies_entry (s : kst) (asid vaddr pt root slot_ e old : Z) :
  vm_ok (k_vm s) -> 0 <= asid < 2 ^ 16 -> asid_root (k_vm s) asid = Some root ->
  unmap_walk (Z.to_nat (UPT_LEVELS - 1)) 0 vaddr pt 0 root s = Ok (Some (slot_, pt), s) ->
  slot_ <> 0 -> k_mem s !! slot_ = Some old -> k_mem s !! pt = Some e -> pt <> slot_ ->
  wp (unmap_page_table asid vaddr pt) (fun _ s' => k_mem s' = <[slot_ := e]> (k_mem s)) s.
Proof.
  intros Hv Ha Hr Hw Hs Ho He Hne. unfold unmap_page_table.
  apply wp_bind, wp_find_vspace; [done..|]. rewrite Hr. cbn [find_ret fv_status fv_vspace_root].
  rewrite bool_decide_false by (intros Hn; by apply Hn).
  apply wp_bind. eapply wp_lift; [done|]. apply wp_bind. eapply wp_intro; [exact Hw|].
  cbn iota. rewrite bool_decide_true by done. cbn [negb].
  apply wp_bind, wp_assert; [by rewrite bool_decide_false|].
  apply wp_bind, wp_word_set; [by eauto|]. apply wp_bind. eapply wp_word_get.
  { cbn. rewrite lookup_insert_ne by done. exact He. }
  apply wp_bind, wp_pte_update; [cbn; rewrite lookup_insert_eq; by eauto|]. intros v _ _ _.
  apply wp_invalidate_asid; [done|]. intros v2 _ _ _. cbn. by rewrite insert_insert_eq.
Qed.

(** ** Instances

    One pool; its ASID 1 is an address space of four tables that maps the frame
    at physical address [0x200000] at [0x1000]. *)
Definition w_pool : Z := 0xffffff8000108000.
Definition w_root : Z := 0xffffff8000100000.
Definition w_pt3 : Z := 0xffffff8000103000.
Definition w_pte : Z := make_user_pte 0x200000 VMReadWrite 1 ARM_Small_Page.
Definition w_pte0 : Z := make_user_pte 0x300000 VMReadWrite 1 ARM_Small_Page.
Definition one_pool (l : list Z) : vm_t := Vm (<[0%nat := w_pool]> (replicate 128 0)) {[w_pool := l]} 0 0 [].
Definition w_vm : vm_t := one_pool (<[1%nat := asid_map_new_vspace w_root]> (replicate 512 0)).
Definition w_mem : gmap Z Z :=
  <[w_root := pte_new_table 0x101000]> (<[0xffffff8000101000 := pte_new_table 0x102000]>
  (<[0xffffff8000102000 := pte_new_table 0x103000]> (<[w_pt3 := w_pte0]> (<[w_pt3 + 8 := w_pte]> ∅)))).
Definition w_vs : kst := set_k_vm w_vm (set_k_mem w_mem kst_empty).

Lemma one_pool_ok l : length l = 512%nat -> vm_ok (one_pool l).
Proof.
  intros Hl. assert (forall (i : nat) p, <[0%nat := w_pool]> (replicate 128 0) !! i = Some p -> p <> 0 -> i = 0%nat /\ p = w_pool) as H.
  { intros i p Hi Hn. destruct (decide (i = 0%nat)) as [->|]; [by injection Hi as <-|].
    rewrite list_lookup_insert_ne in Hi by done. by apply lookup_replicate in Hi as [-> _]. }
  split.
  - vm_compute. reflexivity.
  - intros i p Hi Hn. destruct (H i p Hi Hn) as [_ ->]. exists l. split; [apply lookup_singleton_eq|done].
  - intros i j p Hi Hj Hn. destruct (H i p Hi Hn), (H j p Hj Hn). congruence.
Qed.
Lemma w_vm_ok : vm_ok (k_vm w_vs).
Proof. by apply one_pool_ok. Qed.

Lemma delete_asid_removes_witness :
  wp (delete_asid 1 w_root [0; 0]) (fun _ s' =>
    vm_ok (k_vm s') /\ hw_trace (k_vm s') = hw_trace (k_vm w_vs) ++ [TlbAsid (wshl 1 48); TlbAll] /\
    forall a, 0 <= a < 2 ^ 16 -> find_vspace_for_asid a s' =
      Ok (find_ret (if decide (a = 1) then None else asid_root (k_vm w_vs) a), s')) w_vs.
Proof.
  apply (delete_asid_removes w_vs 1 w_root [0; 0]); [exact w_vm_ok|lia|]. vm_compute. reflexivity.
Defined.

Lemma make_user_pte_decodes_witness :
  let pte := make_user_pte 0x200000 VMReadOnly 4 ARM_Small_Page in
  get_page_base_address pte = 0x200000 /\
  pte_get_type pte = (if decide (ARM_Small_Page = ARM_Small_Page) then pte_4k_page else pte_page) /\
  pte_AP pte = ap_from_vm_rights_t VMReadOnly /\
  (pte_UXN pte <> 0 <-> get_armExecuteNever 4 = true) /\
  pte_AttrIndx pte = (if get_armPageCacheable 4 then wshl mair_NORMAL 2 else 0).
Proof. apply (make_user_pte_decodes 0x200000 VMReadOnly 4 ARM_Small_Page). vm_compute. reflexivity. Defined.

Lemma unmapPage_exact_witness :
  maps_frame w_pte 12 12 0xffffff8000200000 = true /\
  wp (unmapPage ARM_Small_Page 1 0x1000 0xffffff8000200000) (fun _ s' =>
    if maps_frame w_pte 12 12 0xffffff8000200000 then
      exists v, s' = set_k_vm v (set_k_mem (<[w_pt3 + 8 := 0]> (k_mem w_vs)) w_vs) /\ vm_ok v /\
        hw_trace v = hw_trace (k_vm w_vs) ++ [CleanPoU (w_pt3 + 8); TlbAsid (wshl 1 48)]
    else s' = w_vs) w_vs.
Proof.
  split; [vm_compute; reflexivity|].
  apply (unmapPage_exact w_vs ARM_Small_Page 12 1 0x1000 0xffffff8000200000 w_root (w_pt3 + 8) 12 w_pte);
    [exact w_vm_ok|lia|vm_compute; reflexivity..|done|vm_compute; reflexivity].
Defined.

Lemma unmap_page_table_copies_entry_witness :
  wp (unmap_page_table 1 0x1000 w_pt3) (fun _ s' =>
    k_mem s' = <[0xffffff8000102000 := w_pte0]> (k_mem w_vs)) w_vs.
Proof.
  apply (unmap_page_table_copies_entry w_vs 1 0x1000 w_pt3 w_root 0xffffff8000102000 w_pte0
    (pte_new_table 0x103000));
    [exact w_vm_ok|lia|vm_compute; reflexivity..|done|vm_compute; reflexivity|vm_compute; reflexivity|done].
Defined.
