(* ===== verification/Threads.v ===== *)
(** * Threads in the whole kernel

    The operations of [sel4_task/src/tcb.rs] that reach a thread's capability
    slots, the capability space or memory, and the choice of the next thread
    ([scheduler.rs]).  A thread object of [2 ^ seL4_TCBBits] bytes holds its
    five slots first and the [tcb_t] after them. *)

From stdpp Require Import base numbers gmap list.
From S2P Require Import Prelude Bitfield Common Cap DList CSpace Sched State Vspace.
Local Open Scope Z_scope.
Local Open Scope krn_scope.

(** The address of the [i]th slot of a thread. *)
(* src: sel4_task/src/tcb.rs 72-78 tcb_t::get_cspace *)
Definition get_cspace (tcb i : Z) : Z := cte_add (tcb &&& wnot (MASK seL4_TCBBits)) i.
(* src: sel4_task/src/tcb.rs 86-93 tcb_t::get_cspace_mut_ref *)
Definition get_cspace_mut_ref (tcb i : Z) : Z := cte_add (tcb &&& wnot (MASK seL4_TCBBits)) i.
Definition cspace_cap (tcb i : Z) : ST kst (list Z) := x ← slot (get_cspace tcb i); mret (cte_cap x).

(** ** Address space and scheduling *)
Definition root_global_user : ST kst unit :=
  base ← vm_get arm_global_user_vspace_base;
  setCurrentUserVSpaceRoot (ttbr_new 0 (kpptr_to_paddr base)).
(* src: sel4_task/src/tcb.rs 307-334 tcb_t::set_vm_root *)
Definition tcb_set_vm_root (self : Z) : ST kst unit :=
  thread_root ← cspace_cap self tcbVTable;
  valid ← lift (is_valid_native_root thread_root);
  if negb valid then root_global_user
  else
    let vspace_root := bf_get vs_base_ptr thread_root in
    let asid := bf_get vs_mapped_asid thread_root in
    find_ret ← find_vspace_for_asid asid;
    match fv_vspace_root find_ret with
    | Some root =>
        if bool_decide (fv_status find_ret <> EXCEPTION_NONE) || (root <>w vspace_root)
        then root_global_user
        else set_vm_root thread_root
    | None => set_vm_root thread_root
    end.
(* src: sel4_task/src/tcb.rs 338-345 tcb_t::switch_to_this *)
Definition switch_to_this (self : Z) : ST kst unit :=
  tcb_set_vm_root self ;; on_sst (sched_dequeue self) ;; on_sst (set_current_thread self).

(* src: sel4_task/src/scheduler.rs 377-417 chooseThread *)
Definition chooseThread : ST kst unit :=
  let dom := 0 in
  g ← on_sst (gl_get id);
  l1 ← lift (idx (ksReadyQueuesL1Bitmap g) dom);
  if l1 <>w 0 then
    prio ← on_sst (getHighestPrio dom);
    q ← lift (idx (ksReadyQueues g) (ready_queues_index dom prio));
    let thread := head q in
    assert_m (thread <>w 0) ;;
    switch_to_this thread
  else
    root_global_user ;;
    on_sst (gl_mod (fun g => set_ksCurThread (ksIdleThread g) g)).
(* src: sel4_task/src/scheduler.rs 364-375 scheduleChooseNewThread *)
Definition scheduleChooseNewThread : ST kst unit :=
  g ← on_sst (gl_get id);
  when (ksDomainTime g =w 0) (on_sst nextDomain) ;;
  chooseThread.

(* src: sel4_task/src/scheduler.rs 431-471 schedule *)
Definition schedule : ST kst unit :=
  a ← on_sst get_ks_scheduler_action;
  when (a <>w SchedulerAction_ResumeCurrentThread)
    (current_tcb ← on_sst get_currenct_thread;
     t ← thread current_tcb;
     was_runnable ← lift (is_runnable t);
     when was_runnable (on_sst (sched_enqueue current_tcb)) ;;
     a ← on_sst get_ks_scheduler_action;
     if a =w SchedulerAction_ChooseNewThread then scheduleChooseNewThread
     else
       candidate ← ref a;
       cur ← on_sst get_currenct_thread;
       idle ← on_sst get_idle_thread;
       c ← thread candidate;
       ct ← thread cur;
       let fastfail := (cur =w idle) || bool_decide (tcbPriority c < tcbPriority ct) in
       dom ← on_sst get_current_domain;
       hp ← (if fastfail : bool then on_sst (isHighestPrio dom (tcbPriority c)) else mret true);
       if (fastfail && negb hp)%bool then
         on_sst (sched_enqueue candidate) ;;
         on_sst (set_ks_scheduler_action SchedulerAction_ChooseNewThread) ;;
         scheduleChooseNewThread
       else if (was_runnable && (tcbPriority c =w tcbPriority ct))%bool then
         on_sst (sched_append candidate) ;;
         on_sst (set_ks_scheduler_action SchedulerAction_ChooseNewThread) ;;
         scheduleChooseNewThread
       else switch_to_this candidate) ;;
  on_sst (set_ks_scheduler_action SchedulerAction_ResumeCurrentThread).

(** ** Capability slots of a thread *)
(* src: sel4_task/src/structures.rs 7-12 lookupSlot_raw_ret_t *)
Record lookupSlot_ret := LookupSlotRet { ls_status : exception_t; ls_slot : Z }.
(* src: sel4_task/src/tcb.rs 369-376 tcb_t::lookup_slot *)
Definition lookup_slot (self cap_ptr : Z) : ST kst lookupSlot_ret :=
  thread_root ← cspace_cap self tcbCTable;
  r ← on_slots (resolve_address_bits thread_root cap_ptr wordBits);
  mret (LookupSlotRet (rab_status r) (rab_slot r)).
(* src: sel4_task/src/tcb.rs 380-386 tcb_t::setup_reply_master *)
Definition setup_reply_master (self : Z) : ST kst unit :=
  let s := get_cspace_mut_ref self tcbReply in
  x ← slot s;
  t ← lift (get_cap_type (cte_cap x));
  when (t =t CapNullCap)
    (slot_mod s (set_cap (new_reply_cap 1 1 self)) ;;
     slot_mod s (set_mdb (mdb_node_new 0 1 1 0))).
(* src: sel4_task/src/tcb.rs 402-412 tcb_t::restart *)
Definition restart (self : Z) : ST kst unit :=
  t ← thread self;
  stopped ← lift (is_stopped t);
  when stopped
    (setup_reply_master self ;;
     on_sst (set_thread_state self ThreadStateRestart) ;;
     on_sst (sched_enqueue self) ;;
     on_sst (possible_switch_to self)).
(* src: sel4_task/src/tcb.rs 419-436 tcb_t::setup_caller_cap *)
Definition setup_caller_cap (self sender : Z) (can_grant : bool) : ST kst unit :=
  on_sst (set_thread_state sender ThreadStateBlockedOnReply) ;;
  let reply_slot := get_cspace_mut_ref sender tcbReply in
  x ← slot reply_slot;
  let master_cap := cte_cap x in
  t ← lift (get_cap_type master_cap);
  assert_m (t =t CapReplyCap) ;;
  assert_m (bf_get reply_master master_cap =w 1) ;;
  assert_m (bf_get reply_can_grant master_cap =w 1) ;;
  assert_m (bf_get reply_tcb_ptr master_cap =w sender) ;;
  let caller_slot := get_cspace_mut_ref self tcbCaller in
  c ← slot caller_slot;
  tc ← lift (get_cap_type (cte_cap c));
  assert_m (tc =t CapNullCap) ;;
  on_slots (cte_insert (new_reply_cap (b2w can_grant) 0 sender) reply_slot caller_slot).

(** ** The IPC buffer of a thread *)

(** The right [lookup_ipc_buffer] asks for. *)
Definition ipc_buffer_right (is_receiver : bool) (r : vm_rights_t) : bool :=
  bool_decide (r = VMReadWrite) || (negb is_receiver && bool_decide (r = VMReadOnly)).
Definition ipc_buffer_address (w_buffer_ptr : Z) (buffer_cap : list Z) : ST kst Z :=
  let base_ptr := bf_get frame_base_ptr buffer_cap in
  page_bits ← lift (pageBitsForSize (bf_get frame_size buffer_cap));
  ref (wadd base_ptr (w_buffer_ptr &&& MASK page_bits)).
(* src: sel4_task/src/tcb.rs 450-474 tcb_t::lookup_ipc_buffer *)
Definition lookup_ipc_buffer (self : Z) (is_receiver : bool) : ST kst (option Z) :=
  t ← thread self;
  buffer_cap ← cspace_cap self tcbBuffer;
  ty ← lift (get_cap_type buffer_cap);
  if negb (ty =t CapFrameCap) then mret None
  else if bf_get frame_is_device buffer_cap <>w 0 then mret None
  else
    r ← lift (vm_rights_from_word (bf_get frame_vm_rights buffer_cap));
    if ipc_buffer_right is_receiver r then
      a ← ipc_buffer_address (tcbIPCBuffer t) buffer_cap; mret (Some a)
    else mret None.
(* src: sel4_task/src/tcb.rs 539-561 tcb_t::lookup_mut_ipc_buffer *)
Definition lookup_mut_ipc_buffer (self : Z) (is_receiver : bool) : ST kst (option Z) :=
  t ← thread self;
  buffer_cap ← cspace_cap self tcbBuffer;
  ty ← lift (get_cap_type buffer_cap);
  if negb (ty =t CapFrameCap) then mret None
  else
    r ← lift (vm_rights_from_word (bf_get frame_vm_rights buffer_cap));
    if ipc_buffer_right is_receiver r then
      a ← ipc_buffer_address (tcbIPCBuffer t) buffer_cap; mret (Some a)
    else mret None.

(** Words of the buffer: [msg[i]] and [caps_or_badges[i]] are bounds-checked. *)
Definition buf_addr (buf i : Z) : Z := wadd buf (wmul 8 i).
Definition buf_field (buf i : Z) : ST kst Z := word_get (buf_addr buf i).
Definition buf_msg (buf i : Z) : ST kst Z :=
  assert_m (bool_decide (0 <= i < seL4_MsgMaxLength)) ;; buf_field buf (ipcbuf_msg + i).
Definition set_buf_msg (buf i v : Z) : ST kst unit :=
  assert_m (bool_decide (0 <= i < seL4_MsgMaxLength)) ;; word_set (buf_addr buf (ipcbuf_msg + i)) v.
Definition buf_caps_or_badges (buf i : Z) : ST kst Z :=
  assert_m (bool_decide (0 <= i < seL4_MsgMaxExtraCaps)) ;;
  buf_field buf (ipcbuf_caps_or_badges + i).
Definition set_buf_caps_or_badges (buf i v : Z) : ST kst unit :=
  assert_m (bool_decide (0 <= i < seL4_MsgMaxExtraCaps)) ;;
  word_set (buf_addr buf (ipcbuf_caps_or_badges + i)) v.

(** The loop of [lookup_extra_caps]: the array written so far and the fault. *)
(* src: sel4_task/src/tcb.rs 489-501 tcb_t::lookup_extra_caps *)
Fixpoint extra_caps_loop (fuel : nat) (self buffer i length : Z) (a : list Z)
    : ST kst (list Z * option (list Z)) :=
  match fuel with
  | O => no_fuel
  | S fuel =>
      if bool_decide (i < length) then
        cptr ← buf_caps_or_badges buffer i;
        lu_ret ← lookup_slot self cptr;
        if bool_decide (ls_status lu_ret <> EXCEPTION_NONE) then
          mret (a, Some (fault_new_cap_fault cptr 0))
        else
          a ← lift (upd a i (ls_slot lu_ret));
          extra_caps_loop fuel self buffer (i + 1) length a
      else
        a ← (if bool_decide (i < seL4_MsgMaxExtraCaps) then lift (upd a i 0) else mret a);
        mret (a, None)
  end.
(** [length] is a two-bit field: four rounds are enough. *)
(* src: sel4_task/src/tcb.rs 512-536 tcb_t::lookup_extra_caps_with_buf *)
Definition tcb_lookup_extra_caps_with_buf (self : Z) (a : list Z) (buf : option Z)
    : ST kst (list Z * option (list Z)) :=
  w ← reg_get self RMsgInfo;
  let info := message_info_from_word_security w in
  match buf with
  | Some buffer => extra_caps_loop 4 self buffer 0 (bf_get mi_extraCaps info) a
  | None => mret (a, None)
  end.
(* src: sel4_task/src/tcb.rs 481-504 tcb_t::lookup_extra_caps *)
Definition tcb_lookup_extra_caps (self : Z) (a : list Z) : ST kst (list Z * option (list Z)) :=
  w ← reg_get self RMsgInfo;
  let info := message_info_from_word_security w in
  buf ← lookup_ipc_buffer self false;
  match buf with
  | Some buffer => extra_caps_loop 4 self buffer 0 (bf_get mi_extraCaps info) a
  | None => mret (a, None)
  end.

(** ** Message registers *)
(* src: sel4_task/src/tcb.rs 570-582 tcb_t::set_mr *)
Definition set_mr (self offset reg : Z) : ST kst Z :=
  if bool_decide (offset >= msgRegisterNum) then
    b ← lookup_mut_ipc_buffer self true;
    match b with
    | Some ipc_buffer => set_buf_msg ipc_buffer offset reg ;; mret (wadd offset 1)
    | None => mret msgRegisterNum
    end
  else reg_set self (RMsg offset) reg ;; mret (wadd offset 1).

(* src: sel4_task/src/tcb.rs 590-616 tcb_t::set_lookup_fault_mrs *)
Definition set_lookup_fault_mrs (self offset : Z) (fault : list Z) : ST kst Z :=
  let luf_type := bf_type lookup_fault_t fault in
  i ← set_mr self offset (wadd luf_type 1);
  (if offset =w seL4_CapFault_LookupFailureType then
     assert_m (wadd offset 1 =w seL4_CapFault_BitsLeft) ;;
     assert_m (wadd offset 2 =w seL4_CapFault_DepthMismatch_BitsFound) ;;
     assert_m (wadd offset 2 =w seL4_CapFault_GuardMismatch_GuardFound) ;;
     assert_m (wadd offset 3 =w seL4_CapFault_GuardMismatch_BitsFound)
   else assert_m (offset =w 1)) ;;
  ty ← lift (get_lookup_fault_type fault);
  match ty with
  | InvaildRoot => mret i
  | MissingCap => set_mr self (wadd offset 1) (bf_get missing_cap_bits_left fault)
  | DepthMismatch =>
      _ ← set_mr self (wadd offset 1) (bf_get depth_mismatch_bits_left fault);
      set_mr self (wadd offset 2) (bf_get depth_mismatch_bits_found fault)
  | GuardMismatch =>
      _ ← set_mr self (wadd offset 1) (bf_get guard_mismatch_bits_left fault);
      _ ← set_mr self (wadd offset 2) (bf_get guard_mismatch_guard_found fault);
      set_mr self (wadd offset 3) (bf_get guard_mismatch_bits_found fault)
  end.

(* src: sel4_task/src/tcb.rs 621-637 tcb_t::get_receive_slot *)
Definition get_receive_slot (self : Z) : ST kst (option Z) :=
  b ← lookup_ipc_buffer self true;
  match b with
  | None => mret None
  | Some buffer =>
      cptr ← buf_field buffer ipcbuf_receiveCNode;
      lu_ret ← lookup_slot self cptr;
      if bool_decide (ls_status lu_ret <> EXCEPTION_NONE) then mret None
      else
        x ← slot (ls_slot lu_ret);
        i ← buf_field buffer ipcbuf_receiveIndex;
        d ← buf_field buffer ipcbuf_receiveDepth;
        lus_ret ← on_slots (resolve_address_bits (cte_cap x) i d);
        if bool_decide (rab_status lus_ret <> EXCEPTION_NONE) || (rab_bitsRemaining lus_ret <>w 0)
        then mret None
        else s ← ref (rab_slot lus_ret); mret (Some s)
  end.

(* src: sel4_task/src/tcb.rs 646-668 tcb_t::copy_mrs *)
Definition copy_mrs (self receiver length : Z) : ST kst Z :=
  let i := Z.min length msgRegisterNum in
  for_range (Z.to_nat i) 0 (fun i =>
    v ← reg_get self (RMsg i); reg_set receiver (RMsg i) v) ;;
  s ← lookup_ipc_buffer self false;
  r ← lookup_mut_ipc_buffer receiver true;
  match s, r with
  | Some send_buffer, Some recv_buffer =>
      for_range (Z.to_nat (length - i)) i (fun i =>
        v ← buf_field send_buffer (i + 1); word_set (buf_addr recv_buffer (i + 1)) v) ;;
      mret (Z.max i length)
  | _, _ => mret i
  end.

(* src: sel4_task/src/tcb.rs 676-690 tcb_t::copy_fault_mrs *)
Definition copy_fault_mrs (self receiver id length : Z) : ST kst unit :=
  let len := Z.min length msgRegisterNum in
  for_range (Z.to_nat len) 0 (fun i =>
    v ← reg_get self (RFaultMessage id i); reg_set receiver (RMsg i) v) ;;
  b ← lookup_mut_ipc_buffer receiver true;
  match b with
  | Some buffer =>
      for_range (Z.to_nat (length - len)) len (fun i =>
        v ← reg_get self (RFaultMessage id i); set_buf_msg buffer i v)
  | None => skip
  end.
(* src: sel4_task/src/tcb.rs 698-715 tcb_t::copy_fault_mrs_for_reply *)
Definition copy_fault_mrs_for_reply (self receiver id length : Z) : ST kst unit :=
  let len := Z.min length msgRegisterNum in
  for_range (Z.to_nat len) 0 (fun i =>
    v ← reg_get self (RMsg i); reg_set receiver (RFaultMessage id i) v) ;;
  b ← lookup_ipc_buffer self false;
  match b with
  | Some buffer =>
      for_range (Z.to_nat (length - len)) len (fun i =>
        v ← buf_msg buffer i; reg_set receiver (RFaultMessage id i) v)
  | None => skip
  end.
(* src: sel4_task/src/tcb.rs 719-721 tcb_t::copy_syscall_fault_mrs *)
Definition copy_syscall_fault_mrs (self receiver : Z) : ST kst unit :=
  copy_fault_mrs self receiver MessageID_Syscall n_syscallMessage.
(* src: sel4_task/src/tcb.rs 725-727 tcb_t::copy_exeception_fault_mrs *)
Definition copy_exeception_fault_mrs (self receiver : Z) : ST kst unit :=
  copy_fault_mrs self receiver MessageID_Exception n_exceptionMessage.

(* src: sel4_task/src/tcb.rs 733-779 tcb_t::set_fault_mrs *)
Definition set_fault_mrs (self receiver : Z) : ST kst Z :=
  t ← thread self;
  ty ← lift (get_fault_type (tcbFault t));
  match ty with
  | CapFault =>
      ip ← reg_get self RFaultIP;
      _ ← set_mr receiver seL4_CapFault_IP ip;
      _ ← set_mr receiver seL4_CapFault_Addr (bf_get cap_fault_address (tcbFault t));
      _ ← set_mr receiver seL4_CapFault_InRecvPhase (bf_get cap_fault_in_receive_phase (tcbFault t));
      set_lookup_fault_mrs receiver seL4_CapFault_LookupFailureType (tcbLookupFailure t)
  | UnknownSyscall =>
      copy_syscall_fault_mrs self receiver ;;
      set_mr receiver n_syscallMessage (bf_get unknown_syscall_syscall_number (tcbFault t))
  | UserException =>
      copy_exeception_fault_mrs self receiver ;;
      _ ← set_mr receiver n_exceptionMessage (bf_get user_exeception_number (tcbFault t));
      set_mr receiver (n_exceptionMessage + 1) (bf_get user_exeception_code (tcbFault t))
  | VMFault =>
      ip ← reg_get self RFaultIP;
      _ ← set_mr receiver seL4_VMFault_IP ip;
      _ ← set_mr receiver seL4_VMFault_Addr (bf_get vm_fault_address (tcbFault t));
      _ ← set_mr receiver seL4_VMFault_PrefetchFault (bf_get vm_fault_instruction_fault (tcbFault t));
      set_mr receiver seL4_VMFault_FSR (bf_get vm_fault_fsr (tcbFault t))
  | NullFault => panic
  end.
