(* ===== verification/Delete.v ===== *)
(** * Deletion and revocation

    The part of [sel4_cspace/src/cte.rs] that deletes capabilities.  It calls
    back into the kernel through the three functions of
    [sel4_cspace/src/deps.rs]; here they are the class [CSpaceDeps], and the
    component is proved against it.  [Finalise.v] gives the instance of the
    kernel.  [finalise], [reduce_zombie] and [delete_all] are mutually
    recursive; the fuel bounds both the depth of the recursion and the number
    of iterations of [finalise]'s loop. *)

From stdpp Require Import base numbers gmap list.
From S2P Require Import Prelude Bitfield Common Cap DList CSpace Sched State.
Local Open Scope Z_scope.
Local Open Scope krn_scope.

(* src: sel4_cspace/src/structures.rs 35-38 finaliseCap_ret *)
Record finaliseCap_ret := FinaliseCapRet { remainder : list Z; cleanupInfo : list Z }.
(* src: sel4_cspace/src/structures.rs 17-21 finaliseSlot_ret *)
Record finaliseSlot_ret := FinaliseSlotRet {
  fs_status : exception_t; fs_success : bool; fs_cleanupInfo : list Z }.
(* src: sel4_cspace/src/structures.rs 24-30 finaliseSlot_ret::default *)
Definition finaliseSlot_ret_default : finaliseSlot_ret :=
  FinaliseSlotRet EXCEPTION_NONE true cap_default.

(** What the capability space needs of the rest of the kernel. *)
(* src: sel4_cspace/src/deps.rs 5-11 finaliseCap *)
Class CSpaceDeps := {
  finaliseCap : list Z -> bool -> bool -> ST kst finaliseCap_ret;
  post_cap_deletion : list Z -> ST kst unit;
  preemptionPoint : ST kst exception_t }.

(* src: sel4_cspace/src/cte.rs 452-464 cap_removable *)
Definition cap_removable (c : list Z) (slot : Z) : res bool :=
  t ← get_cap_type c;
  match t with
  | CapNullCap => mret true
  | CapZombieCap =>
      let n := get_zombie_number c in
      let z_slot := get_zombie_ptr c in
      mret ((n =w 0) || ((n =w 1) && (slot =w z_slot)))
  | _ => Panic
  end.

(** The next slot as [revoke] reads it, through a volatile access. *)
(* src: sel4_cspace/src/cte.rs 302-311 cte_t::get_volatile_value *)
Definition get_volatile_value (x : cte_t) : Z :=
  let raw_value := cteMDBNode x !!! 1%nat in
  let value := wshl (wshr raw_value 2 &&& MASK 46) 2 in
  if (value &&& wshl 1 46) <>w 0 then value ||| 0xffffff8000000000 else value.

Section delete.
Context {D : CSpaceDeps}.

(* src: sel4_cspace/src/cte.rs 219-241 cte_t::set_empty *)
Definition set_empty (self : Z) (cleanup_info : list Z) : ST kst unit :=
  x ← slot self;
  t ← lift (get_cap_type (cte_cap x));
  if t =t CapNullCap then skip
  else on_slots (mdb_unlink self) ;; post_cap_deletion cleanup_info.

(* src: sel4_cspace/src/cte.rs 207-216 cte_t::delete_one *)
Definition delete_one (self : Z) : ST kst unit :=
  x ← slot self;
  t ← lift (get_cap_type (cte_cap x));
  if t =t CapNullCap then skip
  else
    final ← on_slots (is_final_cap self);
    fc_ret ← finaliseCap (cte_cap x) final true;
    r ← lift (cap_removable (remainder fc_ret) self);
    tc ← lift (if r : bool then get_cap_type (cleanupInfo fc_ret) else Panic);
    assert_m (tc =t CapNullCap) ;;
    set_empty self new_null_cap.

(* src: sel4_cspace/src/cte.rs 244-285 cte_t::reduce_zombie *)
Definition reduce_zombie (delete_all : Z -> bool -> ST kst exception_t) (self : Z)
    (immediate : bool) : ST kst exception_t :=
  x ← slot self;
  t ← lift (get_cap_type (cte_cap x));
  assert_m (t =t CapZombieCap) ;;
  let ptr := get_zombie_ptr (cte_cap x) in
  let n := get_zombie_number (cte_cap x) in
  let ty := bf_get zombie_type (cte_cap x) in
  assert_m (bool_decide (n > 0)) ;;
  if immediate then
    let end_slot := cte_add ptr (wsub n 1) in
    status ← delete_all end_slot false;
    if bool_decide (status <> EXCEPTION_NONE) then mret status
    else
      x ← slot self;
      t ← lift (get_cap_type (cte_cap x));
      match t with
      | CapNullCap => mret EXCEPTION_NONE
      | CapZombieCap =>
          let ptr2 := get_zombie_ptr (cte_cap x) in
          (if (ptr =w ptr2) && (get_zombie_number (cte_cap x) =w n)
              && (bf_get zombie_type (cte_cap x) =w ty) then
             e ← slot end_slot;
             te ← lift (get_cap_type (cte_cap e));
             assert_m (te =t CapNullCap) ;;
             slot_mod self (fun x => set_cap (set_zombie_number (wsub n 1) (cte_cap x)) x)
           else assert_m ((ptr2 =w self) && (ptr <>w self))) ;;
          mret EXCEPTION_NONE
      | _ => panic
      end
  else
    assert_m (ptr <>w self) ;;
    next_slot ← ref ptr;
    nx ← slot next_slot;
    on_slots (cte_swap (cte_cap nx) next_slot (cte_cap x) self) ;;
    mret EXCEPTION_NONE.

(** One iteration of the loop of [finalise] on a slot that is not empty:
    [Some] is a return, [None] goes on. *)
(* src: sel4_cspace/src/cte.rs 157-191 cte_t::finalise *)
Definition finalise_step (delete_all : Z -> bool -> ST kst exception_t) (self : Z)
    (immediate : bool) (c : list Z) : ST kst (option finaliseSlot_ret) :=
  final ← on_slots (is_final_cap self);
  fc_ret ← finaliseCap c final false;
  r ← lift (cap_removable (remainder fc_ret) self);
  if r : bool then mret (Some (FinaliseSlotRet EXCEPTION_NONE true (cleanupInfo fc_ret)))
  else
    slot_mod self (set_cap (remainder fc_ret)) ;;
    cyc ← lift (if immediate then Ok false else capCyclicZombie (remainder fc_ret) self);
    if cyc : bool then mret (Some (FinaliseSlotRet EXCEPTION_NONE false (cleanupInfo fc_ret)))
    else
      status ← reduce_zombie delete_all self immediate;
      if bool_decide (EXCEPTION_NONE <> status) then
        mret (Some (FinaliseSlotRet status false new_null_cap))
      else
        status ← preemptionPoint;
        if bool_decide (EXCEPTION_NONE <> status) then
          mret (Some (FinaliseSlotRet status false new_null_cap))
        else mret None.

(* src: sel4_cspace/src/cte.rs 195-204 cte_t::delete_all *)
Definition delete_all_with (finalise : Z -> bool -> ST kst finaliseSlot_ret) (self : Z)
    (exposed : bool) : ST kst exception_t :=
  fs_ret ← finalise self exposed;
  if bool_decide (fs_status fs_ret <> EXCEPTION_NONE) then mret (fs_status fs_ret)
  else
    when (exposed || fs_success fs_ret)%bool (set_empty self (fs_cleanupInfo fs_ret)) ;;
    mret EXCEPTION_NONE.

(* src: sel4_cspace/src/cte.rs 157-190 cte_t::finalise *)
Fixpoint finalise (fuel : nat) (self : Z) (immediate : bool) : ST kst finaliseSlot_ret :=
  match fuel with
  | O => no_fuel
  | S fuel =>
      x ← slot self;
      t ← lift (get_cap_type (cte_cap x));
      if t =t CapNullCap then mret finaliseSlot_ret_default
      else
        r ← finalise_step (delete_all_with (finalise fuel)) self immediate (cte_cap x);
        match r with
        | Some ret => mret ret
        | None => finalise fuel self immediate
        end
  end.
(* src: sel4_cspace/src/cte.rs 195-204 cte_t::delete_all *)
Definition delete_all (fuel : nat) (self : Z) (exposed : bool) : ST kst exception_t :=
  delete_all_with (finalise fuel) self exposed.

(* src: sel4_cspace/src/cte.rs 315-332 cte_t::revoke *)
Fixpoint revoke (fuel : nat) (self : Z) : ST kst exception_t :=
  match fuel with
  | O => no_fuel
  | S fuel' =>
      x ← slot self;
      let next := get_volatile_value x in
      if next =w 0 then mret EXCEPTION_NONE
      else
        nx ← slot next;
        p ← lift (is_mdb_parent_of x nx);
        if negb p then mret EXCEPTION_NONE
        else
          status ← delete_all fuel next true;
          if bool_decide (status <> EXCEPTION_NONE) then mret status
          else
            status ← preemptionPoint;
            if bool_decide (status <> EXCEPTION_NONE) then mret status
            else revoke fuel' self
  end.
End delete.
