(* ===== verification/Ipc.v ===== *)
(** * Inter-process communication

    [sel4_ipc]: endpoints ([endpoint.rs]), notifications ([notification.rs])
    and the transfer of messages, faults and capabilities between threads
    ([transfer.rs]).  The three files call one another; cancelling a call
    deletes the reply capability, so the component depends on the kernel
    through [CSpaceDeps]. *)

From stdpp Require Import base numbers gmap list.
From S2P Require Import Prelude Bitfield Common Cap DList CSpace Sched State Vspace Threads Delete.
Local Open Scope Z_scope.
Local Open Scope krn_scope.

(** ** Data *)
(* src: sel4_ipc/src/endpoint.rs 16-21 EPState *)
Inductive EPState : Type := EPIdle | EPSend | EPRecv.
#[export] Instance EPState_eq_dec : EqDecision EPState.
Proof. solve_decision. Defined.
(* src: sel4_ipc/src/endpoint.rs 11-11 EPState_Idle *)
Definition EPState_to_usize (s : EPState) : Z := match s with EPIdle => 0 | EPSend => 1 | EPRecv => 2 end.
(* src: sel4_ipc/src/endpoint.rs 38-44 endpoint_t *)
Definition endpoint_t : bitstruct := Bs 2 0 0 0.
(* src: sel4_ipc/src/endpoint.rs 40-40 queue_head *)
Definition ep_queue_head : bitfield := Bf 1 0 64 0 false.
(* src: sel4_ipc/src/endpoint.rs 41-41 queue_tail *)
Definition ep_queue_tail : bitfield := Bf 0 2 46 2 true.
(* src: sel4_ipc/src/endpoint.rs 42-42 state *)
Definition ep_state : bitfield := Bf 0 0 2 0 false.
(* src: sel4_ipc/src/endpoint.rs 54-58 endpoint_t::get_state *)
Definition ep_get_state (e : list Z) : res EPState :=
  match bf_get ep_state e &&& 255 with
  | 0 => Ok EPIdle | 1 => Ok EPSend | 2 => Ok EPRecv | _ => UB
  end.
(* src: sel4_ipc/src/endpoint.rs 60-67 endpoint_t::get_queue *)
Definition ep_get_queue (e : list Z) : tcb_queue_t :=
  Queue (bf_get ep_queue_head e) (bf_get ep_queue_tail e).
(* src: sel4_ipc/src/endpoint.rs 69-74 endpoint_t::set_queue *)
Definition ep_set_queue (q : tcb_queue_t) (e : list Z) : list Z :=
  bf_set ep_queue_tail (tail q) (bf_set ep_queue_head (head q) e).
Definition ep_set_state (s : EPState) (e : list Z) : list Z := bf_set ep_state (EPState_to_usize s) e.

(* src: sel4_ipc/src/notification.rs 9-15 NtfnState *)
Inductive NtfnState : Type := NtfnIdle | NtfnWaiting | NtfnActive.
#[export] Instance NtfnState_eq_dec : EqDecision NtfnState.
Proof. solve_decision. Defined.
(* src: sel4_ipc/src/notification.rs 11-15 NtfnState *)
Definition NtfnState_to_usize (s : NtfnState) : Z :=
  match s with NtfnIdle => 0 | NtfnWaiting => 1 | NtfnActive => 2 end.
(* src: sel4_ipc/src/notification.rs 34-42 notification_t *)
Definition notification_t : bitstruct := Bs 4 0 0 0.
(* src: sel4_ipc/src/notification.rs 36-36 bound_tcb *)
Definition nt_bound_tcb : bitfield := Bf 3 0 48 0 true.
(* src: sel4_ipc/src/notification.rs 37-37 msg_identifier *)
Definition nt_msg_identifier : bitfield := Bf 2 0 64 0 false.
(* src: sel4_ipc/src/notification.rs 38-38 queue_head *)
Definition nt_queue_head : bitfield := Bf 1 0 48 0 true.
(* src: sel4_ipc/src/notification.rs 39-39 queue_tail *)
Definition nt_queue_tail : bitfield := Bf 0 16 48 0 true.
(* src: sel4_ipc/src/notification.rs 40-40 state *)
Definition nt_state : bitfield := Bf 0 0 2 0 false.
(* src: sel4_ipc/src/notification.rs 48-50 notification_t::get_state *)
Definition nt_get_state (n : list Z) : res NtfnState :=
  match bf_get nt_state n &&& 255 with
  | 0 => Ok NtfnIdle | 1 => Ok NtfnWaiting | 2 => Ok NtfnActive | _ => UB
  end.
(* src: sel4_ipc/src/notification.rs 54-59 notification_t::get_queue *)
Definition nt_get_queue (n : list Z) : tcb_queue_t :=
  Queue (bf_get nt_queue_head n) (bf_get nt_queue_tail n).
(* src: sel4_ipc/src/notification.rs 63-66 notification_t::set_queue *)
Definition nt_set_queue (q : tcb_queue_t) (n : list Z) : list Z :=
  bf_set nt_queue_tail (tail q) (bf_set nt_queue_head (head q) n).
Definition nt_set_state (s : NtfnState) (n : list Z) : list Z :=
  bf_set nt_state (NtfnState_to_usize s) n.
(* src: sel4_ipc/src/notification.rs 72-75 notification_t::active *)
Definition nt_active (badge : Z) (n : list Z) : list Z :=
  bf_set nt_msg_identifier badge (nt_set_state NtfnActive n).

(** Reads and updates of the object at an address. *)
Definition ep_state_of (ep : Z) : ST kst EPState := e ← ep_get ep; lift (ep_get_state e).
Definition nt_state_of (n : Z) : ST kst NtfnState := x ← ntfn_get n; lift (nt_get_state x).
Definition set_ts (t : Z) (f : bitfield) (v : Z) : ST kst unit := thread_mod t (ts_set f v).
Definition set_state (t : Z) (st : ThreadState) : ST kst unit := on_sst (set_thread_state t st).

(** A list of waiting threads is no longer than the number of threads. *)
Definition threads_fuel : ST kst nat := gets (fun s => S (size (tcbs (k_sst s)))).

(** ** Cancelling *)
(* src: sel4_ipc/src/endpoint.rs 80-88 endpoint_t::cancel_ipc *)
Definition ep_cancel_ipc (self tcb : Z) : ST kst unit :=
  e ← ep_get self;
  queue ← on_sst (ep_dequeue (ep_get_queue e) tcb);
  ep_mod self (ep_set_queue queue) ;;
  when (head queue =w 0) (ep_mod self (ep_set_state EPIdle)) ;;
  set_state tcb ThreadStateInactive.

(** [while let Some(thread) = op_thread]: restart every waiting thread. *)
(* src: sel4_ipc/src/endpoint.rs 101-105 endpoint_t::cancel_all_ipc *)
Fixpoint restart_all (fuel : nat) (op_thread : Z) : ST kst unit :=
  match fuel with
  | O => no_fuel
  | S fuel =>
      if op_thread =w 0 then skip
      else
        set_state op_thread ThreadStateRestart ;;
        on_sst (sched_enqueue op_thread) ;;
        t ← thread op_thread;
        restart_all fuel (tcbEPNext t)
  end.
(* src: sel4_ipc/src/endpoint.rs 92-108 endpoint_t::cancel_all_ipc *)
Definition cancel_all_ipc (self : Z) : ST kst unit :=
  st ← ep_state_of self;
  match st with
  | EPIdle => skip
  | _ =>
      e ← ep_get self;
      let op_thread := bf_get ep_queue_head e in
      ep_mod self (ep_set_state EPIdle) ;;
      ep_mod self (bf_set ep_queue_head 0) ;;
      ep_mod self (bf_set ep_queue_tail 0) ;;
      fuel ← threads_fuel;
      restart_all fuel op_thread ;;
      on_sst rescheduleRequired
  end.

(* src: sel4_ipc/src/endpoint.rs 121-130 endpoint_t::cancel_badged_sends *)
Fixpoint badged_loop (fuel : nat) (badge thread_ptr : Z) (queue : tcb_queue_t) : ST kst tcb_queue_t :=
  match fuel with
  | O => no_fuel
  | S fuel =>
      if thread_ptr =w 0 then mret queue
      else
        t ← thread thread_ptr;
        let next := tcbEPNext t in
        queue ← (if ts_get blocking_ipc_badge t =w badge then
                   set_state thread_ptr ThreadStateRestart ;;
                   on_sst (sched_enqueue thread_ptr) ;;
                   on_sst (ep_dequeue queue thread_ptr)
                 else mret queue);
        badged_loop fuel badge next queue
  end.
(* src: sel4_ipc/src/endpoint.rs 113-138 endpoint_t::cancel_badged_sends *)
Definition cancel_badged_sends (self badge : Z) : ST kst unit :=
  st ← ep_state_of self;
  match st with
  | EPIdle | EPRecv => skip
  | EPSend =>
      e ← ep_get self;
      let queue := ep_get_queue e in
      ep_mod self (ep_set_state EPIdle) ;;
      ep_mod self (bf_set ep_queue_head 0) ;;
      ep_mod self (bf_set ep_queue_tail 0) ;;
      fuel ← threads_fuel;
      queue ← badged_loop fuel badge (head queue) queue;
      ep_mod self (ep_set_queue queue) ;;
      when (head queue <>w 0) (ep_mod self (ep_set_state EPSend)) ;;
      on_sst rescheduleRequired
  end.

(* src: sel4_ipc/src/notification.rs 81-89 notification_t::cancel_signal *)
Definition cancel_signal (self tcb : Z) : ST kst unit :=
  n ← ntfn_get self;
  queue ← on_sst (ep_dequeue (nt_get_queue n) tcb);
  ntfn_mod self (nt_set_queue queue) ;;
  when (head queue =w 0) (ntfn_mod self (nt_set_state NtfnIdle)) ;;
  set_state tcb ThreadStateInactive.
(* src: sel4_ipc/src/notification.rs 93-106 notification_t::cacncel_all_signal *)
Definition cacncel_all_signal (self : Z) : ST kst unit :=
  st ← nt_state_of self;
  when (bool_decide (st = NtfnWaiting))
    (n ← ntfn_get self;
     let op_thread := bf_get nt_queue_head n in
     ntfn_mod self (nt_set_state NtfnIdle) ;;
     ntfn_mod self (bf_set nt_queue_head 0) ;;
     ntfn_mod self (bf_set nt_queue_tail 0) ;;
     fuel ← threads_fuel;
     restart_all fuel op_thread ;;
     on_sst rescheduleRequired).
(* src: sel4_ipc/src/notification.rs 110-112 notification_t::bind_tcb *)
Definition nt_bind_tcb (self tcb : Z) : ST kst unit := ntfn_mod self (bf_set nt_bound_tcb tcb).
(* src: sel4_ipc/src/notification.rs 116-118 notification_t::unbind_tcb *)
Definition nt_unbind_tcb (self : Z) : ST kst unit := ntfn_mod self (bf_set nt_bound_tcb 0).
(* src: sel4_ipc/src/notification.rs 122-128 notification_t::safe_unbind_tcb *)
Definition nt_safe_unbind_tcb (self : Z) : ST kst unit :=
  n ← ntfn_get self;
  let tcb := bf_get nt_bound_tcb n in
  nt_unbind_tcb self ;;
  when (tcb <>w 0) (on_sst (tcb_unbind_notification tcb)).

Section ipc.
Context {D : CSpaceDeps}.

(* src: sel4_task/src/tcb.rs 438-443 tcb_t::delete_caller_cap *)
Definition delete_caller_cap (self : Z) : ST kst unit :=
  delete_one (get_cspace_mut_ref self tcbCaller).

(* src: sel4_ipc/src/transfer.rs 62-85 tcb_t::cancel_ipc *)
Definition cancel_ipc (self : Z) : ST kst unit :=
  t ← thread self;
  st ← lift (Sched.get_state t);
  match st with
  | ThreadStateBlockedOnSend | ThreadStateBlockedOnReceive =>
      ep ← ref (ts_get blocking_object t);
      es ← ep_state_of ep;
      assert_m (negb (bool_decide (es = EPIdle))) ;;
      ep_cancel_ipc ep self
  | ThreadStateBlockedOnNotification =>
      n ← ref (ts_get blocking_object t);
      cancel_signal n self
  | ThreadStateBlockedOnReply =>
      thread_mod self (set_tcbFault fault_new_null_fault) ;;
      x ← slot (get_cspace self tcbReply);
      let caller_slot_ptr := mdb_get mdbNext x in
      when (caller_slot_ptr <>w 0) (delete_one caller_slot_ptr)
  | _ => skip
  end.

(** ** Transfer *)
(** The loop of [set_transfer_caps]: one more extra capability. *)
(* src: sel4_ipc/src/transfer.rs 101-127 tcb_t::set_transfer_caps *)
Fixpoint transfer_caps_loop (fuel : nat) (endpoint : option Z) (buffer i : Z)
    (extra info : list Z) (dest_slot : option Z) : ST kst (list Z) :=
  match fuel with
  | O => no_fuel
  | S fuel =>
      go ← (if bool_decide (i < seL4_MsgMaxExtraCaps)
            then e ← lift (idx extra i); mret (e <>w 0) else mret false);
      if negb go then mret (bf_set mi_extraCaps i info)
      else
        e ← lift (idx extra i);
        s ← ref e;
        x ← slot s;
        let c := cte_cap x in
        ty ← lift (get_cap_type c);
        let unwrapped := match endpoint with
                         | Some ep => (ty =t CapEndpointCap) && (bf_get ep_ptr c =w ep)
                         | None => false
                         end in
        if unwrapped : bool then
          set_buf_caps_or_badges buffer i (bf_get ep_badge c) ;;
          transfer_caps_loop fuel endpoint buffer (i + 1) extra
            (bf_set mi_capsUnwrapped (bf_get mi_capsUnwrapped info ||| wshl 1 i) info) dest_slot
        else
          match dest_slot with
          | None => mret (bf_set mi_extraCaps i info)
          | Some dest =>
              dc_ret ← on_slots (derive_cap s c);
              tn ← lift (get_cap_type (dc_cap dc_ret));
              if bool_decide (dc_status dc_ret <> EXCEPTION_NONE) || (tn =t CapNullCap)
              then mret (bf_set mi_extraCaps i info)
              else
                on_slots (cte_insert (dc_cap dc_ret) s dest) ;;
                transfer_caps_loop fuel endpoint buffer (i + 1) extra info None
          end
  end.
(** [info] is returned as the caller sees it afterwards; four rounds are
    enough for three capabilities. *)
(* src: sel4_ipc/src/transfer.rs 130-172 tcb_t::set_transfer_caps_with_buf *)
Definition set_transfer_caps_with_buf (self : Z) (endpoint : option Z) (info extra : list Z)
    (ipc_buffer : option Z) : ST kst (list Z) :=
  let info := bf_set mi_capsUnwrapped 0 (bf_set mi_extraCaps 0 info) in
  e0 ← lift (idx extra 0);
  match ipc_buffer with
  | Some buffer =>
      if e0 =w 0 then mret info
      else
        dest_slot ← get_receive_slot self;
        transfer_caps_loop 4 endpoint buffer 0 extra info dest_slot
  | None => mret info
  end.
(* src: sel4_ipc/src/transfer.rs 87-128 tcb_t::set_transfer_caps *)
Definition set_transfer_caps (self : Z) (endpoint : option Z) (info extra : list Z)
    : ST kst (list Z) :=
  b ← lookup_mut_ipc_buffer self true;
  set_transfer_caps_with_buf self endpoint info extra b.

(* src: sel4_ipc/src/transfer.rs 174-225 tcb_t::do_fault_transfer *)
Definition do_fault_transfer (self receiver badge : Z) : ST kst unit :=
  sent ← set_fault_mrs self receiver;
  t ← thread self;
  let msg_info := message_info_new (bf_type seL4_Fault_t (tcbFault t)) 0 0 sent in
  reg_set receiver RMsgInfo (message_info_to_word msg_info) ;;
  reg_set receiver RBadge badge.

(* src: sel4_ipc/src/transfer.rs 227-247 tcb_t::do_normal_transfer *)
Definition do_normal_transfer (self receiver : Z) (endpoint : option Z) (badge : Z)
    (can_grant : bool) : ST kst unit :=
  w ← reg_get self RMsgInfo;
  let tag := message_info_from_word_security w in
  extra ← (if can_grant then r ← tcb_lookup_extra_caps self [0; 0; 0]; mret r.1
           else mret [0; 0; 0]);
  msg_transferred ← copy_mrs self receiver (bf_get mi_length tag);
  tag ← set_transfer_caps receiver endpoint tag extra;
  let tag := bf_set mi_length msg_transferred tag in
  reg_set receiver RMsgInfo (message_info_to_word tag) ;;
  reg_set receiver RBadge badge.

(* src: sel4_ipc/src/transfer.rs 249-273 tcb_t::do_fault_reply_transfer *)
Definition do_fault_reply_transfer (self receiver : Z) : ST kst bool :=
  w ← reg_get self RMsgInfo;
  let tag := message_info_from_word_security w in
  label ← lift (message_info_get_label tag);
  let length := bf_get mi_length tag in
  r ← thread receiver;
  ty ← lift (get_fault_type (tcbFault r));
  match ty with
  | UnknownSyscall =>
      copy_fault_mrs_for_reply self receiver MessageID_Syscall (Z.min length n_syscallMessage) ;;
      mret (bool_decide (label = InvalidInvocation))
  | UserException =>
      copy_fault_mrs_for_reply self receiver MessageID_Exception (Z.min length n_exceptionMessage) ;;
      mret (bool_decide (label = InvalidInvocation))
  | _ => mret true
  end.

(* src: sel4_ipc/src/transfer.rs 275-287 tcb_t::complete_signal *)
Definition complete_signal (self : Z) : ST kst bool :=
  t ← thread self;
  let ntfn := tcbBoundNotification t in
  if ntfn =w 0 then mret false
  else
    st ← nt_state_of ntfn;
    if bool_decide (st = NtfnActive) then
      n ← ntfn_get ntfn;
      reg_set self RBadge (bf_get nt_msg_identifier n) ;;
      ntfn_mod ntfn (nt_set_state NtfnIdle) ;;
      mret true
    else mret false.

(* src: sel4_ipc/src/transfer.rs 289-301 tcb_t::do_ipc_transfer *)
Definition do_ipc_transfer (self receiver : Z) (endpoint : option Z) (badge : Z) (grant : bool)
    : ST kst unit :=
  t ← thread self;
  ty ← lift (get_fault_type (tcbFault t));
  if bool_decide (ty = NullFault) then do_normal_transfer self receiver endpoint badge grant
  else do_fault_transfer self receiver badge.

(* src: sel4_ipc/src/transfer.rs 301-320 tcb_t::do_reply *)
Definition do_reply (self receiver slot_ : Z) (grant : bool) : ST kst unit :=
  r ← thread receiver;
  st ← lift (Sched.get_state r);
  assert_m (bool_decide (st = ThreadStateBlockedOnReply)) ;;
  fault_type ← lift (get_fault_type (tcbFault r));
  if bool_decide (fault_type = NullFault) then
    do_ipc_transfer self receiver None 0 grant ;;
    delete_one slot_ ;;
    set_state receiver ThreadStateRunning ;;
    on_sst (possible_switch_to receiver)
  else
    delete_one slot_ ;;
    b ← do_fault_reply_transfer self receiver;
    if b : bool then
      set_state receiver ThreadStateRestart ;; on_sst (possible_switch_to receiver)
    else set_state receiver ThreadStateInactive.

(** ** Endpoints *)
(* src: sel4_ipc/src/endpoint.rs 148-206 endpoint_t::send_ipc *)
Definition send_ipc (self src_thread : Z) (blocking do_call can_grant : bool) (badge : Z)
    (can_grant_reply : bool) : ST kst unit :=
  st ← ep_state_of self;
  match st with
  | EPIdle | EPSend =>
      when blocking
        (set_ts src_thread ts_type (ThreadState_to_usize ThreadStateBlockedOnSend) ;;
         set_ts src_thread blocking_object self ;;
         set_ts src_thread blocking_ipc_can_grant (b2w can_grant) ;;
         set_ts src_thread blocking_ipc_badge badge ;;
         set_ts src_thread blocking_ipc_can_grant_reply (b2w can_grant_reply) ;;
         set_ts src_thread blocking_ipc_is_call (b2w do_call) ;;
         on_sst (schedule_tcb src_thread) ;;
         e ← ep_get self;
         queue ← on_sst (ep_append (ep_get_queue e) src_thread);
         ep_mod self (ep_set_state EPSend) ;;
         ep_mod self (ep_set_queue queue))
  | EPRecv =>
      e ← ep_get self;
      let queue := ep_get_queue e in
      let dest_thread := head queue in
      assert_m (dest_thread <>w 0) ;;
      queue ← on_sst (ep_dequeue queue dest_thread);
      ep_mod self (ep_set_queue queue) ;;
      when (queue_empty queue) (ep_mod self (ep_set_state EPIdle)) ;;
      do_ipc_transfer src_thread dest_thread (Some self) badge can_grant ;;
      d ← thread dest_thread;
      let reply_can_grant := ts_get Sched.blocking_ipc_can_grant d <>w 0 in
      set_state dest_thread ThreadStateRunning ;;
      on_sst (possible_switch_to dest_thread) ;;
      when do_call
        (if (can_grant || can_grant_reply)%bool
         then setup_caller_cap dest_thread src_thread reply_can_grant
         else set_state src_thread ThreadStateInactive)
  end.

(* src: sel4_ipc/src/endpoint.rs 214-259 endpoint_t::receive_ipc *)
Definition receive_ipc (self thread_ : Z) (is_blocking grant : bool) : ST kst unit :=
  done ← complete_signal thread_;
  if done : bool then skip
  else
    st ← ep_state_of self;
    match st with
    | EPIdle | EPRecv =>
        if is_blocking then
          set_ts thread_ blocking_object self ;;
          set_ts thread_ blocking_ipc_can_grant (b2w grant) ;;
          set_state thread_ ThreadStateBlockedOnReceive ;;
          e ← ep_get self;
          queue ← on_sst (ep_append (ep_get_queue e) thread_);
          ep_mod self (ep_set_state EPRecv) ;;
          ep_mod self (ep_set_queue queue)
        else reg_set thread_ RBadge 0
    | EPSend =>
        e ← ep_get self;
        let queue := ep_get_queue e in
        assert_m (negb (queue_empty queue)) ;;
        sender ← ref (head queue);
        queue ← on_sst (ep_dequeue queue sender);
        ep_mod self (ep_set_queue queue) ;;
        when (queue_empty queue) (ep_mod self (ep_set_state EPIdle)) ;;
        s ← thread sender;
        let badge := ts_get blocking_ipc_badge s in
        let can_grant := ts_get blocking_ipc_can_grant s <>w 0 in
        let can_grant_reply := ts_get blocking_ipc_can_grant_reply s <>w 0 in
        do_ipc_transfer sender thread_ (Some self) badge can_grant ;;
        s ← thread sender;
        if ts_get blocking_ipc_is_call s <>w 0 then
          if (can_grant || can_grant_reply)%bool then setup_caller_cap thread_ sender grant
          else set_state sender ThreadStateInactive
        else
          set_state sender ThreadStateRunning ;;
          on_sst (possible_switch_to sender)
    end.

(** ** Notifications *)
(* src: sel4_ipc/src/notification.rs 143-180 notification_t::send_signal *)
Definition send_signal (self badge : Z) : ST kst unit :=
  st ← nt_state_of self;
  match st with
  | NtfnIdle =>
      n ← ntfn_get self;
      let tcb := bf_get nt_bound_tcb n in
      if tcb <>w 0 then
        t ← thread tcb;
        ts ← lift (Sched.get_state t);
        if bool_decide (ts = ThreadStateBlockedOnReceive) then
          cancel_ipc tcb ;;
          set_state tcb ThreadStateRunning ;;
          reg_set tcb RBadge badge ;;
          on_sst (possible_switch_to tcb)
        else ntfn_mod self (nt_active badge)
      else ntfn_mod self (nt_active badge)
  | NtfnWaiting =>
      n ← ntfn_get self;
      let queue := nt_get_queue n in
      let dest := head queue in
      if dest <>w 0 then
        queue ← on_sst (ep_dequeue queue dest);
        ntfn_mod self (nt_set_queue queue) ;;
        when (queue_empty queue) (ntfn_mod self (nt_set_state NtfnIdle)) ;;
        set_state dest ThreadStateRunning ;;
        reg_set dest RBadge badge ;;
        on_sst (possible_switch_to dest)
      else panic
  | NtfnActive =>
      n ← ntfn_get self;
      let badge2 := bf_get nt_msg_identifier n ||| badge in
      ntfn_mod self (bf_set nt_msg_identifier badge2)
  end.

(* src: sel4_ipc/src/notification.rs 188-210 notification_t::receive_signal *)
Definition receive_signal (self recv_thread : Z) (is_blocking : bool) : ST kst unit :=
  st ← nt_state_of self;
  match st with
  | NtfnIdle | NtfnWaiting =>
      if is_blocking then
        set_ts recv_thread blocking_object self ;;
        set_state recv_thread ThreadStateBlockedOnNotification ;;
        n ← ntfn_get self;
        queue ← on_sst (ep_append (nt_get_queue n) recv_thread);
        ntfn_mod self (nt_set_state NtfnWaiting) ;;
        ntfn_mod self (nt_set_queue queue)
      else reg_set recv_thread RBadge 0
  | NtfnActive =>
      n ← ntfn_get self;
      reg_set recv_thread RBadge (bf_get nt_msg_identifier n) ;;
      ntfn_mod self (nt_set_state NtfnIdle)
  end.
End ipc.
