(* ===== verification/Finalise.v ===== *)
(** * What the kernel does when a capability goes away

    [kernel/src/interfaces_impl/cspace.rs]: the implementation of the three
    functions the capability space calls, with the interrupt state they touch
    ([kernel/src/interrupt/mod.rs]) and the binding of notifications
    ([kernel/src/syscall/utils.rs]).  Finalising a thread cancels its IPC and
    finalising an interrupt handler deletes the capability in its slot, so the
    implementation refers to itself through [delete_one]; [kernel_deps n] allows
    [n] nested deletions. *)

From stdpp Require Import base numbers gmap list.
From S2P Require Import Prelude Bitfield Common Cap DList CSpace Sched State Vspace Threads Delete Ipc.
Local Open Scope Z_scope.
Local Open Scope krn_scope.

(** ** Interrupt state *)
(* src: kernel/src/interrupt/mod.rs 44-49 IRQState *)
Inductive IRQState : Type := IRQInactive | IRQSignal | IRQTimer | IRQReserved.
#[export] Instance IRQState_eq_dec : EqDecision IRQState.
Proof. solve_decision. Defined.
(* src: kernel/src/interrupt/mod.rs 44-49 IRQState *)
Definition IRQState_to_usize (s : IRQState) : Z :=
  match s with IRQInactive => 0 | IRQSignal => 1 | IRQTimer => 2 | IRQReserved => 3 end.
Definition IRQState_of (n : Z) : res IRQState :=
  match n &&& 255 with
  | 0 => Ok IRQInactive | 1 => Ok IRQSignal | 2 => Ok IRQTimer | 3 => Ok IRQReserved | _ => UB
  end.
(* src: kernel/src/interrupt/mod.rs 52-54 get_irq_state *)
Definition get_irq_state (irq : Z) : ST kst IRQState :=
  t ← irq_get intStateIRQTable; w ← lift (idx t irq); lift (IRQState_of w).
(* src: kernel/src/interrupt/mod.rs 57-59 get_irq_handler_slot *)
Definition get_irq_handler_slot (irq : Z) : ST kst Z :=
  p ← irq_get intStateIRQNode; p ← ref p; ref (get_offset_slot p irq).
(* src: kernel/src/interrupt/mod.rs 110-129 mask_interrupt *)
Definition mask_interrupt (disable : bool) (irq : Z) : ST kst unit :=
  if irq =w KERNEL_TIMER_IRQ then
    if disable then skip else hw (IrqEnable irq)
  else skip.
(* src: kernel/src/interrupt/mod.rs 74-79 setIRQState *)
Definition setIRQState (state : IRQState) (irq : Z) : ST kst unit :=
  t ← irq_get intStateIRQTable;
  t' ← lift (upd t irq (IRQState_to_usize state));
  irq_mod (fun i => Irq t' (intStateIRQNode i) (active_irq i)) ;;
  mask_interrupt (bool_decide (state = IRQInactive)) irq.
(* src: kernel/src/interrupt/mod.rs 66-71 set_irq_state *)
Definition set_irq_state (state : IRQState) (irq : Z) : ST kst unit := setIRQState state irq.
(* src: kernel/src/interrupt/mod.rs 89-91 deletedIRQHandler *)
Definition deletedIRQHandler (irq : Z) : ST kst unit := setIRQState IRQInactive irq.
(* src: kernel/src/interrupt/mod.rs 170-172 is_irq_active *)
Definition is_irq_active (irq : Z) : ST kst bool :=
  s ← get_irq_state irq; mret (bool_decide (s = IRQInactive)).
(* src: kernel/src/interrupt/mod.rs 142-144 isIRQPending *)
Definition isIRQPending : ST kst bool := mret false.

(** ** Bound notifications *)
(* src: kernel/src/syscall/utils.rs 129-132 do_bind_notification *)
Definition do_bind_notification (tcb nftn : Z) : ST kst unit :=
  nt_bind_tcb nftn tcb ;; on_sst (tcb_bind_notification tcb nftn).
(* src: kernel/src/syscall/utils.rs 135-138 do_unbind_notification *)
Definition do_unbind_notification (tcb nftn : Z) : ST kst unit :=
  nt_unbind_tcb nftn ;; on_sst (tcb_unbind_notification tcb).
(* src: kernel/src/syscall/utils.rs 141-146 safe_unbind_notification *)
Definition safe_unbind_notification (tcb : Z) : ST kst unit :=
  t ← thread tcb;
  let nftn := tcbBoundNotification t in
  when (nftn <>w 0) (do_unbind_notification tcb nftn).

(** ** Address spaces *)
(** [delete_asid] never returns [Err], so the lookup fault is not written. *)
(* src: kernel/src/interfaces_impl/cspace.rs 281-291 deleteASID *)
Definition deleteASID (asid vspace : Z) : ST kst unit :=
  cur ← on_sst get_currenct_thread;
  c ← cspace_cap cur tcbVTable;
  delete_asid asid vspace c.
(* src: kernel/src/interfaces_impl/cspace.rs 294-304 deleteASIDPool *)
Definition deleteASIDPool (asid_base_ pool : Z) : ST kst unit :=
  cur ← on_sst get_currenct_thread;
  c ← cspace_cap cur tcbVTable;
  delete_asid_pool asid_base_ pool c.

Definition null_ret : finaliseCap_ret := FinaliseCapRet new_null_cap new_null_cap.

(* src: kernel/src/interfaces_impl/cspace.rs 72-133 Arch_finaliseCap *)
Definition Arch_finaliseCap (c : list Z) (final : bool) : ST kst finaliseCap_ret :=
  t ← lift (get_cap_type c);
  match t with
  | CapFrameCap =>
      when (bf_get frame_mapped_asid c <>w 0)
        (unmapPage (bf_get frame_size c) (bf_get frame_mapped_asid c)
           (bf_get frame_mapped_address c) (bf_get frame_base_ptr c))
  | CapVspaceCap =>
      when (final && (bf_get vs_is_mapped c =w 1))%bool
        (deleteASID (bf_get vs_is_mapped c) (bf_get vs_base_ptr c))
  | CapPageTableCap =>
      when (final && (bf_get pt_is_mapped c =w 1))%bool
        (pte ← ptr_to_mut (bf_get pt_base_ptr c);
         unmap_page_table (bf_get pt_mapped_asid c) (bf_get pt_mapped_address c) pte)
  | CapASIDPoolCap => when final (deleteASIDPool (bf_get asid_base c) (bf_get asid_pool c))
  | CapASIDControlCap => skip
  | _ => panic
  end ;;
  mret null_ret.

(* src: kernel/src/interfaces_impl/cspace.rs 243-248 post_cap_deletion *)
Definition post_cap_deletion_impl (c : list Z) : ST kst unit :=
  t ← lift (get_cap_type c);
  when (t =t CapIrqHandlerCap) (setIRQState IRQInactive (bf_get irq_handler c)).

(* src: kernel/src/interfaces_impl/cspace.rs 251-263 preemptionPoint *)
Definition preemptionPoint_impl : ST kst exception_t :=
  on_sst (gl_mod (fun g => set_ksWorkUnits (wadd (ksWorkUnitsCompleted g) 1) g)) ;;
  w ← on_sst (gl_get ksWorkUnitsCompleted);
  if bool_decide (w >= CONFIG_MAX_NUM_WORK_UNITS_PER_PREEMPTION) then
    on_sst (gl_mod (set_ksWorkUnits 0)) ;;
    p ← isIRQPending;
    if p : bool then mret EXCEPTION_PREEMTED else mret EXCEPTION_NONE
  else mret EXCEPTION_NONE.

Section finalise_cap.
Context {D : CSpaceDeps}.

(* src: kernel/src/interrupt/mod.rs 61-63 deletingIRQHandler *)
Definition deletingIRQHandler (irq : Z) : ST kst unit :=
  s ← get_irq_handler_slot irq; delete_one s.

(* src: kernel/src/interfaces_impl/cspace.rs 139-236 finaliseCap *)
Definition finaliseCap_impl (c : list Z) (final exposed : bool) : ST kst finaliseCap_ret :=
  arch ← lift (isArchCap c);
  if arch : bool then Arch_finaliseCap c final
  else
    t ← lift (get_cap_type c);
    match t with
    | CapEndpointCap =>
        when final (ep ← ref (bf_get ep_ptr c); cancel_all_ipc ep) ;; mret null_ret
    | CapNotificationCap =>
        when final (ntfn ← ref (bf_get nf_ptr c);
                    nt_safe_unbind_tcb ntfn ;; cacncel_all_signal ntfn) ;;
        mret null_ret
    | CapReplyCap | CapNullCap | CapDomainCap => mret null_ret
    | _ =>
        if exposed then panic
        else
          match t with
          | CapCNodeCap =>
              if final then
                mret (FinaliseCapRet
                  (Zombie_new (wshl 1 (bf_get cnode_radix c)) (bf_get cnode_radix c)
                     (bf_get cnode_ptr c)) new_null_cap)
              else mret null_ret
          | CapThreadCap =>
              if final then
                tcb ← ref (bf_get tcb_ptr c);
                let cte_ptr := get_cspace_mut_ref tcb tcbCTable in
                safe_unbind_notification tcb ;;
                cancel_ipc tcb ;;
                on_sst (suspend tcb) ;;
                mret (FinaliseCapRet (Zombie_new tcbCNodeEntries ZombieType_ZombieTCB cte_ptr)
                        new_null_cap)
              else mret null_ret
          | CapZombieCap => mret (FinaliseCapRet c new_null_cap)
          | CapIrqHandlerCap =>
              if final then
                deletingIRQHandler (bf_get irq_handler c) ;;
                mret (FinaliseCapRet new_null_cap c)
              else mret null_ret
          | _ => mret null_ret
          end
    end.
End finalise_cap.

(** Deletions nest: a thread's cancelled call deletes a reply capability, an
    interrupt handler's slot holds a notification capability.  Neither of
    these deletes anything further, so three levels are enough. *)
Fixpoint kernel_deps (depth : nat) : CSpaceDeps :=
  match depth with
  | O => {| finaliseCap _ _ _ := no_fuel; post_cap_deletion _ := no_fuel; preemptionPoint := no_fuel |}
  | S n => {| finaliseCap := @finaliseCap_impl (kernel_deps n);
              post_cap_deletion := post_cap_deletion_impl;
              preemptionPoint := preemptionPoint_impl |}
  end.
#[export] Instance kernel : CSpaceDeps := kernel_deps 3.
