(* ===== verification/Syscall.v ===== *)
(** * System calls: shared parts

    [kernel/src/syscall/utils.rs], [syscall_reply.rs] and the part of
    [kernel/src/syscall/mod.rs] below the dispatch: arguments, the checks the
    decoders share, replies, faults, and the receiving system calls.
    Decoders return an exception code; an error is described in
    [current_syscall_error]. *)

From stdpp Require Import base numbers gmap list.
From S2P Require Import Prelude Bitfield Common Cap DList CSpace Sched State Vspace Threads Delete Ipc Finalise.
Local Open Scope Z_scope.
Local Open Scope krn_scope.

(* src: kernel/src/config.rs 136-136 seL4_MinPrio *)
Definition seL4_MinPrio : Z := 0.

(** ** Untyped memory arithmetic *)
(* src: kernel/src/syscall/utils.rs 29-31 alignUp *)
Definition alignUp (baseValue alignment : Z) : Z :=
  wsub (wadd baseValue (BIT alignment)) 1 &&& wnot (MASK alignment).
(* src: kernel/src/syscall/utils.rs 33-35 FREE_INDEX_TO_OFFSET *)
Definition FREE_INDEX_TO_OFFSET (freeIndex : Z) : Z := wshl freeIndex seL4_MinUntypedBits.
(* src: kernel/src/syscall/utils.rs 36-38 GET_FREE_REF *)
Definition GET_FREE_REF (base freeIndex : Z) : Z := wadd base (FREE_INDEX_TO_OFFSET freeIndex).
(* src: kernel/src/syscall/utils.rs 39-41 GET_FREE_INDEX *)
Definition GET_FREE_INDEX (base free : Z) : Z := wshr (wsub free base) seL4_MinUntypedBits.
(* src: kernel/src/syscall/utils.rs 42-44 GET_OFFSET_FREE_PTR *)
Definition GET_OFFSET_FREE_PTR (base offset : Z) : Z := wadd base offset.
(* src: kernel/src/syscall/utils.rs 45-47 OFFSET_TO_FREE_IDNEX *)
Definition OFFSET_TO_FREE_IDNEX (offset : Z) : Z := wshr offset seL4_MinUntypedBits.

(** ** Errors *)
Definition fail_with (type : Z) : ST kst exception_t :=
  set_error type ;; mret EXCEPTION_SYSCALL_ERROR.
Definition fail_argument (n : Z) : ST kst exception_t :=
  set_error seL4_InvalidArgument ;; syscall_error (set_invalidArgumentNumber n) ;;
  mret EXCEPTION_SYSCALL_ERROR.
Definition fail_cap (n : Z) : ST kst exception_t :=
  set_error seL4_InvalidCapability ;; syscall_error (set_invalidCapNumber n) ;;
  mret EXCEPTION_SYSCALL_ERROR.
Definition fail_range (lo hi : Z) : ST kst exception_t :=
  set_error seL4_RangeError ;; syscall_error (set_rangeError lo hi) ;;
  mret EXCEPTION_SYSCALL_ERROR.
Definition fail_lookup (was_source : Z) : ST kst exception_t :=
  set_error seL4_FailedLookup ;; syscall_error (set_failedLookupWasSource was_source) ;;
  mret EXCEPTION_SYSCALL_ERROR.

(** Early return of a status that is not [EXCEPTION_NONE]. *)
Definition ok_or (st : exception_t) (k : ST kst exception_t) : ST kst exception_t :=
  if bool_decide (st <> EXCEPTION_NONE) then mret st else k.
Notation "'try' m ;;; k" := (m ≫= fun st => ok_or st k) (at level 100, m at level 90, k at level 200).
(** [set_thread_state(get_currenct_thread(), ThreadStateRestart)] *)
Definition current_restart : ST kst unit :=
  c ← on_sst get_currenct_thread; set_state c ThreadStateRestart.

(** ** Arguments *)
(* src: kernel/src/syscall/utils.rs 79-84 get_syscall_arg *)
Definition get_syscall_arg (i ipc_buffer : Z) : ST kst Z :=
  if bool_decide (i < msgRegisterNum) then
    c ← on_sst get_currenct_thread; reg_get c (RMsg i)
  else buf_msg ipc_buffer i.
(* src: kernel/src/kernel/boot.rs 41-44 get_extra_cap_by_index *)
Definition get_extra_cap_by_index (index : Z) : ST kst (option Z) :=
  assert_m (bool_decide (index < seL4_MsgMaxExtraCaps)) ;;
  a ← sys_get excaprefs;
  p ← lift (idx a index);
  mret (if p =w 0 then None else Some p).
(** [get_extra_cap_by_index(i).unwrap()] *)
Definition extra_cap_unwrap (index : Z) : ST kst Z :=
  o ← get_extra_cap_by_index index; lift (or_panic o).
Definition extra_cap_is_none (index : Z) : ST kst bool :=
  o ← get_extra_cap_by_index index; mret (match o with None => true | Some _ => false end).
Definition slot_cap (s : Z) : ST kst (list Z) := x ← slot s; mret (cte_cap x).
Definition slot_tag (s : Z) : ST kst CapTag := c ← slot_cap s; lift (get_cap_type c).

(* src: kernel/src/syscall/utils.rs 64-76 lookup_extra_caps_with_buf *)
Definition lookup_extra_caps_with_buf (thread_ : Z) (buf : option Z) : ST kst exception_t :=
  a ← sys_get excaprefs;
  r ← tcb_lookup_extra_caps_with_buf thread_ a buf;
  sys_mod (set_excaprefs r.1) ;;
  match r.2 with
  | None => mret EXCEPTION_NONE
  | Some fault => sys_mod (set_fault fault) ;; mret EXCEPTION_LOOKUP_FAULT
  end.

(* src: kernel/src/syscall/utils.rs 86-97 check_prio *)
Definition check_prio (prio auth_tcb : Z) : ST kst exception_t :=
  t ← thread auth_tcb;
  if bool_decide (prio > tcbMCP t) then fail_range seL4_MinPrio (tcbMCP t) else mret EXCEPTION_NONE.

(* src: kernel/src/syscall/utils.rs 99-126 check_ipc_buffer_vaild *)
Definition check_ipc_buffer_vaild (vptr : Z) (c : list Z) : ST kst exception_t :=
  t ← lift (get_cap_type c);
  if negb (t =t CapFrameCap) then fail_with seL4_IllegalOperation
  else if bf_get frame_is_device c <>w 0 then fail_with seL4_IllegalOperation
  else if negb (IS_ALIGNED vptr seL4_IPCBufferSizeBits) then fail_with seL4_AlignmentError
  else mret EXCEPTION_NONE.

(** The status and, when it is [EXCEPTION_NONE], the slot. *)
(* src: kernel/src/syscall/utils.rs 159-208 lookup_slot_for_cnode_op *)
Definition lookup_slot_for_cnode_op (is_source : bool) (root : list Z) (cap_ptr depth : Z)
    : ST kst (exception_t * Z) :=
  t ← lift (get_cap_type root);
  if negb (t =t CapCNodeCap) then
    st ← fail_lookup (b2w is_source);
    sys_mod (set_lookup_fault lookup_fault_new_root_invalid) ;; mret (st, 0)
  else if bool_decide (depth < 1) || bool_decide (depth > wordBits) then
    st ← fail_range 1 wordBits; mret (st, 0)
  else
    res_ret ← on_slots (resolve_address_bits root cap_ptr depth);
    if bool_decide (rab_status res_ret <> EXCEPTION_NONE) then
      st ← fail_lookup (b2w is_source); mret (st, 0)
    else if rab_bitsRemaining res_ret <>w 0 then
      st ← fail_lookup (b2w is_source);
      sys_mod (set_lookup_fault (lookup_fault_new_depth_mismatch 0 (rab_bitsRemaining res_ret))) ;;
      mret (st, 0)
    else mret (EXCEPTION_NONE, rab_slot res_ret).
(* src: kernel/src/syscall/utils.rs 210-217 lookupSlotForCNodeOp *)
Definition lookupSlotForCNodeOp (isSource : bool) (root : list Z) (capptr depth : Z)
    : ST kst (exception_t * Z) := lookup_slot_for_cnode_op isSource root capptr depth.

(* src: kernel/src/syscall/utils.rs 220-228 ensure_empty_slot *)
Definition ensure_empty_slot (s : Z) : ST kst exception_t :=
  t ← slot_tag s;
  if negb (t =t CapNullCap) then fail_with seL4_DeleteFirst else mret EXCEPTION_NONE.

(* src: kernel/src/syscall/utils.rs 235-264 mask_cap_rights *)
Definition mask_cap_rights (rights c : list Z) : res (list Z) :=
  a ← isArchCap c;
  if a : bool then arch_mask_cap_rights rights c
  else
    t ← get_cap_type c;
    match t with
    | CapEndpointCap =>
        let c1 := bf_set ep_can_send (bf_get ep_can_send c &&& bf_get allow_write rights) c in
        let c2 := bf_set ep_can_receive (bf_get ep_can_receive c &&& bf_get allow_read rights) c1 in
        let c3 := bf_set ep_can_grant (bf_get ep_can_grant c &&& bf_get allow_grant rights) c2 in
        mret (bf_set ep_can_grant_reply
          (bf_get ep_can_grant_reply c &&& bf_get allow_grant_reply rights) c3)
    | CapNotificationCap =>
        let c1 := bf_set nf_can_send (bf_get nf_can_send c &&& bf_get allow_write rights) c in
        mret (bf_set nf_can_receive (bf_get nf_can_receive c &&& bf_get allow_read rights) c1)
    | CapReplyCap =>
        mret (bf_set reply_can_grant (bf_get reply_can_grant c &&& bf_get allow_grant rights) c)
    | CapFrameCap =>
        vm_rights ← vm_rights_from_word (bf_get frame_vm_rights c);
        mret (bf_set frame_vm_rights (vm_rights_to_usize (maskVMRights vm_rights rights)) c)
    | _ => mret c
    end.

(** ** Replies from the kernel *)
(* src: kernel/src/syscall/syscall_reply.rs 30-53 set_mrs_for_syscall_error *)
Definition set_mrs_for_syscall_error (thread_ : Z) : ST kst Z :=
  e ← sys_get current_syscall_error;
  let ty := se_type e in
  if ty =w seL4_InvalidArgument then set_mr thread_ 0 (invalidArgumentNumber e)
  else if ty =w seL4_InvalidCapability then set_mr thread_ 0 (invalidCapNumber e)
  else if ty =w seL4_RangeError then
    _ ← set_mr thread_ 0 (rangeErrorMin e); set_mr thread_ 1 (rangeErrorMax e)
  else if ty =w seL4_FailedLookup then
    let flag := failedLookupWasSource e =w 1 in
    _ ← set_mr thread_ 0 (b2w flag);
    f ← sys_get current_lookup_fault;
    set_lookup_fault_mrs thread_ 1 f
  else if (ty =w seL4_IllegalOperation) || (ty =w seL4_AlignmentError)
          || (ty =w seL4_TruncatedMessage) || (ty =w seL4_DeleteFirst)
          || (ty =w seL4_RevokeFirst) then mret 0
  else if ty =w seL4_NotEnoughMemory then set_mr thread_ 0 (memoryLeft e)
  else panic.
(* src: kernel/src/syscall/syscall_reply.rs 7-17 reply_error_from_kernel *)
Definition reply_error_from_kernel (thread_ : Z) : ST kst unit :=
  reg_set thread_ RBadge 0 ;;
  len ← set_mrs_for_syscall_error thread_;
  e ← sys_get current_syscall_error;
  reg_set thread_ RMsgInfo (message_info_to_word (message_info_new (se_type e) 0 0 len)).
(* src: kernel/src/syscall/syscall_reply.rs 19-26 reply_success_from_kernel *)
Definition reply_success_from_kernel (thread_ : Z) : ST kst unit :=
  reg_set thread_ RBadge 0 ;;
  reg_set thread_ RMsgInfo (message_info_to_word (message_info_new 0 0 0 0)).

Section syscalls.
Context {D : CSpaceDeps}.

(** ** Faults *)
(* src: kernel/src/syscall/mod.rs 109-142 send_fault_ipc *)
Definition send_fault_ipc (thread_ : Z) : ST kst exception_t :=
  origin_lookup_fault ← sys_get current_lookup_fault;
  t ← thread thread_;
  lu_ret ← lookup_slot thread_ (tcbFaultHandler t);
  if bool_decide (ls_status lu_ret <> EXCEPTION_NONE) then
    sys_mod (set_fault (fault_new_cap_fault (tcbFaultHandler t) 0)) ;; mret EXCEPTION_FAULT
  else
    s ← ptr_to_mut (ls_slot lu_ret);
    handler_cap ← slot_cap s;
    ty ← lift (get_cap_type handler_cap);
    if (ty =t CapEndpointCap)
       && ((bf_get ep_can_grant handler_cap <>w 0) || (bf_get ep_can_grant_reply handler_cap <>w 0))
    then
      f ← sys_get current_fault;
      thread_mod thread_ (set_tcbFault f) ;;
      ft ← lift (get_fault_type f);
      when (bool_decide (ft = CapFault)) (thread_mod thread_ (set_tcbLookupFailure origin_lookup_fault)) ;;
      ep ← ref (bf_get ep_ptr handler_cap);
      send_ipc ep thread_ true true (bf_get ep_can_grant handler_cap <>w 0)
        (bf_get ep_badge handler_cap) true ;;
      mret EXCEPTION_NONE
    else
      sys_mod (set_fault (fault_new_cap_fault (tcbFaultHandler t) 0)) ;;
      sys_mod (set_lookup_fault (lookup_fault_new_missing_cap 0)) ;;
      mret EXCEPTION_FAULT.
(* src: kernel/src/syscall/mod.rs 145-149 handle_fault *)
Definition handle_fault (thread_ : Z) : ST kst unit :=
  st ← send_fault_ipc thread_;
  when (bool_decide (st <> EXCEPTION_NONE)) (set_state thread_ ThreadStateInactive).

(** ** Receiving system calls *)
(* src: kernel/src/syscall/mod.rs 151-162 handle_reply *)
Definition handle_reply : ST kst unit :=
  current_thread ← on_sst get_currenct_thread;
  let caller_slot := get_cspace_mut_ref current_thread tcbCaller in
  caller_cap ← slot_cap caller_slot;
  ty ← lift (get_cap_type caller_cap);
  if ty =t CapReplyCap then
    if bf_get reply_master caller_cap <>w 0 then skip
    else
      caller ← ref (bf_get reply_tcb_ptr caller_cap);
      do_reply current_thread caller caller_slot (bf_get reply_can_grant caller_cap <>w 0)
  else skip.

(** The fault of a receive on a capability that cannot be received on. *)
Definition recv_cap_fault (current_thread ep_cptr : Z) : ST kst unit :=
  sys_mod (set_lookup_fault (lookup_fault_new_missing_cap 0)) ;;
  sys_mod (set_fault (fault_new_cap_fault ep_cptr 1)) ;;
  handle_fault current_thread.
(* src: kernel/src/syscall/mod.rs 164-215 handle_recv *)
Definition handle_recv (block : bool) : ST kst unit :=
  current_thread ← on_sst get_currenct_thread;
  ep_cptr ← reg_get current_thread RCap;
  lu_ret ← lookup_slot current_thread ep_cptr;
  if bool_decide (ls_status lu_ret <> EXCEPTION_NONE) then
    sys_mod (set_fault (fault_new_cap_fault ep_cptr 1)) ;; handle_fault current_thread
  else
    ipc_cap ← slot_cap (ls_slot lu_ret);
    ty ← lift (get_cap_type ipc_cap);
    match ty with
    | CapEndpointCap =>
        if bf_get ep_can_receive ipc_cap =w 0 then recv_cap_fault current_thread ep_cptr
        else
          delete_caller_cap current_thread ;;
          ep ← ref (bf_get ep_ptr ipc_cap);
          receive_ipc ep current_thread block (bf_get ep_can_grant ipc_cap <>w 0)
    | CapNotificationCap =>
        ntfn ← ref (bf_get nf_ptr ipc_cap);
        n ← ntfn_get ntfn;
        let bound_tcb_ptr := bf_get nt_bound_tcb n in
        if (bf_get nf_can_receive ipc_cap =w 0)
           || ((bound_tcb_ptr <>w 0) && (bound_tcb_ptr <>w current_thread))
        then recv_cap_fault current_thread ep_cptr
        else receive_signal ntfn current_thread block
    | _ => recv_cap_fault current_thread ep_cptr
    end.
(* src: kernel/src/syscall/mod.rs 217-221 handle_yield *)
Definition handle_yield : ST kst unit :=
  c ← on_sst get_currenct_thread;
  on_sst (sched_dequeue c) ;;
  c ← on_sst get_currenct_thread;
  on_sst (sched_append c) ;;
  on_sst rescheduleRequired.
End syscalls.
