(* ===== verification/CNodeInv.v ===== *)
(** * Invocations of a capability node

    [decode_cnode_invocation.rs] reads the arguments of a message sent to a
    CNode capability, finds the slots it names and refuses what is not
    allowed; [invoke_cnode.rs] performs the operation.  [fuel] bounds the
    deletions of [CNode_Revoke] and [CNode_Delete] ([Delete.v]). *)

From stdpp Require Import base numbers gmap list.
From S2P Require Import Prelude Bitfield Common Cap DList CSpace Sched State Vspace Threads Delete Ipc Finalise Syscall.
Local Open Scope Z_scope.
Local Open Scope krn_scope.

(** The discriminant of a label, for the comparisons of the decoders. *)
Definition label_index (l : MessageLabel) : Z :=
  match list_find (fun m => m = l) message_labels with Some (i, _) => Z.of_nat i | None => -1 end.

Section cnode.
Context {D : CSpaceDeps}.

(** ** Operations *)
(** The capability a copy would insert, or the status of the failure. *)
Definition derive_for_copy (src_slot : Z) (c : list Z) : ST kst (exception_t * list Z) :=
  dc_ret ← on_slots (derive_cap src_slot c);
  if bool_decide (dc_status dc_ret <> EXCEPTION_NONE) then mret (dc_status dc_ret, dc_cap dc_ret)
  else
    t ← lift (get_cap_type (dc_cap dc_ret));
    if t =t CapNullCap then
      st ← fail_with seL4_IllegalOperation; mret (st, dc_cap dc_ret)
    else mret (EXCEPTION_NONE, dc_cap dc_ret).
Definition insert_derived (src_slot dest_slot : Z) (c : list Z) : ST kst exception_t :=
  r ← derive_for_copy src_slot c;
  ok_or r.1
    (current_restart ;;
     on_slots (cte_insert r.2 src_slot dest_slot) ;;
     mret EXCEPTION_NONE).
(* src: kernel/src/syscall/invocation/invoke_cnode.rs 15-37 invoke_cnode_copy *)
Definition invoke_cnode_copy (src_slot dest_slot : Z) (cap_right : list Z) : ST kst exception_t :=
  c ← slot_cap src_slot;
  src_cap ← lift (mask_cap_rights cap_right c);
  insert_derived src_slot dest_slot src_cap.
(* src: kernel/src/syscall/invocation/invoke_cnode.rs 40-64 invoke_cnode_mint *)
Definition invoke_cnode_mint (src_slot dest_slot : Z) (cap_right : list Z) (cap_data : Z)
    : ST kst exception_t :=
  c ← slot_cap src_slot;
  src_cap ← lift (mask_cap_rights cap_right c);
  new_cap ← lift (update_data src_cap false cap_data);
  insert_derived src_slot dest_slot new_cap.
(* src: kernel/src/syscall/invocation/invoke_cnode.rs 67-83 invoke_cnode_mutate *)
Definition invoke_cnode_mutate (src_slot dest_slot cap_data : Z) : ST kst exception_t :=
  c ← slot_cap src_slot;
  new_cap ← lift (update_data c true cap_data);
  t ← lift (get_cap_type new_cap);
  if t =t CapNullCap then fail_with seL4_IllegalOperation
  else
    current_restart ;;
    on_slots (cte_move new_cap src_slot dest_slot) ;;
    mret EXCEPTION_NONE.
(* src: kernel/src/syscall/invocation/invoke_cnode.rs 86-107 invoke_cnode_save_caller *)
Definition invoke_cnode_save_caller (dest_slot : Z) : ST kst exception_t :=
  t ← slot_tag dest_slot;
  if negb (t =t CapNullCap) then fail_with seL4_DeleteFirst
  else
    current_restart ;;
    cur ← on_sst get_currenct_thread;
    let src_slot := get_cspace_mut_ref cur tcbCaller in
    c ← slot_cap src_slot;
    tc ← lift (get_cap_type c);
    match tc with
    | CapNullCap => mret EXCEPTION_NONE
    | CapReplyCap =>
        when (bf_get reply_master c =w 0) (on_slots (cte_move c src_slot dest_slot)) ;;
        mret EXCEPTION_NONE
    | _ => panic
    end.
(* src: kernel/src/syscall/invocation/invoke_cnode.rs 110-146 invoke_cnode_rotate *)
Definition invoke_cnode_rotate (slot1 slot2 slot3 src_new_data pivot_new_data : Z)
    : ST kst exception_t :=
  c1 ← slot_cap slot1;
  new_src_cap ← lift (update_data c1 true src_new_data);
  c2 ← slot_cap slot2;
  new_pivot_cap ← lift (update_data c2 true pivot_new_data);
  ts ← lift (get_cap_type new_src_cap);
  if ts =t CapNullCap then fail_with seL4_IllegalOperation
  else
    tp ← lift (get_cap_type new_pivot_cap);
    if tp =t CapNullCap then fail_with seL4_IllegalOperation
    else
      current_restart ;;
      (if slot1 =w slot3 then on_slots (cte_swap new_src_cap slot1 new_pivot_cap slot2)
       else
         on_slots (cte_move new_pivot_cap slot2 slot3) ;;
         on_slots (cte_move new_src_cap slot1 slot2)) ;;
      mret EXCEPTION_NONE.
(* src: kernel/src/syscall/invocation/invoke_cnode.rs 149-161 invoke_cnode_move *)
Definition invoke_cnode_move (src_slot dest_slot : Z) : ST kst exception_t :=
  src_cap ← slot_cap src_slot;
  t ← lift (get_cap_type src_cap);
  if t =t CapNullCap then fail_with seL4_IllegalOperation
  else
    current_restart ;;
    on_slots (cte_move src_cap src_slot dest_slot) ;;
    mret EXCEPTION_NONE.
(* src: kernel/src/syscall/invocation/invoke_cnode.rs 193-203 hasCancelSendRight *)
Definition hasCancelSendRight (c : list Z) : res bool :=
  t ← get_cap_type c;
  mret ((t =t CapEndpointCap) && (bf_get ep_can_send c <>w 0) && (bf_get ep_can_receive c <>w 0)
    && (bf_get ep_can_grant c <>w 0) && (bf_get ep_can_grant_reply c <>w 0)).
(* src: kernel/src/syscall/invocation/invoke_cnode.rs 164-179 invoke_cnode_cancel_badged_sends *)
Definition invoke_cnode_cancel_badged_sends (dest_slot : Z) : ST kst exception_t :=
  dest_cap ← slot_cap dest_slot;
  h ← lift (hasCancelSendRight dest_cap);
  if negb h then fail_with seL4_IllegalOperation
  else
    current_restart ;;
    let badge := bf_get ep_badge dest_cap in
    when (badge <>w 0)
      (ep ← ref (bf_get ep_ptr dest_cap); cancel_badged_sends ep badge) ;;
    mret EXCEPTION_NONE.
(* src: kernel/src/syscall/invocation/invoke_cnode.rs 181-185 invoke_cnode_revoke *)
Definition invoke_cnode_revoke (fuel : nat) (dest_slot : Z) : ST kst exception_t :=
  current_restart ;; revoke fuel dest_slot.
(* src: kernel/src/syscall/invocation/invoke_cnode.rs 187-191 invoke_cnode_delete *)
Definition invoke_cnode_delete (fuel : nat) (dest_slot : Z) : ST kst exception_t :=
  current_restart ;; delete_all fuel dest_slot true.

(** ** Decoding *)
Definition extra_root (i : Z) : ST kst (list Z) := s ← extra_cap_unwrap i; slot_cap s.
(** A slot named by the message holds nothing. *)
Definition fail_missing (was_source depth : Z) : ST kst exception_t :=
  st ← fail_lookup was_source;
  sys_mod (set_lookup_fault (lookup_fault_new_missing_cap depth)) ;; mret st.

(* src: kernel/src/syscall/invocation/decode/decode_cnode_invocation.rs 65-149 decode_cnode_invoke_with_two_slot *)
Definition decode_cnode_invoke_with_two_slot (label : MessageLabel) (dest_slot length buffer : Z)
    : ST kst exception_t :=
  none ← (if bool_decide (length < 4) then mret true else extra_cap_is_none 0);
  if none : bool then fail_with seL4_TruncatedMessage
  else
    src_index ← get_syscall_arg 2 buffer;
    src_depth ← get_syscall_arg 3 buffer;
    src_root ← extra_root 0;
    td ← slot_tag dest_slot;
    if negb (td =t CapNullCap) then fail_with seL4_DeleteFirst
    else
      lu_ret ← lookup_slot_for_cnode_op true src_root src_index src_depth;
      ok_or lu_ret.1
        (src_slot ← ref lu_ret.2;
         ts ← slot_tag src_slot;
         if ts =t CapNullCap then fail_missing 1 src_depth
         else
           match label with
           | CNodeCopy =>
               if bool_decide (length < 5) then fail_with seL4_TruncatedMessage
               else
                 w ← get_syscall_arg 4 buffer;
                 invoke_cnode_copy src_slot dest_slot (rights_from_word w)
           | CNodeMint =>
               if bool_decide (length < 6) then fail_with seL4_TruncatedMessage
               else
                 w ← get_syscall_arg 4 buffer;
                 cap_data ← get_syscall_arg 5 buffer;
                 invoke_cnode_mint src_slot dest_slot (rights_from_word w) cap_data
           | CNodeMove => invoke_cnode_move src_slot dest_slot
           | CNodeMutate =>
               if bool_decide (length < 5) then fail_with seL4_TruncatedMessage
               else
                 cap_data ← get_syscall_arg 4 buffer;
                 invoke_cnode_mutate src_slot dest_slot cap_data
           | _ => panic
           end).

(** The checks of [decode_cnode_rotate] once the three slots are known. *)
(* src: kernel/src/syscall/invocation/decode/decode_cnode_invocation.rs 188-226 decode_cnode_rotate *)
Definition rotate_checked (src_slot pivot_slot dest_slot src_new_data pivot_new_data
    src_depth pivot_depth : Z) : ST kst exception_t :=
  if (pivot_slot =w src_slot) || (pivot_slot =w dest_slot) then fail_with seL4_IllegalOperation
  else
    full ← (if src_slot <>w dest_slot then t ← slot_tag dest_slot; mret (negb (t =t CapNullCap))
            else mret false);
    if full : bool then fail_with seL4_DeleteFirst
    else
      ts ← slot_tag src_slot;
      if ts =t CapNullCap then fail_missing 1 src_depth
      else
        tp ← slot_tag pivot_slot;
        if tp =t CapNullCap then fail_missing 0 pivot_depth
        else invoke_cnode_rotate src_slot pivot_slot dest_slot src_new_data pivot_new_data.
(* src: kernel/src/syscall/invocation/decode/decode_cnode_invocation.rs 151-227 decode_cnode_rotate *)
Definition decode_cnode_rotate (dest_slot length buffer : Z) : ST kst exception_t :=
  none ← (if bool_decide (length < 8) then mret true
          else
            n0 ← extra_cap_is_none 0;
            if n0 : bool then mret true else extra_cap_is_none 1);
  if none : bool then fail_with seL4_TruncatedMessage
  else
    pivot_new_data ← get_syscall_arg 2 buffer;
    pivot_index ← get_syscall_arg 3 buffer;
    pivot_depth ← get_syscall_arg 4 buffer;
    src_new_data ← get_syscall_arg 5 buffer;
    src_idnex ← get_syscall_arg 6 buffer;
    src_depth ← get_syscall_arg 7 buffer;
    pivot_root ← extra_root 0;
    src_root ← extra_root 1;
    lu_ret ← lookup_slot_for_cnode_op true src_root src_idnex src_depth;
    ok_or lu_ret.1
      (src_slot ← ref lu_ret.2;
       lu_ret ← lookup_slot_for_cnode_op true pivot_root pivot_index pivot_depth;
       ok_or lu_ret.1
         (pivot_slot ← ref lu_ret.2;
          rotate_checked src_slot pivot_slot dest_slot src_new_data pivot_new_data
            src_depth pivot_depth)).

(* src: kernel/src/syscall/invocation/decode/decode_cnode_invocation.rs 19-63 decode_cnode_invocation *)
Definition decode_cnode_invocation (fuel : nat) (invLabel : MessageLabel) (length : Z)
    (c : list Z) (buffer : Z) : ST kst exception_t :=
  if bool_decide (label_index invLabel < label_index CNodeRevoke)
     || bool_decide (label_index invLabel > label_index CNodeSaveCaller)
  then fail_with seL4_IllegalOperation
  else if bool_decide (length < 2) then fail_with seL4_TruncatedMessage
  else
    index ← get_syscall_arg 0 buffer;
    w_bits ← get_syscall_arg 1 buffer;
    lu_ret ← lookup_slot_for_cnode_op false c index w_bits;
    ok_or lu_ret.1
      (dest_slot ← ref lu_ret.2;
       match invLabel with
       | CNodeCopy | CNodeMint | CNodeMove | CNodeMutate =>
           decode_cnode_invoke_with_two_slot invLabel dest_slot length buffer
       | CNodeRevoke => invoke_cnode_revoke fuel dest_slot
       | CNodeDelete => invoke_cnode_delete fuel dest_slot
       | CNodeSaveCaller => invoke_cnode_save_caller dest_slot
       | CNodeCancelBadgedSends => invoke_cnode_cancel_badged_sends dest_slot
       | CNodeRotate => decode_cnode_rotate dest_slot length buffer
       | _ => panic
       end).
End cnode.
