(* ===== verification/UntypedInv.v ===== *)
(** * Retyping untyped memory

    [decode_untyped_invocation.rs], [invoke_untyped.rs], the aarch64 objects
    of [invocation/arch/aarch64.rs] and [clear_memory].

    Untyped memory is words of [k_mem].  Clearing a region turns everything in
    it into zero words; creating a kernel object takes its words out of [k_mem]
    and reads them as the object, so the objects the model creates are what the
    memory held. *)

From stdpp Require Import base numbers gmap list.
From S2P Require Import Prelude Bitfield Common Cap DList CSpace Sched State Vspace Threads Delete Ipc Finalise Syscall CNodeInv.
Local Open Scope Z_scope.
Local Open Scope krn_scope.

(* src: kernel/src/config.rs 139-139 CONFIG_RETYPE_FAN_OUT_LIMIT *)
Definition CONFIG_RETYPE_FAN_OUT_LIMIT : Z := 256.

(** ** Memory *)
(** The entries of a map outside [[a, a + n)]. *)
Definition outside {A} (a n : Z) (m : gmap Z A) : gmap Z A :=
  filter (fun kv => ~ (a <= kv.1 < a + n)) m.
Definition zero_words (a n : Z) : gmap Z Z :=
  list_to_map ((fun i => (a + 8 * i, 0)) <$> seqZ 0 (n / 8)).
(** [slice::from_raw_parts_mut(a, n).fill(0)] *)
Definition fill_zero (a n : Z) : ST kst unit := modify (fun s =>
  let k := k_sst s in
  Kst (outside a n (k_slots s)) (Sst (outside a n (tcbs k)) (gl k))
    (outside a n (k_eps s)) (outside a n (k_ntfns s))
    (zero_words a n ∪ outside a n (k_mem s)) (k_sys s) (k_irq s)
    (set_asid_pools (outside a n (asid_pools (k_vm s))) (k_vm s))).
(* src: kernel/src/utils.rs 29-40 clear_memory *)
Definition clear_memory (ptr bits : Z) : ST kst unit :=
  fill_zero ptr (BIT bits) ;;
  hw (CleanRAM ptr (wadd ptr (wsub (BIT bits) 1)) (pptr_to_paddr ptr)).

(** The [n] words at [p] cease to be plain memory. *)
Fixpoint take_words (n : nat) (p : Z) : ST kst (list Z) :=
  match n with
  | O => mret []
  | S n =>
      w ← word_get p;
      on_mem (modify (delete p)) ;;
      ws ← take_words n (p + 8);
      mret (w :: ws)
  end.
(** Memory read as [n] capability slots. *)
Fixpoint take_slots (n : nat) (p : Z) : ST kst unit :=
  match n with
  | O => skip
  | S n =>
      ws ← take_words 4 p;
      on_slots (modify <[p := Cte (take 2 ws) (drop 2 ws)]>) ;;
      take_slots n (p + cte_size)
  end.
(** Memory read as a thread: five slots, then a zeroed [tcb_t].  The layout of
    a [tcb_t] that is not zero is not modelled. *)
Definition take_tcb (p : Z) : ST kst unit :=
  take_slots (Z.to_nat tcbCNodeEntries) p ;;
  ws ← take_words (Z.to_nat (BIT seL4_TCBBits / 8 - tcbCNodeEntries * 4)) (p + tcbCNodeEntries * cte_size);
  if forallb (fun w => w =w 0) ws then
    on_sst (on_tcbs (modify <[wadd p TCB_OFFSET := tcb_zero]>))
  else ub.

(** ** Creating objects *)
(* src: kernel/src/syscall/invocation/arch/aarch64.rs 8-52 arch_create_object *)
Definition arch_create_object (obj_type : ObjectType) (region_base user_size device_mem : Z)
    : res (list Z) :=
  match obj_type with
  | seL4_ARM_SmallPageObject =>
      Ok (new_frame_cap device_mem (vm_rights_to_usize VMReadWrite) 0 ARM_Small_Page asidInvalid region_base)
  | seL4_ARM_LargePageObject =>
      Ok (new_frame_cap device_mem (vm_rights_to_usize VMReadWrite) 0 ARM_Large_Page asidInvalid region_base)
  | seL4_ARM_HugePageObject =>
      Ok (new_frame_cap device_mem (vm_rights_to_usize VMReadWrite) 0 ARM_Huge_Page asidInvalid region_base)
  | seL4_ARM_VSpaceObject => Ok (new_vspace_cap asidInvalid region_base 0)
  | seL4_ARM_PageTableObject => Ok (new_page_table_cap asidInvalid region_base 0 0)
  | _ => Panic
  end.
(* src: kernel/src/syscall/invocation/invoke_untyped.rs 68-92 create_object *)
Definition create_object (obj_type : ObjectType) (region_base user_size device_mem : Z)
    : ST kst (list Z) :=
  match obj_type with
  | TCBObject =>
      take_tcb region_base ;;
      tcb ← ref (wadd region_base TCB_OFFSET);
      on_sst (tcb_init tcb) ;;
      thread_mod tcb (set_tcbTimeSlice CONFIG_TIME_SLICE) ;;
      dom ← on_sst get_current_domain;
      thread_mod tcb (set_tcb_domain dom) ;;
      mret (new_thread_cap tcb)
  | CapTableObject =>
      take_slots (Z.to_nat (BIT user_size)) region_base ;;
      mret (new_cnode_cap user_size 0 0 region_base)
  | NotificationObject =>
      ws ← take_words 4 region_base;
      on_ntfns (modify <[region_base := ws]>) ;;
      mret (new_notification_cap 0 1 1 region_base)
  | EndpointObject =>
      ws ← take_words 2 region_base;
      on_eps (modify <[region_base := ws]>) ;;
      mret (new_endpoint_cap 0 1 1 1 1 region_base)
  | UnytpedObject => mret (new_untyped_cap 0 device_mem user_size region_base)
  | _ => lift (arch_create_object obj_type region_base user_size device_mem)
  end.
(* src: kernel/src/syscall/invocation/invoke_untyped.rs 16-37 create_new_objects *)
Definition create_new_objects (obj_type : ObjectType) (parent dest_cnode dest_offset dest_length
    region_base user_size device_mem : Z) : ST kst unit :=
  object_size ← lift (get_object_size obj_type user_size);
  for_range (Z.to_nat dest_length) 0 (fun i =>
    c ← create_object obj_type (wadd region_base (wshl i object_size)) user_size device_mem;
    s ← ref (get_offset_slot dest_cnode (wadd dest_offset i));
    on_slots (insert_new_cap parent s c)).

(** The loop clears chunks from the one at [offset] down to the first. *)
(* src: kernel/src/syscall/invocation/invoke_untyped.rs 112-118 reset_untyped_cap *)
Fixpoint reset_loop (fuel : nat) (region_base offset : Z) : ST kst Z :=
  match fuel with
  | O => no_fuel
  | S fuel =>
      if offset =w - BIT CONFIG_RESET_CHUNK_BITS then mret offset
      else
        clear_memory (GET_OFFSET_FREE_PTR region_base (wrap offset)) CONFIG_RESET_CHUNK_BITS ;;
        reset_loop fuel region_base (offset - BIT CONFIG_RESET_CHUNK_BITS)
  end.
(** [offset] is a multiple of the chunk: one round a chunk, one to stop. *)
(* src: kernel/src/syscall/invocation/invoke_untyped.rs 94-122 reset_untyped_cap *)
Definition reset_untyped_cap (srcSlot : Z) : ST kst exception_t :=
  prev_cap ← slot_cap srcSlot;
  let block_size := bf_get untyped_block_size prev_cap in
  let region_base := bf_get untyped_ptr prev_cap in
  let chunk := CONFIG_RESET_CHUNK_BITS in
  let offset := FREE_INDEX_TO_OFFSET (bf_get untyped_free_index prev_cap) in
  let device_mem := bf_get frame_is_device prev_cap in
  if offset =w 0 then mret EXCEPTION_NONE
  else
    (if (device_mem <>w 0) && bool_decide (block_size < chunk) then
       when (device_mem <>w 0) (clear_memory region_base block_size) ;;
       slot_mod srcSlot (fun x => set_cap (bf_set untyped_free_index 0 (cte_cap x)) x)
     else
       let start := ROUND_DOWN (wsub offset 1) chunk in
       offset ← reset_loop (Z.to_nat (start / BIT chunk + 2)) region_base start;
       slot_mod srcSlot (fun x =>
         set_cap (bf_set untyped_free_index (OFFSET_TO_FREE_IDNEX (wrap offset)) (cte_cap x)) x)) ;;
    mret EXCEPTION_NONE.

(* src: kernel/src/syscall/invocation/invoke_untyped.rs 124-158 invoke_untyped_retype *)
Definition invoke_untyped_retype (src_slot : Z) (reset : bool) (retype_base : Z)
    (new_type : ObjectType) (user_size dest_cnode dest_offset dest_length device_mem : Z)
    : ST kst exception_t :=
  c ← slot_cap src_slot;
  let region_base := bf_get untyped_ptr c in
  st ← (if reset then reset_untyped_cap src_slot else mret EXCEPTION_NONE);
  ok_or st
    (size ← lift (get_object_size new_type user_size);
     let free_ref := wadd retype_base (wshl dest_length size) in
     slot_mod src_slot (fun x =>
       set_cap (bf_set untyped_free_index (GET_FREE_INDEX region_base free_ref) (cte_cap x)) x) ;;
     create_new_objects new_type src_slot dest_cnode dest_offset dest_length retype_base user_size
       device_mem ;;
     mret EXCEPTION_NONE).

(** ** Decoding *)
(* src: kernel/src/syscall/invocation/decode/decode_untyped_invocation.rs 151-170 check_object_type *)
Definition check_object_type (new_type : ObjectType) (user_obj_size : Z) : ST kst exception_t :=
  if bool_decide (new_type = CapTableObject) && (user_obj_size =w 0) then fail_argument 1
  else if bool_decide (new_type = UnytpedObject) && bool_decide (user_obj_size < seL4_MinUntypedBits)
  then fail_argument 1
  else mret EXCEPTION_NONE.
(** The status and, when it is [EXCEPTION_NONE], the capability. *)
(* src: kernel/src/syscall/invocation/decode/decode_untyped_invocation.rs 173-197 get_target_cnode *)
Definition get_target_cnode (node_index node_depth : Z) : ST kst (exception_t * list Z) :=
  root_cap ← extra_root 0;
  r ← (if node_depth =w 0 then mret (EXCEPTION_NONE, root_cap)
       else
         lu_ret ← lookup_slot_for_cnode_op false root_cap node_index node_depth;
         if bool_decide (lu_ret.1 <> EXCEPTION_NONE) then mret (lu_ret.1, root_cap)
         else c ← slot_cap lu_ret.2; mret (EXCEPTION_NONE, c));
  if bool_decide (r.1 <> EXCEPTION_NONE) then mret r
  else
    t ← lift (get_cap_type r.2);
    if negb (t =t CapCNodeCap) then st ← fail_missing 0 node_depth; mret (st, r.2)
    else mret (EXCEPTION_NONE, r.2).

(** The loop over the destination window. *)
(* src: kernel/src/syscall/invocation/decode/decode_untyped_invocation.rs 239-249 check_cnode_slot *)
Fixpoint check_window (n : nat) (dest_cnode i : Z) : ST kst exception_t :=
  match n with
  | O => mret EXCEPTION_NONE
  | S n =>
      s ← ref (get_offset_slot dest_cnode i);
      t ← slot_tag s;
      if negb (t =t CapNullCap) then fail_with seL4_DeleteFirst
      else check_window n dest_cnode (i + 1)
  end.
(* src: kernel/src/syscall/invocation/decode/decode_untyped_invocation.rs 200-252 check_cnode_slot *)
Definition check_cnode_slot (node_cap : list Z) (node_offset node_window : Z) : ST kst exception_t :=
  let node_size := wshl 1 (bf_get cnode_radix node_cap) in
  if bool_decide (node_offset > wsub node_size 1) then fail_range 0 (wsub node_size 1)
  else if bool_decide (node_window < 1) || bool_decide (node_window > CONFIG_RETYPE_FAN_OUT_LIMIT)
  then fail_range 1 CONFIG_RETYPE_FAN_OUT_LIMIT
  else if bool_decide (node_window > wsub node_size node_offset)
  then fail_range 1 (wsub node_size node_offset)
  else
    dest_cnode ← ref (bf_get cnode_ptr node_cap);
    check_window (Z.to_nat node_window) dest_cnode node_offset.

(** The memory checks and the retyping, once the arguments are known. *)
(* src: kernel/src/syscall/invocation/decode/decode_untyped_invocation.rs 93-147 decode_untyed_invocation *)
Definition untyped_checked (slot_ : Z) (c : list Z) (new_type : ObjectType)
    (user_obj_size obj_size : Z) (node_cap : list Z) (node_offset node_window : Z)
    : ST kst exception_t :=
  status ← on_slots (ensure_no_children slot_);
  r ← (if bool_decide (status <> EXCEPTION_NONE) then
         set_error seL4_RevokeFirst ;; mret (bf_get untyped_free_index c, false)
       else mret (0, true));
  let '(free_index, reset) := r in
  let free_ref := GET_FREE_REF (bf_get untyped_ptr c) free_index in
  let untyped_free_bytes :=
    wsub (BIT (bf_get untyped_block_size c)) (FREE_INDEX_TO_OFFSET free_index) in
  if bool_decide (wshr untyped_free_bytes obj_size < node_window) then
    set_error seL4_NotEnoughMemory ;; syscall_error (set_memoryLeft untyped_free_bytes) ;;
    mret EXCEPTION_SYSCALL_ERROR
  else
    let device_mem := bf_get frame_is_device c <>w 0 in
    if (device_mem && is_arch_type new_type && negb (bool_decide (new_type = UnytpedObject)))%bool
    then fail_argument 1
    else
      let aligned_free_ref := alignUp free_ref obj_size in
      current_restart ;;
      dest ← ref (bf_get cnode_ptr node_cap);
      invoke_untyped_retype slot_ reset aligned_free_ref new_type user_obj_size dest
        node_offset node_window (b2w device_mem).
(* src: kernel/src/syscall/invocation/decode/decode_untyped_invocation.rs 23-148 decode_untyed_invocation *)
Definition decode_untyed_invocation (inv_label : MessageLabel) (length slot_ : Z) (c : list Z)
    (buffer : Z) : ST kst exception_t :=
  if bool_decide (inv_label <> UntypedRetype) then fail_with seL4_IllegalOperation
  else
    none ← (if bool_decide (length < 6) then mret true else extra_cap_is_none 0);
    if none : bool then fail_with seL4_TruncatedMessage
    else
      w ← get_syscall_arg 0 buffer;
      match ObjectType_from_usize w with
      | None => fail_argument 0
      | Some new_type =>
          user_obj_size ← get_syscall_arg 1 buffer;
          node_index ← get_syscall_arg 2 buffer;
          node_depth ← get_syscall_arg 3 buffer;
          node_offset ← get_syscall_arg 4 buffer;
          node_window ← get_syscall_arg 5 buffer;
          obj_size ← lift (get_object_size new_type user_obj_size);
          if bool_decide (user_obj_size >= wordBits) || bool_decide (obj_size > seL4_MaxUntypedBits)
          then fail_range 0 seL4_MaxUntypedBits
          else
            try (check_object_type new_type user_obj_size) ;;;
            node ← get_target_cnode node_index node_depth;
            ok_or node.1
              (try (check_cnode_slot node.2 node_offset node_window) ;;;
               untyped_checked slot_ c new_type user_obj_size obj_size node.2 node_offset node_window)
      end.
