(* ===== verification/TcbInv.v ===== *)
(** * Invocations of a thread and of the domain capability

    [decode_tcb_invocation.rs], [invoke_tcb.rs] and
    [decode_domain_invocation.rs], in the single-core configuration.  [fuel]
    bounds the deletions of the capabilities a thread's slots held. *)

From stdpp Require Import base numbers gmap list.
From S2P Require Import Prelude Bitfield Common Cap DList CSpace Sched State Vspace Threads Delete Ipc Finalise Syscall CNodeInv.
Local Open Scope Z_scope.
Local Open Scope krn_scope.

Section tcb_invocations.
Context {D : CSpaceDeps}.

(** ** Registers *)
(** [while i < n && i < a && i < m] over a list of copies, from [i]; the
    number of rounds is known before the loop starts. *)
Definition copy_loop (i n : Z) (body : Z -> ST kst unit) : ST kst Z :=
  for_range (Z.to_nat (n - i)) i body ;; mret (Z.max i n).

(** The cancellation and suspension the three operations share. *)
Definition cancel_suspend (t : Z) : ST kst unit := cancel_ipc t ;; on_sst (suspend t).
Definition cancel_restart (t : Z) : ST kst unit := cancel_ipc t ;; restart t.
Definition resched_if_current (t : Z) : ST kst unit :=
  c ← on_sst (is_current t); when c (on_sst rescheduleRequired).

(* src: kernel/src/syscall/invocation/invoke_tcb.rs 13-68 invoke_tcb_read_registers *)
Definition invoke_tcb_read_registers (src suspend_source n : Z) (call : bool)
    : ST kst exception_t :=
  thread_ ← on_sst get_currenct_thread;
  when (suspend_source <>w 0) (cancel_suspend src) ;;
  when call
    (op_ipc_buffer ← lookup_mut_ipc_buffer thread_ true;
     reg_set thread_ RBadge 0 ;;
     i ← copy_loop 0 (Z.min n (Z.min frameRegNum msgRegisterNum)) (fun i =>
           v ← reg_get src (RFrame i); reg_set thread_ (RMsg i) v);
     j ← match op_ipc_buffer with
         | Some ipc_buffer =>
             copy_loop i (Z.min n frameRegNum) (fun i =>
               v ← reg_get src (RFrame i); set_buf_msg ipc_buffer i v)
         | None => mret i
         end;
     i ← copy_loop 0 (Z.min gpRegNum (Z.min n msgRegisterNum - frameRegNum)) (fun i =>
           v ← reg_get src (RGP i); reg_set thread_ (RMsg (i + frameRegNum)) v);
     i ← match op_ipc_buffer with
         | Some ipc_buffer =>
             copy_loop i (Z.min gpRegNum (n - frameRegNum)) (fun i =>
               v ← reg_get src (RGP i); set_buf_msg ipc_buffer (i + frameRegNum) v)
         | None => mret i
         end;
     reg_set thread_ RMsgInfo (message_info_to_word (message_info_new 0 0 0 (wadd i j)))) ;;
  set_state thread_ ThreadStateRunning ;;
  mret EXCEPTION_NONE.
(* src: kernel/src/syscall/invocation/invoke_tcb.rs 70-106 invoke_tcb_write_registers *)
Definition invoke_tcb_write_registers (dest resumeTarget n buffer : Z) : ST kst exception_t :=
  let n := Z.min n (frameRegNum + gpRegNum) in
  _ ← copy_loop 0 (Z.min frameRegNum n) (fun i =>
        v ← get_syscall_arg (i + 2) buffer; reg_set dest (RFrame i) v);
  _ ← copy_loop 0 (Z.min gpRegNum (n - frameRegNum)) (fun i =>
        v ← get_syscall_arg (i + frameRegNum + 2) buffer; reg_set dest (RGP i) v);
  ip ← reg_get dest RFaultIP;
  reg_set dest RNextIP ip ;;
  when (resumeTarget <>w 0) (cancel_restart dest) ;;
  resched_if_current dest ;;
  mret EXCEPTION_NONE.
(* src: kernel/src/syscall/invocation/invoke_tcb.rs 108-137 invoke_tcb_copy_registers *)
Definition invoke_tcb_copy_registers (dest src suspendSource resumeTarget transferFrame : Z)
    : ST kst exception_t :=
  when (suspendSource <>w 0) (cancel_suspend src) ;;
  when (resumeTarget <>w 0) (cancel_restart dest) ;;
  when (transferFrame <>w 0)
    (for_range (Z.to_nat gpRegNum) 0 (fun i => v ← reg_get src (RGP i); reg_set dest (RGP i) v)) ;;
  resched_if_current dest ;;
  mret EXCEPTION_NONE.

(** ** State, priorities, notifications *)
(* src: kernel/src/syscall/invocation/invoke_tcb.rs 140-145 invoke_tcb_suspend *)
Definition invoke_tcb_suspend (thread_ : Z) : ST kst exception_t :=
  cancel_suspend thread_ ;; mret EXCEPTION_NONE.
(* src: kernel/src/syscall/invocation/invoke_tcb.rs 148-153 invoke_tcb_resume *)
Definition invoke_tcb_resume (thread_ : Z) : ST kst exception_t :=
  cancel_restart thread_ ;; mret EXCEPTION_NONE.
(* src: kernel/src/syscall/invocation/invoke_tcb.rs 156-159 invoke_tcb_set_mcp *)
Definition invoke_tcb_set_mcp (target mcp : Z) : ST kst exception_t :=
  on_sst (set_mcp_priority target mcp) ;; mret EXCEPTION_NONE.
(* src: kernel/src/syscall/invocation/invoke_tcb.rs 162-165 invoke_tcb_set_priority *)
Definition invoke_tcb_set_priority (target prio : Z) : ST kst exception_t :=
  on_sst (set_priority target prio) ;; mret EXCEPTION_NONE.
(* src: kernel/src/syscall/invocation/invoke_tcb.rs 228-231 invoke_tcb_bind_notification *)
Definition invoke_tcb_bind_notification (tcb ntfn : Z) : ST kst exception_t :=
  do_bind_notification tcb ntfn ;; mret EXCEPTION_NONE.
(* src: kernel/src/syscall/invocation/invoke_tcb.rs 234-237 invoke_tcb_unbind_notification *)
Definition invoke_tcb_unbind_notification (tcb : Z) : ST kst exception_t :=
  safe_unbind_notification tcb ;; mret EXCEPTION_NONE.
(* src: kernel/src/syscall/invocation/invoke_tcb.rs 240-246 invoke_tcb_set_tls_base *)
Definition invoke_tcb_set_tls_base (thread_ base : Z) : ST kst exception_t :=
  reg_set thread_ TlsBase base ;; resched_if_current thread_ ;; mret EXCEPTION_NONE.

(** ** Capabilities of a thread *)
(** The capability goes to the thread's slot when the source still holds the
    object and the thread itself was not deleted meanwhile. *)
Definition insert_if_same (new_cap : list Z) (src_slot : Z) (target_cap : list Z)
    (slot_ dest : Z) : ST kst unit :=
  src_cap ← slot_cap src_slot;
  a ← lift (same_object_as new_cap src_cap);
  b ← (if a : bool then c ← slot_cap slot_; lift (same_object_as target_cap c) else mret false);
  when b (on_slots (cte_insert new_cap src_slot dest)).
(* src: kernel/src/syscall/invocation/invoke_tcb.rs 167-198 invoke_tcb_set_space *)
Definition invoke_tcb_set_space (fuel : nat) (target slot_ fault_ep : Z) (croot_new_cap : list Z)
    (croot_src_slot : Z) (vroot_new_cap : list Z) (vroot_src_slot : Z) : ST kst exception_t :=
  let target_cap := new_thread_cap target in
  thread_mod target (set_tcbFaultHandler fault_ep) ;;
  let root_slot := get_cspace_mut_ref target tcbCTable in
  try (delete_all fuel root_slot true) ;;;
  insert_if_same croot_new_cap croot_src_slot target_cap slot_ root_slot ;;
  let root_vslot := get_cspace_mut_ref target tcbVTable in
  try (delete_all fuel root_vslot true) ;;;
  insert_if_same vroot_new_cap vroot_src_slot target_cap slot_ root_vslot ;;
  mret EXCEPTION_NONE.
(* src: kernel/src/syscall/invocation/invoke_tcb.rs 200-225 invoke_tcb_set_ipc_buffer *)
Definition invoke_tcb_set_ipc_buffer (fuel : nat) (target slot_ buffer_addr : Z)
    (buffer_cap : list Z) (buffer_src_slot : option Z) : ST kst exception_t :=
  let target_cap := new_thread_cap target in
  let buffer_slot := get_cspace_mut_ref target tcbBuffer in
  try (delete_all fuel buffer_slot true) ;;;
  thread_mod target (set_tcbIPCBuffer buffer_addr) ;;
  match buffer_src_slot with
  | Some s => insert_if_same buffer_cap s target_cap slot_ buffer_slot
  | None => skip
  end ;;
  resched_if_current target ;;
  mret EXCEPTION_NONE.

(** ** Decoding *)
Definition tcb_of (c : list Z) : ST kst Z := ref (bf_get tcb_ptr c).

(* src: kernel/src/syscall/invocation/decode/decode_tcb_invocation.rs 121-158 decode_read_registers *)
Definition decode_read_registers (c : list Z) (length : Z) (call : bool) (buffer : Z)
    : ST kst exception_t :=
  if bool_decide (length < 2) then fail_with seL4_TruncatedMessage
  else
    flags ← get_syscall_arg 0 buffer;
    n ← get_syscall_arg 1 buffer;
    if bool_decide (n < 1) || bool_decide (n > frameRegNum + gpRegNum)
    then fail_range 1 (frameRegNum + gpRegNum)
    else
      thread_ ← tcb_of c;
      cur ← on_sst (is_current thread_);
      if cur : bool then fail_with seL4_IllegalOperation
      else
        current_restart ;;
        invoke_tcb_read_registers thread_ (flags &&& BIT 0) n call.
(* src: kernel/src/syscall/invocation/decode/decode_tcb_invocation.rs 160-193 decode_write_registers *)
Definition decode_write_registers (c : list Z) (length buffer : Z) : ST kst exception_t :=
  if bool_decide (length < 2) then fail_with seL4_TruncatedMessage
  else
    flags ← get_syscall_arg 0 buffer;
    w ← get_syscall_arg 1 buffer;
    if bool_decide (wsub length 2 < w) then fail_with seL4_TruncatedMessage
    else
      thread_ ← tcb_of c;
      cur ← on_sst (is_current thread_);
      if cur : bool then fail_with seL4_IllegalOperation
      else
        current_restart ;;
        invoke_tcb_write_registers thread_ (flags &&& BIT 0) w buffer.
(* src: kernel/src/syscall/invocation/decode/decode_tcb_invocation.rs 195-218 decode_copy_registers *)
Definition decode_copy_registers (c : list Z) (buffer : Z) : ST kst exception_t :=
  flags ← get_syscall_arg 0 buffer;
  source_cap ← extra_root 0;
  t ← lift (get_cap_type c);
  if negb (t =t CapThreadCap) then fail_with seL4_TruncatedMessage
  else
    src_tcb ← tcb_of source_cap;
    dest ← tcb_of c;
    invoke_tcb_copy_registers dest src_tcb (flags &&& BIT 0) (flags &&& BIT 1) (flags &&& BIT 2).

(** The new root, or the status of the failure. *)
(* src: kernel/src/syscall/invocation/decode/decode_tcb_invocation.rs 657-677 decode_set_space_args *)
Definition decode_set_space_args (root_data : Z) (root_cap : list Z) (root_slot : Z)
    : ST kst (exception_t * list Z) :=
  c ← lift (if root_data <>w 0 then update_data root_cap false root_data else Ok root_cap);
  dc_ret ← on_slots (derive_cap root_slot c);
  if bool_decide (dc_status dc_ret <> EXCEPTION_NONE) then
    set_error seL4_IllegalOperation ;; mret (dc_status dc_ret, dc_cap dc_ret)
  else mret (EXCEPTION_NONE, dc_cap dc_ret).
(** The checks [decode_tcb_configure] and [decode_set_space] share. *)
(* src: kernel/src/syscall/invocation/decode/decode_tcb_invocation.rs 502-541 decode_set_space *)
Definition decode_roots (target croot_data : Z) (croot_cap : list Z) (croot_slot vroot_data : Z)
    (vroot_cap : list Z) (vroot_slot : Z) (k : list Z -> list Z -> ST kst exception_t)
    : ST kst exception_t :=
  busy ← (b ← on_slots (is_long_running_delete (get_cspace target tcbCTable));
          if b : bool then mret true
          else on_slots (is_long_running_delete (get_cspace target tcbVTable)));
  if busy : bool then fail_with seL4_IllegalOperation
  else
    cr ← decode_set_space_args croot_data croot_cap croot_slot;
    ok_or cr.1
      (t ← lift (get_cap_type cr.2);
       if negb (t =t CapCNodeCap) then fail_with seL4_IllegalOperation
       else
         vr ← decode_set_space_args vroot_data vroot_cap vroot_slot;
         ok_or vr.1
           (v ← lift (is_valid_vtable_root vr.2);
            if negb v then fail_with seL4_IllegalOperation else k cr.2 vr.2)).

(** The buffer frame: status, source slot and capability. *)
(* src: kernel/src/syscall/invocation/decode/decode_tcb_invocation.rs 246-272 decode_tcb_configure *)
Definition derive_buffer (buffer_addr slot_ : Z) (c : list Z) : ST kst (exception_t * list Z) :=
  dc_ret ← on_slots (derive_cap slot_ c);
  if bool_decide (dc_status dc_ret <> EXCEPTION_NONE) then
    set_error seL4_IllegalOperation ;; mret (dc_status dc_ret, dc_cap dc_ret)
  else
    st ← check_ipc_buffer_vaild buffer_addr (dc_cap dc_ret);
    mret (st, dc_cap dc_ret).

(* src: kernel/src/syscall/invocation/decode/decode_tcb_invocation.rs 220-332 decode_tcb_configure *)
Definition decode_tcb_configure (fuel : nat) (target_thread_cap : list Z)
    (msg_length target_thread_slot buffer : Z) : ST kst exception_t :=
  n0 ← extra_cap_is_none 0;
  n1 ← extra_cap_is_none 1;
  n2 ← extra_cap_is_none 2;
  if (bool_decide (msg_length < 4) || n0 || n1 || n2)%bool then fail_with seL4_TruncatedMessage
  else
    fault_ep ← get_syscall_arg 0 buffer;
    croot_data ← get_syscall_arg 1 buffer;
    vroot_data ← get_syscall_arg 2 buffer;
    new_buffer_addr ← get_syscall_arg 3 buffer;
    croot_slot ← extra_cap_unwrap 0;
    croot_cap ← slot_cap croot_slot;
    vroot_slot ← extra_cap_unwrap 1;
    vroot_cap ← slot_cap vroot_slot;
    buffer_src ← extra_cap_unwrap 2;
    buffer_cap0 ← slot_cap buffer_src;
    bd ← (if new_buffer_addr =w 0 then mret (EXCEPTION_NONE, buffer_cap0)
          else derive_buffer new_buffer_addr buffer_src buffer_cap0);
    ok_or bd.1
      (target_thread ← tcb_of target_thread_cap;
       decode_roots target_thread croot_data croot_cap croot_slot vroot_data vroot_cap vroot_slot
         (fun croot_cap vroot_cap =>
            current_restart ;;
            try (invoke_tcb_set_space fuel target_thread target_thread_slot fault_ep croot_cap
                   croot_slot vroot_cap vroot_slot) ;;;
            invoke_tcb_set_ipc_buffer fuel target_thread target_thread_slot new_buffer_addr bd.2
              (if new_buffer_addr =w 0 then None else Some buffer_src))).
(* src: kernel/src/syscall/invocation/decode/decode_tcb_invocation.rs 484-556 decode_set_space *)
Definition decode_set_space (fuel : nat) (c : list Z) (length slot_ buffer : Z)
    : ST kst exception_t :=
  n0 ← extra_cap_is_none 0;
  n1 ← extra_cap_is_none 1;
  if (bool_decide (length < 3) || n0 || n1)%bool then fail_with seL4_TruncatedMessage
  else
    fault_ep ← get_syscall_arg 0 buffer;
    croot_data ← get_syscall_arg 1 buffer;
    vroot_data ← get_syscall_arg 2 buffer;
    croot_slot ← extra_cap_unwrap 0;
    croot_cap ← slot_cap croot_slot;
    vroot_slot ← extra_cap_unwrap 1;
    vroot_cap ← slot_cap vroot_slot;
    target_thread ← tcb_of c;
    decode_roots target_thread croot_data croot_cap croot_slot vroot_data vroot_cap vroot_slot
      (fun croot_cap vroot_cap =>
         current_restart ;;
         invoke_tcb_set_space fuel target_thread slot_ fault_ep croot_cap croot_slot vroot_cap vroot_slot).
(* src: kernel/src/syscall/invocation/decode/decode_tcb_invocation.rs 440-482 decode_set_ipc_buffer *)
Definition decode_set_ipc_buffer (fuel : nat) (c : list Z) (length slot_ buffer : Z)
    : ST kst exception_t :=
  n0 ← extra_cap_is_none 0;
  if (bool_decide (length < 1) || n0)%bool then fail_with seL4_TruncatedMessage
  else
    buffer_addr ← get_syscall_arg 0 buffer;
    r ← (if buffer_addr =w 0 then mret (None, (EXCEPTION_NONE, new_null_cap))
         else
           s ← extra_cap_unwrap 0;
           cap0 ← slot_cap s;
           bd ← derive_buffer buffer_addr s cap0;
           mret (Some s, bd));
    ok_or r.2.1
      (current_restart ;;
       target ← tcb_of c;
       invoke_tcb_set_ipc_buffer fuel target slot_ buffer_addr r.2.2 r.1).

(** The authority of a priority change: a thread capability. *)
Definition auth_thread : ST kst (exception_t * Z) :=
  auth_cap ← extra_root 0;
  t ← lift (get_cap_type auth_cap);
  if negb (t =t CapThreadCap) then st ← fail_cap 1; mret (st, 0)
  else a ← tcb_of auth_cap; mret (EXCEPTION_NONE, a).
(* src: kernel/src/syscall/invocation/decode/decode_tcb_invocation.rs 334-362 decode_set_priority *)
Definition decode_set_priority (c : list Z) (length buffer : Z) : ST kst exception_t :=
  n0 ← extra_cap_is_none 0;
  if (bool_decide (length < 1) || n0)%bool then fail_with seL4_TruncatedMessage
  else
    new_prio ← get_syscall_arg 0 buffer;
    auth ← auth_thread;
    ok_or auth.1
      (try (check_prio new_prio auth.2) ;;;
       current_restart ;;
       target ← tcb_of c;
       invoke_tcb_set_priority target new_prio).
(* src: kernel/src/syscall/invocation/decode/decode_tcb_invocation.rs 364-394 decode_set_mc_priority *)
Definition decode_set_mc_priority (c : list Z) (length buffer : Z) : ST kst exception_t :=
  n0 ← extra_cap_is_none 0;
  if (bool_decide (length < 1) || n0)%bool then fail_with seL4_TruncatedMessage
  else
    new_mcp ← get_syscall_arg 0 buffer;
    auth ← auth_thread;
    ok_or auth.1
      (try (check_prio new_mcp auth.2) ;;;
       current_restart ;;
       target ← tcb_of c;
       invoke_tcb_set_mcp target new_mcp).
(** The extra capability is refused when it is present and unwrapped when it
    is not. *)
(* src: kernel/src/syscall/invocation/decode/decode_tcb_invocation.rs 396-438 decode_set_sched_params *)
Definition decode_set_sched_params (c : list Z) (length buffer : Z) : ST kst exception_t :=
  n0 ← extra_cap_is_none 0;
  if (bool_decide (length < 2) || negb n0)%bool then fail_with seL4_TruncatedMessage
  else
    new_mcp ← get_syscall_arg 0 buffer;
    new_prio ← get_syscall_arg 1 buffer;
    auth ← auth_thread;
    ok_or auth.1
      (try (check_prio new_mcp auth.2) ;;;
       try (check_prio new_prio auth.2) ;;;
       current_restart ;;
       target ← tcb_of c;
       _ ← invoke_tcb_set_mcp target new_mcp;
       invoke_tcb_set_priority target new_prio).

(* src: kernel/src/syscall/invocation/decode/decode_tcb_invocation.rs 556-604 decode_bind_notification *)
Definition decode_bind_notification (c : list Z) : ST kst exception_t :=
  n0 ← extra_cap_is_none 0;
  if n0 : bool then fail_with seL4_TruncatedMessage
  else
    tcb ← tcb_of c;
    t ← thread tcb;
    if tcbBoundNotification t <>w 0 then fail_with seL4_IllegalOperation
    else
      ntfn_cap ← extra_root 0;
      ty ← lift (get_cap_type ntfn_cap);
      if negb (ty =t CapNotificationCap) then fail_with seL4_IllegalOperation
      else
        ntfn ← ref (bf_get nf_ptr ntfn_cap);
        if bf_get nf_can_receive ntfn_cap =w 0 then fail_with seL4_IllegalOperation
        else
          n ← ntfn_get ntfn;
          if (bf_get nt_queue_head n <>w 0) || (bf_get nt_queue_tail n <>w 0)
          then fail_with seL4_IllegalOperation
          else current_restart ;; invoke_tcb_bind_notification tcb ntfn.
(* src: kernel/src/syscall/invocation/decode/decode_tcb_invocation.rs 606-617 decode_unbind_notification *)
Definition decode_unbind_notification (c : list Z) : ST kst exception_t :=
  tcb ← tcb_of c;
  t ← thread tcb;
  if tcbBoundNotification t =w 0 then fail_with seL4_IllegalOperation
  else current_restart ;; invoke_tcb_unbind_notification tcb.
(* src: kernel/src/syscall/invocation/decode/decode_tcb_invocation.rs 644-655 decode_set_tls_base *)
Definition decode_set_tls_base (c : list Z) (length buffer : Z) : ST kst exception_t :=
  if bool_decide (length < 1) then fail_with seL4_TruncatedMessage
  else
    base ← get_syscall_arg 0 buffer;
    current_restart ;;
    t ← tcb_of c;
    invoke_tcb_set_tls_base t base.

(* src: kernel/src/syscall/invocation/decode/decode_tcb_invocation.rs 84-119 decode_tcb_invocation *)
Definition decode_tcb_invocation (fuel : nat) (invLabel : MessageLabel) (length : Z) (c : list Z)
    (slot_ : Z) (call : bool) (buffer : Z) : ST kst exception_t :=
  match invLabel with
  | TCBReadRegisters => decode_read_registers c length call buffer
  | TCBWriteRegisters => decode_write_registers c length buffer
  | TCBCopyRegisters => decode_copy_registers c buffer
  | TCBSuspend => current_restart ;; t ← tcb_of c; invoke_tcb_suspend t
  | TCBResume => current_restart ;; t ← tcb_of c; invoke_tcb_resume t
  | TCBConfigure => decode_tcb_configure fuel c length slot_ buffer
  | TCBSetPriority => decode_set_priority c length buffer
  | TCBSetMCPriority => decode_set_mc_priority c length buffer
  | TCBSetSchedParams => decode_set_sched_params c length buffer
  | TCBSetIPCBuffer => decode_set_ipc_buffer fuel c length slot_ buffer
  | TCBSetSpace => decode_set_space fuel c length slot_ buffer
  | TCBBindNotification => decode_bind_notification c
  | TCBUnbindNotification => decode_unbind_notification c
  | TCBSetTLSBase => decode_set_tls_base c length buffer
  | _ => fail_with seL4_IllegalOperation
  end.

(* src: kernel/src/syscall/invocation/decode/decode_domain_invocation.rs 18-65 decode_domain_invocation *)
Definition decode_domain_invocation (invLabel : MessageLabel) (length buffer : Z)
    : ST kst exception_t :=
  if bool_decide (invLabel <> DomainSetSet) then fail_with seL4_IllegalOperation
  else if length =w 0 then fail_with seL4_TruncatedMessage
  else
    dom ← get_syscall_arg 0 buffer;
    if bool_decide (dom >= 1) then fail_argument 0
    else
      n0 ← extra_cap_is_none 0;
      if n0 : bool then fail_with seL4_TruncatedMessage
      else
        thread_cap ← extra_root 0;
        t ← lift (get_cap_type thread_cap);
        if negb (t =t CapThreadCap) then fail_argument 1
        else
          current_restart ;;
          target ← tcb_of thread_cap;
          on_sst (set_domain target dom) ;;
          mret EXCEPTION_NONE.
End tcb_invocations.
