(* ===== verification/MmuInv.v ===== *)
(** * Invocations of address-space capabilities

    [decode/arch/aarch64.rs] and [invoke_mmu_op.rs]: page tables, frames, ASID
    pools and the flushes of an address space. *)

From stdpp Require Import base numbers gmap list.
From S2P Require Import Prelude Bitfield Common Cap DList CSpace Sched State Vspace Threads Delete Ipc Finalise Syscall CNodeInv UntypedInv.
Local Open Scope Z_scope.
Local Open Scope krn_scope.

(* src: kernel/src/config.rs 97-98 USER_TOP *)
Definition USER_TOP : Z := 0x00007fffffffffff.

(** Setters of the capability in a slot. *)
Definition slot_cap_set (s : Z) (f : bitfield) (v : Z) : ST kst unit :=
  slot_mod s (fun x => set_cap (bf_set f v (cte_cap x)) x).
(** [current_extra_caps.excaprefs[i] == 0] *)
Definition excap_null (i : Z) : ST kst bool :=
  a ← sys_get excaprefs; p ← lift (idx a i); mret (p =w 0).
Definition excap (i : Z) : ST kst Z := a ← sys_get excaprefs; p ← lift (idx a i); ref p.

(** ** Operations *)
(* src: kernel/src/syscall/invocation/invoke_mmu_op.rs 35-43 invoke_page_table_unmap *)
Definition invoke_page_table_unmap (pt_slot : Z) : ST kst exception_t :=
  c ← slot_cap pt_slot;
  when (bf_get pt_is_mapped c <>w 0)
    (pt ← ref (bf_get pt_base_ptr c);
     unmap_page_table (bf_get pt_mapped_asid c) (bf_get pt_mapped_address c) pt ;;
     clear_memory pt seL4_PageTableBits) ;;
  slot_cap_set pt_slot pt_is_mapped 0 ;;
  mret EXCEPTION_NONE.
(* src: kernel/src/syscall/invocation/invoke_mmu_op.rs 84-96 invoke_page_get_address *)
Definition invoke_page_get_address (vbase_ptr : Z) (call : bool) : ST kst exception_t :=
  thread_ ← on_sst get_currenct_thread;
  when call
    (reg_set thread_ RBadge 0 ;;
     length ← set_mr thread_ 0 vbase_ptr;
     reg_set thread_ RMsgInfo (message_info_to_word (message_info_new 0 0 0 length))) ;;
  Ipc.set_state thread_ ThreadStateRestart ;;
  mret EXCEPTION_NONE.
(* src: kernel/src/syscall/invocation/invoke_mmu_op.rs 98-116 invoke_page_unmap *)
Definition invoke_page_unmap (frame_slot : Z) : ST kst exception_t :=
  c ← slot_cap frame_slot;
  when (bf_get pt_mapped_asid c <>w asidInvalid)
    (unmapPage (bf_get frame_size c) (bf_get frame_mapped_asid c) (bf_get frame_mapped_address c)
       (bf_get frame_base_ptr c)) ;;
  slot_cap_set frame_slot frame_mapped_address 0 ;;
  slot_cap_set frame_slot frame_mapped_asid asidInvalid ;;
  mret EXCEPTION_NONE.
(* src: kernel/src/syscall/invocation/invoke_mmu_op.rs 144-164 invoke_page_map *)
Definition invoke_page_map (asid : Z) (c : list Z) (pte pt_slot : Z) : ST kst exception_t :=
  old ← word_get pt_slot;
  let tlbflush_required := pte_get_type old <>w pte_invalid in
  pte_update pt_slot pte ;;
  clean_by_va_pou pt_slot (pptr_to_paddr pt_slot) ;;
  when tlbflush_required
    (assert_m (bool_decide (asid < BIT 16)) ;;
     invalidate_tlb_by_asid_va asid (bf_get frame_mapped_address c)) ;;
  mret EXCEPTION_NONE.
(* src: kernel/src/arch/aarch64/pg.rs 67-76 set_vm_root_for_flush *)
Definition set_vm_root_for_flush (vspace asid : Z) : ST kst bool :=
  cur ← on_sst get_currenct_thread;
  thread_root ← cspace_cap cur tcbVTable;
  v ← lift (is_valid_native_root thread_root);
  if (v && (bf_get vs_base_ptr thread_root =w vspace))%bool then mret false
  else setCurrentUserVSpaceRoot (ttbr_new asid vspace) ;; mret true.
(** A flush of a range, in the address space it belongs to. *)
(* src: kernel/src/syscall/invocation/decode/arch/aarch64.rs 817-833 decode_vspace_flush_invocation *)
Definition decode_vspace_flush_invocation (label : MessageLabel) (vspace asid start end_ pstart : Z)
    : ST kst exception_t :=
  when (bool_decide (start < end_))
    (root_switched ← set_vm_root_for_flush vspace asid;
     doFlush label start end_ pstart ;;
     when root_switched (cur ← on_sst get_currenct_thread; tcb_set_vm_root cur)) ;;
  mret EXCEPTION_NONE.

(** ** Page tables *)
(* src: kernel/src/syscall/invocation/decode/arch/aarch64.rs 682-693 decode_page_table_unmap *)
Definition decode_page_table_unmap (pt_cte : Z) : ST kst exception_t :=
  f ← on_slots (is_final_cap pt_cte);
  if negb f then fail_with seL4_RevokeFirst
  else current_restart ;; invoke_page_table_unmap pt_cte.

(** The address space of a capability: its root and its ASID, checked against
    the ASID map. *)
(* src: kernel/src/syscall/invocation/decode/arch/aarch64.rs 112-142 decode_page_table_invocation *)
Definition with_vspace (vspace_root_cap : list Z) (check : ST kst exception_t)
    (k : Z -> Z -> ST kst exception_t) : ST kst exception_t :=
  v ← lift (is_valid_native_root vspace_root_cap);
  if negb v then fail_cap 1
  else
    let vspace_root := bf_get vs_base_ptr vspace_root_cap in
    let asid := bf_get vs_mapped_asid vspace_root_cap in
    try check ;;;
    find_ret ← find_vspace_for_asid asid;
    if bool_decide (fv_status find_ret <> EXCEPTION_NONE) then fail_lookup 0
    else
      root ← lift (or_panic (fv_vspace_root find_ret));
      if root <>w vspace_root then fail_cap 1 else k vspace_root asid.

(* src: kernel/src/syscall/invocation/decode/arch/aarch64.rs 66-163 decode_page_table_invocation *)
Definition decode_page_table_invocation (label : MessageLabel) (length cte buffer : Z)
    : ST kst exception_t :=
  if bool_decide (label = ARMPageTableUnmap) then
    f ← on_slots (is_final_cap cte);
    if negb f then fail_with seL4_RevokeFirst
    else current_restart ;; decode_page_table_unmap cte
  else if bool_decide (label <> ARMPageTableMap) then fail_with seL4_IllegalOperation
  else
    n ← (if bool_decide (length < 2) then mret true else excap_null 0);
    if n : bool then fail_with seL4_TruncatedMessage
    else
      c ← slot_cap cte;
      if bf_get pt_is_mapped c =w 1 then
        set_error seL4_InvalidCapability ;; syscall_error (set_invalidArgumentNumber 0) ;;
        mret EXCEPTION_SYSCALL_ERROR
      else
        vaddr ← get_syscall_arg 0 buffer;
        s ← excap 0;
        vspace_root_cap ← slot_cap s;
        with_vspace vspace_root_cap
          (if bool_decide (vaddr > USER_TOP) then fail_argument 0 else mret EXCEPTION_NONE)
          (fun vspace_root asid =>
             pd_slot ← lookup_pt_slot vspace_root vaddr;
             full ← (if ptBitsLeft pd_slot =w seL4_PageBits then mret true
                     else e ← word_get (ptSlot pd_slot); mret (pte_get_type e <>w pte_invalid));
             if full : bool then fail_with seL4_DeleteFirst
             else
               let pte := pte_new_table (pptr_to_paddr (bf_get pt_base_ptr c)) in
               slot_cap_set cte pt_is_mapped 1 ;;
               slot_cap_set cte pt_mapped_asid asid ;;
               slot_cap_set cte pt_mapped_address (vaddr &&& wnot (MASK (ptBitsLeft pd_slot))) ;;
               current_restart ;;
               p ← ptr_to_mut (ptSlot pd_slot);
               word_set p pte ;;
               clean_by_va_pou p (pptr_to_paddr p) ;;
               mret EXCEPTION_NONE).

(** ** Frames *)
(* src: kernel/src/syscall/invocation/decode/arch/aarch64.rs 165-228 decode_page_clean_invocation *)
Definition decode_page_clean_invocation (label : MessageLabel) (length cte buffer : Z)
    : ST kst exception_t :=
  if bool_decide (length < 2) then fail_with seL4_TruncatedMessage
  else
    c ← slot_cap cte;
    if bf_get frame_mapped_asid c =w 0 then fail_with seL4_IllegalOperation
    else
      let asid := bf_get frame_mapped_asid c in
      find_ret ← find_vspace_for_asid asid;
      if bool_decide (fv_status find_ret <> EXCEPTION_NONE) then fail_lookup 0
      else
        start ← get_syscall_arg 0 buffer;
        end_ ← get_syscall_arg 1 buffer;
        if bool_decide (end_ <= start) then fail_argument 1
        else
          bits ← lift (pageBitsForSize (bf_get frame_size c));
          let page_size := BIT bits in
          if bool_decide (start >= page_size) || bool_decide (end_ > page_size) then fail_argument 0
          else
            let pstart := pptr_to_paddr (wadd (bf_get frame_base_ptr c) start) in
            current_restart ;;
            root ← lift (or_panic (fv_vspace_root find_ret));
            decode_vspace_flush_invocation label root asid start end_ pstart.

(** The checks on the address of a mapping. *)
(* src: kernel/src/syscall/invocation/decode/arch/aarch64.rs 456-484 decode_frame_map *)
Definition check_frame_vaddr (c : list Z) (asid vaddr page_bits : Z) : ST kst exception_t :=
  if negb (IS_ALIGNED vaddr page_bits) then fail_with seL4_AlignmentError
  else
    let frame_asid := bf_get frame_mapped_asid c in
    if frame_asid <>w asidInvalid then
      if frame_asid <>w asid then
        set_error seL4_InvalidCapability ;; syscall_error (set_invalidArgumentNumber 0) ;;
        mret EXCEPTION_SYSCALL_ERROR
      else if bf_get frame_mapped_address c <>w vaddr then fail_argument 2
      else mret EXCEPTION_NONE
    else if bool_decide (wsub (wadd vaddr (BIT page_bits)) 1 > USER_TOP) then fail_argument 0
    else mret EXCEPTION_NONE.
(* src: kernel/src/syscall/invocation/decode/arch/aarch64.rs 420-509 decode_frame_map *)
Definition decode_frame_map (length frame_slot buffer : Z) : ST kst exception_t :=
  n ← (if bool_decide (length < 3) then mret true else extra_cap_is_none 0);
  if n : bool then fail_with seL4_TruncatedMessage
  else
    vaddr ← get_syscall_arg 0 buffer;
    attr ← get_syscall_arg 2 buffer;
    vspace_root_cap ← extra_root 0;
    c ← slot_cap frame_slot;
    let size := bf_get frame_size c in
    frame_vm_rights ← lift (vm_rights_from_word (bf_get Cap.frame_vm_rights c));
    w ← get_syscall_arg 1 buffer;
    let vm_rights := maskVMRights frame_vm_rights (rights_from_word w) in
    with_vspace vspace_root_cap (mret EXCEPTION_NONE) (fun vspace_root asid =>
      bits ← lift (pageBitsForSize size);
      try (check_frame_vaddr c asid vaddr bits) ;;;
      let base := pptr_to_paddr (bf_get frame_base_ptr c) in
      lu_ret ← lookup_pt_slot vspace_root vaddr;
      if ptBitsLeft lu_ret <>w bits then fail_missing 0 (ptBitsLeft lu_ret)
      else
        pt_slot ← ref (ptSlot lu_ret);
        current_restart ;;
        slot_cap_set frame_slot frame_mapped_asid asid ;;
        slot_cap_set frame_slot frame_mapped_address vaddr ;;
        c ← slot_cap frame_slot;
        invoke_page_map asid c (make_user_pte base vm_rights attr size) pt_slot).
(* src: kernel/src/syscall/invocation/decode/arch/aarch64.rs 251-282 decode_frame_invocation *)
Definition decode_frame_invocation (label : MessageLabel) (length frame_slot : Z) (call : bool)
    (buffer : Z) : ST kst exception_t :=
  match label with
  | ARMPageMap => decode_frame_map length frame_slot buffer
  | ARMPageUnmap => current_restart ;; invoke_page_unmap frame_slot
  | ARMPageClean_Data | ARMPageInvalidate_Data | ARMPageCleanInvalidate_Data
  | ARMPageUnify_Instruction => decode_page_clean_invocation label length frame_slot buffer
  | ARMPageGetAddress =>
      current_restart ;;
      c ← slot_cap frame_slot;
      invoke_page_get_address (bf_get frame_base_ptr c) call
  | _ => fail_with seL4_IllegalOperation
  end.

(** ** ASIDs *)
(** The first index in [[i, i + n)] whose entry is free. *)
(* src: kernel/src/syscall/invocation/decode/arch/aarch64.rs 305-311 decode_asid_control *)
Fixpoint first_free_pool (n : nat) (i : Z) : ST kst Z :=
  match n with
  | O => mret i
  | S n =>
      p ← get_asid_pool_by_index i;
      if p <>w 0 then first_free_pool n (i + 1) else mret i
  end.
(* src: kernel/src/syscall/invocation/decode/arch/aarch64.rs 284-355 decode_asid_control *)
Definition decode_asid_control (label : MessageLabel) (length buffer : Z) : ST kst exception_t :=
  if bool_decide (label <> ARMASIDControlMakePool) then fail_with seL4_IllegalOperation
  else
    n ← (if bool_decide (length < 2) then mret true
         else n0 ← excap_null 0; if n0 : bool then mret true else excap_null 1);
    if n : bool then fail_with seL4_TruncatedMessage
    else
      index ← get_syscall_arg 0 buffer;
      depth ← get_syscall_arg 1 buffer;
      parent_slot ← excap 0;
      untyped ← slot_cap parent_slot;
      rs ← excap 1;
      root ← slot_cap rs;
      i ← first_free_pool (Z.to_nat nASIDPools) 0;
      if i =w nASIDPools then fail_with seL4_DeleteFirst
      else
        let base := wshl i asidLowBits in
        t ← lift (get_cap_type untyped);
        if negb (t =t CapUntypedCap) || (bf_get untyped_block_size untyped <>w seL4_ASIDPoolBits)
           || (bf_get untyped_is_device untyped =w 1) then fail_cap 0
        else
          try (on_slots (ensure_no_children parent_slot)) ;;;
          frame ← lift (get_cap_ptr untyped);
          lu_ret ← lookup_slot_for_cnode_op false root index depth;
          ok_or lu_ret.1
            (dest_slot ← ptr_to_mut lu_ret.2;
             try (ensure_empty_slot dest_slot) ;;;
             current_restart ;;
             slot_mod parent_slot (fun x => set_cap (bf_set untyped_free_index
               (MAX_FREE_INDEX (bf_get untyped_block_size (cte_cap x))) (cte_cap x)) x) ;;
             fill_zero frame (BIT seL4_ASIDPoolBits) ;;
             on_slots (cte_insert (new_asid_pool_cap base frame) parent_slot dest_slot) ;;
             assert_m (base &&& MASK asidLowBits =w 0) ;;
             ws ← take_words (Z.to_nat (BIT asidLowBits)) frame;
             vm_mod (fun m => set_asid_pools (<[frame := ws]> (asid_pools m)) m) ;;
             set_asid_pool_by_index (wshr base asidLowBits) frame ;;
             mret EXCEPTION_NONE).

(** The first free entry of a pool; ASID 0 is never handed out. *)
(* src: kernel/src/syscall/invocation/decode/arch/aarch64.rs 396-401 decode_asid_pool *)
Fixpoint first_free_asid (n : nat) (asid : Z) (pool : list Z) (i : Z) : ST kst Z :=
  match n with
  | O => mret i
  | S n =>
      used ← (if wadd asid i =w 0 then mret true
              else w ← lift (idx pool i); mret (w <>w 0));
      if used : bool then first_free_asid n asid pool (i + 1) else mret i
  end.
(* src: kernel/src/syscall/invocation/decode/arch/aarch64.rs 357-418 decode_asid_pool *)
Definition decode_asid_pool (label : MessageLabel) (cte : Z) : ST kst exception_t :=
  if bool_decide (label <> ARMASIDPoolAssign) then fail_with seL4_IllegalOperation
  else
    n ← excap_null 0;
    if n : bool then fail_with seL4_TruncatedMessage
    else
      vspace_cap_slot ← excap 0;
      vspace_cap ← slot_cap vspace_cap_slot;
      v ← lift (is_vtable_root vspace_cap);
      if negb v || (bf_get vs_is_mapped vspace_cap =w 1) then
        set_error seL4_InvalidCapability ;; syscall_error (set_invalidArgumentNumber 1) ;;
        mret EXCEPTION_SYSCALL_ERROR
      else
        c ← slot_cap cte;
        pool ← get_asid_pool_by_index (wshr (bf_get asid_base c) asidLowBits);
        if pool =w 0 then
          st ← fail_lookup 0;
          sys_mod (set_lookup_fault lookup_fault_new_root_invalid) ;; mret st
        else if pool <>w bf_get asid_pool c then fail_cap 0
        else
          let asid := bf_get asid_base c in
          p ← ref pool;
          ws ← pool_get p;
          i ← first_free_asid (Z.to_nat (BIT asidLowBits)) asid ws 0;
          if i =w BIT asidLowBits then fail_with seL4_DeleteFirst
          else
            let asid := wadd asid i in
            current_restart ;;
            slot_cap_set vspace_cap_slot vs_mapped_asid asid ;;
            slot_cap_set vspace_cap_slot vs_is_mapped 1 ;;
            vspace_cap ← slot_cap vspace_cap_slot;
            pool_set p (asid &&& MASK asidLowBits)
              (asid_map_new_vspace (bf_get vs_base_ptr vspace_cap)) ;;
            mret EXCEPTION_NONE.

(** ** Flushing an address space *)
(** The lookup starts from the first entry of the root table, not from the
    table: [lookup_pt_slot] is called on the entry [vspace_root] points to. *)
(* src: kernel/src/syscall/invocation/decode/arch/aarch64.rs 729-808 decode_vspace_root_invocation *)
Definition decode_vspace_flush (label : MessageLabel) (length cte buffer : Z) : ST kst exception_t :=
  if bool_decide (length < 2) then fail_with seL4_TruncatedMessage
  else
    start ← get_syscall_arg 0 buffer;
    end_ ← get_syscall_arg 1 buffer;
    if bool_decide (end_ <= start) then fail_argument 1
    else if bool_decide (end_ > USER_TOP) then fail_with seL4_IllegalOperation
    else
      c ← slot_cap cte;
      v ← lift (is_valid_native_root c);
      if negb v then fail_cap 0
      else
        let vspace_root := bf_get vs_base_ptr c in
        let asid := bf_get asid_base c in
        find_ret ← find_vspace_for_asid asid;
        if bool_decide (fv_status find_ret <> EXCEPTION_NONE) then fail_lookup 0
        else
          root ← lift (or_panic (fv_vspace_root find_ret));
          if root <>w vspace_root then fail_cap 0
          else
            p ← ptr_to_mut vspace_root;
            entry ← word_get p;
            resolve_ret ← lookup_pt_slot entry start;
            pte ← word_get (ptSlot resolve_ret);
            if pte_get_type pte <>w pte_page then current_restart ;; mret EXCEPTION_NONE
            else
              bits ← lift (pageBitsForSize (ptBitsLeft resolve_ret));
              let page_base_start := start &&& wnot (MASK bits) in
              let page_base_end := wsub end_ 1 &&& wnot (MASK bits) in
              if page_base_start <>w page_base_end then
                fail_range start (wadd page_base_start (MASK bits))
              else
                let pstart := wadd (get_page_base_address pte) start &&& MASK bits in
                current_restart ;;
                decode_vspace_flush_invocation label root asid start end_ pstart.
(* src: kernel/src/syscall/invocation/decode/arch/aarch64.rs 722-815 decode_vspace_root_invocation *)
Definition decode_vspace_root_invocation (label : MessageLabel) (length cte buffer : Z)
    : ST kst exception_t :=
  match label with
  | ARMVSpaceClean_Data | ARMVSpaceInvalidate_Data | ARMVSpaceCleanInvalidate_Data
  | ARMVSpaceUnify_Instruction => decode_vspace_flush label length cte buffer
  | _ => fail_with seL4_IllegalOperation
  end.

(* src: kernel/src/syscall/invocation/decode/arch/aarch64.rs 47-64 decode_mmu_invocation *)
Definition decode_mmu_invocation (label : MessageLabel) (length slot_ : Z) (call : bool)
    (buffer : Z) : ST kst exception_t :=
  t ← slot_tag slot_;
  match t with
  | CapVspaceCap => decode_vspace_root_invocation label length slot_ buffer
  | CapPageTableCap => decode_page_table_invocation label length slot_ buffer
  | CapFrameCap => decode_frame_invocation label length slot_ call buffer
  | CapASIDControlCap => decode_asid_control label length buffer
  | CapASIDPoolCap => decode_asid_pool label slot_
  | _ => panic
  end.
