(* ===== verification/IrqInv.v ===== *)
(** * Interrupts

    Invocations of the interrupt capabilities ([decode_irq_invocation.rs],
    [invoke_irq.rs], the aarch64 part of [decode/arch/aarch64.rs]) and the
    handling of an interrupt ([interrupt/handler.rs], [interrupt/mod.rs]).
    What the machine answers is the class [Hardware]. *)

From stdpp Require Import base numbers gmap list.
From S2P Require Import Prelude Bitfield Common Cap DList CSpace Sched State Vspace Threads Delete Ipc Finalise Syscall CNodeInv.
Local Open Scope Z_scope.
Local Open Scope krn_scope.

(** Reads of device and system registers: the acknowledge register of the
    interrupt controller, the fault address and the fault syndrome. *)
Class Hardware := {
  gic_int_ack : ST kst Z;
  get_far : ST kst Z;
  get_esr : ST kst Z }.

(* src: kernel/src/arch/aarch64/arm_gic/gic_v2/consts.rs 7-7 IRQ_MASK *)
Definition IRQ_MASK : Z := 1023.
Definition set_active_irq (v : Z) (i : irq_t) : irq_t := Irq (intStateIRQTable i) (intStateIRQNode i) v.
(* src: kernel/src/interrupt/mod.rs 246-248 IS_IRQ_VALID *)
Definition IS_IRQ_VALID (x : Z) : bool := bool_decide (x <= maxIRQ) && (x <>w irqInvalid).
(* src: kernel/src/interrupt/mod.rs 146-167 ackInterrupt *)
Definition ackInterrupt (irq : Z) : ST kst unit :=
  irq_mod (set_active_irq irqInvalid) ;;
  when (irq =w KERNEL_TIMER_IRQ) (hw (IrqAck irq) ;; irq_mod (set_active_irq 0)).

Section irq_invocations.
Context {D : CSpaceDeps}.

(* src: kernel/src/syscall/invocation/invoke_irq.rs 6-14 invoke_irq_control *)
Definition invoke_irq_control (irq handler_slot control_slot : Z) : ST kst exception_t :=
  set_irq_state IRQSignal irq ;;
  on_slots (cte_insert (new_irq_handler_cap irq) control_slot handler_slot) ;;
  mret EXCEPTION_NONE.
(* src: kernel/src/syscall/invocation/invoke_irq.rs 16-21 invoke_set_irq_handler *)
Definition invoke_set_irq_handler (irq : Z) (c : list Z) (slot_ : Z) : ST kst unit :=
  irq_slot ← get_irq_handler_slot irq;
  delete_one irq_slot ;;
  on_slots (cte_insert c slot_ irq_slot).
(* src: kernel/src/syscall/invocation/invoke_irq.rs 23-26 invoke_clear_irq_handler *)
Definition invoke_clear_irq_handler (irq : Z) : ST kst unit :=
  irq_slot ← get_irq_handler_slot irq; delete_one irq_slot.

(* src: kernel/src/syscall/invocation/decode/arch/aarch64.rs 1036-1050 check_irq *)
Definition check_irq (irq : Z) : ST kst exception_t :=
  if bool_decide (irq > maxIRQ) then fail_range 0 maxIRQ else mret EXCEPTION_NONE.

(** The checks and the lookup the two requests for a handler share. *)
Definition issue_handler (irq index depth : Z) (k : Z -> ST kst exception_t) : ST kst exception_t :=
  cnode_cap ← extra_root 0;
  try (check_irq irq) ;;;
  active ← is_irq_active irq;
  if active : bool then fail_with seL4_RevokeFirst
  else
    lu_ret ← lookupSlotForCNodeOp false cnode_cap index depth;
    ok_or lu_ret.1 (dest_slot ← ref lu_ret.2; k dest_slot).
(* src: kernel/src/syscall/invocation/decode/arch/aarch64.rs 1052-1098 arch_decode_irq_control_invocation *)
Definition arch_decode_irq_control_invocation (label : MessageLabel) (length src_slot buffer : Z)
    : ST kst exception_t :=
  if bool_decide (label = ARMIRQIssueIRQHandlerTrigger) then
    none ← (if bool_decide (length < 4) then mret true else extra_cap_is_none 0);
    if none : bool then fail_with seL4_TruncatedMessage
    else
      irq ← get_syscall_arg 0 buffer;
      _ ← get_syscall_arg 1 buffer;
      index ← get_syscall_arg 2 buffer;
      depth ← get_syscall_arg 3 buffer;
      issue_handler irq index depth (fun dest_slot =>
        current_restart ;; invoke_irq_control irq dest_slot src_slot)
  else fail_with seL4_IllegalOperation.
(* src: kernel/src/syscall/invocation/decode/decode_irq_invocation.rs 19-70 decode_irq_control_invocation *)
Definition decode_irq_control_invocation (label : MessageLabel) (length src_slot buffer : Z)
    : ST kst exception_t :=
  if bool_decide (label = IRQIssueIRQHandler) then
    none ← (if bool_decide (length < 3) then mret true else extra_cap_is_none 0);
    if none : bool then fail_with seL4_TruncatedMessage
    else
      irq ← get_syscall_arg 0 buffer;
      index ← get_syscall_arg 1 buffer;
      depth ← get_syscall_arg 2 buffer;
      issue_handler irq index depth (fun dest_slot =>
        t ← slot_tag dest_slot;
        if negb (t =t CapNullCap) then fail_with seL4_DeleteFirst
        else current_restart ;; invoke_irq_control irq dest_slot src_slot)
  else arch_decode_irq_control_invocation label length src_slot buffer.
(* src: kernel/src/syscall/invocation/decode/decode_irq_invocation.rs 72-114 decode_irq_handler_invocation *)
Definition decode_irq_handler_invocation (label : MessageLabel) (irq : Z) : ST kst exception_t :=
  match label with
  | IRQAckIRQ => current_restart ;; mret EXCEPTION_NONE
  | IRQSetIRQHandler =>
      none ← extra_cap_is_none 0;
      if none : bool then fail_with seL4_TruncatedMessage
      else
        s ← extra_cap_unwrap 0;
        ntfn_cap ← slot_cap s;
        t ← lift (get_cap_type ntfn_cap);
        if negb (t =t CapNotificationCap) || (bf_get nf_can_send ntfn_cap =w 0) then fail_cap 0
        else
          current_restart ;;
          invoke_set_irq_handler irq ntfn_cap s ;;
          mret EXCEPTION_NONE
  | IRQClearIRQHandler =>
      current_restart ;; invoke_clear_irq_handler irq ;; mret EXCEPTION_NONE
  | _ => fail_with seL4_IllegalOperation
  end.

(** ** Handling an interrupt *)
(* src: kernel/src/interrupt/handler.rs 24-65 handleInterrupt *)
Definition handleInterrupt (irq : Z) : ST kst unit :=
  if bool_decide (irq > maxIRQ) then mask_interrupt true irq ;; ackInterrupt irq
  else
    st ← get_irq_state irq;
    match st with
    | IRQInactive => mask_interrupt true irq
    | IRQSignal =>
        handler_slot ← get_irq_handler_slot irq;
        handler_cap ← slot_cap handler_slot;
        t ← lift (get_cap_type handler_cap);
        when ((t =t CapNotificationCap) && (bf_get nf_can_send handler_cap <>w 0))
          (nf ← ref (bf_get nf_ptr handler_cap);
           send_signal nf (bf_get nf_badge handler_cap))
    | IRQTimer => on_sst timerTick ;; hw ResetTimer
    | IRQReserved => skip
    end ;;
    ackInterrupt irq.

Context {H : Hardware}.
(* src: kernel/src/interrupt/mod.rs 220-244 getActiveIRQ *)
Definition getActiveIRQ : ST kst Z :=
  a ← irq_get active_irq;
  when (negb (IS_IRQ_VALID a)) (v ← gic_int_ack; irq_mod (set_active_irq v)) ;;
  a ← irq_get active_irq;
  mret (if IS_IRQ_VALID a then a &&& IRQ_MASK else irqInvalid).
(* src: kernel/src/interrupt/handler.rs 10-22 handleInterruptEntry *)
Definition handleInterruptEntry : ST kst exception_t :=
  irq ← getActiveIRQ;
  when (irq <>w irqInvalid) (handleInterrupt irq) ;;
  schedule ;;
  on_sst activateThread ;;
  mret EXCEPTION_NONE.
End irq_invocations.
