(* ===== verification/Kernel.v ===== *)
(** * The entry points of the kernel

    The dispatch on the invoked capability ([decode/mod.rs]), the invocation
    system calls ([invocation/mod.rs]), [handleSyscall] and the fault entry
    points ([arch/aarch64/exception.rs]).  [fuel] bounds the deletions of one
    invocation. *)

From stdpp Require Import base numbers gmap list.
From S2P Require Import Prelude Bitfield Common Cap DList CSpace Sched State Vspace Threads Delete Ipc Finalise Syscall CNodeInv UntypedInv TcbInv MmuInv IrqInv.
Local Open Scope Z_scope.
Local Open Scope krn_scope.

(** System call numbers, as [isize]. *)
(* src: kernel/src/syscall/mod.rs 12-12 SysCall *)
Definition SysCall : Z := -1.
(* src: kernel/src/syscall/mod.rs 13-13 SysReplyRecv *)
Definition SysReplyRecv : Z := -2.
(* src: kernel/src/syscall/mod.rs 14-14 SysSend *)
Definition SysSend : Z := -3.
(* src: kernel/src/syscall/mod.rs 15-15 SysNBSend *)
Definition SysNBSend : Z := -4.
(* src: kernel/src/syscall/mod.rs 16-16 SysRecv *)
Definition SysRecv : Z := -5.
(* src: kernel/src/syscall/mod.rs 17-17 SysReply *)
Definition SysReply : Z := -6.
(* src: kernel/src/syscall/mod.rs 18-18 SysYield *)
Definition SysYield : Z := -7.
(* src: kernel/src/syscall/mod.rs 19-19 SysNBRecv *)
Definition SysNBRecv : Z := -8.

Section kernel_entry.
Context {D : CSpaceDeps}.

(* src: kernel/src/syscall/invocation/decode/mod.rs 33-124 decode_invocation *)
Definition decode_invocation (fuel : nat) (label : MessageLabel) (length slot_ : Z) (c : list Z)
    (block call : bool) (buffer : Z) : ST kst exception_t :=
  t ← lift (get_cap_type c);
  match t with
  | CapNullCap | CapZombieCap => fail_cap 0
  | CapEndpointCap =>
      if bf_get ep_can_send c =w 0 then fail_cap 0
      else
        current_restart ;;
        ep ← ref (bf_get ep_ptr c);
        cur ← on_sst get_currenct_thread;
        send_ipc ep cur block call (bf_get ep_can_grant c <>w 0) (bf_get ep_badge c)
          (bf_get ep_can_grant_reply c <>w 0) ;;
        mret EXCEPTION_NONE
  | CapNotificationCap =>
      if bf_get nf_can_send c =w 0 then fail_cap 0
      else
        current_restart ;;
        n ← ref (bf_get nf_ptr c);
        send_signal n (bf_get nf_badge c) ;;
        mret EXCEPTION_NONE
  | CapReplyCap =>
      if bf_get reply_master c <>w 0 then fail_cap 0
      else
        current_restart ;;
        cur ← on_sst get_currenct_thread;
        caller ← ref (bf_get reply_tcb_ptr c);
        do_reply cur caller slot_ (bf_get reply_can_grant c <>w 0) ;;
        mret EXCEPTION_NONE
  | CapThreadCap => decode_tcb_invocation fuel label length c slot_ call buffer
  | CapDomainCap => decode_domain_invocation label length buffer
  | CapCNodeCap => decode_cnode_invocation fuel label length c buffer
  | CapUntypedCap => decode_untyed_invocation label length slot_ c buffer
  | CapIrqControlCap => decode_irq_control_invocation label length slot_ buffer
  | CapIrqHandlerCap => decode_irq_handler_invocation label (bf_get irq_handler c)
  | _ => decode_mmu_invocation label length slot_ call buffer
  end.

(** What [handleInvocation] does with the status of the invocation. *)
(* src: kernel/src/syscall/invocation/mod.rs 65-82 handleInvocation *)
Definition finish_invocation (thread_ : Z) (isCall : bool) (status : exception_t)
    : ST kst exception_t :=
  match status with
  | EXCEPTION_PREEMTED => mret status
  | EXCEPTION_SYSCALL_ERROR => when isCall (reply_error_from_kernel thread_) ;; mret EXCEPTION_NONE
  | _ =>
      t ← thread thread_;
      st ← lift (Sched.get_state t);
      when (bool_decide (st = ThreadStateRestart))
        (when isCall (reply_success_from_kernel thread_) ;;
         Ipc.set_state thread_ ThreadStateRunning) ;;
      mret EXCEPTION_NONE
  end.
(* src: kernel/src/syscall/invocation/mod.rs 20-83 handleInvocation *)
Definition handleInvocation (fuel : nat) (isCall isBlocking : bool) : ST kst exception_t :=
  thread_ ← on_sst get_currenct_thread;
  w ← reg_get thread_ RMsgInfo;
  let info := message_info_from_word_security w in
  cptr ← reg_get thread_ RCap;
  lu_ret ← lookup_slot thread_ cptr;
  if bool_decide (ls_status lu_ret <> EXCEPTION_NONE) then
    sys_mod (set_fault (fault_new_cap_fault cptr 0)) ;;
    when isBlocking (handle_fault thread_) ;;
    mret EXCEPTION_NONE
  else
    buffer ← lookup_ipc_buffer thread_ false;
    status ← lookup_extra_caps_with_buf thread_ buffer;
    if bool_decide (status <> EXCEPTION_NONE) then
      when isBlocking (handle_fault thread_) ;; mret EXCEPTION_NONE
    else
      let length := if bool_decide (bf_get mi_length info > msgRegisterNum)
                       && bool_decide (buffer = None)
                    then msgRegisterNum else bf_get mi_length info in
      c ← slot_cap (ls_slot lu_ret);
      label ← lift (message_info_get_label info);
      b ← lift (or_panic buffer);
      status ← decode_invocation fuel label length (ls_slot lu_ret) c isBlocking isCall b;
      finish_invocation thread_ isCall status.

Context {H : Hardware}.
(** An interrupted invocation handles the pending interrupt. *)
(* src: kernel/src/syscall/mod.rs 65-73 handleSyscall *)
Definition invocation_or_irq (fuel : nat) (isCall isBlocking : bool) : ST kst unit :=
  ret ← handleInvocation fuel isCall isBlocking;
  when (bool_decide (ret <> EXCEPTION_NONE))
    (irq ← getActiveIRQ; when (irq <>w irqInvalid) (handleInterrupt irq)).
(* src: kernel/src/syscall/mod.rs 58-107 handleSyscall *)
Definition handleSyscall (fuel : nat) (syscall : Z) : ST kst exception_t :=
  (if syscall =w SysSend then invocation_or_irq fuel false true
   else if syscall =w SysNBSend then invocation_or_irq fuel false false
   else if syscall =w SysCall then invocation_or_irq fuel true true
   else if syscall =w SysRecv then handle_recv true
   else if syscall =w SysReply then handle_reply
   else if syscall =w SysReplyRecv then handle_reply ;; handle_recv true
   else if syscall =w SysNBRecv then handle_recv false
   else if syscall =w SysYield then handle_yield
   else panic) ;;
  schedule ;;
  on_sst activateThread ;;
  mret EXCEPTION_NONE.

(** ** Faults of user code *)
Definition fault_and_schedule : ST kst exception_t :=
  cur ← on_sst get_currenct_thread;
  handle_fault cur ;;
  schedule ;;
  on_sst activateThread ;;
  mret EXCEPTION_NONE.
(* src: kernel/src/arch/aarch64/exception.rs 97-105 handleUserLevelFault *)
Definition handleUserLevelFault (w_a w_b : Z) : ST kst exception_t :=
  sys_mod (set_fault (fault_new_user_exeception w_a w_b)) ;; fault_and_schedule.
(** [ARMDataAbort] is 0 and [ARMPrefetchAbort] is 1. *)
(* src: kernel/src/arch/aarch64/exception.rs 118-181 handle_vm_fault *)
Definition handle_vm_fault (type : Z) : ST kst exception_t :=
  if type =w 0 then
    addr ← get_far;
    fault ← get_esr;
    sys_mod (set_fault (fault_new_vm_fault addr fault 0)) ;;
    mret EXCEPTION_FAULT
  else if type =w 1 then
    cur ← on_sst get_currenct_thread;
    pc ← reg_get cur RFaultIP;
    fault ← get_esr;
    sys_mod (set_fault (fault_new_vm_fault pc fault 1)) ;;
    mret EXCEPTION_FAULT
  else panic.
(* src: kernel/src/arch/aarch64/exception.rs 108-116 handleVMFaultEvent *)
Definition handleVMFaultEvent (vm_faultType : Z) : ST kst exception_t :=
  status ← handle_vm_fault vm_faultType;
  when (bool_decide (status <> EXCEPTION_NONE))
    (cur ← on_sst get_currenct_thread; handle_fault cur) ;;
  schedule ;;
  on_sst activateThread ;;
  mret EXCEPTION_NONE.
End kernel_entry.
