(* ===== verification/Entry.v ===== *)
(** * Traps: entry into the kernel and return to user mode

    [c_handle_syscall] and [c_handle_interrupt] of
    [arch/aarch64/c_traps.rs], [slowpath] of [syscall/mod.rs] and the unknown
    and debugging system calls of [arch/aarch64/exception.rs].  A trap ends
    with [restore_user_context], which never returns to its caller: its result
    is the user context the processor continues with. *)

From stdpp Require Import base numbers gmap list.
From S2P Require Import Prelude Bitfield Common Cap DList CSpace Sched State Vspace Threads Delete Ipc Finalise Syscall CNodeInv UntypedInv TcbInv MmuInv IrqInv Kernel.
Local Open Scope Z_scope.
Local Open Scope krn_scope.

(** ** The user context *)

(** The registers loaded before [eret]: [x0] to [x30], the stack pointer,
    program counter, status and the two thread-local registers. *)
Record user_ctx := UserCtx {
  uc_x : list Z; uc_sp_el0 : Z; uc_elr : Z; uc_spsr : Z; uc_tpidr : Z; uc_tpidrro : Z }.

(* src: sel4_common/src/arch/aarch64/registers.rs 53-53 TPIDR_EL0 *)
Definition TPIDR_EL0 : Z := 35.
(* src: sel4_common/src/arch/aarch64/registers.rs 57-57 TPIDRRO_EL0 *)
Definition TPIDRRO_EL0 : Z := 36.
(* src: sel4_common/src/arch/aarch64/registers.rs 46-46 SP_EL0 *)
Definition SP_EL0 : Z := 31.

Definition load_context (regs : list Z) : res user_ctx :=
  sp ← idx regs SP_EL0;
  elr ← idx regs ELR_EL1;
  spsr ← idx regs SPSR_EL1;
  tpidr ← idx regs TPIDR_EL0;
  tpidrro ← idx regs TPIDRRO_EL0;
  mret (UserCtx (take 31 regs) sp elr spsr tpidr tpidrro).
(* src: kernel/src/arch/aarch64/c_traps.rs 16-70 restore_user_context *)
Definition restore_user_context : ST kst user_ctx :=
  cur ← on_sst get_currenct_thread; t ← thread cur; lift (load_context (tcbArch t)).

(** The thread-local registers of the processor. *)
Class ThreadLocal := {
  mrs_tpidr_el0 : ST kst Z;
  mrs_tpidrro_el0 : ST kst Z }.

Section entry.
Context {D : CSpaceDeps} {H : Hardware} {TL : ThreadLocal}.

(* src: sel4_common/src/arch/aarch64/arch_tcb.rs 56-61 ArchTCB::save_thread_local *)
Definition save_thread_local (self : Z) : ST kst unit :=
  v ← mrs_tpidr_el0;
  t ← thread self;
  r ← lift (upd (tcbArch t) TPIDR_EL0 v);
  thread_mod self (set_tcbArch r) ;;
  v ← mrs_tpidrro_el0;
  t ← thread self;
  r ← lift (upd (tcbArch t) TPIDRRO_EL0 v);
  thread_mod self (set_tcbArch r).
(* src: kernel/src/arch/aarch64/c_traps.rs 111-113 entry_hook *)
Definition entry_hook : ST kst unit := cur ← on_sst get_currenct_thread; save_thread_local cur.

(* src: kernel/src/arch/aarch64/c_traps.rs 73-92 c_handle_interrupt *)
Definition c_handle_interrupt : ST kst user_ctx :=
  entry_hook ;; handleInterruptEntry ;; restore_user_context.

(** ** Debugging system calls *)
(* src: kernel/src/syscall/mod.rs 21-21 SysDebugPutChar *)
Definition SysDebugPutChar : Z := -9.
(* src: kernel/src/syscall/mod.rs 22-22 SysDebugDumpScheduler *)
Definition SysDebugDumpScheduler : Z := -10.
(* src: kernel/src/syscall/mod.rs 23-23 SysDebugHalt *)
Definition SysDebugHalt : Z := -11.
(* src: kernel/src/syscall/mod.rs 24-24 SysDebugCapIdentify *)
Definition SysDebugCapIdentify : Z := -12.
(* src: kernel/src/syscall/mod.rs 25-25 SysDebugSnapshot *)
Definition SysDebugSnapshot : Z := -13.
(* src: kernel/src/syscall/mod.rs 26-26 SysDebugNameThread *)
Definition SysDebugNameThread : Z := -14.
(* src: kernel/src/syscall/mod.rs 27-27 SysGetClock *)
Definition SysGetClock : Z := -30.

(* src: kernel/src/structures.rs 142-146 lookupCapAndSlot_ret_t *)
Record lookupCapAndSlot_ret := LookupCapAndSlotRet {
  lcs_status : exception_t; lcs_cap : list Z; lcs_slot : Z }.
(* src: kernel/src/object/mod.rs 44-63 lookupCapAndSlot *)
Definition lookupCapAndSlot (thread_ cPtr : Z) : ST kst lookupCapAndSlot_ret :=
  lu_ret ← lookup_slot thread_ cPtr;
  if bool_decide (ls_status lu_ret <> EXCEPTION_NONE)
  then mret (LookupCapAndSlotRet (ls_status lu_ret) new_null_cap 0)
  else
    x ← slot (ls_slot lu_ret);
    mret (LookupCapAndSlotRet EXCEPTION_NONE (cte_cap x) (ls_slot lu_ret)).
(* src: kernel/src/compatibility.rs 34-41 lookupIPCBuffer *)
Definition lookupIPCBuffer (isReceiver : bool) (thread_ : Z) : ST kst Z :=
  b ← lookup_ipc_buffer thread_ isReceiver; mret (default 0 b).
(** The byte at an address of the little-endian memory. *)
Definition byte_get (p : Z) : ST kst Z :=
  w ← word_get (p &&& wnot 7); mret (wshr w (wmul 8 (p &&& 7)) &&& 255).
(** The loop has no bound of its own; [max_len] is ignored. *)
(* src: kernel/src/lib.rs 47-52 strnlen *)
Fixpoint strnlen_loop (fuel : nat) (c ans : Z) : ST kst Z :=
  match fuel with
  | O => no_fuel
  | S fuel =>
      b ← byte_get c;
      if b =w 0 then mret ans else strnlen_loop fuel (wadd c 1) (wadd ans 1)
  end.
(* src: kernel/src/lib.rs 43-53 strnlen *)
Definition strnlen (fuel : nat) (str _max_len : Z) : ST kst Z := strnlen_loop fuel str 0.
(** [shutdown] does not return. *)
(* src: kernel/src/lib.rs 37-40 halt *)
Definition halt {A} : ST kst A := panic.

(** Printing is not modelled. *)
(* src: kernel/src/arch/aarch64/exception.rs 28-94 handleUnknownSyscall *)
Definition handleUnknownSyscall (fuel : nat) (w : Z) : ST kst exception_t :=
  thread_ ← on_sst get_currenct_thread;
  if (w =w SysDebugPutChar) then reg_get thread_ RCap ;; mret EXCEPTION_NONE
  else if (w =w SysDebugDumpScheduler) || (w =w SysDebugHalt) || (w =w SysDebugSnapshot)
  then mret EXCEPTION_NONE
  else if w =w SysDebugCapIdentify then
    cptr ← reg_get thread_ RCap;
    lu_ret ← lookupCapAndSlot thread_ cptr;
    cap_type ← lift (get_cap_type (lcs_cap lu_ret));
    reg_set thread_ RCap (CapTag_to_usize cap_type) ;;
    mret EXCEPTION_NONE
  else if w =w SysDebugNameThread then
    cptr ← reg_get thread_ RCap;
    lu_ret ← lookupCapAndSlot thread_ cptr;
    cap_type ← lift (get_cap_type (lcs_cap lu_ret));
    if negb (cap_type =t CapThreadCap) then halt
    else
      b ← lookupIPCBuffer true thread_;
      let name := wadd b 1 in
      if name =w 0 then halt
      else
        len ← strnlen fuel name (wmul seL4_MsgMaxLength 8);
        if len =w wmul seL4_MsgMaxLength 8 then halt else mret EXCEPTION_NONE
  else if w =w SysGetClock then mret EXCEPTION_NONE
  else
    sys_mod (set_fault (fault_new_unknown_syscall_fault (w mod 2 ^ 64))) ;;
    fault_and_schedule.

(** A system-call number as [isize]. *)
Definition as_isize (w : Z) : Z := if decide (w < 2 ^ 63) then w else w - 2 ^ 64.
(* src: kernel/src/syscall/mod.rs 45-55 slowpath *)
Definition slowpath (fuel : nat) (syscall : Z) : ST kst user_ctx :=
  let n := as_isize syscall in
  (if bool_decide (n < -8) || bool_decide (n > -1) then handleUnknownSyscall fuel n
   else handleSyscall fuel n) ;;
  restore_user_context.
(* src: kernel/src/arch/aarch64/c_traps.rs 95-106 c_handle_syscall *)
Definition c_handle_syscall (fuel : nat) (_cptr _msgInfo syscall : Z) : ST kst user_ctx :=
  entry_hook ;; slowpath fuel syscall.
End entry.
