(* ===== verification/FastPath.v ===== *)
(** * The fast path

    [kernel/fastpath.rs]: Call and ReplyRecv without the dispatcher.  Every
    test that fails enters [slowpath], which does not return, so that
    [if c { slowpath(n) }] is [if c then slowpath n else ...].  The assembly of
    [fastpath_restore] loads every register but [x0] and [x1], which hold the
    arguments of the call: badge and message info. *)

From stdpp Require Import base numbers gmap list.
From S2P Require Import Prelude Bitfield Common Cap DList CSpace Sched State Vspace Threads Delete Ipc Finalise Syscall CNodeInv UntypedInv TcbInv MmuInv IrqInv Kernel Entry.
Local Open Scope Z_scope.
Local Open Scope krn_scope.

(** ** Lookup *)
(** One level: the capability of the slot and the bits used so far. *)
(* src: kernel/src/kernel/fastpath.rs 34-45 lookup_fp *)
Definition lookup_fp_step (c : list Z) (cptr bits : Z) : ST slots (option (list Z * Z)) :=
  let guardBits := bf_get cnode_guard_size c in
  let radixBits := bf_get cnode_radix c in
  let cptr2 := wshl cptr bits in
  let capGuard := bf_get cnode_guard c in
  if (guardBits <>w 0) && (wshr cptr2 (wsub wordBits guardBits) <>w capGuard) then mret None
  else
    let radix := wshr (wshl cptr2 guardBits) (wsub wordBits radixBits) in
    x ← load (cte_add (bf_get cnode_ptr c) radix);
    mret (Some (cte_cap x, wadd bits (wadd guardBits radixBits))).
(* src: kernel/src/kernel/fastpath.rs 33-54 lookup_fp *)
Fixpoint lookup_fp_loop (fuel : nat) (c : list Z) (cptr bits : Z) : ST slots (list Z) :=
  match fuel with
  | O => no_fuel
  | S fuel =>
      r ← lookup_fp_step c cptr bits;
      match r with
      | None => mret new_null_cap
      | Some (c, bits) =>
          more ← (if bool_decide (bits < wordBits)
                  then t ← lift (get_cap_type c); mret (t =t CapCNodeCap) else mret false);
          if more : bool then lookup_fp_loop fuel c cptr bits
          else mret (if bool_decide (bits > wordBits) then new_null_cap else c)
      end
  end.
(** Every level with a radix uses a bit: one round more than bits. *)
(* src: kernel/src/kernel/fastpath.rs 19-55 lookup_fp *)
Definition lookup_fp (c : list Z) (cptr : Z) : ST slots (list Z) :=
  t ← lift (get_cap_type c);
  if negb (t =t CapCNodeCap) then mret new_null_cap else lookup_fp_loop 65 c cptr 0.

(** ** Direct writes *)
Definition set_word (i : nat) (v : Z) (ws : list Z) : list Z := <[i := v]> ws.
(* src: kernel/src/kernel/fastpath.rs 59-65 thread_state_ptr_mset_blockingObject_tsType *)
Definition thread_state_ptr_mset_blockingObject_tsType (ptr ep tsType : Z) : ST kst unit :=
  thread_mod ptr (fun t => set_tcbState (set_word 0 (ep ||| tsType) (tcbState t)) t).
(* src: kernel/src/kernel/fastpath.rs 69-73 endpoint_ptr_mset_epQueue_tail_state *)
Definition endpoint_ptr_mset_epQueue_tail_state (ptr tail state : Z) : ST kst unit :=
  ep_mod ptr (set_word 0 (tail ||| state)).
(* src: kernel/src/kernel/fastpath.rs 77-88 switchToThread_fp *)
Definition switchToThread_fp (thread_ vroot stored_hw_asid : Z) : ST kst unit :=
  let asid := stored_hw_asid in
  setCurrentUserVSpaceRoot (ttbr_new asid (pptr_to_paddr vroot)) ;;
  on_sst (set_current_thread thread_).
(* src: kernel/src/kernel/fastpath.rs 92-99 mdb_node_ptr_mset_mdbNext_mdbRevocable_mdbFirstBadged *)
Definition mdb_node_ptr_mset_mdbNext_mdbRevocable_mdbFirstBadged
    (ptr mdbNext mdbRevocable mdbFirstBadged : Z) : ST kst unit :=
  slot_mod ptr (fun x =>
    set_mdb (set_word 1 (mdbNext ||| wshl mdbRevocable 1 ||| mdbFirstBadged) (cteMDBNode x)) x).
(* src: kernel/src/kernel/fastpath.rs 103-106 isValidVTableRoot_fp *)
Definition isValidVTableRoot_fp (c : list Z) : res bool :=
  t ← get_cap_type c; mret ((t =t CapPageTableCap) && (bf_get pt_is_mapped c <>w 0)).
(* src: kernel/src/config.rs 75-75 seL4_MsgLengthBits *)
Definition seL4_MsgLengthBits : Z := 7.
(* src: kernel/src/kernel/fastpath.rs 110-112 fastpath_mi_check *)
Definition fastpath_mi_check (msgInfo : Z) : bool :=
  bool_decide (msgInfo &&& MASK (wadd seL4_MsgLengthBits seL4_MsgExtraCapBits) > 4).
(** Slices out of the register file panic. *)
(* src: kernel/src/kernel/fastpath.rs 116-119 fastpath_copy_mrs *)
Definition fastpath_copy_mrs (length src dest : Z) : ST kst unit :=
  lo ← lift (idx msgRegister 0);
  let hi := wadd lo length in
  s ← thread src;
  d ← thread dest;
  assert_m (bool_decide (hi <= CONTEXT_REG_NUM)) ;;
  thread_mod dest (set_tcbArch (copy_range (tcbArch d) (tcbArch s) (Z.to_nat lo) (Z.to_nat hi))).
(* src: kernel/src/kernel/fastpath.rs 136-175 fastpath_restore *)
Definition fastpath_restore (badge msgInfo cur_thread : Z) : ST kst user_ctx :=
  t ← thread cur_thread;
  c ← lift (load_context (tcbArch t));
  mret (UserCtx (badge :: msgInfo :: drop 2 (uc_x c)) (uc_sp_el0 c) (uc_elr c) (uc_spsr c)
    (uc_tpidr c) (uc_tpidrro c)).

Section fastpath.
Context {D : CSpaceDeps} {H : Hardware}.
Implicit Types (cptr msgInfo : Z).

(** ** Call *)
(** The endpoint's queue loses its first thread [dest]. *)
(* src: kernel/src/kernel/fastpath.rs 235-241 fastpath_call *)
Definition fp_take_receiver (ep dest : Z) : ST kst unit :=
  d ← thread dest;
  ep_mod ep (bf_set ep_queue_head (tcbEPNext d)) ;;
  if tcbEPNext d <>w 0 then
    n ← ref (tcbEPNext d); thread_mod n (set_tcbEPNext 0)
  else
    ep_mod ep (bf_set ep_queue_tail 0) ;;
    ep_mod ep (ep_set_state EPIdle).
(* src: kernel/src/kernel/fastpath.rs 235-265 fastpath_call *)
Definition fp_call_commit (current dest ep : Z) (ep_cap new_vtable info : list Z) (length : Z)
    : ST kst user_ctx :=
  fp_take_receiver ep dest ;;
  thread_mod current (fun t =>
    set_tcbState (set_word 0 (ThreadState_to_usize ThreadStateBlockedOnReply) (tcbState t)) t) ;;
  let reply_slot := get_cspace_mut_ref current tcbReply in
  let caller_slot := get_cspace_mut_ref dest tcbCaller in
  d ← thread dest;
  let reply_can_grant := ts_get Sched.blocking_ipc_can_grant d in
  slot_mod caller_slot (set_cap (new_reply_cap reply_can_grant 0 current)) ;;
  slot_mod caller_slot (fun x => set_mdb (set_word 0 reply_slot (cteMDBNode x)) x) ;;
  mdb_node_ptr_mset_mdbNext_mdbRevocable_mdbFirstBadged reply_slot caller_slot 1 1 ;;
  fastpath_copy_mrs length current dest ;;
  thread_mod dest (fun t =>
    set_tcbState (set_word 0 (ThreadState_to_usize ThreadStateRunning) (tcbState t)) t) ;;
  let cap_pd := bf_get pt_base_ptr new_vtable in
  let stored_hw_asid := bf_get pt_mapped_asid new_vtable in
  switchToThread_fp dest cap_pd stored_hw_asid ;;
  let info := bf_set mi_capsUnwrapped 0 info in
  let msgInfo1 := message_info_to_word info in
  let badge := bf_get ep_badge ep_cap in
  cur ← on_sst get_currenct_thread;
  fastpath_restore badge msgInfo1 cur.

(** [SysCall as usize] *)
Definition as_usize (n : Z) : Z := n mod 2 ^ 64.
(* src: kernel/src/kernel/fastpath.rs 192-266 fastpath_call *)
Definition fastpath_call (fuel : nat) (cptr msgInfo : Z) : ST kst user_ctx :=
  let slow := slowpath fuel (as_usize SysCall) in
  current ← on_sst get_currenct_thread;
  let info := message_info_from_word msgInfo in
  let length := bf_get mi_length info in
  c ← thread current;
  fault ← lift (get_fault_type (tcbFault c));
  if fastpath_mi_check msgInfo || bool_decide (fault <> NullFault) then slow
  else
    root ← cspace_cap current tcbCTable;
    ep_cap ← on_slots (lookup_fp root cptr);
    t ← lift (get_cap_type ep_cap);
    if negb (t =t CapEndpointCap) || (bf_get ep_can_send ep_cap =w 0) then slow
    else
      ep ← ref (bf_get ep_ptr ep_cap);
      st ← ep_state_of ep;
      if bool_decide (st <> EPRecv) then slow
      else
        e ← ep_get ep;
        dest ← ref (bf_get ep_queue_head e);
        new_vtable ← cspace_cap dest tcbVTable;
        valid ← lift (isValidVTableRoot_fp new_vtable);
        if negb valid then slow
        else
          let dom := 0 in
          d ← thread dest;
          hp ← (if bool_decide (tcbPriority d < tcbPriority c)
                then on_sst (isHighestPrio dom (tcbPriority d)) else mret true);
          if negb hp then slow
          else if (bf_get ep_can_grant ep_cap =w 0) && (bf_get ep_can_grant_reply ep_cap =w 0) then slow
          else fp_call_commit current dest ep ep_cap new_vtable info length.

(** ** Reply and receive *)
(** The current thread joins the endpoint's queue. *)
(* src: kernel/src/kernel/fastpath.rs 322-344 fastpath_reply_recv *)
Definition fp_block (current ep : Z) (ep_cap : list Z) : ST kst unit :=
  thread_state_ptr_mset_blockingObject_tsType current ep
    (ThreadState_to_usize ThreadStateBlockedOnReceive) ;;
  thread_mod current (ts_set Sched.blocking_ipc_can_grant (bf_get ep_can_grant ep_cap)) ;;
  e ← ep_get ep;
  let ep_tail := bf_get ep_queue_tail e in
  (if ep_tail <>w 0 then
     thread_mod ep_tail (set_tcbEPNext current) ;;
     thread_mod current (set_tcbEPPrev ep_tail) ;;
     thread_mod current (set_tcbEPNext 0)
   else
     thread_mod current (set_tcbEPPrev 0) ;;
     thread_mod current (set_tcbEPNext 0) ;;
     ep_mod ep (bf_set ep_queue_head current)) ;;
  cur ← on_sst get_currenct_thread;
  endpoint_ptr_mset_epQueue_tail_state ep cur (EPState_to_usize EPRecv).
(* src: kernel/src/kernel/fastpath.rs 347-359 fastpath_reply_recv *)
Definition fp_reply_commit (current caller caller_slot : Z) (info : list Z) (length : Z)
    : ST kst user_ctx :=
  x ← slot caller_slot;
  node ← ref (mdb_get mdbPrev x);
  mdb_node_ptr_mset_mdbNext_mdbRevocable_mdbFirstBadged node 0 1 1 ;;
  slot_mod caller_slot (set_cap new_null_cap) ;;
  slot_mod caller_slot (set_mdb (mdb_node_new 0 0 0 0)) ;;
  fastpath_copy_mrs length current caller ;;
  thread_mod caller (fun t =>
    set_tcbState (set_word 0 (ThreadState_to_usize ThreadStateRunning) (tcbState t)) t) ;;
  new_vtable ← cspace_cap caller tcbVTable;
  let cap_pd := bf_get pt_base_ptr new_vtable in
  let stored_hw_asid := bf_get pt_mapped_asid new_vtable in
  switchToThread_fp caller cap_pd stored_hw_asid ;;
  let info := bf_set mi_capsUnwrapped 0 info in
  let msg_info1 := message_info_to_word info in
  cur ← on_sst get_currenct_thread;
  fastpath_restore 0 msg_info1 cur.

(** Is a signal pending at the thread's bound notification? *)
(* src: kernel/src/kernel/fastpath.rs 287-293 fastpath_reply_recv *)
Definition fp_signal_pending (ntfn : Z) : ST kst bool :=
  if ntfn =w 0 then mret false
  else st ← nt_state_of ntfn; mret (bool_decide (st = NtfnActive)).
(* src: kernel/src/kernel/fastpath.rs 268-361 fastpath_reply_recv *)
Definition fastpath_reply_recv (fuel : nat) (cptr msgInfo : Z) : ST kst user_ctx :=
  let slow := slowpath fuel (as_usize SysReplyRecv) in
  current ← on_sst get_currenct_thread;
  let info := message_info_from_word msgInfo in
  let length := bf_get mi_length info in
  c ← thread current;
  fault_type ← lift (get_fault_type (tcbFault c));
  if fastpath_mi_check msgInfo || bool_decide (fault_type <> NullFault) then slow
  else
    root ← cspace_cap current tcbCTable;
    ep_cap ← on_slots (lookup_fp root cptr);
    t ← lift (get_cap_type ep_cap);
    if negb (t =t CapEndpointCap) || (bf_get ep_can_send ep_cap =w 0) then slow
    else
      active ← fp_signal_pending (tcbBoundNotification c);
      if active : bool then slow
      else
        ep ← ref (bf_get ep_ptr ep_cap);
        st ← ep_state_of ep;
        if bool_decide (st = EPSend) then slow
        else
          let caller_slot := get_cspace_mut_ref current tcbCaller in
          x ← slot caller_slot;
          let caller_cap := cte_cap x in
          t ← lift (get_cap_type caller_cap);
          if negb (t =t CapReplyCap) then slow
          else
            caller ← ref (bf_get reply_tcb_ptr caller_cap);
            k ← thread caller;
            fault ← lift (get_fault_type (tcbFault k));
            if bool_decide (fault <> NullFault) then slow
            else
              new_vtable ← cspace_cap caller tcbVTable;
              valid ← lift (isValidVTableRoot_fp new_vtable);
              if negb valid then slow
              else
                let dom := 0 in
                hp ← on_sst (isHighestPrio dom (tcbPriority k));
                if negb hp then slow
                else
                  fp_block current ep ep_cap ;;
                  fp_reply_commit current caller caller_slot info length.
End fastpath.
