(* ===== verification/BootMem.v ===== *)
(** * Boot: the free memory

    [boot/mm.rs], the region helpers of [boot/utils.rs] and [init_freemem] of
    [arch/aarch64/platform.rs]: which memory is free when the kernel starts,
    and which physical memory is reserved.  The state is the part of
    [ndks_boot] and the static arrays these functions use. *)

From stdpp Require Import base numbers gmap list.
From S2P Require Import Prelude Bitfield Common Cap DList CSpace Sched State Vspace.
Local Open Scope Z_scope.
Local Open Scope krn_scope.

(** ** Regions *)
(** [region_t], [p_region_t] and [v_region_t] have the same fields. *)
(* src: kernel/src/structures.rs 14-33 region_t *)
Record region_t := Region { rg_start : Z; rg_end : Z }.
#[export] Instance region_eq_dec : EqDecision region_t.
Proof. solve_decision. Defined.
#[export] Instance region_inhabited : Inhabited region_t := populate (Region 0 0).
Definition set_rg_start v r := Region v (rg_end r).
Definition set_rg_end v r := Region (rg_start r) v.

(* src: kernel/src/config.rs 35-35 MAX_NUM_FREEMEM_REG *)
Definition MAX_NUM_FREEMEM_REG : Z := 16.
(* src: kernel/src/config.rs 36-36 NUM_RESERVED_REGIONS *)
Definition NUM_RESERVED_REGIONS : Z := 3.
(* src: kernel/src/config.rs 37-37 MAX_NUM_RESV_REG *)
Definition MAX_NUM_RESV_REG : Z := MAX_NUM_FREEMEM_REG + NUM_RESERVED_REGIONS.
(* src: sel4_common/src/arch/aarch64/config.rs 2-2 PPTR_TOP *)
Definition PPTR_TOP : Z := 0xffffffffc0000000.
(* src: sel4_common/src/arch/aarch64/config.rs 11-11 PADDR_TOP *)
Definition PADDR_TOP : Z := wsub PPTR_TOP PPTR_BASE_OFFSET.

(* src: kernel/src/boot/utils.rs 16-18 is_reg_empty *)
Definition is_reg_empty (reg : region_t) : bool := rg_start reg =w rg_end reg.
(* src: kernel/src/boot/utils.rs 21-26 paddr_to_pptr_reg *)
Definition paddr_to_pptr_reg (reg : region_t) : region_t :=
  Region (paddr_to_pptr (rg_start reg)) (paddr_to_pptr (rg_end reg)).
(* src: kernel/src/boot/utils.rs 28-33 ceiling_kernel_window *)
Definition ceiling_kernel_window (p : Z) : Z :=
  if bool_decide (pptr_to_paddr p > PADDR_TOP) then PPTR_TOP else p.
(* src: kernel/src/boot/utils.rs 36-41 pptr_to_paddr_reg *)
Definition pptr_to_paddr_reg (reg : region_t) : region_t :=
  Region (pptr_to_paddr (rg_start reg)) (pptr_to_paddr (rg_end reg)).
(* src: kernel/src/boot/utils.rs 43-45 pptr_in_kernel_window *)
Definition pptr_in_kernel_window (pptr : Z) : bool :=
  bool_decide (pptr >= PPTR_BASE) && bool_decide (pptr < PPTR_TOP).

(** ** The state *)
(* src: kernel/src/structures.rs 74-82 ndks_boot_t *)
Record mm_t := Mm {
  mm_reserved : list region_t; resv_count : Z;
  freemem : list region_t;
  avail_reg : list region_t; res_reg : list region_t }.
(* src: kernel/src/boot/mod.rs 45-53 ndks_boot *)
Definition mm_init : mm_t :=
  Mm (replicate (Z.to_nat MAX_NUM_RESV_REG) (Region 0 0)) 0
    (replicate (Z.to_nat MAX_NUM_FREEMEM_REG) (Region 0 0))
    (replicate (Z.to_nat MAX_NUM_FREEMEM_REG) (Region 0 0))
    (replicate (Z.to_nat NUM_RESERVED_REGIONS) (Region 0 0)).
Definition set_mm_reserved v m := Mm v (resv_count m) (freemem m) (avail_reg m) (res_reg m).
Definition set_resv_count v m := Mm (mm_reserved m) v (freemem m) (avail_reg m) (res_reg m).
Definition set_freemem v m := Mm (mm_reserved m) (resv_count m) v (avail_reg m) (res_reg m).
Definition set_avail_reg v m := Mm (mm_reserved m) (resv_count m) (freemem m) v (res_reg m).
Definition set_res_reg v m := Mm (mm_reserved m) (resv_count m) (freemem m) (avail_reg m) v.

(** Reads and writes of the arrays: out of bounds panics. *)
Definition resv_get (i : Z) : ST mm_t region_t := l ← gets mm_reserved; lift (idx l i).
Definition resv_set (i : Z) (r : region_t) : ST mm_t unit :=
  l ← gets mm_reserved; l ← lift (upd l i r); modify (set_mm_reserved l).
Definition free_get (i : Z) : ST mm_t region_t := l ← gets freemem; lift (idx l i).
Definition free_set (i : Z) (r : region_t) : ST mm_t unit :=
  l ← gets freemem; l ← lift (upd l i r); modify (set_freemem l).
Definition avail_get (i : Z) : ST mm_t region_t := l ← gets avail_reg; lift (idx l i).
Definition avail_set (i : Z) (r : region_t) : ST mm_t unit :=
  l ← gets avail_reg; l ← lift (upd l i r); modify (set_avail_reg l).

(** ** Reserved memory *)
(** Shift the entries [lo .. lo + n) one place down. *)
(* src: kernel/src/boot/mm.rs 244-248 merge_regions *)
Definition shift_down (n : nat) (lo : Z) : ST mm_t unit :=
  for_range n lo (fun j => r ← resv_get j; resv_set (j - 1) r).
(** Every round moves [i] up or the count down. *)
(* src: kernel/src/boot/mm.rs 239-254 merge_regions *)
Fixpoint merge_loop (fuel : nat) (i : Z) : ST mm_t unit :=
  match fuel with
  | O => no_fuel
  | S fuel =>
      count ← gets resv_count;
      if bool_decide (i < count) then
        p ← resv_get (i - 1);
        r ← resv_get i;
        if rg_end p =w rg_start r then
          resv_set (i - 1) (set_rg_end (rg_end r) p) ;;
          shift_down (Z.to_nat (count - (i + 1))) (i + 1) ;;
          modify (set_resv_count (wsub count 1)) ;;
          merge_loop fuel i
        else merge_loop fuel (i + 1)
      else skip
  end.
(* src: kernel/src/boot/mm.rs 239-254 merge_regions *)
Definition merge_regions : ST mm_t unit := merge_loop (S (Z.to_nat MAX_NUM_RESV_REG)) 1.

(** Shift the entries from [i] to [j] one place up. *)
(* src: kernel/src/boot/mm.rs 219-223 reserve_region *)
Fixpoint shift_up (n : nat) (j : Z) : ST mm_t unit :=
  match n with
  | O => skip
  | S n => r ← resv_get (j - 1); resv_set j r ;; shift_up n (j - 1)
  end.
(** [n] entries are left from [i] on; [None]: none of them ends the search. *)
(* src: kernel/src/boot/mm.rs 202-229 reserve_region *)
Fixpoint reserve_loop (n : nat) (i : Z) (reg : region_t) : ST mm_t (option bool) :=
  match n with
  | O => mret None
  | S n =>
      r ← resv_get i;
      if rg_start r =w rg_end reg then
        resv_set i (set_rg_start (rg_start reg) r) ;; merge_regions ;; mret (Some true)
      else if rg_end r =w rg_start reg then
        resv_set i (set_rg_end (rg_end reg) r) ;; merge_regions ;; mret (Some true)
      else if bool_decide (rg_start r > rg_end reg) then
        count ← gets resv_count;
        if bool_decide (wadd count 1 >= MAX_NUM_RESV_REG) then mret (Some false)
        else
          shift_up (Z.to_nat (count - i)) count ;;
          resv_set i reg ;;
          modify (set_resv_count (wadd count 1)) ;;
          mret (Some true)
      else reserve_loop n (i + 1) reg
  end.
(* src: kernel/src/boot/mm.rs 196-237 reserve_region *)
Definition reserve_region (reg : region_t) : ST mm_t bool :=
  assert_m (bool_decide (rg_start reg <= rg_end reg)) ;;
  if rg_start reg =w rg_end reg then mret true
  else
    count ← gets resv_count;
    o ← reserve_loop (Z.to_nat count) 0 reg;
    match o with
    | Some b => mret b
    | None =>
        if wadd count 1 =w MAX_NUM_RESV_REG then mret false
        else resv_set count reg ;; modify (set_resv_count (wadd count 1)) ;; mret true
    end.

(** ** Free memory *)
(** The first empty entry from [i] on takes the region. *)
(* src: kernel/src/boot/mm.rs 177-185 insert_region *)
Fixpoint insert_loop (n : nat) (i : Z) (reg : region_t) : ST mm_t bool :=
  match n with
  | O => mret false
  | S n =>
      f ← free_get i;
      if is_reg_empty f : bool then
        reserve_region (pptr_to_paddr_reg reg) ;; free_set i reg ;; mret true
      else insert_loop n (i + 1) reg
  end.
(* src: kernel/src/boot/mm.rs 170-194 insert_region *)
Definition insert_region (reg : region_t) : ST mm_t bool :=
  assert_m (bool_decide (rg_start reg <= rg_end reg)) ;;
  if is_reg_empty reg : bool then mret true
  else
    l ← gets freemem;
    b ← insert_loop (length l) 0 reg;
    if b : bool then mret true else panic.

(** The wrong order is reported but accepted. *)
(* src: kernel/src/boot/mm.rs 125-145 check_available_memory *)
Fixpoint check_available_loop (n : nat) (i : Z) (available : list region_t) (last : region_t)
    : ST mm_t bool :=
  match n with
  | O => mret true
  | S n =>
      r ← lift (idx available i);
      if bool_decide (rg_start r > rg_end r) then mret false
      else if rg_start r =w rg_end r then mret false
      else check_available_loop n (i + 1) available r
  end.
(** [available] is the array of [n_available] regions the boot loader passes. *)
(* src: kernel/src/boot/mm.rs 118-147 check_available_memory *)
Definition check_available_memory (n_available : Z) (available : list region_t) : ST mm_t bool :=
  if n_available =w 0 then mret false
  else
    last ← lift (idx available 0);
    check_available_loop (Z.to_nat n_available) 0 available last.
(* src: kernel/src/boot/mm.rs 149-168 check_reserved_memory *)
Fixpoint check_reserved_loop (n : nat) (i : Z) (reserved : list region_t) (last : region_t)
    : ST mm_t bool :=
  match n with
  | O => mret true
  | S n =>
      r ← lift (idx reserved i);
      if bool_decide (rg_start r > rg_end r) then mret false
      else if bool_decide (i > 0) && bool_decide (rg_start r < rg_end last) then mret false
      else check_reserved_loop n (i + 1) reserved r
  end.
(* src: kernel/src/boot/mm.rs 149-168 check_reserved_memory *)
Definition check_reserved_memory (n_reserved : Z) (reserved : list region_t) : ST mm_t bool :=
  last ← lift (idx reserved 0);
  check_reserved_loop (Z.to_nat n_reserved) 0 reserved last.

(** The available regions, moved into the kernel window and cut at its end. *)
(* src: kernel/src/boot/mm.rs 42-48 rust_init_freemem *)
Definition trim_region (r : region_t) : region_t :=
  let r := paddr_to_pptr_reg r in
  Region (ceiling_kernel_window (rg_start r)) (ceiling_kernel_window (rg_end r)).
(* src: kernel/src/boot/mm.rs 38-48 rust_init_freemem *)
Definition init_regions (n_available : Z) (available : list region_t) : ST mm_t unit :=
  l ← gets freemem;
  for_range (length l) 0 (fun i => free_set i (Region 0 0)) ;;
  for_range (Z.to_nat n_available) 0 (fun i =>
    ptr ← lift (idx available i); avail_set i (trim_region ptr)).
(** Both lists are walked in order; every round leaves one region behind. *)
(* src: kernel/src/boot/mm.rs 53-93 rust_init_freemem *)
Fixpoint freemem_loop (fuel : nat) (n_available n_reserved : Z) (reserved : list region_t) (a r : Z)
    : ST mm_t (Z * Z) :=
  match fuel with
  | O => no_fuel
  | S fuel =>
      if bool_decide (a < n_available) && bool_decide (r < n_reserved) then
        res ← lift (idx reserved r);
        av ← avail_get a;
        if rg_start res =w rg_end res then
          freemem_loop fuel n_available n_reserved reserved a (r + 1)
        else if bool_decide (rg_start av >= rg_end av) then
          freemem_loop fuel n_available n_reserved reserved (a + 1) r
        else if bool_decide (rg_end res <= rg_start av) then
          reserve_region (pptr_to_paddr_reg res) ;;
          freemem_loop fuel n_available n_reserved reserved a (r + 1)
        else if bool_decide (rg_start res >= rg_end av) then
          insert_region av ;;
          freemem_loop fuel n_available n_reserved reserved (a + 1) r
        else if bool_decide (rg_start res <= rg_start av) then
          avail_set a (set_rg_start
            (if bool_decide (rg_end av < rg_end res) then rg_end av else rg_end res) av) ;;
          reserve_region (pptr_to_paddr_reg res) ;;
          freemem_loop fuel n_available n_reserved reserved a (r + 1)
        else
          assert_m (bool_decide (rg_start res < rg_end av)) ;;
          insert_region (set_rg_end (rg_start res) av) ;;
          if bool_decide (rg_end av > rg_end res) then
            avail_set a (set_rg_start (rg_end res) av) ;;
            reserve_region (pptr_to_paddr_reg res) ;;
            freemem_loop fuel n_available n_reserved reserved a (r + 1)
          else freemem_loop fuel n_available n_reserved reserved (a + 1) r
      else mret (a, r)
  end.
(* src: kernel/src/boot/mm.rs 95-100 rust_init_freemem *)
Definition reserve_rest (n_reserved : Z) (reserved : list region_t) (r : Z) : ST mm_t unit :=
  for_range (Z.to_nat (n_reserved - r)) r (fun r =>
    res ← lift (idx reserved r);
    when (bool_decide (rg_start res < rg_end res)) (reserve_region (pptr_to_paddr_reg res) ;; skip)).
(* src: kernel/src/boot/mm.rs 101-106 rust_init_freemem *)
Definition insert_rest (n_available a : Z) : ST mm_t unit :=
  for_range (Z.to_nat (n_available - a)) a (fun a =>
    av ← avail_get a;
    when (bool_decide (rg_start av < rg_end av)) (insert_region av ;; skip)).
(* src: kernel/src/boot/mm.rs 25-116 rust_init_freemem *)
Definition rust_init_freemem (n_available : Z) (available : list region_t) (n_reserved : Z)
    (reserved : list region_t) : ST mm_t bool :=
  ok ← check_available_memory n_available available;
  ok ← (if ok : bool then check_reserved_memory n_reserved reserved else mret false);
  if negb ok then mret false
  else
    init_regions n_available available ;;
    ar ← freemem_loop (S (Z.to_nat n_available + Z.to_nat n_reserved)) n_available n_reserved reserved 0 0;
    reserve_rest n_reserved reserved ar.2 ;;
    insert_rest n_available ar.1 ;;
    l ← gets freemem;
    last ← free_get (wsub (Z.of_nat (length l)) 1);
    mret (is_reg_empty last).

(** [ki_end] is a link-time address; the boot loader's regions are arguments. *)
Definition res_reg_set (i : Z) (r : region_t) : ST mm_t unit :=
  l ← gets res_reg; l ← lift (upd l i r); modify (set_res_reg l).
(* src: kernel/src/arch/aarch64/platform.rs 57-99 init_freemem *)
Definition init_freemem (ki_end n_avail : Z) (avail_p_regs : list region_t) (ui_p_reg dtb_p_reg : region_t)
    : ST mm_t bool :=
  res_reg_set 0 (Region (paddr_to_pptr (kpptr_to_paddr KERNEL_ELF_BASE))
    (paddr_to_pptr (kpptr_to_paddr ki_end))) ;;
  let index := 1 in
  o ← (if rg_start dtb_p_reg <>w 0 then
         if bool_decide (index >= NUM_RESERVED_REGIONS) then mret None
         else res_reg_set index (paddr_to_pptr_reg dtb_p_reg) ;; mret (Some (index + 1))
       else mret (Some index));
  match o with
  | None => mret false
  | Some index =>
      o ← (if bool_decide (rg_start ui_p_reg < PADDR_TOP) then
             if bool_decide (index >= NUM_RESERVED_REGIONS) then mret None
             else res_reg_set index (paddr_to_pptr_reg ui_p_reg) ;; mret (Some (index + 1))
           else reserve_region ui_p_reg ;; mret (Some index));
      match o with
      | None => mret false
      | Some index =>
          l ← gets res_reg;
          rust_init_freemem n_avail avail_p_regs index l
      end
  end.
