(* ===== verification/KWindow.v ===== *)
(** * Boot: the kernel window

    The page tables of the kernel itself ([sel4_vspace/src/arch/aarch64]:
    [interface.rs], [boot.rs], [device.rs]): four static tables, the loop that
    maps physical memory at [PPTR_BASE], and the mapping of the device frames,
    which also reserves their memory.  The addresses of the tables are known
    when the kernel is linked. *)

From stdpp Require Import base numbers gmap list.
From S2P Require Import Prelude Bitfield Common Cap DList CSpace Sched State Vspace BootMem.
Local Open Scope Z_scope.
Local Open Scope krn_scope.

(* src: sel4_common/src/sel4_config.rs 46-46 seL4_LargePageBits *)
Definition seL4_LargePageBits : Z := 21.
(* src: sel4_common/src/sel4_config.rs 15-15 PAGE_BITS *)
Definition PAGE_BITS : Z := seL4_PageBits.
(* src: sel4_vspace/src/arch/aarch64/utils.rs 13-13 KPT_LEVELS *)
Definition KPT_LEVELS : Z := 4.
(* src: sel4_vspace/src/arch/aarch64/utils.rs 45-48 KPT_LEVEL_SHIFT *)
Definition KPT_LEVEL_SHIFT (n : Z) : Z :=
  wadd (wmul PT_INDEX_BITS (wsub (wsub KPT_LEVELS 1) n)) seL4_PageBits.
(* src: sel4_vspace/src/arch/aarch64/utils.rs 81-83 VAddr::GET_KPT_INDEX *)
Definition GET_KPT_INDEX (vaddr n : Z) : Z := wshr vaddr (KPT_LEVEL_SHIFT n) &&& MASK PT_INDEX_BITS.

(** ** The tables *)
(* src: sel4_vspace/src/arch/aarch64/interface.rs 17-17 PageAlignedLen *)
Definition PageAlignedLen : Z := BIT PT_INDEX_BITS.
(** [armKSGlobalKernelPDs] is an array of tables. *)
(* src: sel4_vspace/src/arch/aarch64/interface.rs 44-44 armKSGlobalKernelPGD *)
Record kpt_t := Kpt { kPGD : list Z; kPUD : list Z; kPDs : list (list Z); kPT : list Z }.
#[export] Instance kpt_eq_dec : EqDecision kpt_t.
Proof. solve_decision. Defined.
(* src: sel4_vspace/src/arch/aarch64/interface.rs 23-25 PageAligned::new *)
Definition PageAligned_new {A} (v : A) : list A := replicate (Z.to_nat PageAlignedLen) v.
(* src: sel4_vspace/src/arch/aarch64/interface.rs 78-80 armKSGlobalKernelPDs *)
Definition kpt_init : kpt_t :=
  Kpt (PageAligned_new 0) (PageAligned_new 0) (PageAligned_new (PageAligned_new 0)) (PageAligned_new 0).
Definition set_kPGD v t := Kpt v (kPUD t) (kPDs t) (kPT t).
Definition set_kPUD v t := Kpt (kPGD t) v (kPDs t) (kPT t).
Definition set_kPDs v t := Kpt (kPGD t) (kPUD t) v (kPT t).
Definition set_kPT v t := Kpt (kPGD t) (kPUD t) (kPDs t) v.

(** The link-time addresses of the tables. *)
Class KernelLink := {
  armKSGlobalKernelPGD : Z;
  armKSGlobalKernelPUD : Z;
  armKSGlobalKernelPDs : Z;
  armKSGlobalKernelPT : Z }.

(* src: sel4_vspace/src/arch/aarch64/interface.rs 52-56 set_kernel_page_global_directory_by_index *)
Definition set_kernel_page_global_directory_by_index (idx pgde : Z) : ST kpt_t unit :=
  t ← gets kPGD; t ← lift (upd t idx pgde); modify (set_kPGD t).
(* src: sel4_vspace/src/arch/aarch64/interface.rs 68-72 set_kernel_page_upper_directory_by_index *)
Definition set_kernel_page_upper_directory_by_index (idx pude : Z) : ST kpt_t unit :=
  t ← gets kPUD; t ← lift (upd t idx pude); modify (set_kPUD t).
(* src: sel4_vspace/src/arch/aarch64/interface.rs 88-92 set_kernel_page_directory_by_index *)
Definition set_kernel_page_directory_by_index (idx1 idx2 pde : Z) : ST kpt_t unit :=
  ts ← gets kPDs; t ← lift (idx ts idx1); t ← lift (upd t idx2 pde);
  ts ← lift (upd ts idx1 t); modify (set_kPDs ts).
(* src: sel4_vspace/src/arch/aarch64/interface.rs 113-117 set_kernel_page_table_by_index *)
Definition set_kernel_page_table_by_index (idx pte : Z) : ST kpt_t unit :=
  t ← gets kPT; t ← lift (upd t idx pte); modify (set_kPT t).

Section window.
Context `{KernelLink}.

(* src: sel4_vspace/src/arch/aarch64/interface.rs 47-49 get_kernel_page_global_directory_base *)
Definition get_kernel_page_global_directory_base : Z := armKSGlobalKernelPGD.
(* src: sel4_vspace/src/arch/aarch64/interface.rs 63-65 get_kernel_page_upper_directory_base *)
Definition get_kernel_page_upper_directory_base : Z := armKSGlobalKernelPUD.
(** The index into the array of tables is checked. *)
(* src: sel4_vspace/src/arch/aarch64/interface.rs 83-85 get_kernel_page_directory_base_by_index *)
Definition get_kernel_page_directory_base_by_index (i : Z) : ST kpt_t Z :=
  ts ← gets kPDs; _ ← lift (idx ts i); mret (wadd armKSGlobalKernelPDs (wmul i (BIT seL4_PageBits))).
(* src: sel4_vspace/src/arch/aarch64/interface.rs 108-110 get_kernel_page_table_base *)
Definition get_kernel_page_table_base : Z := armKSGlobalKernelPT.

(** ** The window *)
(* src: sel4_vspace/src/arch/aarch64/boot.rs 84-91 rust_map_kernel_window *)
Definition map_upper_directory (lo hi : Z) : ST kpt_t unit :=
  for_range (Z.to_nat (hi - lo)) lo (fun idx =>
    pd ← get_kernel_page_directory_base_by_index idx;
    set_kernel_page_upper_directory_by_index idx (pte_new_table (kpptr_to_paddr pd))).
(* src: sel4_vspace/src/arch/aarch64/boot.rs 93-104 rust_map_kernel_window *)
Fixpoint map_window_loop (fuel : nat) (vaddr paddr : Z) : ST kpt_t unit :=
  match fuel with
  | O => no_fuel
  | S fuel =>
      if bool_decide (paddr < PADDR_TOP) then
        set_kernel_page_directory_by_index (GET_KPT_INDEX vaddr 1) (GET_KPT_INDEX vaddr 2)
          (pte_new_page 1 paddr 0 1 0 0 mair_NORMAL) ;;
        map_window_loop fuel (wadd vaddr (BIT seL4_LargePageBits)) (wadd paddr (BIT seL4_LargePageBits))
      else skip
  end.
(** One round per large page of the window. *)
Definition window_rounds : nat := Z.to_nat ((PADDR_TOP - PADDR_BASE) / 2 ^ seL4_LargePageBits).

(** Everything but the devices. *)
(* src: sel4_vspace/src/arch/aarch64/boot.rs 77-126 rust_map_kernel_window *)
Definition map_window : ST kpt_t unit :=
  set_kernel_page_global_directory_by_index (GET_KPT_INDEX PPTR_BASE 0)
    (pte_new_table (kpptr_to_paddr get_kernel_page_upper_directory_base)) ;;
  map_upper_directory (GET_KPT_INDEX PPTR_BASE 1) (GET_KPT_INDEX PPTR_TOP 1) ;;
  map_window_loop (S window_rounds) PPTR_BASE PADDR_BASE ;;
  last ← get_kernel_page_directory_base_by_index (wsub (BIT PUD_INDEX_BITS) 1);
  set_kernel_page_upper_directory_by_index (GET_KPT_INDEX PPTR_TOP 1)
    (pte_new_table (kpptr_to_paddr last)) ;;
  set_kernel_page_directory_by_index (wsub (BIT PUD_INDEX_BITS) 1) (wsub (BIT PUD_INDEX_BITS) 1)
    (pte_new_table (kpptr_to_paddr get_kernel_page_table_base)).

(* src: sel4_vspace/src/structures.rs 64-66 vm_attributes_t::get_page_cacheable *)
Definition get_page_cacheable (attr : Z) : Z := attr &&& 1.
(* src: sel4_vspace/src/arch/aarch64/boot.rs 132-160 map_kernel_frame *)
Definition map_kernel_frame (paddr vaddr : Z) (vm_rights : vm_rights_t) (attributes : Z) : ST kpt_t unit :=
  let attr_index := if get_page_cacheable attributes <>w 0 then mair_NORMAL else mair_DEVICE_nGnRnE in
  let shareable := 0 in
  set_kernel_page_table_by_index (GET_KPT_INDEX vaddr 3)
    (pte_new_4k_page 1 paddr 0 1 shareable (wshr (ap_from_vm_rights_t vm_rights) 6) attr_index).

(** ** Devices *)
(* src: sel4_vspace/src/arch/aarch64/device.rs 6-6 KDEV_BASE *)
Definition KDEV_BASE : Z := 0xFFFFFFFFC0000000.
(* src: sel4_vspace/src/arch/aarch64/device.rs 11-17 kernel_frame_t *)
Record kernel_frame_t := KernelFrame {
  kf_paddr : Z; kf_pptr : Z; kf_armExecuteNever : Z; kf_userAvailable : Z }.
(* src: sel4_vspace/src/arch/aarch64/device.rs 31-50 kernel_device_frames *)
Definition kernel_device_frames : list kernel_frame_t :=
  [KernelFrame 0x9000000 KDEV_BASE 1 1;
   KernelFrame 0x8000000 (KDEV_BASE + 0x1000) 1 0;
   KernelFrame 0x8010000 (KDEV_BASE + 0x2000) 1 0].

(** The tables and the memory bookkeeping of [ndks_boot]. *)
Record kw_t := Kw { kw_pt : kpt_t; kw_mm : mm_t }.
Definition set_kw_pt v w := Kw v (kw_mm w).
Definition set_kw_mm v w := Kw (kw_pt w) v.
Definition on_kpt {A} : ST kpt_t A -> ST kw_t A := zoom kw_pt set_kw_pt.
Definition on_mm {A} : ST mm_t A -> ST kw_t A := zoom kw_mm set_kw_mm.

(* src: sel4_vspace/src/arch/aarch64/device.rs 55-67 map_kernel_devices *)
Definition map_kernel_device (f : kernel_frame_t) : ST kw_t unit :=
  on_kpt (map_kernel_frame (kf_paddr f) (kf_pptr f) VMKernelOnly (kf_armExecuteNever f)) ;;
  when (kf_userAvailable f =w 0)
    (on_mm (reserve_region (Region (kf_paddr f) (wadd (kf_paddr f) (BIT PAGE_BITS)))) ;; skip).
(* src: sel4_vspace/src/arch/aarch64/device.rs 52-70 map_kernel_devices *)
Definition map_kernel_devices : ST kw_t unit :=
  foldr (fun f k => map_kernel_device f ;; k) skip kernel_device_frames.
(* src: sel4_vspace/src/arch/aarch64/boot.rs 77-129 rust_map_kernel_window *)
Definition rust_map_kernel_window : ST kw_t unit :=
  on_kpt map_window ;; map_kernel_devices.

(** ** The translation

    What the hardware makes of the tables, for an address translated by the
    kernel's base register: four levels of 512 entries; the low two bits of an
    entry say table (3) or, above the last level, block (1). *)
(** The table at a physical address. *)
Definition kpt_table (t : kpt_t) (pa : Z) : option (list Z) :=
  if pa =w kpptr_to_paddr armKSGlobalKernelPGD then Some (kPGD t)
  else if pa =w kpptr_to_paddr armKSGlobalKernelPUD then Some (kPUD t)
  else if pa =w kpptr_to_paddr armKSGlobalKernelPT then Some (kPT t)
  else
    let off := pa - kpptr_to_paddr armKSGlobalKernelPDs in
    if bool_decide (0 <= off) && (off `mod` 4096 =w 0) then kPDs t !! Z.to_nat (off / 4096) else None.
(** [levels] are left below this one. *)
Fixpoint mmu_walk (t : kpt_t) (levels : nat) (pa vaddr : Z) : option (Z * Z) :=
  let bits := 12 + 9 * Z.of_nat levels in
  tab ← kpt_table t pa;
  e ← tab !! Z.to_nat ((vaddr / 2 ^ bits) `mod` 512);
  let base := next_level_paddr e in
  match levels with
  | O => if e &&& 3 =w 3 then Some (base + vaddr `mod` 2 ^ bits, pte_attr e) else None
  | S levels' =>
      if e &&& 3 =w 3 then mmu_walk t levels' base vaddr
      else if (e &&& 3 =w 1) && bool_decide (levels < 3)%nat
      then Some (base + vaddr `mod` 2 ^ bits, pte_attr e)
      else None
  end.
(** The physical address and the attributes of a kernel address. *)
Definition kernel_translate (t : kpt_t) (vaddr : Z) : option (Z * Z) :=
  mmu_walk t 3 (kpptr_to_paddr armKSGlobalKernelPGD) vaddr.
End window.
