(* ===== verification/BootRoot.v ===== *)
(** * Boot: the root server

    [boot/root_server.rs], [write_slot] and [provide_cap] of [boot/utils.rs],
    and the mappings of the first address space
    ([sel4_vspace/src/arch/aarch64/boot.rs], [pagetable.rs]): the objects of the
    first thread are cut out of the free memory, and its capabilities and page
    tables are written.

    [ndks_boot] is split: its regions are in the [mm_t] of [kw_t], the boot
    information frame is an object of its own at the address [bi_frame].  The
    memory an object is put in is not cleared by the kernel: the model turns the
    words there into the object (as for [Untyped_Retype]). *)

From stdpp Require Import base numbers gmap list.
From S2P Require Import Prelude Bitfield Common Cap DList CSpace Sched State Vspace Threads Delete Ipc Finalise Syscall CNodeInv UntypedInv MmuInv BootMem KWindow.
Local Open Scope Z_scope.
Local Open Scope krn_scope.

(** ** Constants *)
(* src: kernel/src/config.rs 39-39 CONFIG_ROOT_CNODE_SIZE_BITS *)
Definition CONFIG_ROOT_CNODE_SIZE_BITS : Z := 13.
(* src: kernel/src/config.rs 41-41 seL4_VSpaceBits *)
Definition seL4_VSpaceBits : Z := 12.
(* src: kernel/src/config.rs 42-42 BI_FRAME_SIZE_BITS *)
Definition BI_FRAME_SIZE_BITS : Z := 12.
(* src: kernel/src/config.rs 128-128 CONFIG_MAX_NUM_BOOTINFO_UNTYPED_CAPS *)
Definition CONFIG_MAX_NUM_BOOTINFO_UNTYPED_CAPS : Z := 230.
(* src: kernel/src/config.rs 46-46 seL4_CapInitThreadTCB *)
Definition seL4_CapInitThreadTCB : Z := 1.
(* src: kernel/src/config.rs 47-47 seL4_CapInitThreadCNode *)
Definition seL4_CapInitThreadCNode : Z := 2.
(* src: kernel/src/config.rs 48-48 seL4_CapInitThreadVspace *)
Definition seL4_CapInitThreadVspace : Z := 3.
(* src: kernel/src/config.rs 49-49 seL4_CapIRQControl *)
Definition seL4_CapIRQControl : Z := 4.
(* src: kernel/src/config.rs 50-50 seL4_CapASIDControl *)
Definition seL4_CapASIDControl : Z := 5.
(* src: kernel/src/config.rs 51-51 seL4_CapInitThreadASIDPool *)
Definition seL4_CapInitThreadASIDPool : Z := 6.
(* src: kernel/src/config.rs 54-54 seL4_CapBootInfoFrame *)
Definition seL4_CapBootInfoFrame : Z := 9.
(* src: kernel/src/config.rs 55-55 seL4_CapInitThreadIPCBuffer *)
Definition seL4_CapInitThreadIPCBuffer : Z := 10.
(* src: kernel/src/config.rs 56-56 seL4_CapDomain *)
Definition seL4_CapDomain : Z := 11.
(* src: kernel/src/config.rs 59-59 seL4_NumInitialCaps *)
Definition seL4_NumInitialCaps : Z := 14.
(* src: kernel/src/config.rs 9-9 PAGE_SIZE_BITS *)
Definition PAGE_SIZE_BITS : Z := 12.
(* src: kernel/src/config.rs 130-130 seL4_MaxPrio *)
Definition seL4_MaxPrio : Z := 255.
(* src: sel4_common/src/sel4_config.rs 92-92 CONFIG_MAX_NUM_NODES *)
Definition CONFIG_MAX_NUM_NODES : Z := 1.

(** ** The boot information *)
(* src: kernel/src/structures.rs 40-43 seL4_SlotRegion *)
Record seL4_SlotRegion := SlotRegion { sr_start : Z; sr_end : Z }.
(* src: kernel/src/structures.rs 47-52 seL4_UntypedDesc *)
Record seL4_UntypedDesc := UntypedDesc { ud_paddr : Z; ud_sizeBits : Z; ud_isDevice : Z }.
#[export] Instance slot_region_eq_dec : EqDecision seL4_SlotRegion.
Proof. solve_decision. Defined.
#[export] Instance untyped_desc_eq_dec : EqDecision seL4_UntypedDesc.
Proof. solve_decision. Defined.
#[export] Instance untyped_desc_inhabited : Inhabited seL4_UntypedDesc := populate (UntypedDesc 0 0 0).
(* src: kernel/src/structures.rs 56-72 seL4_BootInfo *)
Record seL4_BootInfo := BootInfo {
  bi_extraLen : Z; bi_nodeID : Z; bi_numNodes : Z; bi_numIOPTLevels : Z; bi_ipcBuffer : Z;
  bi_empty : seL4_SlotRegion; bi_sharedFrames : seL4_SlotRegion;
  bi_userImageFrames : seL4_SlotRegion; bi_userImagePaging : seL4_SlotRegion;
  bi_ioSpaceCaps : seL4_SlotRegion; bi_extraBIPages : seL4_SlotRegion;
  bi_initThreadCNodeSizeBits : Z; bi_initThreadDomain : Z;
  bi_untyped : seL4_SlotRegion; bi_untypedList : list seL4_UntypedDesc }.
(** A zeroed frame read as boot information. *)
Definition bootinfo_zero : seL4_BootInfo :=
  let r := SlotRegion 0 0 in
  BootInfo 0 0 0 0 0 r r r r r r 0 0 r
    (replicate (Z.to_nat CONFIG_MAX_NUM_BOOTINFO_UNTYPED_CAPS) (UntypedDesc 0 0 0)).
(** Its words. *)
Definition bootinfo_words : nat := Z.to_nat (21 + 2 * CONFIG_MAX_NUM_BOOTINFO_UNTYPED_CAPS).
Definition set_bi_empty v b := BootInfo (bi_extraLen b) (bi_nodeID b) (bi_numNodes b)
  (bi_numIOPTLevels b) (bi_ipcBuffer b) v (bi_sharedFrames b) (bi_userImageFrames b)
  (bi_userImagePaging b) (bi_ioSpaceCaps b) (bi_extraBIPages b) (bi_initThreadCNodeSizeBits b)
  (bi_initThreadDomain b) (bi_untyped b) (bi_untypedList b).
Definition set_bi_sharedFrames v b := BootInfo (bi_extraLen b) (bi_nodeID b) (bi_numNodes b)
  (bi_numIOPTLevels b) (bi_ipcBuffer b) (bi_empty b) v (bi_userImageFrames b)
  (bi_userImagePaging b) (bi_ioSpaceCaps b) (bi_extraBIPages b) (bi_initThreadCNodeSizeBits b)
  (bi_initThreadDomain b) (bi_untyped b) (bi_untypedList b).
Definition set_bi_userImageFrames v b := BootInfo (bi_extraLen b) (bi_nodeID b) (bi_numNodes b)
  (bi_numIOPTLevels b) (bi_ipcBuffer b) (bi_empty b) (bi_sharedFrames b) v
  (bi_userImagePaging b) (bi_ioSpaceCaps b) (bi_extraBIPages b) (bi_initThreadCNodeSizeBits b)
  (bi_initThreadDomain b) (bi_untyped b) (bi_untypedList b).
Definition set_bi_userImagePaging v b := BootInfo (bi_extraLen b) (bi_nodeID b) (bi_numNodes b)
  (bi_numIOPTLevels b) (bi_ipcBuffer b) (bi_empty b) (bi_sharedFrames b) (bi_userImageFrames b)
  v (bi_ioSpaceCaps b) (bi_extraBIPages b) (bi_initThreadCNodeSizeBits b)
  (bi_initThreadDomain b) (bi_untyped b) (bi_untypedList b).
Definition set_bi_extraBIPages v b := BootInfo (bi_extraLen b) (bi_nodeID b) (bi_numNodes b)
  (bi_numIOPTLevels b) (bi_ipcBuffer b) (bi_empty b) (bi_sharedFrames b) (bi_userImageFrames b)
  (bi_userImagePaging b) (bi_ioSpaceCaps b) v (bi_initThreadCNodeSizeBits b)
  (bi_initThreadDomain b) (bi_untyped b) (bi_untypedList b).
Definition set_bi_untyped v b := BootInfo (bi_extraLen b) (bi_nodeID b) (bi_numNodes b)
  (bi_numIOPTLevels b) (bi_ipcBuffer b) (bi_empty b) (bi_sharedFrames b) (bi_userImageFrames b)
  (bi_userImagePaging b) (bi_ioSpaceCaps b) (bi_extraBIPages b) (bi_initThreadCNodeSizeBits b)
  (bi_initThreadDomain b) v (bi_untypedList b).
Definition set_bi_untypedList v b := BootInfo (bi_extraLen b) (bi_nodeID b) (bi_numNodes b)
  (bi_numIOPTLevels b) (bi_ipcBuffer b) (bi_empty b) (bi_sharedFrames b) (bi_userImageFrames b)
  (bi_userImagePaging b) (bi_ioSpaceCaps b) (bi_extraBIPages b) (bi_initThreadCNodeSizeBits b)
  (bi_initThreadDomain b) (bi_untyped b) v.

(** ** The state of the boot *)
(* src: kernel/src/structures.rs 86-95 rootserver_mem_t *)
Record rootserver_mem_t := Rootserver {
  rs_cnode : Z; rs_vspace : Z; rs_asid_pool : Z; rs_ipc_buf : Z; rs_boot_info : Z;
  rs_extra_bi : Z; rs_tcb : Z; rs_paging : region_t }.
(* src: kernel/src/boot/root_server.rs 34-46 rootserver *)
Definition rootserver_init : rootserver_mem_t := Rootserver 0 0 0 0 0 0 0 (Region 0 0).
Definition set_rs_cnode v r := Rootserver v (rs_vspace r) (rs_asid_pool r) (rs_ipc_buf r)
  (rs_boot_info r) (rs_extra_bi r) (rs_tcb r) (rs_paging r).
Definition set_rs_vspace v r := Rootserver (rs_cnode r) v (rs_asid_pool r) (rs_ipc_buf r)
  (rs_boot_info r) (rs_extra_bi r) (rs_tcb r) (rs_paging r).
Definition set_rs_asid_pool v r := Rootserver (rs_cnode r) (rs_vspace r) v (rs_ipc_buf r)
  (rs_boot_info r) (rs_extra_bi r) (rs_tcb r) (rs_paging r).
Definition set_rs_ipc_buf v r := Rootserver (rs_cnode r) (rs_vspace r) (rs_asid_pool r) v
  (rs_boot_info r) (rs_extra_bi r) (rs_tcb r) (rs_paging r).
Definition set_rs_boot_info v r := Rootserver (rs_cnode r) (rs_vspace r) (rs_asid_pool r)
  (rs_ipc_buf r) v (rs_extra_bi r) (rs_tcb r) (rs_paging r).
Definition set_rs_extra_bi v r := Rootserver (rs_cnode r) (rs_vspace r) (rs_asid_pool r)
  (rs_ipc_buf r) (rs_boot_info r) v (rs_tcb r) (rs_paging r).
Definition set_rs_tcb v r := Rootserver (rs_cnode r) (rs_vspace r) (rs_asid_pool r)
  (rs_ipc_buf r) (rs_boot_info r) (rs_extra_bi r) v (rs_paging r).
Definition set_rs_paging v r := Rootserver (rs_cnode r) (rs_vspace r) (rs_asid_pool r)
  (rs_ipc_buf r) (rs_boot_info r) (rs_extra_bi r) (rs_tcb r) v.

Record boot_t := Boot {
  b_k : kst; b_kw : kw_t; b_bi : gmap Z seL4_BootInfo;
  bi_frame : Z; slot_pos_cur : Z;
  rootserver_mem : region_t; rootserver : rootserver_mem_t; ksNumCPUs : Z }.
Definition set_b_k v b := Boot v (b_kw b) (b_bi b) (bi_frame b) (slot_pos_cur b) (rootserver_mem b) (rootserver b) (ksNumCPUs b).
Definition set_b_kw v b := Boot (b_k b) v (b_bi b) (bi_frame b) (slot_pos_cur b) (rootserver_mem b) (rootserver b) (ksNumCPUs b).
Definition set_b_bi v b := Boot (b_k b) (b_kw b) v (bi_frame b) (slot_pos_cur b) (rootserver_mem b) (rootserver b) (ksNumCPUs b).
Definition set_bi_frame v b := Boot (b_k b) (b_kw b) (b_bi b) v (slot_pos_cur b) (rootserver_mem b) (rootserver b) (ksNumCPUs b).
Definition set_slot_pos_cur v b := Boot (b_k b) (b_kw b) (b_bi b) (bi_frame b) v (rootserver_mem b) (rootserver b) (ksNumCPUs b).
Definition set_rootserver_mem v b := Boot (b_k b) (b_kw b) (b_bi b) (bi_frame b) (slot_pos_cur b) v (rootserver b) (ksNumCPUs b).
Definition set_rootserver v b := Boot (b_k b) (b_kw b) (b_bi b) (bi_frame b) (slot_pos_cur b) (rootserver_mem b) v (ksNumCPUs b).
Definition set_ksNumCPUs v b := Boot (b_k b) (b_kw b) (b_bi b) (bi_frame b) (slot_pos_cur b) (rootserver_mem b) (rootserver b) v.
Definition on_k {A} : ST kst A -> ST boot_t A := zoom b_k set_b_k.
Definition on_kw {A} : ST kw_t A -> ST boot_t A := zoom b_kw set_b_kw.
Definition on_b_mm {A} (m : ST mm_t A) : ST boot_t A := on_kw (on_mm m).
Definition rs_mod (f : rootserver_mem_t -> rootserver_mem_t) : ST boot_t unit :=
  modify (fun b => set_rootserver (f (rootserver b)) b).
(** A write to a field of the boot information at [bi_frame]. *)
Definition bi_mod (f : seL4_BootInfo -> seL4_BootInfo) : ST boot_t unit :=
  p ← gets bi_frame; zoom b_bi set_b_bi (store_with p f).

(** ** Slots *)
(* src: kernel/src/boot/utils.rs 71-79 write_slot *)
Definition write_slot (ptr : Z) (c : list Z) : ST kst unit :=
  slot_mod ptr (set_cap c) ;;
  slot_mod ptr (set_mdb mdb_node_default) ;;
  slot_mod ptr (mdb_set mdbRevocable 1) ;;
  slot_mod ptr (mdb_set mdbFirstBadged 1).
(** [(cap.get_cap_ptr() as *mut cte_t).add(i)] *)
Definition cnode_slot (c : list Z) (i : Z) : ST boot_t Z := p ← lift (get_cap_ptr c); mret (cte_add p i).
(* src: kernel/src/boot/utils.rs 81-95 provide_cap *)
Definition provide_cap (root_cnode_cap c : list Z) : ST boot_t bool :=
  pos ← gets slot_pos_cur;
  if bool_decide (pos >= BIT CONFIG_ROOT_CNODE_SIZE_BITS) then mret false
  else
    p ← cnode_slot root_cnode_cap pos;
    on_k (write_slot p c) ;;
    modify (set_slot_pos_cur (wadd pos 1)) ;;
    mret true.

(** ** Sizes *)
(* src: kernel/src/boot/utils.rs 48-52 get_n_paging *)
Definition get_n_paging (v_reg : region_t) (bits : Z) : Z :=
  let start := ROUND_DOWN (rg_start v_reg) bits in
  let end_ := ROUND_UP (rg_end v_reg) bits in
  wsub end_ start / BIT bits.
(* src: kernel/src/boot/utils.rs 64-69 arch_get_n_paging *)
Definition arch_get_n_paging (it_v_reg : region_t) : Z :=
  wadd (wadd (get_n_paging it_v_reg (3 * PT_INDEX_BITS + PAGE_SIZE_BITS))
             (get_n_paging it_v_reg (PT_INDEX_BITS + PAGE_SIZE_BITS + PT_INDEX_BITS)))
       (get_n_paging it_v_reg (PT_INDEX_BITS + PAGE_SIZE_BITS)).
(* src: kernel/src/boot/root_server.rs 301-314 calculate_rootserver_size *)
Definition calculate_rootserver_size (it_v_reg : region_t) (extra_bi_size_bits : Z) : Z :=
  let size := BIT (CONFIG_ROOT_CNODE_SIZE_BITS + seL4_SlotBits) in
  let size := wadd size (BIT seL4_TCBBits) in
  let size := wadd size (BIT seL4_PageBits) in
  let size := wadd size (BIT BI_FRAME_SIZE_BITS) in
  let size := wadd size (BIT seL4_ASIDPoolBits) in
  let size := wadd size (if bool_decide (extra_bi_size_bits > 0) then BIT extra_bi_size_bits else 0) in
  let size := wadd size (BIT seL4_VSpaceBits) in
  wadd size (wmul (arch_get_n_paging it_v_reg) (BIT seL4_PageTableBits)).
(* src: kernel/src/boot/root_server.rs 316-328 rootserver_max_size_bits *)
Definition rootserver_max_size_bits (extra_bi_size_bits : Z) : Z :=
  let cnode_size_bits := CONFIG_ROOT_CNODE_SIZE_BITS + seL4_SlotBits in
  let maxx := if bool_decide (cnode_size_bits > seL4_VSpaceBits) then cnode_size_bits else seL4_VSpaceBits in
  if bool_decide (maxx > extra_bi_size_bits) then maxx else extra_bi_size_bits.

(** ** Allocation *)
(* src: kernel/src/boot/root_server.rs 330-338 alloc_rootserver_obj *)
Definition alloc_rootserver_obj (size_bits n : Z) : ST boot_t Z :=
  r ← gets rootserver_mem;
  let allocated := rg_start r in
  assert_m (allocated `mod` BIT size_bits =w 0) ;;
  let start := wadd (rg_start r) (wmul n (BIT size_bits)) in
  modify (set_rootserver_mem (Region start (rg_end r))) ;;
  assert_m (bool_decide (start <= rg_end r)) ;;
  mret allocated.
(* src: kernel/src/boot/root_server.rs 341-346 it_alloc_paging *)
Definition it_alloc_paging : ST boot_t Z :=
  rs ← gets rootserver;
  let allocated := rg_start (rs_paging rs) in
  let start := wadd allocated (BIT seL4_PageTableBits) in
  rs_mod (set_rs_paging (Region start (rg_end (rs_paging rs)))) ;;
  assert_m (bool_decide (start <= rg_end (rs_paging rs))) ;;
  mret allocated.
(* src: kernel/src/boot/root_server.rs 348-352 maybe_alloc_extra_bi *)
Definition maybe_alloc_extra_bi (cmp_size_bits extra_bi_size_bits : Z) : ST boot_t unit :=
  rs ← gets rootserver;
  when (bool_decide (extra_bi_size_bits >= cmp_size_bits) && (rs_extra_bi rs =w 0))
    (p ← alloc_rootserver_obj extra_bi_size_bits 1; rs_mod (set_rs_extra_bi p)).
(* src: kernel/src/boot/root_server.rs 354-378 create_rootserver_objects *)
Definition create_rootserver_objects (start : Z) (it_v_reg : region_t) (extra_bi_size_bits : Z) : ST boot_t unit :=
  let cnode_size_bits := CONFIG_ROOT_CNODE_SIZE_BITS + seL4_SlotBits in
  let max := rootserver_max_size_bits extra_bi_size_bits in
  let size := calculate_rootserver_size it_v_reg extra_bi_size_bits in
  modify (set_rootserver_mem (Region start (wadd start size))) ;;
  maybe_alloc_extra_bi max extra_bi_size_bits ;;
  p ← alloc_rootserver_obj cnode_size_bits 1; rs_mod (set_rs_cnode p) ;;
  maybe_alloc_extra_bi seL4_VSpaceBits extra_bi_size_bits ;;
  p ← alloc_rootserver_obj seL4_VSpaceBits 1; rs_mod (set_rs_vspace p) ;;
  maybe_alloc_extra_bi seL4_PageBits extra_bi_size_bits ;;
  p ← alloc_rootserver_obj seL4_ASIDPoolBits 1; rs_mod (set_rs_asid_pool p) ;;
  p ← alloc_rootserver_obj seL4_PageBits 1; rs_mod (set_rs_ipc_buf p) ;;
  p ← alloc_rootserver_obj BI_FRAME_SIZE_BITS 1; rs_mod (set_rs_boot_info p) ;;
  let n := arch_get_n_paging it_v_reg in
  p ← alloc_rootserver_obj seL4_PageTableBits n;
  rs_mod (set_rs_paging (Region p (wadd p (wmul n (BIT seL4_PageTableBits))))) ;;
  p ← alloc_rootserver_obj seL4_TCBBits 1; rs_mod (set_rs_tcb p) ;;
  r ← gets rootserver_mem;
  assert_m (rg_start r =w rg_end r).

(** The regions are searched from the last; a region that is too small moves
    one place up, into the empty entry above it. *)
(* src: kernel/src/boot/root_server.rs 253-257 root_server_mem_init *)
Fixpoint skip_empty (fuel : nat) (i : Z) : ST boot_t Z :=
  match fuel with
  | O => no_fuel
  | S fuel =>
      if i =w wmax then mret i
      else
        f ← on_b_mm (free_get i);
        if is_reg_empty f : bool then skip_empty fuel (wsub i 1) else mret i
  end.
(* src: kernel/src/boot/root_server.rs 258-286 root_server_mem_init *)
Fixpoint place_rootserver (fuel : nat) (i size max : Z) (it_v_reg : region_t) (extra_bi_size_bits : Z)
    : ST boot_t unit :=
  match fuel with
  | O => no_fuel
  | S fuel =>
      l ← gets (fun b => freemem (kw_mm (b_kw b)));
      let n := Z.of_nat (length l) in
      if (i <>w wmax) && bool_decide (i < n) then
        assert_m (bool_decide (i < wsub n 1)) ;;
        above ← on_b_mm (free_get (wadd i 1));
        assert_m (is_reg_empty above) ;;
        let empty_index := wadd i 1 in
        f ← on_b_mm (free_get i);
        let unaligned_start := wsub (rg_end f) size in
        let start := ROUND_DOWN unaligned_start max in
        if bool_decide (unaligned_start <= rg_end f) && bool_decide (start >= rg_start f) then
          create_rootserver_objects start it_v_reg extra_bi_size_bits ;;
          on_b_mm (free_set empty_index (Region (wadd start size) (rg_end f))) ;;
          on_b_mm (free_set i (set_rg_end start f))
        else
          on_b_mm (free_set empty_index f) ;;
          on_b_mm (free_set i (Region 0 0)) ;;
          place_rootserver fuel (wsub i 1) size max it_v_reg extra_bi_size_bits
      else skip
  end.
(** One round per region, one to stop. *)
(* src: kernel/src/boot/root_server.rs 250-287 root_server_mem_init *)
Definition root_server_mem_init (it_v_reg : region_t) (extra_bi_size_bits : Z) : ST boot_t unit :=
  let size := calculate_rootserver_size it_v_reg extra_bi_size_bits in
  let max := rootserver_max_size_bits extra_bi_size_bits in
  l ← gets (fun b => freemem (kw_mm (b_kw b)));
  i ← skip_empty (S (length l)) (wsub (Z.of_nat (length l)) 1);
  place_rootserver (S (length l)) i size max it_v_reg extra_bi_size_bits.

(** ** The first address space *)
(* src: sel4_vspace/src/arch/aarch64/utils.rs 89-91 VAddr::pt_index *)
Definition pt_index (v : Z) : Z := wshr v 12 &&& 0x1ff.
(* src: sel4_vspace/src/arch/aarch64/utils.rs 94-96 VAddr::pd_index *)
Definition pd_index (v : Z) : Z := wshr v 21 &&& 0x1ff.
(* src: sel4_vspace/src/arch/aarch64/utils.rs 99-101 VAddr::pud_index *)
Definition pud_index (v : Z) : Z := wshr v 30 &&& 0x1ff.
(* src: sel4_vspace/src/arch/aarch64/utils.rs 104-106 VAddr::pgd_index *)
Definition pgd_index (v : Z) : Z := wshr v 39 &&& 0x1ff.
(** The slice is its address; the indices are below its length of 512. *)
(* src: sel4_vspace/src/arch/aarch64/utils.rs 112-119 page_slice *)
Definition page_slice (addr : Z) : ST kst Z :=
  assert_m (bool_decide (addr >= KERNEL_ELF_BASE_OFFSET)) ;; mret addr.
(* src: sel4_vspace/src/arch/aarch64/utils.rs 237-239 PTE::next_level_slice *)
Definition next_level_slice (p : Z) : ST kst Z :=
  e ← word_get p; page_slice (paddr_to_pptr (next_level_paddr e)).
(* src: sel4_vspace/src/arch/aarch64/boot.rs 23-27 find_type *)
Inductive find_type : Type := FindPDE | FindPUDE | FindPTE.
#[export] Instance find_type_eq_dec : EqDecision find_type.
Proof. solve_decision. Defined.
(* src: sel4_vspace/src/arch/aarch64/boot.rs 217-230 find_pt *)
Definition find_pt (vspace_root vptr : Z) (ftype : find_type) : ST kst Z :=
  pgd ← page_slice vspace_root;
  pud ← next_level_slice (pte_add pgd (pgd_index vptr));
  if bool_decide (ftype = FindPUDE) then mret (pte_add pud (pud_index vptr))
  else
    pd ← next_level_slice (pte_add pud (pud_index vptr));
    if bool_decide (ftype = FindPDE) then mret (pte_add pd (pd_index vptr))
    else
      pt ← next_level_slice (pte_add pd (pd_index vptr));
      mret (pte_add pt (pt_index vptr)).
(** An update of the entry at an address. *)
Definition pte_mod (p : Z) (f : Z -> Z) : ST kst unit := on_mem (store_with p f).
(* src: sel4_vspace/src/arch/aarch64/boot.rs 164-173 map_it_pt_cap *)
Definition map_it_pt_cap (vspace_cap pt_cap : list Z) : ST kst unit :=
  vspace_root ← lift (get_cap_ptr vspace_cap);
  let vptr := bf_get pt_mapped_address pt_cap in
  let pt := bf_get pt_base_ptr pt_cap in
  p ← find_pt vspace_root vptr FindPDE;
  target_pte ← ref p;
  pte_mod target_pte (set_next_level_paddr (pptr_to_paddr pt)) ;;
  pte_mod target_pte (pte_set_attr 3).
(* src: sel4_vspace/src/arch/aarch64/boot.rs 178-187 map_it_pd_cap *)
Definition map_it_pd_cap (vspace_cap pd_cap : list Z) : ST kst unit :=
  root ← lift (get_cap_ptr vspace_cap);
  pgd ← page_slice root;
  let pd_addr := bf_get pt_base_ptr pd_cap in
  let vptr := bf_get pt_mapped_address pd_cap in
  assert_m (bf_get pt_is_mapped pd_cap =w 1) ;;
  e ← word_get (pte_add pgd (pgd_index vptr));
  assert_m (pte_attr e =w 3) ;;
  pud ← next_level_slice (pte_add pgd (pgd_index vptr));
  word_set (pte_add pud (pud_index vptr)) (pte_new_page_sign (pptr_to_paddr pd_addr) 3).
(* src: sel4_vspace/src/arch/aarch64/boot.rs 190-198 map_it_pud_cap *)
Definition map_it_pud_cap (vspace_cap pud_cap : list Z) : ST kst unit :=
  root ← lift (get_cap_ptr vspace_cap);
  pgd ← page_slice root;
  let pud_addr := bf_get pt_base_ptr pud_cap in
  let vptr := bf_get pt_mapped_address pud_cap in
  assert_m (bf_get pt_is_mapped pud_cap =w 1) ;;
  word_set (pte_add pgd (pgd_index vptr)) (pte_new_page_sign (pptr_to_paddr pud_addr) 3).
(* src: sel4_vspace/src/arch/aarch64/boot.rs 203-213 map_it_frame_cap *)
Definition map_it_frame_cap (vspace_cap frame_cap : list Z) (exec : bool) : ST kst unit :=
  root ← lift (get_cap_ptr vspace_cap);
  p ← find_pt root (bf_get frame_mapped_address frame_cap) FindPTE;
  pte ← ref p;
  pte_mod pte (pte_set_attr (pte_new_4k_page (b2w (negb exec)) 0 1 1 0 1 0)) ;;
  pte_mod pte (set_next_level_paddr (pptr_to_paddr (bf_get frame_base_ptr frame_cap))).
(* src: sel4_vspace/src/boot.rs 7-11 create_it_pt_cap *)
Definition create_it_pt_cap (vspace_cap : list Z) (pptr vptr asid : Z) : ST kst (list Z) :=
  let c := new_page_table_cap asid pptr 1 vptr in map_it_pt_cap vspace_cap c ;; mret c.
(* src: sel4_vspace/src/arch/aarch64/boot.rs 234-238 create_it_pd_cap *)
Definition create_it_pd_cap (vspace_cap : list Z) (pptr vptr asid : Z) : ST kst (list Z) :=
  let c := new_page_table_cap asid pptr 1 vptr in map_it_pd_cap vspace_cap c ;; mret c.
(* src: sel4_vspace/src/arch/aarch64/pagetable.rs 14-18 create_it_pud_cap *)
Definition create_it_pud_cap (vspace_cap : list Z) (pptr vptr asid : Z) : ST kst (list Z) :=
  let c := new_page_table_cap asid pptr 1 vptr in map_it_pud_cap vspace_cap c ;; mret c.
(* src: sel4_vspace/src/arch/aarch64/boot.rs 248-263 create_it_frame_cap *)
Definition create_it_frame_cap (pptr vptr asid : Z) (use_large : bool) : list Z :=
  let frame_size := if use_large then ARM_Large_Page else ARM_Small_Page in
  new_frame_cap 0 (vm_rights_to_usize VMReadWrite) vptr frame_size asid pptr.
(* src: sel4_vspace/src/arch/aarch64/boot.rs 242-244 create_unmapped_it_frame_cap *)
Definition create_unmapped_it_frame_cap (pptr : Z) (use_large : bool) : list Z :=
  create_it_frame_cap pptr 0 0 use_large.
(* src: sel4_vspace/src/arch/aarch64/boot.rs 266-277 create_mapped_it_frame_cap *)
Definition create_mapped_it_frame_cap (pd_cap : list Z) (pptr vptr asid : Z) (use_large exec : bool)
    : ST kst (list Z) :=
  let c := create_it_frame_cap pptr vptr asid use_large in map_it_frame_cap pd_cap c exec ;; mret c.

(** ** The capabilities of the first thread *)
(** The slots of the node are the memory they are put in. *)
(* src: kernel/src/boot/root_server.rs 289-299 create_root_cnode *)
Definition create_root_cnode : ST boot_t (list Z) :=
  rs ← gets rootserver;
  let c := new_cnode_cap CONFIG_ROOT_CNODE_SIZE_BITS (wsub wordBits CONFIG_ROOT_CNODE_SIZE_BITS) 0 (rs_cnode rs) in
  on_k (take_slots (Z.to_nat (BIT CONFIG_ROOT_CNODE_SIZE_BITS)) (rs_cnode rs)) ;;
  on_k (write_slot (cte_add (rs_cnode rs) seL4_CapInitThreadCNode) c) ;;
  mret c.
(* src: kernel/src/boot/root_server.rs 380-393 create_domain_cap *)
Definition create_domain_cap (root_cnode_cap : list Z) : ST boot_t unit :=
  assert_m (bool_decide (ksDomScheduleLength > 0)) ;;
  for_range (Z.to_nat ksDomScheduleLength) 0 (fun i =>
    d ← lift (idx ksDomSchedule i);
    assert_m (bool_decide (ds_domain d < CONFIG_NUM_DOMAINS)) ;;
    assert_m (bool_decide (ds_length d > 0))) ;;
  p ← cnode_slot root_cnode_cap seL4_CapDomain;
  on_k (write_slot p new_domain_cap).
(* src: kernel/src/boot/root_server.rs 395-411 init_irqs *)
Definition init_irqs (root_cnode_cap : list Z) : ST boot_t unit :=
  for_range (Z.to_nat (maxIRQ + 1)) 0 (fun i =>
    when (i <>w irqInvalid) (on_k (setIRQState IRQInactive i))) ;;
  on_k (setIRQState IRQTimer KERNEL_TIMER_IRQ) ;;
  p ← cnode_slot root_cnode_cap seL4_CapIRQControl;
  on_k (write_slot p new_irq_control_cap).

(** One round per table; [create] makes the table and its capability. *)
(* src: kernel/src/boot/root_server.rs 455-463 rust_create_it_address_space *)
Fixpoint create_tables (fuel : nat) (create : list Z -> Z -> Z -> Z -> ST kst (list Z))
    (root_cnode_cap vspace_cap : list Z) (vptr end_ offset : Z) : ST boot_t bool :=
  match fuel with
  | O => no_fuel
  | S fuel =>
      if bool_decide (vptr < end_) then
        p ← it_alloc_paging;
        c ← on_k (create vspace_cap p vptr IT_ASID);
        ok ← provide_cap root_cnode_cap c;
        if ok : bool
        then create_tables fuel create root_cnode_cap vspace_cap (wadd vptr (BIT offset)) end_ offset
        else mret false
      else mret true
  end.
Definition create_level (create : list Z -> Z -> Z -> Z -> ST kst (list Z))
    (root_cnode_cap vspace_cap : list Z) (it_v_reg : region_t) (offset : Z) : ST boot_t bool :=
  let vptr := ROUND_DOWN (rg_start it_v_reg) offset in
  create_tables (S (Z.to_nat ((rg_end it_v_reg - vptr) / BIT offset + 1))) create
    root_cnode_cap vspace_cap vptr (rg_end it_v_reg) offset.
(* src: kernel/src/boot/root_server.rs 443-495 rust_create_it_address_space *)
Definition rust_create_it_address_space (root_cnode_cap : list Z) (it_v_reg : region_t) : ST boot_t (list Z) :=
  rs ← gets rootserver;
  let vspace_cap := new_vspace_cap IT_ASID (rs_vspace rs) 1 in
  slot_pos_before ← gets slot_pos_cur;
  p ← cnode_slot root_cnode_cap seL4_CapInitThreadVspace;
  on_k (write_slot p vspace_cap) ;;
  let PGD_INDEX_OFFSET := PAGE_BITS + PT_INDEX_BITS * 3 in
  let PUD_INDEX_OFFSET := PAGE_BITS + PT_INDEX_BITS * 2 in
  let PD_INDEX_OFFSET := PAGE_BITS + PT_INDEX_BITS in
  ok ← create_level create_it_pud_cap root_cnode_cap vspace_cap it_v_reg PGD_INDEX_OFFSET;
  if negb ok then mret new_null_cap
  else
    ok ← create_level create_it_pd_cap root_cnode_cap vspace_cap it_v_reg PUD_INDEX_OFFSET;
    if negb ok then mret new_null_cap
    else
      ok ← create_level create_it_pt_cap root_cnode_cap vspace_cap it_v_reg PD_INDEX_OFFSET;
      if negb ok then mret new_null_cap
      else
        slot_pos_after ← gets slot_pos_cur;
        bi_mod (set_bi_userImagePaging (SlotRegion slot_pos_before slot_pos_after)) ;;
        mret vspace_cap.

(* src: kernel/src/structures.rs 119-122 create_frames_of_region_ret_t *)
Record create_frames_of_region_ret_t := FramesRet { fr_region : seL4_SlotRegion; fr_success : bool }.
(** [pv_offset] is an [isize]: its two's complement. *)
(* src: kernel/src/boot/root_server.rs 543-564 rust_create_frames_of_region *)
Fixpoint create_frames_loop (fuel : nat) (root_cnode_cap pd_cap : list Z) (f end_ : Z) (do_map : bool)
    (pv_offset : Z) : ST boot_t bool :=
  match fuel with
  | O => no_fuel
  | S fuel =>
      if bool_decide (f < end_) then
        c ← (if do_map then
               on_k (create_mapped_it_frame_cap pd_cap f (pptr_to_paddr (wsub f pv_offset)) IT_ASID false true)
             else mret (create_unmapped_it_frame_cap f false));
        ok ← provide_cap root_cnode_cap c;
        if ok : bool
        then create_frames_loop fuel root_cnode_cap pd_cap (wadd f (BIT PAGE_BITS)) end_ do_map pv_offset
        else mret false
      else mret true
  end.
(* src: kernel/src/boot/root_server.rs 533-575 rust_create_frames_of_region *)
Definition rust_create_frames_of_region (root_cnode_cap pd_cap : list Z) (reg : region_t) (do_map : bool)
    (pv_offset : Z) : ST boot_t create_frames_of_region_ret_t :=
  slot_pos_before ← gets slot_pos_cur;
  ok ← create_frames_loop (S (Z.to_nat ((rg_end reg - rg_start reg) / BIT PAGE_BITS + 1)))
    root_cnode_cap pd_cap (rg_start reg) (rg_end reg) do_map pv_offset;
  if negb ok then mret (FramesRet (SlotRegion 0 0) false)
  else
    slot_pos_after ← gets slot_pos_cur;
    mret (FramesRet (SlotRegion slot_pos_before slot_pos_after) true).

(* src: kernel/src/boot/root_server.rs 577-581 create_bi_frame_cap *)
Definition create_bi_frame_cap (root_cnode_cap pd_cap : list Z) (vptr : Z) : ST boot_t unit :=
  rs ← gets rootserver;
  c ← on_k (create_mapped_it_frame_cap pd_cap (rs_boot_info rs) vptr IT_ASID false false);
  p ← cnode_slot root_cnode_cap seL4_CapBootInfoFrame;
  on_k (write_slot p c).
(* src: kernel/src/boot/root_server.rs 497-531 init_bi_frame_cap *)
Definition init_bi_frame_cap (root_cnode_cap it_pd_cap : list Z) (bi_frame_vptr extra_bi_size extra_bi_frame_vptr : Z)
    : ST boot_t bool :=
  create_bi_frame_cap root_cnode_cap it_pd_cap bi_frame_vptr ;;
  if bool_decide (extra_bi_size > 0) then
    rs ← gets rootserver;
    let extra_bi_region := Region (rs_extra_bi rs) (wadd (rs_extra_bi rs) extra_bi_size) in
    r ← rust_create_frames_of_region root_cnode_cap it_pd_cap extra_bi_region true
      (wsub (pptr_to_paddr (rg_start extra_bi_region)) extra_bi_frame_vptr);
    if negb (fr_success r) then mret false
    else bi_mod (set_bi_extraBIPages (fr_region r)) ;; mret true
  else mret true.

(* src: kernel/src/boot/mod.rs 58-69 calculate_extra_bi_size_bits *)
Definition calculate_extra_bi_size_bits (size : Z) : Z :=
  if size =w 0 then 0
  else
    let clzl_ret := leading_zeros (ROUND_UP size seL4_PageBits) in
    let msb := wsub (wsub 64 1) clzl_ret in
    if bool_decide (size > BIT msb) then wadd msb 1 else msb.
(** The cleared frame becomes boot information. *)
(* src: kernel/src/boot/root_server.rs 583-607 rust_populate_bi_frame *)
Definition rust_populate_bi_frame (node_id num_nodes ipcbuf_vptr extra_bi_size : Z) : ST boot_t unit :=
  rs ← gets rootserver;
  on_k (clear_memory (rs_boot_info rs) BI_FRAME_SIZE_BITS) ;;
  when (extra_bi_size <>w 0)
    (on_k (clear_memory (rs_extra_bi rs) (calculate_extra_bi_size_bits extra_bi_size))) ;;
  on_k (take_words bootinfo_words (rs_boot_info rs)) ;;
  i ← on_k (on_sst (gl_get ksDomScheduleIdx));
  d ← lift (idx ksDomSchedule i);
  let z := bootinfo_zero in
  let bi := BootInfo extra_bi_size node_id num_nodes 0 ipcbuf_vptr (bi_empty z) (bi_sharedFrames z)
    (bi_userImageFrames z) (bi_userImagePaging z) (bi_ioSpaceCaps z) (bi_extraBIPages z)
    CONFIG_ROOT_CNODE_SIZE_BITS (ds_domain d) (bi_untyped z) (bi_untypedList z) in
  modify (fun b => set_b_bi (<[rs_boot_info rs := bi]> (b_bi b)) b) ;;
  modify (set_bi_frame (rs_boot_info rs)) ;;
  modify (set_slot_pos_cur seL4_NumInitialCaps).
(* src: kernel/src/boot/root_server.rs 609-615 create_ipcbuf_frame_cap *)
Definition create_ipcbuf_frame_cap (root_cnode_cap pd_cap : list Z) (vptr : Z) : ST boot_t (list Z) :=
  rs ← gets rootserver;
  on_k (clear_memory (rs_ipc_buf rs) PAGE_BITS) ;;
  c ← on_k (create_mapped_it_frame_cap pd_cap (rs_ipc_buf rs) vptr IT_ASID false false);
  p ← cnode_slot root_cnode_cap seL4_CapInitThreadIPCBuffer;
  on_k (write_slot p c) ;;
  mret c.
(** The pool is the memory it is put in. *)
(* src: kernel/src/boot/root_server.rs 209-225 create_it_asid_pool *)
Definition create_it_asid_pool (root_cnode_cap : list Z) : ST boot_t (list Z) :=
  rs ← gets rootserver;
  let ap_cap := new_asid_pool_cap (wshr IT_ASID asidLowBits) (rs_asid_pool rs) in
  ws ← on_k (take_words (Z.to_nat (BIT asidLowBits)) (rs_asid_pool rs));
  on_k (vm_mod (fun v => set_asid_pools (<[rs_asid_pool rs := ws]> (asid_pools v)) v)) ;;
  p ← cnode_slot root_cnode_cap seL4_CapInitThreadASIDPool;
  on_k (write_slot p ap_cap) ;;
  p ← cnode_slot root_cnode_cap seL4_CapASIDControl;
  on_k (write_slot p new_asid_control_cap) ;;
  mret ap_cap.
(* src: kernel/src/boot/root_server.rs 189-207 asid_init *)
Definition asid_init (root_cnode_cap it_pd_cap : list Z) : ST boot_t bool :=
  it_ap_cap ← create_it_asid_pool root_cnode_cap;
  t ← lift (get_cap_type it_ap_cap);
  if t =t CapNullCap then mret false
  else on_k (write_it_asid_pool it_ap_cap it_pd_cap) ;; mret true.
(* src: kernel/src/boot/root_server.rs 225-248 create_frame_ui_frames *)
Definition create_frame_ui_frames (root_cnode_cap it_pd_cap : list Z) (ui_reg : region_t) (pv_offset : Z)
    : ST boot_t bool :=
  r ← rust_create_frames_of_region root_cnode_cap it_pd_cap ui_reg true pv_offset;
  if negb (fr_success r) then mret false
  else bi_mod (set_bi_userImageFrames (fr_region r)) ;; mret true.

(** The thread and its slots are the memory they are put in. *)
(* src: kernel/src/boot/root_server.rs 126-187 create_initial_thread *)
Definition create_initial_thread (root_cnode_cap it_pd_cap : list Z) (ui_v_entry bi_frame_vptr ipcbuf_vptr : Z)
    (ipcbuf_cap : list Z) : ST boot_t Z :=
  rs ← gets rootserver;
  on_k (take_tcb (rs_tcb rs)) ;;
  tcb ← on_k (ref (wadd (rs_tcb rs) TCB_OFFSET));
  on_k (thread_mod tcb (set_tcbTimeSlice CONFIG_TIME_SLICE)) ;;
  on_k (thread_mod tcb (set_tcbArch ArchTCB_default)) ;;
  p ← lift (get_cap_ptr root_cnode_cap);
  cnode ← on_k (ref p);
  let ipc_buf_slot := get_offset_slot cnode seL4_CapInitThreadIPCBuffer in
  dc_ret ← on_k (on_slots (derive_cap ipc_buf_slot ipcbuf_cap));
  if bool_decide (dc_status dc_ret <> EXCEPTION_NONE) then mret 0
  else
    on_k (on_slots (cte_insert root_cnode_cap (get_offset_slot cnode seL4_CapInitThreadCNode)
      (get_cspace_mut_ref tcb tcbCTable))) ;;
    on_k (on_slots (cte_insert it_pd_cap (get_offset_slot cnode seL4_CapInitThreadVspace)
      (get_cspace_mut_ref tcb tcbVTable))) ;;
    on_k (on_slots (cte_insert (dc_cap dc_ret) (get_offset_slot cnode seL4_CapInitThreadIPCBuffer)
      (get_cspace_mut_ref tcb tcbBuffer))) ;;
    on_k (thread_mod tcb (set_tcbIPCBuffer ipcbuf_vptr)) ;;
    on_k (reg_set tcb RCap bi_frame_vptr) ;;
    on_k (reg_set tcb RNextIP ui_v_entry) ;;
    on_k (thread_mod tcb (set_tcbMCP seL4_MaxPrio)) ;;
    on_k (thread_mod tcb (set_tcbPriority seL4_MaxPrio)) ;;
    on_k (on_sst (set_thread_state tcb ThreadStateRunning)) ;;
    on_k (setup_reply_master tcb) ;;
    i ← on_k (on_sst (gl_get ksDomScheduleIdx));
    d ← lift (idx ksDomSchedule i);
    on_k (on_sst (gl_mod (set_ksCurDomain (ds_domain d)))) ;;
    on_k (on_sst (gl_mod (set_ksDomainTime (ds_length d)))) ;;
    dom ← on_k (on_sst (gl_get ksCurDomain));
    on_k (thread_mod tcb (set_tcb_domain dom)) ;;
    on_k (write_slot (get_offset_slot cnode seL4_CapInitThreadTCB) (new_thread_cap tcb)) ;;
    mret tcb.

(** [None] when a step fails. *)
(* src: kernel/src/boot/root_server.rs 50-123 root_server_init *)
Definition root_server_init (it_v_reg : region_t) (extra_bi_size_bits ipcbuf_vptr bi_frame_vptr extra_bi_size
    extra_bi_frame_vptr : Z) (ui_reg : region_t) (pv_offset v_entry : Z) : ST boot_t (option (Z * list Z)) :=
  root_server_mem_init it_v_reg extra_bi_size_bits ;;
  root_cnode_cap ← create_root_cnode;
  t ← lift (get_cap_type root_cnode_cap);
  if t =t CapNullCap then mret None
  else
    create_domain_cap root_cnode_cap ;;
    init_irqs root_cnode_cap ;;
    rust_populate_bi_frame 0 CONFIG_MAX_NUM_NODES ipcbuf_vptr extra_bi_size ;;
    it_pd_cap ← rust_create_it_address_space root_cnode_cap it_v_reg;
    t ← lift (get_cap_type it_pd_cap);
    if t =t CapNullCap then mret None
    else
      ok ← init_bi_frame_cap root_cnode_cap it_pd_cap bi_frame_vptr extra_bi_size extra_bi_frame_vptr;
      if negb ok then mret None
      else
        ipcbuf_cap ← create_ipcbuf_frame_cap root_cnode_cap it_pd_cap ipcbuf_vptr;
        t ← lift (get_cap_type ipcbuf_cap);
        if t =t CapNullCap then mret None
        else
          ok ← create_frame_ui_frames root_cnode_cap it_pd_cap ui_reg pv_offset;
          if negb ok then mret None
          else
            ok ← asid_init root_cnode_cap it_pd_cap;
            if negb ok then mret None
            else
              initial ← create_initial_thread root_cnode_cap it_pd_cap v_entry bi_frame_vptr ipcbuf_vptr ipcbuf_cap;
              if initial =w 0 then mret None else mret (Some (initial, root_cnode_cap)).
