(* ===== verification/Boot.v ===== *)
(** * Boot: untyped memory and the whole boot

    [boot/untyped.rs] turns the memory that is left into untyped capabilities;
    [boot/mod.rs] and [arch/aarch64/boot.rs] put the steps of the boot together.
    The interrupt controller, the timer and the caches are hardware: they leave
    the state as it is. *)

From stdpp Require Import base numbers gmap list.
From S2P Require Import Prelude Bitfield Common Cap DList CSpace Sched State Vspace Threads Delete Ipc Finalise Syscall CNodeInv UntypedInv MmuInv BootMem KWindow BootRoot.
Local Open Scope Z_scope.
Local Open Scope krn_scope.

(* src: kernel/src/config.rs 33-33 CONFIG_PADDR_USER_DEVICE_TOP *)
Definition CONFIG_PADDR_USER_DEVICE_TOP : Z := 17592186044416.
(* src: kernel/src/config.rs 95-95 seL4_WordBits *)
Definition seL4_WordBits : Z := 64.
(* src: kernel/src/config.rs 126-126 SEL4_BOOTINFO_HEADER_FDT *)
Definition SEL4_BOOTINFO_HEADER_FDT : Z := 6.
(* src: kernel/src/config.rs 127-127 SEL4_BOOTINFO_HEADER_PADDING *)
Definition SEL4_BOOTINFO_HEADER_PADDING : Z := 0.

(** ** Untyped capabilities *)
(** [u64::trailing_zeros] *)
Fixpoint pos_trailing_zeros (p : positive) : Z :=
  match p with xO p => 1 + pos_trailing_zeros p | _ => 0 end.
Definition trailing_zeros (x : Z) : Z := match x with Zpos p => pos_trailing_zeros p | _ => 64 end.
(* src: kernel/src/boot/untyped.rs 114-172 provide_untyped_cap *)
Definition provide_untyped_cap (root_cnode_cap : list Z) (device_memory : bool)
    (pptr size_bits first_untyped_slot : Z) : ST boot_t bool :=
  if bool_decide (size_bits > seL4_MaxUntypedBits) || bool_decide (size_bits < seL4_MinUntypedBits)
  then mret false
  else if negb (IS_ALIGNED pptr size_bits) then mret false
  else if negb device_memory && negb (pptr_in_kernel_window pptr) then mret false
  else if negb device_memory && negb (pptr_in_kernel_window (wadd pptr (MASK size_bits))) then mret false
  else
    pos ← gets slot_pos_cur;
    let i := wsub pos first_untyped_slot in
    if bool_decide (i < CONFIG_MAX_NUM_BOOTINFO_UNTYPED_CAPS) then
      p ← gets bi_frame;
      bi ← zoom b_bi set_b_bi (load p);
      l ← lift (upd (bi_untypedList bi) i
        (UntypedDesc (pptr_to_paddr pptr) (Z.land size_bits 255) (b2w device_memory)));
      bi_mod (set_bi_untypedList l) ;;
      let ut_cap := new_untyped_cap (MAX_FREE_INDEX size_bits) (b2w device_memory) size_bits pptr in
      provide_cap root_cnode_cap ut_cap
    else mret true.

(** The size of the next block: as large as the region and the alignment of its
    start allow. *)
(* src: kernel/src/boot/untyped.rs 88-97 create_untypeds_for_region *)
Definition untyped_size (reg : region_t) : Z :=
  let size_bits := wsub (wsub seL4_WordBits 1) (leading_zeros (wsub (rg_end reg) (rg_start reg))) in
  let size_bits := if bool_decide (size_bits > seL4_MaxUntypedBits) then seL4_MaxUntypedBits else size_bits in
  if rg_start reg <>w 0 then
    let align_bits := trailing_zeros (rg_start reg) in
    if bool_decide (size_bits > align_bits) then align_bits else size_bits
  else size_bits.
(* src: kernel/src/boot/untyped.rs 87-110 create_untypeds_for_region *)
Fixpoint untypeds_loop (fuel : nat) (root_cnode_cap : list Z) (device_memory : bool) (reg : region_t)
    (first_untyped_slot : Z) : ST boot_t bool :=
  match fuel with
  | O => no_fuel
  | S fuel =>
      if is_reg_empty reg : bool then mret true
      else
        let size_bits := untyped_size reg in
        ok ← (if bool_decide (size_bits >= seL4_MinUntypedBits)
              then provide_untyped_cap root_cnode_cap device_memory (rg_start reg) size_bits first_untyped_slot
              else mret true);
        if negb ok then mret false
        else untypeds_loop fuel root_cnode_cap device_memory
          (set_rg_start (wadd (rg_start reg) (BIT size_bits)) reg) first_untyped_slot
  end.
(** The sizes grow with the alignment of the start up to the maximum of 38
    bits, stay there, and shrink with what is left: at most 38 rounds up, 39
    down, one per block of the maximal size, and one to stop. *)
Definition untypeds_fuel (reg : region_t) : nat :=
  (80 + Z.to_nat (wsub (rg_end reg) (rg_start reg) / 2 ^ seL4_MaxUntypedBits))%nat.
(* src: kernel/src/boot/untyped.rs 81-112 create_untypeds_for_region *)
Definition create_untypeds_for_region (root_cnode_cap : list Z) (device_memory : bool) (reg : region_t)
    (first_untyped_slot : Z) : ST boot_t bool :=
  untypeds_loop (untypeds_fuel reg) root_cnode_cap device_memory reg first_untyped_slot.

(** The memory between the reserved regions is device memory; [n] are left. *)
(* src: kernel/src/boot/untyped.rs 17-32 create_untypeds *)
Fixpoint device_untypeds (n : nat) (root_cnode_cap : list Z) (i start first_untyped_slot : Z)
    : ST boot_t (option Z) :=
  match n with
  | O => mret (Some start)
  | S n =>
      r ← on_b_mm (resv_get i);
      let reg := paddr_to_pptr_reg (Region start (rg_start r)) in
      ok ← create_untypeds_for_region root_cnode_cap true reg first_untyped_slot;
      if negb ok then mret None
      else
        r ← on_b_mm (resv_get i);
        device_untypeds n root_cnode_cap (i + 1) (rg_end r) first_untyped_slot
  end.
(** A failure for a free region is only reported. *)
(* src: kernel/src/boot/untyped.rs 62-72 create_untypeds *)
Definition free_untypeds (root_cnode_cap : list Z) (first_untyped_slot : Z) : ST boot_t unit :=
  l ← gets (fun b => freemem (kw_mm (b_kw b)));
  for_range (length l) 0 (fun i =>
    reg ← on_b_mm (free_get i);
    on_b_mm (free_set i (Region 0 0)) ;;
    create_untypeds_for_region root_cnode_cap false reg first_untyped_slot ;; skip).
(* src: kernel/src/boot/untyped.rs 14-79 create_untypeds *)
Definition create_untypeds (root_cnode_cap : list Z) (boot_mem_reuse_reg : region_t) : ST boot_t bool :=
  first_untyped_slot ← gets slot_pos_cur;
  n ← gets (fun b => resv_count (kw_mm (b_kw b)));
  o ← device_untypeds (Z.to_nat n) root_cnode_cap 0 0 first_untyped_slot;
  match o with
  | None => mret false
  | Some start =>
      ok ← (if bool_decide (start < CONFIG_PADDR_USER_DEVICE_TOP) then
              create_untypeds_for_region root_cnode_cap true
                (paddr_to_pptr_reg (Region start CONFIG_PADDR_USER_DEVICE_TOP)) first_untyped_slot
            else mret true);
      if negb ok then mret false
      else
        ok ← create_untypeds_for_region root_cnode_cap false boot_mem_reuse_reg first_untyped_slot;
        if negb ok then mret false
        else
          free_untypeds root_cnode_cap first_untyped_slot ;;
          pos ← gets slot_pos_cur;
          bi_mod (set_bi_untyped (SlotRegion first_untyped_slot pos)) ;;
          mret true
  end.

(** ** Device tree and boot information *)
(* src: kernel/src/structures.rs 7-10 seL4_BootInfoHeader *)
Record seL4_BootInfoHeader := BootInfoHeader { bih_id : Z; bih_len : Z }.
(** [size_of::<seL4_BootInfoHeader>()] *)
Definition header_size : Z := 16.
(** The region and the size so far are returned; [None] when the region is
    invalid. *)
(* src: kernel/src/boot/mod.rs 71-102 init_dtb *)
Definition init_dtb (dtb_size dtb_phys_addr extra_bi_size : Z) : option (region_t * Z) :=
  if bool_decide (dtb_size > 0) then
    let dtb_phys_end := wadd dtb_phys_addr dtb_size in
    if bool_decide (dtb_phys_end < dtb_phys_addr) then None
    else if bool_decide (dtb_phys_end >= PADDR_TOP) then None
    else Some (Region dtb_phys_addr dtb_phys_end, wadd extra_bi_size (wadd header_size dtb_size))
  else Some (Region 0 0, extra_bi_size).

(** Bytes of words, least significant first. *)
Definition byte_get (p : Z) : ST kst Z :=
  w ← word_get (8 * (p / 8)); mret (Z.shiftr w (8 * (p `mod` 8)) &&& 255).
Definition byte_set (p v : Z) : ST kst unit :=
  let sh := 8 * (p `mod` 8) in
  pte_mod (8 * (p / 8)) (fun w => (w &&& wnot (Z.shiftl 255 sh)) ||| Z.shiftl v sh).
(** [dst.copy_from_slice(src)] *)
Definition copy_bytes (dst src n : Z) : ST kst unit :=
  for_range (Z.to_nat n) 0 (fun i => b ← byte_get (src + i); byte_set (dst + i) b).
Definition write_header (p : Z) (h : seL4_BootInfoHeader) : ST kst unit :=
  word_set p (bih_id h) ;; word_set (wadd p 8) (bih_len h).
(* src: kernel/src/boot/mod.rs 104-132 init_bootinfo *)
Definition init_bootinfo (dtb_size dtb_phys_addr extra_bi_size : Z) : ST boot_t unit :=
  rs ← gets rootserver;
  extra_bi_offset ← (if bool_decide (dtb_size > 0) then
      on_k (write_header (rs_extra_bi rs)
        (BootInfoHeader SEL4_BOOTINFO_HEADER_FDT (wadd header_size dtb_size))) ;;
      on_k (copy_bytes (wadd (rs_extra_bi rs) header_size) (paddr_to_pptr dtb_phys_addr) dtb_size) ;;
      mret header_size
    else mret 0);
  when (bool_decide (extra_bi_size > extra_bi_offset))
    (on_k (write_header (wadd (rs_extra_bi rs) extra_bi_offset)
      (BootInfoHeader SEL4_BOOTINFO_HEADER_PADDING (wsub extra_bi_size extra_bi_offset)))).
(* src: kernel/src/boot/mod.rs 134-142 bi_finalise *)
Definition bi_finalise (dtb_size dtb_phys_addr extra_bi_size : Z) : ST boot_t unit :=
  pos ← gets slot_pos_cur;
  bi_mod (set_bi_empty (SlotRegion pos (BIT CONFIG_ROOT_CNODE_SIZE_BITS))) ;;
  init_bootinfo dtb_size dtb_phys_addr extra_bi_size.
(* src: kernel/src/boot/mod.rs 144-165 init_core_state *)
Definition init_core_state (scheduler_action : Z) : ST boot_t unit :=
  on_k (on_sst (set_current_scheduler_action scheduler_action)) ;;
  idle ← on_k (on_sst get_idle_thread);
  on_k (on_sst (set_current_thread idle)).

(** ** The boot *)
Section boot.
Context `{KernelLink}.
(** The ends of the kernel image and of its boot section, the idle thread's
    memory and code, and the memory the loader found. *)
Variables (ki_end ki_boot_end ksIdleThreadTCB idle_thread : Z) (n_avail : Z) (avail_p_regs : list region_t).

(** The cleaning of the caches and the kernel's base register are events, as the
    other requests to the machine; [Machine.activate_kernel_vspace] has their
    instructions. *)
(* src: sel4_vspace/src/arch/aarch64/interface.rs 128-140 activate_kernel_vspace *)
Definition activate_kernel_vspace : ST boot_t unit :=
  on_k (hw CleanInvalidateL1) ;;
  on_k (hw (SetTtbr1 (ttbr_new 0 (kpptr_to_paddr get_kernel_page_global_directory_base)))) ;;
  base ← on_k (vm_get arm_global_user_vspace_base);
  on_k (setCurrentUserVSpaceRoot (ttbr_new 0 (kpptr_to_paddr base))) ;;
  on_k (hw TlbAll).
(* src: kernel/src/arch/aarch64/boot.rs 22-133 try_init_kernel *)
Definition try_init_kernel (ui_p_reg_start ui_p_reg_end pv_offset v_entry dtb_phys_addr dtb_size : Z)
    : ST boot_t bool :=
  let boot_mem_reuse_reg := paddr_to_pptr_reg (Region (kpptr_to_paddr KERNEL_ELF_BASE) (kpptr_to_paddr ki_boot_end)) in
  let ui_p_reg := Region ui_p_reg_start ui_p_reg_end in
  let ui_reg := paddr_to_pptr_reg ui_p_reg in
  let ui_v_reg := Region (wsub ui_p_reg_start pv_offset) (wsub ui_p_reg_end pv_offset) in
  let ipcbuf_vptr := rg_end ui_v_reg in
  let bi_frame_vptr := wadd ipcbuf_vptr (BIT PAGE_BITS) in
  let extra_bi_frame_vptr := wadd bi_frame_vptr (BIT BI_FRAME_SIZE_BITS) in
  on_kw rust_map_kernel_window ;;
  activate_kernel_vspace ;;
  match init_dtb dtb_size dtb_phys_addr 0 with
  | None => mret false
  | Some (dtb_p_reg, extra_bi_size) =>
      let extra_bi_size_bits := calculate_extra_bi_size_bits extra_bi_size in
      let it_v_reg := Region (rg_start ui_v_reg) (wadd extra_bi_frame_vptr (BIT extra_bi_size_bits)) in
      if bool_decide (rg_end it_v_reg >= USER_TOP) then mret false
      else
        ok ← on_b_mm (init_freemem ki_end n_avail avail_p_regs ui_p_reg dtb_p_reg);
        if negb ok then mret false
        else
          o ← root_server_init it_v_reg extra_bi_size_bits ipcbuf_vptr bi_frame_vptr extra_bi_size
                extra_bi_frame_vptr ui_reg pv_offset v_entry;
          match o with
          | None => mret false
          | Some (initial_thread, root_cnode_cap) =>
              on_k (on_sst (create_idle_thread ksIdleThreadTCB idle_thread)) ;;
              init_core_state initial_thread ;;
              create_untypeds root_cnode_cap boot_mem_reuse_reg ;;
              bi_mod (set_bi_sharedFrames (SlotRegion 0 0)) ;;
              bi_finalise dtb_size dtb_phys_addr extra_bi_size ;;
              on_k (hw TlbAll) ;;
              modify (set_ksNumCPUs 1) ;;
              mret true
          end
  end.
End boot.
