(* ===== verification/BootProps.v ===== *)
(** * Boot: theorems on memory

    Regions are sets of addresses.  [reserve_region] adds a region to the
    reserved set; [rust_init_freemem] computes the available memory without the
    reserved regions. *)

From stdpp Require Import base numbers gmap list.
From S2P Require Import Prelude Bitfield Common Cap DList CSpace Sched State Vspace BootMem.
Local Open Scope Z_scope.
Local Open Scope krn_scope.

Definition in_region (r : region_t) (x : Z) : Prop := rg_start r <= x < rg_end r.
Definition region_ok (r : region_t) : Prop := rg_start r <= rg_end r.

(** ** Reserved memory *)

(** The entry [i] of the array, and the addresses of the first [n] entries. *)
Definition rview (s : mm_t) (i : Z) : region_t := mm_reserved s !!! Z.to_nat i.
Definition rcovers (f : Z -> region_t) (n x : Z) : Prop := exists i, 0 <= i < n /\ in_region (f i) x.
Definition reserved_covers (s : mm_t) (x : Z) : Prop := rcovers (rview s) (resv_count s) x.

Record resv_ok (s : mm_t) : Prop := {
  ro_len : length (mm_reserved s) = Z.to_nat MAX_NUM_RESV_REG;
  ro_count : 0 <= resv_count s < MAX_NUM_RESV_REG;
  ro_reg : forall i, 0 <= i < resv_count s -> region_ok (rview s i) }.

(** Everything but the reserved regions. *)
Definition mm_frame (s s' : mm_t) : Prop :=
  freemem s' = freemem s /\ avail_reg s' = avail_reg s /\ res_reg s' = res_reg s /\
  length (mm_reserved s') = length (mm_reserved s).

Section reserved.
Implicit Types (s : mm_t) (r reg : region_t) (i j x : Z).

Lemma mm_frame_refl s : mm_frame s s.
Proof. done. Qed.
Lemma mm_frame_trans s1 s2 s3 : mm_frame s1 s2 -> mm_frame s2 s3 -> mm_frame s1 s3.
Proof. intros (? & ? & ? & ?) (? & ? & ? & ?). split_and!; congruence. Qed.

Lemma wp_resv_get s i (Q : region_t -> mm_t -> Prop) :
  0 <= i < Z.of_nat (length (mm_reserved s)) -> Q (rview s i) s -> wp (resv_get i) Q s.
Proof.
  intros Hi HQ. apply wp_bind, wp_gets. eapply wp_lift; [|exact HQ].
  apply idx_Ok; [lia|]. apply list_lookup_lookup_total_lt. lia.
Qed.
Lemma wp_resv_set s i r (Q : unit -> mm_t -> Prop) :
  0 <= i < Z.of_nat (length (mm_reserved s)) ->
  (forall s', mm_frame s s' -> resv_count s' = resv_count s ->
    (forall j, 0 <= j -> rview s' j = if decide (j = i) then r else rview s j) -> Q tt s') ->
  wp (resv_set i r) Q s.
Proof.
  intros Hi HQ. apply wp_bind, wp_gets. apply wp_bind. eapply wp_lift; [by apply upd_Ok|].
  apply wp_modify, HQ; [split_and!; try done; apply length_insert|done|].
  intros j Hj. unfold rview. cbn. case_decide; subst.
  - apply list_lookup_total_insert_eq. lia.
  - apply list_lookup_total_insert_ne. lia.
Qed.

Lemma wp_shift_down n lo s (Q : unit -> mm_t -> Prop) :
  1 <= lo -> lo + Z.of_nat n <= Z.of_nat (length (mm_reserved s)) ->
  (forall s', mm_frame s s' -> resv_count s' = resv_count s ->
    (forall j, 0 <= j -> rview s' j =
      if decide (lo - 1 <= j < lo - 1 + Z.of_nat n) then rview s (j + 1) else rview s j) -> Q tt s') ->
  wp (shift_down n lo) Q s.
Proof.
  intros Hlo Hn HQ. apply (wp_for_range (fun k s' => mm_frame s s' /\ resv_count s' = resv_count s /\
    forall j, 0 <= j -> rview s' j = if decide (lo - 1 <= j < k - 1) then rview s (j + 1) else rview s j)).
  - split; [done|]. split; [done|]. intros j Hj. rewrite decide_False by lia. done.
  - intros k s1 Hk (Hf & Hc & Hv). pose proof Hf as (_ & _ & _ & Hl).
    apply wp_bind, wp_resv_get; [lia|]. apply wp_resv_set; [lia|]. intros s2 Hf2 Hc2 Hv2.
    split; [by eapply mm_frame_trans|]. split; [congruence|]. intros j Hj. rewrite Hv2 by done.
    case_decide as E; subst.
    + rewrite decide_True by lia. rewrite Hv, decide_False by lia. f_equal. lia.
    + rewrite Hv by done. destruct (decide (lo - 1 <= j < k - 1)); [by rewrite decide_True by lia|].
      by rewrite decide_False by lia.
  - intros s' (Hf & Hc & Hv). apply HQ; [done|done|]. intros j Hj. rewrite Hv by done.
    destruct (decide (lo - 1 <= j < lo + Z.of_nat n - 1)); [by rewrite decide_True by lia|].
    by rewrite decide_False by lia.
Qed.

Lemma wp_shift_up n : forall j s (Q : unit -> mm_t -> Prop),
  Z.of_nat n <= j < Z.of_nat (length (mm_reserved s)) ->
  (forall s', mm_frame s s' -> resv_count s' = resv_count s ->
    (forall k, 0 <= k -> rview s' k =
      if decide (j - Z.of_nat n < k <= j) then rview s (k - 1) else rview s k) -> Q tt s') ->
  wp (shift_up n j) Q s.
Proof.
  induction n as [|n IH]; intros j s Q Hj HQ; cbn [shift_up].
  - apply wp_ret, HQ; [done|done|]. intros k Hk. by rewrite decide_False by lia.
  - apply wp_bind, wp_resv_get; [lia|]. apply wp_bind, wp_resv_set; [lia|].
    intros s1 Hf Hc Hv. pose proof Hf as (_ & _ & _ & Hl). apply IH; [lia|]. intros s2 Hf2 Hc2 Hv2.
    apply HQ; [by eapply mm_frame_trans|congruence|]. intros k Hk. rewrite Hv2 by done.
    destruct (decide (j - 1 - Z.of_nat n < k <= j - 1)).
    + rewrite Hv, decide_False by lia. by rewrite decide_True by lia.
    + rewrite Hv by done. case_decide; subst; [by rewrite decide_True by lia|].
      by rewrite decide_False by lia.
Qed.

(** Same regions as a set. *)
Definition same_reserved s s' : Prop :=
  mm_frame s s' /\ resv_ok s' /\ forall x, reserved_covers s' x <-> reserved_covers s x.

Lemma merge_covers s s' i :
  1 <= i < resv_count s -> region_ok (rview s (i - 1)) -> region_ok (rview s i) ->
  rg_end (rview s (i - 1)) = rg_start (rview s i) -> resv_count s' = resv_count s - 1 ->
  (forall j, 0 <= j < resv_count s' -> rview s' j =
     if decide (j = i - 1) then Region (rg_start (rview s (i - 1))) (rg_end (rview s i))
     else if decide (j < i) then rview s j else rview s (j + 1)) ->
  forall x, reserved_covers s' x <-> reserved_covers s x.
Proof.
  unfold region_ok. intros Hi H1 H2 Hm Hc Hv x. unfold reserved_covers, rcovers, in_region. split.
  - intros (j & Hj & Hx). rewrite Hv in Hx by done. case_decide.
    + cbn in Hx. destruct (decide (x < rg_start (rview s i))).
      * exists (i - 1). lia.
      * exists i. lia.
    + case_decide; [exists j|exists (j + 1)]; split; (lia || done).
  - intros (j & Hj & Hx). destruct (decide (j < i - 1)).
    { exists j. rewrite Hv, decide_False, decide_True by lia. split; [lia|done]. }
    destruct (decide (j <= i)).
    + exists (i - 1). rewrite Hv, decide_True by lia. split; [lia|]. cbn.
      assert (j = i - 1 \/ j = i) as [-> | ->] by lia; lia.
    + exists (j - 1). rewrite Hv, !decide_False by lia. split; [lia|].
      by replace (j - 1 + 1) with j by lia.
Qed.

Lemma wp_merge_loop fuel : forall i s (Q : unit -> mm_t -> Prop),
  resv_ok s -> 1 <= i -> resv_count s - i < Z.of_nat fuel -> 0 < Z.of_nat fuel ->
  (forall s', same_reserved s s' -> Q tt s') -> wp (merge_loop fuel i) Q s.
Proof.
  induction fuel as [|fuel IH]; intros i s Q Hok Hi Hf H0 HQ; [lia|]. cbn [merge_loop].
  apply wp_bind, wp_gets. case_bool_decide as Hc; [|by apply HQ].
  destruct Hok as [Hl Hn Hr]. change (Z.to_nat MAX_NUM_RESV_REG) with 19%nat in Hl.
  change MAX_NUM_RESV_REG with 19 in Hn.
  apply wp_bind, wp_resv_get; [lia|]. apply wp_bind, wp_resv_get; [lia|].
  case_bool_decide as Em; [|by apply IH; [split|lia..|]].
  apply wp_bind, wp_resv_set; [lia|]. intros s1 Hf1 Hc1 Hv1. pose proof Hf1 as (_ & _ & _ & Hl1).
  apply wp_bind, wp_shift_down; [lia|lia|]. intros s2 Hf2 Hc2 Hv2. pose proof Hf2 as (_ & _ & _ & Hl2).
  apply wp_bind, wp_modify. set (s3 := set_resv_count _ s2).
  assert (resv_count s3 = resv_count s - 1) as Hc3.
  { unfold s3. cbn. apply wsub_small. unfold is_word. lia. }
  assert (forall j, 0 <= j < resv_count s3 -> rview s3 j =
     if decide (j = i - 1) then Region (rg_start (rview s (i - 1))) (rg_end (rview s i))
     else if decide (j < i) then rview s j else rview s (j + 1)) as Hv3.
  { intros j Hj. change (rview s3 j) with (rview s2 j). rewrite Hv2, !Hv1 by lia.
    destruct (decide (j = i - 1)); [by rewrite decide_False by lia|].
    destruct (decide (j < i)).
    - by rewrite decide_False by lia.
    - rewrite (decide_True (P := i + 1 - 1 <= j < _)) by lia. by rewrite decide_False by lia. }
  assert (mm_frame s s3) as Hf3 by (eapply mm_frame_trans; [exact Hf1|exact Hf2]).
  assert (resv_ok s3) as Hok3.
  { split; [change (Z.to_nat MAX_NUM_RESV_REG) with 19%nat; unfold s3; cbn; congruence|change MAX_NUM_RESV_REG with 19; lia|]. intros j Hj. rewrite Hv3 by done.
    pose proof (Hr (i - 1) ltac:(lia)) as H1. pose proof (Hr i ltac:(lia)) as H2. unfold region_ok in *.
    case_decide; [cbn; lia|]. case_decide; apply Hr; lia. }
  apply IH; [done|done|lia|lia|]. intros s4 (Hf4 & Hok4 & Hx4). apply HQ.
  split; [by eapply mm_frame_trans|]. split; [done|]. intros x. rewrite Hx4.
  apply (merge_covers s s3 i); try done; try lia; apply Hr; lia.
Qed.

Lemma wp_merge_regions s (Q : unit -> mm_t -> Prop) :
  resv_ok s -> (forall s', same_reserved s s' -> Q tt s') -> wp merge_regions Q s.
Proof.
  intros Hok HQ. apply wp_merge_loop; [done|lia| |done|done].
  pose proof (ro_count _ Hok). change (Z.of_nat (S (Z.to_nat MAX_NUM_RESV_REG))) with 20.
  change MAX_NUM_RESV_REG with 19 in *. lia.
Qed.

(** The region is added, or there was no room for it. *)
Definition reserved_add s reg (b : bool) s' : Prop :=
  mm_frame s s' /\ resv_ok s' /\
  if b then forall x, reserved_covers s' x <-> reserved_covers s x \/ in_region reg x
  else s' = s /\ resv_count s + 1 = MAX_NUM_RESV_REG.

(** One entry is extended. *)
Lemma wp_extend s i r reg (Q : option bool -> mm_t -> Prop) :
  resv_ok s -> 0 <= i < resv_count s -> region_ok r ->
  (forall x, in_region r x <-> in_region (rview s i) x \/ in_region reg x) ->
  (forall s', reserved_add s reg true s' -> Q (Some true) s') ->
  wp (resv_set i r ;; merge_regions ;; mret (Some true)) Q s.
Proof.
  intros [Hl Hn Hr] Hi Hreg Hx HQ. change (Z.to_nat MAX_NUM_RESV_REG) with 19%nat in Hl.
  change MAX_NUM_RESV_REG with 19 in Hn.
  apply wp_bind, wp_resv_set; [lia|]. intros s1 Hf1 Hc1 Hv1. pose proof Hf1 as (_ & _ & _ & Hl1).
  assert (resv_ok s1) as Hok1.
  { split; [change (Z.to_nat MAX_NUM_RESV_REG) with 19%nat; congruence|change MAX_NUM_RESV_REG with 19; lia|]. intros j Hj. rewrite Hv1 by lia.
    case_decide; [done|apply Hr; lia]. }
  apply wp_bind, wp_merge_regions; [done|]. intros s2 (Hf2 & Hok2 & Hx2). apply wp_ret, HQ.
  split; [by eapply mm_frame_trans|]. split; [done|]. intros x. rewrite Hx2.
  unfold reserved_covers, rcovers. rewrite Hc1. split.
  - intros (j & Hj & Hin). rewrite Hv1 in Hin by lia. case_decide; subst; [|by left; exists j].
    apply Hx in Hin as [Hin|Hin]; [left; by exists i|by right].
  - intros [(j & Hj & Hin)|Hin].
    + exists j. split; [done|]. rewrite Hv1 by lia. case_decide; subst; [apply Hx; by left|done].
    + exists i. split; [done|]. rewrite Hv1, decide_True by lia. apply Hx. by right.
Qed.

(** The region becomes the entry [i], those from [i] on move up. *)
Lemma reserved_insert s s' i reg :
  resv_ok s -> region_ok reg -> 0 <= i <= resv_count s -> resv_count s + 1 < MAX_NUM_RESV_REG ->
  mm_frame s s' -> resv_count s' = resv_count s + 1 ->
  (forall k, 0 <= k < resv_count s' -> rview s' k =
    if decide (k = i) then reg else if decide (k < i) then rview s k else rview s (k - 1)) ->
  reserved_add s reg true s'.
Proof.
  intros [Hl Hn Hr] Hreg Hi Hmax Hf Hc Hv. split; [done|]. pose proof Hf as (_ & _ & _ & Hl').
  split; [split; [congruence|lia|]|].
  - intros k Hk. rewrite Hv by done. case_decide; [done|]. case_decide; apply Hr; lia.
  - intros x. unfold reserved_covers, rcovers. split.
    + intros (k & Hk & Hin). rewrite Hv in Hin by done. case_decide; [by right|]. left.
      case_decide; [exists k|exists (k - 1)]; split; (lia || done).
    + intros [(k & Hk & Hin)|Hin].
      * destruct (decide (k < i)).
        -- exists k. split; [lia|]. by rewrite Hv, decide_False, decide_True by lia.
        -- exists (k + 1). split; [lia|]. rewrite Hv, !decide_False by lia.
           by replace (k + 1 - 1) with k by lia.
      * exists i. split; [lia|]. by rewrite Hv, decide_True by lia.
Qed.

Lemma wp_reserve_loop n : forall i s reg (Q : option bool -> mm_t -> Prop),
  resv_ok s -> region_ok reg -> 0 <= i -> i + Z.of_nat n = resv_count s ->
  Q None s -> (forall b s', reserved_add s reg b s' -> Q (Some b) s') ->
  wp (reserve_loop n i reg) Q s.
Proof.
  induction n as [|n IH]; intros i s reg Q Hok Hreg Hi Hn HN HQ; cbn [reserve_loop]; [by apply wp_ret|].
  pose proof Hok as [Hl Hc Hr]. change (Z.to_nat MAX_NUM_RESV_REG) with 19%nat in Hl.
  change MAX_NUM_RESV_REG with 19 in Hc.
  apply wp_bind, wp_resv_get; [lia|]. pose proof (Hr i ltac:(lia)) as Hri. unfold region_ok in Hri, Hreg.
  case_bool_decide; [apply (wp_extend _ _ _ reg); [done|lia| | |auto]; unfold region_ok, in_region; cbn; lia|].
  case_bool_decide; [apply (wp_extend _ _ _ reg); [done|lia| | |auto]; unfold region_ok, in_region; cbn; lia|].
  case_bool_decide; [|by apply IH; (lia || done)].
  apply wp_bind, wp_gets. rewrite wadd_small by (unfold is_word; lia).
  case_bool_decide as Hfull.
  { apply wp_ret, HQ. split; [done|]. split; [done|]. split; [done|]. change MAX_NUM_RESV_REG with 19 in *. lia. }
  change MAX_NUM_RESV_REG with 19 in Hfull.
  apply wp_bind, wp_shift_up; [lia|]. intros s1 Hf1 Hc1 Hv1. pose proof Hf1 as (_ & _ & _ & Hl1).
  apply wp_bind, wp_resv_set; [lia|]. intros s2 Hf2 Hc2 Hv2.
  apply wp_bind, wp_modify, wp_ret, HQ. eapply (reserved_insert s _ i reg); try done; try lia.
  - change MAX_NUM_RESV_REG with 19. lia.
  - eapply mm_frame_trans; [exact Hf1|exact Hf2].
  - cbn. intros k Hk. change (rview (set_resv_count (resv_count s + 1) s2) k) with (rview s2 k).
    rewrite Hv2 by lia. case_decide; [done|]. rewrite Hv1 by lia.
    destruct (decide (k < i)); [by rewrite decide_False by lia|by rewrite decide_True by lia].
Qed.

Lemma wp_reserve_region s reg (Q : bool -> mm_t -> Prop) :
  resv_ok s -> region_ok reg -> (forall b s', reserved_add s reg b s' -> Q b s') ->
  wp (reserve_region reg) Q s.
Proof.
  intros Hok Hreg HQ. unfold reserve_region. pose proof Hok as [Hl Hc Hr].
  apply wp_bind, wp_assert; [by apply bool_decide_true|]. case_bool_decide as He.
  { apply wp_ret, HQ. split; [done|]. split; [done|]. intros x.
    split; [by left|]. intros [?|Hx]; [done|]. unfold in_region in Hx. lia. }
  apply wp_bind, wp_gets. apply wp_bind. apply wp_reserve_loop; [done|done|lia|lia| |].
  - change (Z.to_nat MAX_NUM_RESV_REG) with 19%nat in Hl. change MAX_NUM_RESV_REG with 19 in Hc.
    rewrite wadd_small by (unfold is_word; lia).
    case_bool_decide as Hfull; [by apply wp_ret, HQ|]. change MAX_NUM_RESV_REG with 19 in Hfull.
    apply wp_bind, wp_resv_set; [lia|]. intros s1 Hf1 Hc1 Hv1.
    apply wp_bind, wp_modify, wp_ret, HQ. eapply (reserved_insert s _ (resv_count s) reg); try done; try lia.
    + change MAX_NUM_RESV_REG with 19. lia.
    + cbn. intros k Hk. change (rview (set_resv_count (resv_count s + 1) s1) k) with (rview s1 k).
      rewrite Hv1 by lia. case_decide; [done|]. by rewrite decide_True by lia.
  - intros b s' Hadd. by apply wp_ret, HQ.
Qed.
End reserved.

(** ** Free memory *)

(** The addresses of the regions [f lo .. f (hi - 1)]. *)
Definition scov (f : Z -> region_t) (lo hi x : Z) : Prop := exists i, lo <= i < hi /\ in_region (f i) x.
Definition free_covers (s : mm_t) (x : Z) : Prop := exists r, r ∈ freemem s /\ in_region r x.
Definition aview (s : mm_t) (i : Z) : region_t := avail_reg s !!! Z.to_nat i.

(** The array of free regions: those inserted so far, and empty ones. *)
Record free_shape (s : mm_t) (ins : list region_t) : Prop := {
  fs_eq : freemem s = ins ++ replicate (16 - length ins) (Region 0 0);
  fs_ne : Forall (fun r => rg_start r < rg_end r) ins;
  fs_len : (length ins <= 16)%nat }.

(** Regions of the kernel window. *)
Definition in_window (r : region_t) : Prop :=
  PPTR_BASE <= rg_start r /\ rg_start r <= rg_end r /\ rg_end r < 2 ^ 64.

Section freemem.
Implicit Types (s : mm_t) (r reg av res : region_t) (f R : Z -> region_t) (a k x na nr lo hi : Z)
  (ins : list region_t).

Lemma scov_cons f lo hi x : lo < hi -> scov f lo hi x <-> in_region (f lo) x \/ scov f (lo + 1) hi x.
Proof.
  intros Hl. split.
  - intros (i & Hi & Hx). destruct (decide (i = lo)) as [->|]; [by left|right]. exists i. split; [lia|done].
  - intros [Hx|(i & Hi & Hx)]; [exists lo|exists i]; (split; [lia|done]).
Qed.
Lemma scov_nil f lo hi x : hi <= lo -> ~ scov f lo hi x.
Proof. intros Hl (i & Hi & _). lia. Qed.
Lemma scov_ext f g lo hi x : (forall i, lo <= i < hi -> f i = g i) -> scov f lo hi x <-> scov g lo hi x.
Proof. intros E. split; intros (i & Hi & Hx); exists i; (split; [done|]); [rewrite <- E|rewrite E]; done. Qed.

Lemma window_paddr r : in_window r -> region_ok (pptr_to_paddr_reg r).
Proof.
  intros (H1 & H2 & H3). unfold region_ok, pptr_to_paddr_reg, pptr_to_paddr. cbn.
  change PPTR_BASE_OFFSET with PPTR_BASE. change PPTR_BASE with 0xffffff8000000000 in *.
  rewrite !wsub_small by (unfold is_word; lia). lia.
Qed.

Lemma free_covers_shape s ins x : free_shape s ins -> free_covers s x <-> exists r, r ∈ ins /\ in_region r x.
Proof.
  intros [E _ _]. unfold free_covers. rewrite E. split.
  - intros (r & Hr & Hx). apply elem_of_app in Hr as [Hr|Hr]; [by exists r|].
    apply elem_of_replicate in Hr as [-> _]. unfold in_region in Hx. cbn in Hx. lia.
  - intros (r & Hr & Hx). exists r. split; [apply elem_of_app; by left|done].
Qed.

Lemma wp_insert_loop n : forall i s ins reg (Q : bool -> mm_t -> Prop),
  resv_ok s -> free_shape s ins -> (length ins < 16)%nat -> rg_start reg < rg_end reg ->
  region_ok (pptr_to_paddr_reg reg) -> 0 <= i <= Z.of_nat (length ins) -> i + Z.of_nat n = 16 ->
  (forall s', resv_ok s' -> avail_reg s' = avail_reg s -> res_reg s' = res_reg s ->
    free_shape s' (ins ++ [reg]) -> Q true s') ->
  wp (insert_loop n i reg) Q s.
Proof.
  induction n as [|n IH]; intros i s ins reg Q Hok Hs Hlen Hne Hreg Hi Hn HQ; [lia|]. cbn [insert_loop].
  pose proof Hs as [E Hall _]. apply wp_bind, wp_bind, wp_gets.
  destruct (decide (i < Z.of_nat (length ins))) as [Hlt|Hge].
  - destruct (lookup_lt_is_Some_2 ins (Z.to_nat i)) as [r Hr]; [lia|].
    eapply wp_lift; [apply (idx_Ok _ _ r); [lia|]; rewrite E; by apply lookup_app_l_Some|].
    pose proof (proj1 (Forall_lookup _ _) Hall _ _ Hr) as Hr'. cbn in Hr'.
    unfold is_reg_empty. rewrite bool_decide_false by lia.
    eapply IH; eauto; lia.
  - eapply wp_lift; [apply (idx_Ok _ _ (Region 0 0)); [lia|]; rewrite E, lookup_app_r by lia;
      apply lookup_replicate; split; [done|lia]|].
    change (is_reg_empty (Region 0 0)) with true. cbn iota.
    apply wp_bind, wp_reserve_region; [done|done|]. intros b s1 (Hf & Hok1 & _).
    destruct Hf as (Ef & Ea & Er & El). apply wp_bind, wp_bind, wp_gets. apply wp_bind.
    eapply wp_lift; [apply upd_Ok; rewrite Ef, E, length_app, length_replicate; lia|].
    apply wp_modify, wp_ret, HQ; [by destruct Hok1; split|done|done|].
    replace i with (Z.of_nat (length ins)) by lia. split; [|apply Forall_app; by split; [|repeat constructor]|
      rewrite length_app; cbn; lia]. cbn. rewrite Ef, E, Nat2Z.id, length_app. cbn.
    rewrite insert_app_r_alt, Nat.sub_diag by lia.
    replace (16 - length ins)%nat with (S (16 - (length ins + 1)))%nat by lia. cbn. by rewrite <- app_assoc.
Qed.

Lemma wp_insert_region s ins reg (Q : bool -> mm_t -> Prop) :
  resv_ok s -> free_shape s ins -> (length ins < 16)%nat -> rg_start reg < rg_end reg ->
  in_window reg ->
  (forall s', resv_ok s' -> avail_reg s' = avail_reg s -> free_shape s' (ins ++ [reg]) -> Q true s') ->
  wp (insert_region reg) Q s.
Proof.
  intros Hok Hs Hlen Hne Hw HQ. unfold insert_region.
  apply wp_bind, wp_assert; [apply bool_decide_true; lia|]. unfold is_reg_empty.
  rewrite bool_decide_false by lia. apply wp_bind, wp_gets. apply wp_bind.
  eapply wp_insert_loop; [done|exact Hs|done|done|by apply window_paddr|lia| |].
  - pose proof Hs as [E _ _]. rewrite E, length_app, length_replicate. lia.
  - intros s' H1 H2 _ H3. by apply wp_ret, HQ.
Qed.

(** What the walk needs of the regions from [a] and [r] on: both lists are in
    order, and a reserved region that overlaps an available one ends before
    the next available one begins. *)
Record walk_ok (f R : Z -> region_t) (a na r nr : Z) : Prop := {
  wo_av : forall i, a <= i < na -> in_window (f i);
  wo_res : forall k, r <= k < nr -> in_window (R k);
  wo_av_order : forall i j, a <= i -> i < j -> j < na -> rg_end (f i) <= rg_start (f j);
  wo_res_order : forall k l, r <= k -> k < l -> l < nr -> rg_end (R k) <= rg_start (R l);
  wo_straddle : forall k i j, r <= k < nr -> a <= i -> i < j -> j < na ->
    rg_start (R k) < rg_end (f i) -> rg_start (f i) < rg_end (R k) -> rg_end (R k) <= rg_start (f j) }.

(** Free so far, or still available and not reserved. *)
Definition todo (F : Prop) f R a na (r : Z) nr x : Prop := F \/ (scov f a na x /\ ~ scov R r nr x).

Lemma walk_res f R a na (r : Z) nr : walk_ok f R a na r nr -> walk_ok f R a na (r + 1) nr.
Proof. intros [H1 H2 H3 H4 H5]. split; try done; intros; [apply H2|apply H4|eapply H5]; eauto; lia. Qed.
Lemma walk_av f R a na (r : Z) nr : walk_ok f R a na r nr -> walk_ok f R (a + 1) na r nr.
Proof. intros [H1 H2 H3 H4 H5]. split; try done; intros; [apply H1|apply H3|eapply H5]; eauto; lia. Qed.
(** The current available region starts later. *)
Lemma walk_cut f f' R a na (r : Z) nr :
  a < na -> walk_ok f R a na r nr -> (forall i, a < i -> f' i = f i) -> rg_end (f' a) = rg_end (f a) ->
  rg_start (f a) <= rg_start (f' a) <= rg_end (f a) -> walk_ok f' R a na r nr.
Proof.
  intros Ha [H1 H2 H3 H4 H5] Hs He Hb.
  assert (forall i, a <= i -> rg_end (f' i) = rg_end (f i) /\ rg_start (f i) <= rg_start (f' i)) as Hall.
  { intros i Hi. destruct (decide (i = a)) as [->|]; [lia|]. rewrite Hs by lia. lia. }
  split; try done.
  - intros i Hi. destruct (decide (i = a)) as [->|]; [|rewrite Hs by lia; by apply H1].
    pose proof (H1 a ltac:(lia)) as Hw. unfold in_window in *. lia.
  - intros i j Hi Hij Hj. rewrite (Hs j) by lia. destruct (Hall i Hi) as [-> _]. by apply H3.
  - intros k i j Hk Hi Hij Hj. rewrite (Hs j) by lia. destruct (Hall i Hi) as [-> Hle].
    intros Ho1 Ho2. apply (H5 k i j); try done. lia.
Qed.

(** One round of the walk, for the set of addresses. *)
Section round.
Context (f R : Z -> region_t) (a na r nr : Z) (F : Prop).
Hypotheses (Hw : walk_ok f R a na r nr) (Ha : a < na) (Hr : r < nr).

Lemma av_above x : scov f a na x -> rg_start (f a) <= x.
Proof.
  intros (i & Hi & Hx). unfold in_region in Hx. destruct (decide (i = a)) as [->|]; [lia|].
  pose proof (wo_av_order _ _ _ _ _ _ Hw a i ltac:(lia) ltac:(lia) ltac:(lia)).
  pose proof (wo_av _ _ _ _ _ _ Hw a ltac:(lia)) as (_ & ? & _). lia.
Qed.
Lemma av_next_above x : scov f (a + 1) na x -> rg_end (f a) <= x.
Proof.
  intros (i & Hi & Hx). unfold in_region in Hx.
  pose proof (wo_av_order _ _ _ _ _ _ Hw a i ltac:(lia) ltac:(lia) ltac:(lia)). lia.
Qed.
Lemma res_above x : scov R r nr x -> rg_start (R r) <= x.
Proof.
  intros (i & Hi & Hx). unfold in_region in Hx. destruct (decide (i = r)) as [->|]; [lia|].
  pose proof (wo_res_order _ _ _ _ _ _ Hw r i ltac:(lia) ltac:(lia) ltac:(lia)).
  pose proof (wo_res _ _ _ _ _ _ Hw r ltac:(lia)) as (_ & ? & _). lia.
Qed.
Lemma res_next_above x : scov R (r + 1) nr x -> rg_end (R r) <= x.
Proof.
  intros (i & Hi & Hx). unfold in_region in Hx.
  pose proof (wo_res_order _ _ _ _ _ _ Hw r i ltac:(lia) ltac:(lia) ltac:(lia)). lia.
Qed.

(** The reserved region is passed: nothing that is still available is in it. *)
Lemma round_res x :
  (scov f a na x -> ~ in_region (R r) x) -> todo F f R a na (r + 1) nr x <-> todo F f R a na r nr x.
Proof. unfold todo. rewrite (scov_cons R r) by done. tauto. Qed.
(** The available region is passed: none of it is free. *)
Lemma round_av x :
  (in_region (f a) x -> scov R r nr x) -> todo F f R (a + 1) na r nr x <-> todo F f R a na r nr x.
Proof. unfold todo. rewrite (scov_cons f a) by done. tauto. Qed.
(** All of the available region is free. *)
Lemma round_take x :
  rg_end (f a) <= rg_start (R r) ->
  todo (F \/ in_region (f a) x) f R (a + 1) na r nr x <-> todo F f R a na r nr x.
Proof.
  intros Hle. unfold todo. rewrite (scov_cons f a) by done.
  assert (in_region (f a) x -> ~ scov R r nr x); [|tauto].
  intros Hx Hs. apply res_above in Hs. unfold in_region in Hx. lia.
Qed.
(** The available region loses the part before [m], which is reserved. *)
Lemma round_cut f' x m :
  rg_start (R r) <= rg_start (f a) -> rg_start (R r) < rg_end (f a) -> rg_start (f a) < rg_end (R r) ->
  m = Z.min (rg_end (f a)) (rg_end (R r)) ->
  (forall i, a < i -> f' i = f i) -> f' a = Region m (rg_end (f a)) ->
  todo F f' R a na (r + 1) nr x <-> todo F f R a na r nr x.
Proof.
  intros H1 H2 H3 Hm Hf' Ef. unfold todo. rewrite (scov_cons R r), !(scov_cons _ a) by done.
  rewrite (scov_ext f' f) by (intros; apply Hf'; lia). rewrite Ef.
  assert (in_region (Region m (rg_end (f a))) x <-> in_region (f a) x /\ ~ in_region (R r) x) as ->.
  { unfold in_region. cbn. lia. }
  assert (scov f (a + 1) na x -> ~ in_region (R r) x); [|tauto].
  intros (j & Hj & Hx) Hin. unfold in_region in *.
  pose proof (wo_straddle _ _ _ _ _ _ Hw r a j). lia.
Qed.
(** The first part of the available region is free, the rest comes later. *)
Lemma round_split f' x :
  rg_start (f a) < rg_start (R r) -> rg_start (R r) < rg_end (f a) -> rg_end (R r) < rg_end (f a) ->
  (forall i, a < i -> f' i = f i) -> f' a = Region (rg_end (R r)) (rg_end (f a)) ->
  todo (F \/ in_region (Region (rg_start (f a)) (rg_start (R r))) x) f' R a na (r + 1) nr x
  <-> todo F f R a na r nr x.
Proof.
  intros H1 H2 H3 Hf' Ef. unfold todo. rewrite (scov_cons R r), !(scov_cons _ a) by done.
  rewrite (scov_ext f' f) by (intros; apply Hf'; lia). rewrite Ef.
  pose proof (wo_res _ _ _ _ _ _ Hw r ltac:(lia)) as (_ & Hrr & _).
  assert (in_region (f a) x <-> in_region (Region (rg_start (f a)) (rg_start (R r))) x
    \/ in_region (Region (rg_end (R r)) (rg_end (f a))) x \/ (in_region (f a) x /\ in_region (R r) x)) as Hc.
  { unfold in_region. cbn. lia. }
  assert (in_region (Region (rg_start (f a)) (rg_start (R r))) x -> ~ in_region (R r) x /\ ~ scov R (r + 1) nr x).
  { intros Hx. unfold in_region in *. cbn in Hx. split; [lia|]. intros Hs. apply res_next_above in Hs. lia. }
  assert (in_region (Region (rg_end (R r)) (rg_end (f a))) x -> ~ in_region (R r) x).
  { unfold in_region. cbn. lia. }
  assert (scov f (a + 1) na x -> ~ in_region (R r) x); [|tauto].
  intros Hs Hin. apply av_next_above in Hs. unfold in_region in Hin. lia.
Qed.
(** The first part of the available region is free, the rest is reserved. *)
Lemma round_head x :
  rg_start (f a) < rg_start (R r) -> rg_start (R r) < rg_end (f a) -> rg_end (f a) <= rg_end (R r) ->
  todo (F \/ in_region (Region (rg_start (f a)) (rg_start (R r))) x) f R (a + 1) na r nr x
  <-> todo F f R a na r nr x.
Proof.
  intros H1 H2 H3. unfold todo. rewrite (scov_cons f a), !(scov_cons R r) by done.
  assert (in_region (f a) x <-> in_region (Region (rg_start (f a)) (rg_start (R r))) x
    \/ (in_region (f a) x /\ in_region (R r) x)) as Hc.
  { unfold in_region. cbn. lia. }
  assert (in_region (Region (rg_start (f a)) (rg_start (R r))) x -> ~ in_region (R r) x /\ ~ scov R (r + 1) nr x).
  { intros Hx. unfold in_region in *. cbn in Hx. split; [lia|]. intros Hs. apply res_next_above in Hs.
    pose proof (wo_res _ _ _ _ _ _ Hw r ltac:(lia)) as (_ & ? & _). lia. }
  tauto.
Qed.
End round.
End freemem.

(** ** The walk over both lists *)
Lemma wp_then {S A B C} (m : ST S A) (k : ST S B) (n : ST S C) (Q : C -> S -> Prop) s :
  wp (m ;; k ;; skip) (fun _ => wp n Q) s -> wp (m ;; k ;; n) Q s.
Proof.
  unfold wp, mbind, st_bind. destruct (m s) as [[? s1]| | |]; try done.
  by destruct (k s1) as [[? s2]| | |].
Qed.

Section walk.
Context (reserved : list region_t) (na nr : Z).
Implicit Types (s : mm_t) (ins : list region_t) (a r x : Z).
#[local] Abbreviation R := (fun k : Z => reserved !!! Z.to_nat k).

Record walk_state (s : mm_t) (ins : list region_t) (a r : Z) : Prop := {
  ws_resv : resv_ok s;
  ws_free : free_shape s ins;
  ws_walk : walk_ok (aview s) R a na r nr;
  ws_len : length (avail_reg s) = Z.to_nat MAX_NUM_FREEMEM_REG;
  ws_room : Z.of_nat (length ins) + (na - a) + (nr - r) <= 15;
  ws_a : 0 <= a <= na /\ na <= MAX_NUM_FREEMEM_REG;
  ws_r : 0 <= r <= nr /\ nr <= Z.of_nat (length reserved) }.
Definition todo_at s a r x : Prop := todo (free_covers s x) (aview s) R a na r nr x.

Lemma wp_avail_get s a (Q : region_t -> mm_t -> Prop) :
  0 <= a < Z.of_nat (length (avail_reg s)) -> Q (aview s a) s -> wp (avail_get a) Q s.
Proof.
  intros Ha HQ. apply wp_bind, wp_gets. eapply wp_lift; [|exact HQ].
  apply idx_Ok; [lia|]. apply list_lookup_lookup_total_lt. lia.
Qed.
Lemma wp_avail_set s a v (Q : unit -> mm_t -> Prop) :
  0 <= a < Z.of_nat (length (avail_reg s)) ->
  (forall s', mm_reserved s' = mm_reserved s -> resv_count s' = resv_count s -> freemem s' = freemem s ->
    length (avail_reg s') = length (avail_reg s) -> aview s' a = v ->
    (forall i, 0 <= i -> i <> a -> aview s' i = aview s i) -> Q tt s') ->
  wp (avail_set a v) Q s.
Proof.
  intros Ha HQ. apply wp_bind, wp_gets. apply wp_bind. eapply wp_lift; [by apply upd_Ok|].
  apply wp_modify, HQ; try done.
  - apply length_insert.
  - unfold aview. cbn. apply list_lookup_total_insert_eq. lia.
  - intros i Hi Hne. unfold aview. cbn. apply list_lookup_total_insert_ne. lia.
Qed.

Lemma free_covers_snoc s s' ins reg x :
  free_shape s ins -> free_shape s' (ins ++ [reg]) ->
  free_covers s' x <-> free_covers s x \/ in_region reg x.
Proof.
  intros H H'. rewrite (free_covers_shape _ _ _ H), (free_covers_shape _ _ _ H'). split.
  - intros (r & Hr & Hx). apply elem_of_app in Hr as [Hr|Hr%list_elem_of_singleton]; [left; by exists r|subst; by right].
  - intros [(r & Hr & Hx)|Hx]; [exists r|exists reg]; (split; [set_solver|done]).
Qed.
Lemma free_shape_ext s s' ins : freemem s' = freemem s -> free_shape s ins -> free_shape s' ins.
Proof. intros E [H1 H2 H3]. split; congruence. Qed.
Lemma free_covers_ext s s' x : freemem s' = freemem s -> free_covers s' x <-> free_covers s x.
Proof. intros E. unfold free_covers. by rewrite E. Qed.
Lemma todo_iff (F F' : Prop) f R' a n r m x : (F <-> F') -> todo F f R' a n r m x <-> todo F' f R' a n r m x.
Proof. unfold todo. tauto. Qed.

(** The walk goes on in [s'] from [(a', r')] with the same set to find. *)
Definition walk_to s a r s' ins' a' r' : Prop :=
  walk_state s' ins' a' r' /\ forall x, todo_at s' a' r' x <-> todo_at s a r x.
Lemma walk_to_trans s1 a1 r1 s2 ins2 a2 r2 s3 ins3 a3 r3 :
  walk_to s1 a1 r1 s2 ins2 a2 r2 -> walk_to s2 a2 r2 s3 ins3 a3 r3 -> walk_to s1 a1 r1 s3 ins3 a3 r3.
Proof. intros [_ H1] [H2 H3]. split; [done|]. intros x. by rewrite H3. Qed.

(** Reserving changes none of it. *)
Lemma wp_walk_reserve s ins a r reg (Q : bool -> mm_t -> Prop) :
  walk_state s ins a r -> in_window reg ->
  (forall b s', walk_state s' ins a r -> freemem s' = freemem s -> avail_reg s' = avail_reg s ->
    (forall x, todo_at s' a r x <-> todo_at s a r x) -> Q b s') ->
  wp (reserve_region (pptr_to_paddr_reg reg)) Q s.
Proof.
  intros [H1 H2 H3 H4 H5 H6 H7] Hw HQ. apply wp_reserve_region; [done|by apply window_paddr|].
  intros b s' ((Ef & Ea & _ & _) & Hok & _).
  assert (aview s' = aview s) as Ev by (unfold aview; by rewrite Ea).
  apply HQ; try done.
  - split; try done; [by eapply free_shape_ext|by rewrite Ev|by rewrite Ea].
  - intros x. unfold todo_at. rewrite Ev. by apply todo_iff, free_covers_ext.
Qed.
Lemma wp_walk_insert s ins a r reg (Q : bool -> mm_t -> Prop) :
  walk_state s ins a r -> a < na -> r < nr -> in_window reg -> rg_start reg < rg_end reg ->
  (forall s', resv_ok s' -> free_shape s' (ins ++ [reg]) -> avail_reg s' = avail_reg s ->
    aview s' = aview s -> (forall x, free_covers s' x <-> free_covers s x \/ in_region reg x) -> Q true s') ->
  wp (insert_region reg) Q s.
Proof.
  intros [H1 H2 H3 H4 H5 H6 H7] Ha Hr Hw Hne HQ. eapply wp_insert_region; [done|exact H2|lia|done|done|].
  intros s' Hok Ea Hs. apply HQ; try done; [unfold aview; by rewrite Ea|].
  intros x. by apply free_covers_snoc with ins.
Qed.

(** One round of the loop, by the case of the code. *)
Lemma walk_next_res s ins a r :
  walk_state s ins a r -> a < na -> r < nr ->
  (forall x, scov (aview s) a na x -> ~ in_region (R r) x) -> walk_to s a r s ins a (r + 1).
Proof.
  intros [H1 H2 H3 H4 H5 H6 H7] Ha Hr Hx. split.
  - split; try done; [by apply walk_res|lia|lia].
  - intros x. apply round_res; auto.
Qed.
Lemma walk_next_av s ins a r :
  walk_state s ins a r -> a < na -> r < nr ->
  (forall x, in_region (aview s a) x -> scov R r nr x) -> walk_to s a r s ins (a + 1) r.
Proof.
  intros [H1 H2 H3 H4 H5 H6 H7] Ha Hr Hx. split.
  - split; try done; [by apply walk_av|lia|lia].
  - intros x. apply round_av; auto.
Qed.

(** The available region loses its head: the new view. *)
Lemma walk_cut_state s s' ins a r m :
  walk_state s ins a r -> a < na -> resv_ok s' -> forall ins', free_shape s' ins' ->
  length (avail_reg s') = length (avail_reg s) ->
  aview s' a = Region m (rg_end (aview s a)) -> (forall i, 0 <= i -> i <> a -> aview s' i = aview s i) ->
  rg_start (aview s a) <= m <= rg_end (aview s a) ->
  Z.of_nat (length ins') + (na - a) + (nr - (r + 1)) <= 15 -> r < nr ->
  walk_state s' ins' a (r + 1).
Proof.
  intros [H1 H2 H3 H4 H5 H6 H7] Ha Hok ins' Hs El Ev Eo Hm Hroom Hr. split; try done; [|congruence|lia].
  apply walk_res. eapply (walk_cut (aview s)); [done|done| | |].
  - intros i Hi. apply Eo; lia.
  - by rewrite Ev.
  - by rewrite Ev.
Qed.

Lemma wp_cut_reserve s s0 ins ins0 a r m (F : Z -> Prop) (Q : unit -> mm_t -> Prop) :
  walk_state s0 ins0 a r -> a < na -> r < nr ->
  resv_ok s -> free_shape s ins -> aview s = aview s0 -> avail_reg s = avail_reg s0 ->
  rg_start (aview s a) <= m <= rg_end (aview s a) ->
  Z.of_nat (length ins) + (na - a) + (nr - (r + 1)) <= 15 ->
  (forall x, free_covers s x <-> F x) ->
  (forall s', walk_state s' ins a (r + 1) ->
    (forall x, todo_at s' a (r + 1) x <-> todo (F x) (aview s') R a na (r + 1) nr x) ->
    aview s' a = Region m (rg_end (aview s a)) -> (forall i, 0 <= i -> i <> a -> aview s' i = aview s i) ->
    Q tt s') ->
  wp (avail_set a (set_rg_start m (aview s a)) ;; reserve_region (pptr_to_paddr_reg (R r)) ;; skip) Q s.
Proof.
  intros Hst Ha Hr Hok Hs Ev0 Ea0 Hm Hroom HF HQ. pose proof Hst as [H1 H2 H3 H4 H5 H6 H7].
  change (Z.to_nat MAX_NUM_FREEMEM_REG) with 16%nat in H4. change MAX_NUM_FREEMEM_REG with 16 in H6.
  apply wp_bind, wp_avail_set; [rewrite Ea0; lia|]. intros s1 E1 E2 E3 E4 E5 E6.
  assert (resv_ok s1) as Hok1.
  { destruct Hok as [? ? Hrr]. split; [congruence|congruence|]. intros i Hi. unfold rview. rewrite E1. apply Hrr. lia. }
  assert (walk_state s1 ins a (r + 1)) as Hw1.
  { eapply (walk_cut_state s0); try done.
    - by eapply free_shape_ext.
    - congruence.
    - by rewrite E5, Ev0.
    - intros i Hi Hne. rewrite E6 by done. by rewrite Ev0.
    - by rewrite Ev0 in Hm. }
  apply wp_bind. eapply wp_walk_reserve; [exact Hw1|by apply (wo_res _ _ _ _ _ _ H3)|].
  intros b s2 Hw2 Ef2 Ea2 Ht2. assert (aview s2 = aview s1) as Ev2 by (unfold aview; by rewrite Ea2).
  apply wp_ret, HQ; [done| | |].
  - intros x. unfold todo_at. apply todo_iff. rewrite <- HF.
    rewrite (free_covers_ext s1 s2) by done. by apply free_covers_ext.
  - by rewrite Ev2.
  - intros i Hi Hne. rewrite Ev2. by apply E6.
Qed.

Lemma wp_freemem_loop fuel : forall s ins a r (Q : Z * Z -> mm_t -> Prop),
  walk_state s ins a r -> (na - a) + (nr - r) < Z.of_nat fuel ->
  (forall s' ins' a' r', walk_to s a r s' ins' a' r' -> a' = na \/ r' = nr -> Q (a', r') s') ->
  wp (freemem_loop fuel na nr reserved a r) Q s.
Proof.
  induction fuel as [|fuel IH]; intros s ins a r Q Hst Hf HQ.
  { destruct Hst as [_ _ _ _ _ ? ?]. lia. }
  pose proof Hst as [H1 H2 H3 H4 H5 H6 H7]. cbn [freemem_loop].
  change (Z.to_nat MAX_NUM_FREEMEM_REG) with 16%nat in H4. change MAX_NUM_FREEMEM_REG with 16 in H6.
  case_bool_decide as Ha; [case_bool_decide as Hr|]; cbn [andb].
  2-3: (apply wp_ret, (HQ s ins); [by split|lia]).
  apply wp_bind. eapply wp_lift; [apply idx_Ok; [lia|]; apply list_lookup_lookup_total_lt; lia|].
  apply wp_bind, wp_avail_get; [lia|].
  pose proof (wo_res _ _ _ _ _ _ H3 r ltac:(lia)) as Hwr.
  pose proof (wo_av _ _ _ _ _ _ H3 a ltac:(lia)) as Hwa. pose proof Hwr as (Hr1 & Hr2 & Hr3). pose proof Hwa as (Ha1 & Ha2 & Ha3).
  assert (forall s1 ins1 a1 r1, walk_to s a r s1 ins1 a1 r1 -> (na - a1) + (nr - r1) < Z.of_nat fuel ->
    wp (freemem_loop fuel na nr reserved a1 r1) Q s1) as Hgo.
  { intros s1 ins1 a1 r1 Ht Hlt. eapply IH; [apply Ht|done|].
    intros s2 ins2 a2 r2 Ht2 Hend. eapply HQ; [by eapply walk_to_trans|done]. }
  case_bool_decide.
  { eapply Hgo; [apply walk_next_res; [done..|]; unfold in_region; lia|lia]. }
  case_bool_decide.
  { eapply Hgo; [apply walk_next_av; [done..|]; unfold in_region; lia|lia]. }
  case_bool_decide.
  { apply wp_bind. eapply wp_walk_reserve; [done|done|]. intros b s1 Hst1 Ef Ea Ht.
    eapply Hgo; [|lia]. eapply walk_to_trans; [split; [exact Hst1|exact Ht]|].
    apply walk_next_res; [done..|]. assert (aview s1 = aview s) as -> by (unfold aview; by rewrite Ea).
    intros x Hs. eapply av_above in Hs; [|exact H3|done]. unfold in_region. lia. }
  case_bool_decide.
  { apply wp_bind. eapply wp_walk_insert; [done|done|done|done|lia|]. intros s1 Hok1 Hs1 Ea Ev Hc.
    eapply (Hgo s1 (ins ++ [aview s a])); [|lia]. split.
    - split; [done|done|rewrite Ev; by apply walk_av|by rewrite Ea|rewrite length_app; cbn; lia|
        change MAX_NUM_FREEMEM_REG with 16; lia|lia].
    - intros x. unfold todo_at. rewrite Ev, (todo_iff _ _ _ _ _ _ _ _ _ (Hc x)).
      apply (round_take _ _ _ _ _ _ _ H3 Ha Hr). cbv beta. lia. }
  case_bool_decide.
  { match goal with |- context [set_rg_start ?e _] => set (m := e) end.
    assert (m = Z.min (rg_end (aview s a)) (rg_end (R r))) as Em by (unfold m; case_bool_decide; lia).
    clearbody m. cbv beta in Em.
    apply wp_then.
    eapply (wp_cut_reserve s s ins ins a r m (free_covers s)); try done; [lia|lia|].
    intros s1 Hst1 Ht1 Ev1 Eo1. eapply (Hgo s1 ins); [|lia]. split; [done|].
    intros x. rewrite Ht1. eapply (round_cut _ _ _ _ _ _ _ H3 Ha Hr _ _ m); cbv beta; try done; try lia.
    intros i Hi. apply Eo1; lia. }
  apply wp_bind, wp_assert; [apply bool_decide_true; lia|].
  assert (in_window (set_rg_end (rg_start (R r)) (aview s a))) as Hwm by (split_and!; cbn; lia).
  apply wp_bind. eapply wp_walk_insert; [done|done|done|done|cbn; lia|]. intros s1 Hok1 Hs1 Ea Ev Hc.
  case_bool_decide.
  - rewrite <- Ev.
    apply wp_then.
    eapply (wp_cut_reserve s1 s _ ins a r); [done|done|done|done|exact Hs1|done|done|rewrite Ev; lia|
      rewrite length_app; cbn; lia|exact Hc|].
    intros s2 Hst2 Ht2 Ev2 Eo2. eapply Hgo; [|lia]. split; [done|].
    intros x. rewrite Ht2. rewrite Ev in Ev2, Eo2.
    eapply (round_split _ _ _ _ _ _ _ H3 Ha Hr); cbv beta; [lia|lia|lia| |done]. intros i Hi. apply Eo2; lia.
  - eapply (Hgo s1 (ins ++ [_])); [|lia]. split.
    + split; [done|done|rewrite Ev; by apply walk_av|by rewrite Ea|rewrite length_app; cbn; lia|
        change MAX_NUM_FREEMEM_REG with 16; lia|lia].
    + intros x. unfold todo_at. rewrite Ev, (todo_iff _ _ _ _ _ _ _ _ _ (Hc x)).
      apply (round_head _ _ _ _ _ _ _ H3 Ha Hr); cbv beta; lia.
Qed.
End walk.

(** ** The whole initialisation *)
Section init.
Context (available reserved : list region_t) (na nr : Z).
Implicit Types (s : mm_t) (ins : list region_t) (a r x i k : Z).
#[local] Abbreviation A := (fun i : Z => available !!! Z.to_nat i).
#[local] Abbreviation T := (fun i : Z => trim_region (available !!! Z.to_nat i)).
#[local] Abbreviation R := (fun k : Z => reserved !!! Z.to_nat k).

(** What the boot loader passes: available regions that are not empty, below
    the size of the kernel window, in order; at most fifteen regions in all. *)
Record boot_regions : Prop := {
  br_na : 1 <= na <= Z.of_nat (length available);
  br_nr : 0 <= nr <= Z.of_nat (length reserved) /\ (0 < length reserved)%nat;
  br_room : na + nr <= 15;
  br_av : forall i, 0 <= i < na -> 0 <= rg_start (A i) < rg_end (A i) /\ rg_end (A i) < 2 ^ 64 - PPTR_BASE;
  br_av_order : forall i j, 0 <= i -> i < j -> j < na -> rg_end (A i) <= rg_start (A j);
  br_res : forall k, 0 <= k < nr -> in_window (R k);
  br_res_order : forall k l, 0 <= k -> k < l -> l < nr -> rg_end (R k) <= rg_start (R l) }.
(** No reserved region reaches from one available region into the next. *)
Definition no_straddle : Prop := forall k i j,
  0 <= k < nr -> 0 <= i -> i < j -> j < na ->
  rg_start (R k) < rg_end (T i) -> rg_start (T i) < rg_end (R k) -> rg_end (R k) <= rg_start (T j).

Record boot_state (s : mm_t) : Prop := {
  bs_resv : resv_ok s;
  bs_free : length (freemem s) = Z.to_nat MAX_NUM_FREEMEM_REG;
  bs_avail : length (avail_reg s) = Z.to_nat MAX_NUM_FREEMEM_REG }.

Context (Hb : boot_regions).

Lemma wp_check_available n : forall i last s (Q : bool -> mm_t -> Prop),
  0 <= i -> i + Z.of_nat n = na -> Q true s -> wp (check_available_loop n i available last) Q s.
Proof.
  induction n as [|n IH]; intros i last s Q Hi Hn HQ; cbn [check_available_loop]; [by apply wp_ret|].
  pose proof (br_na Hb). apply wp_bind.
  eapply wp_lift; [apply idx_Ok; [lia|]; apply list_lookup_lookup_total_lt; lia|].
  pose proof (br_av Hb i ltac:(lia)) as Ha. cbv beta in Ha.
  do 2 (rewrite bool_decide_false by lia). apply IH; [lia|lia|done].
Qed.
Lemma wp_check_reserved n : forall i last s (Q : bool -> mm_t -> Prop),
  0 <= i -> i + Z.of_nat n = nr -> (0 < i -> last = R (i - 1)) -> Q true s ->
  wp (check_reserved_loop n i reserved last) Q s.
Proof.
  induction n as [|n IH]; intros i last s Q Hi Hn Hlast HQ; cbn [check_reserved_loop]; [by apply wp_ret|].
  pose proof (br_nr Hb). apply wp_bind.
  eapply wp_lift; [apply idx_Ok; [lia|]; apply list_lookup_lookup_total_lt; lia|].
  pose proof (br_res Hb i ltac:(lia)) as (_ & Ha & _). cbv beta in Ha.
  rewrite bool_decide_false by lia.
  rewrite (proj2 (andb_false_iff _ _)).
  2: { destruct (decide (0 < i)) as [Hp|]; [right|left; apply bool_decide_false; lia].
       rewrite (Hlast Hp). apply bool_decide_false.
       pose proof (br_res_order Hb (i - 1) i ltac:(lia) ltac:(lia) ltac:(lia)). cbv beta in *. lia. }
  apply IH; [lia|lia| |done]. intros _. by replace (i + 1 - 1) with i by lia.
Qed.

Lemma wp_clear_free n : forall i s (Q : unit -> mm_t -> Prop),
  0 <= i -> i + Z.of_nat n = Z.of_nat (length (freemem s)) ->
  (forall s', mm_reserved s' = mm_reserved s -> resv_count s' = resv_count s -> avail_reg s' = avail_reg s ->
    freemem s' = take (Z.to_nat i) (freemem s) ++ replicate n (Region 0 0) -> Q tt s') ->
  wp (for_range n i (fun i => free_set i (Region 0 0))) Q s.
Proof.
  induction n as [|n IH]; intros i s Q Hi Hn HQ; cbn [for_range].
  - apply wp_ret, HQ; try done. rewrite take_ge by lia. by rewrite app_nil_r.
  - apply wp_bind, wp_bind, wp_gets, wp_bind. eapply wp_lift; [apply upd_Ok; lia|]. apply wp_modify.
    apply IH; [lia|cbn; rewrite length_insert; lia|]. intros s' E1 E2 E3 E4. apply HQ; try done.
    rewrite E4. cbn. replace (Z.to_nat (i + 1)) with (S (Z.to_nat i)) by lia.
    rewrite take_S_r with (x := Region 0 0); [|apply list_lookup_insert_eq; lia].
    rewrite take_insert_ge by lia. by rewrite <- app_assoc.
Qed.

Lemma wp_init_regions s (Q : unit -> mm_t -> Prop) :
  boot_state s -> (forall s', boot_state s' -> free_shape s' [] ->
    (forall i, 0 <= i < na -> aview s' i = T i) -> Q tt s') ->
  wp (init_regions na available) Q s.
Proof.
  intros [H1 H2 H3] HQ. pose proof (br_na Hb). pose proof (br_room Hb). pose proof (br_nr Hb).
  change (Z.to_nat MAX_NUM_FREEMEM_REG) with 16%nat in *.
  apply wp_bind, wp_gets, wp_bind, wp_clear_free; [lia|lia|]. intros s1 E1 E2 E3 E4.
  apply (wp_for_range (fun i s' => mm_reserved s' = mm_reserved s /\ resv_count s' = resv_count s /\
    freemem s' = freemem s1 /\ length (avail_reg s') = 16%nat /\ forall j, 0 <= j < i -> aview s' j = T j)).
  - split_and!; try done; [by rewrite E3|]. lia.
  - intros i s2 Hi (G1 & G2 & G3 & G4 & G5). apply wp_bind.
    eapply wp_lift; [apply idx_Ok; [lia|]; apply list_lookup_lookup_total_lt; lia|].
    apply wp_avail_set; [lia|]. intros s3 F1 F2 F3 F4 F5 F6. split_and!; try congruence.
    intros j Hj. destruct (decide (j = i)) as [->|]; [done|]. rewrite F6 by lia. apply G5. lia.
  - intros s' (G1 & G2 & G3 & G4 & G5). apply HQ.
    + split; [|rewrite G3, E4, H2; by rewrite length_app, length_replicate|done].
      destruct H1 as [L1 L2 L3]. split; [congruence|congruence|]. intros j Hj. unfold rview. rewrite G1.
      apply L3. lia.
    + split; [|by constructor|cbn; lia]. by rewrite G3, E4, H2.
    + intros i Hi. apply G5. lia.
Qed.

Lemma wp_reserve_rest s ins a r (Q : unit -> mm_t -> Prop) :
  walk_state reserved na nr s ins a r ->
  (forall s', walk_state reserved na nr s' ins a r -> freemem s' = freemem s -> avail_reg s' = avail_reg s ->
    Q tt s') ->
  wp (reserve_rest nr reserved r) Q s.
Proof.
  intros Hst HQ. pose proof (ws_r _ _ _ _ _ _ _ Hst) as Hr.
  apply (wp_for_range (fun _ s' => walk_state reserved na nr s' ins a r /\ freemem s' = freemem s /\
    avail_reg s' = avail_reg s)); [done| |intros s' (? & ? & ?); by apply HQ].
  intros k s1 Hk (H1 & H2 & H3). apply wp_bind.
  eapply wp_lift; [apply idx_Ok; [lia|]; apply list_lookup_lookup_total_lt; lia|].
  apply wp_when; intros _; [|done].
  apply wp_bind. eapply wp_walk_reserve; [exact H1|apply (br_res Hb k); lia|].
  intros b s2 Hst2 Ef Ea _. apply wp_ret. split; [done|]. split; congruence.
Qed.

Lemma wp_insert_rest s ins a (Q : unit -> mm_t -> Prop) :
  resv_ok s -> free_shape s ins -> length (avail_reg s) = 16%nat -> 0 <= a <= na ->
  Z.of_nat (length ins) + (na - a) <= 15 -> (forall i, a <= i < na -> in_window (aview s i)) ->
  (forall s' ins', resv_ok s' -> free_shape s' ins' -> (length ins' <= 15)%nat ->
    (forall x, free_covers s' x <-> free_covers s x \/ scov (aview s) a na x) -> Q tt s') ->
  wp (insert_rest na a) Q s.
Proof.
  intros Hok Hs Hl Ha Hroom Hw HQ. pose proof (br_room Hb). pose proof (br_nr Hb).
  apply (wp_for_range (fun k s' => resv_ok s' /\ avail_reg s' = avail_reg s /\ exists ins', free_shape s' ins' /\
    Z.of_nat (length ins') + (na - k) <= 15 /\
    forall x, (free_covers s' x \/ scov (aview s) k na x) <-> (free_covers s x \/ scov (aview s) a na x))).
  - split; [done|]. split; [done|]. by exists ins.
  - intros k s1 Hk (Hok1 & Ea & ins1 & Hs1 & Hr1 & Hc1).
    assert (aview s1 = aview s) as Ev by (unfold aview; by rewrite Ea).
    apply wp_bind, wp_avail_get; [rewrite Ea; lia|]. rewrite Ev. apply wp_when; intros Hne.
    + apply bool_decide_eq_true in Hne. apply wp_bind.
      eapply wp_insert_region; [done|exact Hs1|lia|done|apply Hw; lia|].
      intros s2 Hok2 Ea2 Hs2. apply wp_ret. split; [done|]. split; [congruence|].
      exists (ins1 ++ [aview s k]). split; [done|]. split; [rewrite length_app; cbn; lia|].
      intros x. rewrite <- Hc1, (free_covers_snoc _ _ _ _ _ Hs1 Hs2), (scov_cons _ k) by lia. tauto.
    + apply bool_decide_eq_false in Hne. split; [done|]. split; [done|]. exists ins1. split; [done|].
      split; [lia|]. intros x. rewrite <- Hc1, (scov_cons _ k) by lia.
      assert (~ in_region (aview s k) x) by (unfold in_region; lia). tauto.
  - intros s' (Hok' & _ & ins' & Hs' & Hr' & Hc'). eapply (HQ s' ins'); [done|done|lia|].
    intros x. rewrite <- Hc'. split; [by left|]. intros [?|Hx]; [done|].
    exfalso. eapply scov_nil; [|exact Hx]. lia.
Qed.

(** The trimmed regions are in the window and in order. *)
Lemma ceiling_paddr p :
  0 <= p < 2 ^ 64 - PPTR_BASE ->
  ceiling_kernel_window (paddr_to_pptr p) = Z.min (p + PPTR_BASE) PPTR_TOP.
Proof.
  intros Hp. unfold ceiling_kernel_window, pptr_to_paddr, paddr_to_pptr.
  change PPTR_BASE_OFFSET with PPTR_BASE. change PADDR_TOP with (PPTR_TOP - PPTR_BASE).
  change PPTR_BASE with 0xffffff8000000000 in *. change PPTR_TOP with 0xffffffffc0000000.
  rewrite wadd_small by (unfold is_word; lia). rewrite wsub_small by (unfold is_word; lia).
  case_bool_decide; lia.
Qed.
Lemma walk_init f : no_straddle -> (forall i, 0 <= i < na -> f i = T i) -> walk_ok f R 0 na 0 nr.
Proof.
  intros Hn Hf.
  assert (forall i, 0 <= i < na -> rg_start (T i) = Z.min (rg_start (A i) + PPTR_BASE) PPTR_TOP /\
    rg_end (T i) = Z.min (rg_end (A i) + PPTR_BASE) PPTR_TOP) as HT.
  { intros i Hi. pose proof (br_av Hb i Hi) as Ha. cbv beta in Ha. cbn. rewrite !ceiling_paddr by lia. done. }
  split; try apply Hb.
  - intros i Hi. rewrite Hf by done. destruct (HT i Hi) as [E1 E2]. pose proof (br_av Hb i Hi) as Ha.
    unfold in_window. cbv beta in *. rewrite E1, E2. change PPTR_TOP with 0xffffffffc0000000.
    change PPTR_BASE with 0xffffff8000000000 in *. lia.
  - intros i j Hi Hij Hj. rewrite !Hf by lia. destruct (HT i ltac:(lia)) as [_ ->], (HT j ltac:(lia)) as [-> _].
    pose proof (br_av_order Hb i j Hi Hij Hj). cbv beta in *. lia.
  - intros k i j Hk Hi Hij Hj. rewrite !Hf by lia. by apply Hn.
Qed.

Lemma wp_init_freemem s :
  boot_state s -> no_straddle ->
  wp (rust_init_freemem na available nr reserved) (fun b s' => b = true /\ resv_ok s' /\
    forall x, free_covers s' x <-> scov T 0 na x /\ ~ scov R 0 nr x) s.
Proof.
  intros Hs Hn. pose proof (br_na Hb). pose proof (br_nr Hb). pose proof (br_room Hb).
  unfold rust_init_freemem. apply wp_bind. unfold check_available_memory.
  rewrite bool_decide_false by lia. apply wp_bind.
  eapply wp_lift; [apply idx_Ok; [lia|]; apply list_lookup_lookup_total_lt; lia|].
  apply wp_check_available; [lia|lia|]. apply wp_bind. unfold check_reserved_memory. apply wp_bind.
  eapply wp_lift; [apply idx_Ok; [lia|]; apply list_lookup_lookup_total_lt; lia|].
  apply wp_check_reserved; [lia|lia|lia|]. cbn [negb].
  apply wp_bind, wp_init_regions; [done|]. intros s1 [B1 B2 B3] Hf1 Hv1.
  assert (walk_state reserved na nr s1 [] 0 0) as Hw1.
  { split; try done; [by apply walk_init|cbn; lia|change MAX_NUM_FREEMEM_REG with 16; lia|lia]. }
  apply wp_bind. eapply wp_freemem_loop; [exact Hw1|lia|]. intros s2 ins2 a r [Hw2 Ht2] Hend. cbn [fst snd].
  apply wp_bind. eapply wp_reserve_rest; [exact Hw2|]. intros s3 Hw3 Ef3 Ea3.
  assert (aview s3 = aview s2) as Ev3 by (unfold aview; by rewrite Ea3).
  pose proof Hw3 as [W1 W2 W3 W4 W5 W6 W7].
  apply wp_bind. eapply wp_insert_rest; [done|exact W2|done|lia|lia|apply W3|].
  intros s4 ins4 Hok4 Hs4 Hl4 Hc4. apply wp_bind, wp_gets, wp_bind, wp_bind, wp_gets.
  pose proof Hs4 as [E4 _ _].
  assert (freemem s4 !! 15%nat = Some (Region 0 0)) as Hlast.
  { rewrite E4, lookup_app_r by lia. apply lookup_replicate. split; [done|lia]. }
  assert (length (freemem s4) = 16%nat) as -> by (rewrite E4, length_app, length_replicate; lia).
  eapply wp_lift; [by apply (idx_Ok _ 15)|]. apply wp_ret. split; [done|]. split; [done|].
  intros x. rewrite Hc4, (free_covers_ext s2 s3) by done. rewrite Ev3.
  specialize (Ht2 x). unfold todo_at, todo in Ht2.
  rewrite (scov_ext (aview s1) T) in Ht2 by done.
  assert (~ free_covers s1 x) as Hno.
  { rewrite (free_covers_shape _ _ _ Hf1). intros (q & Hq & _). by apply not_elem_of_nil in Hq. }
  assert (scov (aview s2) a na x -> ~ scov R r nr x); [|tauto].
  intros Hav. destruct Hend as [->| ->]; [by apply scov_nil in Hav|by apply scov_nil].
Qed.
End init.

(** C14: suppose that there are at most fifteen available and reserved regions
    in all, each list in order, and that no reserved region reaches from one
    available region into the next.  Then [rust_init_freemem] returns true, the
    free memory is exactly the available memory, moved into the kernel window
    and cut at its end, without the reserved regions, and the array of reserved
    regions stays well formed.  Without the last condition this fails: a reserved
    region that reaches into the next available region is partly given away as
    free memory ([init_freemem_straddle]). *)
Theorem rust_init_freemem_exact (s : mm_t) (available reserved : list region_t) (na nr : Z) :
  boot_state s -> boot_regions available reserved na nr -> no_straddle available reserved na nr ->
  wp (rust_init_freemem na available nr reserved) (fun b s' => b = true /\ resv_ok s' /\
    forall x, free_covers s' x <->
      scov (fun i => trim_region (available !!! Z.to_nat i)) 0 na x /\
      ~ scov (fun k => reserved !!! Z.to_nat k) 0 nr x) s.
Proof. intros Hs Hb Hn. by apply wp_init_freemem. Qed.

(** [reserve_region] adds exactly the given region to the reserved memory,
    merging neighbours; it fails, and changes nothing, only when the array is
    full. *)
Theorem reserve_region_adds (s : mm_t) (reg : region_t) :
  resv_ok s -> region_ok reg ->
  wp (reserve_region reg) (fun b s' => resv_ok s' /\ freemem s' = freemem s /\
    if b then forall x, reserved_covers s' x <-> reserved_covers s x \/ in_region reg x
    else s' = s /\ resv_count s + 1 = MAX_NUM_RESV_REG) s.
Proof.
  intros Hs Hr. apply wp_reserve_region; [done|done|]. intros b s' ((Ef & _) & Hok & Hb). by split_and!.
Qed.

(** Two adjacent regions of available memory, and a reserved region that
    reaches from the first into the second. *)
Definition w_avail : list region_t :=
  [Region 0x40000000 0x50000000; Region 0x50000000 0x60000000].
Definition w_across : list region_t :=
  [Region (PPTR_BASE + 0x40000000) (PPTR_BASE + 0x58000000); Region 0 0; Region 0 0].

(** A reserved region that reaches into the next available region is not
    kept out of the free memory: the walk drops it after cutting the first
    one, and the second is inserted whole. *)
Theorem init_freemem_straddle :
  wp (rust_init_freemem 2 w_avail 1 w_across) (fun b s' => b = true /\
    exists x, free_covers s' x /\ in_region (w_across !!! 0%nat) x) mm_init.
Proof.
  eapply wp_intro.
  { vm_compute. reflexivity. }
  split; [reflexivity|]. exists (PPTR_BASE + 0x50000000). split; [|by_decide].
  exists (Region (PPTR_BASE + 0x50000000) (PPTR_BASE + 0x60000000)). split; [|by_decide].
  by_decide.
Qed.

(** ** Instances *)
Definition w_reserved : list region_t :=
  [Region (PPTR_BASE + 0x40000000) (PPTR_BASE + 0x40800000);
   Region (PPTR_BASE + 0x48000000) (PPTR_BASE + 0x48001000); Region 0 0].
Lemma w_boot_state : boot_state mm_init.
Proof. split; [split; [done|by_decide|]|done|done]. intros i Hi. cbn in Hi. lia. Qed.
Lemma lt2_cases i : 0 <= i < 2 -> i = 0 \/ i = 1.
Proof. lia. Qed.

Lemma rust_init_freemem_exact_witness :
  wp (rust_init_freemem 2 w_avail 2 w_reserved) (fun b s' => b = true /\ resv_ok s' /\
    forall x, free_covers s' x <->
      scov (fun i => trim_region (w_avail !!! Z.to_nat i)) 0 2 x /\
      ~ scov (fun k => w_reserved !!! Z.to_nat k) 0 2 x) mm_init.
Proof.
  apply (rust_init_freemem_exact mm_init w_avail w_reserved 2 2); [exact w_boot_state| |].
  - split; [by_decide|by_decide|by_decide|..].
    + intros i Hi. destruct (lt2_cases i Hi) as [-> | ->]; by_decide.
    + intros i j Hi Hij Hj. assert (i = 0 /\ j = 1) as [-> ->] by lia. by_decide.
    + intros k Hk. destruct (lt2_cases k Hk) as [-> | ->]; by_decide.
    + intros i j Hi Hij Hj. assert (i = 0 /\ j = 1) as [-> ->] by lia. by_decide.
  - intros k i j Hk Hi Hij Hj. assert (i = 0 /\ j = 1) as [-> ->] by lia.
    destruct (lt2_cases k Hk) as [-> | ->]; by_decide.
Defined.

Lemma reserve_region_adds_witness :
  wp (reserve_region (Region 0x1000 0x2000)) (fun b s' => resv_ok s' /\ freemem s' = freemem mm_init /\
    if b then forall x, reserved_covers s' x <-> reserved_covers mm_init x \/ in_region (Region 0x1000 0x2000) x
    else s' = mm_init /\ resv_count mm_init + 1 = MAX_NUM_RESV_REG) mm_init.
Proof.
  apply (reserve_region_adds mm_init (Region 0x1000 0x2000)); [apply w_boot_state|by_decide].
Defined.
