(* ===== verification/KWindowProps.v ===== *)
(** * The kernel window: what the tables translate

    The tables [rust_map_kernel_window] builds, as the hardware reads them:
    an address of the window is its distance from [PPTR_BASE], the devices are
    where the drivers expect them, and nothing else is mapped. *)

From stdpp Require Import base numbers gmap list.
From S2P Require Import Prelude Bitfield Common Cap DList CSpace Sched State Vspace VspaceProps BootMem BootProps KWindow.
Local Open Scope Z_scope.
Local Open Scope krn_scope.

(** ** The tables as functions of the index *)
Definition table_ok (t : list Z) : Prop := length t = 512%nat.
Definition kpt_ok (t : kpt_t) : Prop :=
  table_ok (kPGD t) /\ table_ok (kPUD t) /\ table_ok (kPT t) /\ length (kPDs t) = 512%nat /\
  Forall table_ok (kPDs t).
Definition pd_at (t : kpt_t) (i j : Z) : option Z :=
  d ← kPDs t !! Z.to_nat i; d !! Z.to_nat j.

Section tables.
Implicit Types (t : kpt_t) (i j e lo hi : Z).

Lemma wp_upd {A} (l : list A) i v (Q : list A -> kpt_t -> Prop) t :
  0 <= i < Z.of_nat (length l) -> Q (<[Z.to_nat i := v]> l) t -> wp (lift (upd l i v)) Q t.
Proof. intros Hi HQ. eapply wp_lift; [by apply upd_Ok|done]. Qed.

Lemma wp_set_pd t i j e (Q : unit -> kpt_t -> Prop) :
  kpt_ok t -> 0 <= i < 512 -> 0 <= j < 512 ->
  (forall t', kpt_ok t' -> kPGD t' = kPGD t -> kPUD t' = kPUD t -> kPT t' = kPT t ->
    pd_at t' i j = Some e ->
    (forall i' j', 0 <= i' -> 0 <= j' -> (i', j') <> (i, j) -> pd_at t' i' j' = pd_at t i' j') ->
    Q tt t') ->
  wp (set_kernel_page_directory_by_index i j e) Q t.
Proof.
  intros (Hg & Hu & Hp & Hl & Hd) Hi Hj HQ.
  destruct (lookup_lt_is_Some_2 (kPDs t) (Z.to_nat i)) as [d Ed]; [lia|].
  pose proof (Forall_lookup_1 _ _ _ _ Hd Ed) as Hld. unfold table_ok in Hld.
  unfold set_kernel_page_directory_by_index. wp_steps.
  eapply wp_lift; [by apply idx_Ok; [lia|]|]. wp_steps.
  apply wp_upd; [lia|]. wp_steps. apply wp_upd; [lia|]. wp_steps. apply wp_modify.
  apply HQ; try done.
  - split_and!; try done; cbn; [by rewrite length_insert|].
    apply Forall_insert; [done|]. unfold table_ok. by rewrite length_insert.
  - unfold pd_at. cbn. rewrite list_lookup_insert_eq by lia. cbn. apply list_lookup_insert_eq. lia.
  - intros i' j' Hi' Hj' Hne. unfold pd_at. cbn. destruct (decide (i' = i)) as [->|Hn].
    + rewrite list_lookup_insert_eq by lia. rewrite Ed. cbn. apply list_lookup_insert_ne.
      intros E. apply Hne. f_equal. lia.
    + by rewrite list_lookup_insert_ne by lia.
Qed.

Lemma kpt_shift n : 0 <= n <= 3 -> KPT_LEVEL_SHIFT n = 39 - 9 * n.
Proof. intros Hn. assert (n = 0 \/ n = 1 \/ n = 2 \/ n = 3) as [-> | [-> | [-> | ->]]] by lia; reflexivity. Qed.
Lemma kpt_index v n : 0 <= n <= 3 -> GET_KPT_INDEX v n = (v / 2 ^ (39 - 9 * n)) `mod` 512.
Proof.
  intros Hn. unfold GET_KPT_INDEX. rewrite kpt_shift, wshr_spec, MASK_spec by (unfold PT_INDEX_BITS; lia).
  by rewrite Z.land_ones by (unfold PT_INDEX_BITS; lia).
Qed.

(** ** The loop over the large pages *)
Definition window_pages : Z := 511 * 512.
Definition window_pte (j : Z) : Z := pte_new_page 1 (j * 2 ^ 21) 0 1 0 0 mair_NORMAL.

Lemma window_index j :
  0 <= j < window_pages ->
  GET_KPT_INDEX (PPTR_BASE + j * 2 ^ 21) 1 = j / 512 /\ GET_KPT_INDEX (PPTR_BASE + j * 2 ^ 21) 2 = j `mod` 512.
Proof.
  unfold window_pages. intros Hj. rewrite !kpt_index by lia. unfold PPTR_BASE.
  change (2 ^ (39 - 9 * 1)) with (2 ^ 30). change (2 ^ (39 - 9 * 2)) with (2 ^ 21).
  split; Z.to_euclidean_division_equations; lia.
Qed.

Lemma map_window_S n v p :
  map_window_loop (S n) v p =
  if bool_decide (p < PADDR_TOP) then
    set_kernel_page_directory_by_index (GET_KPT_INDEX v 1) (GET_KPT_INDEX v 2)
      (pte_new_page 1 p 0 1 0 0 mair_NORMAL) ;;
    map_window_loop n (wadd v (BIT seL4_LargePageBits)) (wadd p (BIT seL4_LargePageBits))
  else skip.
Proof. done. Qed.
Lemma window_next j :
  0 <= j < window_pages ->
  wadd (PPTR_BASE + j * 2 ^ 21) (BIT seL4_LargePageBits) = PPTR_BASE + (j + 1) * 2 ^ 21 /\
  wadd (j * 2 ^ 21) (BIT seL4_LargePageBits) = (j + 1) * 2 ^ 21 /\ j * 2 ^ 21 < PADDR_TOP.
Proof.
  unfold window_pages. intros Hj. change (BIT seL4_LargePageBits) with (2 ^ 21).
  change PADDR_TOP with (511 * 512 * 2 ^ 21).
  rewrite !wadd_small by (unfold is_word, PPTR_BASE; lia). lia.
Qed.

Lemma wp_map_window_loop n : forall j t (Q : unit -> kpt_t -> Prop),
  kpt_ok t -> 0 <= j -> j + Z.of_nat n = window_pages ->
  (forall t', kpt_ok t' -> kPGD t' = kPGD t -> kPUD t' = kPUD t -> kPT t' = kPT t ->
    (forall k, j <= k < window_pages -> pd_at t' (k / 512) (k `mod` 512) = Some (window_pte k)) ->
    (forall i' j', 0 <= i' -> 0 <= j' < 512 -> ~ (j <= 512 * i' + j' < window_pages) ->
      pd_at t' i' j' = pd_at t i' j') ->
    Q tt t') ->
  wp (map_window_loop (S n) (PPTR_BASE + j * 2 ^ 21) (j * 2 ^ 21)) Q t.
Proof.
  induction n as [|n IH]; intros j t Q Hok Hj Hn HQ; rewrite map_window_S.
  - replace j with window_pages by lia. rewrite bool_decide_false by (by vm_compute).
    apply wp_ret. apply HQ; try done. intros k Hk. lia.
  - assert (0 <= j < window_pages) as Hw by lia.
    destruct (window_next j Hw) as (-> & -> & Hlt). rewrite bool_decide_true by done. wp_steps.
    destruct (window_index j Hw) as [-> ->]. unfold window_pages in Hw.
    apply wp_set_pd; [done|Z.to_euclidean_division_equations; lia..|].
    intros t1 Hok1 Eg Eu Ep Ed Eo. apply IH; [done|lia|lia|].
    intros t' Hok' Eg' Eu' Ep' Ew Er. apply HQ; [done|congruence..| |].
    + intros k Hk. destruct (decide (k = j)) as [->|Hne]; [|apply Ew; lia].
      rewrite Er; [done|Z.to_euclidean_division_equations; lia..].
    + intros i' j' Hi' Hj' Hout. rewrite Er by lia. apply Eo; [lia..|].
      intros [= E1 E2]. apply Hout. unfold window_pages. Z.to_euclidean_division_equations; lia.
Qed.
End tables.

(** ** Entries *)
Definition page_pa (pa : Z) : Prop := 0 <= pa < 2 ^ 48 /\ pa `mod` 4096 = 0.
(** The attributes of the entries of the window and of the devices. *)
Definition window_attr : Z := pte_new_page 1 0 0 1 0 0 mair_NORMAL.
Definition device_pte (pa : Z) : Z := pte_new_4k_page 1 pa 0 1 0 0 mair_NORMAL.

Section entries.
Implicit Types pa j : Z.

Lemma page_pa_bits pa : page_pa pa -> pa &&& ADDR_BITS = pa.
Proof.
  intros [Hb Ha]. rewrite (Z.div_mod pa 4096), Ha, Z.add_0_r by lia.
  replace (4096 * (pa / 4096)) with (Z.shiftl (pa / 4096) 12) by (rewrite Z.shiftl_mul_pow2; lia).
  change ADDR_BITS with (Z.shiftl (Z.ones 36) 12). rewrite <- Z.shiftl_land, Z.land_ones by lia.
  rewrite Z.mod_small; [done|]. Z.to_euclidean_division_equations; lia.
Qed.

Lemma table_entry pa :
  page_pa pa -> next_level_paddr (pte_new_table pa) = pa /\ pte_new_table pa &&& 3 = 3.
Proof.
  intros Hp%page_pa_bits. unfold next_level_paddr, pte_new_table. change 0xfffffffff000 with ADDR_BITS.
  rewrite Hp. rewrite land_split by done. rewrite (land_out pa 3 3) by done.
  change (ADDR_BITS &&& PAGE_ADDR_MASK) with ADDR_BITS. rewrite Hp. split; [|done].
  change (3 &&& PAGE_ADDR_MASK) with 0. by rewrite Z.lor_0_r.
Qed.

Lemma page_val_shape UXN pa nG AF SH AP Attr :
  pa &&& ADDR_BITS = pa ->
  pte_page_val UXN pa nG AF SH AP Attr = pa ||| pte_page_val UXN 0 nG AF SH AP Attr.
Proof.
  intros Hp. unfold pte_page_val. change 0xfffffffff000 with ADDR_BITS. rewrite Hp.
  change (wshr (0 &&& ADDR_BITS) 0) with 0. assert (wshr pa 0 = pa) as -> by apply Z.shiftr_0_r.
  apply Z.bits_inj'; intros i Hi; rewrite !Z.lor_spec, Z.bits_0.
  destruct (Z.testbit pa i); by rewrite ?orb_true_r, ?orb_false_r.
Qed.

Lemma window_entry j :
  0 <= j < window_pages ->
  next_level_paddr (window_pte j) = j * 2 ^ 21 /\ window_pte j &&& 3 = 1 /\ pte_attr (window_pte j) = window_attr.
Proof.
  unfold window_pages. intros Hj.
  assert (j * 2 ^ 21 &&& ADDR_BITS = j * 2 ^ 21) as Hp.
  { apply page_pa_bits. split; [lia|]. Z.to_euclidean_division_equations; lia. }
  unfold next_level_paddr, pte_attr, window_pte, pte_new_page. rewrite page_val_shape by done.
  rewrite <- Z.lor_assoc. rewrite land_split by done. rewrite !(land_out (j * 2 ^ 21)) by done.
  change (ADDR_BITS &&& PAGE_ADDR_MASK) with ADDR_BITS. rewrite Hp. split; [|done].
  by rewrite <- (Z.lor_0_r (j * 2 ^ 21)) at 2.
Qed.
End entries.

(** ** The layout of the tables in the kernel image *)
(** Every table is a page of the kernel image, and they do not overlap. *)
Definition link_page (a : Z) : Prop := KERNEL_ELF_BASE <= a /\ a + 4096 <= PPTR_TOP /\ a `mod` 4096 = 0.
Class LinkOk `{KernelLink} : Prop := {
  link_pgd : link_page armKSGlobalKernelPGD;
  link_pud : link_page armKSGlobalKernelPUD;
  link_pt : link_page armKSGlobalKernelPT;
  link_pds : link_page armKSGlobalKernelPDs;
  link_pds_end : armKSGlobalKernelPDs + 512 * 4096 <= PPTR_TOP;
  link_apart : NoDup [armKSGlobalKernelPGD; armKSGlobalKernelPUD; armKSGlobalKernelPT];
  link_out a : a ∈ [armKSGlobalKernelPGD; armKSGlobalKernelPUD; armKSGlobalKernelPT] ->
    ~ (armKSGlobalKernelPDs <= a < armKSGlobalKernelPDs + 512 * 4096) }.

Section layout.
Context `{LinkOk}.
Implicit Types (t : kpt_t) (a i j lo hi vaddr : Z).

Definition pd_addr i : Z := armKSGlobalKernelPDs + i * 4096.

Lemma link_paddr a : link_page a -> kpptr_to_paddr a = a - PPTR_BASE /\ page_pa (kpptr_to_paddr a).
Proof.
  intros (Hl & Hh & Ha). assert (kpptr_to_paddr a = a - PPTR_BASE) as E.
  { unfold kpptr_to_paddr. change KERNEL_ELF_BASE_OFFSET with PPTR_BASE. apply wsub_small.
    unfold is_word, PPTR_TOP in *. change KERNEL_ELF_BASE with (PPTR_BASE + 0x40000000) in Hl.
    unfold PPTR_BASE in *. lia. }
  split; [done|]. rewrite E. change KERNEL_ELF_BASE with (PPTR_BASE + 0x40000000) in Hl.
  unfold page_pa, PPTR_BASE, PPTR_TOP in *. split; [lia|]. Z.to_euclidean_division_equations; lia.
Qed.
Lemma link_pd_page i : 0 <= i < 512 -> link_page (pd_addr i).
Proof.
  intros Hi. destruct link_pds as (Hl & Hh & Ha). pose proof link_pds_end. unfold link_page, pd_addr.
  split_and!; [lia..|]. Z.to_euclidean_division_equations; lia.
Qed.
Lemma link_inj a b : link_page a -> link_page b -> kpptr_to_paddr a = kpptr_to_paddr b -> a = b.
Proof. intros [Ea _]%link_paddr [Eb _]%link_paddr E. lia. Qed.

(** The tables are found at their addresses. *)
Lemma table_pgd t : kpt_table t (kpptr_to_paddr armKSGlobalKernelPGD) = Some (kPGD t).
Proof. unfold kpt_table. by rewrite bool_decide_true. Qed.
Lemma table_pud t : kpt_table t (kpptr_to_paddr armKSGlobalKernelPUD) = Some (kPUD t).
Proof.
  pose proof link_apart as Hn. unfold kpt_table. rewrite bool_decide_false; [by rewrite bool_decide_true|].
  intros E%link_inj; [|apply link_pud|apply link_pgd].
  apply NoDup_cons in Hn as [Hn _]. apply Hn. rewrite <- E. set_solver.
Qed.
Lemma table_pt t : kpt_table t (kpptr_to_paddr armKSGlobalKernelPT) = Some (kPT t).
Proof.
  pose proof link_apart as Hn. unfold kpt_table. apply NoDup_cons in Hn as [Hn Hn2].
  apply NoDup_cons in Hn2 as [Hn2 _].
  case_bool_decide as E; [apply link_inj in E; [|apply link_pt|apply link_pgd]; destruct Hn; set_solver|].
  case_bool_decide as E2; [apply link_inj in E2; [|apply link_pt|apply link_pud]; destruct Hn2; set_solver|].
  by rewrite bool_decide_true.
Qed.
Lemma table_pd t i : 0 <= i < 512 -> kpt_table t (kpptr_to_paddr (pd_addr i)) = kPDs t !! Z.to_nat i.
Proof.
  intros Hi. pose proof (link_pd_page i Hi) as Hp. pose proof link_out as Ho. unfold kpt_table.
  assert (forall a, a ∈ [armKSGlobalKernelPGD; armKSGlobalKernelPUD; armKSGlobalKernelPT] ->
    kpptr_to_paddr (pd_addr i) = kpptr_to_paddr a -> False) as Hne.
  { intros a Ha E. apply (Ho a Ha). apply link_inj in E as <-; [unfold pd_addr; lia|done|].
    apply elem_of_cons in Ha as [->|Ha]; [apply link_pgd|].
    apply elem_of_cons in Ha as [->|Ha]; [apply link_pud|].
    apply list_elem_of_singleton in Ha as ->. apply link_pt. }
  do 3 (case_bool_decide; [exfalso; eapply Hne; [|eassumption]; set_solver|]).
  rewrite (proj1 (link_paddr _ Hp)), (proj1 (link_paddr _ link_pds)). unfold pd_addr.
  replace (armKSGlobalKernelPDs + i * 4096 - PPTR_BASE - (armKSGlobalKernelPDs - PPTR_BASE)) with (i * 4096) by lia.
  rewrite !bool_decide_true by (try lia; Z.to_euclidean_division_equations; lia). cbn.
  f_equal. rewrite Z.div_mul by lia. done.
Qed.

(** ** The tables after the boot *)
Definition pud_pte i : Z := pte_new_table (kpptr_to_paddr (pd_addr i)).

Lemma pd_base i t (Q : Z -> kpt_t -> Prop) :
  kpt_ok t -> 0 <= i < 512 -> Q (pd_addr i) t -> wp (get_kernel_page_directory_base_by_index i) Q t.
Proof.
  intros (_ & _ & _ & Hl & _) Hi HQ. pose proof link_pds_end as He. destruct link_pds as (Hp & _ & _).
  destruct (lookup_lt_is_Some_2 (kPDs t) (Z.to_nat i)) as [d Ed]; [lia|].
  unfold get_kernel_page_directory_base_by_index. wp_steps. eapply wp_lift; [by apply idx_Ok; [lia|]|].
  wp_steps. unfold wmul. change (BIT seL4_PageBits) with 4096. rewrite wrap_id by (unfold is_word; lia).
  rewrite wadd_small; [done|]. change KERNEL_ELF_BASE with 0xffffff8040000000 in Hp.
  unfold is_word, PPTR_TOP in *. lia.
Qed.

Lemma wp_set_pud i e t (Q : unit -> kpt_t -> Prop) :
  kpt_ok t -> 0 <= i < 512 ->
  (kpt_ok (set_kPUD (<[Z.to_nat i := e]> (kPUD t)) t) -> Q tt (set_kPUD (<[Z.to_nat i := e]> (kPUD t)) t)) ->
  wp (set_kernel_page_upper_directory_by_index i e) Q t.
Proof.
  intros (Hg & Hu & Hp & Hl & Hd) Hi HQ. unfold table_ok in *. unfold set_kernel_page_upper_directory_by_index.
  wp_steps. apply wp_upd; [lia|]. wp_steps. apply wp_modify. apply HQ.
  split_and!; try done. unfold table_ok. cbn. by rewrite length_insert.
Qed.

Lemma wp_map_upper t (Q : unit -> kpt_t -> Prop) :
  kpt_ok t ->
  (forall t', kpt_ok t' -> kPGD t' = kPGD t -> kPDs t' = kPDs t -> kPT t' = kPT t ->
    (forall i, 0 <= i < 511 -> kPUD t' !! Z.to_nat i = Some (pud_pte i)) -> Q tt t') ->
  wp (map_upper_directory 0 511) Q t.
Proof.
  intros Hok HQ. unfold map_upper_directory. change (Z.to_nat (511 - 0)) with 511%nat.
  apply wp_for_range with (fun k t' => kpt_ok t' /\ kPGD t' = kPGD t /\ kPDs t' = kPDs t /\ kPT t' = kPT t /\
    forall i, 0 <= i < k -> kPUD t' !! Z.to_nat i = Some (pud_pte i)).
  - split_and!; try done. intros; lia.
  - intros k t' Hk (Hok' & Eg & Ed & Ep & Hi). wp_steps. apply pd_base; [done|lia|].
    apply wp_set_pud; [done|lia|]. intros Hok2. split_and!; try done. cbn. intros i Hi'.
    destruct (decide (i = k)) as [->|Hne].
    + destruct Hok' as (_ & Hu & _). unfold table_ok in Hu. apply list_lookup_insert_eq. lia.
    + rewrite list_lookup_insert_ne by lia. apply Hi. lia.
  - intros t' (Hok' & Eg & Ed & Ep & Hi). by apply HQ.
Qed.

(** What [map_window] leaves in the tables, whose entries were all zero. *)
Record windowed t : Prop := {
  win_ok : kpt_ok t;
  win_pgd : kPGD t = <[511%nat := pte_new_table (kpptr_to_paddr armKSGlobalKernelPUD)]> (kPGD kpt_init);
  win_pud i : 0 <= i < 512 -> kPUD t !! Z.to_nat i = Some (pud_pte i);
  win_pd i j : 0 <= i < 511 -> 0 <= j < 512 -> pd_at t i j = Some (window_pte (512 * i + j));
  win_last j : 0 <= j < 511 -> pd_at t 511 j = Some 0;
  win_pt : pd_at t 511 511 = Some (pte_new_table (kpptr_to_paddr armKSGlobalKernelPT)) }.

Lemma pd_at_init i j : 0 <= i < 512 -> 0 <= j < 512 -> pd_at kpt_init i j = Some 0.
Proof.
  intros Hi Hj. unfold pd_at, kpt_init. cbn [kPDs]. unfold PageAligned_new.
  change (Z.to_nat PageAlignedLen) with 512%nat. rewrite lookup_replicate_2 by lia. cbn [mbind option_bind].
  apply lookup_replicate_2. lia.
Qed.

Lemma kpt_init_ok : kpt_ok kpt_init.
Proof.
  do 4 (split; [reflexivity|]). apply Forall_forall. intros d Hd. apply elem_of_replicate in Hd as [-> _]. reflexivity.
Qed.

Lemma wp_map_window (Q : unit -> kpt_t -> Prop) :
  (forall t, windowed t -> kPT t = kPT kpt_init -> Q tt t) -> wp map_window Q kpt_init.
Proof.
  intros HQ. unfold map_window. wp_steps. unfold set_kernel_page_global_directory_by_index. wp_steps.
  rewrite (eq_refl : GET_KPT_INDEX PPTR_BASE 0 = 511). pose proof kpt_init_ok as (Hg & Hok).
  apply wp_upd; [unfold table_ok in Hg; lia|]. apply wp_modify, wp_bind. change (GET_KPT_INDEX PPTR_BASE 1) with 0. change (GET_KPT_INDEX PPTR_TOP 1) with 511.
  change (Z.to_nat 511) with 511%nat.
  apply wp_map_upper; [split; [|exact Hok]; unfold table_ok, set_kPGD; cbn [kPGD]; by rewrite length_insert|].
  intros t1 Hok1 Eg1 Ed1 Ep1 Hu1. unfold set_kPGD in Eg1, Ed1, Ep1. cbn [kPGD kPDs kPT] in Eg1, Ed1, Ep1. wp_steps. change PADDR_BASE with (0 * 2 ^ 21).
  replace PPTR_BASE with (PPTR_BASE + 0 * 2 ^ 21) by lia.
  apply wp_map_window_loop; [done|lia|unfold window_rounds; rewrite Z2Nat.id by (by vm_compute); reflexivity|].
  intros t2 Hok2 Eg2 Eu2 Ep2 Hw2 Hr2. wp_steps. change (wsub (BIT PUD_INDEX_BITS) 1) with 511.
  apply pd_base; [done|lia|]. wp_steps. apply wp_set_pud; [done|lia|]. intros Hok3.
  apply wp_set_pd; [done|lia|lia|]. cbn [kPGD kPUD kPT kPDs set_kPUD].
  intros t4 Hok4 Eg4 Eu4 Ep4 Hl4 Hr4. apply HQ; [|congruence].
  assert (forall i j, 0 <= i < 512 -> 0 <= j < 512 -> (i, j) <> (511, 511) -> pd_at t4 i j = pd_at t2 i j) as Hk.
  { intros i j Hi Hj Hne. by rewrite Hr4 by (lia || done). }
  assert (forall i j, pd_at t1 i j = pd_at kpt_init i j) as Hi1 by (intros; unfold pd_at; by rewrite Ed1).
  split; [done|by rewrite Eg4, Eg2| | | |done].
  - intros i Hi. rewrite Eu4. destruct (decide (i = 511)) as [->|Hne].
    + destruct Hok2 as (_ & Hl & _). unfold table_ok in Hl. apply list_lookup_insert_eq. lia.
    + rewrite list_lookup_insert_ne by lia. rewrite Eu2. apply Hu1. lia.
  - intros i j Hi Hj. rewrite Hk by (first [lia|intros [= ? ?]; lia]). specialize (Hw2 (512 * i + j)).
    unfold window_pages in Hw2.
    replace ((512 * i + j) / 512) with i in Hw2 by (Z.to_euclidean_division_equations; lia).
    replace ((512 * i + j) `mod` 512) with j in Hw2 by (Z.to_euclidean_division_equations; lia).
    apply Hw2. lia.
  - intros j Hj. rewrite Hk by (first [lia|intros [= ?]; lia]). rewrite Hr2 by (unfold window_pages; lia).
    rewrite Hi1. apply pd_at_init; lia.
Qed.

(** ** Walks *)
Lemma walk_step t (levels : nat) pa vaddr tab e :
  kpt_table t pa = Some tab -> tab !! Z.to_nat ((vaddr / 2 ^ (12 + 9 * Z.of_nat (S levels))) `mod` 512) = Some e ->
  e &&& 3 = 3 -> mmu_walk t (S levels) pa vaddr = mmu_walk t levels (next_level_paddr e) vaddr.
Proof. intros Ht He E3. cbn [mmu_walk]. rewrite Ht. cbn [mbind option_bind]. rewrite He. cbn [mbind option_bind]. by rewrite E3. Qed.
Lemma walk_none t (levels : nat) pa vaddr tab :
  kpt_table t pa = Some tab -> tab !! Z.to_nat ((vaddr / 2 ^ (12 + 9 * Z.of_nat levels)) `mod` 512) = Some 0 ->
  mmu_walk t levels pa vaddr = None.
Proof.
  intros Ht He. destruct levels; cbn [mmu_walk]; rewrite Ht; cbn [mbind option_bind]; rewrite He; done.
Qed.

(** The parts of an address of the kernel half, counted from its end. *)
Lemma low_walk t vaddr :
  windowed t -> 2 ^ 64 - 2 ^ 48 <= vaddr < PPTR_BASE -> kernel_translate t vaddr = None.
Proof.
  intros [_ Hg _ _ _ _] Hv. unfold PPTR_BASE in Hv. eapply walk_none; [apply table_pgd|].
  rewrite Hg. change (2 ^ (12 + 9 * Z.of_nat 3)) with (2 ^ 39).
  rewrite list_lookup_insert_ne by (Z.to_euclidean_division_equations; lia).
  unfold kpt_init. cbn [kPGD]. unfold PageAligned_new. change (Z.to_nat PageAlignedLen) with 512%nat.
  apply lookup_replicate_2. Z.to_euclidean_division_equations; lia.
Qed.

(** The first two levels lead to the directory of the address. *)
Lemma high_walk t vaddr :
  windowed t -> PPTR_BASE <= vaddr < 2 ^ 64 ->
  kernel_translate t vaddr = mmu_walk t 1 (kpptr_to_paddr (pd_addr ((vaddr - PPTR_BASE) / 2 ^ 30))) vaddr.
Proof.
  intros [_ Hg Hu _ _ _] Hv. unfold kernel_translate.
  destruct (link_paddr _ link_pud) as [_ Hpud]. destruct (table_entry _ Hpud) as [En E3].
  assert (0 <= (vaddr - PPTR_BASE) / 2 ^ 30 < 512) as Hi by (unfold PPTR_BASE in *; Z.to_euclidean_division_equations; lia).
  rewrite (walk_step t 2 _ vaddr _ (pte_new_table (kpptr_to_paddr armKSGlobalKernelPUD)) (table_pgd t)); [|rewrite Hg|done].
  2: { change (2 ^ (12 + 9 * Z.of_nat 3)) with (2 ^ 39).
    replace (Z.to_nat ((vaddr / 2 ^ 39) `mod` 512)) with 511%nat
      by (unfold PPTR_BASE in Hv; Z.to_euclidean_division_equations; lia).
    apply list_lookup_insert_eq. pose proof kpt_init_ok as [Hl _]. unfold table_ok in Hl. lia. }
  rewrite En. destruct (link_paddr _ (link_pd_page _ Hi)) as [_ Hpd]. destruct (table_entry _ Hpd) as [En2 E32].
  rewrite (walk_step t 1 _ vaddr _ (pud_pte ((vaddr - PPTR_BASE) / 2 ^ 30)) (table_pud t)); [unfold pud_pte; by rewrite En2| |done].
  rewrite <- Hu by done. f_equal. f_equal. change (2 ^ (12 + 9 * Z.of_nat 2)) with (2 ^ 30).
  unfold PPTR_BASE in *. Z.to_euclidean_division_equations; lia.
Qed.

Lemma pd_walk t i j e (levels : nat) vaddr :
  0 <= i < 512 -> pd_at t i j = Some e -> j = (vaddr / 2 ^ 21) `mod` 512 ->
  exists tab, kpt_table t (kpptr_to_paddr (pd_addr i)) = Some tab /\
    tab !! Z.to_nat ((vaddr / 2 ^ (12 + 9 * Z.of_nat 1)) `mod` 512) = Some e.
Proof.
  intros Hi He ->. rewrite table_pd by done. unfold pd_at in He.
  destruct (kPDs t !! Z.to_nat i) as [d|]; [|done]. by exists d.
Qed.

Lemma window_walk t vaddr :
  windowed t -> PPTR_BASE <= vaddr < PPTR_TOP ->
  kernel_translate t vaddr = Some (vaddr - PPTR_BASE, window_attr).
Proof.
  intros Ht Hv. unfold PPTR_BASE, PPTR_TOP in Hv. rewrite high_walk by (unfold PPTR_BASE; done || lia).
  set (i := (vaddr - PPTR_BASE) / 2 ^ 30). set (j := (vaddr / 2 ^ 21) `mod` 512).
  assert (0 <= i < 511) as Hi by (unfold i, PPTR_BASE; Z.to_euclidean_division_equations; lia).
  assert (0 <= j < 512) as Hj by (unfold j; Z.to_euclidean_division_equations; lia).
  destruct (pd_walk t i j _ 1 vaddr ltac:(lia) (win_pd t Ht i j Hi Hj) eq_refl) as (tab & Et & Ee).
  cbn [mmu_walk]. rewrite Et. cbn [mbind option_bind]. rewrite Ee. cbn [mbind option_bind].
  destruct (window_entry (512 * i + j)) as (En & E3 & Ea); [unfold window_pages; lia|].
  rewrite En, E3, Ea. cbn. f_equal. f_equal. change (2 ^ (12 + 9 * Z.of_nat 1)) with (2 ^ 21).
  unfold i, j, PPTR_BASE. Z.to_euclidean_division_equations; lia.
Qed.

(** Above the window, only the last large page has a table. *)
Lemma top_walk t vaddr :
  windowed t -> PPTR_TOP <= vaddr < 2 ^ 64 - 2 ^ 21 -> kernel_translate t vaddr = None.
Proof.
  intros Ht Hv. unfold PPTR_TOP in Hv. rewrite high_walk by (unfold PPTR_BASE; done || lia).
  set (j := (vaddr / 2 ^ 21) `mod` 512).
  assert ((vaddr - PPTR_BASE) / 2 ^ 30 = 511) as -> by (unfold PPTR_BASE; Z.to_euclidean_division_equations; lia).
  assert (0 <= j < 511) as Hj by (unfold j; Z.to_euclidean_division_equations; lia).
  destruct (pd_walk t 511 j _ 1 vaddr ltac:(lia) (win_last t Ht j Hj) eq_refl) as (tab & Et & Ee).
  by eapply walk_none.
Qed.
Lemma device_walk t vaddr :
  windowed t -> 2 ^ 64 - 2 ^ 21 <= vaddr < 2 ^ 64 ->
  kernel_translate t vaddr = mmu_walk t 0 (kpptr_to_paddr armKSGlobalKernelPT) vaddr.
Proof.
  intros Ht Hv. rewrite high_walk by (unfold PPTR_BASE; done || lia).
  assert ((vaddr - PPTR_BASE) / 2 ^ 30 = 511) as -> by (unfold PPTR_BASE; Z.to_euclidean_division_equations; lia).
  destruct (pd_walk t 511 511 _ 1 vaddr ltac:(lia) (win_pt t Ht)) as (tab & Et & Ee).
  { Z.to_euclidean_division_equations; lia. }
  destruct (link_paddr _ link_pt) as [_ Hpt]. destruct (table_entry _ Hpt) as [En E3].
  rewrite (walk_step t 0 _ vaddr _ _ Et Ee) by done. by rewrite En.
Qed.

(** ** Devices *)
(** The large page whose table the device frames go to. *)
Definition DEV_BASE : Z := 0xffffffffffe00000.
Definition device_attr : Z := pte_attr (device_pte 0).
Definition device_table (pt : list Z) : list Z :=
  <[2%nat := device_pte 0x8010000]> (<[1%nat := device_pte 0x8000000]> (<[0%nat := device_pte 0x9000000]> pt)).

(** The translation the boot is meant to set up. *)
Definition window_spec vaddr : option (Z * Z) :=
  if bool_decide (PPTR_BASE <= vaddr < PPTR_TOP) then Some (vaddr - PPTR_BASE, window_attr)
  else if bool_decide (DEV_BASE <= vaddr) then
    f ← kernel_device_frames !! Z.to_nat ((vaddr - DEV_BASE) / 4096);
    Some (kf_paddr f + vaddr `mod` 4096, device_attr)
  else None.

Lemma device_pages t vaddr :
  kPT t = device_table (kPT kpt_init) -> DEV_BASE <= vaddr < 2 ^ 64 ->
  mmu_walk t 0 (kpptr_to_paddr armKSGlobalKernelPT) vaddr = window_spec vaddr.
Proof.
  intros Ht Hv. unfold window_spec. unfold DEV_BASE in *. rewrite bool_decide_false by (unfold PPTR_TOP; lia).
  rewrite bool_decide_true by lia. cbn [mmu_walk]. rewrite table_pt, Ht. cbn [mbind option_bind].
  change (2 ^ (12 + 9 * Z.of_nat 0)) with 4096.
  replace ((vaddr / 4096) `mod` 512) with ((vaddr - 0xffffffffffe00000) / 4096) by (Z.to_euclidean_division_equations; lia).
  set (k := Z.to_nat ((vaddr - 0xffffffffffe00000) / 4096)).
  assert (k < 512)%nat as Hk by (unfold k; Z.to_euclidean_division_equations; lia).
  destruct k as [|[|[|k]]]; [reflexivity..|].
  unfold device_table, kernel_device_frames. rewrite !list_lookup_insert_ne by done.
  unfold kpt_init. cbn [kPT]. unfold PageAligned_new. change (Z.to_nat PageAlignedLen) with 512%nat.
  by rewrite lookup_replicate_2 by lia.
Qed.

Lemma window_translates t vaddr :
  windowed t -> kPT t = device_table (kPT kpt_init) -> 2 ^ 64 - 2 ^ 48 <= vaddr < 2 ^ 64 ->
  kernel_translate t vaddr = window_spec vaddr.
Proof.
  intros Ht Hp Hv. unfold window_spec. case_bool_decide as H1; [by apply window_walk|].
  destruct (decide (vaddr < PPTR_BASE)) as [Hl|Hl].
  { rewrite bool_decide_false by (unfold DEV_BASE, PPTR_BASE in *; lia). apply low_walk; [done|lia]. }
  case_bool_decide as H2; [|apply top_walk; [done|unfold DEV_BASE in *; lia]].
  rewrite device_walk by (unfold DEV_BASE in *; done || lia). rewrite device_pages by (done || lia).
  unfold window_spec. by rewrite bool_decide_false, bool_decide_true.
Qed.

Lemma windowed_pt t pt : windowed t -> table_ok pt -> windowed (set_kPT pt t).
Proof. intros [(Hg & Hu & Hp & Hd) H1 H2 H3 H4 H5] Hpt. split; [exact (conj Hg (conj Hu (conj Hpt Hd)))|done..]. Qed.

Lemma wp_map_frame (i : nat) (pa : Z) vaddr t (Q : unit -> kpt_t -> Prop) :
  windowed t -> GET_KPT_INDEX vaddr 3 = Z.of_nat i -> (i < 512)%nat ->
  (windowed (set_kPT (<[i := device_pte pa]> (kPT t)) t) -> Q tt (set_kPT (<[i := device_pte pa]> (kPT t)) t)) ->
  wp (map_kernel_frame pa vaddr VMKernelOnly 1) Q t.
Proof.
  intros Ht Hi Hlt HQ. pose proof (win_ok t Ht) as (_ & _ & Hp & _). unfold table_ok in Hp.
  unfold map_kernel_frame, set_kernel_page_table_by_index. wp_steps. rewrite Hi. apply wp_upd; [lia|].
  rewrite Nat2Z.id. wp_steps. apply wp_modify. apply HQ, windowed_pt; [done|]. unfold table_ok.
  by rewrite length_insert.
Qed.

(** One device: its page, and its memory when it is not for the user. *)
Lemma wp_map_device (i : nat) f t mm mm' (Q : unit -> kw_t -> Prop) :
  windowed t -> kf_armExecuteNever f = 1 -> GET_KPT_INDEX (kf_pptr f) 3 = Z.of_nat i -> (i < 512)%nat ->
  when (kf_userAvailable f =w 0)
    (reserve_region (Region (kf_paddr f) (wadd (kf_paddr f) (BIT PAGE_BITS))) ;; skip) mm = Ok (tt, mm') ->
  (let t' := set_kPT (<[i := device_pte (kf_paddr f)]> (kPT t)) t in windowed t' -> Q tt (Kw t' mm')) ->
  wp (map_kernel_device f) Q (Kw t mm).
Proof.
  intros Ht Hx Hi Hlt Hm HQ. unfold map_kernel_device. wp_steps. apply wp_zoom. rewrite Hx.
  apply (wp_map_frame i); [done|done|done|]. intros H1. unfold set_kw_pt. cbn [kw_pt kw_mm] in *.
  destruct (bool_decide (kf_userAvailable f = 0)); cbn [when] in *.
  - apply wp_bind, wp_zoom. cbn [kw_mm]. revert Hm.
    unfold mbind, st_bind, wp. destruct (reserve_region _ mm) as [[b m]| | |]; [|done..].
    intros [= ->]. by apply HQ.
  - injection Hm as <-. by apply HQ.
Qed.

(** The memory of the interrupt controller is what the boot reserves. *)
Definition device_mm1 : mm_t := after (reserve_region (Region 0x8000000 0x8001000)) mm_init.
Definition device_mm : mm_t := after (reserve_region (Region 0x8010000 0x8011000)) device_mm1.

Lemma wp_map_devices t (Q : unit -> kw_t -> Prop) :
  windowed t -> (forall t', windowed t' -> kPT t' = device_table (kPT t) -> Q tt (Kw t' device_mm)) ->
  wp map_kernel_devices Q (Kw t mm_init).
Proof.
  intros Ht HQ. unfold map_kernel_devices, kernel_device_frames. cbn [foldr]. apply wp_bind.
  apply (wp_map_device 0) with (mm' := mm_init); [done|done|done|lia|done|]. intros t1 H1. apply wp_bind.
  apply (wp_map_device 1) with (mm' := device_mm1); [done|done|done|lia|by vm_compute|]. intros t2 H2. apply wp_bind.
  apply (wp_map_device 2) with (mm' := device_mm); [done|done|done|lia|by vm_compute|]. intros t3 H3.
  apply wp_ret. by apply HQ.
Qed.
Lemma device_reserved x :
  reserved_covers device_mm x <->
  exists f, f ∈ kernel_device_frames /\ kf_userAvailable f = 0 /\ kf_paddr f <= x < kf_paddr f + 4096.
Proof.
  assert (resv_count device_mm = 2) as Hc by by_compute.
  assert (rview device_mm 0 = Region 0x8000000 0x8001000) as Hd0 by by_compute.
  assert (rview device_mm 1 = Region 0x8010000 0x8011000) as Hd1 by by_compute.
  unfold reserved_covers, rcovers, in_region. rewrite Hc. split.
  - intros (i & Hi & Hx). destruct (lt2_cases i Hi) as [-> | ->]; [rewrite Hd0 in Hx|rewrite Hd1 in Hx]; cbn in Hx.
    + exists (KernelFrame 0x8000000 (KDEV_BASE + 0x1000) 1 0). split; [by right; left|]. cbn. lia.
    + exists (KernelFrame 0x8010000 (KDEV_BASE + 0x2000) 1 0). split; [by right; right; left|]. cbn. lia.
  - intros (f & Hf & Hu & Hx). unfold kernel_device_frames in Hf.
    apply elem_of_cons in Hf as [->|Hf]; [done|].
    apply elem_of_cons in Hf as [->|Hf]; [exists 0; rewrite Hd0; cbn in *; lia|].
    apply list_elem_of_singleton in Hf as ->. exists 1. rewrite Hd1. cbn in *. lia.
Qed.

Lemma kw_mm_Kw t (m : mm_t) : kw_mm (Kw t m) = m.
Proof. done. Qed.
Lemma wp_window (Q : unit -> kw_t -> Prop) :
  (forall s, windowed (kw_pt s) -> kPT (kw_pt s) = device_table (kPT kpt_init) -> kw_mm s = device_mm -> Q tt s) ->
  wp rust_map_kernel_window Q (Kw kpt_init mm_init).
Proof.
  intros HQ. unfold rust_map_kernel_window. apply wp_bind. apply wp_zoom. apply wp_map_window. intros t Ht Hp.
  apply wp_map_devices; [exact Ht|]. intros t' Ht' Hd. apply HQ; [exact Ht'| |apply kw_mm_Kw]. rewrite <- Hp. exact Hd.
Qed.
End layout.

(** ** Properties *)
(** C17: after [rust_map_kernel_window] every address of the kernel half of the
    address space translates exactly as intended: an address of the window to
    its distance from [PPTR_BASE], the three pages at [DEV_BASE] to the device
    frames, and any other address to nothing.  The memory of the interrupt
    controller is reserved, and no other. *)
Theorem rust_map_kernel_window_exact (L : KernelLink) (Hlink : LinkOk) :
  wp rust_map_kernel_window (fun _ s =>
    (forall vaddr, 2 ^ 64 - 2 ^ 48 <= vaddr < 2 ^ 64 -> kernel_translate (kw_pt s) vaddr = window_spec vaddr) /\
    forall x, reserved_covers (kw_mm s) x <->
      exists f, f ∈ kernel_device_frames /\ kf_userAvailable f = 0 /\ kf_paddr f <= x < kf_paddr f + 4096)
    (Kw kpt_init mm_init).
Proof.
  apply wp_window. intros s Ht Hp Hm. split; [|intros x; rewrite Hm; apply device_reserved].
  intros vaddr Hv. by apply window_translates.
Qed.

(** The attributes of the device frames are passed where the cacheable bit
    is: the devices are mapped as normal, cacheable memory, not as device
    memory; and the addresses [device.rs] gives the frames are not mapped. *)
Theorem kernel_devices_cacheable (L : KernelLink) (Hlink : LinkOk) :
  wp rust_map_kernel_window (fun _ s => forall f off, f ∈ kernel_device_frames -> 0 <= off < 4096 ->
    kernel_translate (kw_pt s) (kf_pptr f + off) = None /\
    exists vaddr pte_attrs, kernel_translate (kw_pt s) vaddr = Some (kf_paddr f + off, pte_attrs) /\
      pte_AttrIndx pte_attrs = wshl mair_NORMAL 2 /\ wshl mair_NORMAL 2 <> wshl mair_DEVICE_nGnRnE 2)
    (Kw kpt_init mm_init).
Proof.
  apply wp_window. intros s Ht Hp _ f off Hf Hoff. unfold kernel_device_frames in Hf.
  assert (0 <= kf_pptr f - KDEV_BASE <= 0x2000 /\ kf_pptr f `mod` 4096 = 0 /\
    kernel_device_frames !! Z.to_nat ((kf_pptr f - KDEV_BASE) / 4096) = Some f) as (Hb & Ha & Hl).
  { apply elem_of_cons in Hf as [->|Hf]; [by by_compute|].
    apply elem_of_cons in Hf as [->|Hf]; [by by_compute|].
    apply list_elem_of_singleton in Hf as ->. by by_compute. }
  unfold KDEV_BASE in *. split.
  - rewrite window_translates by (done || lia). unfold window_spec.
    by rewrite !bool_decide_false by (unfold DEV_BASE, PPTR_TOP; lia).
  - exists (kf_pptr f - 0xFFFFFFFFC0000000 + DEV_BASE + off), device_attr. split; [|by by_compute].
    unfold DEV_BASE. rewrite window_translates by (done || lia). unfold window_spec, DEV_BASE.
    rewrite bool_decide_false, bool_decide_true by (unfold PPTR_TOP; lia).
    replace (Z.to_nat _) with (Z.to_nat ((kf_pptr f - 0xFFFFFFFFC0000000) / 4096))
      by (f_equal; Z.to_euclidean_division_equations; lia).
    rewrite Hl. cbn. f_equal. f_equal. Z.to_euclidean_division_equations; lia.
Qed.

(** ** An instance *)
(** The four sections of [.page_table] one after the other. *)
Definition w_link : KernelLink :=
  Build_KernelLink (KERNEL_ELF_BASE + 0x100000) (KERNEL_ELF_BASE + 0x101000)
    (KERNEL_ELF_BASE + 0x102000) (KERNEL_ELF_BASE + 0x303000).
Lemma w_link_ok : @LinkOk w_link.
Proof.
  split; try by_decide. intros a Ha. apply elem_of_cons in Ha as [->|Ha]; [by_decide|].
  apply elem_of_cons in Ha as [->|Ha]; [by_decide|]. apply list_elem_of_singleton in Ha as ->. by_decide.
Qed.

Lemma rust_map_kernel_window_exact_witness :
  @LinkOk w_link /\
  wp (@rust_map_kernel_window w_link) (fun _ s =>
    @kernel_translate w_link (kw_pt s) (PPTR_BASE + 0x40001234) = Some (0x40001234, window_attr)) (Kw kpt_init mm_init).
Proof.
  split; [exact w_link_ok|].
  eapply wp_mono; [exact (@rust_map_kernel_window_exact w_link w_link_ok)|]. intros u s [Hw _].
  rewrite Hw by by_decide. reflexivity.
Defined.

Lemma kernel_devices_cacheable_witness :
  @LinkOk w_link /\
  wp (@rust_map_kernel_window w_link) (fun _ s => @kernel_translate w_link (kw_pt s) KDEV_BASE = None)
    (Kw kpt_init mm_init).
Proof.
  split; [exact w_link_ok|].
  eapply wp_mono; [exact (@kernel_devices_cacheable w_link w_link_ok)|]. intros u s Hw.
  destruct (Hw (KernelFrame 0x9000000 KDEV_BASE 1 1) 0) as [Hn _]; [left|by_decide|].
  cbn [kf_pptr] in Hn. by rewrite Z.add_0_r in Hn.
Defined.
