(* ===== verification/CapProps.v ===== *)
(** * Capabilities: properties

    Constructors and accessors are inverse, zombies hold their counter and
    their pointer, restricting rights never adds one, and the region test on
    an untyped capability is containment. *)

From stdpp Require Import base numbers gmap list.
From S2P Require Import Prelude Bitfield Common Cap DList CSpace Sched State Vspace Threads Delete Ipc Finalise Syscall.
Local Open Scope Z_scope.
Local Open Scope krn_scope.

(** ** Constructors *)
(** The fields of each kind of capability, in the order of its constructor. *)
Definition cap_fields (t : CapTag) : list bitfield :=
  match t with
  | CapUntypedCap => [untyped_free_index; untyped_is_device; untyped_block_size; untyped_ptr]
  | CapEndpointCap =>
      [ep_badge; ep_can_grant_reply; ep_can_grant; ep_can_send; ep_can_receive; ep_ptr]
  | CapNotificationCap => [nf_badge; nf_can_receive; nf_can_send; nf_ptr]
  | CapReplyCap => [reply_can_grant; reply_master; reply_tcb_ptr]
  | CapCNodeCap => [cnode_radix; cnode_guard_size; cnode_guard; cnode_ptr]
  | CapThreadCap => [tcb_ptr]
  | CapIrqHandlerCap => [irq_handler]
  | CapZombieCap => [zombie_id; zombie_type]
  | CapFrameCap =>
      [frame_is_device; frame_vm_rights; frame_mapped_address; frame_size; frame_mapped_asid;
       frame_base_ptr]
  | CapPageTableCap => [pt_mapped_asid; pt_base_ptr; pt_is_mapped; pt_mapped_address]
  | CapVspaceCap => [vs_mapped_asid; vs_base_ptr; vs_is_mapped]
  | CapASIDPoolCap => [asid_base; asid_pool]
  | CapNullCap | CapIrqControlCap | CapDomainCap | CapASIDControlCap => []
  end.
(** The constructor of each kind, on a list of arguments. *)
Definition cap_new (t : CapTag) (vs : list Z) : option (list Z) :=
  match t, vs with
  | CapNullCap, [] => Some new_null_cap
  | CapUntypedCap, [a; b; c; d] => Some (new_untyped_cap a b c d)
  | CapEndpointCap, [a; b; c; d; e; f] => Some (new_endpoint_cap a b c d e f)
  | CapNotificationCap, [a; b; c; d] => Some (new_notification_cap a b c d)
  | CapReplyCap, [a; b; c] => Some (new_reply_cap a b c)
  | CapCNodeCap, [a; b; c; d] => Some (new_cnode_cap a b c d)
  | CapThreadCap, [a] => Some (new_thread_cap a)
  | CapIrqControlCap, [] => Some new_irq_control_cap
  | CapIrqHandlerCap, [a] => Some (new_irq_handler_cap a)
  | CapZombieCap, [a; b] => Some (new_zombie_cap a b)
  | CapDomainCap, [] => Some new_domain_cap
  | CapFrameCap, [a; b; c; d; e; f] => Some (new_frame_cap a b c d e f)
  | CapPageTableCap, [a; b; c; d] => Some (new_page_table_cap a b c d)
  | CapVspaceCap, [a; b; c] => Some (new_vspace_cap a b c)
  | CapASIDControlCap, [] => Some new_asid_control_cap
  | CapASIDPoolCap, [a; b] => Some (new_asid_pool_cap a b)
  | _, _ => None
  end.

Lemma cap_fields_ok t : variant_ok cap_t (cap_fields t) = true.
Proof. by destruct t. Qed.
Lemma tag_bound t : 0 <= CapTag_to_usize t < 2 ^ bs_type_bits cap_t.
Proof. destruct t; cbn; lia. Qed.
Lemma CapTag_of_to t : CapTag_of (CapTag_to_usize t) = Ok t.
Proof. by destruct t. Qed.

(** The constructor is the generic one of the bitfield macro. *)
Lemma cap_new_generic t vs c :
  cap_new t vs = Some c ->
  c = bf_new cap_t (zip (cap_fields t) vs) (CapTag_to_usize t) /\ length vs = length (cap_fields t).
Proof.
  intros H. destruct t; cbn in H;
    repeat (destruct vs as [|? vs]; try discriminate H);
    injection H as <-; split; reflexivity.
Qed.

Lemma bf_new_tag (fvs : list (bitfield * Z)) t :
  variant_ok cap_t (fst <$> fvs) = true ->
  get_cap_type (bf_new cap_t fvs (CapTag_to_usize t)) = Ok t.
Proof.
  intros H. unfold get_cap_type. rewrite bf_new_type; [apply CapTag_of_to|done|apply tag_bound].
Qed.

Lemma zip_fields (fs : list bitfield) (vs : list Z) : length vs = length fs -> fst <$> zip fs vs = fs.
Proof. intros H. apply fst_zip. lia. Qed.

(** C33: the constructors of all sixteen kinds of capability and the accessors
    are inverse: the tag is the kind, and every accessor returns what its
    field can hold of the argument at its position (in particular no field of
    a variant overlaps another field or the tag). *)
Theorem cap_new_roundtrip (t : CapTag) (vs : list Z) (c : list Z) :
  cap_new t vs = Some c ->
  get_cap_type c = Ok t /\
  (fun f => bf_get f c) <$> cap_fields t = zip_with bf_norm (cap_fields t) vs.
Proof.
  intros [-> Hl]%cap_new_generic.
  assert (variant_ok cap_t (fst <$> zip (cap_fields t) vs) = true) as Hok
    by (rewrite zip_fields by done; apply cap_fields_ok).
  split; [by apply bf_new_tag|].
  apply list_eq. intros i. rewrite list_lookup_fmap, lookup_zip_with.
  destruct (cap_fields t !! i) as [f|] eqn:Hf; [|done]. cbn.
  destruct (vs !! i) as [v|] eqn:Hv; cbn.
  - f_equal. apply bf_new_get; [done| |].
    + pose proof (tag_bound t). unfold is_word. cbn in *. lia.
    + apply list_elem_of_lookup. exists i. by rewrite lookup_zip_with, Hf, Hv.
  - apply lookup_lt_Some in Hf. apply lookup_ge_None in Hv. lia.
Qed.
Lemma cap_new_roundtrip_witness :
  let c := new_endpoint_cap 7 1 1 0 1 0xffffff8040001000 in
  get_cap_type c = Ok CapEndpointCap /\
  (fun f => bf_get f c) <$> cap_fields CapEndpointCap = [7; 1; 1; 0; 1; 0xffffff8040001000].
Proof.
  exact (cap_new_roundtrip CapEndpointCap [7; 1; 1; 0; 1; 0xffffff8040001000] _ eq_refl).
Defined.

(** ** Zombies *)
Section zombie.
Implicit Types (n p r type : Z) (c : list Z).

(** The two kinds of zombie: a thread, or a capability node of radix [r]. *)
Definition zombie_radix type : Z := if type =w ZombieType_ZombieTCB then TCB_CNODE_RADIX else type.
Definition zombie_type_ok type : Prop := type = ZombieType_ZombieTCB \/ 0 <= type < 63.

Lemma zombie_radix_bound type : zombie_type_ok type -> 0 <= zombie_radix type < 63.
Proof.
  unfold zombie_radix. intros [->|H]; [by rewrite bool_decide_true by done|].
  case_bool_decide as E; [|done]. by vm_compute.
Qed.
Lemma zombie_new_fields a b :
  is_word a -> 0 <= b < 2 ^ 7 -> length (new_zombie_cap a b) = 2%nat /\
  bf_get zombie_id (new_zombie_cap a b) = a /\ bf_get zombie_type (new_zombie_cap a b) = b /\
  get_cap_type (new_zombie_cap a b) = Ok CapZombieCap.
Proof.
  intros Ha Hb. unfold new_zombie_cap. split_and!.
  - reflexivity.
  - rewrite (bf_new_get _ _ _ _ a); [|done|done|set_solver]. apply bf_norm_small; cbn; [done|done|lia|exact Ha].
  - rewrite (bf_new_get _ _ _ _ b); [|done|done|set_solver]. apply bf_norm_small; cbn; [done|done|lia|exact Hb].
  - by apply bf_new_tag.
Qed.
(** A multiple of a power of two and a smaller number are read back. *)
Lemma low_bits p n k :
  0 <= k < 64 -> is_word p -> p `mod` 2 ^ k = 0 -> 0 <= n < 2 ^ k ->
  (p ||| n) &&& MASK k = n /\ (p ||| n) &&& wnot (MASK k) = p.
Proof.
  intros Hk Hp Hal Hn. rewrite MASK_spec by lia.
  assert (forall i, 0 <= i -> i < k -> Z.testbit p i = false) as Hlow.
  { intros i Hi Hik. rewrite <- (Z.mod_pow2_bits_low p k i) by lia. by rewrite Hal, Z.bits_0. }
  assert (forall i, k <= i -> Z.testbit n i = false) as Hhigh.
  { intros i Hi. rewrite <- (Z.mod_small n (2 ^ k)) by lia. apply Z.mod_pow2_bits_high. lia. }
  split; apply Z.bits_inj'; intros i Hi; rewrite Z.land_spec, Z.lor_spec.
  - rewrite Z.testbit_ones_nonneg by lia. destruct (decide (i < k)).
    + rewrite (proj2 (Z.ltb_lt i k)) by lia. rewrite Hlow by lia. by rewrite andb_true_r.
    + rewrite (proj2 (Z.ltb_ge i k)) by lia. rewrite Hhigh by lia. apply andb_false_r.
  - rewrite wnot_testbit, Z.testbit_ones_nonneg by lia.
    destruct (decide (i < k)).
    + rewrite (proj2 (Z.ltb_lt i k)) by lia. rewrite Hlow by lia. rewrite decide_True by lia. apply andb_false_r.
    + rewrite (proj2 (Z.ltb_ge i k)) by lia. rewrite Hhigh, orb_false_r by lia. case_decide.
      * apply andb_true_r.
      * by rewrite (is_word_testbit p) by (done || lia).
Qed.

(** A zombie with a counter and a pointer, read back. *)
Lemma zombie_read type p n c :
  zombie_type_ok type -> bf_get zombie_type c = type ->
  is_word p -> p `mod` 2 ^ (zombie_radix type + 1) = 0 -> 0 <= n < 2 ^ (zombie_radix type + 1) ->
  bf_get zombie_id c = p ||| n -> get_zombie_number c = n /\ get_zombie_ptr c = p.
Proof.
  intros Ht Hc Hp Hal Hn Hid. pose proof (zombie_radix_bound type Ht) as Hr.
  assert (get_zombie_bit c = zombie_radix type) as Hbit.
  { unfold get_zombie_bit, zombie_radix. rewrite Hc. destruct (decide (type = ZombieType_ZombieTCB)) as [->|Hne].
    - by rewrite bool_decide_true by done.
    - rewrite bool_decide_false by done. destruct Ht as [?|Ht]; [done|].
      unfold ZombieType_ZombieCNode. rewrite MASK_spec by (unfold wordRadix; lia).
      rewrite Z.land_ones by (unfold wordRadix; lia). apply Z.mod_small. unfold wordRadix. lia. }
  unfold get_zombie_number, get_zombie_ptr. rewrite Hbit, Hid.
  rewrite wadd_small by (unfold is_word; lia). apply low_bits; (done || lia).
Qed.
End zombie.

(** A zombie holds its counter and its pointer: [Zombie_new] of a thread
    or of a capability node, with a pointer aligned to the object and a
    counter that fits, gives a zombie capability of that type from which the
    counter and the pointer are read back; [set_zombie_number] replaces the
    counter and keeps the pointer, the type and the tag. *)
Theorem zombie_roundtrip (type p n m : Z) :
  zombie_type_ok type -> is_word p -> p `mod` 2 ^ (zombie_radix type + 1) = 0 ->
  0 <= n < 2 ^ (zombie_radix type + 1) -> 0 <= m < 2 ^ (zombie_radix type + 1) ->
  let c := Zombie_new n type p in
  let c' := set_zombie_number m c in
  get_cap_type c = Ok CapZombieCap /\ bf_get zombie_type c = type /\
  get_zombie_number c = n /\ get_zombie_ptr c = p /\
  get_cap_type c' = Ok CapZombieCap /\ bf_get zombie_type c' = type /\
  get_zombie_number c' = m /\ get_zombie_ptr c' = p.
Proof.
  intros Ht Hp Hal Hn Hm. cbv zeta. pose proof (zombie_radix_bound type Ht) as Hr.
  assert (0 < 2 ^ (zombie_radix type + 1)) as Hpow by (apply Z.pow_pos_nonneg; lia).
  assert (Zombie_new n type p = new_zombie_cap (p ||| n) type) as ->.
  { unfold Zombie_new. assert ((if type =w ZombieType_ZombieTCB then MASK (wadd TCB_CNODE_RADIX 1)
      else MASK (wadd type 1)) = MASK (zombie_radix type + 1)) as ->.
    { unfold zombie_radix in *. case_bool_decide; [done|]. f_equal. apply wadd_small. unfold is_word. lia. }
    f_equal. f_equal.
    - destruct (low_bits p 0 (zombie_radix type + 1)) as [_ H]; [lia|done|done|lia|].
      by rewrite Z.lor_0_r in H.
    - destruct (low_bits 0 n (zombie_radix type + 1)) as [H _]; [lia|unfold is_word; lia| |done|].
      + by rewrite Z.mod_0_l by lia. + by rewrite Z.lor_0_l in H. }
  assert (is_word (p ||| n) /\ is_word (p ||| m)) as [Hw Hw'].
  { assert (2 ^ (zombie_radix type + 1) < 2 ^ 64) by (apply Z.pow_lt_mono_r; lia).
    split; apply is_word_lor; unfold is_word in *; lia. }
  assert (0 <= type < 2 ^ 7) as Hty.
  { destruct Ht as [->|H]; [by vm_compute|lia]. }
  destruct (zombie_new_fields (p ||| n) type Hw Hty) as (Hlen & Hid & Htyp & Htag).
  set (c := new_zombie_cap (p ||| n) type) in *.
  destruct (zombie_read type p n c) as [Hnum Hptr]; [done..|].
  assert (set_zombie_number m c = bf_set zombie_id (p ||| m) c) as ->.
  { unfold set_zombie_number. unfold get_zombie_ptr in Hptr. rewrite Hptr.
    assert (MASK (wadd (get_zombie_bit c) 1) = MASK (zombie_radix type + 1)) as ->.
    { f_equal. unfold get_zombie_bit. rewrite Htyp. unfold zombie_radix in *.
      case_bool_decide; [done|]. destruct Ht as [?|Ht]; [done|].
      unfold ZombieType_ZombieCNode. rewrite MASK_spec by (unfold wordRadix; lia).
      rewrite Z.land_ones by (unfold wordRadix; lia). rewrite Z.mod_small by (unfold wordRadix; lia).
      apply wadd_small. unfold is_word. lia. }
    do 2 f_equal. destruct (low_bits 0 m (zombie_radix type + 1)) as [H _]; [lia|unfold is_word; lia| |done|].
    + by rewrite Z.mod_0_l by lia. + by rewrite Z.lor_0_l in H. }
  assert (bf_get zombie_id (bf_set zombie_id (p ||| m) c) = p ||| m) as Hid'.
  { rewrite (bf_get_set_same 2) by done. apply bf_norm_small; cbn; [done|done|lia|exact Hw']. }
  assert (bf_get zombie_type (bf_set zombie_id (p ||| m) c) = type) as Htyp'.
  { by rewrite (bf_get_set_other 2 2) by done. }
  destruct (zombie_read type p m (bf_set zombie_id (p ||| m) c)) as [Hnum' Hptr']; [done..|].
  assert (get_cap_type (bf_set zombie_id (p ||| m) c) = Ok CapZombieCap) as Htag'.
  { unfold get_cap_type. by rewrite (bf_set_type cap_t [zombie_id; zombie_type]) by (done || set_solver). }
  by split_and!.
Qed.
Lemma zombie_roundtrip_witness :
  let c := Zombie_new 5 ZombieType_ZombieTCB 0xffffff8040002000 in
  get_zombie_number (set_zombie_number 4 c) = 4 /\ get_zombie_ptr c = 0xffffff8040002000.
Proof.
  destruct (zombie_roundtrip ZombieType_ZombieTCB 0xffffff8040002000 5 4) as (_ & _ & _ & H2 & _ & _ & H3 & _).
  - by left.
  - done.
  - vm_compute. reflexivity.
  - vm_compute. split; [discriminate|reflexivity].
  - vm_compute. split; [discriminate|reflexivity].
  - split; [exact H3|exact H2].
Defined.

(** ** Rights *)
(** The rights of a capability and the bits of a mask that restrict them. *)
Definition rights_fields (t : CapTag) : list (bitfield * bitfield) :=
  match t with
  | CapEndpointCap => [(ep_can_send, allow_write); (ep_can_receive, allow_read);
      (ep_can_grant, allow_grant); (ep_can_grant_reply, allow_grant_reply)]
  | CapNotificationCap => [(nf_can_send, allow_write); (nf_can_receive, allow_read)]
  | CapReplyCap => [(reply_can_grant, allow_grant)]
  | _ => []
  end.
(** What a mapping permits: nothing, reading, reading and writing. *)
Definition vm_level (r : vm_rights_t) : Z :=
  match r with VMKernelOnly => 0 | VMReadOnly => 1 | VMReadWrite => 2 end.

Lemma maskVMRights_le r rights : vm_level (maskVMRights r rights) <= vm_level r.
Proof.
  unfold maskVMRights. destruct r; repeat case_bool_decide; simplify_eq; cbn; lia.
Qed.
Lemma vm_rights_usize r : vm_rights_from_word (vm_rights_to_usize r) = Ok r.
Proof. by destruct r. Qed.

(** A right and a mask bit: the conjunction fits in the right's field. *)
Lemma right_norm f m (c rights : list Z) :
  wf_bf 2 f = true -> wf_bf 1 m = true -> bf_bits f = 1 -> bf_bits m = 1 ->
  bf_sign f = false -> bf_shift f = 0 -> bf_sign m = false -> bf_shift m = 0 ->
  bf_norm f (bf_get f c &&& bf_get m rights) = bf_get f c &&& bf_get m rights.
Proof.
  intros Hf Hm Hb Hb' H1 H2 H3 H4. apply bf_norm_small; [done|done|lia|].
  pose proof (bf_get_bound 2 f c Hf H1 H2) as Bf. pose proof (bf_get_bound 1 m rights Hm H3 H4) as Bm.
  rewrite Hb in Bf |- *. rewrite Hb' in Bm. change (2 ^ 1) with 2 in *.
  assert (bf_get f c = 0 \/ bf_get f c = 1) as [-> | ->] by lia;
    assert (bf_get m rights = 0 \/ bf_get m rights = 1) as [-> | ->] by lia; rewrite ?Z.land_0_l, ?Z.land_0_r, ?Z.land_diag; lia.
Qed.

Ltac elem_cases H := repeat (apply elem_of_cons in H as [H|H]; [simplify_eq|]);
  [try set_solver..|by apply elem_of_nil in H].
Ltac bf_read := repeat first
  [ rewrite (bf_get_set_other 2 2) by reflexivity
  | rewrite (bf_get_set_same 2) by (first [reflexivity | by rewrite ?bf_set_length]) ].
Ltac bf_tag t := unfold get_cap_type;
  repeat (rewrite (bf_set_type cap_t (cap_fields t)) by (first [reflexivity | set_solver])).

Lemma mask_rights_fields (t : CapTag) (rights c c' : list Z) :
  length c = 2%nat -> get_cap_type c = Ok t -> mask_cap_rights rights c = Ok c' ->
  (forall f m, (f, m) ∈ rights_fields t -> bf_get f c' = bf_get f c &&& bf_get m rights).
Proof.
  intros Hl Ht Hm f m Hin. unfold mask_cap_rights, isArchCap in Hm. rewrite Ht in Hm.
  destruct t; cbn [rights_fields] in Hin; try (by apply elem_of_nil in Hin);
    cbn -[bf_set bf_get Z.land] in Hm; injection Hm as <-;
    repeat (apply elem_of_cons in Hin as [Hin|Hin]; [simplify_eq|]); try (by apply elem_of_nil in Hin);
    bf_read; by apply right_norm.
Qed.

(** The fields [mask_cap_rights] may change. *)
Definition masked_fields (t : CapTag) : list bitfield :=
  match t with CapFrameCap => [frame_vm_rights] | _ => fst <$> rights_fields t end.

Lemma mask_rights_frame_cap (rights c c' : list Z) :
  get_cap_type c = Ok CapFrameCap -> mask_cap_rights rights c = Ok c' ->
  exists r, vm_rights_from_word (bf_get frame_vm_rights c) = Ok r /\
    c' = bf_set frame_vm_rights (vm_rights_to_usize (maskVMRights r rights)) c.
Proof.
  intros Ht Hm. unfold mask_cap_rights, isArchCap in Hm. rewrite Ht in Hm.
  cbn -[bf_set bf_get maskVMRights vm_rights_from_word vm_rights_to_usize] in Hm.
  unfold arch_mask_cap_rights in Hm. rewrite Ht in Hm.
  cbn -[bf_set bf_get maskVMRights vm_rights_from_word vm_rights_to_usize] in Hm.
  destruct (vm_rights_from_word (bf_get frame_vm_rights c)) as [r| | |] eqn:E; try done.
  cbn -[bf_set bf_get maskVMRights vm_rights_to_usize] in Hm. injection Hm as <-. by exists r.
Qed.

(** The capability that results, as a sequence of writes to masked fields. *)
Lemma mask_rights_writes (t : CapTag) (rights c c' : list Z) :
  get_cap_type c = Ok t -> mask_cap_rights rights c = Ok c' ->
  exists ws : list (bitfield * Z),
    c' = foldr (fun fv x => bf_set fv.1 fv.2 x) c ws /\ Forall (fun fv => fv.1 ∈ masked_fields t) ws.
Proof.
  intros Ht Hm. destruct (decide (t = CapFrameCap)) as [->|Hne].
  { destruct (mask_rights_frame_cap rights c c' Ht Hm) as (r & _ & ->).
    eexists [(_, _)]. split; [reflexivity|]. repeat constructor. }
  unfold mask_cap_rights, isArchCap in Hm. rewrite Ht in Hm.
  destruct t; try done; cbn -[bf_set bf_get Z.land arch_mask_cap_rights] in Hm;
    try (unfold arch_mask_cap_rights in Hm; rewrite Ht in Hm; cbn in Hm);
    injection Hm as <-; first
      [ exists []; split; [reflexivity|constructor]
      | eexists [(_, _); (_, _); (_, _); (_, _)]; split; [reflexivity|]
      | eexists [(_, _); (_, _)]; split; [reflexivity|]
      | eexists [(_, _)]; split; [reflexivity|] ];
    repeat (apply Forall_cons; split; [set_solver|]); by apply Forall_nil.
Qed.

Lemma writes_keep (t : CapTag) (ws : list (bitfield * Z)) (c : list Z) :
  Forall (fun fv => fv.1 ∈ cap_fields t) ws -> bf_type cap_t (foldr (fun fv x => bf_set fv.1 fv.2 x) c ws) = bf_type cap_t c.
Proof.
  intros H. induction ws as [|[f v] ws IH]; [done|]. apply Forall_cons in H as [Hf H]. cbn in *.
  rewrite (bf_set_type cap_t (cap_fields t)) by (done || apply cap_fields_ok). by apply IH.
Qed.
Lemma fields_disjoint (t : CapTag) f g :
  f ∈ cap_fields t -> g ∈ cap_fields t -> f <> g -> wf_bf 2 f = true /\ wf_bf 2 g = true /\ disjoint_bf f g = true.
Proof.
  intros Hf Hg Hne.
  destruct (variant_ok_inv _ _ (cap_fields_ok t)) as (Hwf & _ & Hp & _ & _).
  rewrite forallb_forall in Hwf. split; [|split]; [by apply Hwf, list_elem_of_In..|].
  clear Hwf. induction (cap_fields t) as [|h l IH]; [by apply elem_of_nil in Hf|].
  cbn in Hp. apply andb_true_iff in Hp as [Hh Hp]. rewrite forallb_forall in Hh.
  apply elem_of_cons in Hf as [->|Hf]; apply elem_of_cons in Hg as [->|Hg]; try done.
  - by apply Hh, list_elem_of_In.
  - rewrite disjoint_bf_sym. by apply Hh, list_elem_of_In.
  - by apply IH.
Qed.
Lemma writes_other (t : CapTag) (ws : list (bitfield * Z)) (c : list Z) f :
  f ∈ cap_fields t -> Forall (fun fv => fv.1 ∈ cap_fields t /\ fv.1 <> f) ws ->
  bf_get f (foldr (fun fv x => bf_set fv.1 fv.2 x) c ws) = bf_get f c.
Proof.
  intros Hf H. induction ws as [|[g v] ws IH]; [done|]. apply Forall_cons in H as [[Hg Hne] H]. cbn in *.
  destruct (fields_disjoint t f g) as (H1 & H2 & H3); [done..|congruence|].
  rewrite (bf_get_set_other 2 2) by done. by apply IH.
Qed.
Lemma masked_in_fields t f : f ∈ masked_fields t -> f ∈ cap_fields t.
Proof. destruct t; cbn; set_solver. Qed.

(** C32: restricting the rights of a capability never adds one: the result has
    the same kind and names the same object with the same badge or guard (no
    field but the rights changes); each right that remains was there before and
    is in the mask; the access a frame can be mapped with never grows. *)
Theorem mask_cap_rights_restricts (t : CapTag) (rights c c' : list Z) :
  length c = 2%nat -> get_cap_type c = Ok t -> mask_cap_rights rights c = Ok c' ->
  get_cap_type c' = Ok t /\
  (forall f, f ∈ cap_fields t -> f ∉ masked_fields t -> bf_get f c' = bf_get f c) /\
  (forall f m, (f, m) ∈ rights_fields t -> bf_get f c' = bf_get f c &&& bf_get m rights) /\
  (t = CapFrameCap -> exists r r',
     vm_rights_from_word (bf_get frame_vm_rights c) = Ok r /\
     vm_rights_from_word (bf_get frame_vm_rights c') = Ok r' /\ vm_level r' <= vm_level r).
Proof.
  intros Hl Ht Hm. destruct (mask_rights_writes t rights c c' Ht Hm) as (ws & Hc & Hws).
  split_and!.
  - unfold get_cap_type in *. rewrite Hc, (writes_keep t); [done|].
    eapply Forall_impl; [exact Hws|]. intros fv. apply masked_in_fields.
  - intros f Hf Hn. rewrite Hc. apply (writes_other t); [done|].
    eapply Forall_impl; [exact Hws|]. cbn. intros fv Hfv. split; [by apply masked_in_fields|congruence].
  - by apply mask_rights_fields.
  - intros ->. destruct (mask_rights_frame_cap rights c c' Ht Hm) as (r & Hr & ->).
    exists r, (maskVMRights r rights). split_and!; [done| |apply maskVMRights_le].
    rewrite (bf_get_set_same 2) by done. by destruct (maskVMRights r rights).
Qed.
Lemma mask_cap_rights_restricts_witness :
  let c := new_endpoint_cap 7 1 1 1 1 0xffffff8040001000 in
  let c' := new_endpoint_cap 7 0 0 1 0 0xffffff8040001000 in
  mask_cap_rights [1] c = Ok c' /\ bf_get ep_badge c' = bf_get ep_badge c /\
  bf_get ep_can_grant c' = bf_get ep_can_grant c &&& bf_get allow_grant [1].
Proof.
  intros c c'.
  destruct (mask_cap_rights_restricts CapEndpointCap [1] c c') as (_ & H1 & H2 & _); [reflexivity..|].
  split; [reflexivity|]. split.
  - apply H1; cbn; [left|]. intros H. repeat (apply elem_of_cons in H as [H|H]; [discriminate H|]).
    by apply elem_of_nil in H.
  - apply H2. cbn. right. right. left.
Defined.

(** ** Regions *)
(** An untyped capability covers exactly the objects inside its region:
    for a capability to memory at [p2] of [2 ^ b2] bytes, [same_region_as]
    answers whether [[p2, p2 + 2 ^ b2)] is within the region of the untyped
    capability, as long as neither region wraps around the address space. *)
Theorem same_region_untyped (c1 c2 : list Z) (p2 b2 : Z) :
  get_cap_type c1 = Ok CapUntypedCap -> get_cap_is_physical c2 = Ok true ->
  get_cap_ptr c2 = Ok p2 -> get_cap_size_bits c2 = Ok b2 ->
  let p1 := bf_get untyped_ptr c1 in
  let b1 := bf_get untyped_block_size c1 in
  0 <= p1 -> p1 + 2 ^ b1 <= 2 ^ 64 -> 0 <= p2 -> 0 <= b2 < 64 -> p2 + 2 ^ b2 <= 2 ^ 64 ->
  same_region_as c1 c2 = Ok (bool_decide (p1 <= p2 /\ p2 + 2 ^ b2 <= p1 + 2 ^ b1)).
Proof.
  intros Ht Hph Hp Hb p1 b1 H1 H2 H3 H4 H5. unfold same_region_as. rewrite Ht, Hph, Hp, Hb.
  cbn -[bf_get wadd MASK]. f_equal. fold p1 b1.
  assert (0 <= b1 < 64) as Hb1.
  { pose proof (bf_get_bound 2 untyped_block_size c1 eq_refl eq_refl eq_refl) as Hbd. cbn in Hbd. exact Hbd. }
  assert (0 < 2 ^ b1 /\ 0 < 2 ^ b2) as [Hq1 Hq2] by (split; apply Z.pow_pos_nonneg; lia).
  rewrite !MASK_spec, !Z.ones_equiv by lia.
  rewrite !wadd_small by (unfold is_word; lia).
  repeat case_bool_decide; try done; lia.
Qed.
Lemma same_region_untyped_witness :
  same_region_as (new_untyped_cap 0 0 12 0xffffff8040001000)
    (new_endpoint_cap 0 1 1 1 1 0xffffff8040001ff0) = Ok true.
Proof.
  rewrite (same_region_untyped _ _ 0xffffff8040001ff0 4); try reflexivity; vm_compute; try discriminate.
  split; [discriminate|reflexivity].
Defined.
