(* ===== verification/DeleteProps.v ===== *)
(** * Deletion and revocation: theorems

    The theorems of [Delete.v] are proved against an interface, [CSpaceLaws]:
    what the capability space may assume of the three functions the kernel
    gives it.  [kernel_laws] discharges it for the kernel of [Finalise.v].

    The first group is about every run that returns: a slot that [delete_all]
    deleted is empty, and a slot that [revoke] revoked has no child left.  The
    second is total: revoking a capability whose children are other
    capabilities to the same object, or capabilities without an effect on
    deletion, returns and removes exactly the children from the mapping
    database, with enough fuel given by their number. *)

From stdpp Require Import base numbers gmap list.
From S2P Require Import Prelude Bitfield Common Cap DList CSpace CSpaceProps Sched State Vspace Threads Delete Ipc Finalise.
Local Open Scope Z_scope.
Local Open Scope krn_scope.

(** ** The interface *)
Class CSpaceLaws (D : CSpaceDeps) := {
  (** capabilities that go away without an effect, when they are (not) the
      last one to their object *)
  quiet_cap : bool -> list Z -> bool;
  finalise_quiet final c s : quiet_cap final c = true ->
    finaliseCap c final false s = Ok (null_ret, s);
  post_null s : post_cap_deletion new_null_cap s = Ok (tt, s);
  post_keeps_slots c s s' : post_cap_deletion c s = Ok (tt, s') -> k_slots s' = k_slots s;
  preemption_none s : wp preemptionPoint (fun st s' => st = EXCEPTION_NONE /\ k_slots s' = k_slots s) s }.

(** ** The kernel's implementation *)
Definition kernel_quiet (final : bool) (c : list Z) : bool :=
  match get_cap_type c with
  | Ok (CapUntypedCap | CapNullCap | CapReplyCap | CapDomainCap | CapIrqControlCap
        | CapASIDControlCap) => true
  | Ok CapFrameCap => bf_get frame_mapped_asid c =w 0
  | Ok CapPageTableCap => negb (final && (bf_get pt_is_mapped c =w 1))
  | Ok CapVspaceCap => negb (final && (bf_get vs_is_mapped c =w 1))
  | Ok (CapEndpointCap | CapNotificationCap | CapCNodeCap | CapThreadCap | CapIrqHandlerCap
        | CapASIDPoolCap) => negb final
  | _ => false
  end.

Lemma kernel_finalise_quiet n final c s :
  kernel_quiet final c = true -> @finaliseCap (kernel_deps (S n)) c final false s = Ok (null_ret, s).
Proof.
  unfold kernel_quiet. intros Hq. cbn -[get_cap_type isArchCap].
  unfold finaliseCap_impl, Arch_finaliseCap, isArchCap.
  destruct (get_cap_type c) as [t| | |] eqn:Ht; [|done..].
  destruct t, final; cbn -[bf_get] in Hq |- *; try done;
    unfold mbind, st_bind, lift, mret, st_ret, null_ret; cbn -[bf_get];
    rewrite ?Ht; cbn -[bf_get]; try done;
    rewrite ?Hq; cbn -[bf_get]; try done;
    case_bool_decide; try done.
Qed.

Lemma kernel_preemption_none n s :
  wp (@preemptionPoint (kernel_deps (S n)))
    (fun st s' => st = EXCEPTION_NONE /\ k_slots s' = k_slots s) s.
Proof.
  cbn. unfold preemptionPoint_impl. apply wp_bind, wp_zoom, wp_modify.
  apply wp_bind, wp_zoom, wp_gets. case_bool_decide; [|done].
  apply wp_bind, wp_zoom, wp_modify. done.
Qed.

Lemma kernel_post_keeps n c s s' :
  @post_cap_deletion (kernel_deps (S n)) c s = Ok (tt, s') -> k_slots s' = k_slots s.
Proof.
  cbn. unfold post_cap_deletion_impl, setIRQState, mask_interrupt. intros H. inv_ok.
  case_bool_decide; cbn in H; [|by injection H as ->]. inv_ok.
  unfold irq_get, irq_mod, hw, vm_mod in *. inv_ok. repeat case_bool_decide; inv_ok; done.
Qed.

#[export] Program Instance kernel_laws : CSpaceLaws kernel := {|
  quiet_cap := kernel_quiet;
|}.
Next Obligation. intros. by apply kernel_finalise_quiet. Qed.
Next Obligation. done. Qed.
Next Obligation. intros c s s'. apply kernel_post_keeps. Qed.
Next Obligation. intros. apply kernel_preemption_none. Qed.

(** ** Slots *)
Lemma set_cap_keeps_null self s s' c m :
  zoom k_slots set_k_slots (store_with self (set_cap c)) s = Ok (m, s') ->
  exists x, k_slots s !! self = Some x /\ s' = set_k_slots (<[self := set_cap c x]> (k_slots s)) s.
Proof.
  intros H. apply zoom_inv in H as (t & H & ->). unfold store_with in H.
  destruct (k_slots s !! self) as [x|] eqn:E; [|done]. injection H as _ <-. eauto.
Qed.

Lemma slot_inv a s x s' : slot a s = Ok (x, s') -> k_slots s !! a = Some x /\ s' = s.
Proof.
  intros H. apply zoom_inv in H as (t & H & ->). unfold load in H.
  destruct (k_slots s !! a) as [y|] eqn:E; [|done]. injection H as -> <-. split; [done|]. by destruct s.
Qed.

Lemma wp_slot a s x (Q : cte_t -> kst -> Prop) : k_slots s !! a = Some x -> Q x s -> wp (slot a) Q s.
Proof. intros Hx HQ. apply wp_zoom. eapply wp_load; [exact Hx|]. by destruct s. Qed.

(** The address of the next slot as [revoke] reads it: exact for the slots of
    the kernel window, whose addresses have all their upper bits set. *)
Definition window (a : Z) : Prop := a = 0 \/ 0xffffff8000000000 <= a.
Lemma window_bits r :
  0 <= r < 2 ^ 39 ->
  let v := Z.lor (511 * 2 ^ 39) r in
  Z.lor v 0xffff800000000000 = Z.lor v 0xffffff8000000000 /\ Z.testbit v 46 = true.
Proof.
  intros Hr v. split.
  - subst v. rewrite !(Z.lor_comm _ r), <- !Z.lor_assoc. f_equal.
  - subst v. rewrite Z.lor_spec. by rewrite (ltac:(reflexivity) : Z.testbit (511 * 2 ^ 39) 46 = true).
Qed.
Lemma high_window v : 2 ^ 48 - 2 ^ 39 <= v < 2 ^ 48 -> exists r, 0 <= r < 2 ^ 39 /\ v = Z.lor (511 * 2 ^ 39) r.
Proof.
  intros Hv. exists (v - 511 * 2 ^ 39). split; [lia|]. rewrite lor_add by lia. lia.
Qed.
Lemma land_bit_nonzero v n : 0 <= n < 64 -> (Z.land v (wshl 1 n) = 0) <-> Z.testbit v n = false.
Proof.
  intros Hn. change (wshl 1 n) with (BIT n). rewrite BIT_spec by lia. split; intros H.
  - apply (f_equal (fun z => Z.testbit z n)) in H.
    by rewrite Z.land_spec, Z.pow2_bits_true, andb_true_r, Z.bits_0 in H by lia.
  - apply Z.bits_inj'. intros i Hi. rewrite Z.land_spec, Z.bits_0.
    destruct (decide (i = n)) as [->|]; [by rewrite H|].
    by rewrite Z.pow2_bits_false, andb_false_r by lia.
Qed.

Lemma get_volatile_value_spec x :
  window (mdb_get mdbNext x) -> get_volatile_value x = mdb_get mdbNext x.
Proof.
  unfold get_volatile_value, mdb_get, mdbNext, bf_get. cbn [bf_bits bf_index bf_offset bf_shift bf_sign].
  change (bf_mask 46) with (MASK 46). set (v := wshl _ 2). unfold bf_sext. cbn [andb].
  assert (0 <= v < 2 ^ 48) as Hv.
  { unfold v. rewrite MASK_spec by lia. rewrite Z.land_ones, wshl_spec by lia.
    pose proof (Z.mod_pos_bound (wshr (cteMDBNode x !!! 1%nat) 2) (2 ^ 46) ltac:(lia)).
    rewrite wrap_id by (unfold is_word; lia). lia. }
  destruct (Z.testbit v 47) eqn:E47.
  - rewrite (bool_decide_false (v &&& wshl 1 47 = 0)) by (rewrite land_bit_nonzero by lia; congruence).
    cbn [negb]. intros [H0|Hw].
    { apply Z.lor_eq_0_iff in H0. lia. }
    destruct (high_window v) as (r & Hr & ->).
    { split; [|lia]. assert (2 ^ 47 <= v) as H47.
      { destruct (decide (v < 2 ^ 47)); [|lia]. rewrite <- (Z.mod_small v (2 ^ 47)) in E47 by lia.
        rewrite Z.mod_pow2_bits_high in E47 by lia. done. }
      replace v with (Z.lor (1 * 2 ^ 47) (v - 2 ^ 47)) in Hw by (rewrite lor_add by lia; lia).
      rewrite (Z.lor_comm (1 * 2 ^ 47)), <- Z.lor_assoc, Z.lor_comm in Hw.
      change (Z.lor (1 * 2 ^ 47) 0xffff800000000000) with ((2 ^ 17 - 1) * 2 ^ 47) in Hw.
      rewrite lor_add in Hw by lia. lia. }
    destruct (window_bits r Hr) as [-> H46].
    rewrite bool_decide_false by (rewrite land_bit_nonzero by lia; congruence). done.
  - rewrite (bool_decide_true (v &&& wshl 1 47 = 0)) by (by apply land_bit_nonzero).
    cbn [negb]. intros [->|?]; [done|lia].
Qed.

(** ** Every run that returns *)
Section returns.
Context {D : CSpaceDeps} {L : CSpaceLaws D}.

Lemma mdb_unlink_clears self s s' u :
  on_slots (mdb_unlink self) s = Ok (u, s') ->
  k_slots s' !! self = Some (Cte new_null_cap mdb_node_default).
Proof.
  unfold on_slots, mdb_unlink. intros H. apply zoom_inv in H as (h & H & ->). cbn [k_slots set_k_slots].
  inv_ok. unfold store_with in *.
  repeat match goal with
  | H : match ?o with _ => _ end = Ok _ |- _ => destruct o eqn:?; [|discriminate H]; injection H as ? H; subst
  end.
  rewrite lookup_insert_eq. match goal with H : <[_ := _]> _ !! _ = Some _ |- _ =>
    rewrite lookup_insert_eq in H; injection H as <- end.
  reflexivity.
Qed.

Lemma set_empty_clears self info s s' u :
  set_empty self info s = Ok (u, s') ->
  exists x, k_slots s' !! self = Some x /\ get_cap_type (cte_cap x) = Ok CapNullCap.
Proof.
  unfold set_empty. intros H. inv_ok. apply slot_inv in H0 as [Hx ->].
  case_bool_decide as Ht.
  - inv_ok. eauto.
  - inv_ok.
    apply mdb_unlink_clears in H0.
    destruct u.
    rewrite (post_keeps_slots _ _ _ H). eexists. split; [exact H0|reflexivity].
Qed.
End returns.

(** A slot that an exposed [delete_all] deleted is empty: whenever the
    deletion reports success, the slot holds the null capability. *)
Theorem delete_all_empties {D : CSpaceDeps} {L : CSpaceLaws D} (fuel : nat) (self : Z) (s s' : kst) :
  delete_all fuel self true s = Ok (EXCEPTION_NONE, s') ->
  exists x, k_slots s' !! self = Some x /\ get_cap_type (cte_cap x) = Ok CapNullCap.
Proof.
  unfold delete_all, delete_all_with. intros H. inv_ok. case_bool_decide as Hs; inv_ok; [done|].
  cbn [orb when] in H1. by eapply set_empty_clears.
Qed.

(** [revoke] leaves no child: whenever it reports success, the slot after
    it in the mapping database, if there is one, is not derived from it. *)
Theorem revoke_no_children {D : CSpaceDeps} {L : CSpaceLaws D} (fuel : nat) (self : Z) (s s' : kst) :
  revoke fuel self s = Ok (EXCEPTION_NONE, s') ->
  exists x, k_slots s' !! self = Some x /\
    (get_volatile_value x = 0 \/
     exists y, k_slots s' !! get_volatile_value x = Some y /\ is_mdb_parent_of x y = Ok false).
Proof.
  revert s. induction fuel as [|fuel IH]; intros s H; [done|]. cbn [revoke] in H. inv_ok.
  apply slot_inv in H0 as [Hx ->]. case_bool_decide as Hn; inv_ok; [by eauto|].
  apply slot_inv in H0 as [Hy ->]. destruct x2; cbn [negb] in H; [|inv_ok; eauto 7].
  inv_ok. repeat (case_bool_decide; inv_ok; [done|]). by eapply IH.
Qed.

(** ** Revocation of quiet children *)
Section revoke.
Context {D : CSpaceDeps} {L : CSpaceLaws D}.
Implicit Types (h : slots) (a b self : Z) (x y : cte_t) (c : list Z) (s : kst).

(** Capabilities the comparison functions are defined on. *)
Definition cap_ok c : bool :=
  match get_cap_type c with
  | Ok _ => true
  | _ => false
  end.

(** A capability other than a badged one: its children are told from its
    capability and theirs. *)
Definition plain_parent c : bool :=
  match get_cap_type c with
  | Ok CapEndpointCap => bf_get ep_badge c =w 0
  | Ok CapNotificationCap => bf_get nf_badge c =w 0
  | _ => true
  end.

(** A child of [p] that goes away without an effect: a copy of [p], which is
    never the last capability to the object, or a capability that is quiet
    even then. *)
Definition quiet_child p c : bool :=
  cap_ok c && bool_decide (get_cap_type c <> Ok CapNullCap) &&
  bool_decide (same_region_as p c = Ok true) && quiet_cap false c &&
  (bool_decide (same_object_as p c = Ok true) || quiet_cap true c).

Lemma is_mdb_parent_of_plain x y r :
  plain_parent (cte_cap x) = true -> mdb_get mdbRevocable x <> 0 ->
  same_region_as (cte_cap x) (cte_cap y) = Ok r -> is_mdb_parent_of x y = Ok r.
Proof.
  unfold plain_parent, is_mdb_parent_of. intros Hp Hv Hs. rewrite bool_decide_false by done.
  rewrite Hs. cbn [mbind res_bind]. destruct r; cbn [negb]; [|done].
  unfold same_region_as in Hs. destruct (get_cap_type (cte_cap x)) as [t| | |]; [|done..].
  cbn [mbind res_bind] in Hs |- *. destruct t; try done; rewrite Hp;
    destruct (get_cap_type (cte_cap y)); try done; cbn [mbind res_bind] in Hs |- *;
    (case_bool_decide; [done|done]).
Qed.

Lemma same_object_as_total c c' :
  cap_ok c = true -> cap_ok c' = true -> exists r, same_object_as c c' = Ok r.
Proof.
  unfold cap_ok, same_object_as, arch_same_object_as, arch_same_region_as, same_region_as,
    get_cap_ptr, isArchCap.
  destruct (get_cap_type c) as [t| | |] eqn:Ht; [|done..].
  destruct (get_cap_type c') as [t'| | |] eqn:Ht'; [|done..].
  intros H1 H2.
  destruct t; cbn -[bf_get pageBitsForSize] in H1 |- *; eauto;
  destruct t'; cbn -[bf_get pageBitsForSize] in H2 |- *; eauto;
  rewrite ?Ht, ?Ht'; cbn -[bf_get pageBitsForSize]; eauto.
Qed.

(** The final-capability test of a slot whose predecessor is [p]. *)
Lemma wp_is_final_cap h a x p y l1 l2 (Q : bool -> slots -> Prop) :
  slots_ok h -> mdb h (l1 ++ p :: a :: l2) -> h !! p = Some y -> h !! a = Some x ->
  cap_ok (cte_cap y) = true -> cap_ok (cte_cap x) = true ->
  (forall b z, hd_error l2 = Some b -> h !! b = Some z -> cap_ok (cte_cap z) = true) ->
  (forall f, (same_object_as (cte_cap y) (cte_cap x) = Ok true -> f = false) -> Q f h) ->
  wp (is_final_cap a) Q h.
Proof.
  intros Hok Hl Hy Hx Hcy Hcx Hn HQ. unfold is_final_cap. wp_load_slot Hx.
  assert (mdb h ((l1 ++ [p]) ++ a :: l2)) as Hl' by by rewrite <- app_assoc.
  pose proof (dlist_links _ _ _ _ _ _ Hl' Hx) as [Hxp Hxn]. cbn in Hxp, Hxn. rewrite last_or_snoc in Hxp.
  assert (p <> 0) as Hp0 by by eapply slots_not_null.
  destruct (same_object_as_total _ _ Hcy Hcx) as [r Hr].
  rewrite Hxp, (bool_decide_false (p = 0)) by done. cbn [negb]. apply wp_bind, wp_bind.
  eapply wp_load_ref; [done|exact Hy|]. eapply wp_lift; [exact Hr|].
  destruct r; [by apply wp_ret, HQ|].
  rewrite Hxn. destruct l2 as [|b l2]; cbn [head_or].
  { apply wp_ret, HQ. rewrite Hr. done. }
  assert (b ∈ l1 ++ p :: a :: b :: l2) as Hb by set_solver.
  destruct (dlist_elem _ _ _ _ Hl Hb) as [z Hz].
  assert (b <> 0) as Hb0 by by eapply slots_not_null.
  rewrite (bool_decide_false (b = 0)) by done. apply wp_bind. eapply wp_load_ref; [done|exact Hz|].
  destruct (same_object_as_total _ _ Hcx (Hn b z eq_refl Hz)) as [q Hq].
  apply wp_bind. eapply wp_lift; [exact Hq|]. apply wp_ret, HQ. rewrite Hr. done.
Qed.

(** One quiet deletion: the slot after [p] is unlinked, nothing else. *)
Lemma wp_delete_all_quiet fuel s a x p y l1 l2 (Q : exception_t -> kst -> Prop) :
  slots_ok (k_slots s) -> mdb (k_slots s) (l1 ++ p :: a :: l2) ->
  k_slots s !! p = Some y -> k_slots s !! a = Some x ->
  cap_ok (cte_cap y) = true -> quiet_child (cte_cap y) (cte_cap x) = true ->
  (forall b z, hd_error l2 = Some b -> k_slots s !! b = Some z -> cap_ok (cte_cap z) = true) ->
  Q EXCEPTION_NONE (set_k_slots (unlink_heap (k_slots s) a x) s) ->
  wp (delete_all (S fuel) a true) Q s.
Proof.
  unfold quiet_child. rewrite !andb_true_iff, orb_true_iff, !bool_decide_eq_true.
  intros Hok Hl Hy Hx Hcy [[[[Hcx Hnull] Hreg] Hq] Hqt] Hn HQ.
  assert (exists t, get_cap_type (cte_cap x) = Ok t /\ t <> CapNullCap) as (t & Ht & Htn).
  { unfold cap_ok in Hcx. destruct (get_cap_type (cte_cap x)) as [t| | |]; [|done..].
    exists t. split; congruence. }
  assert (mdb (k_slots s) ((l1 ++ [p]) ++ a :: l2)) as Hl' by by rewrite <- app_assoc.
  unfold delete_all, delete_all_with. cbn [finalise]. apply wp_bind, wp_bind.
  eapply wp_slot; [exact Hx|]. apply wp_bind. eapply wp_lift; [exact Ht|].
  rewrite (bool_decide_false (t = CapNullCap)) by done. unfold finalise_step.
  apply wp_bind, wp_bind, wp_zoom. eapply wp_is_final_cap; [exact Hok|exact Hl|exact Hy|exact Hx|done..|].
  intros f Hf. replace (set_k_slots (k_slots s) s) with s by by destruct s.
  apply wp_bind. assert (quiet_cap f (cte_cap x) = true) as Hqf.
  { destruct Hqt as [Hs|Hqt]; [rewrite (Hf Hs); done|by destruct f]. }
  unfold wp at 1. rewrite (finalise_quiet f _ s Hqf). cbn [remainder cleanupInfo null_ret].
  apply wp_bind. eapply wp_lift; [reflexivity|]. do 2 apply wp_ret. cbn [fs_status].
  rewrite bool_decide_false by (intros Hc; by apply Hc). cbn [fs_success fs_cleanupInfo orb when].
  apply wp_bind. unfold set_empty. apply wp_bind. eapply wp_slot; [exact Hx|].
  apply wp_bind. eapply wp_lift; [exact Ht|]. rewrite (bool_decide_false (t = CapNullCap)) by done.
  apply wp_bind, wp_zoom. eapply wp_mdb_unlink; [exact Hok|exact Hl'|exact Hx|].
  unfold wp. rewrite post_null. exact HQ.
Qed.

(** What a slot keeps when its successor goes. *)
Lemma unlink_heap_prev h a x p y l1 l2 :
  slots_ok h -> mdb h (l1 ++ p :: a :: l2) -> h !! p = Some y -> h !! a = Some x ->
  exists y', unlink_heap h a x !! p = Some y' /\ cte_cap y' = cte_cap y /\
    mdb_get mdbRevocable y' = mdb_get mdbRevocable y.
Proof.
  intros Hok Hl Hy Hx.
  assert (mdb h ((l1 ++ [p]) ++ a :: l2)) as Hl' by by rewrite <- app_assoc.
  pose proof (dlist_links _ _ _ _ _ _ Hl' Hx) as [Hxp Hxn]. cbn in Hxp, Hxn. rewrite last_or_snoc in Hxp.
  assert (p <> a /\ p ∉ l2) as [Hpa Hp2].
  { destruct Hl as (_ & Hnd & _). apply NoDup_split in Hnd as (_ & _ & _ & Hp & _). set_solver. }
  exists (mdb_set mdbNext (mdb_get mdbNext x) y). unfold unlink_heap.
  rewrite lookup_alter_ne, alter_alter_eq by done.
  rewrite (alter_neighbour _ _ _ l2); [|by apply null_alter, Hok|rewrite Hxn; apply head_or_elem|done].
  rewrite Hxp, lookup_alter_eq, Hy. split; [done|]. split; [done|].
  unfold mdb_get, mdb_set. cbn. by bf_other.
Qed.

(** [self] holds the plain revocable capability [c]; [kids] follow it and are
    quiet children, the slot after them, if any, is not a child. *)
Record revocable h self c l1 kids rest : Prop := {
  rv_ok : slots_ok h;
  rv_mdb : mdb h (l1 ++ self :: kids ++ rest);
  rv_self : exists x, h !! self = Some x /\ cte_cap x = c /\ mdb_get mdbRevocable x <> 0;
  rv_cap : cap_ok c = true /\ plain_parent c = true;
  rv_kids : forall a y, a ∈ kids -> h !! a = Some y -> quiet_child c (cte_cap y) = true;
  rv_rest : forall b z, hd_error rest = Some b -> h !! b = Some z ->
    cap_ok (cte_cap z) = true /\ same_region_as c (cte_cap z) = Ok false;
  rv_window : Forall window (kids ++ rest) }.

Lemma revocable_next h self c l1 kids rest x :
  revocable h self c l1 kids rest -> h !! self = Some x ->
  get_volatile_value x = head_or 0 (kids ++ rest).
Proof.
  intros R Hx. pose proof (dlist_links _ _ _ _ _ _ (rv_mdb _ _ _ _ _ _ R) Hx) as [_ Hn]. cbn in Hn.
  rewrite get_volatile_value_spec, Hn; [done|]. rewrite Hn.
  destruct (head_or_elem 0 (kids ++ rest)) as [->|Hin]; [by left|].
  pose proof (rv_window _ _ _ _ _ _ R) as Hw. rewrite Forall_forall in Hw. by apply Hw.
Qed.

Lemma caps_frame_inv h h' l a y' :
  caps_frame h h' l -> a ∉ l -> h' !! a = Some y' -> exists y, h !! a = Some y /\ cte_cap y' = cte_cap y.
Proof.
  intros Hc Ha Hy. specialize (Hc a Ha). rewrite Hy in Hc. cbn in Hc.
  destruct (h !! a) as [y|]; [|done]. injection Hc as Hc. eauto.
Qed.

(** Deleting the first child leads to the same situation with one child less. *)
Lemma revocable_step h self c l1 a kids rest x :
  revocable h self c l1 (a :: kids) rest -> h !! a = Some x ->
  let h' := unlink_heap h a x in
  revocable h' self c l1 kids rest /\ h' !! a = Some (Cte new_null_cap mdb_node_default) /\
  caps_frame h h' [a] /\ frame h h' (l1 ++ self :: a :: kids ++ rest).
Proof.
  intros [Hok Hl (y & Hy & Hc & Hr) Hcp Hk Hre Hw] Hx. cbv zeta. cbn [app] in Hl.
  assert (mdb h ((l1 ++ [self]) ++ a :: kids ++ rest)) as Hl' by by rewrite <- app_assoc.
  destruct (unlink_heap_spec _ _ _ _ _ Hok Hl' Hx) as (Hok' & Hm' & Hnull & _ & Hcf & Hf).
  rewrite <- app_assoc in Hm'. rewrite <- app_assoc in Hf.
  assert (a ∉ kids ++ rest) as Ha.
  { destruct Hl' as (_ & Hnd & _). by apply NoDup_split in Hnd as (_ & _ & _ & ? & _). }
  split; [|done]. split; [done|exact Hm'| |done| | |by inversion Hw].
  - destruct (unlink_heap_prev _ _ _ _ _ _ _ Hok Hl Hy Hx) as (y' & ? & ? & ?).
    exists y'. split; [done|]. split; congruence.
  - intros b z Hb Hz. destruct (caps_frame_inv _ _ _ b _ Hcf ltac:(set_solver) Hz) as (z0 & Hz0 & ->).
    apply (Hk b); [set_solver|done].
  - intros b z Hb Hz. destruct rest as [|b' rest]; [done|]. injection Hb as ->.
    destruct (caps_frame_inv _ _ _ b _ Hcf ltac:(set_solver) Hz) as (z0 & Hz0 & ->). by apply (Hre b).
Qed.

(** What the revocation leaves. *)
Definition revoked h h' self l1 kids rest : Prop :=
  slots_ok h' /\ mdb h' (l1 ++ self :: rest) /\
  (forall a, a ∈ kids -> h' !! a = Some (Cte new_null_cap mdb_node_default)) /\
  caps_frame h h' kids /\ frame h h' (l1 ++ self :: kids ++ rest).

Lemma wp_revoke kids : forall fuel s self c l1 rest,
  revocable (k_slots s) self c l1 kids rest -> (length kids < fuel)%nat ->
  wp (revoke fuel self) (fun st s' =>
    st = EXCEPTION_NONE /\ revoked (k_slots s) (k_slots s') self l1 kids rest) s.
Proof.
  induction kids as [|a kids IH]; intros [|fuel] s self c l1 rest R Hfuel; cbn in Hfuel; try lia;
    pose proof R as [Hok Hl (x & Hx & Hc & Hr) [Hcp Hpl] Hk Hre _];
    cbn [revoke]; apply wp_bind; (eapply wp_slot; [exact Hx|]);
    rewrite (revocable_next _ _ _ _ _ _ _ R Hx).
  - assert (revoked (k_slots s) (k_slots s) self l1 [] rest) as Hdone by by (split_and!; [..|set_solver| |]).
    destruct rest as [|b rest]; cbn [app head_or].
    { rewrite bool_decide_true by done. by apply wp_ret. }
    destruct (dlist_elem _ _ _ b Hl ltac:(set_solver)) as [z Hz].
    rewrite (bool_decide_false (b = 0)) by by eapply slots_not_null.
    apply wp_bind. eapply wp_slot; [exact Hz|]. destruct (Hre b z eq_refl Hz) as [_ Hsr].
    apply wp_bind. eapply wp_lift; [eapply is_mdb_parent_of_plain; [by rewrite Hc|done|by rewrite Hc]|].
    by apply wp_ret.
  - cbn [app head_or]. destruct (dlist_elem _ _ _ a Hl ltac:(set_solver)) as [y Hy].
    pose proof (Hk a y ltac:(set_solver) Hy) as Hq.
    rewrite (bool_decide_false (a = 0)) by by eapply slots_not_null.
    apply wp_bind. eapply wp_slot; [exact Hy|].
    apply wp_bind. eapply wp_lift.
    { eapply is_mdb_parent_of_plain; [by rewrite Hc|done|]. rewrite Hc.
      unfold quiet_child in Hq. rewrite !andb_true_iff, !bool_decide_eq_true in Hq. apply Hq. }
    cbn [negb]. apply wp_bind.
    eapply (wp_delete_all_quiet _ _ _ _ self); [exact Hok|exact Hl|exact Hx|exact Hy|by rewrite Hc..| |].
    { intros b z Hb Hz. destruct kids as [|b' kids]; cbn in Hb.
      - by apply (Hre b z).
      - injection Hb as ->. pose proof (Hk b z ltac:(set_solver) Hz) as Hqb. unfold quiet_child in Hqb.
        rewrite !andb_true_iff in Hqb. apply Hqb. }
    rewrite bool_decide_false by (intros Hn; by apply Hn). apply wp_bind.
    eapply wp_mono; [apply preemption_none|]. intros st s1 [-> Hs1].
    rewrite bool_decide_false by (intros Hn; by apply Hn).
    destruct (revocable_step _ _ _ _ _ _ _ _ R Hy) as (R' & Hnull & Hcf & Hf).
    change (k_slots s1 = unlink_heap (k_slots s) a y) in Hs1. rewrite <- Hs1 in R', Hnull, Hcf, Hf.
    eapply wp_mono; [apply (IH _ _ _ _ _ _ R'); lia|].
    intros st s' [-> (H1 & H2 & H3 & H4 & H5)]. split; [done|]. split_and!; [done..| | |].
    + intros b [->|Hb]%elem_of_cons; [|by apply H3]. rewrite H5; [done|].
      cbn [app] in Hl. change (self :: a :: kids ++ rest) with ([self] ++ a :: kids ++ rest) in Hl.
      rewrite app_assoc in Hl. destruct Hl as (_ & Hnd & _).
      apply NoDup_split in Hnd as (_ & _ & ? & ? & _). set_solver.
    + intros b Hb. rewrite H4, Hcf by set_solver. done.
    + intros b Hb. rewrite H5, Hf by set_solver. done.
Qed.
End revoke.

(** C2: revocation deletes exactly the children: revoking a capability whose
    children are copies of it or go away without an effect returns success,
    empties every child and takes it out of the mapping database, and leaves
    the capabilities and the order of all other slots alone. *)
Theorem revoke_deletes_children {D : CSpaceDeps} {L : CSpaceLaws D} (fuel : nat) (s : kst)
    (self : Z) (c l1 kids rest : list Z) :
  revocable (k_slots s) self c l1 kids rest -> (length kids < fuel)%nat ->
  wp (revoke fuel self) (fun st s' =>
    st = EXCEPTION_NONE /\ revoked (k_slots s) (k_slots s') self l1 kids rest) s.
Proof. intros R Hf. by eapply wp_revoke. Qed.

(** C36: a frame capability is never a parent: revoking it returns success and
    changes nothing, whatever was derived from it. *)
Theorem revoke_frame_noop {D : CSpaceDeps} (fuel : nat) (self : Z) (s : kst) (x : cte_t) :
  k_slots s !! self = Some x -> get_cap_type (cte_cap x) = Ok CapFrameCap ->
  (get_volatile_value x = 0 \/ is_Some (k_slots s !! get_volatile_value x)) ->
  revoke (S fuel) self s = Ok (EXCEPTION_NONE, s).
Proof.
  intros Hx Ht Hn. cbn [revoke].
  rewrite (st_bind_Ok _ _ s x s); [|unfold slot, on_slots; erewrite zoom_Ok; [|by apply load_Ok]; by destruct s].
  case_bool_decide as Hz; [done|]. destruct Hn as [?|[y Hy]]; [done|].
  rewrite (st_bind_Ok _ _ s y s); [|unfold slot, on_slots; erewrite zoom_Ok; [|by apply load_Ok]; by destruct s].
  rewrite (st_bind_Ok _ _ s false s); [done|]. unfold lift, is_mdb_parent_of.
  case_bool_decide; [done|]. unfold same_region_as. by rewrite Ht.
Qed.

(** ** Instances *)
Definition wA : Z := 0xffffff8000001000.
Definition wB : Z := 0xffffff8000001020.
Definition wC : Z := 0xffffff8000001040.
Definition wD : Z := 0xffffff8000001060.
Definition w_ut (free dev bits p : Z) : list Z := new_untyped_cap free dev bits p.
(** An untyped capability at [wA] with a nested untyped and an unmapped page
    table as children, and another untyped after them. *)
Definition w_tree : slots :=
  <[wA := Cte (w_ut 512 0 16 0xffffff8000010000) (mdb_node_new wB 1 1 0)]>
  (<[wB := Cte (w_ut 0 0 12 0xffffff8000010000) (mdb_node_new wC 1 1 wA)]>
  (<[wC := Cte (new_page_table_cap 0 0xffffff8000011000 0 0) (mdb_node_new wD 1 1 wB)]>
  (<[wD := Cte (w_ut 0 0 16 0xffffff8000020000) (mdb_node_new 0 1 1 wC)]> ∅))).
Definition w_kst : kst := set_k_slots w_tree kst_empty.

Lemma w_tree_ok : slots_ok w_tree.
Proof. apply slots_okb_ok. vm_compute. reflexivity. Qed.

Lemma delete_all_empties_witness :
  exists x, k_slots (after (delete_all 1 wB true) w_kst) !! wB = Some x /\
    get_cap_type (cte_cap x) = Ok CapNullCap.
Proof. apply (delete_all_empties 1 wB w_kst). vm_compute. reflexivity. Defined.

Lemma revoke_no_children_witness :
  let s' := after (revoke 4 wA) w_kst in
  exists x, k_slots s' !! wA = Some x /\
    (get_volatile_value x = 0 \/
     exists y, k_slots s' !! get_volatile_value x = Some y /\ is_mdb_parent_of x y = Ok false).
Proof. apply (revoke_no_children 4 wA w_kst). vm_compute. reflexivity. Defined.

Lemma w_revocable : revocable (k_slots w_kst) wA (w_ut 512 0 16 0xffffff8000010000) [] [wB; wC] [wD].
Proof.
  split.
  - exact w_tree_ok.
  - change (mdb w_tree [wA; wB; wC; wD]). unfold mdb. by_decide.
  - exists (default cte_default (w_tree !! wA)). by_decide.
  - by_decide.
  - intros a y Ha Hy. repeat (apply elem_of_cons in Ha as [->|Ha];
      [vm_compute in Hy; injection Hy as <-; vm_compute; reflexivity|]). by apply elem_of_nil in Ha.
  - intros b z [= <-] Hz. vm_compute in Hz. injection Hz as <-. by_decide.
  - repeat (apply Forall_cons; split; [right; by_decide|]). by apply Forall_nil.
Qed.

Lemma revoke_deletes_children_witness :
  wp (revoke 3 wA) (fun st s' =>
    st = EXCEPTION_NONE /\ revoked (k_slots w_kst) (k_slots s') wA [] [wB; wC] [wD]) w_kst.
Proof.
  apply (revoke_deletes_children 3 w_kst wA (w_ut 512 0 16 0xffffff8000010000) [] [wB; wC] [wD]);
    [exact w_revocable|cbn; lia].
Defined.

(** A frame capability with a copy. *)
Definition w_frames : kst := set_k_slots
  (<[wA := Cte (new_frame_cap 0 3 0 0 0 0xffffff8000010000) (mdb_node_new wB 1 1 0)]>
  (<[wB := Cte (new_frame_cap 0 3 0 0 0 0xffffff8000010000) (mdb_node_new 0 0 0 wA)]> ∅)) kst_empty.
Lemma revoke_frame_noop_witness : revoke 1 wA w_frames = Ok (EXCEPTION_NONE, w_frames).
Proof.
  eapply (revoke_frame_noop 0 wA w_frames); [vm_compute; reflexivity..|].
  right. eexists. vm_compute. reflexivity.
Defined.
