(* ===== verification/NtfnProps.v ===== *)
(** * Notifications: theorems

    A notification is idle, active with the badges signalled so far, or has a
    list of waiting threads: [ntfn_at s n a] relates the object's words, and
    the endpoint links of the waiting threads, to this abstract state.
    [send_signal] and [receive_signal] are its transitions.  The first part is
    what the scheduler's operations leave alone, as these theorems and those on
    endpoints need it: the endpoint links, the registers and the states of
    threads. *)

From stdpp Require Import base numbers gmap list.
From S2P Require Import Prelude Bitfield Common Cap DList CSpace Sched Bitmap SchedProps SchedInv EpQueue SchedWit State Vspace Threads Delete Ipc Finalise.
Local Open Scope Z_scope.
Local Open Scope krn_scope.

(** ** Scheduling leaves threads alone *)

(** Only the queues, the bitmap, the scheduler's action and the scheduler's
    part of threads may differ. *)
Definition switch_frame (s s' : sst) : Prop :=
  ksCurThread (gl s') = ksCurThread (gl s) /\
  forall a, tcb_strip <$> tcbs s' !! a = tcb_strip <$> tcbs s !! a.
Definition switches (s s' : sst) : Prop := sched_inv s' /\ switch_frame s s'.

Section switch.
Implicit Types (s : sst) (a b : Z) (t : tcb_t) (l : list Z).

Lemma switches_refl s : sched_inv s -> switches s s.
Proof. by split. Qed.
Lemma switches_trans s1 s2 s3 : switches s1 s2 -> switches s2 s3 -> switches s1 s3.
Proof.
  intros (_ & E1 & F1) (H & E2 & F2). split; [done|]. split; [congruence|]. intros a. by rewrite F2.
Qed.
Lemma switches_thread s s' a t :
  switches s s' -> tcbs s !! a = Some t -> exists t', tcbs s' !! a = Some t' /\ tcb_strip t' = tcb_strip t.
Proof.
  intros (_ & _ & Hf) Ht. specialize (Hf a). rewrite Ht in Hf. revert Hf.
  destruct (tcbs s' !! a) as [t'|]; intros Hf; [|discriminate Hf]. exists t'. split; [done|].
  by apply (inj Some) in Hf.
Qed.
Lemma frame_switches s s' : sched_inv s' -> sched_frame s s' -> switches s s'.
Proof. intros Hi Hf. split; [done|]. split; [by apply frame_gl|apply Hf]. Qed.

Lemma switches_action s v :
  sched_inv s ->
  (v = SchedulerAction_ResumeCurrentThread \/ v = SchedulerAction_ChooseNewThread \/
   is_Some (tcbs s !! v)) ->
  wp (set_ks_scheduler_action v) (fun _ => switches s) s.
Proof.
  intros Hi Hv. eapply wp_set_action; [done|done|]. intros s' Hi' E E'. split; [done|].
  split; [done|]. by rewrite E.
Qed.
Lemma switches_enqueue s a :
  sched_inv s -> is_Some (tcbs s !! a) -> wp (sched_enqueue a) (fun _ => switches s) s.
Proof. intros Hi Ha. eapply inv_enqueue; [done|done|]. intros. by apply frame_switches. Qed.

Lemma switches_reschedule s : sched_inv s -> wp rescheduleRequired (fun _ => switches s) s.
Proof.
  intros Hi. unfold rescheduleRequired, get_ks_scheduler_action, gl_get. do 2 wp_step.
  apply wp_bind. apply wp_when; intros Hb.
  - apply andb_true_iff in Hb as [H1 H2]. rewrite negb_true_iff, bool_decide_eq_false in H1, H2.
    destruct (si_act _ Hi) as [|[|Ha]]; [done|done|].
    apply wp_bind, wp_assert.
    { rewrite bool_decide_false; [done|]. intros E. rewrite E in Ha. destruct (si_rq _ Hi) as [Q Hok].
      rewrite (rq_null _ _ Hok) in Ha. by destruct Ha. }
    eapply wp_mono; [by apply switches_enqueue|]. intros [] s1 Hk.
    eapply wp_mono; [apply switches_action; [apply Hk|by right; left]|].
    intros [] s2 Hk2. by eapply switches_trans.
  - apply switches_action; [done|by right; left].
Qed.

Lemma switches_schedule_tcb s a :
  sched_inv s -> is_Some (tcbs s !! a) -> wp (schedule_tcb a) (fun _ => switches s) s.
Proof.
  intros Hi [t Ht]. unfold schedule_tcb, get_currenct_thread_unsafe, get_ks_scheduler_action, gl_get.
  wp_steps. destruct (_ && _)%bool; [|by apply switches_refl].
  apply wp_bind. eapply wp_tcb_get; [done|]. destruct (si_thr _ Hi _ _ Ht) as (_ & st & Est).
  apply wp_bind. eapply wp_lift; [unfold is_runnable; by rewrite Est|].
  apply wp_when; intros _; [by apply switches_reschedule|by apply switches_refl].
Qed.

Lemma switches_possible_switch_to s a :
  sched_inv s -> is_Some (tcbs s !! a) -> wp (possible_switch_to a) (fun _ => switches s) s.
Proof.
  intros Hi [t Ht]. unfold possible_switch_to, get_ks_scheduler_action, gl_get.
  wp_steps. eapply wp_tcb_get; [done|]. destruct (negb _); [by apply switches_enqueue; eauto|].
  wp_steps. destruct (negb _); [|by apply switches_action; eauto].
  apply wp_bind. eapply wp_mono; [by apply switches_reschedule|]. intros [] s1 Hk.
  destruct (switches_thread _ _ _ _ Hk Ht) as (t1 & Ht1 & _).
  eapply wp_mono; [apply switches_enqueue; [apply Hk|by eauto]|].
  intros [] s2 Hk2. by eapply switches_trans.
Qed.

(** A change of one thread that the invariant does not see. *)
Definition mild (f : tcb_t -> tcb_t) : Prop := forall t,
  tcbSchedNext (f t) = tcbSchedNext t /\ tcbSchedPrev (f t) = tcbSchedPrev t /\
  tcbPriority (f t) = tcbPriority t /\ domain (f t) = domain t /\
  length (tcbArch (f t)) = length (tcbArch t) /\ length (tcbState (f t)) = length (tcbState t) /\
  queued (f t) = queued t.
Lemma sched_inv_mod s a (f : tcb_t -> tcb_t) :
  sched_inv s -> is_Some (tcbs s !! a) -> mild f ->
  (forall t, tcbs s !! a = Some t -> exists st, get_state (f t) = Ok st) ->
  sched_inv (Sst (alter f a (tcbs s)) (gl s)).
Proof.
  intros Hi Ha Hf Hst.
  assert (wp (tcb_mod a f) (fun _ => keeps s) s) as Hw.
  { apply keeps_mod; [done|done|]. intros t Ht (H1 & H2 & H3) [H4 _].
    destruct (Hf t) as (E1 & E2 & E3 & E4 & E5 & E6 & E7). split_and!; try done.
    - unfold tcb_ok. rewrite E6, E4, E3. done.
    - split; [congruence|]. eauto. }
  unfold wp, tcb_mod, on_tcbs, store_with in Hw. destruct Ha as [t Ht]. rewrite Ht in Hw.
  rewrite (alter_insert_id _ _ _ _ Ht). apply Hw.
Qed.

Lemma mild_ts_set f v : wf_bf 3 f = true -> disjoint_bf tcb_queued f = true -> mild (ts_set f v).
Proof.
  intros Hf Hd t. unfold ts_set. cbn. rewrite bf_set_length. split_and!; try done.
  unfold queued, ts_get. cbn. by rewrite (bf_get_set_other 3 3) by done.
Qed.

Lemma mild_arch (g : list Z -> list Z) :
  (forall r, length (g r) = length r) -> mild (fun t => set_tcbArch (g (tcbArch t)) t).
Proof. intros Hg t. cbn. by split_and!. Qed.

Lemma wp_set_thread_state s a st (P : unit -> sst -> Prop) :
  sched_inv s -> is_Some (tcbs s !! a) ->
  (forall s', switches (Sst (alter (ts_set ts_type (ThreadState_to_usize st)) a (tcbs s)) (gl s)) s' ->
    P tt s') ->
  wp (set_thread_state a st) P s.
Proof.
  intros Hi Ha HP. unfold set_thread_state. apply wp_bind, wp_tcb_mod; [done|].
  assert (sched_inv (Sst (alter (ts_set ts_type (ThreadState_to_usize st)) a (tcbs s)) (gl s))) as Hi'.
  { apply sched_inv_mod; [done|done|by apply mild_ts_set|]. intros t Ht. exists st.
    apply state_written. destruct (si_rq _ Hi) as [Q Hok]. by apply (rq_tcb _ _ Hok a t). }
  eapply wp_mono; [apply switches_schedule_tcb; [done|cbn; by rewrite is_Some_alter]|].
  intros [] s' Hs'. by apply HP.
Qed.

(** Endpoint links of threads under these changes. *)
Definition same_ep (s s' : sst) : Prop := forall a, hview ep_links (tcbs s') a = hview ep_links (tcbs s) a.
Lemma strip_ep t t' : tcb_strip t' = tcb_strip t ->
  tcbEPNext t' = tcbEPNext t /\ tcbEPPrev t' = tcbEPPrev t.
Proof. intros E. split; [apply (f_equal tcbEPNext E)|apply (f_equal tcbEPPrev E)]. Qed.
Lemma switches_ep s s' : switches s s' -> same_ep s s'.
Proof.
  intros (_ & _ & Hf) a. specialize (Hf a). unfold hview. cbn.
  destruct (tcbs s' !! a) as [t'|], (tcbs s !! a) as [t|]; try done. apply (inj Some) in Hf.
  cbn. by destruct (strip_ep _ _ Hf) as [-> ->].
Qed.
Lemma alter_ep s a (f : tcb_t -> tcb_t) :
  (forall t, tcbEPNext (f t) = tcbEPNext t /\ tcbEPPrev (f t) = tcbEPPrev t) ->
  same_ep s (Sst (alter f a (tcbs s)) (gl s)).
Proof. intros Hf b. cbn. apply (hview_alter_keep ep_links). intros t. cbn. by destruct (Hf t). Qed.
Lemma same_ep_trans s1 s2 s3 : same_ep s1 s2 -> same_ep s2 s3 -> same_ep s1 s3.
Proof. intros H1 H2 a. by rewrite H2. Qed.
Lemma same_ep_queue s s' q l : same_ep s s' -> ep_queue (tcbs s) q l -> ep_queue (tcbs s') q l.
Proof. intros Hs [-> Hd]. split; [done|]. eapply dlist_ext; [|exact Hd]. intros b. symmetry. apply Hs. Qed.

(** The endpoint links are not the scheduler's. *)
Lemma strip_sched t t' : ep_strip t' = ep_strip t ->
  tcbSchedNext t' = tcbSchedNext t /\ tcbSchedPrev t' = tcbSchedPrev t /\ tcbState t' = tcbState t /\
  tcbPriority t' = tcbPriority t /\ domain t' = domain t /\ tcbArch t' = tcbArch t.
Proof. destruct t, t'. cbn. intros E. by simplify_eq. Qed.
Lemma ep_frame_thread s s' a t' : ep_frame s s' -> tcbs s' !! a = Some t' ->
  exists t, tcbs s !! a = Some t /\ ep_strip t' = ep_strip t.
Proof.
  intros [_ Hf] Ht. specialize (Hf a). rewrite Ht in Hf. revert Hf.
  destruct (tcbs s !! a) as [t|]; intros Hf; [|discriminate Hf]. exists t. split; [done|].
  by apply (inj Some) in Hf.
Qed.
Lemma ep_frame_is_Some s s' a : ep_frame s s' -> is_Some (tcbs s !! a) -> is_Some (tcbs s' !! a).
Proof.
  intros [_ Hf] [t Ht]. specialize (Hf a). rewrite Ht in Hf. revert Hf.
  destruct (tcbs s' !! a) as [t'|]; [by eauto|]. intros Hf. discriminate Hf.
Qed.
Lemma ep_frame_sym s s' : ep_frame s s' -> ep_frame s' s.
Proof. intros [E H]. split; [done|]. intros a. by rewrite H. Qed.
Lemma rq_ok_ep_frame s s' Q : ep_frame s s' -> rq_ok s Q -> rq_ok s' Q.
Proof.
  intros Hf Hok. pose proof Hf as [Eg Hh].
  assert (forall a, hview sched_links (tcbs s) a = hview sched_links (tcbs s') a) as Hv.
  { intros a. specialize (Hh a). unfold hview. cbn.
    destruct (tcbs s' !! a) as [t'|], (tcbs s !! a) as [t|]; try done. apply (inj Some) in Hh.
    cbn. by destruct (strip_sched _ _ Hh) as (-> & -> & _). }
  split; try rewrite Eg; try apply Hok.
  - intros p l Hl. eapply dlist_ext; [exact Hv|]. by apply (rq_list _ _ Hok p).
  - intros a t' p l Ha Hl. destruct (ep_frame_thread _ _ _ _ Hf Ha) as (t & Ht & E).
    apply strip_sched in E as (_ & _ & E1 & E2 & _). unfold queued, ts_get. rewrite E1, E2.
    by apply (rq_mem _ _ Hok a t).
  - destruct (tcbs s' !! 0) as [t'|] eqn:E; [|done].
    destruct (ep_frame_thread _ _ _ _ Hf E) as (t & Ht & _). by rewrite (rq_null _ _ Hok) in Ht.
  - intros a t' Ha. destruct (ep_frame_thread _ _ _ _ Hf Ha) as (t & Ht & E).
    apply strip_sched in E as (_ & _ & E1 & E2 & E3 & _). unfold tcb_ok. rewrite E1, E2, E3.
    by apply (rq_tcb _ _ Hok a).
Qed.
Lemma sched_inv_ep_frame s s' : ep_frame s s' -> sched_inv s -> sched_inv s'.
Proof.
  intros Hf [[Q Hok] H2 H3 H4 H5]. pose proof Hf as [Eg _]. split; rewrite ?Eg.
  - exists Q. by eapply rq_ok_ep_frame.
  - intros a t' Ha. destruct (ep_frame_thread _ _ _ _ Hf Ha) as (t & Ht & E).
    apply strip_sched in E as (_ & _ & E1 & _ & _ & E2). unfold thr_ok, get_state, ts_get.
    rewrite E1, E2. by apply (H2 a).
  - by eapply ep_frame_is_Some.
  - destruct H4 as [?|[?|?]]; [by left|by right; left|right; right; by eapply ep_frame_is_Some].
  - done.
Qed.
Lemma sched_inv_null s : sched_inv s -> tcbs s !! 0 = None.
Proof. intros Hi. destruct (si_rq _ Hi) as [Q Hok]. apply Hok. Qed.
End switch.

(** ** The words of a notification *)
Inductive ntfn_abs : Type := AIdle | AActive (badge : Z) | AWaiting (l : list Z).
Definition waiting_abs (l : list Z) : ntfn_abs := match l with [] => AIdle | _ => AWaiting l end.

(** An address the 48-bit queue fields hold. *)
Definition ptr48 (a : Z) : Prop := bf_norm nt_queue_head a = a.

Definition ntfn_words (s : sst) (w : list Z) (a : ntfn_abs) : Prop :=
  length w = 4%nat /\
  match a with
  | AIdle => nt_get_state w = Ok NtfnIdle /\ nt_get_queue w = queue_of []
  | AActive b => nt_get_state w = Ok NtfnActive /\ nt_get_queue w = queue_of [] /\
      bf_get nt_msg_identifier w = b
  | AWaiting l => nt_get_state w = Ok NtfnWaiting /\ l <> [] /\ Forall ptr48 l /\
      ep_queue (tcbs s) (nt_get_queue w) l
  end.
Definition ntfn_at (s : kst) (n : Z) (a : ntfn_abs) : Prop :=
  exists w, k_ntfns s !! n = Some w /\ ntfn_words (k_sst s) w a.

Section words.
Implicit Types (w : list Z) (l : list Z) (a : ntfn_abs) (s : sst).

Lemma nt_set_state_state st w : length w = 4%nat -> nt_get_state (nt_set_state st w) = Ok st.
Proof.
  intros Hl. unfold nt_get_state, nt_set_state. rewrite (bf_get_set_same 4) by done.
  rewrite bf_norm_small by (destruct st; done || (cbn; lia)). by destruct st.
Qed.
Lemma nt_set_state_queue st w : nt_get_queue (nt_set_state st w) = nt_get_queue w.
Proof. unfold nt_get_queue, nt_set_state. by rewrite !(bf_get_set_other 4 4) by done. Qed.
Lemma nt_set_queue_state q w : nt_get_state (nt_set_queue q w) = nt_get_state w.
Proof. unfold nt_get_state, nt_set_queue. by rewrite !(bf_get_set_other 4 4) by done. Qed.
Lemma nt_set_queue_queue q w :
  length w = 4%nat -> ptr48 (head q) -> ptr48 (tail q) -> nt_get_queue (nt_set_queue q w) = q.
Proof.
  intros Hl Hh Ht. unfold nt_get_queue, nt_set_queue.
  rewrite (bf_get_set_other 4 4), !(bf_get_set_same 4) by (done || by rewrite bf_set_length).
  change (bf_norm nt_queue_tail (tail q)) with (bf_norm nt_queue_head (tail q)).
  rewrite Hh, Ht. by destruct q.
Qed.
Lemma nt_set_state_length st w : length (nt_set_state st w) = length w.
Proof. apply bf_set_length. Qed.
Lemma nt_set_queue_length q w : length (nt_set_queue q w) = length w.
Proof. unfold nt_set_queue. by rewrite !bf_set_length. Qed.
Lemma nt_set_msg w b : length w = 4%nat -> is_word b ->
  bf_get nt_msg_identifier (bf_set nt_msg_identifier b w) = b.
Proof.
  intros Hl Hb. rewrite (bf_get_set_same 4) by done. apply bf_norm_small; [done|done|cbn; lia|exact Hb].
Qed.

Lemma ptr48_0 : ptr48 0.
Proof. done. Qed.
Lemma ptr48_ends l : Forall ptr48 l -> ptr48 (head (queue_of l)) /\ ptr48 (tail (queue_of l)).
Proof.
  rewrite Forall_forall. intros Hl. cbn.
  split; [destruct (head_or_elem 0 l) as [->|]|destruct (last_or_elem 0 l) as [->|]]; auto; apply ptr48_0.
Qed.

(** Signalling. *)
Lemma words_active s w b a :
  ntfn_words s w a -> (a = AIdle \/ exists c, a = AActive c) -> is_word b ->
  ntfn_words s (nt_active b w) (AActive b).
Proof.
  intros [Hl Ha] Hc Hb. unfold nt_active. split; [by rewrite bf_set_length, nt_set_state_length|].
  assert (nt_get_queue w = queue_of []) as Hq by by destruct Hc as [-> | [c ->]]; apply Ha.
  split_and!.
  - unfold nt_get_state. rewrite (bf_get_set_other 4 4) by done. by apply nt_set_state_state.
  - rewrite <- Hq, <- (nt_set_state_queue NtfnActive w). unfold nt_get_queue.
    by rewrite !(bf_get_set_other 4 4 _ nt_msg_identifier) by done.
  - apply nt_set_msg; [by rewrite nt_set_state_length|done].
Qed.
Lemma words_more s w c b :
  ntfn_words s w (AActive c) -> is_word b -> ntfn_words s (bf_set nt_msg_identifier b w) (AActive b).
Proof.
  intros (Hl & Hs & Hq & _) Hb. split; [by rewrite bf_set_length|]. split_and!.
  - unfold nt_get_state. by rewrite (bf_get_set_other 4 4) by done.
  - rewrite <- Hq. unfold nt_get_queue. by rewrite !(bf_get_set_other 4 4) by done.
  - by apply nt_set_msg.
Qed.
Lemma words_idle s s' w c : ntfn_words s w (AActive c) -> ntfn_words s' (nt_set_state NtfnIdle w) AIdle.
Proof.
  intros (Hl & Hs & Hq & _). split; [by rewrite nt_set_state_length|].
  split; [by apply nt_set_state_state|by rewrite nt_set_state_queue].
Qed.
Lemma words_state s w a : ntfn_words s w a ->
  nt_get_state w = Ok match a with AIdle => NtfnIdle | AActive _ => NtfnActive | AWaiting _ => NtfnWaiting end.
Proof. intros [_ H]. by destruct a; apply H. Qed.
End words.

(** ** Steps on the whole state *)
Section steps.
Implicit Types (s : kst) (n a : Z) (t : tcb_t) (w : list Z).

Lemma wp_ntfn_get s n w (Q : list Z -> kst -> Prop) :
  k_ntfns s !! n = Some w -> Q w s -> wp (ntfn_get n) Q s.
Proof. intros Hw HQ. apply wp_zoom. eapply wp_load; [exact Hw|]. by destruct s. Qed.
Lemma wp_ntfn_mod s n w f (Q : unit -> kst -> Prop) :
  k_ntfns s !! n = Some w -> Q tt (set_k_ntfns (<[n := f w]> (k_ntfns s)) s) -> wp (ntfn_mod n f) Q s.
Proof. intros Hw HQ. apply wp_zoom. eapply wp_store_with; [exact Hw|]. exact HQ. Qed.
Lemma wp_nt_state_of s n w st (Q : NtfnState -> kst -> Prop) :
  k_ntfns s !! n = Some w -> nt_get_state w = Ok st -> Q st s -> wp (nt_state_of n) Q s.
Proof.
  intros Hw Hs HQ. apply wp_bind. eapply wp_ntfn_get; [exact Hw|]. by eapply wp_lift.
Qed.
Lemma wp_thread s a t (Q : tcb_t -> kst -> Prop) :
  tcbs (k_sst s) !! a = Some t -> Q t s -> wp (thread a) Q s.
Proof. intros Ht HQ. apply wp_zoom. eapply wp_tcb_get; [exact Ht|]. by destruct s. Qed.
Lemma wp_thread_mod s a t f (Q : unit -> kst -> Prop) :
  tcbs (k_sst s) !! a = Some t ->
  Q tt (set_k_sst (Sst (alter f a (tcbs (k_sst s))) (gl (k_sst s))) s) -> wp (thread_mod a f) Q s.
Proof. intros Ht HQ. apply wp_zoom. apply wp_tcb_mod; [by eauto|]. exact HQ. Qed.

(** The badge register, of a thread with all its registers. *)
Definition put_badge (v : Z) (t : tcb_t) : tcb_t := set_tcbArch (<[0%nat := v]> (tcbArch t)) t.
Lemma wp_reg_set_badge s a t v (Q : unit -> kst -> Prop) :
  tcbs (k_sst s) !! a = Some t -> length (tcbArch t) = 37%nat ->
  Q tt (set_k_sst (Sst (alter (put_badge v) a (tcbs (k_sst s))) (gl (k_sst s))) s) ->
  wp (reg_set a RBadge v) Q s.
Proof.
  intros Ht Hl HQ. apply wp_bind. eapply wp_thread; [exact Ht|].
  apply wp_bind. eapply wp_lift; [unfold set_register; cbn; apply upd_Ok; lia|].
  eapply wp_thread_mod; [exact Ht|].
  erewrite alter_insert_id in HQ |- * by exact Ht. exact HQ.
Qed.
Lemma put_badge_get v t : length (tcbArch t) = 37%nat -> get_register (tcbArch (put_badge v t)) RBadge = Ok v.
Proof.
  intros Hl. unfold get_register. cbn. apply idx_Ok; [done|]. rewrite list_lookup_insert_eq; [done|lia].
Qed.
End steps.

(** ** Signals accumulate *)

(** A sequence of signals. *)
Fixpoint send_signals {D : CSpaceDeps} (n : Z) (bs : list Z) : ST kst unit :=
  match bs with [] => skip | b :: bs => send_signal n b ;; send_signals n bs end.

(** Nothing but the notification [n] changed. *)
Definition only_ntfn (n : Z) (s s' : kst) : Prop :=
  exists w, s' = set_k_ntfns (<[n := w]> (k_ntfns s)) s.

Section signals.
Context {D : CSpaceDeps}.
Implicit Types (s : kst) (n b c : Z) (bs : list Z).

Lemma only_ntfn_trans n s1 s2 s3 : only_ntfn n s1 s2 -> only_ntfn n s2 s3 -> only_ntfn n s1 s3.
Proof. intros [w ->] [w' ->]. exists w'. unfold set_k_ntfns. cbn. by rewrite insert_insert_eq. Qed.

(** No thread bound to the notification is waiting in a receive. *)
Definition no_receiver s n : Prop :=
  exists w, k_ntfns s !! n = Some w /\
    (bf_get nt_bound_tcb w = 0 \/
     exists t st, tcbs (k_sst s) !! bf_get nt_bound_tcb w = Some t /\ get_state t = Ok st /\
       st <> ThreadStateBlockedOnReceive).

Lemma wp_send_signal_idle s n b :
  ntfn_at s n AIdle -> no_receiver s n -> is_word b ->
  wp (send_signal n b) (fun _ s' => ntfn_at s' n (AActive b) /\ only_ntfn n s s') s.
Proof.
  intros (w & Hw & Ha) (w' & Hw' & Hb) Hword. rewrite Hw in Hw'. injection Hw' as <-.
  assert (wp (ntfn_mod n (nt_active b))
    (fun _ s' => ntfn_at s' n (AActive b) /\ only_ntfn n s s') s) as Hmod.
  { eapply wp_ntfn_mod; [exact Hw|]. split; [|by eexists]. exists (nt_active b w).
    split; [cbn; by rewrite lookup_insert_eq|]. eapply words_active; eauto. }
  unfold send_signal. apply wp_bind. eapply wp_nt_state_of; [exact Hw|by apply (words_state _ _ _ Ha)|].
  apply wp_bind. eapply wp_ntfn_get; [exact Hw|].
  destruct Hb as [Hb|(t & st & Ht & Hst & Hn)].
  - rewrite Hb. cbn. exact Hmod.
  - case_bool_decide as E; cbn [negb]; [exact Hmod|].
    apply wp_bind. eapply wp_thread; [exact Ht|]. apply wp_bind. eapply wp_lift; [exact Hst|].
    by rewrite bool_decide_false.
Qed.

Lemma wp_send_signal_active s n c b :
  ntfn_at s n (AActive c) -> is_word c -> is_word b ->
  wp (send_signal n b) (fun _ s' => ntfn_at s' n (AActive (c ||| b)) /\ only_ntfn n s s') s.
Proof.
  intros (w & Hw & Ha) Hc Hb. unfold send_signal.
  apply wp_bind. eapply wp_nt_state_of; [exact Hw|by apply (words_state _ _ _ Ha)|].
  apply wp_bind. eapply wp_ntfn_get; [exact Hw|]. eapply wp_ntfn_mod; [exact Hw|].
  split; [|by eexists]. eexists. split; [cbn; by rewrite lookup_insert_eq|].
  pose proof Ha as (_ & _ & _ & Hm). rewrite Hm. eapply words_more; [exact Ha|by apply is_word_lor].
Qed.

Lemma wp_send_signals_active bs : forall s n c,
  ntfn_at s n (AActive c) -> is_word c -> Forall is_word bs ->
  wp (send_signals n bs) (fun _ s' => ntfn_at s' n (AActive (foldl Z.lor c bs)) /\ only_ntfn n s s') s.
Proof.
  induction bs as [|b bs IH]; intros s n c Ha Hc Hbs; cbn [send_signals foldl].
  - apply wp_ret. split; [done|]. destruct Ha as (w & Hw & _). exists w.
    rewrite insert_id by done. by destruct s.
  - inversion_clear Hbs as [|? ? Hb Hbs']. apply wp_bind.
    eapply wp_mono; [by apply (wp_send_signal_active s n c b)|]. intros [] s1 [Ha1 Ho].
    eapply wp_mono; [apply (IH s1 n (c ||| b)); [done|by apply is_word_lor|done]|].
    intros [] s2 [Ha2 Ho2]. split; [done|]. by eapply only_ntfn_trans.
Qed.

Lemma wp_receive_signal_active s n c a t blocking :
  ntfn_at s n (AActive c) -> tcbs (k_sst s) !! a = Some t -> length (tcbArch t) = 37%nat ->
  wp (receive_signal n a blocking) (fun _ s' =>
    ntfn_at s' n AIdle /\ tcbs (k_sst s') = alter (put_badge c) a (tcbs (k_sst s))) s.
Proof.
  intros (w & Hw & Ha) Ht Hl. unfold receive_signal.
  apply wp_bind. eapply wp_nt_state_of; [exact Hw|by apply (words_state _ _ _ Ha)|].
  apply wp_bind. eapply wp_ntfn_get; [exact Hw|].
  apply wp_bind. eapply wp_reg_set_badge; [exact Ht|done|].
  pose proof Ha as (_ & _ & _ & ->).
  eapply wp_ntfn_mod; [exact Hw|]. split; [|done]. eexists. split; [cbn; by rewrite lookup_insert_eq|].
  by eapply words_idle.
Qed.
End signals.

(** C19: signals accumulate: badges signalled to an idle notification nobody
    waits on are or-ed together, and the next receive, blocking or not,
    delivers exactly their disjunction, without waiting, and leaves the
    notification idle. *)
Theorem signals_accumulate {D : CSpaceDeps} (s : kst) (n a : Z) (t : tcb_t) (b : Z) (bs : list Z)
    (blocking : bool) :
  ntfn_at s n AIdle -> no_receiver s n -> Forall is_word (b :: bs) ->
  tcbs (k_sst s) !! a = Some t -> length (tcbArch t) = 37%nat ->
  wp (send_signals n (b :: bs) ;; receive_signal n a blocking) (fun _ s' =>
    ntfn_at s' n AIdle /\
    exists t', tcbs (k_sst s') !! a = Some t' /\
      get_register (tcbArch t') RBadge = Ok (foldl Z.lor b bs) /\ tcbState t' = tcbState t) s.
Proof.
  intros Ha Hr Hbs Ht Hl. inversion_clear Hbs as [|? ? Hb Hbs']. cbn [send_signals].
  apply wp_bind, wp_bind. eapply wp_mono; [by apply wp_send_signal_idle|]. intros [] s1 [Ha1 Ho1].
  eapply wp_mono; [by apply wp_send_signals_active|]. intros [] s2 [Ha2 Ho2].
  destruct (only_ntfn_trans _ _ _ _ Ho1 Ho2) as [w E].
  assert (tcbs (k_sst s2) !! a = Some t) as Ht2 by by rewrite E.
  eapply wp_mono; [by eapply wp_receive_signal_active|]. intros [] s3 [Ha3 E3]. split; [done|].
  eexists. rewrite E3, lookup_alter_eq, Ht2. split; [done|]. split; [by apply put_badge_get|done].
Qed.

(** ** Waiting and waking *)
Section waiting.
Context {D : CSpaceDeps}.
Implicit Types (s : kst) (n a d b : Z) (t : tcb_t) (l w : list Z).

Lemma words_queue (s : sst) w l :
  ntfn_words s w (waiting_abs l) -> ep_queue (tcbs s) (nt_get_queue w) l /\ Forall ptr48 l.
Proof.
  destruct l as [|x l]; intros (Hl & H).
  - destruct H as [_ Hq]. split; [|done]. split; [done|apply dlist_nil].
  - destruct H as (_ & _ & Hp & Hq). done.
Qed.
Lemma words_waiting (s : sst) w q l :
  length w = 4%nat -> l <> [] -> Forall ptr48 l -> ep_queue (tcbs s) q l ->
  ntfn_words s (nt_set_queue q (nt_set_state NtfnWaiting w)) (AWaiting l).
Proof.
  intros Hl Hn Hp Hq. split; [by rewrite nt_set_queue_length, nt_set_state_length|].
  pose proof Hq as [-> _]. destruct (ptr48_ends l Hp).
  split_and!; [|done|done|].
  - rewrite nt_set_queue_state. by apply nt_set_state_state.
  - by rewrite nt_set_queue_queue by (done || by rewrite nt_set_state_length).
Qed.
(** After a wake-up: the rest of the queue, idle when there is none. *)
Lemma words_woken (s : sst) w l :
  length w = 4%nat -> nt_get_state w = Ok NtfnWaiting -> Forall ptr48 l ->
  ep_queue (tcbs s) (queue_of l) l ->
  ntfn_words s (if decide (l = []) then nt_set_state NtfnIdle (nt_set_queue (queue_of l) w)
                else nt_set_queue (queue_of l) w) (waiting_abs l).
Proof.
  intros Hl Hs Hp Hq. destruct (ptr48_ends l Hp).
  case_decide as E.
  - subst l. split; [by rewrite nt_set_state_length, nt_set_queue_length|].
    split; [apply nt_set_state_state; by rewrite nt_set_queue_length|].
    rewrite nt_set_state_queue. by apply nt_set_queue_queue.
  - destruct l as [|x l]; [done|]. split; [by rewrite nt_set_queue_length|].
    split_and!; [by rewrite nt_set_queue_state|done|done|]. by rewrite nt_set_queue_queue.
Qed.

Lemma get_state_ts_other f v t :
  wf_bf 3 f = true -> disjoint_bf ts_type f = true -> get_state (ts_set f v t) = get_state t.
Proof. intros Hf Hd. unfold get_state, ts_get, ts_set. cbn. by rewrite (bf_get_set_other 3 3) by done. Qed.
Lemma ts_get_strip f t :
  wf_bf 3 f = true -> disjoint_bf f tcb_queued = true -> ts_get f (tcb_strip t) = ts_get f t.
Proof. intros Hf Hd. unfold ts_get, tcb_strip, ts_set. cbn. by rewrite (bf_get_set_other 3 3) by done. Qed.

(** A thread's field after scheduling. *)
Lemma strip_ts_get f t t' :
  wf_bf 3 f = true -> disjoint_bf f tcb_queued = true ->
  tcb_strip t' = tcb_strip t -> ts_get f t' = ts_get f t.
Proof. intros Hf Hd E. by rewrite <- (ts_get_strip f t'), E, ts_get_strip. Qed.

(** Blocking a thread on an object, up to the queue. *)
Definition blocked_on (st : ThreadState) (n : Z) (t : tcb_t) : Prop :=
  get_state t = Ok st /\ ts_get blocking_object t = bf_norm blocking_object n.
Lemma wp_block s a t st n (Q : unit -> kst -> Prop) :
  sched_inv (k_sst s) -> tcbs (k_sst s) !! a = Some t ->
  (forall x t', sched_inv x -> same_ep (k_sst s) x -> tcbs x !! a = Some t' -> blocked_on st n t' ->
    tcbs x !! 0 = None -> Q tt (set_k_sst x s)) ->
  wp (set_ts a blocking_object n ;; set_state a st) Q s.
Proof.
  intros Hi Ht HQ. apply wp_bind. eapply wp_thread_mod; [exact Ht|].
  destruct (si_rq _ Hi) as [Qs Hok]. destruct (rq_tcb _ _ Hok _ _ Ht) as (Hlen & _).
  assert (sched_inv (Sst (alter (ts_set blocking_object n) a (tcbs (k_sst s))) (gl (k_sst s)))) as Hi1.
  { apply sched_inv_mod; [done|by eauto|by apply mild_ts_set|]. intros t0 Ht0.
    rewrite get_state_ts_other by done. by apply (si_thr _ Hi a). }
  apply wp_zoom. eapply wp_set_thread_state; [exact Hi1|cbn; rewrite is_Some_alter; by eauto|].
  intros x Hx. cbn [tcbs gl k_sst set_k_sst] in Hx.
  assert (alter (ts_set ts_type (ThreadState_to_usize st)) a
    (alter (ts_set blocking_object n) a (tcbs (k_sst s))) !! a
    = Some (ts_set ts_type (ThreadState_to_usize st) (ts_set blocking_object n t))) as Ha.
  { by rewrite !lookup_alter_eq, Ht. }
  destruct (switches_thread _ _ _ _ Hx Ha) as (t' & Ht' & E).
  refine (HQ x t' _ _ Ht' _ _); [apply Hx| |split|by apply sched_inv_null, Hx].
  - eapply same_ep_trans; [|by apply switches_ep].
    intros b. cbn [tcbs]. by rewrite !(hview_alter_keep ep_links) by done.
  - rewrite (strip_state _ _ E). apply state_written. unfold ts_set. cbn. by rewrite bf_set_length.
  - rewrite (strip_ts_get blocking_object _ _ eq_refl eq_refl E). unfold ts_get, ts_set. cbn.
    rewrite (bf_get_set_other 3 3), (bf_get_set_same 3) by done. done.
Qed.

Lemma wp_receive_signal_waits s n a t l :
  sched_inv (k_sst s) -> ntfn_at s n (waiting_abs l) -> tcbs (k_sst s) !! a = Some t ->
  a ∉ l -> ptr48 a ->
  wp (receive_signal n a true) (fun _ s' =>
    sched_inv (k_sst s') /\ ntfn_at s' n (AWaiting (l ++ [a])) /\
    exists t', tcbs (k_sst s') !! a = Some t' /\ blocked_on ThreadStateBlockedOnNotification n t') s.
Proof.
  intros Hi (w & Hw & Ha) Ht Hn Hp. unfold receive_signal.
  apply wp_bind. eapply wp_nt_state_of; [exact Hw|by apply (words_state _ _ _ Ha)|].
  pose proof Ha as [Hlen _]. destruct (words_queue _ _ _ Ha) as [Hq Hpl].
  assert (wp (set_ts a blocking_object n ;; set_state a ThreadStateBlockedOnNotification ;;
    w ← ntfn_get n; queue ← on_sst (ep_append (nt_get_queue w) a);
    ntfn_mod n (nt_set_state NtfnWaiting) ;; ntfn_mod n (nt_set_queue queue)) (fun _ s' =>
    sched_inv (k_sst s') /\ ntfn_at s' n (AWaiting (l ++ [a])) /\
    exists t', tcbs (k_sst s') !! a = Some t' /\ blocked_on ThreadStateBlockedOnNotification n t') s) as Hwp.
  2: by destruct l.
  unfold wp. rewrite <- st_bind_assoc. apply wp_bind. eapply wp_block; [done|exact Ht|].
  intros x t' Hix Hep Ht' Hbl Hnull. apply wp_bind. eapply wp_ntfn_get; [exact Hw|].
  apply wp_bind, wp_zoom. eapply wp_ep_append; [done|by eapply same_ep_queue|done|by eauto|].
  intros q' x' Hq' Hf. change (ep_frame x x') in Hf. apply wp_bind. eapply wp_ntfn_mod; [exact Hw|].
  eapply wp_ntfn_mod; [cbn; by rewrite lookup_insert_eq|]. split_and!.
  - by eapply sched_inv_ep_frame.
  - eexists. split; [cbn; by rewrite lookup_insert_eq|]. apply words_waiting; [done|by destruct l| |done].
    apply Forall_app. by split; [|repeat constructor].
  - destruct (ep_frame_is_Some _ _ a Hf ltac:(by eauto)) as [t2 Ht2]. exists t2. split; [done|].
    destruct (ep_frame_thread _ _ _ _ Hf Ht2) as (t1 & Ht1 & E). rewrite Ht' in Ht1. injection Ht1 as <-.
    apply strip_sched in E as (_ & _ & E & _). destruct Hbl as [H1 H2]. unfold blocked_on, get_state, ts_get in *.
    by rewrite E.
Qed.

(** Waking a thread with a badge. *)
Lemma wp_wake s d t b (Q : unit -> kst -> Prop) :
  sched_inv (k_sst s) -> tcbs (k_sst s) !! d = Some t ->
  (forall x t', sched_inv x -> same_ep (k_sst s) x -> tcbs x !! d = Some t' ->
    get_state t' = Ok ThreadStateRunning -> get_register (tcbArch t') RBadge = Ok b ->
    Q tt (set_k_sst x s)) ->
  wp (set_state d ThreadStateRunning ;; reg_set d RBadge b ;; on_sst (possible_switch_to d)) Q s.
Proof.
  intros Hi Ht HQ. apply wp_bind, wp_zoom. eapply wp_set_thread_state; [done|by eauto|].
  intros x1 Hx1. destruct (si_rq _ Hi) as [Qs Hok]. destruct (rq_tcb _ _ Hok _ _ Ht) as (Hlen & _).
  edestruct switches_thread as (t1 & Ht1 & E1); [exact Hx1|cbn; by rewrite lookup_alter_eq, Ht|].
  pose proof (si_thr _ (proj1 Hx1) _ _ Ht1) as [Hl1 _].
  apply wp_bind. eapply wp_reg_set_badge; [exact Ht1|done|]. cbn [k_sst set_k_sst].
  assert (mild (put_badge b)) as Hm by (apply (mild_arch (fun r => <[0%nat := b]> r)); intros r; apply length_insert).
  assert (sched_inv (Sst (alter (put_badge b) d (tcbs x1)) (gl x1))) as Hi2.
  { apply sched_inv_mod; [apply Hx1|by eauto|done|]. intros t0 Ht0.
    by destruct (si_thr _ (proj1 Hx1) _ _ Ht0) as [_ ?]. }
  apply wp_zoom. eapply wp_mono.
  { apply switches_possible_switch_to; [done|cbn; rewrite is_Some_alter; by eauto]. }
  cbn [k_sst set_k_sst]. intros [] x2 Hx2.
  edestruct switches_thread as (t2 & Ht2 & E2); [exact Hx2|cbn; by rewrite lookup_alter_eq, Ht1|].
  refine (HQ x2 t2 _ _ Ht2 _ _); [apply Hx2| | |].
  - eapply same_ep_trans; [|by apply switches_ep]. eapply same_ep_trans; [|by apply alter_ep].
    eapply same_ep_trans; [|by apply switches_ep]. by apply alter_ep.
  - rewrite (strip_state _ _ E2). change (get_state t1 = Ok ThreadStateRunning).
    rewrite (strip_state _ _ E1). exact (state_written t ThreadStateRunning Hlen).
  - destruct (strip_prio _ _ E2) as (_ & _ & _ & ->). by apply put_badge_get.
Qed.

Lemma wp_send_signal_wakes s n d l t b :
  sched_inv (k_sst s) -> ntfn_at s n (AWaiting (d :: l)) -> tcbs (k_sst s) !! d = Some t ->
  wp (send_signal n b) (fun _ s' =>
    sched_inv (k_sst s') /\ ntfn_at s' n (waiting_abs l) /\
    exists t', tcbs (k_sst s') !! d = Some t' /\ get_state t' = Ok ThreadStateRunning /\
      get_register (tcbArch t') RBadge = Ok b) s.
Proof.
  intros Hi (w & Hw & Ha) Ht. unfold send_signal.
  apply wp_bind. eapply wp_nt_state_of; [exact Hw|by apply (words_state _ _ _ Ha)|].
  apply wp_bind. eapply wp_ntfn_get; [exact Hw|].
  pose proof Ha as (Hlen & Hst & _ & Hp & Hq). pose proof Hq as [Eq _]. rewrite Eq.
  change (head (queue_of (d :: l))) with d.
  assert (d <> 0) as Hd0 by (intros ->; rewrite (sched_inv_null _ Hi) in Ht; done).
  rewrite (bool_decide_false (d = 0)) by done. cbn [negb].
  apply wp_bind, wp_zoom. eapply (wp_ep_dequeue _ _ [] d l); [by apply sched_inv_null|by rewrite <- Eq|].
  cbn [app]. intros q' x Hq' Hf. pose proof Hq' as [-> _]. change (ep_frame (k_sst s) x) in Hf.
  pose proof (sched_inv_ep_frame _ _ Hf Hi) as Hix.
  destruct (ep_frame_is_Some _ _ d Hf ltac:(by eauto)) as [t1 Ht1].
  apply wp_bind. eapply wp_ntfn_mod; [exact Hw|].
  set (w1 := nt_set_queue (queue_of l) w).
  assert (queue_empty (queue_of l) = bool_decide (l = [])) as He
    by by eapply queue_of_null, (proj2 Hq').
  apply wp_bind, (wp_mono _ (fun _ s1 => s1 = set_k_ntfns
    (<[n := if decide (l = []) then nt_set_state NtfnIdle w1 else w1]> (k_ntfns s)) (set_k_sst x s))).
  { rewrite He. apply wp_when; intros El.
    - apply bool_decide_eq_true in El. eapply wp_ntfn_mod; [cbn; by rewrite lookup_insert_eq|].
      rewrite decide_True by done. unfold set_k_ntfns. cbn. by rewrite insert_insert_eq.
    - apply bool_decide_eq_false in El. by rewrite decide_False by done. }
  intros [] s1 ->. eapply wp_wake; [exact Hix|exact Ht1|].
  intros y t' Hiy Hey Ht' Hrun Hreg. split; [done|]. split; [|by eauto].
  eexists. split; [cbn; by rewrite lookup_insert_eq|].
  inversion_clear Hp as [|? ? Hpd Hpl].
  apply words_woken; [done|done|done|]. cbn. by eapply same_ep_queue.
Qed.
End waiting.

(** A blocking receive on a notification without a signal waits: the
    thread joins the end of the notification's list of waiting threads and is
    blocked on the notification; the scheduler's invariant is kept. *)
Theorem receive_signal_waits {D : CSpaceDeps} (s : kst) (n a : Z) (t : tcb_t) (l : list Z) :
  sched_inv (k_sst s) -> ntfn_at s n (waiting_abs l) -> tcbs (k_sst s) !! a = Some t ->
  a ∉ l -> ptr48 a ->
  wp (receive_signal n a true) (fun _ s' =>
    sched_inv (k_sst s') /\ ntfn_at s' n (AWaiting (l ++ [a])) /\
    exists t', tcbs (k_sst s') !! a = Some t' /\ blocked_on ThreadStateBlockedOnNotification n t') s.
Proof. intros. by eapply wp_receive_signal_waits. Qed.

(** A signal to a notification with waiting threads wakes the first of
    them: it runs again with the signal's badge in its badge register, the
    others keep their order, and the notification is idle when none is left. *)
Theorem send_signal_wakes {D : CSpaceDeps} (s : kst) (n d : Z) (l : list Z) (t : tcb_t) (b : Z) :
  sched_inv (k_sst s) -> ntfn_at s n (AWaiting (d :: l)) -> tcbs (k_sst s) !! d = Some t ->
  wp (send_signal n b) (fun _ s' =>
    sched_inv (k_sst s') /\ ntfn_at s' n (waiting_abs l) /\
    exists t', tcbs (k_sst s') !! d = Some t' /\ get_state t' = Ok ThreadStateRunning /\
      get_register (tcbArch t') RBadge = Ok b) s.
Proof. intros. by eapply wp_send_signal_wakes. Qed.

(** ** Instances *)
Definition nA : Z := 0xffffff8000030000.
Definition w_nstate : kst := set_k_ntfns {[nA := [0; 0; 0; 0]]} (set_k_sst w_sst kst_empty).

Lemma w_ntfn_idle : ntfn_at w_nstate nA AIdle.
Proof. exists [0; 0; 0; 0]. split; [by_decide|]. split; [done|]. split; vm_compute; reflexivity. Qed.

Lemma signals_accumulate_witness :
  wp (send_signals nA [1; 4] ;; receive_signal nA tA true) (fun _ s' =>
    ntfn_at s' nA AIdle /\
    exists t', tcbs (k_sst s') !! tA = Some t' /\
      get_register (tcbArch t') RBadge = Ok (foldl Z.lor 1 [4]) /\ tcbState t' = tcbState (w_tcb 200))
    w_nstate.
Proof.
  apply (signals_accumulate w_nstate nA tA (w_tcb 200) 1 [4] true).
  - exact w_ntfn_idle.
  - exists [0; 0; 0; 0]. split; [by_decide|]. left. vm_compute. reflexivity.
  - repeat (apply Forall_cons; split; [by_decide|]). by apply Forall_nil.
  - vm_compute. reflexivity.
  - vm_compute. reflexivity.
Defined.

Lemma receive_signal_waits_witness :
  wp (receive_signal nA tB true) (fun _ s' =>
    sched_inv (k_sst s') /\ ntfn_at s' nA (AWaiting ([] ++ [tB])) /\
    exists t', tcbs (k_sst s') !! tB = Some t' /\ blocked_on ThreadStateBlockedOnNotification nA t')
    w_nstate.
Proof.
  apply (receive_signal_waits w_nstate nA tB (w_tcb 7) []);
    [exact w_sched_inv|exact w_ntfn_idle|vm_compute; reflexivity|by apply not_elem_of_nil|
     vm_compute; reflexivity].
Defined.

Definition w_nstate1 : kst := after (receive_signal nA tB true) w_nstate.
Lemma w_waiting : sched_inv (k_sst w_nstate1) /\ ntfn_at w_nstate1 nA (AWaiting [tB]).
Proof.
  assert (receive_signal nA tB true w_nstate = Ok (tt, w_nstate1)) as E by (vm_compute; reflexivity).
  eapply wp_Ok in E; [|apply (wp_receive_signal_waits w_nstate nA tB (w_tcb 7) []);
    [exact w_sched_inv|exact w_ntfn_idle|vm_compute; reflexivity|by apply not_elem_of_nil|
     vm_compute; reflexivity]].
  split; apply E.
Qed.
Lemma send_signal_wakes_witness :
  wp (send_signal nA 5) (fun _ s' =>
    sched_inv (k_sst s') /\ ntfn_at s' nA (waiting_abs []) /\
    exists t', tcbs (k_sst s') !! tB = Some t' /\ get_state t' = Ok ThreadStateRunning /\
      get_register (tcbArch t') RBadge = Ok 5) w_nstate1.
Proof.
  eapply (send_signal_wakes w_nstate1 nA tB [] _ 5); [apply w_waiting|apply w_waiting|].
  vm_compute. reflexivity.
Defined.
