(* ===== verification/EpProps.v ===== *)
(** * Endpoints: theorems

    An endpoint is idle, has a list of threads waiting to send, or a list of
    threads waiting to receive: [ep_at s ep a].  Blocking operations extend the
    list, cancelling takes a thread out of it or restarts all of them. *)

From stdpp Require Import base numbers gmap list.
From S2P Require Import Prelude Bitfield Common Cap DList CSpace Sched Bitmap SchedProps SchedInv EpQueue SchedWit State Vspace Threads Delete Ipc Finalise NtfnProps.
Local Open Scope Z_scope.
Local Open Scope krn_scope.

(** ** The words of an endpoint *)
Inductive ep_abs : Type := EIdle | ESend (l : list Z) | ERecv (l : list Z).
#[global] Instance ep_abs_eq_dec : EqDecision ep_abs.
Proof. solve_decision. Defined.
Definition send_abs (l : list Z) : ep_abs := match l with [] => EIdle | _ => ESend l end.
Definition recv_abs (l : list Z) : ep_abs := match l with [] => EIdle | _ => ERecv l end.
Definition ep_list (a : ep_abs) : list Z := match a with EIdle => [] | ESend l | ERecv l => l end.
Definition ep_tag (a : ep_abs) : EPState :=
  match a with EIdle => EPIdle | ESend _ => EPSend | ERecv _ => EPRecv end.

(** An address both queue fields hold: the tail keeps 48 bits and drops the
    lowest two. *)
Definition ptr46 (a : Z) : Prop := is_word a /\ bf_norm ep_queue_tail a = a.

Definition ep_words (s : sst) (w : list Z) (a : ep_abs) : Prop :=
  length w = 2%nat /\ ep_get_state w = Ok (ep_tag a) /\ Forall ptr46 (ep_list a) /\
  (a = EIdle \/ ep_list a <> []) /\ ep_queue (tcbs s) (ep_get_queue w) (ep_list a).
Definition ep_at (s : kst) (ep : Z) (a : ep_abs) : Prop :=
  exists w, k_eps s !! ep = Some w /\ ep_words (k_sst s) w a.

Section words.
Implicit Types (w l : list Z) (a : ep_abs) (s : sst).

Lemma ep_set_state_state st w : length w = 2%nat -> ep_get_state (ep_set_state st w) = Ok st.
Proof.
  intros Hl. unfold ep_get_state, ep_set_state. rewrite (bf_get_set_same 2) by done.
  rewrite bf_norm_small by (destruct st; done || (cbn; lia)). by destruct st.
Qed.
Lemma ep_set_state_queue st w : ep_get_queue (ep_set_state st w) = ep_get_queue w.
Proof. unfold ep_get_queue, ep_set_state. by rewrite !(bf_get_set_other 2 2) by done. Qed.
Lemma ep_set_queue_state q w : ep_get_state (ep_set_queue q w) = ep_get_state w.
Proof. unfold ep_get_state, ep_set_queue. by rewrite !(bf_get_set_other 2 2) by done. Qed.
Lemma ptr46_head (p : Z) : ptr46 p -> bf_norm ep_queue_head p = p.
Proof. intros [H _]. apply bf_norm_small; [done|done|cbn; lia|exact H]. Qed.
Lemma ep_set_queue_queue q w :
  length w = 2%nat -> ptr46 (head q) -> ptr46 (tail q) -> ep_get_queue (ep_set_queue q w) = q.
Proof.
  intros Hl Hh [_ Ht]. unfold ep_get_queue, ep_set_queue.
  rewrite (bf_get_set_other 2 2), !(bf_get_set_same 2) by (done || by rewrite bf_set_length).
  rewrite ptr46_head, Ht by done. by destruct q.
Qed.
Lemma ep_set_queue_length q w : length (ep_set_queue q w) = length w.
Proof. unfold ep_set_queue. by rewrite !bf_set_length. Qed.
Lemma ep_set_state_length st w : length (ep_set_state st w) = length w.
Proof. apply bf_set_length. Qed.
Lemma ptr46_ends l : Forall ptr46 l -> ptr46 (head (queue_of l)) /\ ptr46 (tail (queue_of l)).
Proof.
  assert (ptr46 0) as H0 by (split; [by_decide|done]).
  rewrite Forall_forall. intros Hl. cbn.
  split; [destruct (head_or_elem 0 l) as [->|]|destruct (last_or_elem 0 l) as [->|]]; auto.
Qed.

(** Writing a state and a queue. *)
Lemma words_set s w a q :
  length w = 2%nat -> Forall ptr46 (ep_list a) -> (a = EIdle \/ ep_list a <> []) ->
  ep_queue (tcbs s) q (ep_list a) -> ep_words s (ep_set_queue q (ep_set_state (ep_tag a) w)) a.
Proof.
  intros Hl Hp Hne Hq. pose proof Hq as [-> _]. destruct (ptr46_ends _ Hp).
  split; [by rewrite ep_set_queue_length, ep_set_state_length|]. split.
  { rewrite ep_set_queue_state. by apply ep_set_state_state. }
  split; [done|]. split; [done|].
  by rewrite ep_set_queue_queue by (done || by rewrite ep_set_state_length).
Qed.
Lemma words_ext s s' w a : same_ep s s' -> ep_words s w a -> ep_words s' w a.
Proof.
  intros He (H1 & H2 & H3 & H4 & H5). split_and!; try done. by eapply same_ep_queue.
Qed.
End words.

(** ** Steps on the whole state *)
Section steps.
Implicit Types (s : kst) (ep : Z) (t : tcb_t) (w : list Z).

Lemma wp_ep_get s ep w (Q : list Z -> kst -> Prop) : k_eps s !! ep = Some w -> Q w s -> wp (ep_get ep) Q s.
Proof. intros Hw HQ. apply wp_zoom. eapply wp_load; [exact Hw|]. by destruct s. Qed.
Lemma wp_ep_mod s ep w f (Q : unit -> kst -> Prop) :
  k_eps s !! ep = Some w -> Q tt (set_k_eps (<[ep := f w]> (k_eps s)) s) -> wp (ep_mod ep f) Q s.
Proof. intros Hw HQ. apply wp_zoom. eapply wp_store_with; [exact Hw|]. exact HQ. Qed.
Lemma wp_ep_state_of s ep w st (Q : EPState -> kst -> Prop) :
  k_eps s !! ep = Some w -> ep_get_state w = Ok st -> Q st s -> wp (ep_state_of ep) Q s.
Proof. intros Hw Hs HQ. apply wp_bind. eapply wp_ep_get; [exact Hw|]. by eapply wp_lift. Qed.

(** Writing the fields of a blocked thread and giving up the processor. *)
Lemma wp_change_thread s a t f (Q : unit -> kst -> Prop) :
  sched_inv (k_sst s) -> tcbs (k_sst s) !! a = Some t -> mild f ->
  (forall t, tcbEPNext (f t) = tcbEPNext t /\ tcbEPPrev (f t) = tcbEPPrev t) ->
  (forall t, length (tcbState t) = 3%nat -> exists st, get_state (f t) = Ok st) ->
  (forall x t', sched_inv x -> same_ep (k_sst s) x -> tcbs x !! a = Some t' ->
    tcb_strip t' = tcb_strip (f t) -> Q tt (set_k_sst x s)) ->
  wp (on_sst (schedule_tcb a)) Q
    (set_k_sst (Sst (alter f a (tcbs (k_sst s))) (gl (k_sst s))) s).
Proof.
  intros Hi Ht Hm Hep Hst HQ. destruct (si_rq _ Hi) as [Qs Hok].
  assert (sched_inv (Sst (alter f a (tcbs (k_sst s))) (gl (k_sst s)))) as Hi1.
  { apply sched_inv_mod; [done|by eauto|done|]. intros t0 Ht0. apply Hst. by apply (rq_tcb _ _ Hok a). }
  apply wp_zoom. eapply wp_mono; [apply switches_schedule_tcb; [exact Hi1|cbn; rewrite is_Some_alter; by eauto]|].
  cbn [k_sst set_k_sst]. intros [] x Hx.
  edestruct switches_thread as (t' & Ht' & E); [exact Hx|cbn; by rewrite lookup_alter_eq, Ht|].
  refine (HQ x t' _ _ Ht' E); [apply Hx|].
  eapply same_ep_trans; [|by apply switches_ep]. by apply alter_ep.
Qed.
End steps.

(** ** Blocking *)
Section blocking.
Context {D : CSpaceDeps}.
Implicit Types (s : kst) (ep src : Z) (t : tcb_t) (l w : list Z).

(** The state a blocked sender is given. *)
Definition send_state (ep badge : Z) (can_grant can_grant_reply do_call : bool) (t : tcb_t) : tcb_t :=
  ts_set blocking_ipc_is_call (b2w do_call)
    (ts_set blocking_ipc_can_grant_reply (b2w can_grant_reply)
      (ts_set blocking_ipc_badge badge (ts_set blocking_ipc_can_grant (b2w can_grant)
        (ts_set blocking_object ep
          (ts_set ts_type (ThreadState_to_usize ThreadStateBlockedOnSend) t))))).

Lemma mild_comp f g : mild f -> mild g -> mild (fun t => f (g t)).
Proof.
  intros Hf Hg t. destruct (Hf (g t)) as (? & ? & ? & ? & ? & ? & ?), (Hg t) as (? & ? & ? & ? & ? & ? & ?).
  split_and!; congruence.
Qed.
Lemma mild_send_state ep badge cg cgr call : mild (send_state ep badge cg cgr call).
Proof. unfold send_state. repeat first [apply mild_ts_set; reflexivity | apply mild_comp]. Qed.

Lemma ts_get_same f v t :
  wf_bf 3 f = true -> length (tcbState t) = 3%nat -> ts_get f (ts_set f v t) = bf_norm f v.
Proof. intros Hf Hl. unfold ts_get, ts_set. cbn. by rewrite (bf_get_set_same 3). Qed.
Lemma ts_get_other f g v t :
  wf_bf 3 f = true -> wf_bf 3 g = true -> disjoint_bf f g = true -> ts_get f (ts_set g v t) = ts_get f t.
Proof. intros. unfold ts_get, ts_set. cbn. by rewrite (bf_get_set_other 3 3). Qed.
Lemma ts_set_length f v t : length (tcbState (ts_set f v t)) = length (tcbState t).
Proof. unfold ts_set. cbn. apply bf_set_length. Qed.

(** What the fields of a blocked sender read. *)
Definition sender_blocked (ep badge : Z) (can_grant can_grant_reply do_call : bool) (t : tcb_t) : Prop :=
  blocked_on ThreadStateBlockedOnSend ep t /\ ts_get blocking_ipc_badge t = badge /\
  ts_get blocking_ipc_can_grant t = b2w can_grant /\
  ts_get blocking_ipc_can_grant_reply t = b2w can_grant_reply /\
  ts_get blocking_ipc_is_call t = b2w do_call.

Lemma send_state_spec ep badge cg cgr call t :
  length (tcbState t) = 3%nat -> is_word badge ->
  sender_blocked ep badge cg cgr call (send_state ep badge cg cgr call t).
Proof.
  intros Hl Hb. unfold sender_blocked, blocked_on, send_state.
  assert (forall (b : bool) f, bf_bits f = 1 -> bf_sign f = false -> bf_shift f = 0 ->
    bf_norm f (b2w b) = b2w b) as Hn.
  { intros b f H1 H2 H3. apply bf_norm_small; [done|done|lia|]. rewrite H1. by destruct b; cbn. }
  split_and!.
  - rewrite !get_state_ts_other by reflexivity. by apply state_written.
  - rewrite !ts_get_other by reflexivity. by rewrite ts_get_same by (done || by rewrite !ts_set_length).
  - rewrite !ts_get_other by reflexivity. rewrite ts_get_same by (done || by rewrite !ts_set_length).
    by apply bf_norm_small.
  - rewrite !ts_get_other by reflexivity. rewrite ts_get_same by (done || by rewrite !ts_set_length).
    by apply Hn.
  - rewrite ts_get_other by reflexivity. rewrite ts_get_same by (done || by rewrite !ts_set_length).
    by apply Hn.
  - rewrite ts_get_same by (done || by rewrite !ts_set_length). by apply Hn.
Qed.
Lemma sender_strip ep badge cg cgr call t t' :
  tcb_strip t' = tcb_strip t -> sender_blocked ep badge cg cgr call t ->
  sender_blocked ep badge cg cgr call t'.
Proof.
  intros E ([H1 H2] & H3 & H4 & H5 & H6). unfold sender_blocked, blocked_on.
  pose proof (fun f H1 H2 => strip_ts_get f t t' H1 H2 E) as G.
  by rewrite (strip_state _ _ E), (G blocking_object), (G blocking_ipc_badge),
    (G blocking_ipc_can_grant), (G blocking_ipc_can_grant_reply), (G blocking_ipc_is_call) by done.
Qed.

(** Writing fields of one thread, one after the other. *)
Lemma alter_twice (f g : tcb_t -> tcb_t) a (m : gmap Z tcb_t) :
  alter f a (alter g a m) = alter (fun t => f (g t)) a m.
Proof.
  apply map_eq. intros b. destruct (decide (b = a)) as [->|Hb]; [|by rewrite !lookup_alter_ne].
  rewrite !lookup_alter_eq. by destruct (m !! a).
Qed.
Definition with_thread (a : Z) (f : tcb_t -> tcb_t) (s : kst) : kst :=
  set_k_sst (Sst (alter f a (tcbs (k_sst s))) (gl (k_sst s))) s.
Lemma wp_set_ts s a t fl v (Q : unit -> kst -> Prop) :
  tcbs (k_sst s) !! a = Some t -> Q tt (with_thread a (ts_set fl v) s) -> wp (set_ts a fl v) Q s.
Proof. intros Ht HQ. by eapply wp_thread_mod. Qed.
Lemma wp_set_ts_next s a t f fl v (Q : unit -> kst -> Prop) :
  tcbs (k_sst s) !! a = Some t -> Q tt (with_thread a (fun t => ts_set fl v (f t)) s) ->
  wp (set_ts a fl v) Q (with_thread a f s).
Proof.
  intros Ht HQ. eapply wp_thread_mod; [cbn; by rewrite lookup_alter_eq, Ht|]. cbn.
  unfold with_thread, set_k_sst in *. cbn. by rewrite alter_twice.
Qed.

(** Queueing a thread that was just blocked. *)
Lemma wp_queue_up s (x : sst) ep l w a t (tag : list Z -> ep_abs) (Q : unit -> kst -> Prop) :
  sched_inv x -> same_ep (k_sst s) x -> k_eps s !! ep = Some w -> length w = 2%nat ->
  ep_queue (tcbs (k_sst s)) (ep_get_queue w) l -> Forall ptr46 l ->
  tcbs x !! a = Some t -> a ∉ l -> ptr46 a -> ep_list (tag (l ++ [a])) = l ++ [a] ->
  (forall x' t', sched_inv x' -> tcbs x' !! a = Some t' -> tcbState t' = tcbState t ->
    ep_at (set_k_eps (<[ep := ep_set_queue (queue_of (l ++ [a])) (ep_set_state (ep_tag (tag (l ++ [a]))) w)]>
      (k_eps s)) (set_k_sst x' s)) ep (tag (l ++ [a])) ->
    Q tt (set_k_eps (<[ep := ep_set_queue (queue_of (l ++ [a])) (ep_set_state (ep_tag (tag (l ++ [a]))) w)]>
      (k_eps s)) (set_k_sst x' s))) ->
  wp (e ← ep_get ep; queue ← on_sst (ep_append (ep_get_queue e) a);
      ep_mod ep (ep_set_state (ep_tag (tag (l ++ [a])))) ;; ep_mod ep (ep_set_queue queue)) Q (set_k_sst x s).
Proof.
  intros Hi He Hw Hlen Hq Hpl Ht Hn Hp Htag HQ.
  apply wp_bind. eapply wp_ep_get; [exact Hw|]. apply wp_bind, wp_zoom.
  eapply wp_ep_append; [by apply sched_inv_null|by eapply same_ep_queue|done|by eauto|].
  intros q' x' Hq' Hf. change (ep_frame x x') in Hf. pose proof Hq' as [-> _].
  apply wp_bind. eapply wp_ep_mod; [exact Hw|].
  eapply wp_ep_mod; [cbn; by rewrite lookup_insert_eq|].
  cbn [k_eps set_k_eps set_k_sst]. rewrite insert_insert_eq.
  destruct (ep_frame_is_Some _ _ a Hf ltac:(by eauto)) as [t2 Ht2].
  refine (HQ x' t2 _ Ht2 _ _).
  - by eapply sched_inv_ep_frame.
  - destruct (ep_frame_thread _ _ _ _ Hf Ht2) as (t1 & Ht1 & E). rewrite Ht in Ht1. injection Ht1 as <-.
    by apply strip_sched in E as (_ & _ & E & _).
  - eexists. split; [cbn; by rewrite lookup_insert_eq|].
    apply words_set; [done| | |]; rewrite Htag; [|right; by destruct l|done].
    apply Forall_app_2; [done|by apply Forall_singleton].
Qed.
Lemma words_send (s : sst) w l :
  ep_words s w (send_abs l) -> ep_queue (tcbs s) (ep_get_queue w) l /\ Forall ptr46 l.
Proof. destruct l; intros (? & ? & ? & ? & ?); done. Qed.
Lemma words_recv (s : sst) w l :
  ep_words s w (recv_abs l) -> ep_queue (tcbs s) (ep_get_queue w) l /\ Forall ptr46 l.
Proof. destruct l; intros (? & ? & ? & ? & ?); done. Qed.

Lemma wp_send_blocks s ep a t l badge cg cgr call :
  sched_inv (k_sst s) -> ep_at s ep (send_abs l) -> tcbs (k_sst s) !! a = Some t ->
  a ∉ l -> ptr46 a -> is_word badge ->
  wp (send_ipc ep a true call cg badge cgr) (fun _ s' =>
    sched_inv (k_sst s') /\ ep_at s' ep (ESend (l ++ [a])) /\
    exists t', tcbs (k_sst s') !! a = Some t' /\ sender_blocked ep badge cg cgr call t') s.
Proof.
  intros Hi (w & Hw & Ha) Ht Hn Hp Hb. destruct (words_send _ _ _ Ha) as [Hq Hpl].
  pose proof Ha as (Hlen & Hst & _). unfold send_ipc.
  apply wp_bind. eapply wp_ep_state_of; [exact Hw|exact Hst|].
  destruct (si_rq _ Hi) as [Qs Hok]. pose proof (rq_tcb _ _ Hok _ _ Ht) as (Hlt & _).
  match goal with |- wp (match _ with EPIdle | EPSend => when true ?c | EPRecv => _ end) ?P _ =>
    assert (wp c P s) as Hwp end.
  2: by destruct l.
  apply wp_bind. eapply wp_set_ts; [exact Ht|].
  do 5 (apply wp_bind; eapply wp_set_ts_next; [exact Ht|]).
  apply wp_bind. change (wp (on_sst (schedule_tcb a)) (fun _ =>
    wp (e ← ep_get ep; queue ← on_sst (ep_append (ep_get_queue e) a);
      ep_mod ep (ep_set_state (ep_tag (ESend (l ++ [a])))) ;; ep_mod ep (ep_set_queue queue))
    (fun _ s' => sched_inv (k_sst s') /\ ep_at s' ep (ESend (l ++ [a])) /\
      exists t', tcbs (k_sst s') !! a = Some t' /\ sender_blocked ep badge cg cgr call t'))
    (with_thread a (send_state ep badge cg cgr call) s)).
  eapply wp_change_thread; [done|exact Ht|by apply mild_send_state|done| |].
  { intros t0 H0. exists ThreadStateBlockedOnSend. by apply (send_state_spec ep badge cg cgr call). }
  intros x t' Hix Hep Ht' E.
  eapply (wp_queue_up s x ep l w a t' ESend); try done.
  intros x' t2 Hix' Ht2 Est Hat. split; [done|]. split; [done|]. exists t2. split; [done|].
  assert (sender_blocked ep badge cg cgr call t') as Hbl.
  { eapply sender_strip; [exact E|]. by apply send_state_spec. }
  unfold sender_blocked, blocked_on, get_state, ts_get in *. by rewrite Est.
Qed.

(** Receiving. *)
Definition recv_state (ep : Z) (can_grant : bool) (t : tcb_t) : tcb_t :=
  ts_set ts_type (ThreadState_to_usize ThreadStateBlockedOnReceive)
    (ts_set blocking_ipc_can_grant (b2w can_grant) (ts_set blocking_object ep t)).
Definition receiver_blocked (ep : Z) (can_grant : bool) (t : tcb_t) : Prop :=
  blocked_on ThreadStateBlockedOnReceive ep t /\ ts_get blocking_ipc_can_grant t = b2w can_grant.
Lemma mild_recv_state ep cg : mild (recv_state ep cg).
Proof. unfold recv_state. repeat first [apply mild_ts_set; reflexivity | apply mild_comp]. Qed.
Lemma recv_state_spec ep cg t :
  length (tcbState t) = 3%nat -> receiver_blocked ep cg (recv_state ep cg t).
Proof.
  intros Hl. unfold receiver_blocked, blocked_on, recv_state. split_and!.
  - apply state_written. by rewrite !ts_set_length.
  - rewrite !ts_get_other by reflexivity. by rewrite ts_get_same.
  - rewrite ts_get_other by reflexivity. rewrite ts_get_same by (done || by rewrite !ts_set_length).
    by destruct cg.
Qed.
Lemma receiver_strip ep cg t t' :
  tcb_strip t' = tcb_strip t -> receiver_blocked ep cg t -> receiver_blocked ep cg t'.
Proof.
  intros E ([H1 H2] & H3). unfold receiver_blocked, blocked_on.
  pose proof (fun f H1 H2 => strip_ts_get f t t' H1 H2 E) as G.
  by rewrite (strip_state _ _ E), (G blocking_object), (G blocking_ipc_can_grant) by done.
Qed.
Lemma set_state_split s a st :
  set_state a st s = (set_ts a ts_type (ThreadState_to_usize st) ;; on_sst (schedule_tcb a)) s.
Proof.
  unfold set_state, set_ts, thread_mod, on_sst, zoom, set_thread_state, mbind, st_bind.
  by destruct (tcb_mod a _ (k_sst s)) as [[]| | |].
Qed.

(** No signal waits for the thread at its bound notification. *)
Definition no_signal s t : Prop :=
  tcbBoundNotification t = 0 \/
  exists w st, k_ntfns s !! tcbBoundNotification t = Some w /\ nt_get_state w = Ok st /\ st <> NtfnActive.
Lemma wp_no_signal s a t (Q : bool -> kst -> Prop) :
  tcbs (k_sst s) !! a = Some t -> no_signal s t -> Q false s -> wp (complete_signal a) Q s.
Proof.
  intros Ht Hn HQ. unfold complete_signal. apply wp_bind. eapply wp_thread; [exact Ht|].
  destruct Hn as [->|(w & st & Hw & Hst & Hne)]; [exact HQ|].
  case_bool_decide; [exact HQ|]. apply wp_bind. eapply wp_nt_state_of; [exact Hw|exact Hst|].
  by rewrite bool_decide_false.
Qed.

Lemma wp_receive_blocks s ep a t l cg :
  sched_inv (k_sst s) -> ep_at s ep (recv_abs l) -> tcbs (k_sst s) !! a = Some t -> no_signal s t ->
  a ∉ l -> ptr46 a ->
  wp (receive_ipc ep a true cg) (fun _ s' =>
    sched_inv (k_sst s') /\ ep_at s' ep (ERecv (l ++ [a])) /\
    exists t', tcbs (k_sst s') !! a = Some t' /\ receiver_blocked ep cg t') s.
Proof.
  intros Hi (w & Hw & Ha) Ht Hsig Hn Hp. destruct (words_recv _ _ _ Ha) as [Hq Hpl].
  pose proof Ha as (Hlen & Hst & _). unfold receive_ipc.
  apply wp_bind. eapply wp_no_signal; [exact Ht|done|].
  apply wp_bind. eapply wp_ep_state_of; [exact Hw|exact Hst|].
  destruct (si_rq _ Hi) as [Qs Hok]. pose proof (rq_tcb _ _ Hok _ _ Ht) as (Hlt & _).
  match goal with |- wp (match _ with EPIdle | EPRecv => ?c | EPSend => _ end) ?P _ =>
    assert (wp c P s) as Hwp end.
  2: by destruct l.
  apply wp_bind. eapply wp_set_ts; [exact Ht|].
  apply wp_bind; eapply wp_set_ts_next; [exact Ht|].
  apply wp_bind. unfold wp at 1. rewrite set_state_split. apply wp_bind.
  eapply wp_set_ts_next; [exact Ht|].
  change (wp (on_sst (schedule_tcb a)) (fun _ =>
    wp (e ← ep_get ep; queue ← on_sst (ep_append (ep_get_queue e) a);
      ep_mod ep (ep_set_state (ep_tag (ERecv (l ++ [a])))) ;; ep_mod ep (ep_set_queue queue))
    (fun _ s' => sched_inv (k_sst s') /\ ep_at s' ep (ERecv (l ++ [a])) /\
      exists t', tcbs (k_sst s') !! a = Some t' /\ receiver_blocked ep cg t'))
    (with_thread a (recv_state ep cg) s)).
  eapply wp_change_thread; [done|exact Ht|by apply mild_recv_state|done| |].
  { intros t0 H0. exists ThreadStateBlockedOnReceive. by apply (recv_state_spec ep cg). }
  intros x t' Hix Hep Ht' E.
  eapply (wp_queue_up s x ep l w a t' ERecv); try done.
  intros x' t2 Hix' Ht2 Est Hat. split; [done|]. split; [done|]. exists t2. split; [done|].
  assert (receiver_blocked ep cg t') as Hbl.
  { eapply receiver_strip; [exact E|]. by apply recv_state_spec. }
  unfold receiver_blocked, blocked_on, get_state, ts_get in *. by rewrite Est.
Qed.
End blocking.

(** ** Cancelling *)
Section cancelling.
Context {D : CSpaceDeps}.
Implicit Types (s : kst) (ep : Z) (t : tcb_t) (l w : list Z).

(** The endpoint with another list. *)
Definition with_list (a : ep_abs) (l : list Z) : ep_abs :=
  match a with EIdle => EIdle | ESend _ => send_abs l | ERecv _ => recv_abs l end.

Lemma words_removed (s : sst) w a l :
  length w = 2%nat -> a <> EIdle -> ep_get_state w = Ok (ep_tag a) -> Forall ptr46 l ->
  ep_queue (tcbs s) (queue_of l) l ->
  ep_words s (if decide (l = []) then ep_set_state EPIdle (ep_set_queue (queue_of l) w)
              else ep_set_queue (queue_of l) w) (with_list a l).
Proof.
  intros Hl Hne Hs Hp Hq. destruct (ptr46_ends l Hp). case_decide as E.
  - subst l. split; [by rewrite ep_set_state_length, ep_set_queue_length|].
    assert (with_list a [] = EIdle) as -> by by destruct a.
    split; [apply ep_set_state_state; by rewrite ep_set_queue_length|].
    split; [done|]. split; [by left|]. by rewrite ep_set_state_queue, ep_set_queue_queue.
  - split; [by rewrite ep_set_queue_length|].
    assert (ep_tag (with_list a l) = ep_tag a /\ ep_list (with_list a l) = l) as [E1 E2]
      by (destruct a, l; done).
    rewrite ep_set_queue_state, E1, E2. split; [done|]. split; [done|].
    split; [by right|]. by rewrite ep_set_queue_queue.
Qed.

(** A thread given a new state. *)
Lemma wp_set_state s a t st (Q : unit -> kst -> Prop) :
  sched_inv (k_sst s) -> tcbs (k_sst s) !! a = Some t ->
  (forall x, sched_inv x -> same_ep (k_sst s) x ->
    (exists t', tcbs x !! a = Some t' /\ get_state t' = Ok st) ->
    (forall b, b <> a -> tcb_strip <$> tcbs x !! b = tcb_strip <$> tcbs (k_sst s) !! b) ->
    Q tt (set_k_sst x s)) ->
  wp (set_state a st) Q s.
Proof.
  intros Hi Ht HQ. apply wp_zoom. eapply wp_set_thread_state; [done|by eauto|].
  intros x Hx. destruct (si_rq _ Hi) as [Qs Hok]. destruct (rq_tcb _ _ Hok _ _ Ht) as (Hlen & _).
  edestruct switches_thread as (t' & Ht' & E); [exact Hx|cbn; by rewrite lookup_alter_eq, Ht|].
  apply HQ; [apply Hx| | |].
  - eapply same_ep_trans; [|by apply switches_ep]. by apply alter_ep.
  - exists t'. split; [done|]. rewrite (strip_state _ _ E). by apply (state_written t st Hlen).
  - intros b Hb. destruct Hx as (_ & _ & ->). cbn. by rewrite lookup_alter_ne.
Qed.

Lemma wp_ep_cancel s ep a w abs l1 l2 (Q : unit -> kst -> Prop) :
  sched_inv (k_sst s) -> k_eps s !! ep = Some w -> ep_words (k_sst s) w abs ->
  ep_list abs = l1 ++ a :: l2 ->
  (forall s', sched_inv (k_sst s') -> ep_at s' ep (with_list abs (l1 ++ l2)) ->
    (exists t, tcbs (k_sst s') !! a = Some t /\ get_state t = Ok ThreadStateInactive) -> Q tt s') ->
  wp (ep_cancel_ipc ep a) Q s.
Proof.
  intros Hi Hw (Hlen & Hst & Hp & _ & Hq) El HQ. rewrite El in Hp, Hq.
  unfold ep_cancel_ipc. apply wp_bind. eapply wp_ep_get; [exact Hw|].
  destruct (dlist_elem ep_links _ _ a (proj2 Hq) ltac:(set_solver)) as [t Ht].
  apply wp_bind, wp_zoom. eapply (wp_ep_dequeue _ _ l1 a l2); [by apply sched_inv_null|done|].
  intros q' x Hq' Hf. pose proof Hq' as [-> Hd]. change (ep_frame (k_sst s) x) in Hf.
  pose proof (sched_inv_ep_frame _ _ Hf Hi) as Hix.
  destruct (ep_frame_is_Some _ _ a Hf ltac:(by eauto)) as [t1 Ht1].
  apply wp_bind. eapply wp_ep_mod; [exact Hw|].
  set (w1 := ep_set_queue (queue_of (l1 ++ l2)) w).
  apply wp_bind, (wp_mono _ (fun _ s1 => s1 = set_k_eps
    (<[ep := if decide (l1 ++ l2 = []) then ep_set_state EPIdle w1 else w1]> (k_eps s)) (set_k_sst x s))).
  { rewrite (queue_of_null _ _ Hd). apply wp_when; intros E.
    - apply bool_decide_eq_true in E. eapply wp_ep_mod; [cbn; by rewrite lookup_insert_eq|].
      rewrite decide_True by done. unfold set_k_eps. cbn. by rewrite insert_insert_eq.
    - apply bool_decide_eq_false in E. by rewrite decide_False by done. }
  intros [] s1 ->. eapply wp_set_state; [exact Hix|exact Ht1|].
  intros y Hiy Hey Hst' _. apply HQ; [done| |exact Hst'].
  eexists. split; [cbn; by rewrite lookup_insert_eq|].
  apply words_removed; [done|by intros ->; destruct l1|done| |by eapply same_ep_queue].
  apply Forall_app in Hp as [Hp1 Hp2]. apply Forall_app_2; [done|by inversion_clear Hp2].
Qed.

(** Restarting the threads of a list. *)
Definition restarted (x : sst) (a : Z) : Prop :=
  exists t, tcbs x !! a = Some t /\ get_state t = Ok ThreadStateRestart.
Lemma restarted_strip x x' a :
  tcb_strip <$> tcbs x' !! a = tcb_strip <$> tcbs x !! a -> restarted x a -> restarted x' a.
Proof.
  intros E (t & Ht & Hs). rewrite Ht in E. unfold restarted.
  destruct (tcbs x' !! a) as [t'|]; [|discriminate E]. exists t'. split; [done|].
  apply (inj Some) in E. by rewrite (strip_state _ _ E).
Qed.

Lemma wp_restart_all l2 : forall s (x : sst) l1 fuel (Q : unit -> kst -> Prop),
  sched_inv x -> dlist (hview ep_links (tcbs x)) (l1 ++ l2) -> (length l2 < fuel)%nat ->
  Forall (restarted x) l1 ->
  (forall y, sched_inv y -> same_ep x y -> Forall (restarted y) (l1 ++ l2) -> Q tt (set_k_sst y s)) ->
  wp (restart_all fuel (head_or 0 l2)) Q (set_k_sst x s).
Proof.
  induction l2 as [|a l2 IH]; intros s x l1 fuel Q Hi Hd Hfuel Hdone HQ;
    (destruct fuel as [|fuel]; [cbn in Hfuel; lia|]); cbn [restart_all].
  - change (head_or 0 []) with 0. rewrite (bool_decide_true (0 = 0)) by done.
    apply wp_ret, HQ; [done|done|]. by rewrite app_nil_r.
  - destruct (dlist_elem ep_links _ _ a Hd ltac:(set_solver)) as [t Ht].
    destruct (dlist_links ep_links _ _ _ _ _ Hd Ht) as [_ En].
    assert ((a ∉ l1) /\ a <> 0) as [Hn H0].
    { destruct Hd as (_ & Hnd & H0). apply NoDup_split in Hnd as (? & ? & ? & ? & _). set_solver. }
    change (head_or 0 (a :: l2)) with a. rewrite (bool_decide_false (a = 0)) by done.
    apply wp_bind. eapply wp_set_state; [exact Hi|exact Ht|].
    intros y Hiy Hey (t1 & Ht1 & Hs1) Hoth. cbn [k_sst set_k_sst] in Hey, Hoth.
    apply wp_bind, wp_zoom. eapply wp_mono; [apply switches_enqueue; [exact Hiy|by eauto]|].
    intros [] z Hz. cbn [k_sst set_k_sst] in Hz.
    destruct (switches_thread _ _ _ _ Hz Ht1) as (t2 & Ht2 & E2).
    apply wp_bind. eapply wp_thread; [exact Ht2|].
    assert (same_ep x z) as Hez by (eapply same_ep_trans; [exact Hey|by apply switches_ep]).
    assert (dlist (hview ep_links (tcbs z)) (l1 ++ a :: l2)) as Hdz.
    { eapply dlist_ext; [|exact Hd]. intros b. symmetry. apply Hez. }
    destruct (dlist_links ep_links _ _ _ _ _ Hdz Ht2) as [_ En2].
    change (tcbEPNext t2 = head_or 0 l2) in En2. rewrite En2.
    change (set_k_sst z (set_k_sst y (set_k_sst x s))) with (set_k_sst z s).
    apply (IH s z (l1 ++ [a])); [apply Hz|by rewrite <- app_assoc|cbn in Hfuel; lia| |].
    + apply Forall_app_2.
      * rewrite Forall_forall in Hdone |- *. intros b Hb. eapply restarted_strip; [|by apply Hdone].
        destruct Hz as (_ & _ & ->). apply Hoth. by intros ->.
      * apply Forall_singleton. exists t2. split; [done|]. by rewrite (strip_state _ _ E2).
    + intros y' Hiy' Hey' Hall. apply HQ; [done|by eapply same_ep_trans|]. by rewrite <- app_assoc in Hall.
Qed.

Lemma dlist_fuel (h : gmap Z tcb_t) l : dlist (hview ep_links h) l -> (length l < S (size h))%nat.
Proof.
  intros Hd. assert (list_to_set l ⊆ dom h) as Hs.
  { intros a Ha. apply elem_of_list_to_set in Ha. apply elem_of_dom. by eapply (dlist_elem ep_links). }
  apply subseteq_size in Hs. destruct Hd as (_ & Hnd & _).
  rewrite size_list_to_set, size_dom in Hs by done. lia.
Qed.
Lemma same_ep_refl (x : sst) : same_ep x x.
Proof. done. Qed.

Lemma wp_cancel_all s ep a :
  sched_inv (k_sst s) -> ep_at s ep a ->
  wp (cancel_all_ipc ep) (fun _ s' =>
    sched_inv (k_sst s') /\ ep_at s' ep EIdle /\ Forall (restarted (k_sst s')) (ep_list a)) s.
Proof.
  intros Hi (w & Hw & Ha). pose proof Ha as (Hlen & Hst & Hp & Hne & Hq). unfold cancel_all_ipc.
  apply wp_bind. eapply wp_ep_state_of; [exact Hw|exact Hst|].
  destruct (decide (a = EIdle)) as [->|Hn].
  { apply wp_ret. split; [done|]. split; [by exists w|done]. }
  pose proof Hq as [Eq Hd].
  assert (bf_get ep_queue_head w = head_or 0 (ep_list a)) as Eh by exact (f_equal head Eq).
  match goal with |- wp (match _ with EPIdle => skip | EPSend => ?c | EPRecv => _ end) ?P _ =>
    assert (wp c P s) as Hwp end.
  2: by destruct a.
  apply wp_bind. eapply wp_ep_get; [exact Hw|]. rewrite Eh.
  apply wp_bind. eapply wp_ep_mod; [exact Hw|].
  apply wp_bind. eapply wp_ep_mod; [cbn; by rewrite lookup_insert_eq|].
  apply wp_bind. eapply wp_ep_mod; [cbn; by rewrite lookup_insert_eq|].
  cbn [k_eps set_k_eps]. rewrite !insert_insert_eq.
  apply wp_bind, wp_gets, wp_bind. cbn [k_sst].
  match goal with |- wp _ _ (set_k_eps _ (set_k_eps _ ?s2)) =>
    match goal with |- wp _ _ ?s1 => change s1 with (set_k_sst (k_sst s) s1); set (s0 := s1) end end.
  apply (wp_restart_all (ep_list a) s0 (k_sst s) []); [done|done|by apply dlist_fuel|by constructor|].
  intros y Hiy Hey Hall. apply wp_zoom. eapply wp_mono; [by apply switches_reschedule|].
  intros [] z Hz. split; [apply Hz|]. split.
  - eexists. split; [cbn; by rewrite lookup_insert_eq|].
    change (ep_words z (ep_set_queue (queue_of []) (ep_set_state (ep_tag EIdle) w)) EIdle).
    apply words_set; [done|done|by left|split; [done|apply dlist_nil]].
  - cbn [app] in Hall. rewrite Forall_forall in Hall |- *. intros b Hb.
    eapply restarted_strip; [|by apply Hall]. by destruct Hz as (_ & _ & ->).
Qed.

(** [cancel_ipc] of a thread blocked at an endpoint. *)
Definition at_endpoint (st : ThreadState) : Prop :=
  st = ThreadStateBlockedOnSend \/ st = ThreadStateBlockedOnReceive.
Lemma wp_cancel_ipc s ep a t st abs l1 l2 (Q : unit -> kst -> Prop) :
  sched_inv (k_sst s) -> ep_at s ep abs -> ep_list abs = l1 ++ a :: l2 ->
  tcbs (k_sst s) !! a = Some t -> get_state t = Ok st -> at_endpoint st ->
  ts_get blocking_object t = ep -> ep <> 0 ->
  (forall s', sched_inv (k_sst s') -> ep_at s' ep (with_list abs (l1 ++ l2)) ->
    (exists t, tcbs (k_sst s') !! a = Some t /\ get_state t = Ok ThreadStateInactive) -> Q tt s') ->
  wp (cancel_ipc a) Q s.
Proof.
  intros Hi (w & Hw & Ha) El Ht Hst Hat Hb H0 HQ. unfold cancel_ipc.
  apply wp_bind. eapply wp_thread; [exact Ht|]. apply wp_bind. eapply wp_lift; [exact Hst|].
  assert (wp (ep ← ref (ts_get blocking_object t); es ← ep_state_of ep;
    assert_m (negb (bool_decide (es = EPIdle))) ;; ep_cancel_ipc ep a) Q s) as Hwp.
  2: by destruct Hat as [-> | ->].
  rewrite Hb. apply wp_bind, wp_bind, wp_assert; [by rewrite bool_decide_false|]. apply wp_ret.
  apply wp_bind. eapply wp_ep_state_of; [exact Hw|apply Ha|].
  apply wp_bind, wp_assert; [by destruct abs; [destruct l1|..]|].
  by eapply wp_ep_cancel.
Qed.
End cancelling.

(** A blocking send to an endpoint without a receiver waits: the thread
    joins the end of the endpoint's list of senders, blocked on it with its
    badge, its two grant rights and whether it is a call; the scheduler's
    invariant is kept. *)
Theorem send_ipc_waits {D : CSpaceDeps} (s : kst) (ep a : Z) (t : tcb_t) (l : list Z) (badge : Z)
    (can_grant can_grant_reply do_call : bool) :
  sched_inv (k_sst s) -> ep_at s ep (send_abs l) -> tcbs (k_sst s) !! a = Some t ->
  a ∉ l -> ptr46 a -> is_word badge ->
  wp (send_ipc ep a true do_call can_grant badge can_grant_reply) (fun _ s' =>
    sched_inv (k_sst s') /\ ep_at s' ep (ESend (l ++ [a])) /\
    exists t', tcbs (k_sst s') !! a = Some t' /\
      sender_blocked ep badge can_grant can_grant_reply do_call t') s.
Proof. intros. by eapply wp_send_blocks. Qed.

(** A blocking receive from an endpoint without a sender, by a thread with
    no signal pending at its bound notification, waits: the thread joins the
    end of the endpoint's list of receivers, blocked on it. *)
Theorem receive_ipc_waits {D : CSpaceDeps} (s : kst) (ep a : Z) (t : tcb_t) (l : list Z)
    (can_grant : bool) :
  sched_inv (k_sst s) -> ep_at s ep (recv_abs l) -> tcbs (k_sst s) !! a = Some t ->
  no_signal s t -> a ∉ l -> ptr46 a ->
  wp (receive_ipc ep a true can_grant) (fun _ s' =>
    sched_inv (k_sst s') /\ ep_at s' ep (ERecv (l ++ [a])) /\
    exists t', tcbs (k_sst s') !! a = Some t' /\ receiver_blocked ep can_grant t') s.
Proof. intros. by eapply wp_receive_blocks. Qed.

(** C18: cancelling undoes a blocking send: after a send that waits,
    [cancel_ipc] of the sender leaves the endpoint as it was and the sender
    inactive. *)
Theorem cancel_undoes_send {D : CSpaceDeps} (s : kst) (ep a : Z) (t : tcb_t) (l : list Z) (badge : Z)
    (can_grant can_grant_reply do_call : bool) :
  sched_inv (k_sst s) -> ep_at s ep (send_abs l) -> tcbs (k_sst s) !! a = Some t ->
  a ∉ l -> ptr46 a -> is_word badge -> bf_norm blocking_object ep = ep -> ep <> 0 ->
  wp (send_ipc ep a true do_call can_grant badge can_grant_reply ;; cancel_ipc a) (fun _ s' =>
    sched_inv (k_sst s') /\ ep_at s' ep (send_abs l) /\
    exists t', tcbs (k_sst s') !! a = Some t' /\ get_state t' = Ok ThreadStateInactive) s.
Proof.
  intros Hi Ha Ht Hn Hp Hb Hep H0. apply wp_bind.
  eapply wp_mono; [by eapply wp_send_blocks|]. intros [] s1 (Hi1 & Ha1 & t1 & Ht1 & [Hs Ho] & _).
  eapply (wp_cancel_ipc s1 ep a t1 _ _ l []); [done|exact Ha1|done|exact Ht1|exact Hs|by left| |done|].
  - by rewrite Ho.
  - cbn [with_list]. rewrite app_nil_r. done.
Qed.

(** C13: [cancel_all_ipc] restarts every thread waiting at the endpoint,
    senders or receivers, and leaves the endpoint idle. *)
Theorem cancel_all_restarts {D : CSpaceDeps} (s : kst) (ep : Z) (a : ep_abs) :
  sched_inv (k_sst s) -> ep_at s ep a ->
  wp (cancel_all_ipc ep) (fun _ s' =>
    sched_inv (k_sst s') /\ ep_at s' ep EIdle /\
    Forall (fun b => exists t, tcbs (k_sst s') !! b = Some t /\ get_state t = Ok ThreadStateRestart)
      (ep_list a)) s.
Proof. intros. by apply wp_cancel_all. Qed.

(** ** Instances *)
Definition eA : Z := 0xffffff8000040000.
Definition w_estate : kst := set_k_eps {[eA := [0; 0]]} (set_k_sst w_sst kst_empty).
Lemma w_ep_idle : ep_at w_estate eA EIdle.
Proof.
  exists [0; 0]. split; [by_decide|]. split_and!; [done|vm_compute; reflexivity|done|by left|].
  split; [vm_compute; reflexivity|apply dlist_nil].
Qed.
Lemma w_ptr46 : ptr46 tA /\ ptr46 tB.
Proof. split; (split; [by_decide|vm_compute; reflexivity]). Qed.

Lemma send_ipc_waits_witness :
  wp (send_ipc eA tA true true true 5 false) (fun _ s' =>
    sched_inv (k_sst s') /\ ep_at s' eA (ESend ([] ++ [tA])) /\
    exists t', tcbs (k_sst s') !! tA = Some t' /\ sender_blocked eA 5 true false true t') w_estate.
Proof.
  apply (send_ipc_waits w_estate eA tA (w_tcb 200) [] 5 true false true);
    [exact w_sched_inv|exact w_ep_idle|vm_compute; reflexivity|by apply not_elem_of_nil|
     exact (proj1 w_ptr46)|by_decide].
Defined.
Lemma receive_ipc_waits_witness :
  wp (receive_ipc eA tB true true) (fun _ s' =>
    sched_inv (k_sst s') /\ ep_at s' eA (ERecv ([] ++ [tB])) /\
    exists t', tcbs (k_sst s') !! tB = Some t' /\ receiver_blocked eA true t') w_estate.
Proof.
  apply (receive_ipc_waits w_estate eA tB (w_tcb 7) [] true);
    [exact w_sched_inv|exact w_ep_idle|vm_compute; reflexivity|left; vm_compute; reflexivity|
     by apply not_elem_of_nil|exact (proj2 w_ptr46)].
Defined.
Lemma cancel_undoes_send_witness :
  wp (send_ipc eA tA true false true 5 false ;; cancel_ipc tA) (fun _ s' =>
    sched_inv (k_sst s') /\ ep_at s' eA (send_abs []) /\
    exists t', tcbs (k_sst s') !! tA = Some t' /\ get_state t' = Ok ThreadStateInactive) w_estate.
Proof.
  apply (cancel_undoes_send w_estate eA tA (w_tcb 200) [] 5 true false false);
    [exact w_sched_inv|exact w_ep_idle|vm_compute; reflexivity|by apply not_elem_of_nil|
     exact (proj1 w_ptr46)|by_decide|vm_compute; reflexivity|by_decide].
Defined.

(** Two threads waiting to send. *)
Definition w_estate1 : kst := after (send_ipc eA tB true false true 5 false) w_estate.
Definition w_estate2 : kst := after (send_ipc eA tA true false true 6 false) w_estate1.
Lemma w_senders : sched_inv (k_sst w_estate2) /\ ep_at w_estate2 eA (ESend [tB; tA]).
Proof.
  assert (sched_inv (k_sst w_estate1) /\ ep_at w_estate1 eA (ESend [tB])) as [Hi Ha].
  { assert (send_ipc eA tB true false true 5 false w_estate = Ok (tt, w_estate1)) as E
      by (vm_compute; reflexivity).
    eapply wp_Ok in E; [|apply (wp_send_blocks w_estate eA tB (w_tcb 7) []);
      [exact w_sched_inv|exact w_ep_idle|vm_compute; reflexivity|by apply not_elem_of_nil|
       exact (proj2 w_ptr46)|by_decide]]. split; apply E. }
  assert (send_ipc eA tA true false true 6 false w_estate1 = Ok (tt, w_estate2)) as E
    by (vm_compute; reflexivity).
  eapply wp_Ok in E; [|eapply (wp_send_blocks w_estate1 eA tA _ [tB]);
    [exact Hi|exact Ha|vm_compute; reflexivity|by_decide|exact (proj1 w_ptr46)|by_decide]].
  split; apply E.
Qed.
Lemma cancel_all_restarts_witness :
  wp (cancel_all_ipc eA) (fun _ s' =>
    sched_inv (k_sst s') /\ ep_at s' eA EIdle /\
    Forall (fun b => exists t, tcbs (k_sst s') !! b = Some t /\ get_state t = Ok ThreadStateRestart)
      (ep_list (ESend [tB; tA]))) w_estate2.
Proof.
  apply (cancel_all_restarts w_estate2 eA (ESend [tB; tA])); [apply w_senders|apply w_senders].
Defined.
