(* ===== verification/TransferProps.v ===== *)
(** * Messages: theorems

    What a receiver finds after a rendezvous at an endpoint: the words of the
    message, in registers and, when both threads have a buffer, in memory.
    [msg_word] is word [i] of the message of a thread, wherever it is kept. *)

From stdpp Require Import base numbers gmap list.
From S2P Require Import Prelude Bitfield Common Cap DList CSpace CSpaceProps CapProps Sched Bitmap SchedProps SchedInv EpQueue SchedWit CSpaceWit State Vspace Threads Delete Ipc Finalise VspaceProps NtfnProps EpProps.
Local Open Scope Z_scope.
Local Open Scope krn_scope.

(** ** Registers *)
Definition put_regs (a : Z) (r : list Z) (s : kst) : kst := with_thread a (set_tcbArch r) s.

Section regs.
Implicit Types (s : kst) (a d i j n v : Z) (t : tcb_t) (r : list Z).

Lemma put_regs_twice a r r' s : put_regs a r' (put_regs a r s) = put_regs a r' s.
Proof. unfold put_regs, with_thread, set_k_sst. cbn. by rewrite alter_twice. Qed.
Lemma put_regs_same a r s t : tcbs (k_sst s) !! a = Some t -> tcbs (k_sst (put_regs a r s)) !! a = Some (set_tcbArch r t).
Proof. intros Ht. cbn. by rewrite lookup_alter_eq, Ht. Qed.
Lemma put_regs_other a b r s : b <> a -> tcbs (k_sst (put_regs a r s)) !! b = tcbs (k_sst s) !! b.
Proof. intros Hb. cbn. by rewrite lookup_alter_ne. Qed.
Lemma put_regs_id a s t : tcbs (k_sst s) !! a = Some t -> put_regs a (tcbArch t) s = s.
Proof.
  intros Ht. unfold put_regs, with_thread. assert (alter (set_tcbArch (tcbArch t)) a (tcbs (k_sst s)) = tcbs (k_sst s)) as ->.
  { rewrite (alter_insert_id _ _ _ _ Ht). apply insert_id. rewrite Ht. by destruct t. }
  by destruct s as [? [? ?] ? ? ? ? ? ?].
Qed.

Lemma wp_reg_get s a t (reg : ArchReg) i v (Q : Z -> kst -> Prop) :
  tcbs (k_sst s) !! a = Some t -> to_index reg = Ok i -> 0 <= i -> tcbArch t !! Z.to_nat i = Some v -> Q v s ->
  wp (reg_get a reg) Q s.
Proof.
  intros Ht Hi Hp Hv HQ. apply wp_bind. eapply wp_thread; [exact Ht|]. eapply wp_lift; [|exact HQ].
  unfold get_register. rewrite Hi. by apply idx_Ok.
Qed.
Lemma wp_reg_set s a t (reg : ArchReg) i v (Q : unit -> kst -> Prop) :
  tcbs (k_sst s) !! a = Some t -> to_index reg = Ok i -> 0 <= i < Z.of_nat (length (tcbArch t)) ->
  Q tt (put_regs a (<[Z.to_nat i := v]> (tcbArch t)) s) -> wp (reg_set a reg v) Q s.
Proof.
  intros Ht Hi Hp HQ. apply wp_bind. eapply wp_thread; [exact Ht|]. apply wp_bind.
  eapply wp_lift; [unfold set_register; rewrite Hi; by apply upd_Ok|]. by eapply wp_thread_mod.
Qed.

Lemma msg_index i : 0 <= i < 4 -> to_index (RMsg i) = Ok (2 + i).
Proof. intros Hi. assert (i = 0 \/ i = 1 \/ i = 2 \/ i = 3) as [-> | [-> | [-> | ->]]] by lia; reflexivity. Qed.

(** Copying the first message registers. *)
Lemma wp_copy_regs s a d ta td n (Q : unit -> kst -> Prop) :
  a <> d -> tcbs (k_sst s) !! a = Some ta -> tcbs (k_sst s) !! d = Some td ->
  length (tcbArch ta) = 37%nat -> length (tcbArch td) = 37%nat -> 0 <= n <= 4 ->
  (forall r, length r = 37%nat ->
    (forall i, 0 <= i < n -> r !! Z.to_nat (2 + i) = tcbArch ta !! Z.to_nat (2 + i)) -> Q tt (put_regs d r s)) ->
  wp (for_range (Z.to_nat n) 0 (fun i => v ← reg_get a (RMsg i); reg_set d (RMsg i) v)) Q s.
Proof.
  intros Hne Ha Hd Hla Hld Hn HQ.
  apply (wp_for_range (fun k s' => exists r, s' = put_regs d r s /\ length r = 37%nat /\
    forall i, 0 <= i < k -> r !! Z.to_nat (2 + i) = tcbArch ta !! Z.to_nat (2 + i))).
  - exists (tcbArch td). split; [by rewrite (put_regs_id d s td)|]. split; [done|]. lia.
  - intros k s' Hk (r & -> & Hl & Hr). destruct (lookup_lt_is_Some_2 (tcbArch ta) (Z.to_nat (2 + k))) as [v Hv]; [lia|].
    apply wp_bind. eapply wp_reg_get; [by rewrite put_regs_other|apply msg_index; lia|lia|exact Hv|].
    eapply wp_reg_set; [by apply put_regs_same|apply msg_index; lia|cbn; lia|]. rewrite put_regs_twice.
    eexists. split; [done|]. cbn. rewrite length_insert. split; [done|]. intros i Hi.
    destruct (decide (i = k)) as [->|]; [rewrite list_lookup_insert_eq by lia; by rewrite Hv|].
    rewrite list_lookup_insert_ne by lia. apply Hr. lia.
  - intros s' (r & -> & Hl & Hr). apply HQ; [done|]. intros i Hi. apply Hr. lia.
Qed.
End regs.

(** ** Buffers *)
Section buffers.
Implicit Types (s : kst) (a b d i j n k p v : Z) (t : tcb_t) (m : gmap Z Z).

(** Where the buffer of a thread is depends on its slots and its buffer field. *)
Lemma lookup_buffer_ext (f : tcb_t -> list Z -> ST kst (option Z)) s s' a t t' o :
  k_slots s' = k_slots s -> tcbs (k_sst s) !! a = Some t -> tcbs (k_sst s') !! a = Some t' ->
  (forall c (x y : kst) (q : option Z) z, f t c x = Ok (q, z) -> z = x /\ f t' c y = Ok (q, y)) ->
  (t ← thread a; c ← cspace_cap a tcbBuffer; f t c) s = Ok (o, s) ->
  (t ← thread a; c ← cspace_cap a tcbBuffer; f t c) s' = Ok (o, s').
Proof.
  intros Hs Ht Ht' Hf H. apply st_bind_inv in H as (t0 & s1 & H1 & H).
  assert (forall y tt, tcbs (k_sst y) !! a = Some tt -> thread a y = Ok (tt, y)) as Hth.
  { intros y tt E. unfold thread, on_sst, zoom, tcb_get, on_tcbs, load. cbn. unfold zoom. rewrite E. by destruct y as [? [] ? ? ? ? ? ?]. }
  rewrite (Hth _ _ Ht) in H1. apply Ok_inv in H1 as [<- <-]. rewrite (st_bind_Ok _ _ _ _ _ (Hth _ _ Ht')).
  apply st_bind_inv in H as (c & s1 & H1 & H). unfold cspace_cap in H1. inv_ok.
  match goal with E : slot _ s = Ok (?x, ?z) |- _ => rename E into Hx; rename x into x0; rename z into s0 end.
  apply zoom_inv in Hx as (h & Hx & ->). unfold load in Hx.
  destruct (k_slots s !! get_cspace a tcbBuffer) as [y|] eqn:Ey; [|by apply (f_equal (fun r => match r with Ok _ => true | _ => false end)) in Hx].
  apply Ok_inv in Hx as [-> <-].
  assert (cspace_cap a tcbBuffer s' = Ok (cte_cap x0, s')) as Hc.
  { unfold cspace_cap, slot, on_slots, zoom, mbind, st_bind. rewrite (load_Ok _ _ x0) by by rewrite Hs. by destruct s'. }
  rewrite (st_bind_Ok _ _ _ _ _ Hc). by destruct (Hf _ _ s' _ _ H).
Qed.
End buffers.

(** ** Words in memory *)
Section memory.
Implicit Types (s : kst) (a b d i j n k p v : Z) (t : tcb_t) (m : gmap Z Z).

(** A buffer of 128 words that does not reach the end of the address space:
    the tag, the 120 words of a message, the rest. *)
Definition buffer_in (b : Z) : Prop := 0 <= b /\ b + 1024 <= 2 ^ 64.
Definition buffers_apart (a b : Z) : Prop := a + 1024 <= b \/ b + 1024 <= a.

Lemma buf_addr_in b i : buffer_in b -> 0 <= i < 128 -> buf_addr b i = b + 8 * i.
Proof. intros [H1 H2] Hi. unfold buf_addr, wadd, wmul. rewrite (wrap_id (8 * i)), wrap_id by (unfold is_word; lia). done. Qed.

Lemma wp_copy_words s a b lo n (Q : unit -> kst -> Prop) :
  buffer_in a -> buffer_in b -> buffers_apart a b -> 0 <= lo -> 0 <= n -> lo + n < 127 ->
  (forall i, lo <= i < lo + n -> is_Some (k_mem s !! (a + 8 * (i + 1)))) ->
  (forall i, lo <= i < lo + n -> is_Some (k_mem s !! (b + 8 * (i + 1)))) ->
  (forall m, (forall i, lo <= i < lo + n -> m !! (b + 8 * (i + 1)) = k_mem s !! (a + 8 * (i + 1))) ->
    Q tt (set_k_mem m s)) ->
  wp (for_range (Z.to_nat n) lo (fun i => v ← buf_field a (i + 1); word_set (buf_addr b (i + 1)) v)) Q s.
Proof.
  intros Ha Hb Hap Hlo Hn Hmax Hsrc Hdst HQ.
  apply (wp_for_range (fun k s' => exists m, s' = set_k_mem m s /\
    (forall i, lo <= i < k -> m !! (b + 8 * (i + 1)) = k_mem s !! (a + 8 * (i + 1))) /\
    (forall p, (forall i, lo <= i < k -> p <> b + 8 * (i + 1)) -> m !! p = k_mem s !! p))).
  - exists (k_mem s). split; [by destruct s|]. split; [lia|done].
  - intros k s' Hk (m & -> & Hm & Ho). destruct (Hsrc k) as [v Hv]; [lia|].
    apply wp_bind. unfold buf_field. rewrite !buf_addr_in by (done || lia).
    eapply wp_word_get; [cbn; rewrite Ho; [exact Hv|unfold buffers_apart in Hap; lia]|].
    apply wp_word_set; [cbn; rewrite Ho; [apply Hdst; lia|lia]|]. cbn.
    eexists. split; [done|]. split.
    + intros i Hi. destruct (decide (i = k)) as [->|]; [by rewrite lookup_insert_eq, Hv|].
      rewrite lookup_insert_ne by lia. apply Hm. lia.
    + intros p Hp. rewrite lookup_insert_ne by (apply not_eq_sym, Hp; lia). apply Ho. intros i Hi. apply Hp. lia.
  - intros s' (m & -> & Hm & _). apply HQ. intros i Hi. apply Hm. lia.
Qed.
End memory.

(** ** The buffers of the two threads *)
Section lookups.
Implicit Types (s : kst) (a : Z) (t : tcb_t).

Lemma address_ext t t' c (x y : kst) (q : option Z) z :
  tcbIPCBuffer t' = tcbIPCBuffer t ->
  (p ← ipc_buffer_address (tcbIPCBuffer t) c; mret (Some p)) x = Ok (q, z) ->
  z = x /\ (p ← ipc_buffer_address (tcbIPCBuffer t') c; mret (Some p)) y = Ok (q, y).
Proof.
  intros -> H. unfold ipc_buffer_address, ref, assert_m, lift, mbind, st_bind, mret, st_ret in *.
  destruct (pageBitsForSize _); try discriminate H. destruct (negb _); [|discriminate H].
  by apply Ok_inv in H as [<- <-].
Qed.
(** A result of the part of the computation that only looks at a value. *)
Lemma lift_cont {A} (m : res A) (f g : A -> ST kst (option Z)) (x y : kst) (q : option Z) z :
  (forall v (x : kst) z, m = Ok v -> f v x = Ok (q, z) -> z = x /\ g v y = Ok (q, y)) ->
  (v ← lift m; f v) x = Ok (q, z) -> z = x /\ (v ← lift m; g v) y = Ok (q, y).
Proof.
  intros Hfg H. apply st_bind_inv in H as (v & x1 & H1 & H). apply lift_inv in H1 as [H1 ->].
  unfold lift, mbind, st_bind. rewrite H1. by apply Hfg.
Qed.
Lemma lookup_ipc_buffer_ext s s' a r t t' o :
  k_slots s' = k_slots s -> tcbs (k_sst s) !! a = Some t -> tcbs (k_sst s') !! a = Some t' ->
  tcbIPCBuffer t' = tcbIPCBuffer t ->
  lookup_ipc_buffer a r s = Ok (o, s) -> lookup_ipc_buffer a r s' = Ok (o, s').
Proof.
  intros Hs Ht Ht' Hb. unfold lookup_ipc_buffer.
  refine (lookup_buffer_ext (fun t buffer_cap => _) s s' a t t' o Hs Ht Ht' _). cbv beta. intros c x y q z.
  apply lift_cont. intros ty x1 z1 _ H. destruct (negb _); [by apply Ok_inv in H as [<- <-]|].
  destruct (negb _); [by apply Ok_inv in H as [<- <-]|]. revert H. apply lift_cont. intros v x2 z2 _ H.
  destruct (ipc_buffer_right r v); [by eapply address_ext|by apply Ok_inv in H as [<- <-]].
Qed.
Lemma lookup_mut_ipc_buffer_ext s s' a r t t' o :
  k_slots s' = k_slots s -> tcbs (k_sst s) !! a = Some t -> tcbs (k_sst s') !! a = Some t' ->
  tcbIPCBuffer t' = tcbIPCBuffer t ->
  lookup_mut_ipc_buffer a r s = Ok (o, s) -> lookup_mut_ipc_buffer a r s' = Ok (o, s').
Proof.
  intros Hs Ht Ht' Hb. unfold lookup_mut_ipc_buffer.
  refine (lookup_buffer_ext (fun t buffer_cap => _) s s' a t t' o Hs Ht Ht' _). cbv beta. intros c x y q z.
  apply lift_cont. intros ty x1 z1 _ H. destruct (negb _); [by apply Ok_inv in H as [<- <-]|].
  revert H. apply lift_cont. intros v x2 z2 _ H.
  destruct (ipc_buffer_right r v); [by eapply address_ext|by apply Ok_inv in H as [<- <-]].
Qed.
End lookups.

(** ** Messages *)
Definition reg_of (s : kst) (a i : Z) : option Z := t ← tcbs (k_sst s) !! a; tcbArch t !! Z.to_nat i.
(** Word [i] of the message of thread [a] whose buffer is [buf]. *)
Definition msg_word (s : kst) (a : Z) (buf : option Z) (i : Z) : option Z :=
  if bool_decide (i < msgRegisterNum) then reg_of s a (2 + i)
  else b ← buf; k_mem s !! buf_addr b (i + 1).
(** How many of [len] words are transferred. *)
Definition transferred (sb rb : option Z) (len : Z) : Z :=
  match sb, rb with Some _, Some _ => len | _, _ => Z.min len msgRegisterNum end.

(** The buffers the threads have, in memory and apart. *)
Record buffers_ready (s : kst) (src d : Z) (sb rb : option Z) (len : Z) : Prop := {
  br_src : lookup_ipc_buffer src false s = Ok (sb, s);
  br_dst : lookup_mut_ipc_buffer d true s = Ok (rb, s);
  br_mem : forall a b, sb = Some a -> rb = Some b ->
    buffer_in a /\ buffer_in b /\ buffers_apart a b /\
    forall i, msgRegisterNum <= i < len ->
      is_Some (k_mem s !! (a + 8 * (i + 1))) /\ is_Some (k_mem s !! (b + 8 * (i + 1))) }.

Section transfer.
Context {D : CSpaceDeps}.
Implicit Types (s : kst) (a d len : Z) (t : tcb_t) (m : gmap Z Z) (r : list Z).

Lemma wp_lookup_src s a b o (Q : option Z -> kst -> Prop) :
  lookup_ipc_buffer a b s = Ok (o, s) -> Q o s -> wp (lookup_ipc_buffer a b) Q s.
Proof. intros E HQ. unfold wp. by rewrite E. Qed.
Lemma wp_lookup_dst s a b o (Q : option Z -> kst -> Prop) :
  lookup_mut_ipc_buffer a b s = Ok (o, s) -> Q o s -> wp (lookup_mut_ipc_buffer a b) Q s.
Proof. intros E HQ. unfold wp. by rewrite E. Qed.

Lemma reg_of_put s d r m i t :
  tcbs (k_sst s) !! d = Some t -> reg_of (set_k_mem m (put_regs d r s)) d i = r !! Z.to_nat i.
Proof. intros Ht. unfold reg_of. cbn. by rewrite lookup_alter_eq, Ht. Qed.

Lemma wp_copy_mrs s a d ta td sb rb len (Q : Z -> kst -> Prop) :
  a <> d -> tcbs (k_sst s) !! a = Some ta -> tcbs (k_sst s) !! d = Some td ->
  length (tcbArch ta) = 37%nat -> length (tcbArch td) = 37%nat ->
  buffers_ready s a d sb rb len -> 0 <= len <= seL4_MsgMaxLength ->
  (forall r m, length r = 37%nat ->
    (forall i, 0 <= i < transferred sb rb len ->
      (if bool_decide (i < msgRegisterNum) then r !! Z.to_nat (2 + i) else b ← rb; m !! buf_addr b (i + 1))
        = msg_word s a sb i) ->
    Q (transferred sb rb len) (set_k_mem m (put_regs d r s))) ->
  wp (copy_mrs a d len) Q s.
Proof.
  intros Hne Ha Hd Hla Hld [Hs Hr Hm] Hlen HQ. change seL4_MsgMaxLength with 120 in Hlen.
  unfold copy_mrs. apply wp_bind. eapply wp_copy_regs; [done..| |].
  { change msgRegisterNum with 4. lia. }
  intros r Hl Hregs. set (s1 := put_regs d r s). change msgRegisterNum with 4 in *.
  assert (tcbs (k_sst s1) !! a = Some ta) as Ha1 by (unfold s1; by rewrite put_regs_other).
  apply wp_bind, (wp_lookup_src _ _ _ sb); [by eapply (lookup_ipc_buffer_ext s); [|exact Ha|exact Ha1|..]|].
  apply wp_bind, (wp_lookup_dst _ _ _ rb).
  { eapply (lookup_mut_ipc_buffer_ext s); [done|exact Hd|by apply put_regs_same|done|done]. }
  assert (forall i, 0 <= i < Z.min len 4 -> r !! Z.to_nat (2 + i) = reg_of s a (2 + i)) as Hr4.
  { intros i Hi. unfold reg_of. rewrite Ha. by apply Hregs. }
  assert (sb = None \/ rb = None -> transferred sb rb len = Z.min len 4 /\ wp (mret (Z.min len 4)) Q s1) as Hshort.
  { intros Hn. assert (transferred sb rb len = Z.min len 4) as E by by destruct Hn as [-> | ->]; [|destruct sb].
    split; [done|]. rewrite <- E. apply (HQ r (k_mem s)); [done|]. intros i Hi. rewrite E in Hi. unfold msg_word.
    change msgRegisterNum with 4. rewrite bool_decide_true by lia. apply Hr4. lia. }
  destruct sb as [sa|]; [|by apply Hshort; left]. destruct rb as [ra|]; [|by apply Hshort; right].
  destruct (Hm sa ra eq_refl eq_refl) as (Hba & Hbb & Hap & Hw).
  apply wp_bind. eapply wp_copy_words; [done..|lia|lia|lia| | |]; [intros i Hi; apply Hw; lia..|].
  intros m Hmem. apply wp_ret. rewrite Z.max_r by lia. apply (HQ r m); [done|].
  cbn [transferred]. intros i Hi. unfold msg_word. change msgRegisterNum with 4. case_bool_decide; [apply Hr4; lia|].
  cbn. rewrite !buf_addr_in by (done || lia). apply Hmem. lia.
Qed.

(** The message information as the kernel reads it and as it delivers it. *)
Definition msg_len (w : Z) : Z := Z.min (bf_get mi_length [w]) seL4_MsgMaxLength.
Definition info_to (n w : Z) : list Z :=
  bf_set mi_length n (bf_set mi_capsUnwrapped 0 (bf_set mi_extraCaps 0 (message_info_from_word_security w))).

Lemma security_fields w :
  length (message_info_from_word_security w) = 1%nat /\
  bf_get mi_length (message_info_from_word_security w) = msg_len w /\
  bf_get mi_label (message_info_from_word_security w) = bf_get mi_label [w] /\
  bf_get mi_extraCaps (message_info_from_word_security w) = bf_get mi_extraCaps [w].
Proof.
  unfold message_info_from_word_security, msg_len, message_info_from_word. change seL4_MsgMaxLength with 120.
  case_decide; [|by rewrite Z.min_l by lia]. rewrite bf_set_length, Z.min_r by lia.
  by rewrite (bf_get_set_same 1), !(bf_get_set_other 1 1).
Qed.
Lemma msg_len_bound w : 0 <= msg_len w <= seL4_MsgMaxLength.
Proof.
  unfold msg_len. pose proof (bf_get_bound 1 mi_length [w] eq_refl eq_refl eq_refl) as H. cbn in H. change seL4_MsgMaxLength with 120. lia.
Qed.
Lemma info_to_fields n w :
  0 <= n <= seL4_MsgMaxLength ->
  bf_get mi_label [message_info_to_word (info_to n w)] = bf_get mi_label [w] /\
  bf_get mi_length [message_info_to_word (info_to n w)] = n /\
  bf_get mi_extraCaps [message_info_to_word (info_to n w)] = 0 /\
  bf_get mi_capsUnwrapped [message_info_to_word (info_to n w)] = 0.
Proof.
  change seL4_MsgMaxLength with 120. intros Hn. destruct (security_fields w) as (Hl & _ & Hlab & _).
  assert ([message_info_to_word (info_to n w)] = info_to n w) as ->.
  { assert (length (info_to n w) = 1%nat) as H by (unfold info_to; by rewrite !bf_set_length).
    unfold message_info_to_word. by destruct (info_to n w) as [|? []]. }
  unfold info_to. split_and!.
  - by rewrite !(bf_get_set_other 1 1).
  - rewrite (bf_get_set_same 1) by (done || by rewrite !bf_set_length). apply bf_norm_small; [done|done|done|cbn; lia].
  - rewrite !(bf_get_set_other 1 1) by done. by rewrite (bf_get_set_same 1).
  - rewrite (bf_get_set_other 1 1) by done. by rewrite (bf_get_set_same 1) by (done || by rewrite bf_set_length).
Qed.

(** What a thread finds when a message with information [w] was delivered. *)
Record delivered (s s' : kst) (src d : Z) (sb rb : option Z) (w badge : Z) : Prop := {
  dl_badge : reg_of s' d 0 = Some badge;
  dl_info : exists w', reg_of s' d 1 = Some w' /\ bf_get mi_label [w'] = bf_get mi_label [w] /\
    bf_get mi_length [w'] = transferred sb rb (msg_len w) /\
    bf_get mi_extraCaps [w'] = 0 /\ bf_get mi_capsUnwrapped [w'] = 0;
  dl_words : forall i, 0 <= i < transferred sb rb (msg_len w) -> msg_word s' d rb i = msg_word s src sb i }.

Lemma wp_no_extra_caps s a t w sb (Q : list Z * option (list Z) -> kst -> Prop) :
  tcbs (k_sst s) !! a = Some t -> tcbArch t !! 1%nat = Some w -> bf_get mi_extraCaps [w] = 0 ->
  lookup_ipc_buffer a false s = Ok (sb, s) ->
  Q ([0; 0; 0], None) s -> wp (tcb_lookup_extra_caps a [0; 0; 0]) Q s.
Proof.
  intros Ht Hw He Hb HQ. unfold tcb_lookup_extra_caps. apply wp_bind.
  eapply (wp_reg_get _ _ _ _ 1); [exact Ht|done|lia|exact Hw|]. apply wp_bind. eapply wp_lookup_src; [exact Hb|].
  destruct sb as [b|]; [|exact HQ]. destruct (security_fields w) as (_ & _ & _ & ->). rewrite He. exact HQ.
Qed.
Lemma wp_no_transfer_caps s d rb ep (info : list Z) (Q : list Z -> kst -> Prop) :
  lookup_mut_ipc_buffer d true s = Ok (rb, s) ->
  Q (bf_set mi_capsUnwrapped 0 (bf_set mi_extraCaps 0 info)) s -> wp (set_transfer_caps d ep info [0; 0; 0]) Q s.
Proof.
  intros Hb HQ. apply wp_bind. eapply wp_lookup_dst; [exact Hb|]. by destruct rb.
Qed.

Lemma transferred_bound sb rb w : 0 <= transferred sb rb (msg_len w) <= seL4_MsgMaxLength.
Proof.
  pose proof (msg_len_bound w) as H. change seL4_MsgMaxLength with 120 in *.
  unfold transferred. change msgRegisterNum with 4. destruct sb, rb; lia.
Qed.

Lemma wp_do_normal_transfer s a d ta td w sb rb ep badge (grant : bool) (Q : unit -> kst -> Prop) :
  a <> d -> tcbs (k_sst s) !! a = Some ta -> tcbs (k_sst s) !! d = Some td ->
  length (tcbArch ta) = 37%nat -> length (tcbArch td) = 37%nat -> tcbArch ta !! 1%nat = Some w ->
  buffers_ready s a d sb rb (msg_len w) -> grant = false \/ bf_get mi_extraCaps [w] = 0 ->
  (forall r m, length r = 37%nat -> delivered s (set_k_mem m (put_regs d r s)) a d sb rb w badge ->
    Q tt (set_k_mem m (put_regs d r s))) ->
  wp (do_normal_transfer a d ep badge grant) Q s.
Proof.
  intros Hne Ha Hd Hla Hld Hw Hb Hg HQ. unfold do_normal_transfer.
  apply wp_bind. eapply (wp_reg_get _ _ _ _ 1); [exact Ha|done|lia|exact Hw|].
  apply wp_bind, (wp_mono _ (fun e s' => e = [0; 0; 0] /\ s' = s)).
  { destruct grant; [|by apply wp_ret]. destruct Hg as [Hg|Hg]; [done|].
    apply wp_bind. eapply wp_no_extra_caps; [done..|by apply Hb|]. by apply wp_ret. }
  intros e s0 [-> ->]. destruct (security_fields w) as (_ & Hlen & _). rewrite Hlen.
  apply wp_bind. eapply wp_copy_mrs; [done..|apply msg_len_bound|]. intros r m Hl Hwords.
  set (n := transferred sb rb (msg_len w)) in *. pose proof (transferred_bound sb rb w : 0 <= n <= _) as Hn.
  assert (tcbs (k_sst (set_k_mem m (put_regs d r s))) !! d = Some (set_tcbArch r td)) as Hd1 by by apply put_regs_same.
  apply wp_bind, (wp_no_transfer_caps _ _ rb).
  { eapply (lookup_mut_ipc_buffer_ext s); [done|exact Hd|exact Hd1|done|by apply Hb]. }
  change (bf_set mi_length n _) with (info_to n w).
  set (w' := message_info_to_word (info_to n w)). set (r1 := <[1%nat := w']> r). set (r2 := <[0%nat := badge]> r1).
  apply wp_bind. eapply (wp_reg_set _ _ _ _ 1); [exact Hd1|done|cbn; lia|].
  assert (put_regs d (<[Z.to_nat 1 := w']> (tcbArch (set_tcbArch r td))) (set_k_mem m (put_regs d r s))
    = set_k_mem m (put_regs d r1 s)) as ->.
  { by rewrite <- (put_regs_twice d r r1 s). }
  eapply (wp_reg_set _ _ _ _ 0); [by apply put_regs_same|done|cbn; unfold r1; rewrite length_insert; lia|].
  assert (put_regs d (<[Z.to_nat 0 := badge]> (tcbArch (set_tcbArch r1 td))) (set_k_mem m (put_regs d r1 s))
    = set_k_mem m (put_regs d r2 s)) as ->.
  { by rewrite <- (put_regs_twice d r1 r2 s). }
  apply HQ; [unfold r2, r1; by rewrite !length_insert|]. split.
  - rewrite (reg_of_put _ _ _ _ _ td) by done. apply list_lookup_insert_eq. unfold r1. rewrite length_insert. lia.
  - exists w'. split; [|by apply info_to_fields]. rewrite (reg_of_put _ _ _ _ _ td) by done.
    unfold r2. rewrite list_lookup_insert_ne by done. apply list_lookup_insert_eq. lia.
  - intros i Hi. rewrite <- (Hwords i Hi). unfold msg_word. case_bool_decide; [|done].
    rewrite (reg_of_put _ _ _ _ _ td) by done. unfold r2, r1. by rewrite !list_lookup_insert_ne by lia.
Qed.

Lemma delivered_ext s1 s s2 s' a d sb rb w badge :
  delivered s1 s2 a d sb rb w badge ->
  (forall i, reg_of s1 a i = reg_of s a i) -> k_mem s1 = k_mem s ->
  (forall i, reg_of s' d i = reg_of s2 d i) -> k_mem s' = k_mem s2 -> delivered s s' a d sb rb w badge.
Proof.
  intros [H1 H2 H3] Ha Hm Hd Hm'. split; [by rewrite Hd|by rewrite Hd|].
  intros i Hi. specialize (H3 i Hi). unfold msg_word in *. by rewrite Hd, Hm', H3, Ha, Hm.
Qed.

Lemma wp_skip_end s (m1 m2 : ST kst unit) (Q : unit -> kst -> Prop) :
  wp (m1 ;; m2) Q s -> wp (m1 ;; m2 ;; skip) Q s.
Proof.
  unfold wp, mbind, st_bind. destruct (m1 s) as [[[] s1]| | |]; [|done..].
  by destruct (m2 s1) as [[[] s2]| | |].
Qed.
Lemma arch_strip (o o' : option tcb_t) : tcb_strip <$> o' = tcb_strip <$> o -> tcbArch <$> o' = tcbArch <$> o.
Proof.
  intros E. destruct o, o'; try done. cbn in *. f_equal. by destruct (strip_prio _ _ (inj Some _ _ E)) as (_ & _ & _ & ->).
Qed.
Lemma reg_arch (o : option tcb_t) (i : Z) : (t ← o; tcbArch t !! Z.to_nat i) = (r ← tcbArch <$> o; r !! Z.to_nat i).
Proof. by destruct o. Qed.
Lemma switches_regs s x b : switch_frame (k_sst s) x -> forall i, reg_of (set_k_sst x s) b i = reg_of s b i.
Proof. intros [_ Hf] i. unfold reg_of. cbn [k_sst set_k_sst]. by rewrite !reg_arch, (arch_strip _ _ (Hf b)). Qed.
(** Another state for a thread: its registers and everyone's links to waiting
    threads stay. *)
Lemma wp_settle s d t st (Q : unit -> kst -> Prop) :
  sched_inv (k_sst s) -> tcbs (k_sst s) !! d = Some t ->
  (forall x t', sched_inv x -> same_ep (k_sst s) x -> tcbs x !! d = Some t' ->
    get_state t' = Ok st -> (forall b i, reg_of (set_k_sst x s) b i = reg_of s b i) -> Q tt (set_k_sst x s)) ->
  wp (set_state d st) Q s.
Proof.
  intros Hi Ht HQ. apply wp_zoom. eapply wp_set_thread_state; [done|by eauto|].
  intros x1 Hx1. destruct (si_rq _ Hi) as [Qs Hok]. destruct (rq_tcb _ _ Hok _ _ Ht) as (Hlen & _).
  edestruct switches_thread as (t1 & Ht1 & E1); [exact Hx1|cbn; by rewrite lookup_alter_eq, Ht|].
  refine (HQ x1 t1 _ _ Ht1 _ _); [apply Hx1| | |].
  - eapply same_ep_trans; [|by apply switches_ep]. by apply alter_ep.
  - rewrite (strip_state _ _ E1). exact (state_written t st Hlen).
  - intros b i. unfold reg_of. cbn [k_sst set_k_sst]. rewrite !reg_arch.
    enough (tcbArch <$> tcbs x1 !! b = tcbArch <$> tcbs (k_sst s) !! b) as -> by done.
    rewrite (arch_strip _ _ (proj2 (proj2 Hx1) b)). cbn.
    destruct (decide (b = d)) as [->|]; [by rewrite lookup_alter_eq, Ht|by rewrite lookup_alter_ne].
Qed.
Lemma wp_run s d t (Q : unit -> kst -> Prop) :
  sched_inv (k_sst s) -> tcbs (k_sst s) !! d = Some t ->
  (forall x t', sched_inv x -> same_ep (k_sst s) x -> tcbs x !! d = Some t' ->
    get_state t' = Ok ThreadStateRunning -> (forall b i, reg_of (set_k_sst x s) b i = reg_of s b i) -> Q tt (set_k_sst x s)) ->
  wp (set_state d ThreadStateRunning ;; on_sst (possible_switch_to d)) Q s.
Proof.
  intros Hi Ht HQ. apply wp_bind. eapply wp_settle; [done|exact Ht|]. intros x1 t1 Hi1 He1 Ht1 Hs1 Hr1.
  apply wp_zoom. eapply wp_mono; [apply switches_possible_switch_to; [done|cbn; by eauto]|].
  cbn [k_sst set_k_sst]. intros [] x2 Hx2.
  edestruct switches_thread as (t2 & Ht2 & E2); [exact Hx2|exact Ht1|].
  refine (HQ x2 t2 _ _ Ht2 _ _); [apply Hx2|eapply same_ep_trans; [exact He1|by apply switches_ep]| |].
  - by rewrite (strip_state _ _ E2).
  - intros b i. rewrite <- Hr1. exact (switches_regs (set_k_sst x1 s) x2 b (proj2 Hx2) i).
Qed.

(** The reply to a call: the slot of the sender's reply capability is in the
    derivation list, the slot for the caller of the receiver is empty. *)
Record reply_ready (h : slots) (a d : Z) (l1 l2 : list Z) : Prop := {
  rr_ok : slots_ok h;
  rr_mdb : mdb h (l1 ++ get_cspace_mut_ref a tcbReply :: l2);
  rr_master : exists x, h !! get_cspace_mut_ref a tcbReply = Some x /\ get_cap_type (cte_cap x) = Ok CapReplyCap /\
    bf_get reply_master (cte_cap x) = 1 /\ bf_get reply_can_grant (cte_cap x) = 1 /\ bf_get reply_tcb_ptr (cte_cap x) = a;
  rr_caller : exists y, h !! get_cspace_mut_ref d tcbCaller = Some y /\ empty_slot y }.
(** The receiver can reply: the capability is in its slot, derived from that
    of the sender. *)
Record can_reply (h h' : slots) (a d : Z) (grant : bool) (l1 l2 : list Z) : Prop := {
  cr_slots : slots_ok h';
  cr_list : mdb h' (l1 ++ get_cspace_mut_ref a tcbReply :: get_cspace_mut_ref d tcbCaller :: l2);
  cr_cap : cte_cap <$> h' !! get_cspace_mut_ref d tcbCaller = Some (new_reply_cap (b2w grant) 0 a);
  cr_others : forall b, b <> get_cspace_mut_ref d tcbCaller -> cte_cap <$> h' !! b = cte_cap <$> h !! b }.

Lemma wp_reply_insert h a d (grant : bool) l1 l2 x (Q : unit -> slots -> Prop) :
  reply_ready h a d l1 l2 -> h !! get_cspace_mut_ref a tcbReply = Some x ->
  (forall h', can_reply h h' a d grant l1 l2 -> Q tt h') ->
  wp (cte_insert (new_reply_cap (b2w grant) 0 a) (get_cspace_mut_ref a tcbReply) (get_cspace_mut_ref d tcbCaller)) Q h.
Proof.
  intros [Hok Hm (x' & Hx' & Ht & _) (y & Hy & He)] Hx HQ. rewrite Hx in Hx'. injection Hx' as <-.
  set (src := get_cspace_mut_ref a tcbReply) in *. set (dest := get_cspace_mut_ref d tcbCaller) in *.
  set (c := new_reply_cap (b2w grant) 0 a).
  assert (get_cap_type c = Ok CapReplyCap) as Hc.
  { apply (bf_new_tag [(reply_can_grant, b2w grant); (reply_master, 0); (reply_tcb_ptr, a)] CapReplyCap). reflexivity. }
  assert (src <> dest) as Hne.
  { intros E. rewrite <- E, Hx in Hy. injection Hy as ->. destruct He as [He _]. by rewrite He in Ht. }
  assert (dest ∉ l1 ++ src :: l2) as Hdn.
  { destruct He as (_ & Hn & Hp). eapply (mdb_free_notin h _ dest src y); eauto. set_solver. }
  assert (is_cap_revocable c (cte_cap x) = Ok false) as Hrev by (unfold is_cap_revocable, isArchCap; by rewrite Hc).
  eapply wp_cte_insert; [done|exact Hm|exact Hx|exact Hy|exact He|exact Ht|exact Hc|exact Hrev|].
  apply HQ. split; [by apply insert_heap_ok|by eapply insert_heap_mdb| |].
  - by erewrite insert_heap_new.
  - intros b Hb. destruct (decide (b = src)) as [->|Hbs]; [|by apply insert_heap_caps].
    unfold insert_heap. rewrite !caps_alter_mdb by done. rewrite lookup_alter_ne by done.
    rewrite lookup_alter_eq, Hx. cbn. unfold src_cap_after. by rewrite Ht.
Qed.
Lemma wp_setup_caller s a d t (grant : bool) l1 l2 (Q : unit -> kst -> Prop) :
  sched_inv (k_sst s) -> tcbs (k_sst s) !! a = Some t -> reply_ready (k_slots s) a d l1 l2 ->
  (forall x t' h, sched_inv x -> same_ep (k_sst s) x -> tcbs x !! a = Some t' ->
    get_state t' = Ok ThreadStateBlockedOnReply -> (forall b i, reg_of (set_k_sst x s) b i = reg_of s b i) ->
    can_reply (k_slots s) h a d grant l1 l2 -> Q tt (set_k_slots h (set_k_sst x s))) ->
  wp (setup_caller_cap d a grant) Q s.
Proof.
  intros Hi Ht Hr HQ. pose proof Hr as [_ _ (x0 & Hx0 & Htag & Hma & Hgr & Hptr) (y & Hy & He)]. unfold setup_caller_cap.
  change (on_sst (set_thread_state a ThreadStateBlockedOnReply)) with (set_state a ThreadStateBlockedOnReply).
  apply wp_bind. eapply wp_settle; [done|exact Ht|]. intros x t' Hix Hex Ht' Hst Hreg. cbv zeta.
  apply wp_bind. unfold slot. apply wp_zoom. eapply wp_load; [exact Hx0|]. cbn [k_slots set_k_sst].
  replace (set_k_slots (k_slots s) (set_k_sst x s)) with (set_k_sst x s) by done.
  apply wp_bind. eapply wp_lift; [exact Htag|]. rewrite Hma, Hgr, Hptr.
  do 4 (apply wp_bind, wp_assert; [by rewrite ?bool_decide_true|]).
  apply wp_bind. apply wp_zoom. eapply wp_load; [exact Hy|]. cbn [k_slots set_k_sst].
  replace (set_k_slots (k_slots s) (set_k_sst x s)) with (set_k_sst x s) by done.
  apply wp_bind. eapply wp_lift; [apply He|]. apply wp_bind, wp_assert; [by rewrite bool_decide_true|].
  apply wp_zoom. cbn [k_slots set_k_sst]. eapply wp_reply_insert; [exact Hr|exact Hx0|]. intros h Hh. by eapply HQ.
Qed.

Lemma sched_inv_put_regs s d r t :
  sched_inv (k_sst s) -> tcbs (k_sst s) !! d = Some t -> length r = 37%nat -> sched_inv (k_sst (put_regs d r s)).
Proof.
  intros Hi Ht Hr. destruct (si_thr _ Hi _ _ Ht) as [Hl Hst].
  set (g := fun x : list Z => if decide (length x = length r) then r else x).
  assert (k_sst (put_regs d r s)
    = Sst (alter (fun t => set_tcbArch (g (tcbArch t)) t) d (tcbs (k_sst s))) (gl (k_sst s))) as ->.
  { cbn. f_equal. apply map_eq. intros b. destruct (decide (b = d)) as [->|]; [|by rewrite !lookup_alter_ne].
    rewrite !lookup_alter_eq, Ht. cbn. unfold g. by rewrite decide_True by congruence. }
  apply sched_inv_mod; [done|by eauto| |].
  - apply mild_arch. intros x. unfold g. by case_decide.
  - intros t0 Ht0. rewrite Ht in Ht0. injection Ht0 as <-. exact Hst.
Qed.

(** Taking the first thread off an endpoint. *)
Lemma wp_pop s ep d l w abs (rest : ST kst unit) (Q : unit -> kst -> Prop) :
  sched_inv (k_sst s) -> k_eps s !! ep = Some w -> ep_words (k_sst s) w abs -> ep_list abs = d :: l ->
  (forall x e w', ep_frame (k_sst s) x -> sched_inv x -> e !! ep = Some w' ->
    ep_words x w' (with_list abs l) -> wp rest Q (set_k_eps e (set_k_sst x s))) ->
  wp (queue ← on_sst (ep_dequeue (ep_get_queue w) d);
      ep_mod ep (ep_set_queue queue) ;;
      when (queue_empty queue) (ep_mod ep (ep_set_state EPIdle)) ;; rest) Q s.
Proof.
  intros Hi Hw (Hlen & Hst & Hp & _ & Hq) El HQ. rewrite El in Hp, Hq. pose proof Hq as [Eq _].
  apply wp_bind, wp_zoom. eapply (wp_ep_dequeue _ _ [] d l); [by apply sched_inv_null|done|].
  cbn [app]. intros q' x Hq' Hf. pose proof Hq' as [-> Hd]. change (ep_frame (k_sst s) x) in Hf.
  apply wp_bind. eapply wp_ep_mod; [exact Hw|]. set (w1 := ep_set_queue (queue_of l) w).
  set (w2 := if decide (l = []) then ep_set_state EPIdle w1 else w1).
  apply wp_bind, (wp_mono _ (fun _ s1 => s1 = set_k_eps (<[ep := w2]> (k_eps s)) (set_k_sst x s))).
  { change (queue_empty (queue_of l)) with (head (queue_of l) =w 0). rewrite (queue_of_null _ _ Hd). unfold w2. apply wp_when; intros E.
    - apply bool_decide_eq_true in E. eapply wp_ep_mod; [cbn; by rewrite lookup_insert_eq|].
      rewrite decide_True by done. unfold set_k_eps. cbn. by rewrite insert_insert_eq.
    - apply bool_decide_eq_false in E. by rewrite decide_False by done. }
  intros [] s1 ->. apply (HQ _ _ w2); [done|by eapply sched_inv_ep_frame|apply lookup_insert_eq|].
  apply words_removed; [done|by intros ->|done|by inversion_clear Hp|done].
Qed.

(** The transfer between two threads neither of which has a fault, in the
    state after the first of them left the endpoint. *)
Lemma wp_transfer s (x : sst) e a d ta td w sb rb ep badge (grant : bool) (Q : unit -> kst -> Prop) :
  sched_inv (k_sst s) -> ep_frame (k_sst s) x -> a <> d -> tcbs (k_sst s) !! a = Some ta ->
  tcbs (k_sst s) !! d = Some td -> get_fault_type (tcbFault ta) = Ok NullFault -> tcbArch ta !! 1%nat = Some w ->
  buffers_ready s a d sb rb (msg_len w) -> grant = false \/ bf_get mi_extraCaps [w] = 0 ->
  (forall r m s', s' = set_k_mem m (put_regs d r (set_k_eps e (set_k_sst x s))) -> sched_inv (k_sst s') ->
    same_ep x (k_sst s') -> delivered s s' a d sb rb w badge -> Q tt s') ->
  wp (do_ipc_transfer a d ep badge grant) Q (set_k_eps e (set_k_sst x s)).
Proof.
  intros Hi Hf Hne Ha Hd Hfl Hw Hb Hg HQ. set (s1 := set_k_eps e (set_k_sst x s)).
  assert (forall b t, tcbs (k_sst s) !! b = Some t -> exists t1, tcbs x !! b = Some t1 /\
    tcbArch t1 = tcbArch t /\ tcbIPCBuffer t1 = tcbIPCBuffer t /\ tcbFault t1 = tcbFault t) as Hthr.
  { intros b t Ht. destruct (ep_frame_is_Some _ _ b Hf ltac:(by eauto)) as [t1 Ht1].
    exists t1. split; [done|]. destruct (ep_frame_thread _ _ _ _ Hf Ht1) as (t0 & Ht0 & E).
    rewrite Ht in Ht0. injection Ht0 as <-. destruct t, t1. cbn in *. by simplify_eq. }
  destruct (Hthr a ta Ha) as (ta1 & Ha1 & Ea & Eba & Efa), (Hthr d td Hd) as (td1 & Hd1 & Ed & Ebd & _).
  destruct (si_thr _ Hi _ _ Ha) as [Hla _], (si_thr _ Hi _ _ Hd) as [Hld _].
  apply wp_bind. eapply wp_thread; [exact Ha1|]. rewrite Efa. apply wp_bind. eapply wp_lift; [exact Hfl|].
  rewrite bool_decide_true by done. destruct Hb as [Hb1 Hb2 Hb3].
  eapply (wp_do_normal_transfer s1); [done|exact Ha1|exact Hd1|congruence|congruence|by rewrite Ea| |done|].
  { split; [by eapply (lookup_ipc_buffer_ext s); [|exact Ha|exact Ha1|..]| |done].
    by eapply (lookup_mut_ipc_buffer_ext s); [|exact Hd|exact Hd1|..]. }
  intros r m Hl Hdel. pose proof (sched_inv_ep_frame _ _ Hf Hi) as Hix.
  eapply HQ; [done|by apply (sched_inv_put_regs s1 d r td1)|by apply (alter_ep x)|].
  eapply delivered_ext; [exact Hdel| |done..]. intros i. unfold reg_of. cbn. rewrite Ha, Ha1. cbn. by rewrite Ea.
Qed.
End transfer.

(** C4: a send to an endpoint where a thread waits delivers the message: the
    first receiver leaves the list and runs again; its message registers and,
    beyond the fourth word, its buffer hold the words of the sender's message,
    as many as the information word says (at most 120; at most four when one
    of the threads has no buffer); its information register keeps the label,
    carries that length and no capabilities, its badge register the badge. *)
Theorem send_ipc_delivers {D : CSpaceDeps} (s : kst) (ep a d : Z) (l : list Z) (ta td : tcb_t) (w : Z)
    (sb rb : option Z) (blocking grant grant_reply : bool) (badge : Z) :
  sched_inv (k_sst s) -> ep_at s ep (ERecv (d :: l)) -> a <> d ->
  tcbs (k_sst s) !! a = Some ta -> tcbs (k_sst s) !! d = Some td ->
  get_fault_type (tcbFault ta) = Ok NullFault -> tcbArch ta !! 1%nat = Some w ->
  buffers_ready s a d sb rb (msg_len w) -> grant = false \/ bf_get mi_extraCaps [w] = 0 ->
  wp (send_ipc ep a blocking false grant badge grant_reply) (fun _ s' =>
    sched_inv (k_sst s') /\ ep_at s' ep (recv_abs l) /\ delivered s s' a d sb rb w badge /\
    exists t', tcbs (k_sst s') !! d = Some t' /\ get_state t' = Ok ThreadStateRunning) s.
Proof.
  intros Hi (we & Hwe & Hep) Hne Ha Hd Hfl Hw Hb Hg. pose proof Hep as (_ & Hst & _ & _ & [Eq _]).
  unfold send_ipc. apply wp_bind. eapply wp_ep_state_of; [exact Hwe|exact Hst|]. cbn [ep_tag].
  apply wp_bind. eapply wp_ep_get; [exact Hwe|]. cbv zeta.
  assert (head (ep_get_queue we) = d) as -> by by rewrite Eq.
  apply wp_bind, wp_assert.
  { rewrite bool_decide_false; [done|]. intros ->. by rewrite (sched_inv_null _ Hi) in Hd. }
  eapply wp_pop; [done|exact Hwe|exact Hep|done|]. intros x e w' Hf Hix He Hew.
  apply wp_bind. eapply wp_transfer; [done..|]. intros r m s' Es Hi' Hsame Hdel.
  destruct (tcbs (k_sst s') !! d) as [t1|] eqn:Ht1.
  2: { exfalso. destruct Hdel as [Hb1 _ _]. unfold reg_of in Hb1. by rewrite Ht1 in Hb1. }
  apply wp_bind. eapply wp_thread; [exact Ht1|].
  cbn [when]. apply wp_skip_end. eapply wp_run; [done|exact Ht1|]. intros y t' Hiy Hey Ht' Hrun Harch.
  split; [done|]. split; [|split; [|by eauto]].
  - exists w'. split; [subst s'; exact He|]. eapply words_ext; [|exact Hew]. by eapply same_ep_trans.
  - eapply delivered_ext; [exact Hdel|done|done|intros i; apply Harch|done].
Qed.

(** What becomes of the sender [ta], whose message is taken by [d]: after a
    plain send it runs again; after a call it waits for the reply that [d] got the
    capability to, or is inactive when neither right to grant came with the call. *)
Definition sender_after (s s' : kst) (a d : Z) (grant : bool) (ta : tcb_t) (l1 l2 : list Z) : Prop :=
  exists t', tcbs (k_sst s') !! a = Some t' /\
    if decide (ts_get blocking_ipc_is_call ta = 0) then get_state t' = Ok ThreadStateRunning /\ k_slots s' = k_slots s
    else if decide (ts_get blocking_ipc_can_grant ta = 0 /\ ts_get blocking_ipc_can_grant_reply ta = 0)
    then get_state t' = Ok ThreadStateInactive /\ k_slots s' = k_slots s
    else get_state t' = Ok ThreadStateBlockedOnReply /\ can_reply (k_slots s) (k_slots s') a d grant l1 l2.

Section taken.
Implicit Types (s : kst) (a d : Z) (t : tcb_t) (l : list Z).
(** The end of a receive, once the message is transferred. *)
Lemma wp_sender_after s0 s a d t ta (grant : bool) l1 l2 (Q : unit -> kst -> Prop) :
  sched_inv (k_sst s) -> tcbs (k_sst s) !! a = Some t -> tcbState t = tcbState ta -> k_slots s = k_slots s0 ->
  (ts_get blocking_ipc_is_call ta <> 0 -> reply_ready (k_slots s) a d l1 l2) ->
  (forall x h, let s' := set_k_slots h (set_k_sst x s) in
    sched_inv x -> same_ep (k_sst s) x -> (forall b i, reg_of s' b i = reg_of s b i) ->
    sender_after s0 s' a d grant ta l1 l2 -> Q tt s') ->
  wp (s ← thread a;
      if ts_get blocking_ipc_is_call s <>w 0 then
        if ((ts_get blocking_ipc_can_grant ta <>w 0) || (ts_get blocking_ipc_can_grant_reply ta <>w 0))%bool
        then setup_caller_cap d a grant else set_state a ThreadStateInactive
      else set_state a ThreadStateRunning ;; on_sst (possible_switch_to a)) Q s.
Proof.
  intros Hi Ht Hst Hsl Hr HQ. apply wp_bind. eapply wp_thread; [exact Ht|].
  assert (forall f, ts_get f t = ts_get f ta) as Hts by (intros f; unfold ts_get; by rewrite Hst).
  assert (forall x, set_k_slots (k_slots s) (set_k_sst x s) = set_k_sst x s) as Hid by by destruct s.
  rewrite Hts. unfold sender_after in HQ. destruct (decide (ts_get blocking_ipc_is_call ta = 0)) as [E|Hcall].
  - rewrite bool_decide_true by done. cbn [negb]. eapply wp_run; [done|exact Ht|].
    intros x t' Hx He Ht' Hs Hreg. rewrite <- Hid. apply HQ; [done|done|by intros; rewrite Hid|].
    exists t'. by split_and!.
  - rewrite (bool_decide_false (_ = 0)) by done. cbn [negb].
    destruct (decide (ts_get blocking_ipc_can_grant ta = 0 /\ ts_get blocking_ipc_can_grant_reply ta = 0)) as [[E1 E2]|Hg].
    + rewrite E1, E2, bool_decide_true by done. cbn [negb orb].
      eapply wp_settle; [done|exact Ht|]. intros x t' Hx He Ht' Hs Hreg. rewrite <- Hid.
      apply HQ; [done|done|by intros; rewrite Hid|]. exists t'. by split_and!.
    + assert (((ts_get blocking_ipc_can_grant ta <>w 0) || (ts_get blocking_ipc_can_grant_reply ta <>w 0))%bool = true) as ->.
      { apply orb_true_iff. rewrite !negb_true_iff, !bool_decide_eq_false.
        destruct (decide (ts_get blocking_ipc_can_grant ta = 0)); tauto. }
      eapply wp_setup_caller; [done|exact Ht|by apply Hr|].
      intros x t' h Hx He Ht' Hs Hreg Hc. apply HQ; [done|done|done|].
      exists t'. split; [done|]. split; [done|]. by rewrite <- Hsl.
Qed.
End taken.

(** C9: a receive from an endpoint where a thread waits to send, by a thread
    that has no signal pending, takes the message of the first sender, which is
    not a fault and brings no capabilities: the sender leaves the list; the
    receiver finds the words of its message, its label and the badge of the send.
    A sender that made no call runs again.  One that called waits for the reply,
    and the receiver's caller slot holds the capability to reply, derived from
    the sender's reply capability, with the right to grant exactly when the
    receiver has it; when the call came without any right to grant, the sender
    becomes inactive and no slot changes. *)
Theorem receive_ipc_takes {D : CSpaceDeps} (s : kst) (ep a d : Z) (l : list Z) (ta td : tcb_t) (w : Z)
    (sb rb : option Z) (blocking grant : bool) (l1 l2 : list Z) :
  sched_inv (k_sst s) -> ep_at s ep (ESend (a :: l)) -> a <> d -> no_signal s td ->
  tcbs (k_sst s) !! a = Some ta -> tcbs (k_sst s) !! d = Some td ->
  (ts_get blocking_ipc_is_call ta <> 0 -> reply_ready (k_slots s) a d l1 l2) ->
  get_fault_type (tcbFault ta) = Ok NullFault -> tcbArch ta !! 1%nat = Some w ->
  buffers_ready s a d sb rb (msg_len w) ->
  ts_get blocking_ipc_can_grant ta = 0 \/ bf_get mi_extraCaps [w] = 0 ->
  wp (receive_ipc ep d blocking grant) (fun _ s' =>
    sched_inv (k_sst s') /\ ep_at s' ep (send_abs l) /\
    delivered s s' a d sb rb w (ts_get blocking_ipc_badge ta) /\
    sender_after s s' a d grant ta l1 l2) s.
Proof.
  intros Hi (we & Hwe & Hep) Hne Hsig Ha Hd Hcall Hfl Hw Hb Hg. pose proof Hep as (_ & Hst & _ & _ & [Eq _]).
  assert (a <> 0) as Ha0 by (intros ->; by rewrite (sched_inv_null _ Hi) in Ha).
  unfold receive_ipc. apply wp_bind. eapply wp_no_signal; [exact Hd|done|].
  apply wp_bind. eapply wp_ep_state_of; [exact Hwe|exact Hst|]. cbn [ep_tag].
  apply wp_bind. eapply wp_ep_get; [exact Hwe|]. cbv zeta.
  assert (head (ep_get_queue we) = a) as Eh by by rewrite Eq.
  apply wp_bind, wp_assert; [unfold queue_empty; by rewrite Eh, bool_decide_false|].
  rewrite Eh. apply wp_bind, wp_bind, wp_assert; [by rewrite bool_decide_false|]. apply wp_ret.
  eapply wp_pop; [done|exact Hwe|exact Hep|done|]. intros x e w' Hf Hix He Hew.
  destruct (ep_frame_is_Some _ _ a Hf ltac:(by eauto)) as [t1 Ht1].
  assert (tcbState t1 = tcbState ta) as Hstate.
  { destruct (ep_frame_thread _ _ _ _ Hf Ht1) as (t0 & Ht0 & E). rewrite Ha in Ht0. injection Ht0 as <-.
    by apply strip_sched in E as (_ & _ & E & _). }
  apply wp_bind. eapply wp_thread; [exact Ht1|]. cbv zeta.
  assert (forall f, ts_get f t1 = ts_get f ta) as Hts by (intros f; unfold ts_get; by rewrite Hstate). rewrite !Hts.
  apply wp_bind. eapply wp_transfer; [done..| |].
  { destruct Hg as [->|Hg]; [left|by right]. by rewrite bool_decide_true. }
  intros r m s' Es Hi' Hsame Hdel.
  assert (tcbs (k_sst s') !! a = Some t1) as Ht1' by (subst s'; cbn; by rewrite lookup_alter_ne).
  assert (k_slots s' = k_slots s) as Hsl by by subst s'.
  eapply (wp_sender_after s s'); [done|exact Ht1'|exact Hstate|exact Hsl|by rewrite Hsl|].
  intros y h s2 Hiy Hey Harch Hafter. split; [done|]. split; [|split; [|done]].
  - exists w'. split; [subst s2 s'; exact He|]. eapply words_ext; [|exact Hew]. by eapply same_ep_trans.
  - eapply delivered_ext; [exact Hdel|done|done|exact (Harch d)|done].
Qed.

(** ** Instances

    [tA] has a message of six words: four in its registers, two in its buffer
    of one page; [tB] has a buffer as well.  [tA] has its reply capability, [tB]
    an empty slot for a caller. *)
Definition bufA : Z := 0xffffff8000100000.
Definition bufB : Z := 0xffffff8000101000.
Definition w_info : Z := 7 * 2 ^ 12 + 6.
Definition w_regs : list Z := [0; w_info; 10; 11; 12; 13] ++ replicate 31 0.
Definition w_frame (p : Z) : cte_t := Cte (new_frame_cap 0 1 0 0 0 p) mdb_node_default.
Definition w_mstate : kst :=
  set_k_slots (<[get_cspace tA tcbBuffer := w_frame bufA]> (<[get_cspace tB tcbBuffer := w_frame bufB]>
    (<[get_cspace tA tcbReply := Cte (new_reply_cap 1 1 tA) (mdb_node_new 0 1 1 0)]> (<[get_cspace tB tcbCaller := cte_default]> ∅))))
    (set_k_mem (<[bufA + 40 := 14]> (<[bufA + 48 := 15]> (<[bufB + 40 := 0]> (<[bufB + 48 := 0]> ∅))))
      (put_regs tA w_regs w_estate)).
Definition w_mrecv : kst := after (receive_ipc eA tB true false) w_mstate.
(** A call. *)
Definition w_msend : kst := after (send_ipc eA tA true true true 5 true) w_mstate.

Lemma w_mstate_inv : sched_inv (k_sst w_mstate) /\ ep_at w_mstate eA EIdle.
Proof.
  split; [apply (sched_inv_put_regs w_estate tA w_regs (w_tcb 200) w_sched_inv); vm_compute; reflexivity|].
  exists [0; 0]. split; [by_decide|]. split_and!; [done|vm_compute; reflexivity|done|by left|].
  split; [vm_compute; reflexivity|apply dlist_nil].
Qed.
Lemma w_mrecv_inv : sched_inv (k_sst w_mrecv) /\ ep_at w_mrecv eA (ERecv [tB]).
Proof.
  destruct w_mstate_inv as [Hi He].
  assert (receive_ipc eA tB true false w_mstate = Ok (tt, w_mrecv)) as E by (vm_compute; reflexivity).
  eapply wp_Ok in E; [|apply (wp_receive_blocks w_mstate eA tB (w_tcb 7) []);
    [done|done|vm_compute; reflexivity|left; vm_compute; reflexivity|by apply not_elem_of_nil|exact (proj2 w_ptr46)]].
  split; apply E.
Qed.
Lemma w_msend_inv : sched_inv (k_sst w_msend) /\ ep_at w_msend eA (ESend [tA]).
Proof.
  destruct w_mstate_inv as [Hi He].
  assert (send_ipc eA tA true true true 5 true w_mstate = Ok (tt, w_msend)) as E by (vm_compute; reflexivity).
  eapply wp_Ok in E; [|eapply (wp_send_blocks w_mstate eA tA _ []);
    [done|done|vm_compute; reflexivity|by apply not_elem_of_nil|exact (proj1 w_ptr46)|by_decide]].
  split; apply E.
Qed.
Lemma w_apart : buffer_in bufA /\ buffer_in bufB /\ buffers_apart bufA bufB.
Proof. unfold buffer_in, buffers_apart, bufA, bufB. split_and!; lia. Qed.
Lemma w_msg_words s : k_mem s = k_mem w_mstate -> forall a b, Some bufA = Some a -> Some bufB = Some b ->
    buffer_in a /\ buffer_in b /\ buffers_apart a b /\
    forall i, msgRegisterNum <= i < 6 ->
      is_Some (k_mem s !! (a + 8 * (i + 1))) /\ is_Some (k_mem s !! (b + 8 * (i + 1))).
Proof.
  intros -> a b [= <-] [= <-]. destruct w_apart as (? & ? & ?). split_and!; try done.
  change msgRegisterNum with 4. intros i Hi. assert (i = 4 \/ i = 5) as [-> | ->] by lia; split; by_decide.
Qed.
Lemma w_ready s : k_mem s = k_mem w_mstate ->
  lookup_ipc_buffer tA false s = Ok (Some bufA, s) -> lookup_mut_ipc_buffer tB true s = Ok (Some bufB, s) ->
  buffers_ready s tA tB (Some bufA) (Some bufB) (msg_len w_info).
Proof. intros Hm H1 H2. split; [done|done|]. change (msg_len w_info) with 6. by apply w_msg_words. Qed.

Lemma send_ipc_delivers_witness :
  wp (send_ipc eA tA true false true 5 false) (fun _ s' =>
    sched_inv (k_sst s') /\ ep_at s' eA (recv_abs []) /\
    delivered w_mrecv s' tA tB (Some bufA) (Some bufB) w_info 5 /\
    exists t', tcbs (k_sst s') !! tB = Some t' /\ get_state t' = Ok ThreadStateRunning) w_mrecv.
Proof.
  eapply (send_ipc_delivers w_mrecv eA tA tB [] _ _ w_info (Some bufA) (Some bufB) true true false 5);
    [exact (proj1 w_mrecv_inv)|exact (proj2 w_mrecv_inv)|by_decide|vm_compute; reflexivity|vm_compute; reflexivity|
     vm_compute; reflexivity|vm_compute; reflexivity|apply w_ready; vm_compute; reflexivity|right; vm_compute; reflexivity].
Defined.
(** [tA] as it waits to send. *)
Definition w_sender : tcb_t := default tcb_zero (tcbs (k_sst w_msend) !! tA).
Lemma w_reply_ready : reply_ready (k_slots w_msend) tA tB [] [].
Proof.
  split; [apply slots_okb_ok; by_compute|unfold mdb; by_decide| |].
  - eexists. split; [vm_compute; reflexivity|]. by_compute.
  - eexists. split; [vm_compute; reflexivity|]. split_and!; by_compute.
Qed.
Lemma receive_ipc_takes_witness :
  (ts_get blocking_ipc_badge w_sender = 5 /\ ts_get blocking_ipc_is_call w_sender = 1) /\
  wp (receive_ipc eA tB true true) (fun _ s' =>
    sched_inv (k_sst s') /\ ep_at s' eA (send_abs []) /\
    delivered w_msend s' tA tB (Some bufA) (Some bufB) w_info (ts_get blocking_ipc_badge w_sender) /\
    sender_after w_msend s' tA tB true w_sender [] []) w_msend.
Proof.
  split; [vm_compute; split; reflexivity|].
  apply (receive_ipc_takes w_msend eA tA tB [] w_sender (w_tcb 7) w_info (Some bufA) (Some bufB) true true [] []);
    [exact (proj1 w_msend_inv)|exact (proj2 w_msend_inv)|by_decide|left; vm_compute; reflexivity|
     vm_compute; reflexivity|vm_compute; reflexivity|intros _; exact w_reply_ready|vm_compute; reflexivity|
     vm_compute; reflexivity|apply w_ready; vm_compute; reflexivity|right; vm_compute; reflexivity].
Defined.
