(* ===== verification/Keep.v ===== *)
(** * What computations keep

    [kp I m]: whenever [m] returns from a state in [I], it returns to a state
    in [I]; [kpto I J m] ends in [J].  The rules follow the syntax of a
    computation, so that the proof for an operation of the kernel is a search
    through the hints for its parts.  The invariant is [KI]: that of the
    scheduler with a fixed set of threads and of words of plain memory ([dims]),
    and with the capability slots as they are where that is asked for.  Here are
    the rules, the operations of the scheduler and those on one thread. *)

From stdpp Require Import base numbers gmap list.
From S2P Require Import Prelude Bitfield Common Cap DList CSpace Sched Bitmap SchedProps SchedInv EpQueue State Vspace Threads Delete Ipc NtfnProps.
Local Open Scope Z_scope.
Local Open Scope krn_scope.

Definition kp {S A} (I : S -> Prop) (m : ST S A) : Prop := forall s r s', I s -> m s = Ok (r, s') -> I s'.

(** From a state in [I] to a state in [J]. *)
Definition kpto {S A} (I J : S -> Prop) (m : ST S A) : Prop := forall s r s', I s -> m s = Ok (r, s') -> J s'.

Create HintDb keep.

(** ** Rules *)
Section rules.
Context {S : Type} (I : S -> Prop).

Lemma kp_reads {A} (m : ST S A) : reads m -> kp I m.
Proof. intros Hr s r s' Hs E. by rewrite (Hr _ _ _ E). Qed.
Lemma kp_bind {A B} (m : ST S A) (f : A -> ST S B) : kp I m -> (forall a, kp I (f a)) -> kp I (m ≫= f).
Proof. intros Hm Hf s r s' Hs (a & s1 & E1 & E2)%st_bind_inv. eapply Hf; [|exact E2]. by eapply Hm. Qed.
(** Knowing something of what is read. *)
Lemma kp_bind_reads {A B} (m : ST S A) (f : A -> ST S B) (R : A -> Prop) :
  reads m -> (forall s a, I s -> m s = Ok (a, s) -> R a) -> (forall a, R a -> kp I (f a)) -> kp I (m ≫= f).
Proof.
  intros Hm HR Hf s r s' Hs (a & s1 & E1 & E2)%st_bind_inv. pose proof (Hm _ _ _ E1) as ->.
  eapply Hf; [by eapply HR|done|exact E2].
Qed.
Lemma kp_ret {A} (a : A) : kp I (mret a).
Proof. apply kp_reads, reads_ret. Qed.
Lemma kp_skip : kp I skip.
Proof. apply kp_ret. Qed.
Lemma kp_gets {A} (f : S -> A) : kp I (gets f).
Proof. apply kp_reads, reads_gets. Qed.
Lemma kp_lift {A} (r : res A) : kp I (lift r).
Proof. apply kp_reads, reads_lift. Qed.
Lemma kp_assert (b : bool) : kp I (assert_m b).
Proof. apply kp_reads, reads_assert. Qed.
Lemma kp_panic {A} : kp I (panic (A := A)).
Proof. done. Qed.
Lemma kp_ub {A} : kp I (ub (A := A)).
Proof. done. Qed.
Lemma kp_no_fuel {A} : kp I (no_fuel (A := A)).
Proof. done. Qed.
Lemma kp_modify (f : S -> S) : (forall s, I s -> I (f s)) -> kp I (modify f).
Proof. intros Hf s r s' Hs [= _ <-]. auto. Qed.
Lemma kp_when (b : bool) (m : ST S unit) : kp I m -> kp I (when b m).
Proof. intros Hm. destruct b; [done|apply kp_skip]. Qed.
Lemma kp_for_range n lo (body : Z -> ST S unit) : (forall i, kp I (body i)) -> kp I (for_range n lo body).
Proof.
  intros Hb. revert lo. induction n as [|n IH]; intros lo; cbn; [apply kp_skip|]. by apply kp_bind; [|intros []].
Qed.
(** From total correctness. *)
Lemma kp_wp {A} (m : ST S A) (Q : A -> S -> Prop) :
  (forall s, I s -> wp m Q s) -> (forall a s', Q a s' -> I s') -> kp I m.
Proof. intros Hw HQ s r s' Hs E. apply (HQ r). eapply (wp_Ok _ _ _ _ _ E). by apply Hw. Qed.
End rules.
Section into.
Context {S : Type} (I J : S -> Prop).
Lemma kpto_kp {A} (m : ST S A) : kp I m -> (forall s, I s -> J s) -> kpto I J m.
Proof. intros Hm HJ s r s' Hs E. by eapply HJ, Hm. Qed.
Lemma kpto_pre {A} (I' : S -> Prop) (m : ST S A) : (forall s, I s -> I' s) -> kpto I' J m -> kpto I J m.
Proof. intros HI Hm s r s' Hs E. by eapply Hm; [apply HI|]. Qed.
Lemma kpto_bind {A B} (m : ST S A) (f : A -> ST S B) : kp I m -> (forall a, kpto I J (f a)) -> kpto I J (m ≫= f).
Proof. intros Hm Hf s r s' Hs (a & s1 & E1 & E2)%st_bind_inv. eapply Hf; [|exact E2]. by eapply Hm. Qed.
Lemma kpto_then {A B} (m : ST S A) (f : A -> ST S B) : kpto I J m -> (forall a, kp J (f a)) -> kpto I J (m ≫= f).
Proof. intros Hm Hf s r s' Hs (a & s1 & E1 & E2)%st_bind_inv. eapply Hf; [|exact E2]. by eapply Hm. Qed.
Lemma kpto_seq {A B} (K : S -> Prop) (m : ST S A) (f : A -> ST S B) :
  kpto I K m -> (forall a, kpto K J (f a)) -> kpto I J (m ≫= f).
Proof. intros Hm Hf s r s' Hs (a & s1 & E1 & E2)%st_bind_inv. eapply Hf; [|exact E2]. by eapply Hm. Qed.
(** Knowing something of the value. *)
Lemma kpto_known {A B} (m : ST S A) (f : A -> ST S B) (R : A -> Prop) :
  kp I m -> (forall s a s', I s -> m s = Ok (a, s') -> R a) -> (forall a, R a -> kpto I J (f a)) -> kpto I J (m ≫= f).
Proof.
  intros Hm HR Hf s r s' Hs (a & s1 & E1 & E2)%st_bind_inv.
  eapply Hf; [by eapply HR|by eapply Hm|exact E2].
Qed.
End into.
Lemma kp_and {S A} (I J : S -> Prop) (m : ST S A) : kp I m -> kp J m -> kp (fun s => I s /\ J s) m.
Proof. intros HI HJ s r s' [Hi Hj] E. split; [by eapply HI|by eapply HJ]. Qed.

#[export] Hint Resolve kp_ret kp_skip kp_gets kp_lift kp_assert kp_panic kp_ub kp_no_fuel : keep.

(** Follow the syntax; an operation with a hint is not opened. *)
Ltac kp_step :=
  first [ solve [auto with keep nocore]
        | lazymatch goal with
          | |- kp _ (_ ≫= _) => apply kp_bind; [|intros ?]
          | |- kp _ (when _ _) => apply kp_when
          | |- kp _ (for_range _ _ _) => apply kp_for_range; intros ?
          | |- kp _ (match _ with _ => _ end) => case_match
          | |- kp _ (let _ := _ in _) => cbv zeta
          end ].
Ltac kp := repeat kp_step.

(** ** The scheduler *)
(** What stays as it is: where the threads are, which words are plain memory,
    and, when [slots_are] asks for it, the capability slots. *)
Class dims := Dims { thr_set : gset Z; mem_set : gset Z; slots_are : gmap Z cte_t -> Prop }.
(** Nothing is asked of the slots. *)
Class Loose (dm : dims) := loose m : slots_are m.

(** What the kernel relies on: the invariant of the scheduler, an idle thread,
    maximum controlled priorities that are priorities, and the only domain. *)
Record threads_ok {dm : dims} (s : sst) : Prop := {
  to_idle : is_Some (tcbs s !! ksIdleThread (gl s));
  to_mcp : forall a t, tcbs s !! a = Some t -> tcbMCP t <= 255;
  to_dom : dom (tcbs s) = thr_set;
  to_cur_domain : ksCurDomain (gl s) = 0 }.
Definition kinv {dm : dims} (s : sst) : Prop := sched_inv s /\ threads_ok s.

Section sched_ops.
Context {dm : dims}.
Implicit Types (a p n : Z) (f : tcb_t -> tcb_t).

Lemma reads_tcb_get a : reads (tcb_get a).
Proof. unfold tcb_get. reads_k. Qed.
Lemma tcb_get_Some a s t s' : tcb_get a s = Ok (t, s') -> tcbs s !! a = Some t /\ s' = s.
Proof.
  intros E. pose proof (reads_tcb_get _ _ _ _ E) as ->. split; [|done]. unfold tcb_get, on_tcbs, load in E.
  destruct (tcbs s !! a); [|discriminate E]. by apply Ok_inv in E as [-> _].
Qed.
Lemma tcb_mod_Some a f s u s' :
  tcb_mod a f s = Ok (u, s') -> exists t, tcbs s !! a = Some t /\ s' = Sst (<[a := f t]> (tcbs s)) (gl s).
Proof.
  unfold tcb_mod, on_tcbs, store_with. destruct (tcbs s !! a) as [t|]; [|done]. intros [_ <-]%Ok_inv. eauto.
Qed.
Lemma tcb_mod_ref_Some a f s u s' : tcb_mod_ref a f s = Ok (u, s') -> tcb_mod a f s = Ok (u, s').
Proof.
  unfold tcb_mod_ref, tcb_mod, on_tcbs, store_ref, mbind, st_bind, assert_m. by case_bool_decide.
Qed.

Lemma to_mod a f : (forall t, tcbMCP t <= 255 -> tcbMCP (f t) <= 255) -> kp threads_ok (tcb_mod a f).
Proof.
  intros Hf s u s' [Hi Hm Hd Hc] (t & Ht & ->)%tcb_mod_Some.
  split; cbn; [by apply lookup_insert_is_Some'; right| |by rewrite dom_insert_lookup_L|done].
  intros b t' Hb. destruct (decide (b = a)) as [->|].
  - rewrite lookup_insert_eq in Hb. injection Hb as <-. by eapply Hf, Hm.
  - rewrite lookup_insert_ne in Hb by done. by eapply Hm.
Qed.
Lemma to_mod_ref a f : (forall t, tcbMCP t <= 255 -> tcbMCP (f t) <= 255) -> kp threads_ok (tcb_mod_ref a f).
Proof. intros Hf s u s' Hs E%tcb_mod_ref_Some. by eapply to_mod. Qed.
Lemma to_gl (g : sched_t -> sched_t) : (forall x, ksIdleThread (g x) = ksIdleThread x) -> (forall x, ksCurDomain x = 0 -> ksCurDomain (g x) = 0) -> kp threads_ok (gl_mod g).
Proof. intros Hg Hc. apply kp_modify. intros s [Hi Hm Hd H0]. split; cbn; [by rewrite Hg|done..|by apply Hc]. Qed.
End sched_ops.
#[export] Hint Extern 1 (kp _ (tcb_get _)) => apply kp_reads, reads_tcb_get : keep.
#[export] Hint Extern 1 (kp _ (gl_get _)) => apply kp_gets : keep.

(** One operation of the scheduler: its parts change one thread or the globals. *)
Ltac to_parts :=
  repeat first
    [ apply to_mod; intros ? ?; assumption | apply to_mod_ref; intros ? ?; assumption
    | apply to_gl; [intros ?; reflexivity|intros ? ?; assumption] | kp_step ].

Section threads_keep.
Context {dm : dims}.
Implicit Types (a p n : Z).
Lemma to_enqueue a : kp threads_ok (sched_enqueue a).
Proof. unfold sched_enqueue, get_sched_queue, mod_sched_queue, addToBitmap, upd_l1, upd_l2. to_parts. Qed.
Lemma to_append a : kp threads_ok (sched_append a).
Proof. unfold sched_append, get_sched_queue, mod_sched_queue, addToBitmap, upd_l1, upd_l2. to_parts. Qed.
Lemma to_dequeue a : kp threads_ok (sched_dequeue a).
Proof.
  unfold sched_dequeue, get_sched_queue, mod_sched_queue, removeFromBitmap, upd_l1, upd_l2, get_l2. to_parts.
Qed.
Lemma to_action v : kp threads_ok (set_ks_scheduler_action v).
Proof. unfold set_ks_scheduler_action. to_parts. Qed.
Hint Resolve to_enqueue to_append to_dequeue to_action : keep.
Lemma to_reschedule : kp threads_ok rescheduleRequired.
Proof. unfold rescheduleRequired, get_ks_scheduler_action. to_parts. Qed.
Hint Resolve to_reschedule : keep.
Lemma to_schedule_tcb a : kp threads_ok (schedule_tcb a).
Proof. unfold schedule_tcb, get_currenct_thread_unsafe, get_ks_scheduler_action. to_parts. Qed.
Lemma to_possible_switch_to a : kp threads_ok (possible_switch_to a).
Proof. unfold possible_switch_to, get_ks_scheduler_action. to_parts. Qed.
Hint Resolve to_schedule_tcb to_possible_switch_to : keep.
Lemma to_set_thread_state a st : kp threads_ok (set_thread_state a st).
Proof. unfold set_thread_state. to_parts. Qed.
Hint Resolve to_set_thread_state : keep.
Lemma to_is_current a : kp threads_ok (is_current a).
Proof. unfold is_current, get_currenct_thread. to_parts. Qed.
Hint Resolve to_is_current : keep.
Lemma to_set_priority a p : kp threads_ok (set_priority a p).
Proof. unfold set_priority. to_parts. Qed.
Lemma to_set_domain a p : kp threads_ok (set_domain a p).
Proof. unfold set_domain. to_parts. Qed.
Lemma to_suspend a : kp threads_ok (suspend a).
Proof. unfold suspend. to_parts. Qed.
Lemma to_timerTick : kp threads_ok timerTick.
Proof. unfold timerTick, get_currenct_thread. to_parts. Qed.
Lemma to_nextDomain : kp threads_ok nextDomain.
Proof.
  unfold nextDomain. do 5 (apply kp_bind; [by to_parts|intros ?]).
  apply (kp_bind_reads _ _ _ (fun d => ds_domain d = 0)); [reads| |].
  - intros s d _ [E _]%lift_inv. unfold idx in E. case_decide; [|done].
    destruct (Z.to_nat _) as [|[|]]; [|done..]. by injection E as <-.
  - intros d Hd. apply kp_bind; [apply to_gl; by intros|intros ?]. to_parts.
Qed.
Lemma to_activateThread : kp threads_ok activateThread.
Proof. unfold activateThread, get_currenct_thread. to_parts. Qed.
Lemma to_ep_append q a : kp threads_ok (ep_append q a).
Proof. unfold ep_append. to_parts. Qed.
Lemma to_ep_dequeue q a : kp threads_ok (ep_dequeue q a).
Proof. unfold ep_dequeue. to_parts. Qed.
End threads_keep.

(** ** The invariant of the scheduler

    The theorems of [SchedInv.v] ask for an operand that is a thread; an
    operation that returns has read it. *)
Definition needs {A} (a : Z) (m : ST sst A) : Prop := forall s r s', m s = Ok (r, s') -> is_Some (tcbs s !! a).

Section needs.
Context {dm : dims}.
Implicit Types (a p n : Z).
Lemma needs_get a : needs a (tcb_get a).
Proof. intros s r s' [E _]%tcb_get_Some. by eexists. Qed.
Lemma needs_mod a f : needs a (tcb_mod a f).
Proof. intros s r s' (t & E & _)%tcb_mod_Some. by eexists. Qed.
Lemma needs_bind {A B} a (m : ST sst A) (f : A -> ST sst B) : needs a m -> needs a (m ≫= f).
Proof. intros Hm s r s' (x & s1 & E & _)%st_bind_inv. by eapply Hm. Qed.
Lemma needs_reads {A B} a (m : ST sst A) (f : A -> ST sst B) :
  reads m -> (forall x, needs a (f x)) -> needs a (m ≫= f).
Proof. intros Hm Hf s r s' (x & s1 & E & E')%st_bind_inv. apply Hm in E as ->. by eapply Hf. Qed.
Lemma needs_dequeue a : needs a (sched_dequeue a).
Proof. exact (needs_bind _ _ _ (needs_get a)). Qed.

Lemma kinv_op {A} (m : ST sst A) a :
  kp threads_ok m -> needs a m -> (forall s, sched_inv s -> is_Some (tcbs s !! a) -> wp m (fun _ => keeps s) s) ->
  kp kinv m.
Proof.
  intros Ht Hn Hw. apply (kp_and sched_inv); [|done]. intros s r s' Hs E.
  by destruct (wp_Ok _ _ _ _ _ E (Hw _ Hs (Hn _ _ _ E))).
Qed.
Lemma kinv_all {A} (m : ST sst A) :
  kp threads_ok m -> (forall s, sched_inv s -> wp m (fun _ => keeps s) s) -> kp kinv m.
Proof.
  intros Ht Hw. apply (kp_and sched_inv); [|done]. intros s r s' Hs E.
  by destruct (wp_Ok _ _ _ _ _ E (Hw _ Hs)).
Qed.

Lemma kinv_enqueue a : kp kinv (sched_enqueue a).
Proof. apply (kinv_op _ a); [apply to_enqueue|exact (needs_bind _ _ _ (needs_get a))|intros s; apply keeps_enqueue]. Qed.
Lemma kinv_append a : kp kinv (sched_append a).
Proof. apply (kinv_op _ a); [apply to_append|exact (needs_bind _ _ _ (needs_get a))|intros s; apply keeps_append]. Qed.
Lemma kinv_dequeue a : kp kinv (sched_dequeue a).
Proof.
  apply (kinv_op _ a); [apply to_dequeue|apply needs_dequeue|]. intros s Hs Ha.
  eapply wp_mono; [by apply keeps_dequeue|]. by intros ? ? [? _].
Qed.
Lemma kinv_reschedule : kp kinv rescheduleRequired.
Proof. apply kinv_all; [apply to_reschedule|intros s; apply keeps_reschedule]. Qed.
Lemma kinv_schedule_tcb a : kp kinv (schedule_tcb a).
Proof.
  apply kinv_all; [apply to_schedule_tcb|]. intros s Hs. destruct (decide (a = ksCurThread (gl s))) as [->|Hne].
  - apply keeps_schedule_tcb; [done|apply (si_cur _ Hs)].
  - unfold schedule_tcb, get_currenct_thread_unsafe, get_ks_scheduler_action, gl_get. wp_steps.
    rewrite bool_decide_false by done. by apply keeps_refl.
Qed.
Lemma kinv_set_thread_state a st : kp kinv (set_thread_state a st).
Proof.
  apply (kinv_op _ a); [apply to_set_thread_state|exact (needs_bind _ _ _ (needs_mod a _))|].
  intros s. apply keeps_set_thread_state.
Qed.
Lemma kinv_possible_switch_to a : kp kinv (possible_switch_to a).
Proof.
  apply (kinv_op _ a); [apply to_possible_switch_to| |intros s; apply keeps_possible_switch_to].
  apply needs_reads; [apply reads_gets|intros ?]. exact (needs_bind _ _ _ (needs_get a)).
Qed.
Lemma kinv_set_priority a p : 0 <= p <= 255 -> kp kinv (set_priority a p).
Proof.
  intros Hp. apply (kinv_op _ a); [apply to_set_priority|exact (needs_bind _ _ _ (needs_dequeue a))|].
  intros s Hs Ha. apply keeps_set_priority; [done|done|lia].
Qed.
Lemma kinv_set_domain a : kp kinv (set_domain a 0).
Proof.
  apply (kinv_op _ a); [apply to_set_domain|exact (needs_bind _ _ _ (needs_dequeue a))|]. intros s. apply keeps_set_domain.
Qed.
Lemma kinv_suspend a : kp kinv (suspend a).
Proof. apply (kinv_op _ a); [apply to_suspend|exact (needs_bind _ _ _ (needs_get a))|intros s; apply keeps_suspend]. Qed.
Lemma kinv_timerTick : kp kinv timerTick.
Proof. apply kinv_all; [apply to_timerTick|intros s; apply keeps_timerTick]. Qed.
Lemma kinv_nextDomain : kp kinv nextDomain.
Proof. apply kinv_all; [apply to_nextDomain|intros s; apply keeps_nextDomain]. Qed.
Lemma activate_may_run s r s' : activateThread s = Ok (r, s') ->
  exists t st, tcbs s !! ksCurThread (gl s) = Some t /\ get_state t = Ok st /\
    (st = ThreadStateRunning \/ st = ThreadStateRestart \/ st = ThreadStateIdleThreadState).
Proof.
  intros (c & s1 & Ec & (t & s2 & [Ht ->]%tcb_get_Some & (st & s3 & [Hst ->]%lift_inv & E)%st_bind_inv)%st_bind_inv)%st_bind_inv.
  unfold get_currenct_thread, gl_get in Ec. inv_ok. exists t, st. split; [done|]. split; [done|].
  destruct st; auto; discriminate E.
Qed.
Lemma kinv_activateThread : kp kinv activateThread.
Proof.
  apply (kp_and sched_inv); [|apply to_activateThread]. intros s r s' Hs E.
  destruct (activate_may_run _ _ _ E) as (t & st & Ht & Hst & H).
  by destruct (wp_Ok _ _ _ _ _ E (keeps_activateThread s t st Hs Ht Hst H)).
Qed.
End needs.

(** ** Changes of one thread *)
Section mods.
Context {dm : dims}.
Implicit Types (a v : Z) (f : tcb_t -> tcb_t).

Lemma kinv_mod a f :
  (forall t, tcb_ok t -> thr_ok t -> tcbSchedNext (f t) = tcbSchedNext t /\ tcbSchedPrev (f t) = tcbSchedPrev t /\
    queued (f t) = queued t /\ tcbPriority (f t) = tcbPriority t /\ tcb_ok (f t) /\ thr_ok (f t)) ->
  (forall t, tcbMCP t <= 255 -> tcbMCP (f t) <= 255) -> kp kinv (tcb_mod a f).
Proof.
  intros Hf Hm. apply (kinv_op _ a); [by apply to_mod|apply needs_mod|]. intros s Hs Ha.
  apply keeps_mod; [done|done|]. intros t _. apply Hf.
Qed.
Lemma kinv_mod_ref a f : kp kinv (tcb_mod a f) -> kp kinv (tcb_mod_ref a f).
Proof. intros Hf s u s' Hs E%tcb_mod_ref_Some. by eapply Hf. Qed.
(** A field that neither the queues nor the state of the thread use. *)
Definition plain f : Prop := forall t,
  tcbArch (f t) = tcbArch t /\ tcbState (f t) = tcbState t /\ domain (f t) = domain t /\
  tcbPriority (f t) = tcbPriority t /\ tcbSchedNext (f t) = tcbSchedNext t /\ tcbSchedPrev (f t) = tcbSchedPrev t.
Lemma kinv_plain a f : plain f -> (forall t, tcbMCP t <= 255 -> tcbMCP (f t) <= 255) -> kp kinv (tcb_mod a f).
Proof.
  intros Hf Hm. apply (kinv_op _ a); [by apply to_mod|apply needs_mod|]. intros s. by apply keeps_field.
Qed.
Lemma kinv_arch a (r : list Z) : length r = 37%nat -> kp kinv (tcb_mod a (set_tcbArch r)).
Proof. intros Hr. apply kinv_mod; [|done]. intros t (? & ? & ?) [? ?]. by split_and!. Qed.
Lemma kinv_ts a (fl : bitfield) v :
  wf_bf 3 fl = true -> disjoint_bf tcb_queued fl = true -> disjoint_bf ts_type fl = true ->
  kp kinv (tcb_mod a (ts_set fl v)).
Proof.
  intros Hw Hq Ht. apply kinv_mod; [|done]. intros t Ho [Hl Hs].
  destruct (mild_ts_set fl v Hw Hq t) as (? & ? & ? & ? & ? & ? & ?). split_and!; try done.
  - by apply tcb_ok_ts_set.
  - split; [done|]. by rewrite get_state_ts_other.
Qed.
Lemma kinv_ts_type a st : kp kinv (tcb_mod a (ts_set ts_type (ThreadState_to_usize st))).
Proof.
  apply kinv_mod; [|done]. intros t Ho [Hl Hs]. split_and!; try done; [apply queued_ts_type|by apply tcb_ok_ts_set|].
  split; [done|]. exists st. apply state_written, Ho.
Qed.
Lemma kinv_work (w : sched_t -> Z) : kp kinv (gl_mod (fun g => set_ksWorkUnits (w g) g)).
Proof.
  apply (kp_and sched_inv); [|by apply to_gl]. apply kp_modify. intros s Hs. apply (sched_inv_gl s); try done; apply Hs.
Qed.
End mods.

#[export] Hint Resolve kinv_enqueue kinv_append kinv_dequeue kinv_reschedule kinv_schedule_tcb kinv_set_thread_state
  kinv_possible_switch_to kinv_set_domain kinv_suspend kinv_timerTick kinv_nextDomain kinv_activateThread
  kinv_ts_type kinv_work : keep.
Ltac kinv_parts :=
  repeat first
    [ apply kinv_mod_ref | apply kinv_plain; [intros ?; by split_and!|intros ? ?; assumption] | kp_step ].

Section queues.
Context {dm : dims}.
Lemma kinv_ep_append q a : kp kinv (ep_append q a).
Proof. unfold ep_append. kinv_parts. Qed.
Lemma kinv_ep_dequeue q a : kp kinv (ep_dequeue q a).
Proof. unfold ep_dequeue. kinv_parts. Qed.
End queues.
#[export] Hint Resolve kinv_ep_append kinv_ep_dequeue : keep.

(** ** The state of the kernel *)
Definition at_sst {dm : dims} (P : sst -> Prop) (s : kst) : Prop :=
  P (k_sst s) /\ dom (k_mem s) = mem_set /\ slots_are (k_slots s).
Notation KI := (at_sst kinv).

Section kernel.
Context {dm : dims} (P : sst -> Prop).
Lemma kp_on_sst {A} (m : ST sst A) : kp P m -> kp (at_sst P) (on_sst m).
Proof. intros Hm s r s' [Hs Hk] (x & E & ->)%zoom_inv. split; [by eapply Hm|exact Hk]. Qed.
Lemma kp_on_slots {Hl : Loose dm} {A} (m : ST (gmap Z cte_t) A) : kp (at_sst P) (on_slots m).
Proof. intros s r s' (Hs & Hk & _) (x & E & ->)%zoom_inv. split_and!; [done|done|apply loose]. Qed.
Lemma kp_slots_read {A} (m : ST (gmap Z cte_t) A) : reads m -> kp (at_sst P) (on_slots m).
Proof. intros Hm. by apply kp_reads, reads_on_slots. Qed.
Lemma kp_on_eps {A} (m : ST (gmap Z (list Z)) A) : kp (at_sst P) (on_eps m).
Proof. by intros s r s' Hs (x & E & ->)%zoom_inv. Qed.
Lemma kp_on_ntfns {A} (m : ST (gmap Z (list Z)) A) : kp (at_sst P) (on_ntfns m).
Proof. by intros s r s' Hs (x & E & ->)%zoom_inv. Qed.
Lemma kp_word_get a : kp (at_sst P) (word_get a).
Proof. apply kp_reads, reads_on_mem, reads_load. Qed.
Lemma kp_word_set a v : kp (at_sst P) (word_set a v).
Proof.
  intros s r s' (Hs & Hk & Hl) (x & E & ->)%zoom_inv. unfold store_with in E.
  destruct (k_mem s !! a) as [w|] eqn:Ha; [|done]. apply Ok_inv in E as [_ <-].
  split_and!; [done|cbn; by rewrite dom_insert_lookup_L|done].
Qed.
Lemma kp_sys_get {A} (f : sys_t -> A) : kp (at_sst P) (sys_get f).
Proof. apply kp_gets. Qed.
Lemma kp_sys_mod f : kp (at_sst P) (sys_mod f).
Proof. by apply kp_modify. Qed.
Lemma kp_irq_get {A} (f : irq_t -> A) : kp (at_sst P) (irq_get f).
Proof. apply kp_gets. Qed.
Lemma kp_irq_mod f : kp (at_sst P) (irq_mod f).
Proof. by apply kp_modify. Qed.
Lemma kp_vm_get {A} (f : vm_t -> A) : kp (at_sst P) (vm_get f).
Proof. apply kp_gets. Qed.
Lemma kp_vm_mod f : kp (at_sst P) (vm_mod f).
Proof. by apply kp_modify. Qed.
Lemma kp_hw e : kp (at_sst P) (hw e).
Proof. apply kp_vm_mod. Qed.
Lemma kp_thread a : kp (at_sst P) (thread a).
Proof. apply kp_on_sst, kp_reads, reads_tcb_get. Qed.
Lemma kp_slot a : kp (at_sst P) (slot a).
Proof. apply kp_slots_read, reads_load. Qed.
Lemma kp_slot_mod {Hl : Loose dm} a f : kp (at_sst P) (slot_mod a f).
Proof. apply kp_on_slots. Qed.
Lemma kp_ep_get a : kp (at_sst P) (ep_get a).
Proof. apply kp_on_eps. Qed.
Lemma kp_ep_mod a f : kp (at_sst P) (ep_mod a f).
Proof. apply kp_on_eps. Qed.
Lemma kp_ntfn_get a : kp (at_sst P) (ntfn_get a).
Proof. apply kp_on_ntfns. Qed.
Lemma kp_ntfn_mod a f : kp (at_sst P) (ntfn_mod a f).
Proof. apply kp_on_ntfns. Qed.
Lemma kp_ref a : kp (at_sst P) (ref a).
Proof. unfold ref. kp. Qed.
Lemma kp_ptr_to_mut a : kp (at_sst P) (ptr_to_mut a).
Proof. unfold ptr_to_mut. kp. Qed.
Lemma kp_cur : kp P get_currenct_thread.
Proof. unfold get_currenct_thread. kp. Qed.
Lemma kp_idle : kp P get_idle_thread.
Proof. unfold get_idle_thread. kp. Qed.
Lemma kp_is_current a : kp P (is_current a).
Proof. unfold is_current. apply kp_bind; [apply kp_cur|]. intros ?. kp. Qed.
End kernel.
#[export] Hint Resolve kp_on_sst kp_on_slots kp_on_eps kp_on_ntfns kp_sys_get kp_sys_mod kp_irq_get kp_irq_mod
  kp_vm_get kp_vm_mod kp_hw kp_thread kp_slot kp_slot_mod kp_ep_get kp_ep_mod kp_ntfn_get kp_ntfn_mod kp_word_get
  kp_word_set kp_ref kp_ptr_to_mut kp_cur kp_idle kp_is_current : keep.

(** Looking at capability slots. *)
Section slots_read.
Implicit Types (a : Z) (c : list Z).
Lemma reads_load_ref {V} a : reads (load_ref (V := V) a).
Proof. unfold load_ref. reads. Qed.
Hint Resolve reads_load_ref : reads.
Lemma reads_no_children a : reads (ensure_no_children a).
Proof. unfold ensure_no_children. reads. Qed.
Lemma reads_is_final a : reads (is_final_cap a).
Proof. unfold is_final_cap. reads. Qed.
Hint Resolve reads_no_children reads_is_final : reads.
Lemma reads_long_running a : reads (is_long_running_delete a).
Proof. unfold is_long_running_delete. reads. Qed.
Lemma reads_derive a c : reads (derive_cap a c).
Proof. unfold derive_cap. reads. Qed.
Lemma reads_resolve_loop n : forall c a b l, reads (resolve_loop n c a b l).
Proof. induction n as [|n IH]; intros c a b l; cbn; [done|]. unfold resolve_step. reads. Qed.
Lemma reads_resolve c a n : reads (resolve_address_bits c a n).
Proof. apply reads_bind; [reads|]. intros t. case_match; [reads|apply reads_resolve_loop]. Qed.
End slots_read.
#[export] Hint Resolve reads_no_children reads_is_final reads_long_running reads_derive reads_resolve : reads.
#[export] Hint Extern 1 (kp _ (on_slots _)) => apply kp_slots_read; solve [auto with reads nocore] : keep.

(** Open a definition without a hint. *)
Ltac head_of m := lazymatch m with ?f _ => head_of f | _ => m end.
Ltac kp_open := lazymatch goal with |- kp _ (match _ with _ => _ end) => fail | |- kp _ (on_sst _) => apply kp_on_sst | |- kp _ ?m => let h := head_of m in unfold h end.
Ltac kpo := repeat first [ kp_step | kp_open ].

(** ** Registers and states of threads *)
Section regs.
Context {dm : dims}.
Implicit Types (a v : Z) (t : tcb_t).

Lemma kp_reg_get P a r : kp (at_sst P) (reg_get a r).
Proof. unfold reg_get. kp. Qed.
Lemma reads_thread a : reads (thread a).
Proof. apply reads_on_sst, reads_tcb_get. Qed.
Lemma kinv_thread {A} a (f : tcb_t -> ST kst A) :
  (forall t, length (tcbArch t) = 37%nat -> kp KI (f t)) -> kp KI (thread a ≫= f).
Proof.
  intros Hf. apply (kp_bind_reads _ _ _ (fun t => length (tcbArch t) = 37%nat)); [apply reads_thread| |exact Hf].
  intros s t [[Hs _] _] (x & [Ht _]%tcb_get_Some & _)%zoom_inv. by destruct (si_thr _ Hs _ _ Ht).
Qed.
(** Writing back a register file of which one entry changed. *)
Lemma kinv_write_back a (l : list Z) i v :
  length l = 37%nat -> kp KI (r ← lift (upd l i v); thread_mod a (set_tcbArch r)).
Proof.
  intros Hl s u s' Hs (r & s1 & [E ->]%lift_inv & E2)%st_bind_inv.
  assert (length r = 37%nat) as Hr.
  { unfold upd in E. case_decide; [|discriminate E]. injection E as <-. by rewrite length_insert. }
  revert Hs E2. apply kp_on_sst, kinv_arch, Hr.
Qed.
Lemma kinv_reg_set a (r : ArchReg) v : kp KI (reg_set a r v).
Proof.
  apply kinv_thread. intros t Ht. unfold set_register.
  destruct (to_index r) as [i| | |] eqn:E; cbn; [by apply kinv_write_back|done..].
Qed.
Lemma kinv_set_state a st : kp KI (Ipc.set_state a st).
Proof. unfold Ipc.set_state. kp. Qed.
Lemma kinv_set_ts_type a st : kp KI (set_ts a ts_type (ThreadState_to_usize st)).
Proof. unfold set_ts, thread_mod. kp. Qed.
Lemma kinv_set_ts a fl v :
  wf_bf 3 fl = true -> disjoint_bf tcb_queued fl = true -> disjoint_bf ts_type fl = true -> kp KI (set_ts a fl v).
Proof. intros. by apply kp_on_sst, kinv_ts. Qed.
Lemma kinv_thread_plain a f :
  plain f -> (forall t, tcbMCP t <= 255 -> tcbMCP (f t) <= 255) -> kp KI (thread_mod a f).
Proof. intros. by apply kp_on_sst, kinv_plain. Qed.
End regs.
#[export] Hint Resolve kp_reg_get kinv_reg_set kinv_set_state kinv_set_ts_type : keep.
#[export] Hint Extern 1 (kp _ (set_ts _ _ _)) => apply kinv_set_ts; reflexivity : keep.
#[export] Hint Extern 1 (kp _ (thread_mod _ _)) => apply kinv_thread_plain; [intros ?; by split_and!|intros ? ?; assumption] : keep.
#[export] Hint Extern 1 (kp _ (on_sst (tcb_bind_notification _ _))) => apply kinv_thread_plain; [intros ?; by split_and!|intros ? ?; assumption] : keep.
#[export] Hint Extern 1 (kp _ (on_sst (tcb_unbind_notification _))) => apply kinv_thread_plain; [intros ?; by split_and!|intros ? ?; assumption] : keep.
