(* ===== verification/KernelKeep.v ===== *)
(** * What the kernel keeps: operations

    Every operation a system call, a fault or an interrupt can reach keeps
    [KI]: the invariant of the scheduler, an idle thread, and bounded
    priorities.  The kernel-provided functions of the capability space are an
    interface, [CSpaceKeeps]; [kernel_keeps] discharges it.  The three
    invocations that reuse memory are in Reuse.v. *)

From stdpp Require Import base numbers gmap list.
From S2P Require Import Prelude Bitfield Common Cap DList CSpace Sched SchedInv State Vspace Threads Delete Ipc Finalise Syscall CNodeInv UntypedInv TcbInv MmuInv IrqInv Kernel Entry Keep.
Local Open Scope Z_scope.
Local Open Scope krn_scope.

(** ** Address spaces and memory *)
Section quiet.
Context {dm : dims} (P : sst -> Prop).
Implicit Types (a : Z).
Lemma kp_lookup_pt_loop n : forall v r, kp (at_sst P) (lookup_pt_loop n v r).
Proof. induction n as [|n IH]; intros v r; cbn; kpo; apply IH. Qed.
Lemma kp_lookup_pt_slot a v : kp (at_sst P) (lookup_pt_slot a v).
Proof. apply kp_lookup_pt_loop. Qed.
Lemma kp_unmap_walk n : forall l v p s e, kp (at_sst P) (unmap_walk n l v p s e).
Proof. induction n as [|n IH]; intros l v p s e; cbn; kpo; apply IH. Qed.
Lemma kp_find_vspace a : kp (at_sst P) (find_vspace_for_asid a).
Proof. kpo. Qed.
Lemma kp_set_root v : kp (at_sst P) (setCurrentUserVSpaceRoot v).
Proof. kpo. Qed.
Lemma kp_delete_asid a v c : kp (at_sst P) (delete_asid a v c).
Proof. kpo. Qed.
Lemma kp_delete_asid_pool a p c : kp (at_sst P) (delete_asid_pool a p c).
Proof. kpo. Qed.
Hint Resolve kp_lookup_pt_slot kp_unmap_walk : keep.
Lemma kp_unmap_page_table a v p : kp (at_sst P) (unmap_page_table a v p).
Proof. unfold unmap_page_table. kpo. Qed.
Lemma kp_unmapPage sz a v p : kp (at_sst P) (unmapPage sz a v p).
Proof. unfold unmapPage. kpo. Qed.
End quiet.
#[export] Hint Resolve kp_lookup_pt_slot kp_unmap_walk kp_find_vspace kp_set_root kp_delete_asid kp_delete_asid_pool
  kp_unmap_page_table kp_unmapPage : keep.

(** ** Threads *)
Section threads_quiet.
Context {dm : dims} (P : sst -> Prop).
Implicit Types (a : Z).
Lemma kp_cspace_cap a i : kp (at_sst P) (cspace_cap a i).
Proof. kpo. Qed.
Lemma kp_tcb_set_vm_root a : kp (at_sst P) (tcb_set_vm_root a).
Proof. kpo. Qed.
Lemma kp_lookup_slot a p : kp (at_sst P) (lookup_slot a p).
Proof. kpo. Qed.
Lemma kp_setup_reply_master {Hl : Loose dm} a : kp (at_sst P) (setup_reply_master a).
Proof. kpo. Qed.
Lemma kp_lookup_ipc_buffer a r : kp (at_sst P) (lookup_ipc_buffer a r).
Proof. kpo. Qed.
Lemma kp_lookup_mut_ipc_buffer a r : kp (at_sst P) (lookup_mut_ipc_buffer a r).
Proof. kpo. Qed.
Hint Resolve kp_lookup_slot kp_lookup_ipc_buffer kp_lookup_mut_ipc_buffer : keep.
Lemma kp_extra_caps_loop n : forall a b i l c, kp (at_sst P) (extra_caps_loop n a b i l c).
Proof. induction n as [|n IH]; intros a b i l c; cbn; kpo; apply IH. Qed.
Hint Resolve kp_extra_caps_loop kp_reg_get : keep.
Lemma kp_lookup_extra_caps_with_buf a l b : kp (at_sst P) (tcb_lookup_extra_caps_with_buf a l b).
Proof. unfold tcb_lookup_extra_caps_with_buf. kpo. Qed.
Lemma kp_lookup_extra_caps a l : kp (at_sst P) (tcb_lookup_extra_caps a l).
Proof. unfold tcb_lookup_extra_caps. kpo. Qed.
Lemma kp_get_receive_slot a : kp (at_sst P) (get_receive_slot a).
Proof. kpo. Qed.
Lemma kp_set_buf_msg b i v : kp (at_sst P) (set_buf_msg b i v).
Proof. kpo. Qed.
Lemma kp_buf_msg b i : kp (at_sst P) (buf_msg b i).
Proof. kpo. Qed.
End threads_quiet.
#[export] Hint Resolve kp_cspace_cap kp_tcb_set_vm_root kp_lookup_slot kp_setup_reply_master kp_lookup_ipc_buffer
  kp_lookup_mut_ipc_buffer kp_extra_caps_loop kp_lookup_extra_caps_with_buf kp_lookup_extra_caps kp_get_receive_slot
  kp_set_buf_msg kp_buf_msg : keep.

Section threads_keep.
Context {dm : dims} {Hl : Loose dm}.
Implicit Types (a : Z).
Lemma kinv_restart a : kp KI (restart a).
Proof. kpo. Qed.
Lemma kinv_setup_caller_cap a b g : kp KI (setup_caller_cap a b g).
Proof. kpo. Qed.
Lemma kinv_set_mr a i v : kp KI (set_mr a i v).
Proof. kpo. Qed.
Hint Resolve kinv_set_mr : keep.
Lemma kinv_set_lookup_fault_mrs a i f : kp KI (set_lookup_fault_mrs a i f).
Proof. unfold set_lookup_fault_mrs. kpo. Qed.
Lemma kinv_copy_mrs a b n : kp KI (copy_mrs a b n).
Proof. unfold copy_mrs. kpo. Qed.
Lemma kinv_copy_fault_mrs a b i n : kp KI (copy_fault_mrs a b i n).
Proof. unfold copy_fault_mrs. kpo. Qed.
Lemma kinv_copy_fault_mrs_for_reply a b i n : kp KI (copy_fault_mrs_for_reply a b i n).
Proof. unfold copy_fault_mrs_for_reply. kpo. Qed.
Hint Resolve kinv_set_lookup_fault_mrs kinv_copy_fault_mrs : keep.
Lemma kinv_set_fault_mrs a b : kp KI (set_fault_mrs a b).
Proof. unfold set_fault_mrs. kpo. Qed.
End threads_keep.
#[export] Hint Resolve kinv_restart kinv_setup_caller_cap kinv_set_mr kinv_set_lookup_fault_mrs kinv_copy_mrs
  kinv_copy_fault_mrs kinv_copy_fault_mrs_for_reply kinv_set_fault_mrs : keep.

(** ** The choice of the next thread *)
Section switching.
Context {dm : dims} {Hl : Loose dm}.
Implicit Types (a v : Z) (x : sst).
Lemma kinv_current x a :
  kinv x -> is_Some (tcbs x !! a) -> kinv (Sst (tcbs x) (set_ksCurThread a (gl x))).
Proof. intros [Hi []] Ha. split; [|by split]. apply (sched_inv_gl x); try done; apply Hi. Qed.
Lemma kinv_action v :
  v = SchedulerAction_ResumeCurrentThread \/ v = SchedulerAction_ChooseNewThread ->
  kp kinv (set_ks_scheduler_action v).
Proof. intros Hv. apply kinv_all; [apply to_action|]. intros s Hs. apply keeps_action; [done|tauto]. Qed.
Lemma kinv_resume : kp kinv (set_ks_scheduler_action SchedulerAction_ResumeCurrentThread).
Proof. apply kinv_action. by left. Qed.
Lemma kinv_choose : kp kinv (set_ks_scheduler_action SchedulerAction_ChooseNewThread).
Proof. apply kinv_action. by right. Qed.
Hint Resolve kinv_resume kinv_choose : keep.

Lemma kinv_dequeue_switch a : kp kinv (sched_dequeue a ;; set_current_thread a).
Proof.
  intros s r s' Hs (u & s1 & E & E2)%st_bind_inv. pose proof (kinv_dequeue a _ _ _ Hs E) as H1.
  pose proof (keeps_dequeue s a (proj1 Hs) (needs_dequeue a _ _ _ E)) as Hw.
  destruct (wp_Ok _ _ _ _ _ E Hw) as [[_ Hd] _]. unfold set_current_thread, gl_mod in E2. inv_ok.
  apply kinv_current; [done|]. apply Hd, (needs_dequeue a _ _ _ E).
Qed.
Lemma kinv_switch_to_this a : kp KI (switch_to_this a).
Proof.
  unfold switch_to_this. apply kp_bind; [kp|]. intros _.
  intros s r s' Hs (u & s1 & (x1 & E1 & ->)%zoom_inv & (x2 & E2 & ->)%zoom_inv)%st_bind_inv.
  destruct Hs as [Hs Hk]. split; [|exact Hk]. cbn in *. eapply (kinv_dequeue_switch a (k_sst s)); [done|].
  unfold mbind, st_bind. rewrite E1. exact E2.
Qed.
Lemma kinv_to_idle : kp kinv (gl_mod (fun g => set_ksCurThread (ksIdleThread g) g)).
Proof. apply kp_modify. intros x Hx. apply kinv_current; [done|apply Hx]. Qed.
Hint Resolve kinv_switch_to_this kinv_to_idle : keep.
Lemma kinv_chooseThread : kp KI chooseThread.
Proof. unfold chooseThread. kpo. Qed.
Hint Resolve kinv_chooseThread : keep.
Lemma kinv_schedule : kp KI schedule.
Proof. unfold schedule. kpo. Qed.
End switching.
#[export] Hint Resolve kinv_switch_to_this kinv_chooseThread kinv_schedule : keep.

(** ** Messages, endpoints and notifications *)
Class CSpaceKeeps (D : CSpaceDeps) : Prop := {
  keeps_finaliseCap (dm : dims) (Hl : Loose dm) c final exposed : kp KI (finaliseCap c final exposed);
  keeps_post_cap_deletion (dm : dims) (Hl : Loose dm) c : kp KI (post_cap_deletion c);
  keeps_preemptionPoint (dm : dims) (Hl : Loose dm) : kp KI preemptionPoint }.
#[export] Hint Resolve keeps_finaliseCap keeps_post_cap_deletion keeps_preemptionPoint : keep.

Section ipc.
Context {D : CSpaceDeps} {L : CSpaceKeeps D} {dm : dims} {Hl : Loose dm}.
Implicit Types (a : Z).
Lemma kinv_set_empty a c : kp KI (set_empty a c).
Proof. kpo. Qed.
Hint Resolve kinv_set_empty : keep.
Lemma kinv_delete_one a : kp KI (delete_one a).
Proof. unfold delete_one. kpo. Qed.
Hint Resolve kinv_delete_one : keep.

Lemma kinv_ep_cancel a b : kp KI (ep_cancel_ipc a b).
Proof. kpo. Qed.
Lemma kinv_restart_all n : forall a, kp KI (restart_all n a).
Proof. induction n as [|n IH]; intros a; cbn; kpo; apply IH. Qed.
Hint Resolve kinv_restart_all : keep.
Lemma kinv_cancel_all a : kp KI (cancel_all_ipc a).
Proof. unfold cancel_all_ipc. kpo. Qed.
Lemma kinv_badged_loop n : forall b a q, kp KI (badged_loop n b a q).
Proof. induction n as [|n IH]; intros b a q; cbn; kpo; apply IH. Qed.
Hint Resolve kinv_badged_loop : keep.
Lemma kinv_cancel_badged a b : kp KI (cancel_badged_sends a b).
Proof. unfold cancel_badged_sends. kpo. Qed.
Lemma kinv_cancel_signal a b : kp KI (cancel_signal a b).
Proof. kpo. Qed.
Lemma kinv_cancel_all_signal a : kp KI (cacncel_all_signal a).
Proof. unfold cacncel_all_signal. kpo. Qed.
Lemma kinv_safe_unbind a : kp KI (nt_safe_unbind_tcb a).
Proof. kpo. Qed.
Hint Resolve kinv_ep_cancel kinv_cancel_signal : keep.
Lemma kinv_cancel_ipc a : kp KI (cancel_ipc a).
Proof. unfold cancel_ipc. kpo. Qed.
Hint Resolve kinv_cancel_ipc : keep.

Lemma kinv_transfer_caps_loop n : forall e b i x f d, kp KI (transfer_caps_loop n e b i x f d).
Proof. induction n as [|n IH]; intros e b i x f d; cbn; kpo; apply IH. Qed.
Hint Resolve kinv_transfer_caps_loop : keep.
Lemma kinv_set_transfer_caps a e i x : kp KI (set_transfer_caps a e i x).
Proof. unfold set_transfer_caps, set_transfer_caps_with_buf. kpo. Qed.
Hint Resolve kinv_set_transfer_caps : keep.
Lemma kinv_do_ipc_transfer a b e x g : kp KI (do_ipc_transfer a b e x g).
Proof. unfold do_ipc_transfer, do_normal_transfer, do_fault_transfer. kpo. Qed.
Lemma kinv_do_fault_reply a b : kp KI (do_fault_reply_transfer a b).
Proof. unfold do_fault_reply_transfer. kpo. Qed.
Lemma kinv_complete_signal a : kp KI (complete_signal a).
Proof. kpo. Qed.
Hint Resolve kinv_do_ipc_transfer kinv_do_fault_reply kinv_complete_signal : keep.
Lemma kinv_do_reply a b s g : kp KI (do_reply a b s g).
Proof. unfold do_reply. kpo. Qed.
Lemma kinv_send_ipc e a b c g x r : kp KI (send_ipc e a b c g x r).
Proof. unfold send_ipc. kpo. Qed.
Lemma kinv_receive_ipc e a b g : kp KI (receive_ipc e a b g).
Proof. unfold receive_ipc. kpo. Qed.
Lemma kinv_send_signal a b : kp KI (send_signal a b).
Proof. unfold send_signal. kpo. Qed.
Lemma kinv_receive_signal a b c : kp KI (receive_signal a b c).
Proof. unfold receive_signal. kpo. Qed.
End ipc.
#[export] Hint Resolve kinv_set_empty kinv_delete_one kinv_ep_cancel kinv_cancel_all kinv_cancel_badged kinv_cancel_signal
  kinv_cancel_all_signal kinv_safe_unbind kinv_cancel_ipc kinv_set_transfer_caps kinv_do_ipc_transfer kinv_do_reply
  kinv_send_ipc kinv_receive_ipc kinv_send_signal kinv_receive_signal : keep.

(** ** Deletion *)
Section delete.
Context {D : CSpaceDeps} {L : CSpaceKeeps D} {dm : dims} {Hl : Loose dm}.
Implicit Types (a : Z).
Lemma kinv_reduce_zombie da a i : (forall b e, kp KI (da b e)) -> kp KI (reduce_zombie da a i).
Proof. intros Hd. unfold reduce_zombie. kpo; apply Hd. Qed.
Lemma kinv_delete_all_with fin a e : (forall b i, kp KI (fin b i)) -> kp KI (delete_all_with fin a e).
Proof. intros Hf. unfold delete_all_with. kpo; apply Hf. Qed.
Lemma kinv_finalise_step da a i c : (forall b e, kp KI (da b e)) -> kp KI (finalise_step da a i c).
Proof.
  intros Hd. pose proof (kinv_reduce_zombie da a i Hd) as Hr. unfold finalise_step. kpo.
Qed.
Lemma kinv_finalise n : forall a i, kp KI (finalise n a i).
Proof.
  induction n as [|n IH]; intros a i; cbn [finalise]; [done|].
  assert (forall b e, kp KI (delete_all_with (finalise n) b e)) as Hd by (intros; by apply kinv_delete_all_with).
  pose proof (kinv_finalise_step (delete_all_with (finalise n)) a i) as Hs. kpo; eauto.
Qed.
Lemma kinv_delete_all n a e : kp KI (delete_all n a e).
Proof. apply kinv_delete_all_with, kinv_finalise. Qed.
Hint Resolve kinv_delete_all : keep.
Lemma kinv_revoke n : forall a, kp KI (revoke n a).
Proof. induction n as [|n IH]; intros a; cbn [revoke]; [done|]. kpo; apply IH. Qed.
End delete.
#[export] Hint Resolve kinv_delete_all kinv_revoke : keep.

(** ** What the kernel provides to the capability space *)
Section finalise.
Context {dm : dims} {Hl : Loose dm}.
Lemma kinv_irq_handler_slot (P : sst -> Prop) i : kp (at_sst P) (get_irq_handler_slot i).
Proof. kpo. Qed.
Lemma kinv_set_irq_state (P : sst -> Prop) st i : kp (at_sst P) (setIRQState st i).
Proof. kpo. Qed.
Lemma kinv_unbind a : kp KI (safe_unbind_notification a).
Proof. kpo. Qed.
Lemma kinv_bind a b : kp KI (do_bind_notification a b).
Proof. kpo. Qed.
Hint Resolve kinv_irq_handler_slot kinv_set_irq_state kinv_unbind kinv_bind : keep.
Lemma kinv_arch_finalise c f : kp KI (Arch_finaliseCap c f).
Proof. unfold Arch_finaliseCap, deleteASID, deleteASIDPool. kpo. Qed.
Hint Resolve kinv_arch_finalise : keep.
Lemma kinv_finaliseCap_impl (D : CSpaceDeps) (L : CSpaceKeeps D) c f e : kp KI (finaliseCap_impl c f e).
Proof. unfold finaliseCap_impl, deletingIRQHandler. kpo. Qed.
Lemma kinv_post_cap_deletion_impl c : kp KI (post_cap_deletion_impl c).
Proof. unfold post_cap_deletion_impl. kpo. Qed.
Lemma kinv_preemptionPoint_impl : kp KI preemptionPoint_impl.
Proof. unfold preemptionPoint_impl. kpo. Qed.
End finalise.
#[export] Hint Resolve kinv_irq_handler_slot kinv_set_irq_state kinv_unbind kinv_bind : keep.
Lemma kernel_deps_keep n : CSpaceKeeps (kernel_deps n).
Proof.
  induction n as [|n IH]; split; cbn; try done; intros;
    [by apply kinv_finaliseCap_impl|apply kinv_post_cap_deletion_impl|apply kinv_preemptionPoint_impl].
Qed.
#[export] Instance kernel_keeps : CSpaceKeeps kernel := kernel_deps_keep 3.

(** ** Arguments, errors, replies *)
Section arguments.
Context {dm : dims} (P : sst -> Prop).
Lemma kp_get_syscall_arg i b : kp (at_sst P) (get_syscall_arg i b).
Proof. unfold get_syscall_arg. kpo. Qed.
Lemma kp_fail_with t : kp (at_sst P) (fail_with t).
Proof. kpo. Qed.
Lemma kp_fail_argument n : kp (at_sst P) (fail_argument n).
Proof. kpo. Qed.
Lemma kp_fail_cap n : kp (at_sst P) (fail_cap n).
Proof. kpo. Qed.
Lemma kp_fail_range a b : kp (at_sst P) (fail_range a b).
Proof. kpo. Qed.
Lemma kp_fail_lookup n : kp (at_sst P) (fail_lookup n).
Proof. kpo. Qed.
Lemma kp_extra_unwrap i : kp (at_sst P) (extra_cap_unwrap i).
Proof. kpo. Qed.
Lemma kp_extra_is_none i : kp (at_sst P) (extra_cap_is_none i).
Proof. kpo. Qed.
Lemma kp_slot_cap a : kp (at_sst P) (slot_cap a).
Proof. kpo. Qed.
Lemma kp_slot_tag a : kp (at_sst P) (slot_tag a).
Proof. kpo. Qed.
Lemma kp_extra_root i : kp (at_sst P) (extra_root i).
Proof. kpo. Qed.
Lemma kp_tcb_of c : kp (at_sst P) (tcb_of c).
Proof. kpo. Qed.
Hint Resolve kp_fail_with kp_fail_argument kp_fail_cap kp_fail_range kp_fail_lookup kp_slot_cap kp_slot_tag kp_extra_root : keep.
Lemma kp_check_prio p a : kp (at_sst P) (check_prio p a).
Proof. unfold check_prio. kpo. Qed.
Lemma kp_auth_thread : kp (at_sst P) auth_thread.
Proof. unfold auth_thread. kpo. Qed.
Lemma kp_check_buffer a c : kp (at_sst P) (check_ipc_buffer_vaild a c).
Proof. unfold check_ipc_buffer_vaild. kpo. Qed.
Lemma kp_slot_for_cnode b r p d : kp (at_sst P) (lookup_slot_for_cnode_op b r p d).
Proof. unfold lookup_slot_for_cnode_op. kpo. Qed.
Lemma kp_ensure_empty a : kp (at_sst P) (ensure_empty_slot a).
Proof. unfold ensure_empty_slot. kpo. Qed.
Lemma kp_syscall_extra_caps a b : kp (at_sst P) (lookup_extra_caps_with_buf a b).
Proof. unfold lookup_extra_caps_with_buf. kpo. Qed.
Lemma kp_ok_or st (k : ST kst exception_t) : kp (at_sst P) k -> kp (at_sst P) (ok_or st k).
Proof. intros Hk. unfold ok_or. by destruct (bool_decide _); [apply kp_ret|]. Qed.
End arguments.
#[export] Hint Resolve kp_get_syscall_arg kp_fail_with kp_fail_argument kp_fail_cap kp_fail_range kp_fail_lookup
  kp_extra_unwrap kp_extra_is_none kp_slot_cap kp_slot_tag kp_extra_root kp_tcb_of kp_check_prio kp_auth_thread
  kp_check_buffer kp_slot_for_cnode kp_ensure_empty kp_syscall_extra_caps : keep.

Section syscalls.
Context {D : CSpaceDeps} {L : CSpaceKeeps D} {dm : dims} {Hl : Loose dm}.
Implicit Types (a : Z).
Lemma kinv_current_restart : kp KI current_restart.
Proof. kpo. Qed.
Lemma kinv_reply_error a : kp KI (reply_error_from_kernel a).
Proof. unfold reply_error_from_kernel, set_mrs_for_syscall_error. kpo. Qed.
Lemma kinv_reply_success a : kp KI (reply_success_from_kernel a).
Proof. kpo. Qed.
Lemma kinv_send_fault_ipc a : kp KI (send_fault_ipc a).
Proof. unfold send_fault_ipc. kpo. Qed.
Hint Resolve kinv_send_fault_ipc : keep.
Lemma kinv_handle_fault a : kp KI (handle_fault a).
Proof. unfold handle_fault. kpo. Qed.
Hint Resolve kinv_handle_fault : keep.
Lemma kinv_handle_reply : kp KI handle_reply.
Proof. unfold handle_reply. kpo. Qed.
Lemma kinv_handle_recv b : kp KI (handle_recv b).
Proof. unfold handle_recv, recv_cap_fault, delete_caller_cap. kpo. Qed.
Lemma kinv_handle_yield : kp KI handle_yield.
Proof. unfold handle_yield. kpo. Qed.
End syscalls.
#[export] Hint Resolve kinv_current_restart kinv_reply_error kinv_reply_success kinv_handle_fault kinv_handle_reply
  kinv_handle_recv kinv_handle_yield : keep.
#[export] Hint Extern 2 (kp _ (ok_or _ _)) => apply kp_ok_or : keep.

(** ** Invocations *)
Section invocations.
Context {D : CSpaceDeps} {L : CSpaceKeeps D} {dm : dims} {Hl : Loose dm}.
Implicit Types (a : Z).
Lemma kinv_cnode n l len c b : kp KI (decode_cnode_invocation n l len c b).
Proof. unfold decode_cnode_invocation. kpo. Qed.
Lemma kinv_irq_control l len s b : kp KI (decode_irq_control_invocation l len s b).
Proof. unfold decode_irq_control_invocation. kpo. Qed.
Lemma kinv_irq_handler l i : kp KI (decode_irq_handler_invocation l i).
Proof. unfold decode_irq_handler_invocation. kpo. Qed.
Lemma kinv_handleInterrupt i : kp KI (handleInterrupt i).
Proof. unfold handleInterrupt. kpo. Qed.

Lemma kinv_set_space n t s f c cs v vs : kp KI (invoke_tcb_set_space n t s f c cs v vs).
Proof. unfold invoke_tcb_set_space. kpo. Qed.
Lemma kinv_set_ipc_buffer n t s b c o : kp KI (invoke_tcb_set_ipc_buffer n t s b c o).
Proof. unfold invoke_tcb_set_ipc_buffer. kpo. Qed.
Hint Resolve kinv_set_space kinv_set_ipc_buffer : keep.
Lemma kinv_roots t cd c cs vd v vs k :
  (forall x y, kp KI (k x y)) -> kp KI (decode_roots t cd c cs vd v vs k).
Proof. intros Hk. unfold decode_roots. kpo; apply Hk. Qed.

(** A priority that is checked against the authority is a priority. *)
Lemma kinv_checked p a (k : ST kst exception_t) :
  (p <= 255 -> kp KI k) -> kp KI (try (check_prio p a) ;;; k).
Proof.
  intros Hk s r s' Hs (st & s1 & E & E2)%st_bind_inv. pose proof (kp_check_prio kinv p a _ _ _ Hs E) as Hs1.
  unfold ok_or in E2. case_bool_decide as Hst; [by apply Ok_inv in E2 as [_ <-]|]. revert Hs1 E2. apply Hk.
  unfold check_prio in E. apply st_bind_inv in E as (t & s2 & (x & [Ht _]%tcb_get_Some & _)%zoom_inv & E).
  pose proof (to_mcp _ (proj2 (proj1 Hs)) _ _ Ht). case_bool_decide; [|lia].
  subst st. unfold fail_range in E. do 2 apply st_bind_inv in E as (? & ? & _ & E). by apply Ok_inv in E as [? _].
Qed.
Lemma kinv_invoke_priority t p : 0 <= p <= 255 -> kp KI (invoke_tcb_set_priority t p).
Proof. intros Hp. unfold invoke_tcb_set_priority. pose proof (kinv_set_priority t p Hp). kp. Qed.
Lemma kinv_invoke_mcp t p : p <= 255 -> kp KI (invoke_tcb_set_mcp t p).
Proof.
  intros Hp. unfold invoke_tcb_set_mcp. apply kp_bind; [|intros ?; kp].
  apply kp_on_sst, kinv_plain; [intros ?; by split_and!|by intros ? _].
Qed.

(** The arguments of the current thread are words. *)
Definition args_ok (x : sst) : Prop := forall t, tcbs x !! ksCurThread (gl x) = Some t -> Forall (fun v => 0 <= v) (tcbArch t).
Definition kinv_args (x : sst) : Prop := kinv x /\ args_ok x.
Notation kj := (kpto (at_sst kinv_args) KI).
Lemma kj_of {A} (m : ST kst A) : kp KI m -> kj m.
Proof. intros Hm s r s' [[Hs _] Hk]. eapply Hm. by split. Qed.
Lemma arg_nonneg i b s v s' :
  at_sst kinv_args s -> 0 <= i < msgRegisterNum -> get_syscall_arg i b s = Ok (v, s') -> 0 <= v.
Proof.
  intros [[Hs Ha] _] Hi E. unfold get_syscall_arg in E. rewrite bool_decide_true in E by lia.
  apply st_bind_inv in E as (c & s1 & (x & Ec & ->)%zoom_inv & E). unfold get_currenct_thread, gl_get in Ec. inv_ok.
  apply st_bind_inv in E as (t & s1 & (y & [Ht _]%tcb_get_Some & _)%zoom_inv & E). apply lift_inv in E as [E _].
  specialize (Ha _ Ht). rewrite Forall_forall in Ha. apply Ha. unfold get_register in E.
  apply res_bind_inv in E as (j & _ & E). unfold idx in E. case_decide; [|done].
  destruct (tcbArch t !! Z.to_nat j) eqn:El; [|done]. injection E as <-. by eapply list_elem_of_lookup_2.
Qed.
Lemma kj_arg {A} i b (f : Z -> ST kst A) :
  0 <= i < msgRegisterNum -> (forall v, 0 <= v -> kp KI (f v)) -> kj (get_syscall_arg i b ≫= f).
Proof.
  intros Hi Hf s r s' Hs (v & s1 & E & E2)%st_bind_inv. pose proof (arg_nonneg _ _ _ _ _ Hs Hi E) as Hv.
  destruct Hs as [[Hs _] Hk]. eapply (Hf v Hv); [|exact E2]. eapply kp_get_syscall_arg; [|exact E]. by split.
Qed.
Lemma kj_set_priority c len b : kj (decode_set_priority c len b).
Proof.
  unfold decode_set_priority. apply kpto_bind; [kp|]. intros n. case_match; [apply kj_of; kp|].
  apply kj_arg; [done|]. intros p Hp. apply kp_bind; [kp|]. intros a. apply kp_ok_or, kinv_checked. intros Hle.
  pose proof (fun t => kinv_invoke_priority t p (conj Hp Hle)). kp.
Qed.
Lemma kj_set_mc_priority c len b : kj (decode_set_mc_priority c len b).
Proof.
  apply kj_of. unfold decode_set_mc_priority. kp. apply kp_ok_or, kinv_checked. intros Hle.
  pose proof (fun t => kinv_invoke_mcp t _ Hle). kp.
Qed.
Lemma kj_set_sched_params c len b : kj (decode_set_sched_params c len b).
Proof.
  unfold decode_set_sched_params. apply kpto_bind; [kp|]. intros n. case_match; [apply kj_of; kp|].
  apply kpto_bind; [kp|]. intros m. apply kj_arg; [done|]. intros p Hp. apply kp_bind; [kp|]. intros a.
  apply kp_ok_or, kinv_checked. intros Hm. apply kinv_checked. intros Hle.
  pose proof (fun t => kinv_invoke_priority t p (conj Hp Hle)). pose proof (fun t => kinv_invoke_mcp t m Hm). kp.
Qed.
Lemma kj_domain l len b : kj (decode_domain_invocation l len b).
Proof.
  unfold decode_domain_invocation. case_match; [apply kj_of; kp|]. case_match; [apply kj_of; kp|].
  apply kj_arg; [done|]. intros d Hd. case_match eqn:E; [kp|]. apply bool_decide_eq_false in E.
  assert (d = 0) as -> by lia. kpo.
Qed.
Lemma kj_tcb n l len c s call b : kj (decode_tcb_invocation n l len c s call b).
Proof.
  destruct l; cbn [decode_tcb_invocation];
    auto using kj_set_priority, kj_set_mc_priority, kj_set_sched_params; apply kj_of; kpo.
Qed.

(** Address-space invocations. *)
Lemma kinv_vspace_root l len s b : kp KI (decode_vspace_root_invocation l len s b).
Proof. unfold decode_vspace_root_invocation. kpo. Qed.
Lemma kinv_frame l len s c b : kp KI (decode_frame_invocation l len s c b).
Proof. unfold decode_frame_invocation. kpo. Qed.
Lemma kinv_first_free_asid n : forall a (p : list Z) i, kp KI (first_free_asid n a p i).
Proof. induction n as [|n IH]; intros a p i; cbn; kpo; apply IH. Qed.
Hint Resolve kinv_first_free_asid : keep.
Lemma kinv_asid_pool l s : kp KI (decode_asid_pool l s).
Proof. unfold decode_asid_pool. kpo. Qed.
End invocations.
