(* ===== verification/FastProps.v ===== *)
(** * The fast path: theorems

    The lookup of the fast path finds what [resolve_address_bits] finds; on
    this architecture the fast path is never taken, because the roots of
    address spaces are not page-table capabilities. *)

From stdpp Require Import base numbers gmap list.
From S2P Require Import Prelude Bitfield Common Cap DList CSpace CSpaceProps CSpaceWit Sched Bitmap SchedProps SchedInv EpQueue SchedWit State Vspace Threads Delete Ipc Finalise Syscall IrqInv Kernel Entry FastPath NtfnProps EpProps.
Local Open Scope Z_scope.
Local Open Scope krn_scope.

(** ** Lookup *)

(** A node with an index, whose guard is empty when its size is. *)
Definition node_ok (c : list Z) : Prop :=
  0 < radix c /\ (guard_size c = 0 -> bf_get cnode_guard c = 0).
Definition nodes_ok (h : slots) : Prop :=
  forall a x, h !! a = Some x -> get_cap_type (cte_cap x) = Ok CapCNodeCap -> node_ok (cte_cap x).

Section lookup.
Implicit Types (h : slots) (c : list Z) (cptr n bits : Z).

(** The [r] bits after the first [k]. *)
Lemma top_bits cptr k r :
  0 <= k < 64 -> 0 < r < 64 -> k + r <= 64 ->
  wshr (wshl cptr k) (wsub wordBits r) = (cptr / 2 ^ (64 - k - r)) `mod` 2 ^ r.
Proof.
  intros Hk Hr Hs. change wordBits with 64. rewrite wsub_small by (unfold is_word; lia).
  rewrite wshr_spec, wshl_spec, wrap_mod by lia.
  replace (2 ^ 64) with (2 ^ k * 2 ^ (64 - k)) by (rewrite <- Z.pow_add_r by lia; f_equal; lia).
  rewrite (Z.mul_comm cptr), Z.mul_mod_distr_l by lia.
  replace (64 - r) with (k + (64 - k - r)) by lia.
  rewrite Z.pow_add_r, Z.div_mul_cancel_l by lia.
  replace (2 ^ (64 - k)) with (2 ^ (64 - k - r) * 2 ^ r) by (rewrite <- Z.pow_add_r by lia; f_equal; lia).
  rewrite Z.rem_mul_r by lia.
  rewrite Z.mul_comm, Z.div_add, (Z.div_small (_ mod _)) by (lia || (apply Z.mod_pos_bound; lia)).
  done.
Qed.

Lemma wshl_twice cptr bits g : 0 <= bits -> 0 <= g -> bits + g < 64 -> wshl (wshl cptr bits) g = wshl cptr (bits + g).
Proof.
  intros Hb Hg Hs. rewrite !wshl_spec, !wrap_mod by lia.
  rewrite Zmult_mod_idemp_l, <- Z.mul_assoc, <- Z.pow_add_r by lia. done.
Qed.

#[local] Instance guard_ok_dec' c cptr n : Decision (guard_ok c cptr n).
Proof. unfold guard_ok. apply _. Defined.

(** A level that the remaining bits can hold. *)
Lemma lookup_fp_step_spec h c cptr bits :
  0 <= bits < 64 -> node_ok c -> level c <= 64 - bits ->
  lookup_fp_step c cptr bits h =
    if decide (guard_ok c cptr (64 - bits))
    then (x ← load (level_slot c cptr (64 - bits)); mret (Some (cte_cap x, bits + level c))) h
    else Ok (None, h).
Proof.
  intros Hb [Hr Hg0] Hl. pose proof (radix_bound c). pose proof (guard_size_bound c).
  unfold level in Hl. unfold lookup_fp_step. cbv zeta. fold (radix c). fold (guard_size c).
  assert (((guard_size c <>w 0) && (wshr (wshl cptr bits) (wsub wordBits (guard_size c))
    <>w bf_get cnode_guard c))%bool = negb (bool_decide (guard_ok c cptr (64 - bits)))) as ->.
  { destruct (decide (guard_size c = 0)) as [E|E].
    - rewrite (bool_decide_true (guard_size c = 0)) by done.
      rewrite (bool_decide_true (guard_ok c cptr (64 - bits))); [done|].
      unfold guard_ok. rewrite E, (Hg0 E). apply Z.mod_1_r.
    - rewrite (bool_decide_false (guard_size c = 0)) by done. cbn [negb andb].
      rewrite top_bits by lia. done. }
  destruct (decide (guard_ok c cptr (64 - bits))); [|by rewrite bool_decide_false].
  rewrite bool_decide_true by done. cbn [negb].
  rewrite wshl_twice, top_bits by lia.
  rewrite (wadd_small (guard_size c)), wadd_small by (unfold is_word; lia).
  unfold level_slot, level.
  replace (64 - (bits + guard_size c) - radix c) with (64 - bits - (radix c + guard_size c)) by lia.
  by replace (bits + (guard_size c + radix c)) with (bits + (radix c + guard_size c)) by lia.
Qed.

(** A level that is too big ends in a null capability. *)
Lemma lookup_fp_step_over h c cptr bits (r : option (list Z * Z)) h' :
  0 <= bits < 64 -> 64 - bits < level c -> lookup_fp_step c cptr bits h = Ok (r, h') ->
  r = None \/ exists c', r = Some (c', bits + level c).
Proof.
  intros Hb Hl. pose proof (radix_bound c). pose proof (guard_size_bound c).
  unfold level in Hl |- *. unfold lookup_fp_step. cbv zeta. destruct (_ && _)%bool.
  - intros [= <- _]. by left.
  - unfold mbind, st_bind, load. destruct (h !! _) as [x|]; [|done]. intros [= <- _].
    right. exists (cte_cap x). fold (radix c) (guard_size c).
    rewrite (wadd_small (guard_size c)), wadd_small by (unfold is_word; lia). do 2 f_equal. lia.
Qed.

Lemma lookup_fp_loop_path fuel : forall h c cptr bits k,
  nodes_ok h -> node_ok c -> 0 <= bits < 64 -> (Z.to_nat (64 - bits) < fuel)%nat ->
  get_cap_type k <> Ok CapNullCap ->
  lookup_fp_loop fuel c cptr bits h = Ok (k, h) <->
  exists slot rem x, cspace_path h cptr c (64 - bits) slot rem /\ h !! slot = Some x /\ cte_cap x = k.
Proof.
  induction fuel as [|fuel IH]; intros h c cptr bits k Hh Hc Hb Hf Hk; [lia|].
  pose proof Hc as [Hr _]. pose proof (guard_size_bound c). assert (0 < level c) as Hl by (unfold level; lia).
  assert (new_null_cap <> k) as Hnull by (intros <-; by apply Hk).
  cbn [lookup_fp_loop]. unfold mbind at 1, st_bind at 1.
  destruct (decide (level c <= 64 - bits)) as [Hle|Hgt].
  2: { split.
    - destruct (lookup_fp_step c cptr bits h) as [[r h']| | |] eqn:E; try done.
      destruct (lookup_fp_step_over h c cptr bits r h' Hb ltac:(lia) E) as [->|[c' ->]]; [intros [= ? _]; done|].
      rewrite (bool_decide_false (bits + level c < wordBits)) by (change wordBits with 64; lia).
      cbn. rewrite bool_decide_true by (change wordBits with 64; lia). intros [= ? _]; done.
    - intros (slot & rem & x & Hp & _). inversion Hp; subst; lia. }
  rewrite lookup_fp_step_spec by done.
  destruct (decide (guard_ok c cptr (64 - bits))) as [Hg|Hg].
  2: { split; [intros [= ?]; done|]. intros (slot & rem & x & Hp & _). by inversion Hp; subst. }
  unfold mbind, st_bind, load.
  destruct (h !! level_slot c cptr (64 - bits)) as [x|] eqn:Ex.
  2: { split; [done|]. intros (slot & rem & x & Hp & Hx & _).
       inversion Hp; subst; congruence. }
  cbn [mret st_ret]. change wordBits with 64.
  destruct (decide (level c = 64 - bits)) as [E|E].
  { rewrite (bool_decide_false (bits + level c < 64)), (bool_decide_false (bits + level c > 64)) by lia. cbn. split.
    - intros [= <-]. eexists _, _, x. split; [by apply path_leaf|done].
    - intros (slot & rem & y & Hp & Hy & <-). inversion Hp; subst; [|lia|lia]. rewrite Ex in Hy. by injection Hy as ->. }
  rewrite (bool_decide_true (bits + level c < 64)), (bool_decide_false (bits + level c > 64)) by lia.
  cbn. unfold lift. destruct (get_cap_type (cte_cap x)) as [t| | |] eqn:Et.
  2-4: (split; [done|]; intros (slot & rem & y & Hp & Hy & <-); inversion Hp; subst; [lia|congruence|congruence]).
  cbn. case_bool_decide as Hct; subst.
  - rewrite IH; [|done|by eapply Hh|lia|lia|done].
    replace (64 - (bits + level c)) with (64 - bits - level c) by lia. split.
    + intros (slot & rem & y & Hp & Hy). exists slot, rem, y. split; [|done]. eapply path_step; eauto. lia.
    + intros (slot & rem & y & Hp & Hy). exists slot, rem, y. split; [|done].
      inversion Hp; subst; [lia|congruence|]. by simplify_eq.
  - split.
    + intros [= <-]. eexists _, _, x. split; [|done]. eapply path_stop; eauto. lia.
    + intros (slot & rem & y & Hp & Hy & <-). inversion Hp; subst; [lia| |congruence]. rewrite Ex in Hy. by injection Hy as ->.
Qed.
End lookup.

(** C39: the lookup of the fast path agrees with [resolve_address_bits]: in a
    capability space whose nodes have an index, [lookup_fp] returns a
    capability that is not null exactly when [resolve_address_bits] finds a
    slot that holds it.  It changes no slot. *)
Theorem lookup_fp_agrees (h : slots) (c : list Z) (cptr : Z) (k : list Z) :
  nodes_ok h -> get_cap_type c = Ok CapCNodeCap -> node_ok c -> get_cap_type k <> Ok CapNullCap ->
  lookup_fp c cptr h = Ok (k, h) <->
  exists slot rem x, resolve_address_bits c cptr wordBits h = Ok (ResolveRet EXCEPTION_NONE slot rem, h) /\
    h !! slot = Some x /\ cte_cap x = k.
Proof.
  intros Hh Ht Hc Hk. unfold lookup_fp, resolve_address_bits, mbind, st_bind, lift. rewrite Ht.
  rewrite bool_decide_true by done. cbn -[lookup_fp_loop resolve_loop].
  rewrite lookup_fp_loop_path by (done || lia). change wordBits with 64.
  setoid_rewrite resolve_loop_path; [|lia..]. done.
Qed.

(** ** The fast path is not taken *)
Section runs.
Implicit Types (s : kst) (p : Z).

Lemma run_slots {A} (m : ST slots A) s a : m (k_slots s) = Ok (a, k_slots s) -> on_slots m s = Ok (a, s).
Proof. intros E. unfold on_slots. rewrite (zoom_Ok _ _ _ _ _ _ E). by destruct s. Qed.
Lemma run_sst {A} (m : ST sst A) s a : m (k_sst s) = Ok (a, k_sst s) -> on_sst m s = Ok (a, s).
Proof. intros E. unfold on_sst. rewrite (zoom_Ok _ _ _ _ _ _ E). by destruct s. Qed.
Lemma run_thread s p t : tcbs (k_sst s) !! p = Some t -> thread p s = Ok (t, s).
Proof. intros E. apply run_sst. unfold tcb_get, on_tcbs, load. rewrite E. by destruct (k_sst s). Qed.
Lemma run_cspace_cap s p i x : k_slots s !! get_cspace p i = Some x -> cspace_cap p i s = Ok (cte_cap x, s).
Proof.
  intros E. unfold cspace_cap, mbind, st_bind, slot. erewrite run_slots; [done|]. unfold load. by rewrite E.
Qed.
Lemma run_ep_get s p w : k_eps s !! p = Some w -> ep_get p s = Ok (w, s).
Proof.
  intros E. unfold ep_get, on_eps. erewrite zoom_Ok; [|unfold load; by rewrite E]. by destruct s.
Qed.
Lemma run_ep_state s p w st : k_eps s !! p = Some w -> ep_get_state w = Ok st -> ep_state_of p s = Ok (st, s).
Proof.
  intros E Hst. unfold ep_state_of, mbind, st_bind. rewrite (run_ep_get _ _ _ E). unfold lift. by rewrite Hst.
Qed.
Lemma run_ref s p : p <> 0 -> ref p s = Ok (p, s).
Proof. intros H. unfold ref, mbind, st_bind. by rewrite bool_decide_false. Qed.
End runs.

(** The address-space slots of all threads hold something else than a page
    table, as [tcb_set_space] and the boot code put there. *)
Definition vtables_ok (s : kst) : Prop :=
  forall d t, tcbs (k_sst s) !! d = Some t -> exists x ty,
    k_slots s !! get_cspace d tcbVTable = Some x /\ get_cap_type (cte_cap x) = Ok ty /\ ty <> CapPageTableCap.

(** C40: on this architecture the fast path of Call is never taken: its test of
    the receiver's address-space root asks for a page-table capability, and a
    root is an address-space capability.  Whatever the message, the invoked
    capability and the endpoint are, [fastpath_call] does what the slow path does. *)
Theorem fastpath_call_is_slowpath {D : CSpaceDeps} {H : Hardware} (s : kst) (fuel : nat)
    (cptr msgInfo cur : Z) (t : tcb_t) (ft : FaultType) (root : cte_t) (ec : list Z) (ct : CapTag) :
  ksCurThread (gl (k_sst s)) = cur -> cur <> 0 -> tcbs (k_sst s) !! cur = Some t ->
  get_fault_type (tcbFault t) = Ok ft -> k_slots s !! get_cspace cur tcbCTable = Some root ->
  lookup_fp (cte_cap root) cptr (k_slots s) = Ok (ec, k_slots s) -> get_cap_type ec = Ok ct ->
  (ct = CapEndpointCap -> bf_get ep_ptr ec <> 0 /\ exists a, ep_at s (bf_get ep_ptr ec) a) ->
  vtables_ok s ->
  fastpath_call fuel cptr msgInfo s = slowpath fuel (as_usize SysCall) s.
Proof.
  intros Hcur H0 Ht Hft Hroot Hlook Hct Hep Hv. unfold fastpath_call.
  rewrite (st_bind_Ok _ _ s cur s).
  2: { apply run_sst. unfold get_currenct_thread, gl_get, mbind, st_bind, gets. rewrite Hcur. by rewrite bool_decide_false. }
  rewrite (st_bind_Ok _ _ s t s) by by apply run_thread.
  rewrite (st_bind_Ok _ _ s ft s) by (unfold lift; by rewrite Hft).
  destruct (_ || _)%bool; [done|].
  rewrite (st_bind_Ok _ _ s (cte_cap root) s) by by apply run_cspace_cap.
  rewrite (st_bind_Ok _ _ s ec s) by by apply run_slots.
  rewrite (st_bind_Ok _ _ s ct s) by (unfold lift; by rewrite Hct).
  case_bool_decide as Ec; cbn [negb orb]; [|done]. destruct (Hep Ec) as (Hp0 & a & w & Hw & Ha).
  case_bool_decide; [done|].
  rewrite (st_bind_Ok _ _ s (bf_get ep_ptr ec) s) by by apply run_ref.
  rewrite (st_bind_Ok _ _ s (ep_tag a) s) by (eapply run_ep_state; [exact Hw|apply Ha]).
  clear Hep. destruct a as [|l|l]; cbn [ep_tag]; [by rewrite bool_decide_true by done..|].
  rewrite bool_decide_false by (intros Hn; by apply Hn).
  rewrite (st_bind_Ok _ _ s w s) by by apply run_ep_get.
  destruct Ha as (_ & _ & _ & [?|Hne] & Hq & Hd); [done|]. cbn [ep_list] in *.
  destruct l as [|d l]; [done|]. assert (bf_get ep_queue_head w = d) as -> by exact (f_equal head Hq).
  destruct (dlist_elem ep_links _ _ d Hd ltac:(set_solver)) as [td Htd].
  assert (d <> 0) as Hd0 by (intros ->; destruct Hd as (_ & _ & Hd); set_solver).
  rewrite (st_bind_Ok _ _ s d s) by by apply run_ref.
  destruct (Hv _ _ Htd) as (x & ty & Hx & Hty & Hn).
  rewrite (st_bind_Ok _ _ s (cte_cap x) s) by by apply run_cspace_cap.
  rewrite (st_bind_Ok _ _ s false s); [done|].
  unfold lift, isValidVTableRoot_fp. rewrite Hty. cbn. by rewrite bool_decide_false.
Qed.

(** ** Instances *)
Lemma lookup_fp_agrees_witness :
  lookup_fp w_node1 0x4 w_cspace = Ok (w_ep 3, w_cspace) <->
  exists slot rem x, resolve_address_bits w_node1 0x4 wordBits w_cspace
      = Ok (ResolveRet EXCEPTION_NONE slot rem, w_cspace) /\
    w_cspace !! slot = Some x /\ cte_cap x = w_ep 3.
Proof.
  apply (lookup_fp_agrees w_cspace w_node1 0x4 (w_ep 3)).
  - intros a x Hx Ht. unfold w_cspace in Hx.
    apply lookup_insert_Some in Hx as [[_ <-]|[_ Hx]]; [split; [vm_compute; reflexivity|by intros _]|].
    apply lookup_insert_Some in Hx as [[_ <-]|[_ Hx]]; [vm_compute in Ht; discriminate Ht|].
    by rewrite lookup_empty in Hx.
  - vm_compute. reflexivity.
  - split; [vm_compute; reflexivity|by intros _].
  - vm_compute. discriminate.
Defined.

(** [tA] runs and has a send capability to the endpoint, [tB] waits there. *)
Definition w_fcnode : list Z := new_cnode_cap 2 62 0 0xffffff8000003000.
Definition w_fslots : slots :=
  <[get_cspace tA tcbCTable := Cte w_fcnode mdb_node_default]>
  (<[get_cspace tA tcbVTable := Cte new_null_cap mdb_node_default]>
  (<[get_cspace tB tcbVTable := Cte (new_vspace_cap 1 0xffffff8000005000 1) mdb_node_default]>
  (<[0xffffff8000003020 := Cte (new_endpoint_cap 3 1 1 1 1 eA) mdb_node_default]> ∅))).
Definition w_fstate : kst := set_k_slots w_fslots w_estate.
Definition w_fstate1 : kst := after (receive_ipc eA tB true true) w_fstate.
#[local] Instance w_hw : Hardware := {| gic_int_ack := mret 0; get_far := mret 0; get_esr := mret 0 |}.

Lemma w_receiver : ep_at w_fstate1 eA (ERecv [tB]).
Proof.
  assert (receive_ipc eA tB true true w_fstate = Ok (tt, w_fstate1)) as E by (vm_compute; reflexivity).
  eapply wp_Ok in E; [|apply (wp_receive_blocks w_fstate eA tB (w_tcb 7) []);
    [exact w_sched_inv|exact w_ep_idle|vm_compute; reflexivity|left; vm_compute; reflexivity|
     by apply not_elem_of_nil|exact (proj2 w_ptr46)]]. apply E.
Qed.
Lemma fastpath_call_is_slowpath_witness :
  fastpath_call 100 1 0 w_fstate1 = slowpath 100 (as_usize SysCall) w_fstate1.
Proof.
  apply (fastpath_call_is_slowpath w_fstate1 100 1 0 tA
    (default tcb_zero (tcbs (k_sst w_fstate1) !! tA)) NullFault (Cte w_fcnode mdb_node_default)
    (new_endpoint_cap 3 1 1 1 1 eA) CapEndpointCap);
    [vm_compute; reflexivity|by_decide|vm_compute; reflexivity|vm_compute; reflexivity|
     vm_compute; reflexivity|vm_compute; reflexivity|vm_compute; reflexivity| |].
  - intros _. split; [by_decide|]. exists (ERecv [tB]). exact w_receiver.
  - intros d t Hd.
    assert (d = tA \/ d = tB) as [-> | ->].
    { assert (d ∈ dom (tcbs (k_sst w_fstate1))) as Hin by (apply elem_of_dom; by eauto).
      assert (dom (tcbs (k_sst w_fstate1)) = {[tA; tB]}) as E by by_decide.
      rewrite E in Hin. set_solver. }
    all: eexists _, _; split; [vm_compute; reflexivity|split; [vm_compute; reflexivity|done]].
Defined.
