(* ===== verification/SwitchProps.v ===== *)
(** * The choice of the next thread: theorems

    [chooseThread] and the switch to a thread, which also loads the thread's
    address space. *)

From stdpp Require Import base numbers gmap list.
From S2P Require Import Prelude Bitfield Common Cap DList CSpace Sched Bitmap SchedProps SchedInv EpQueue SchedWit State Vspace VspaceProps Threads Delete Ipc NtfnProps.
Local Open Scope Z_scope.
Local Open Scope krn_scope.

(** ** Loading a thread's address space *)

(** Only the translation base and the hardware trace changed. *)
Definition only_vm (s s' : kst) : Prop :=
  exists v, s' = set_k_vm v s /\ armKSASIDTable v = armKSASIDTable (k_vm s) /\
    asid_pools v = asid_pools (k_vm s).

Section switch.
Implicit Types (s : kst) (a d : Z) (c l : list Z) (Q : list (list Z)).

Lemma wp_sw_slot s a x (P : cte_t -> kst -> Prop) : k_slots s !! a = Some x -> P x s -> wp (slot a) P s.
Proof. intros Hx HP. apply wp_zoom. eapply wp_load; [exact Hx|]. by destruct s. Qed.

Lemma wp_set_base s v (P : unit -> kst -> Prop) :
  (forall s', only_vm s s' -> P tt s') -> wp (setCurrentUserVSpaceRoot v) P s.
Proof.
  intros HP. unfold setCurrentUserVSpaceRoot, hw, vm_mod. wp_steps. apply HP.
  by eexists.
Qed.

Lemma wp_root_global_user s (P : unit -> kst -> Prop) :
  (forall s', only_vm s s' -> P tt s') -> wp root_global_user P s.
Proof. intros HP. unfold root_global_user, vm_get. wp_steps. by apply wp_set_base. Qed.

Lemma vs_asid_bound c : 0 <= bf_get vs_mapped_asid c < 2 ^ 16.
Proof. by apply (bf_get_bound 2). Qed.

(** The address-space capability of a thread has a legal tag. *)
Definition vroot_ok s a : Prop :=
  exists x t, k_slots s !! get_cspace a tcbVTable = Some x /\ get_cap_type (cte_cap x) = Ok t.

Lemma wp_tcb_set_vm_root s a (P : unit -> kst -> Prop) :
  vm_ok (k_vm s) -> vroot_ok s a -> (forall s', only_vm s s' -> P tt s') ->
  wp (tcb_set_vm_root a) P s.
Proof.
  intros Hv (x & t & Hx & Ht) HP. unfold tcb_set_vm_root, cspace_cap. apply wp_bind, wp_bind.
  eapply wp_sw_slot; [exact Hx|]. apply wp_ret. apply wp_bind. eapply wp_lift.
  { unfold is_valid_native_root, is_vtable_root. rewrite Ht. done. }
  destruct (negb _) eqn:Eb; [by apply wp_root_global_user|].
  apply wp_bind. eapply wp_intro; [by apply find_vspace_spec, vs_asid_bound|].
  unfold find_ret. cbn [fv_vspace_root fv_status].
  destruct (asid_root _ _); [|by apply wp_set_base].
  destruct (_ || _)%bool; [by apply wp_root_global_user|by apply wp_set_base].
Qed.
End switch.

(** ** The next thread *)

(** The first thread of the highest-priority queue that has one. *)
Definition next_thread (Q : list (list Z)) : option Z := hd_error (concat (rev Q)).

Section choose.
Implicit Types (s : kst) (Q : list (list Z)) (l : list Z) (d p : Z).

Lemma next_thread_spec Q (p : nat) d l :
  Q !! p = Some (d :: l) -> (forall q l', Q !! q = Some l' -> (p < q)%nat -> l' = []) ->
  next_thread Q = Some d.
Proof.
  intros Hp Hq. unfold next_thread. rewrite <- (take_drop_middle _ _ _ Hp), rev_app_distr. cbn [rev].
  rewrite <- app_assoc, concat_app.
  assert (concat (rev (drop (S p) Q)) = []) as ->; [|done].
  apply concat_nil_Forall. apply Forall_forall. intros l' Hl'.
  apply list_elem_of_In, in_rev, list_elem_of_In, list_elem_of_lookup in Hl' as [i Hi].
  rewrite lookup_drop in Hi. eapply Hq; [exact Hi|lia].
Qed.
Lemma next_thread_none Q : (forall q l', Q !! q = Some l' -> l' = []) -> next_thread Q = None.
Proof.
  intros Hq. unfold next_thread. assert (concat (rev Q) = []) as ->; [|done].
  apply concat_nil_Forall. apply Forall_forall. intros l' Hl'.
  apply list_elem_of_In, in_rev, list_elem_of_In, list_elem_of_lookup in Hl' as [i Hi]. by eapply Hq.
Qed.

(** The bitmap and the next thread. *)
Lemma rq_empty (s : sst) Q w :
  rq_ok s Q -> ksReadyQueuesL1Bitmap (gl s) = [w] -> w = 0 -> next_thread Q = None.
Proof.
  intros Hok Hw H0. pose proof (rq_bitmap _ _ Hok) as Hb. rewrite Hw in Hb.
  apply next_thread_none. intros q l' Hl'. pose proof (lookup_lt_Some _ _ _ Hl') as Hlt.
  rewrite (rq_len _ _ Hok) in Hlt.
  pose proof (proj1 (bitmap_empty _ _ _ Hb) H0 (Z.of_nat q) ltac:(lia)) as Hf.
  unfold nonempty_at in Hf. rewrite Nat2Z.id, Hl' in Hf. destruct l'; [done|].
  by rewrite bool_decide_true in Hf by lia.
Qed.

Lemma rq_highest (s : sst) Q w :
  rq_ok s Q -> ksReadyQueuesL1Bitmap (gl s) = [w] -> w <> 0 ->
  exists p d l, getHighestPrio 0 s = Ok (p, s) /\ 0 <= p < 256 /\
    Q !! Z.to_nat p = Some (d :: l) /\ next_thread Q = Some d.
Proof.
  intros Hok Hw H0. pose proof (rq_bitmap _ _ Hok) as Hb.
  assert (exists p, 0 <= p < 256 /\ nonempty_at Q p = true) as (p0 & Hp0 & Hf0).
  { destruct (decide (Exists (fun p => nonempty_at Q p = true) (seqZ 0 256))) as [He|Hn].
    - apply Exists_exists in He as (p & Hin & Hp). exists p. apply elem_of_seqZ in Hin. split; [lia|done].
    - exfalso. apply H0. rewrite Hw in Hb. apply (bitmap_empty _ _ _ Hb). intros p Hp.
      destruct (nonempty_at Q p) eqn:E; [|done]. exfalso. apply Hn, Exists_exists. exists p.
      split; [apply elem_of_seqZ; lia|done]. }
  destruct (highest_prio_spec s _ p0 Hb Hp0 Hf0) as (m & Hm & Hr & Hfm & Hmax).
  destruct (rq_lookup _ _ _ Hok Hr) as [l Hl]. pose proof Hfm as Hfm'. unfold nonempty_at in Hfm'.
  rewrite Hl in Hfm'. destruct l as [|d l]; [done|]. exists m, d, l. do 3 (split; [done|]).
  eapply next_thread_spec; [exact Hl|]. intros q l' Hl' Hq.
  pose proof (lookup_lt_Some _ _ _ Hl') as Hlt. rewrite (rq_len _ _ Hok) in Hlt.
  destruct l' as [|x l']; [done|]. exfalso.
  assert (nonempty_at Q (Z.of_nat q) = true) as Hfq.
  { unfold nonempty_at. rewrite Nat2Z.id, Hl'. by rewrite bool_decide_true by lia. }
  pose proof (Hmax (Z.of_nat q) ltac:(lia) Hfq). lia.
Qed.

(** The threads but for their queue links and marks. *)
Definition same_threads (x x' : sst) : Prop := forall a, tcb_strip <$> tcbs x' !! a = tcb_strip <$> tcbs x !! a.
(** Choosing a thread leaves the threads, the capabilities and the ASIDs. *)
Definition switched s s' : Prop := same_threads (k_sst s) (k_sst s') /\ k_slots s' = k_slots s /\
  armKSASIDTable (k_vm s') = armKSASIDTable (k_vm s) /\ asid_pools (k_vm s') = asid_pools (k_vm s).
Lemma switched_vm s s' : switched s s' -> vm_ok (k_vm s) -> vm_ok (k_vm s').
Proof. intros (_ & _ & Et & Ep) [H1 H2 H3]. by split; rewrite ?Et, ?Ep. Qed.
Lemma rq_ok_cur (s0 : sst) Q v : rq_ok s0 Q -> rq_ok (Sst (tcbs s0) (set_ksCurThread v (gl s0))) Q.
Proof. intros [H1 H2 H3 H4 H5 H6 H7]. by split. Qed.

Lemma wp_switch_to_this s Q d t (P : unit -> kst -> Prop) :
  vm_ok (k_vm s) -> vroot_ok s d -> rq_ok (k_sst s) Q -> tcbs (k_sst s) !! d = Some t ->
  (forall s', ksCurThread (gl (k_sst s')) = d -> rq_ok (k_sst s') (dequeued d t Q) ->
    switched s s' -> P tt s') ->
  wp (switch_to_this d) P s.
Proof.
  intros Hv Hr Hok Ht HP. unfold switch_to_this. apply wp_bind. apply wp_tcb_set_vm_root; [done|done|].
  intros s1 (v & -> & Et & Ep). apply wp_bind, wp_zoom. eapply wp_sched_dequeue; [exact Hok|exact Ht|].
  intros x Hx [_ Hf]. apply wp_zoom. unfold set_current_thread, gl_mod. wp_steps.
  by apply HP; [|apply rq_ok_cur|split_and!].
Qed.

(** What [chooseThread] does to the queues [Q]. *)
Definition chosen Q s s' : Prop :=
  match next_thread Q with
  | Some d => ksCurThread (gl (k_sst s')) = d /\
      exists t, tcbs (k_sst s) !! d = Some t /\ rq_ok (k_sst s') (dequeued d t Q)
  | None => ksCurThread (gl (k_sst s')) = ksIdleThread (gl (k_sst s)) /\ rq_ok (k_sst s') Q
  end.
Lemma wp_chooseThread s Q (P : unit -> kst -> Prop) :
  rq_ok (k_sst s) Q -> vm_ok (k_vm s) -> (forall d, next_thread Q = Some d -> vroot_ok s d) ->
  (forall s', chosen Q s s' -> switched s s' -> P tt s') -> wp chooseThread P s.
Proof.
  intros Hok Hv Hr HP. unfold chosen in HP. unfold chooseThread, gl_get. apply wp_bind, wp_zoom, wp_gets.
  replace (set_k_sst (k_sst s) s) with s by by destruct s. unfold id.
  destruct (bm_l1 _ _ _ (rq_bitmap _ _ Hok)) as (w & Hw & Hw0).
  apply wp_bind. eapply wp_lift; [rewrite Hw; by apply (idx_Ok [w] 0 w)|].
  case_bool_decide as E; cbn [negb].
  - rewrite (rq_empty _ _ _ Hok Hw E) in HP. apply wp_bind, wp_root_global_user.
    intros s1 (v & -> & Et & Ep). apply wp_zoom. unfold gl_mod. wp_steps. apply HP; [|by split_and!].
    split; [done|]. by apply rq_ok_cur.
  - destruct (rq_highest _ _ _ Hok Hw E) as (p & d & l & Hp & Hpr & Hl & Hn). rewrite Hn in HP.
    apply wp_bind, wp_zoom. eapply wp_intro; [exact Hp|].
    replace (set_k_sst (k_sst s) s) with s by by destruct s.
    apply wp_bind. eapply wp_lift.
    { rewrite ready_queues_index_spec by done. rewrite (rq_queues _ _ Hok).
      apply (idx_Ok _ _ (queue_of (d :: l))); [lia|]. by rewrite list_lookup_fmap, Hl. }
    change (head (queue_of (d :: l))) with d.
    destruct (rq_elem _ _ _ _ d Hok Hl ltac:(set_solver)) as (t & Ht & _).
    apply wp_bind, wp_assert.
    { rewrite bool_decide_false; [done|]. intros ->. by rewrite (rq_null _ _ Hok) in Ht. }
    eapply wp_switch_to_this; [done|by apply Hr|exact Hok|exact Ht|]. intros s' Hc Hq Hs.
    apply HP; [|exact Hs]. split; [done|]. eauto.
Qed.
End choose.

(** C5: [chooseThread] makes the first thread of the highest-priority
    non-empty queue current and takes it out of its queue; with all queues
    empty the idle thread becomes current.  It always returns: the bitmap finds
    no missing queue and the thread's address space can be loaded. *)
Theorem chooseThread_highest (s : kst) (Q : list (list Z)) :
  rq_ok (k_sst s) Q -> vm_ok (k_vm s) -> (forall d, next_thread Q = Some d -> vroot_ok s d) ->
  wp chooseThread (fun _ s' =>
    match next_thread Q with
    | Some d => ksCurThread (gl (k_sst s')) = d /\
        exists t, tcbs (k_sst s) !! d = Some t /\ rq_ok (k_sst s') (dequeued d t Q)
    | None => ksCurThread (gl (k_sst s')) = ksIdleThread (gl (k_sst s)) /\ rq_ok (k_sst s') Q
    end) s.
Proof. intros Hok Hv Hr. by eapply wp_chooseThread. Qed.

(** ** Instances *)
Definition w_choose : kst :=
  set_k_slots {[get_cspace tB tcbVTable := cte_default]} (set_k_sst w_sst1 kst_empty).
Lemma w_sw_vm_ok base : vm_ok (vm_init base).
Proof.
  split; cbn.
  - done.
  - intros i p Hp Hn. apply lookup_replicate in Hp as [-> _]. done.
  - intros i j p Hp _ Hn. apply lookup_replicate in Hp as [-> _]. done.
Qed.
Lemma chooseThread_highest_witness :
  next_thread w_Q1 = Some tB /\
  wp chooseThread (fun _ s' =>
    match next_thread w_Q1 with
    | Some d => ksCurThread (gl (k_sst s')) = d /\
        exists t, tcbs (k_sst w_choose) !! d = Some t /\ rq_ok (k_sst s') (dequeued d t w_Q1)
    | None => ksCurThread (gl (k_sst s')) = ksIdleThread (gl (k_sst w_choose)) /\ rq_ok (k_sst s') w_Q1
    end) w_choose.
Proof.
  split; [vm_compute; reflexivity|].
  apply (chooseThread_highest w_choose w_Q1); [exact w_rq1|apply w_sw_vm_ok|].
  intros d Hd. vm_compute in Hd. injection Hd as <-.
  exists cte_default, CapNullCap. split; [by_decide|]. vm_compute. reflexivity.
Defined.
