(* ===== verification/UntypedProps.v ===== *)
(** * Untyped memory: theorems

    Resetting an untyped object clears its region in chunks ([RetypeProps] has
    the objects that a retype makes).  Three results are about errors of the
    code: the device bit of an untyped capability is never seen, a reset of a
    small object clears its neighbours, and notifications created together
    overlap. *)

From stdpp Require Import base numbers gmap list.
From S2P Require Import Prelude Bitfield Common Cap DList CSpace CSpaceProps Sched SchedInv State Vspace Threads Delete Ipc Finalise Syscall CNodeInv UntypedInv VspaceProps NtfnProps EpProps SchedWit CSpaceWit.
Local Open Scope Z_scope.
Local Open Scope krn_scope.

(** ** Clearing memory *)
(** The state with the bytes [[a, a + n)] cleared. *)
Definition zeroed (a n : Z) (s : kst) : kst :=
  let k := k_sst s in
  Kst (outside a n (k_slots s)) (Sst (outside a n (tcbs k)) (gl k))
    (outside a n (k_eps s)) (outside a n (k_ntfns s))
    (zero_words a n ∪ outside a n (k_mem s)) (k_sys s) (k_irq s)
    (set_asid_pools (outside a n (asid_pools (k_vm s))) (k_vm s)).
(** The state with another trace of hardware events. *)
Definition traced (l : list hw_event) (s : kst) : kst :=
  let v := k_vm s in
  set_k_vm (Vm (armKSASIDTable v) (asid_pools v) (ttbr0 v) (arm_global_user_vspace_base v) l) s.

Section clear.
Implicit Types (s : kst) (a n m k : Z) (l : list hw_event).

Lemma outside_lookup {A} a n (h : gmap Z A) p :
  outside a n h !! p = if decide (a <= p < a + n) then None else h !! p.
Proof.
  unfold outside. rewrite map_lookup_filter. destruct (h !! p) as [x|] eqn:E; cbn; [|by case_decide].
  case_decide as E1; [rewrite option_guard_False by tauto; done|by rewrite option_guard_True by done].
Qed.
Lemma outside_outside {A} a m n (h : gmap Z A) :
  0 <= m -> 0 <= n -> outside a m (outside (a + m) n h) = outside a (m + n) h.
Proof.
  intros Hm Hn. apply map_eq. intros p. rewrite !outside_lookup.
  repeat case_decide; first [done | lia].
Qed.
Lemma outside_none {A} a n (h : gmap Z A) :
  (forall p, a <= p < a + n -> h !! p = None) -> outside a n h = h.
Proof. intros H. apply map_eq. intros p. rewrite outside_lookup. case_decide; [symmetry; by apply H|done]. Qed.

Lemma zero_words_lookup a n p :
  zero_words a n !! p = if decide ((p - a) `mod` 8 = 0 /\ 0 <= (p - a) / 8 < n / 8) then Some 0 else None.
Proof.
  unfold zero_words. case_decide as E.
  - apply elem_of_list_to_map_1.
    + rewrite <- list_fmap_compose. apply NoDup_fmap_2_strong; [|apply NoDup_seqZ]. intros x y _ _. cbn. lia.
    + apply list_elem_of_fmap. exists ((p - a) / 8). split; [|apply elem_of_seqZ; lia].
      f_equal. pose proof (Z.div_mod (p - a) 8). lia.
  - apply not_elem_of_list_to_map_1. rewrite <- list_fmap_compose. intros Hin. apply E.
    apply list_elem_of_fmap in Hin as (i & -> & Hi). apply elem_of_seqZ in Hi. cbn.
    replace (a + 8 * i - a) with (i * 8) by lia. rewrite Z.mod_mul, Z.div_mul by lia. lia.
Qed.

Lemma zeroed_zeroed a m n s :
  0 <= m -> 0 <= n -> m `mod` 8 = 0 -> n `mod` 8 = 0 -> zeroed a m (zeroed (a + m) n s) = zeroed a (m + n) s.
Proof.
  intros Hm Hn Hm8 Hn8. unfold zeroed. cbn. rewrite !outside_outside by done. f_equal.
  apply map_eq. intros p. rewrite !lookup_union, !zero_words_lookup, !outside_lookup, lookup_union,
    zero_words_lookup, outside_lookup. apply Z.mod_divide in Hm8 as [i ->]; [|lia].
  apply Z.mod_divide in Hn8 as [j ->]; [|lia].
  rewrite <- Z.mul_add_distr_r, !Z.div_mul by lia. replace (p - (a + i * 8)) with (p - a + (- i) * 8) by lia.
  rewrite Z.mod_add, Z.div_add by lia. pose proof (Z.div_mod (p - a) 8 ltac:(lia)).
  pose proof (Z.mod_pos_bound (p - a) 8 ltac:(lia)).
  repeat case_decide; try lia; by destruct (k_mem s !! p).
Qed.
Lemma zeroed_traced a n l s : zeroed a n (traced l s) = traced l (zeroed a n s).
Proof. done. Qed.
Lemma traced_traced l l' s : traced l (traced l' s) = traced l s.
Proof. done. Qed.

Lemma wp_clear_memory a bits s (Q : unit -> kst -> Prop) :
  0 <= bits < 64 -> (forall l, Q tt (traced l (zeroed a (2 ^ bits) s))) -> wp (clear_memory a bits) Q s.
Proof.
  intros Hb HQ. unfold clear_memory. rewrite BIT_spec by done. apply wp_bind, wp_modify.
  unfold hw, vm_mod. apply wp_modify. exact (HQ _).
Qed.

(** The chunks from [k] down to the first. *)
Lemma wp_reset_loop base : forall (k : nat) fuel s (Q : Z -> kst -> Prop),
  (k < fuel)%nat -> is_word base -> is_word (base + 256 * Z.of_nat k) ->
  (forall l, Q (- 256) (traced l (zeroed base (256 * Z.of_nat k) s))) ->
  wp (reset_loop fuel base (256 * (Z.of_nat k - 1))) Q s.
Proof.
  change CONFIG_RESET_CHUNK_BITS with 8. change (BIT 8) with 256.
  induction k as [|k IH]; intros fuel s Q Hf Hb Hw HQ; (destruct fuel as [|fuel]; [lia|]); cbn [reset_loop].
  - change (- BIT CONFIG_RESET_CHUNK_BITS) with (-256). apply wp_ret. replace s with (traced (hw_trace (k_vm s)) (zeroed base 0 s)).
    + exact (HQ _).
    + unfold zeroed. destruct s as [? [] ? ? ? ? ? []]. unfold traced, set_k_vm. cbn.
      rewrite !outside_none by lia. f_equal. apply map_eq. intros p. rewrite lookup_union, zero_words_lookup.
      change (0 / 8) with 0. rewrite decide_False by lia. by destruct (_ !! p).
  - change (- BIT CONFIG_RESET_CHUNK_BITS) with (-256). change (BIT CONFIG_RESET_CHUNK_BITS) with 256.
    rewrite bool_decide_false by lia. unfold is_word in *.
    unfold GET_OFFSET_FREE_PTR. rewrite (wrap_id (256 * _)) by (unfold is_word; lia).
    rewrite wadd_small by (unfold is_word; lia). apply wp_bind, wp_clear_memory; [by vm_compute|].
    intros l. change (2 ^ CONFIG_RESET_CHUNK_BITS) with 256.
    replace (256 * (Z.of_nat (S k) - 1) - 256) with (256 * (Z.of_nat k - 1)) by lia.
    apply IH; [lia|done|lia|]. intros l'. rewrite zeroed_traced, traced_traced.
    replace (base + 256 * (Z.of_nat (S k) - 1)) with (base + 256 * Z.of_nat k) by lia.
    rewrite zeroed_zeroed; [|lia|lia|rewrite Z.mul_comm; change 256 with (32 * 8); rewrite Z.mul_assoc; apply Z.mod_mul; lia|done].
    replace (256 * Z.of_nat k + 256) with (256 * Z.of_nat (S k)) by lia. apply HQ.
Qed.
End clear.

(** ** The untyped capability *)
(** A capability to [2 ^ bs] bytes at [base], of which [off] are used. *)
Record untyped_cap (c : list Z) (bs base off : Z) : Prop := {
  ut_words : length c = 2%nat;
  ut_bits : bf_get untyped_block_size c = bs;
  ut_ptr : bf_get untyped_ptr c = base;
  ut_free : FREE_INDEX_TO_OFFSET (bf_get untyped_free_index c) = off;
  ut_range : 4 <= bs <= 47 /\ 0 <= base /\ base + 2 ^ bs <= 2 ^ 64;
  ut_aligned : base `mod` 2 ^ bs = 0;
  ut_used : 0 <= off <= 2 ^ bs }.

Section cap.
Implicit Types (s : kst) (c : list Z) (bs base off d p : Z).

Lemma bf_get_plain_testbit n f ws i :
  wf_bf n f = true -> bf_shift f = 0 -> bf_sign f = false -> 0 <= i ->
  Z.testbit (bf_get f ws) i = Z.testbit (ws !!! bf_index f) (i + bf_offset f) && bool_decide (i < bf_bits f).
Proof.
  intros Hf Hs Hg Hi. rewrite bf_get_raw, Hs, Hg. unfold bf_sext. cbn [andb].
  rewrite wshl_testbit by lia. rewrite Z.sub_0_r, (bf_raw_testbit n) by done.
  assert (bf_bits f <= 64) by (unfold wf_bf in Hf; apply bool_decide_eq_true in Hf; lia).
  destruct (decide (i < bf_bits f)); [rewrite !bool_decide_true by lia|rewrite (bool_decide_false (i < bf_bits f)) by lia];
    by rewrite ?andb_true_r, ?andb_false_r.
Qed.
(** The accessor [get_frame_is_device] reads a bit of the address. *)
Lemma frame_is_device_bit c : bf_get frame_is_device c = Z.b2z (Z.testbit (bf_get untyped_ptr c) 6).
Proof.
  assert (Z.testbit (bf_get untyped_ptr c) 6 = Z.testbit (c !!! 0%nat) 6) as ->.
  { rewrite bf_get_raw. unfold bf_sext, untyped_ptr. cbn [bf_shift bf_sign]. rewrite andb_true_l. fold untyped_ptr.
    assert (Z.testbit (wshl (bf_raw untyped_ptr c) 0) 6 = Z.testbit (c !!! 0%nat) 6) as E.
    { rewrite wshl_testbit by lia. rewrite (bf_raw_testbit 2) by done. cbn [untyped_ptr bf_index bf_offset bf_bits].
      by rewrite !andb_true_r. }
    case_match; [|exact E]. rewrite Z.lor_spec, E. by rewrite orb_false_r. }
  apply Z.bits_inj'. intros i Hi. rewrite (bf_get_plain_testbit 2) by done. cbn [frame_is_device bf_index bf_offset bf_bits].
  destruct (decide (i = 0)) as [->|Hne]; [by rewrite andb_true_r, Z.b2z_bit0|].
  rewrite bool_decide_false by lia. rewrite andb_false_r. destruct (Z.testbit _ 6); cbn; [|by rewrite Z.bits_0].
  change 1 with (2 ^ 0). by rewrite Z.pow2_bits_false by lia.
Qed.
Lemma aligned_testbit x bs i : 0 <= i < bs -> x `mod` 2 ^ bs = 0 -> Z.testbit x i = false.
Proof.
  intros Hi Hx. rewrite (Z.div_mod x (2 ^ bs)) by lia. rewrite Hx, Z.add_0_r, Z.mul_comm, <- Z.shiftl_mul_pow2 by lia.
  rewrite Z.shiftl_spec by lia. apply Z.testbit_neg_r. lia.
Qed.
Lemma untyped_not_device c bs base off : untyped_cap c bs base off -> 7 <= bs -> bf_get frame_is_device c = 0.
Proof.
  intros Hc Hbs. rewrite frame_is_device_bit, (ut_ptr _ _ _ _ Hc), (aligned_testbit _ bs); [done|lia|apply Hc].
Qed.
End cap.

(** ** Resetting *)
Section reset.
Implicit Types (s : kst) (c : list Z) (x : cte_t) (bs base off p : Z) (l : list hw_event).

(** What a reset leaves of a state: whole chunks cleared, another free index. *)
Definition after_reset (p : Z) (x : cte_t) (base off : Z) (l : list hw_event) (s : kst) : kst :=
  let z := zeroed base (256 * ((off - 1) / 256 + 1)) s in
  traced l (set_k_slots (<[p := set_cap (bf_set untyped_free_index (OFFSET_TO_FREE_IDNEX (wrap (- 256))) (cte_cap x)) x]>
    (k_slots z)) z).

Lemma wp_slot_cap p s x (Q : list Z -> kst -> Prop) :
  k_slots s !! p = Some x -> Q (cte_cap x) s -> wp (slot_cap p) Q s.
Proof. intros Hx HQ. apply wp_bind, wp_zoom. eapply wp_load; [exact Hx|]. by destruct s. Qed.
Lemma wp_slot_upd p f s x (Q : unit -> kst -> Prop) :
  k_slots s !! p = Some x -> Q tt (set_k_slots (<[p := f x]> (k_slots s)) s) -> wp (slot_mod p f) Q s.
Proof. intros Hx HQ. apply wp_zoom. by eapply wp_store_with. Qed.

Lemma wp_reset_untyped p s x bs base off (Q : exception_t -> kst -> Prop) :
  k_slots s !! p = Some x -> untyped_cap (cte_cap x) bs base off -> bf_get frame_is_device (cte_cap x) = 0 ->
  0 < off -> base + 256 * ((off - 1) / 256 + 1) < 2 ^ 64 ->
  ~ base <= p < base + 256 * ((off - 1) / 256 + 1) ->
  (forall l, Q EXCEPTION_NONE (after_reset p x base off l s)) ->
  wp (reset_untyped_cap p) Q s.
Proof.
  intros Hx Hc Hdev Hoff Hlt Hp HQ. pose proof (ut_range _ _ _ _ Hc) as (Hbs & Hb & He).
  pose proof (ut_used _ _ _ _ Hc) as Hu. set (k := (off - 1) / 256) in *.
  assert (0 <= k) as Hk by (apply Z.div_pos; lia). assert (2 ^ bs <= 2 ^ 47) by (apply Z.pow_le_mono_r; lia).
  assert (off < 2 ^ 64) as Hoff64 by lia.
  unfold reset_untyped_cap. apply wp_bind, (wp_slot_cap _ _ x); [done|].
  rewrite (ut_free _ _ _ _ Hc), (ut_ptr _ _ _ _ Hc), Hdev. rewrite (bool_decide_false (off = 0)) by lia.
  rewrite (bool_decide_true (0 = 0)) by done. cbn [negb andb].
  change CONFIG_RESET_CHUNK_BITS with 8. rewrite wsub_small by (unfold is_word; lia).
  rewrite ROUND_DOWN_spec by (unfold is_word; lia). change (2 ^ 8) with 256. change (BIT 8) with 256.
  pose proof (Z.div_mod (off - 1) 256 ltac:(lia)) as Hdm. fold k in Hdm.
  replace (off - 1 - (off - 1) `mod` 256) with (256 * k) by lia.
  rewrite Z.mul_comm, Z.div_mul by lia. replace (k * 256) with (256 * (Z.of_nat (Z.to_nat (k + 1)) - 1)) by lia.
  apply wp_bind, wp_bind, wp_reset_loop; [lia|unfold is_word; lia|unfold is_word; lia|].
  intros l. rewrite Z2Nat.id by lia. eapply wp_slot_upd; [|apply wp_ret; exact (HQ l)].
  cbn. rewrite outside_lookup. by rewrite decide_False by lia.
Qed.

(** [reset_untyped_cap] clears whole chunks of 256 bytes, also when the
    untyped object is smaller: resetting an object of 16 to 128 bytes of which
    some are used destroys every object in the rest of its chunk, whatever it
    belongs to, and zeroes its memory. *)
Theorem reset_small_clears_neighbours p s x bs base off :
  k_slots s !! p = Some x -> untyped_cap (cte_cap x) bs base off -> bf_get frame_is_device (cte_cap x) = 0 ->
  bs < 8 -> 0 < off -> base + 256 < 2 ^ 64 -> ~ base <= p < base + 256 ->
  wp (reset_untyped_cap p) (fun e s' => e = EXCEPTION_NONE /\
    forall a, base + 2 ^ bs <= a < base + 256 ->
      k_slots s' !! a = None /\ tcbs (k_sst s') !! a = None /\ k_eps s' !! a = None /\
      k_ntfns s' !! a = None /\ ((a - base) `mod` 8 = 0 -> k_mem s' !! a = Some 0)) s.
Proof.
  intros Hx Hc Hdev Hbs Hoff Hlt Hp. pose proof (ut_used _ _ _ _ Hc) as Hu. pose proof (ut_range _ _ _ _ Hc) as Hr.
  assert (2 ^ bs <= 2 ^ 7) as Hpow by (apply Z.pow_le_mono_r; lia).
  assert ((off - 1) / 256 = 0) as E by (apply Z.div_small; lia).
  apply (wp_reset_untyped p s x bs base off); rewrite ?E; try done.
  intros l. split; [done|]. intros a Ha. assert (base <= a < base + 256) as Hin by lia.
  unfold after_reset. rewrite E. change (256 * (0 + 1)) with 256. cbn -[outside zero_words].
  rewrite lookup_insert_ne by lia. rewrite !outside_lookup, !decide_True by done. split_and!; try done.
  intros Hm. rewrite lookup_union, zero_words_lookup, outside_lookup. rewrite (decide_True (P := base <= a < _)) by done.
  rewrite decide_True; [done|]. split; [done|]. change (256 / 8) with 32. split; [apply Z.div_pos; lia|].
  apply Z.div_lt_upper_bound; lia.
Qed.
End reset.

(** ** Device memory *)
(** The device bit of an untyped capability is never looked at: of any
    untyped object of at least 128 bytes a retype invocation does the same
    whether the bit is set or not, and takes the memory for ordinary memory. *)
Theorem retype_ignores_device (c : list Z) (bs base off d : Z) (label : MessageLabel) (length slot_ buffer : Z) (s : kst) :
  untyped_cap c bs base off -> 7 <= bs ->
  let device := bf_set untyped_is_device d c in
  bf_get untyped_is_device device = bf_norm untyped_is_device d /\
  decode_untyed_invocation label length slot_ device buffer s = decode_untyed_invocation label length slot_ c buffer s /\
  bf_get frame_is_device device = 0.
Proof.
  intros Hc Hbs device.
  assert (forall f, f ∈ [untyped_free_index; untyped_block_size; untyped_ptr; frame_is_device] ->
    bf_get f device = bf_get f c) as E.
  { intros f Hf. apply (bf_get_set_other 2 2); [|done|]; repeat (apply elem_of_cons in Hf as [->|Hf]; [done|]);
      by apply elem_of_nil in Hf. }
  split; [apply (bf_get_set_same 2); [done|apply Hc]|]. split.
  - unfold decode_untyed_invocation, untyped_checked. by rewrite !E by set_solver.
  - rewrite E by set_solver. by eapply untyped_not_device.
Qed.

(** ** Notifications *)
Section notifications.
Implicit Types (s : kst) (n : nat) (p : Z).

Lemma word_get_inv p s v s' : word_get p s = Ok (v, s') -> is_Some (k_mem s !! p) /\ s' = s.
Proof.
  intros (h & Hv & ->)%zoom_inv. unfold load in Hv. destruct (k_mem s !! p) eqn:E; [|done].
  injection Hv as <- <-. split; [by eexists|by destruct s].
Qed.
(** Taking words removes them. *)
Lemma take_words_inv n p s ws s' :
  take_words n p s = Ok (ws, s') ->
  (forall i, 0 <= i < Z.of_nat n -> is_Some (k_mem s !! (p + 8 * i)) /\ k_mem s' !! (p + 8 * i) = None) /\
  (forall a, k_mem s !! a = None -> k_mem s' !! a = None) /\ k_sst s' = k_sst s.
Proof.
  revert p s ws s'. induction n as [|n IH]; intros p s ws s' H; cbn in H.
  - inv_ok. split_and!; [lia|done..].
  - inv_ok. apply word_get_inv in H0 as [Hp ->].
    match goal with H : on_mem _ _ = _ |- _ => apply zoom_inv in H as (m & Hm & ->); inv_ok end.
    match goal with H : take_words n _ _ = _ |- _ => apply IH in H as (Hin & Hout & Hs) end. cbn in Hin, Hout, Hs. split_and!; [| |done].
    + intros i Hi. destruct (decide (i = 0)) as [->|Hne].
      * rewrite Z.mul_0_r, Z.add_0_r. split; [done|]. apply Hout, lookup_delete_eq.
      * destruct (Hin (i - 1) ltac:(lia)) as [H1 H2]. replace (p + 8 + 8 * (i - 1)) with (p + 8 * i) in * by lia.
        split; [|done]. rewrite lookup_delete_ne in H1 by lia. done.
    + intros a Ha. apply Hout. by rewrite lookup_delete_None; right.
Qed.

Lemma create_ntfn_inv base user dev s c s' :
  create_object NotificationObject base user dev s = Ok (c, s') ->
  (forall i, 0 <= i < 4 -> is_Some (k_mem s !! (base + 8 * i)) /\ k_mem s' !! (base + 8 * i) = None).
Proof.
  cbn [create_object]. intros H. inv_ok.
  match goal with H : take_words _ _ _ = _ |- _ => apply take_words_inv in H as [Hin _] end.
  match goal with H : on_ntfns _ _ = _ |- _ => apply zoom_inv in H as (m & Hm & ->); inv_ok end.
  intros i Hi. apply (Hin i). lia.
Qed.

(** A notification takes 32 bytes but objects of its kind are placed 16
    bytes apart: when two or more are created together the second is made out
    of memory that is the first one, and no outcome of the code is defined. *)
Theorem retype_notifications_overlap (parent dest offset num base user dev : Z) (s : kst) r :
  2 <= num -> 0 <= base -> base + 16 < 2 ^ 64 ->
  create_new_objects NotificationObject parent dest offset num base user dev s <> Ok r.
Proof.
  intros Hnum Hb Hlt H. destruct r as [[] s']. unfold create_new_objects in H. inv_ok.
  match goal with H : get_object_size _ _ = _ |- _ => injection H as <- end.
  destruct (Z.to_nat num) as [|[|k]] eqn:Ek; [lia|lia|]. cbn [for_range] in H. inv_ok.
  change (wshl 0 seL4_NotificationBits) with 0 in *. change (wshl (0 + 1) seL4_NotificationBits) with 16 in *.
  repeat match goal with
  | H : create_object _ (wadd base 0) _ _ _ = _ |- _ =>
      rewrite wadd_small in H by (unfold is_word; lia); apply create_ntfn_inv with (i := 2) in H as [_ Hnone]; [|lia]
  | H : create_object _ (wadd base 16) _ _ _ = _ |- _ =>
      rewrite wadd_small in H by (unfold is_word; lia); apply create_ntfn_inv with (i := 0) in H as [[v Hv] _]; [|lia]
  | H : ref (get_offset_slot _ (wadd _ 0)) _ = _ |- _ => unfold ref in H; inv_ok
  | H : on_slots (insert_new_cap parent (get_offset_slot _ (wadd _ 0)) _) _ = _ |- _ => apply zoom_inv in H as (h & _ & ->)
  end.
  cbn in Hv. replace (base + 0 + 8 * 2) with (base + 16) in Hnone by lia.
  replace (base + 16 + 8 * 0) with (base + 16) in Hv by lia. by rewrite Hnone in Hv.
Qed.
End notifications.

(** ** The caller of an invocation *)
(** The current thread is to restart; scheduling apart, nothing else changes. *)
Definition restarted (x y : sst) : Prop :=
  switches (Sst (alter (ts_set ts_type (ThreadState_to_usize ThreadStateRestart)) (ksCurThread (gl x)) (tcbs x)) (gl x)) y.
Lemma wp_current_restart (s : kst) (Q : unit -> kst -> Prop) :
  sched_inv (k_sst s) -> (forall y, restarted (k_sst s) y -> Q tt (set_k_sst y s)) -> wp current_restart Q s.
Proof.
  intros Hi HQ. unfold current_restart. apply wp_bind, wp_zoom, wp_cur; [done|].
  apply wp_zoom. cbn. destruct s. apply wp_set_thread_state; [exact Hi|apply (si_cur _ Hi)|]. intros y Hy. by apply HQ.
Qed.

(** ** Instances *)
Definition w_ubase : Z := 0xffffff8000100000.
(** Of 2 ^ 16 bytes the first 256 are used; of 16 bytes all are. *)
Definition w_ut : list Z := new_untyped_cap 0x10 0 16 w_ubase.
Definition w_small : list Z := new_untyped_cap 1 0 4 w_ubase.
Definition w_uslots (c : list Z) : slots :=
  <[sA := Cte c (mdb_node_new 0 1 1 0)]> (<[sC := cte_default]> (<[sD := cte_default]> ∅)).
Definition w_ustate (c : list Z) : kst := set_k_slots (w_uslots c) (set_k_sst w_sst kst_empty).
Lemma w_ut_ok : untyped_cap w_ut 16 w_ubase 0x100.
Proof. split; by_compute. Qed.
Lemma w_small_ok : untyped_cap w_small 4 w_ubase 16.
Proof. split; by_compute. Qed.
Lemma reset_small_clears_neighbours_witness :
  wp (reset_untyped_cap sA) (fun e s' => e = EXCEPTION_NONE /\
    forall a, w_ubase + 2 ^ 4 <= a < w_ubase + 256 ->
      k_slots s' !! a = None /\ tcbs (k_sst s') !! a = None /\ k_eps s' !! a = None /\
      k_ntfns s' !! a = None /\ ((a - w_ubase) `mod` 8 = 0 -> k_mem s' !! a = Some 0)) (w_ustate w_small).
Proof.
  apply (reset_small_clears_neighbours sA (w_ustate w_small) (Cte w_small (mdb_node_new 0 1 1 0)) 4 w_ubase 16);
    [by_compute|exact w_small_ok|by_compute|by_decide..].
Defined.

Lemma retype_ignores_device_witness :
  let device := bf_set untyped_is_device 1 w_ut in
  bf_get untyped_is_device device = bf_norm untyped_is_device 1 /\
  decode_untyed_invocation UntypedRetype 6 sA device 0 (w_ustate w_ut) =
    decode_untyed_invocation UntypedRetype 6 sA w_ut 0 (w_ustate w_ut) /\
  bf_get frame_is_device device = 0.
Proof.
  apply (retype_ignores_device w_ut 16 w_ubase 0x100 1 UntypedRetype 6 sA 0 (w_ustate w_ut)); [exact w_ut_ok|by_decide].
Defined.

Lemma retype_notifications_overlap_witness :
  let s := set_k_mem (zero_words w_ubase 64) (w_ustate w_ut) in
  create_new_objects NotificationObject sA sA 2 2 w_ubase 0 0 s <> Ok (tt, s).
Proof. intros s. apply (retype_notifications_overlap sA sA 2 2 w_ubase 0 0 s); by_decide. Defined.
