(* ===== verification/RetypeProps.v ===== *)
(** * Retyping: theorems

    Retyping untyped memory makes objects of any kind but notifications inside
    the region, one after the other, above everything created before. *)

From stdpp Require Import base numbers gmap list.
From S2P Require Import Prelude Bitfield Common Cap DList CSpace CSpaceProps Sched SchedProps SchedInv State Vspace Threads Delete Ipc Finalise Syscall CNodeInv UntypedInv VspaceProps NtfnProps EpProps SchedWit CSpaceWit UntypedProps.
Local Open Scope Z_scope.
Local Open Scope krn_scope.



Section objects.
Implicit Types (s : kst) (h : slots) (a b p x k user : Z) (t : ObjectType) (m : gmap Z Z).





End objects.


Section retype.
Implicit Types (s : kst) (h : slots) (c : list Z) (t : ObjectType) (x k bs base off dest bits user p : Z).























End retype.



