(* ===== verification/Reuse.v ===== *)
(** * What the kernel keeps: reusing memory

    Three invocations turn memory into something else: retyping untyped memory
    (which clears it first when nothing is left of what it held), unmapping a
    page table and making an ASID pool.  They keep [kernel_ok] when the
    scheduler has no use for the threads in what they clear ([unused]: a thread
    that was suspended and deleted, for instance); a new thread never takes the
    place of another, because it is made out of plain memory. *)

From stdpp Require Import base numbers gmap list.
From S2P Require Import Prelude Bitfield Common Cap DList CSpace Sched SchedProps SchedInv State Vspace Threads Delete Ipc Finalise Syscall CNodeInv UntypedInv TcbInv MmuInv IrqInv Kernel Keep KernelKeep UntypedProps.
Local Open Scope Z_scope.
Local Open Scope krn_scope.

(** ** The invariant of the kernel *)
(** The invariant of the scheduler, an idle thread, priorities that are
    priorities, the only domain; no address is both a thread and plain memory, and the
    addresses of plain memory are words. *)
Record kernel_ok (s : kst) : Prop := {
  ko_sched : sched_inv (k_sst s);
  ko_idle : is_Some (tcbs (k_sst s) !! ksIdleThread (gl (k_sst s)));
  ko_mcp : forall a t, tcbs (k_sst s) !! a = Some t -> tcbMCP t <= 255;
  ko_domain : ksCurDomain (gl (k_sst s)) = 0;
  ko_apart : forall a, is_Some (k_mem s !! a) -> tcbs (k_sst s) !! a = None;
  ko_words : forall a, is_Some (k_mem s !! a) -> is_word a }.

Section dims.
Implicit Types (s : kst) (a n : Z).
Definition dims_of (R : gmap Z cte_t -> Prop) s : dims := Dims (dom (tcbs (k_sst s))) (dom (k_mem s)) R.
#[export] Instance dims_of_loose s : Loose (dims_of (fun _ => True) s).
Proof. by intros ?. Qed.
Lemma ko_at R s : kernel_ok s -> R (k_slots s) -> at_sst (dm := dims_of R s) (kinv (dm := dims_of R s)) s.
Proof. intros [] HR. by split_and!. Qed.
Lemma at_ko R s0 s :
  kernel_ok s0 -> at_sst (dm := dims_of R s0) (kinv (dm := dims_of R s0)) s ->
  kernel_ok s /\ dom (tcbs (k_sst s)) = dom (tcbs (k_sst s0)).
Proof.
  intros H0 ((Hs & [Hi Hm Hd Hc]) & Hk & _). cbn in Hd, Hk. split; [|done].
  split; try done; intros a Ha%elem_of_dom; rewrite Hk in Ha; apply elem_of_dom in Ha; [|by eapply ko_words].
  apply not_elem_of_dom. rewrite Hd. by apply not_elem_of_dom, (ko_apart _ H0).
Qed.

(** The invariant, with the threads where they are. *)
Lemma ko_any {A} thr (m : ST kst A) : (forall (dm : dims), Loose dm -> kp KI m) ->
  kp (fun s => kernel_ok s /\ dom (tcbs (k_sst s)) = thr) m.
Proof.
  intros Hm s r s' [Hs <-] E. eapply (at_ko (fun _ => True)); [done|].
  eapply (Hm (dims_of _ s) (dims_of_loose s)); [by apply ko_at|exact E].
Qed.
Lemma ko_all {A} (m : ST kst A) : (forall (dm : dims), Loose dm -> kp KI m) -> kp kernel_ok m.
Proof. intros Hm s r s' Hs E. by eapply (ko_any (dom (tcbs (k_sst s))) m Hm). Qed.

(** ** Threads the scheduler has no use for *)
Definition unused (x : sst) (b : Z) : Prop := forall t, tcbs x !! b = Some t ->
  b <> ksCurThread (gl x) /\ b <> ksIdleThread (gl x) /\ b <> ksSchedulerAction (gl x) /\ queued t = false.
Definition all_unused (D : Z -> Prop) (x : sst) : Prop := forall b, D b -> unused x b.
(** The invariant, and the threads at the addresses [D] are not used. *)
Definition ko_unused (D : Z -> Prop) s : Prop := kernel_ok s /\ all_unused D (k_sst s).
(** Operations that do not touch the threads. *)
Lemma ko_neutral {A} D (m : ST kst A) : (forall (dm : dims) (P : sst -> Prop), Loose dm -> kp (at_sst P) m) -> kp (ko_unused D) m.
Proof.
  intros Hm s r s' [Hs Hd] E. pose (dm := dims_of (fun _ => True) s).
  destruct (ko_at (fun _ => True) s Hs I) as [Hk Hdm].
  destruct (Hm dm (fun x => kinv (dm := dm) x /\ all_unused D x) (dims_of_loose s) s r s' (conj (conj Hk Hd) Hdm) E) as [[Hk' Hd'] Hdm'].
  split; [|done]. by eapply (at_ko (fun _ => True) s).
Qed.
End dims.
#[export] Hint Extern 5 (kp (ko_unused _) _) => apply ko_neutral; intros ? ? ?; solve [auto with keep nocore] : keep.
#[export] Hint Extern 5 (kp kernel_ok _) => apply ko_all; intros ? ?; solve [auto with keep nocore] : keep.

(** Operations that leave threads and plain memory where they are. *)
Ltac ko := first [apply ko_all; intros ? ?; kpo | apply ko_neutral; intros ? ? ?; kpo].
Lemma kp_ref_bind {A} (I : kst -> Prop) (p : Z) (f : Z -> ST kst A) : kp I (f p) -> kp I (ref p ≫= f).
Proof.
  intros Hf s r s' Hs (q & s1 & E & E2)%st_bind_inv. unfold ref in E. inv_ok. by eapply Hf.
Qed.

(** A run from a state with the invariant. *)
Ltac kp_run E := lazymatch type of E with
  | ?m ?s = Ok (_, ?s') => lazymatch goal with |- ?I s' => cut (kp I m); [intros Hk; by eapply Hk|clear E; cbv zeta] end end.

(** ** Clearing memory *)
(** The threads in [[a, a + n)], which does not wrap around, are in [D]. *)
Definition free_of (D : Z -> Prop) (a n : Z) : Prop :=
  0 <= a /\ a + n <= 2 ^ 64 /\ forall x, a <= x < a + n -> D x.
Lemma free_of_sub D a n b k : free_of D a n -> a <= b -> b + k <= a + n -> free_of D b k.
Proof. intros (H1 & H2 & H3) Hb Hk. split; [lia|]. split; [lia|]. intros x Hx. apply H3. lia. Qed.

Section clear.
Implicit Types (a n p : Z) (D : Z -> Prop) (s : kst) (Q : list (list Z)).
Lemma zero_words_range a n p : is_Some (zero_words a n !! p) -> 0 <= n -> a <= p < a + n.
Proof.
  unfold zero_words. intros [v Hv] Hn. apply elem_of_list_to_map_2 in Hv.
  apply list_elem_of_fmap in Hv as (i & [= -> ->] & Hi%elem_of_seqZ).
  pose proof (Z.mul_div_le n 8 ltac:(lia)). lia.
Qed.
(** Clearing memory removes the threads in it. *)
Definition without_threads a n (x : sst) : sst := Sst (outside a n (tcbs x)) (gl x).
Lemma outside_Some {B} a n (m : gmap Z B) b v : outside a n m !! b = Some v <-> m !! b = Some v /\ ~ (a <= b < a + n).
Proof. apply map_lookup_filter_Some. Qed.
Lemma outside_kept D a n (x : sst) b : free_of D a n -> all_unused D x -> is_Some (tcbs x !! b) ->
  b = ksCurThread (gl x) \/ b = ksIdleThread (gl x) \/ b = ksSchedulerAction (gl x) -> is_Some (outside a n (tcbs x) !! b).
Proof.
  intros (_ & _ & Hf) Hd [t Ht] Hb. exists t. apply outside_Some. split; [done|]. intros Hin.
  destruct (Hd b (Hf b Hin) t Ht) as (? & ? & ? & _). by destruct Hb as [|[|]].
Qed.
Lemma rq_ok_without D a n (x : sst) Q : free_of D a n -> all_unused D x -> rq_ok x Q -> rq_ok (without_threads a n x) Q.
Proof.
  intros (_ & _ & Hf) Hd Hok. destruct (Hok). split; cbn; try done.
  - intros p l Hl. eapply dlist_frame; [|by eapply rq_list]. intros b Hb.
    destruct (rq_elem _ _ _ _ b Hok Hl Hb) as (t & Ht & Hq). unfold hview.
    assert (outside a n (tcbs x) !! b = Some t) as ->; [|by rewrite Ht]. apply outside_Some. split; [done|].
    intros Hin. destruct (Hd b (Hf b Hin) t Ht) as (_ & _ & _ & Hq'). destruct Hq. congruence.
  - intros b t p l [Hb _]%outside_Some Hl. by apply rq_mem.
  - destruct (outside a n (tcbs x) !! 0) eqn:E; [|done]. apply outside_Some in E as [E _]. congruence.
  - intros b t [Hb _]%outside_Some. by eapply rq_tcb.
Qed.
Lemma sched_inv_without D a n (x : sst) : free_of D a n -> all_unused D x -> sched_inv x -> sched_inv (without_threads a n x).
Proof.
  intros Hf Hd [[Q Hq] Ht Hc Ha Hi]. split; cbn; try done.
  - exists Q. by eapply rq_ok_without.
  - intros b t [Hb _]%outside_Some. by eapply Ht.
  - eapply outside_kept; eauto.
  - destruct Ha as [|[|Ha]]; auto. right; right. eapply outside_kept; eauto.
Qed.
Lemma ko_fill D a n : 0 <= n -> free_of D a n -> kp (ko_unused D) (fill_zero a n).
Proof.
  intros Hn Hf. apply kp_modify. intros s [Hs Hd]. pose proof Hf as (Ha & Hl & _). destruct Hs.
  assert (forall x, is_Some ((zero_words a n ∪ outside a n (k_mem s)) !! x) -> a <= x < a + n \/ is_Some (k_mem s !! x)) as Hm.
  { intros x [v Hv]. apply lookup_union_Some_raw in Hv as [Hv|[_ Hv]].
    - left. by apply zero_words_range; [eexists|].
    - right. apply outside_Some in Hv as [Hv _]. by eexists. }
  split; [split|]; cbn; try done.
  - by eapply (sched_inv_without D).
  - eapply outside_kept; eauto.
  - intros b t [Hb _]%outside_Some. by eapply ko_mcp0.
  - intros x Hx%Hm. apply map_lookup_filter_None. destruct Hx as [Hx|Hx]; [right; intros t _ Hn'; by apply Hn'|left; by apply ko_apart0].
  - intros x [Hx|Hx]%Hm; [unfold is_word; lia|by apply ko_words0].
  - intros b Hb t [Ht _]%outside_Some. by apply (Hd b Hb).
Qed.
Lemma ko_clear D a b : free_of D a (BIT b) -> kp (ko_unused D) (clear_memory a b).
Proof. intros Hf. apply kp_bind; [apply ko_fill; [apply wrap_is_word|done]|]. intros _. kp. Qed.

(** Unmapping a page table clears it. *)
Lemma slot_cap_Some p s c s' : slot_cap p s = Ok (c, s') -> cte_cap <$> k_slots s !! p = Some c /\ s' = s.
Proof.
  intros (x & s1 & E & E2)%st_bind_inv. apply Ok_inv in E2 as [<- <-]. unfold slot in E.
  pose proof (reads_on_slots _ (reads_load p) _ _ _ E) as ->. split; [|done]. apply zoom_inv in E as (h & E & _).
  unfold load in E. destruct (k_slots s !! p); [|discriminate E]. by apply Ok_inv in E as [-> _].
Qed.
Lemma ko_unmap_table D p c s r s' :
  ko_unused D s -> cte_cap <$> k_slots s !! p = Some c -> free_of D (bf_get pt_base_ptr c) 4096 ->
  invoke_page_table_unmap p s = Ok (r, s') -> ko_unused D s'.
Proof.
  intros Hs Hp Hf (c' & s1 & [E ->]%slot_cap_Some & E2)%st_bind_inv. rewrite Hp in E. injection E as <-.
  kp_run E2. apply kp_bind; [|intros _; ko].
  apply kp_when, kp_ref_bind, kp_bind; [ko|]. intros _. by apply ko_clear.
Qed.
End clear.

(** ** Creating objects *)
Section create.
Implicit Types (a n p : Z) (s : kst) (x : sst).
Lemma sched_inv_fresh x a : sched_inv x -> tcbs x !! a = None -> a <> 0 -> sched_inv (Sst (<[a := tcb_zero]> (tcbs x)) (gl x)).
Proof.
  intros [(Q & Hq) Ht Hc Ha Hi] Hn H0.
  assert (forall b, is_Some (tcbs x !! b) -> is_Some (<[a := tcb_zero]> (tcbs x) !! b)) as Hi'.
  { intros b Hb. by apply lookup_insert_is_Some'; right. }
  split; cbn; auto.
  - exists Q. destruct Hq. split; cbn; try done.
    + intros p l Hl. pose proof (rq_list _ _ Hl) as Hd. eapply dlist_frame; [|exact Hd].
      intros b Hb. pose proof (dlist_elem _ _ _ _ Hd Hb) as [t Hbt]. unfold hview.
      by rewrite lookup_insert_ne by congruence.
    + intros b t p l [[<- <-]|[_ Hb]]%lookup_insert_Some Hl; [|by eapply rq_mem].
      split; [|by intros [? _]]. intros Hb. pose proof (dlist_elem _ _ _ _ (rq_list _ _ Hl) Hb) as [t Hbt]. congruence.
    + by rewrite lookup_insert_ne.
    + intros b t [[_ <-]|[_ Hb]]%lookup_insert_Some; [|by eapply rq_tcb]. split_and!; done.
  - intros b t [[_ <-]|[_ Hb]]%lookup_insert_Some; [|by eapply Ht]. split; [done|]. by exists ThreadStateInactive.
  - destruct Ha as [|[|]]; auto.
Qed.

(** Plain memory that shrinks. *)
Definition shrinks s s' : Prop := (forall a, k_mem s !! a = None -> k_mem s' !! a = None) /\ k_sst s' = k_sst s.
Lemma shrinks_trans s1 s2 s3 : shrinks s1 s2 -> shrinks s2 s3 -> shrinks s1 s3.
Proof. intros [H1 E1] [H2 E2]. split; [auto|congruence]. Qed.
Lemma shrinks_Some s s' a : shrinks s s' -> is_Some (k_mem s' !! a) -> is_Some (k_mem s !! a).
Proof. intros [H _] [v Hv]. destruct (k_mem s !! a) eqn:E; [by eexists|]. apply H in E. congruence. Qed.
Lemma ko_shrinks s s' : kernel_ok s -> shrinks s s' -> kernel_ok s'.
Proof.
  intros [] Hsh. pose proof (fun a => shrinks_Some _ _ a Hsh) as Hm. destruct Hsh as [_ E].
  split; rewrite ?E; auto.
Qed.
Lemma take_words_shrinks (n : nat) p s ws s' :
  take_words n p s = Ok (ws, s') ->
  shrinks s s' /\ forall i, 0 <= i < Z.of_nat n -> is_Some (k_mem s !! (p + 8 * i)) /\ k_mem s' !! (p + 8 * i) = None.
Proof. intros (H1 & H2 & H3)%take_words_inv. by split_and!. Qed.
Lemma take_slots_shrinks (n : nat) : forall p s u s',
  take_slots n p s = Ok (u, s') ->
  shrinks s s' /\ (n <> 0%nat -> is_Some (k_mem s !! p)).
Proof.
  induction n as [|n IH]; intros p s u s' E; cbn [take_slots] in E.
  { apply Ok_inv in E as [_ ->]. by split_and!. }
  apply st_bind_inv in E as (ws & s1 & [H1 Hw]%take_words_shrinks & E).
  apply st_bind_inv in E as (u2 & s2 & (h & _ & ->)%zoom_inv & [H2 _]%IH). split; [by eapply shrinks_trans|].
  intros _. destruct (Hw 0 ltac:(lia)) as [Hp _]. by rewrite Z.mul_0_r, Z.add_0_r in Hp.
Qed.
Lemma ko_take_words (n : nat) p : kp kernel_ok (take_words n p).
Proof. intros s r s' Hs [E _]%take_words_shrinks. by eapply ko_shrinks. Qed.
Lemma ko_take_slots (n : nat) p : kp kernel_ok (take_slots n p).
Proof. intros s r s' Hs [E _]%take_slots_shrinks. by eapply ko_shrinks. Qed.

(** A new thread is made out of words, so it is nowhere else. *)
Lemma ko_take_tcb p : kp kernel_ok (take_tcb p).
Proof.
  intros s r s' Hs (u & s1 & [H1 Hp]%take_slots_shrinks & E)%st_bind_inv.
  apply st_bind_inv in E as (ws & s2 & [H2 Hw]%take_words_shrinks & E).
  pose proof (shrinks_trans _ _ _ H1 H2) as H3. pose proof (ko_shrinks _ _ Hs H3) as Hs2.
  destruct (Hw 108 ltac:(vm_compute; intuition congruence)) as [Ha Hn]. apply (shrinks_Some _ _ _ H1) in Ha.
  change (tcbCNodeEntries * cte_size) with 160 in *. replace (p + 160 + 8 * 108) with (p + 1024) in * by lia.
  case_match; [|discriminate E]. change TCB_OFFSET with 1024 in E.
  rewrite wadd_small in E by by apply (ko_words _ Hs).
  apply zoom_inv in E as (x & E & ->). unfold on_tcbs, modify in E. apply Ok_inv in E as [_ <-].
  assert (p + 1024 <> 0) as H0.
  { destruct (ko_words _ Hs p) as [? _]; [by apply Hp|lia]. }
  pose proof (ko_apart _ Hs _ Ha) as Hf. rewrite <- (proj2 H3) in Hf. destruct Hs2.
  split; cbn; try done.
  - by apply sched_inv_fresh.
  - by apply lookup_insert_is_Some'; right.
  - intros b t [[_ <-]|[_ Hb]]%lookup_insert_Some; [done|by eapply ko_mcp0].
  - intros b Hb. rewrite lookup_insert_ne; [by apply ko_apart0|]. intros <-. rewrite Hn in Hb. by destruct Hb.
Qed.
Hint Resolve ko_take_words ko_take_slots ko_take_tcb : keep.

Lemma kinv_domain_0 {dm : dims} a : kp KI (thread_mod a (set_tcb_domain 0)).
Proof. apply kp_on_sst, kinv_mod; [|by intros]. intros t (? & _ & ?) [? ?]. by split_and!. Qed.
Hint Resolve kinv_domain_0 : keep.
Lemma ko_cur_domain {A} a (m : ST kst A) :
  kp kernel_ok m -> kp kernel_ok (d ← on_sst get_current_domain; thread_mod a (set_tcb_domain d) ;; m).
Proof.
  intros Hm. apply (kp_bind_reads _ _ _ (fun d => d = 0)); [apply reads_on_sst; unfold get_current_domain, gl_get; reads| |].
  - intros s d [] (x & E & _)%zoom_inv. unfold get_current_domain, gl_get in E. by inv_ok.
  - intros d ->. by kp.
Qed.
Lemma kinv_tcb_init {dm : dims} {Hl : Loose dm} a : kp KI (on_sst (tcb_init a)).
Proof. by apply kp_on_sst, kinv_arch. Qed.
Hint Resolve kinv_tcb_init : keep.
Lemma ko_create_object t base user dev : kp kernel_ok (create_object t base user dev).
Proof.
  destruct t; cbn [create_object]; try solve [repeat first [kp_step | progress ko]].
  do 4 (apply kp_bind; [by kp|intros ?]). apply ko_cur_domain. kp.
Qed.
End create.
#[export] Hint Resolve ko_take_words ko_take_slots ko_take_tcb ko_create_object : keep.

(** ** Retyping *)
(** What a reset may clear of an untyped object: the object, and the chunk of
    256 bytes its last used byte is in. *)
Definition untyped_offset (c : list Z) : Z := FREE_INDEX_TO_OFFSET (bf_get untyped_free_index c).
Definition reset_span (c : list Z) : Z :=
  Z.max (BIT (bf_get untyped_block_size c))
    (if untyped_offset c =w 0 then 0 else ROUND_DOWN (wsub (untyped_offset c) 1) CONFIG_RESET_CHUNK_BITS + 256).
Definition untyped_free_of (D : Z -> Prop) (c : list Z) : Prop := free_of D (bf_get untyped_ptr c) (reset_span c).

Section retype.
Implicit Types (a n p base off : Z) (D : Z -> Prop) (c : list Z).
Lemma ko_reset_loop D base (fuel : nat) : forall off,
  off = -256 \/ (0 <= off /\ off `mod` 256 = 0 /\ free_of D base (off + 256)) ->
  kp (ko_unused D) (reset_loop fuel base off).
Proof.
  induction fuel as [|fuel IH]; intros off Hoff; [done|]. cbn [reset_loop]. change (BIT CONFIG_RESET_CHUNK_BITS) with 256.
  case_bool_decide as Hne; [kp|]. destruct Hoff as [|(H0 & Hm & Hf)]; [done|]. destruct (Hf) as (Hb & Hl & _).
  apply kp_bind.
  - apply ko_clear. unfold GET_OFFSET_FREE_PTR. rewrite wrap_id by (unfold is_word; lia).
    rewrite wadd_small by (unfold is_word; lia). change (BIT CONFIG_RESET_CHUNK_BITS) with 256.
    eapply free_of_sub; [exact Hf|lia|lia].
  - intros _. apply IH. destruct (decide (off = 0)) as [->|]; [by left|right].
    assert (256 <= off) by (apply Z.mod_divide in Hm as [k ->]; lia).
    split; [lia|]. split; [by rewrite Zminus_mod, Hm|]. eapply free_of_sub; [exact Hf|lia|lia].
Qed.
Lemma round_down_256 n : is_word n -> 0 <= ROUND_DOWN n 8 /\ ROUND_DOWN n 8 `mod` 256 = 0.
Proof.
  intros Hn. unfold ROUND_DOWN. rewrite wshr_spec, wshl_spec by lia. change (2 ^ 8) with 256.
  pose proof (Z.mul_div_le n 256 ltac:(lia)). pose proof (Z.div_pos n 256). unfold is_word in Hn.
  rewrite wrap_id by (unfold is_word; lia). split; [lia|]. apply Z.mod_mul. lia.
Qed.
Lemma ko_reset D p c s r s' :
  ko_unused D s -> cte_cap <$> k_slots s !! p = Some c -> untyped_free_of D c ->
  reset_untyped_cap p s = Ok (r, s') -> ko_unused D s'.
Proof.
  intros Hs Hp Hf (c' & s1 & [E ->]%slot_cap_Some & E2)%st_bind_inv. rewrite Hp in E. injection E as <-.
  kp_run E2. change (FREE_INDEX_TO_OFFSET _) with (untyped_offset c). case_match eqn:Ho; [kp|].
  unfold untyped_free_of, reset_span in Hf. rewrite Ho in Hf. apply kp_bind; [|intros _; kp]. case_match.
  - apply kp_bind; [|intros _; kp]. apply kp_when, ko_clear. eapply free_of_sub; [exact Hf|lia|lia].
  - apply kp_bind; [|intros ?; kp]. apply ko_reset_loop. right.
    destruct (round_down_256 (wsub (untyped_offset c) 1)) as [H1 H2]; [apply wrap_is_word|].
    split; [exact H1|]. split; [exact H2|]. eapply free_of_sub; [exact Hf|lia|]. change CONFIG_RESET_CHUNK_BITS with 8. lia.
Qed.
Lemma ko_create_new_objects t parent dest off n base user dev :
  kp kernel_ok (create_new_objects t parent dest off n base user dev).
Proof. unfold create_new_objects, ref. kp. Qed.
Hint Resolve ko_create_new_objects : keep.
Lemma ko_retype D p c (reset : bool) base t user dest off n dev s r s' :
  ko_unused D s -> cte_cap <$> k_slots s !! p = Some c -> (reset = true -> untyped_free_of D c) ->
  invoke_untyped_retype p reset base t user dest off n dev s = Ok (r, s') -> kernel_ok s'.
Proof.
  intros Hs Hp Hf (c' & s1 & [E ->]%slot_cap_Some & E2)%st_bind_inv.
  apply st_bind_inv in E2 as (st & s2 & E1 & E2).
  assert (kernel_ok s2) as H2.
  { destruct reset; [|by apply Ok_inv in E1 as [_ <-]; apply Hs].
    by eapply ko_reset; [exact Hs|exact Hp|by apply Hf|exact E1]. }
  kp_run E2. unfold ok_or. kp.
Qed.
End retype.
