(* ===== verification/Reach.v ===== *)
(** * What every entry to the kernel keeps

    [kernel_ok] along the runs of the system ([kernel_step]): the user changes
    the registers of the current thread and the words of memory; a system call,
    an interrupt or a fault enters the kernel and returns.  A system call that
    invokes a capability is a step only from a state in which no thread that the
    scheduler uses lives where the invocation may reuse memory ([reuse_ok]).  This
    is a premise: that capabilities keep it is not proved, and the reset of an
    untyped object smaller than its chunk of 256 bytes violates it when such a
    thread is next to the object
    ([UntypedProps.reset_small_clears_neighbours]).  The fast
    path is not a step: on this architecture it is the slow path
    ([FastProps.fastpath_call_is_slowpath]). *)

From stdpp Require Import base numbers gmap list.
From S2P Require Import Prelude Bitfield Common Cap DList CSpace Sched SchedProps SchedInv SchedWit State Vspace Threads Delete Ipc Finalise Syscall CNodeInv UntypedInv TcbInv MmuInv IrqInv Kernel Entry FastPath Keep KernelKeep Reuse.
Local Open Scope Z_scope.
Local Open Scope krn_scope.

(** ** Invocations that do not reuse memory *)
Section mmu.
Context {D : CSpaceDeps} {L : CSpaceKeeps D} {dm : dims} {Hl : Loose dm}.
Lemma kinv_page_table_map label len cte b :
  label <> ARMPageTableUnmap -> kp KI (decode_page_table_invocation label len cte b).
Proof.
  intros Hne. unfold decode_page_table_invocation. rewrite bool_decide_false by done. kpo.
Qed.
End mmu.

(** ** Invocations that do *)
(** Where memory is reused, in an untyped object without children and in a page
    table, every thread is [unused]: in no queue, and neither the current nor
    the idle thread nor the one to switch to. *)
Definition reuse_ok (s : kst) : Prop := forall p x, k_slots s !! p = Some x ->
  (get_cap_type (cte_cap x) = Ok CapUntypedCap -> ensure_no_children p (k_slots s) = Ok (EXCEPTION_NONE, k_slots s) ->
   untyped_free_of (unused (k_sst s)) (cte_cap x)) /\
  (get_cap_type (cte_cap x) = Ok CapPageTableCap -> free_of (unused (k_sst s)) (bf_get pt_base_ptr (cte_cap x)) 4096).

(** Making a thread runnable does not ask for a scheduling decision. *)
Lemma make_runnable a st x u x' : st = ThreadStateRunning \/ st = ThreadStateRestart ->
  (forall t, tcbs x !! a = Some t -> length (tcbState t) = 3%nat) -> set_thread_state a st x = Ok (u, x') ->
  exists t, tcbs x !! a = Some t /\ x' = Sst (<[a := ts_set ts_type (ThreadState_to_usize st) t]> (tcbs x)) (gl x) /\
    get_state (ts_set ts_type (ThreadState_to_usize st) t) = Ok st.
Proof.
  intros Hst Hl (v & s1 & (t & Ht & ->)%tcb_mod_Some & E)%st_bind_inv.
  pose proof (state_written t st (Hl _ Ht)) as Hs. exists t. split; [done|]. split; [|done].
  unfold schedule_tcb, get_currenct_thread_unsafe, get_ks_scheduler_action, gl_get in E. inv_ok.
  case_match; [|by apply Ok_inv in E as [_ <-]].
  apply st_bind_inv in E as (t1 & s1 & [Ht1 ->]%tcb_get_Some & (r & s2 & [Hr ->]%lift_inv & E)%st_bind_inv).
  cbn [tcbs] in Ht1. rewrite lookup_insert_eq in Ht1. apply (inj Some) in Ht1 as <-. unfold is_runnable in Hr. rewrite Hs in Hr.
  assert (r = true) as -> by (by destruct Hst as [-> | ->]; injection Hr as <-). by apply Ok_inv in E as [_ <-].
Qed.
Lemma sched_inv_state a x t : sched_inv x -> tcbs x !! a = Some t -> length (tcbState t) = 3%nat.
Proof. intros [[Q Hq] _ _ _ _] Ht. by apply (rq_tcb _ _ Hq _ _ Ht). Qed.
(** Conditions on the scheduler's state, together. *)
Lemma kp_at_and {dm : dims} (P Q : sst -> Prop) {A} (m : ST kst A) :
  kp (at_sst P) m -> kp (at_sst Q) m -> kp (at_sst (fun x => P x /\ Q x)) m.
Proof. intros HP HQ s r s' [[Hp Hq] Hk] E. split; [split|]; [by eapply HP|by eapply HQ|by eapply HP]. Qed.

Section reuse.
Context {D : CSpaceDeps} {L : CSpaceKeeps D} (s0 : kst).
Implicit Types (a p : Z) (c : list Z) (P : sst -> Prop).

(** The states before anything is written to a slot. *)
Definition fixed : dims := dims_of (fun m => m = k_slots s0) s0.
Definition spare : Z -> Prop := unused (k_sst s0).
Definition still (x : sst) : Prop := kinv (dm := fixed) x /\ all_unused spare x.
Definition still_args (x : sst) : Prop := kinv_args (dm := fixed) x /\ all_unused spare x.
Notation before := (at_sst (dm := fixed) still).
Notation before_args := (at_sst (dm := fixed) still_args).
Lemma before_slots s : before s -> k_slots s = k_slots s0.
Proof. by intros (_ & _ & ?). Qed.
Lemma args_before s : before_args s -> before s.
Proof. by intros (((? & _) & ?) & ?). Qed.
Context (H0 : kernel_ok s0) (Hr : reuse_ok s0).
Lemma before_ok s : before s -> ko_unused spare s.
Proof. intros [[Hk Hd] Hdm]. split; [|done]. by eapply (at_ko (fun m => m = k_slots s0) s0). Qed.
(** Everything else keeps the invariant anyway. *)
Lemma before_keeps {A} (m : ST kst A) : (forall dm : dims, Loose dm -> kp KI m) -> kpto before kernel_ok m.
Proof. intros Hm s r s' Hs E. eapply ko_all; [exact Hm|by apply before_ok|exact E]. Qed.
Lemma args_keep {A} (m : ST kst A) :
  (forall dm : dims, Loose dm -> kpto (at_sst kinv_args) KI m) -> kpto before_args kernel_ok m.
Proof.
  intros Hm s r s' ((([Hk Ht] & Ha) & _) & Hd & _) E.
  pose (dm := dims_of (fun _ => True) s0). eapply (at_ko (fun _ => True) s0 s' H0).
  eapply (Hm dm (dims_of_loose s0)); [|exact E]. split; [|done]. split; [|done]. split; [done|by destruct Ht].
Qed.
Lemma before_cap p : forall s c s', before s -> slot_cap p s = Ok (c, s') -> cte_cap <$> k_slots s0 !! p = Some c.
Proof. intros s c s' <-%before_slots [E _]%slot_cap_Some. done. Qed.
Lemma current_restart_before : kp before current_restart.
Proof.
  apply kp_bind; [kpo|intros c]. apply kp_on_sst. intros x u x' [Hk Hd] E.
  split; [by eapply kinv_set_thread_state|].
  destruct (make_runnable c _ _ _ _ (or_intror eq_refl) (fun t => sched_inv_state c x t (proj1 Hk)) E) as (t & Ht & -> & _).
  intros b Hb t'. cbn. intros [[<- <-]|[_ Hb']]%lookup_insert_Some; [rewrite queued_ts_type|]; by apply (Hd _ Hb).
Qed.

(** An untyped object that is found without children. *)
Definition room c : Prop := untyped_free_of spare c.
Definition childless p : Prop := forall c,
  cte_cap <$> k_slots s0 !! p = Some c -> get_cap_type c = Ok CapUntypedCap -> room c.
Lemma childless_found p : forall s st s',
  before s -> on_slots (ensure_no_children p) s = Ok (st, s') -> st = EXCEPTION_NONE -> childless p.
Proof.
  intros s st s' Hs (h & E & _)%zoom_inv -> c Hp Ht. rewrite (before_slots _ Hs) in E.
  pose proof (reads_no_children _ _ _ _ E) as ->.
  destruct (k_slots s0 !! p) as [x|] eqn:Hx; [|done]. injection Hp as <-. by apply (Hr _ _ Hx).
Qed.
Lemma kp_ensure_no_children p : kp before (on_slots (ensure_no_children p)).
Proof. apply kp_slots_read, reads_no_children. Qed.
Lemma ko_untyped_checked p c t user size nc off n :
  cte_cap <$> k_slots s0 !! p = Some c -> get_cap_type c = Ok CapUntypedCap ->
  kpto before kernel_ok (untyped_checked p c t user size nc off n).
Proof.
  intros Hp Ht. eapply (kpto_known _ _ _ _ (fun st => st = EXCEPTION_NONE -> childless p)).
  { apply kp_ensure_no_children. } { apply childless_found. }
  intros st Hst. apply (kpto_known _ _ _ _ (fun r : Z * bool => r.2 = true -> room c)).
  { kpo. }
  { intros s r s' _ E Hb. destruct (decide (st = EXCEPTION_NONE)) as [|Hne]; [by eapply Hst|].
    rewrite bool_decide_true in E by done. apply st_bind_inv in E as (u & s1 & _ & E). by apply Ok_inv in E as [<- _]. }
  intros [fi reset] Hroom. cbv zeta. do 2 (case_match; [apply before_keeps; intros; kpo|]).
  apply kpto_bind; [apply current_restart_before|intros _]. apply kpto_bind; [kp|intros dest].
  intros s r s' Hs E. eapply ko_retype; [by apply before_ok| |exact Hroom|exact E]. by rewrite (before_slots _ Hs).
Qed.

Lemma kp_check_window {dm : dims} P (n : nat) : forall d i, kp (at_sst P) (check_window n d i).
Proof. induction n as [|n IH]; intros d i; cbn; kpo; apply IH. Qed.
Lemma kp_first_free_pool {dm : dims} P (n : nat) : forall i, kp (at_sst P) (first_free_pool n i).
Proof. induction n as [|n IH]; intros i; cbn; kpo; apply IH. Qed.
Hint Resolve kp_check_window kp_first_free_pool current_restart_before : keep.
(** Down to what reuses the memory. *)
Ltac kt_end := apply before_keeps; intros ? ?; solve [kpo].
Ltac kt := repeat first
  [ lazymatch goal with
    | |- kpto _ _ (slot_cap ?p ≫= _) =>
        apply (kpto_known _ _ _ _ (fun c => cte_cap <$> k_slots s0 !! p = Some c)); [solve [kpo]|apply before_cap|intros ? ?]
    | |- kpto _ _ (lift ?r ≫= _) =>
        apply (kpto_known _ _ _ _ (fun v => r = Ok v)); [apply kp_lift|by intros ? ? ? _ [? _]%lift_inv|intros ? ?]
    | |- kpto _ _ (on_slots (ensure_no_children ?p) ≫= _) =>
        apply (kpto_known _ _ _ _ (fun st => st = EXCEPTION_NONE -> childless p));
          [apply kp_ensure_no_children|apply childless_found|intros ? ?]
    | |- kpto _ _ (_ ≫= _) => apply kpto_bind; [solve [kpo]|intros ?]
    | |- kpto _ _ (ok_or _ _) => unfold ok_or
    | |- kpto _ _ (match _ with _ => _ end) => case_match; try kt_end
    | |- kpto _ _ (let _ := _ in _) => cbv zeta
    end ].
Lemma ko_untyped label len p c b :
  cte_cap <$> k_slots s0 !! p = Some c -> get_cap_type c = Ok CapUntypedCap ->
  kpto before kernel_ok (decode_untyed_invocation label len p c b).
Proof.
  intros Hp Ht.
  unfold decode_untyed_invocation, get_target_cnode, check_cnode_slot, check_object_type. kt. by apply ko_untyped_checked.
Qed.

(** The memory of an ASID pool is a childless untyped object of its size. *)
Lemma pool_frame_free p c tag frame :
  cte_cap <$> k_slots s0 !! p = Some c -> get_cap_type c = Ok tag ->
  (negb (tag =t CapUntypedCap) || (bf_get untyped_block_size c <>w seL4_ASIDPoolBits)
    || (bf_get untyped_is_device c =w 1))%bool = false ->
  get_cap_ptr c = Ok frame -> childless p -> free_of spare frame (BIT seL4_ASIDPoolBits).
Proof.
  intros Hp Ht [[Hu%negb_false_iff%bool_decide_eq_true Hb%negb_false_iff%bool_decide_eq_true]%orb_false_iff _]%orb_false_iff Hf Hc.
  subst tag. unfold get_cap_ptr in Hf. rewrite Ht in Hf. injection Hf as <-.
  pose proof (Hc _ Hp Ht) as Hr'. unfold room, untyped_free_of, reset_span in Hr'. rewrite Hb in Hr'.
  eapply free_of_sub; [exact Hr'|lia|lia].
Qed.
Lemma ko_asid_control label len b : kpto before kernel_ok (decode_asid_control label len b).
Proof.
  unfold decode_asid_control. kt.
  match goal with Hf : get_cap_ptr _ = Ok _, Hst : ?st = EXCEPTION_NONE -> childless _ |- _ =>
    eapply pool_frame_free in Hf; [|eassumption..|apply Hst; by destruct st] end.
  eapply kpto_pre; [exact before_ok|]. apply kpto_bind; [ko|intros _].
  apply kpto_bind; [by apply ko_fill|intros _].
  eapply kpto_pre; [by intros s [Hs _]|]. apply kpto_kp; [|done]. kp. ko.
Qed.

Lemma ko_page_table label len p c b :
  cte_cap <$> k_slots s0 !! p = Some c -> get_cap_type c = Ok CapPageTableCap ->
  kpto before kernel_ok (decode_page_table_invocation label len p b).
Proof.
  intros Hp Ht. destruct (decide (label = ARMPageTableUnmap)) as [->|Hne].
  2: { apply before_keeps. intros. by apply kinv_page_table_map. }
  unfold decode_page_table_invocation, decode_page_table_unmap. rewrite bool_decide_true by done. kt.
  intros s r s' Hs E. eapply ko_unmap_table; [by apply before_ok| | |exact E]; rewrite ?(before_slots _ Hs); [exact Hp|].
  destruct (k_slots s0 !! p) as [x|] eqn:Hx; [|done]. injection Hp as <-. by apply (Hr _ _ Hx).
Qed.
Lemma ko_mmu label len p c call b :
  cte_cap <$> k_slots s0 !! p = Some c -> kpto before kernel_ok (decode_mmu_invocation label len p call b).
Proof.
  intros Hp. apply (kpto_known _ _ _ _ (fun t => get_cap_type c = Ok t)); [kpo| |].
  - intros s t s' Hs (c' & s1 & E%before_cap & [E2 _]%lift_inv)%st_bind_inv; [|done]. congruence.
  - intros t Ht. destruct t; try by apply before_keeps; intros; auto using kinv_vspace_root, kinv_frame, kinv_asid_pool.
    + by eapply ko_page_table.
    + apply ko_asid_control.
Qed.
Lemma ko_decode n label len p c block call b :
  cte_cap <$> k_slots s0 !! p = Some c ->
  kpto before_args kernel_ok (decode_invocation n label len p c block call b).
Proof.
  intros Hp. apply (kpto_known _ _ _ _ (fun t => get_cap_type c = Ok t)); [kpo|by intros ? ? ? _ [? _]%lift_inv|].
  intros t Ht. destruct t;
    try (apply (kpto_pre _ _ _ _ args_before);
         first [by eapply ko_mmu | by apply ko_untyped | apply before_keeps; intros ? ?;
                solve [auto using kinv_cnode, kinv_irq_control, kinv_irq_handler | kpo]]);
    apply args_keep; intros ? ?; [apply kj_tcb|apply kj_domain].
Qed.
End reuse.

(** ** System calls *)
(** What the kernel reads from the machine: the interrupt controller and the
    system registers are not part of the state, and registers are words. *)
Class MachineReads {H : Hardware} {TL : ThreadLocal} : Prop := {
  reads_int_ack : reads gic_int_ack;
  reads_far : reads get_far;
  reads_esr : reads get_esr;
  reads_tpidr : reads mrs_tpidr_el0;
  reads_tpidrro : reads mrs_tpidrro_el0;
  tpidr_word s v s' : mrs_tpidr_el0 s = Ok (v, s') -> 0 <= v;
  tpidrro_word s v s' : mrs_tpidrro_el0 s = Ok (v, s') -> 0 <= v }.

Section syscalls.
Context {D : CSpaceDeps} {L : CSpaceKeeps D} {H : Hardware} {TL : ThreadLocal} {M : MachineReads}.
Implicit Types (a v : Z) (l : list Z).

(** Storing one register. *)
Definition store_reg a i v : ST kst unit := t ← thread a; r ← lift (upd (tcbArch t) i v); thread_mod a (set_tcbArch r).
Lemma kp_store_reg (I : kst -> Prop) {A} a i v (k : ST kst A) : kp I (store_reg a i v) -> kp I k ->
  kp I (t ← thread a; r ← lift (upd (tcbArch t) i v); thread_mod a (set_tcbArch r) ;; k).
Proof.
  intros Hm Hk s x s' Hs (t & s1 & E1 & (r & s2 & E2 & (u & s3 & E3 & E)%st_bind_inv)%st_bind_inv)%st_bind_inv.
  eapply Hk, E. eapply Hm; [exact Hs|]. unfold store_reg, mbind, st_bind. by rewrite E1, E2, E3.
Qed.
Lemma kinv_store_reg {dm : dims} a i v : kp KI (store_reg a i v).
Proof. apply kinv_thread. intros t Ht. by apply kinv_write_back. Qed.
Lemma args_store_reg {dm : dims} a i v : 0 <= v -> kp (at_sst kinv_args) (store_reg a i v).
Proof.
  intros Hv s u s' [[Hs Ha] Hk] E. destruct (kinv_store_reg a i v _ _ _ (conj Hs Hk) E) as [Hs' Hk'].
  split; [|exact Hk']. split; [exact Hs'|].
  apply st_bind_inv in E as (t & s1 & (x & [Ht ->]%tcb_get_Some & ->)%zoom_inv & E).
  apply st_bind_inv in E as (r & s2 & [E ->]%lift_inv & (y & (t' & Ht' & ->)%tcb_mod_Some & ->)%zoom_inv).
  unfold upd in E. case_decide; [|done]. injection E as <-. intros t1. cbn in *.
  destruct (decide (ksCurThread (gl (k_sst s)) = a)) as [Hc|Hc]; [|rewrite lookup_insert_ne by done; apply Ha].
  rewrite Hc, lookup_insert_eq. intros [= <-]. cbn. apply Forall_insert; [|done]. apply Ha. by rewrite Hc.
Qed.

Section loose.
Context {dm : dims} {Hl : Loose dm}.
Lemma kinv_finish a c st : kp KI (finish_invocation a c st).
Proof. unfold finish_invocation. kpo. Qed.
Lemma kinv_getActiveIRQ : kp KI getActiveIRQ.
Proof. unfold getActiveIRQ. pose proof (kp_reads KI _ reads_int_ack). kpo. Qed.
Hint Resolve kinv_getActiveIRQ kinv_handleInterrupt : keep.
Lemma kinv_interrupt_entry : kp KI handleInterruptEntry.
Proof. unfold handleInterruptEntry. kpo. Qed.
Lemma kinv_fault_and_schedule : kp KI fault_and_schedule.
Proof. unfold fault_and_schedule. kpo. Qed.
Hint Resolve kinv_fault_and_schedule : keep.
Lemma kinv_user_fault a b : kp KI (handleUserLevelFault a b).
Proof. unfold handleUserLevelFault. kpo. Qed.
Lemma kinv_vm_fault a : kp KI (handle_vm_fault a).
Proof. unfold handle_vm_fault. pose proof (kp_reads KI _ reads_far). pose proof (kp_reads KI _ reads_esr). kpo. Qed.
Hint Resolve kinv_vm_fault : keep.
Lemma kinv_vm_fault_event a : kp KI (handleVMFaultEvent a).
Proof. unfold handleVMFaultEvent. kpo. Qed.
Lemma kinv_save_thread_local a : kp KI (save_thread_local a).
Proof.
  unfold save_thread_local. apply kp_bind; [apply kp_reads, reads_tpidr|intros v].
  apply kp_store_reg; [apply kinv_store_reg|]. apply kp_bind; [apply kp_reads, reads_tpidrro|intros w].
  apply kinv_store_reg.
Qed.
Lemma kinv_entry_hook : kp KI entry_hook.
Proof. unfold entry_hook. pose proof kinv_save_thread_local. kpo. Qed.
Lemma args_entry_hook : kp (at_sst kinv_args) entry_hook.
Proof.
  unfold entry_hook, save_thread_local. apply kp_bind; [kpo|intros a].
  apply (kp_bind_reads _ _ _ (fun v => 0 <= v)); [apply reads_tpidr|by intros ? ? _ ?%tpidr_word|intros v Hv].
  apply kp_store_reg; [by apply args_store_reg|].
  apply (kp_bind_reads _ _ _ (fun v => 0 <= v)); [apply reads_tpidrro|by intros ? ? _ ?%tpidrro_word|intros w Hw].
  by apply args_store_reg.
Qed.
Lemma kp_strnlen (P : sst -> Prop) (n : nat) : forall c x, kp (at_sst P) (strnlen_loop n c x).
Proof. induction n as [|n IH]; intros c x; cbn [strnlen_loop]; [done|]. kpo; apply IH. Qed.
Hint Resolve kp_strnlen : keep.
Lemma kinv_unknown n w : kp KI (handleUnknownSyscall n w).
Proof. unfold handleUnknownSyscall, halt. kpo. Qed.
Lemma kp_restore (P : sst -> Prop) : kp (at_sst P) restore_user_context.
Proof. unfold restore_user_context. kpo. Qed.
End loose.

(** The system calls that invoke a capability. *)
Definition invokes (call : Z) : bool := (call =w SysSend) || (call =w SysNBSend) || (call =w SysCall).
Section invocation.
Context (s0 : kst) (H0 : kernel_ok s0).
Notation before := (at_sst (dm := fixed s0) (still s0)).
Notation before_args := (at_sst (dm := fixed s0) (still_args s0)).
Lemma ko_before {A} (m : ST kst A) : (forall dm : dims, Loose dm -> kp KI m) -> kpto before_args kernel_ok m.
Proof. intros Hm. eapply kpto_pre; [apply args_before|]. by apply before_keeps. Qed.
Lemma ko_handleInvocation n call block : reuse_ok s0 -> kpto before_args kernel_ok (handleInvocation n call block).
Proof.
  intros Hr. unfold handleInvocation. do 4 (apply kpto_bind; [kpo|intros ?]). case_match; [apply ko_before; intros; kpo|].
  do 2 (apply kpto_bind; [kpo|intros ?]). case_match; [apply ko_before; intros; kpo|].
  eapply (kpto_known _ _ _ _ (fun c => cte_cap <$> k_slots s0 !! _ = Some c)); [kpo| |intros c Hc].
  { intros s c s' Hs. by apply before_cap, args_before. }
  do 2 (apply kpto_bind; [kpo|intros ?]). apply kpto_then; [by apply ko_decode|].
  intros st. apply ko_all. intros. apply kinv_finish.
Qed.
Lemma ko_invocation_or_irq n call block : reuse_ok s0 -> kpto before_args kernel_ok (invocation_or_irq n call block).
Proof.
  intros Hr. apply kpto_then; [by apply ko_handleInvocation|]. intros st. apply ko_all. intros.
  pose proof kinv_getActiveIRQ. pose proof kinv_handleInterrupt. kpo.
Qed.
Lemma ko_dispatch n call : (invokes call = true -> reuse_ok s0) -> kpto before_args kernel_ok
  (if call =w SysSend then invocation_or_irq n false true
   else if call =w SysNBSend then invocation_or_irq n false false
   else if call =w SysCall then invocation_or_irq n true true
   else if call =w SysRecv then handle_recv true
   else if call =w SysReply then handle_reply
   else if call =w SysReplyRecv then handle_reply ;; handle_recv true
   else if call =w SysNBRecv then handle_recv false
   else if call =w SysYield then handle_yield
   else panic).
Proof.
  unfold invokes. intros Hr. do 3 (case_match; [apply ko_invocation_or_irq; by apply Hr|]).
  repeat case_match; apply ko_before; intros; kpo.
Qed.
End invocation.

(** ** Back to a thread that can run *)
(** The current thread is running, or it is the idle thread. *)
Definition cur_runs (x : sst) : Prop := exists t, tcbs x !! ksCurThread (gl x) = Some t /\
  (get_state t = Ok ThreadStateRunning \/ get_state t = Ok ThreadStateIdleThreadState).
Definition runs_ok (s : kst) : Prop := kernel_ok s /\ cur_runs (k_sst s).

Lemma activate_runs x u x' : sched_inv x -> activateThread x = Ok (u, x') -> cur_runs x'.
Proof.
  intros Hi (c & s1 & Ec & (t & s2 & [Ht ->]%tcb_get_Some & (st & s3 & [Hst ->]%lift_inv & E)%st_bind_inv)%st_bind_inv)%st_bind_inv.
  unfold get_currenct_thread, gl_get in Ec. inv_ok.
  destruct st; try discriminate E; [by apply Ok_inv in E as [_ <-]; exists t; auto| |by apply Ok_inv in E as [_ <-]; exists t; auto].
  apply st_bind_inv in E as (pc & s2 & [_ ->]%lift_inv & (regs & s3 & [_ ->]%lift_inv & E)%st_bind_inv).
  apply st_bind_inv in E as (v & s2 & (t' & Ht' & ->)%tcb_mod_Some & E).
  apply make_runnable in E as (t2 & Ht2 & -> & Hs); [|by left|].
  - eexists. cbn in *. split; [apply lookup_insert_eq|auto].
  - cbn. intros t0. rewrite lookup_insert_eq. intros [= <-]. exact (sched_inv_state _ _ _ Hi Ht').
Qed.

(** Every way through the kernel ends with the choice of a thread. *)
Lemma finish_runs {A} (x : A) : kpto kernel_ok runs_ok (schedule ;; on_sst activateThread ;; mret x).
Proof.
  eapply (kpto_bind _ _ schedule); [apply ko_all; intros ? ?; apply kinv_schedule|intros _].
  intros s r s' Hs E. assert (kernel_ok s') as Hk.
  { revert Hs E. revert s r s'. apply ko_all. intros. kpo. }
  split; [exact Hk|]. apply st_bind_inv in E as (u & s1 & (y & Ha & ->)%zoom_inv & E). apply Ok_inv in E as [_ <-].
  eapply activate_runs; [apply Hs|exact Ha].
Qed.
Lemma runs_restore {A} (I : kst -> Prop) (m : ST kst A) : kpto I runs_ok m -> kpto I runs_ok (m ;; restore_user_context).
Proof.
  intros Hm. apply kpto_then; [exact Hm|intros _]. apply kp_reads. unfold restore_user_context, get_currenct_thread, gl_get.
  pose proof reads_thread. reads_k.
Qed.
Lemma runs_fault_and_schedule : kpto kernel_ok runs_ok fault_and_schedule.
Proof.
  unfold fault_and_schedule. do 2 (apply kpto_bind; [ko|intros ?]). apply finish_runs.
Qed.
Lemma runs_user_fault a b : kpto kernel_ok runs_ok (handleUserLevelFault a b).
Proof. apply kpto_bind; [ko|intros _]. apply runs_fault_and_schedule. Qed.
Lemma runs_vm_fault a : kpto kernel_ok runs_ok (handleVMFaultEvent a).
Proof.
  apply kpto_bind; [apply ko_all; intros; apply kinv_vm_fault|intros st]. apply kpto_bind; [ko|intros _]. apply finish_runs.
Qed.
Lemma runs_interrupt : kpto kernel_ok runs_ok c_handle_interrupt.
Proof.
  apply kpto_bind; [apply ko_all; intros; apply kinv_entry_hook|intros _]. apply runs_restore.
  apply kpto_bind; [apply ko_all; intros; apply kinv_getActiveIRQ|intros irq].
  apply kpto_bind; [ko; apply kinv_handleInterrupt|intros _]. apply finish_runs.
Qed.

(** System calls: from a thread that runs. *)
Lemma runs_arch {dm : dims} a l : kp (at_sst cur_runs) (thread_mod a (set_tcbArch l)).
Proof.
  apply kp_on_sst. intros x u x' (t & Ht & Hs) (t' & Ht' & ->)%tcb_mod_Some. unfold cur_runs. cbn.
  destruct (decide (ksCurThread (gl x) = a)) as [<-|Hne]; [|rewrite lookup_insert_ne by done; eauto].
  rewrite lookup_insert_eq. eexists. split; [done|]. rewrite Ht' in Ht. by injection Ht as ->.
Qed.
Lemma unused_arch x a l t b : tcbs x !! a = Some t -> unused x b -> unused (Sst (<[a := set_tcbArch l t]> (tcbs x)) (gl x)) b.
Proof. intros Ht Hu t'. cbn. intros [[<- <-]|[_ Hb]]%lookup_insert_Some; [exact (Hu t Ht)|by apply Hu]. Qed.
Lemma kp_unused_arch {dm : dims} D' a l : kp (at_sst (all_unused D')) (thread_mod a (set_tcbArch l)).
Proof.
  apply kp_on_sst. intros x u x' Hx (t & Ht & ->)%tcb_mod_Some b Hb. eapply unused_arch; [exact Ht|by apply Hx].
Qed.
Hint Resolve runs_arch kp_unused_arch : keep.
Lemma unused_entry_hook {dm : dims} D' : kp (at_sst (all_unused D')) entry_hook.
Proof.
  unfold entry_hook, save_thread_local. pose proof (kp_reads (at_sst (all_unused D')) _ reads_tpidr).
  pose proof (kp_reads (at_sst (all_unused D')) _ reads_tpidrro). kpo.
Qed.
Lemma runs_entry_hook {dm : dims} : kp (at_sst cur_runs) entry_hook.
Proof.
  unfold entry_hook, save_thread_local. pose proof (kp_reads (at_sst cur_runs) _ reads_tpidr).
  pose proof (kp_reads (at_sst cur_runs) _ reads_tpidrro). kpo.
Qed.
Hint Resolve kp_strnlen : keep.
Section unknown.
Context (s0 : kst) (H0 : kernel_ok s0).
Let dm := dims_of (fun _ => True) s0.
Definition running : kst -> Prop := at_sst (dm := dm) (fun x => kinv (dm := dm) x /\ cur_runs x).
Lemma running_ok s : running s -> runs_ok s.
Proof. intros [[Hk Hc] Hd]. split; [|exact Hc]. by eapply (at_ko (fun _ => True) s0 s H0). Qed.
Lemma kp_running {A} (m : ST kst A) :
  (forall dm : dims, Loose dm -> kp KI m) -> (forall dm : dims, kp (at_sst cur_runs) m) -> kp running m.
Proof. intros Hk Hc. apply kp_at_and; [apply Hk, dims_of_loose|apply Hc]. Qed.
Ltac running := apply kp_running; intros; kpo.
Lemma runs_unknown n w : kpto running runs_ok (handleUnknownSyscall n w).
Proof.
  unfold handleUnknownSyscall, halt. repeat first
    [ lazymatch goal with
      | |- kpto _ _ (match _ with _ => _ end) => case_match
      | |- kpto _ _ (let _ := _ in _) => cbv zeta
      | |- kpto _ _ fault_and_schedule => eapply kpto_pre; [by intros s []%running_ok|apply runs_fault_and_schedule]
      | |- kpto _ _ (_ ≫= _) => apply kpto_bind; [solve [running]|intros ?]
      | |- kpto _ _ _ => apply kpto_kp; [solve [running]|apply running_ok]
      end ].
Qed.
End unknown.

(** The entry for a system call; the user's registers are words. *)
Lemma runs_slowpath (s0 : kst) n call :
  kernel_ok s0 -> (invokes (as_isize call) = true -> reuse_ok s0) ->
  kpto (at_sst (dm := fixed s0) (fun x => still_args s0 x /\ cur_runs x)) runs_ok (slowpath n call).
Proof.
  intros H0 Hr. apply runs_restore. case_match.
  - eapply kpto_pre; [|by apply (runs_unknown s0)]. intros s [[[[Hk _] _] Hc] (Hd & _)]. split; [split; [|exact Hc]|by split_and!].
    destruct Hk as [Hs Ht]. split; [done|]. by destruct Ht.
  - apply (kpto_pre _ _ (at_sst (dm := fixed s0) (still_args s0))); [by intros s [[Ha _] Hd]; split|].
    eapply kpto_seq; [by apply ko_dispatch|]. intros _. apply finish_runs.
Qed.
Lemma runs_syscall n p i call s r s' :
  runs_ok s -> args_ok (k_sst s) -> (invokes (as_isize call) = true -> reuse_ok s) ->
  c_handle_syscall n p i call s = Ok (r, s') -> runs_ok s'.
Proof.
  intros [Hk Hc] Ha Hr E. revert E. eapply (kpto_bind _ _ entry_hook); [|by intros _; apply (runs_slowpath s)|].
  - apply kp_at_and; [|apply runs_entry_hook]. apply kp_at_and; [apply args_entry_hook|apply unused_entry_hook].
  - destruct (ko_at (fun m => m = k_slots s) s Hk eq_refl) as [Hs Hd].
    exact (conj (conj (conj (conj Hs Ha) (fun b Hb => Hb)) Hc) Hd).
Qed.
End syscalls.

(** ** The runs of the system *)
(** The user has run: the registers of the current thread are any words, plain
    memory holds anything. *)
Definition user_runs (s u : kst) : Prop := exists regs mem s1,
  length regs = 37%nat /\ Forall is_word regs /\ dom mem = dom (k_mem s) /\
  thread_mod (ksCurThread (gl (k_sst s))) (set_tcbArch regs) s = Ok (tt, s1) /\ u = set_k_mem mem s1.

Section runs.
Context {H : Hardware} {TL : ThreadLocal}.
(** The user runs and the kernel is entered: by a system call, for an
    interrupt, for a fault of the address space or another fault.  [reuse_ok] is
    asked for where a system call invokes a capability. *)
Inductive kernel_step (s : kst) : kst -> Prop :=
| step_syscall u n p i call ctx s' :
    user_runs s u -> (invokes (as_isize call) = true -> reuse_ok s) ->
    c_handle_syscall n p i call u = Ok (ctx, s') -> kernel_step s s'
| step_interrupt u ctx s' : user_runs s u -> c_handle_interrupt u = Ok (ctx, s') -> kernel_step s s'
| step_vm_fault u a r s' : user_runs s u -> handleVMFaultEvent a u = Ok (r, s') -> kernel_step s s'
| step_user_fault u a b r s' : user_runs s u -> handleUserLevelFault a b u = Ok (r, s') -> kernel_step s s'.

Lemma ko_mem s (mem : gmap Z Z) : kernel_ok s -> dom mem = dom (k_mem s) -> kernel_ok (set_k_mem mem s).
Proof.
  intros [] Hd. assert (forall a, is_Some (mem !! a) -> is_Some (k_mem s !! a)) as Hm.
  { intros a. by rewrite <- !elem_of_dom, Hd. }
  split; cbn; auto.
Qed.
Lemma user_runs_ok s u : runs_ok s -> user_runs s u ->
  runs_ok u /\ args_ok (k_sst u) /\ (reuse_ok s -> reuse_ok u).
Proof.
  intros [Hk Hc] (regs & mem & s1 & Hl & Hr & Hd & E & ->).
  assert (kernel_ok s1 /\ cur_runs (k_sst s1)) as [Hk1 Hc1].
  { split.
    - revert Hk E. revert s1. intros s1. eapply ko_all. intros dm Hloose. by apply kp_on_sst, kinv_arch.
    - pose proof (ko_at (fun _ => True) s Hk I) as [_ Ha]. eapply (runs_arch (dm := dims_of (fun _ => True) s)); [|exact E].
      by split. }
  apply zoom_inv in E as (x & (t & Ht & ->)%tcb_mod_Some & ->). cbn in *. split_and!.
  - split; [by apply ko_mem|done].
  - intros t1. cbn. rewrite lookup_insert_eq. intros [= <-]. cbn. eapply Forall_impl; [exact Hr|by intros v [? _]].
  - intros Hru p x Hx. destruct (Hru p x Hx) as [Hu Hp]. set (y := Sst _ _).
    assert (forall a n, free_of (unused (k_sst s)) a n -> free_of (unused y) a n) as Hf.
    { intros a n (H1 & H2 & H3). split_and!; [done..|]. intros b Hb. by apply unused_arch, H3. }
    split; intros; apply Hf; [by apply Hu|by apply Hp].
Qed.

(** C1: In every state the system can reach from one that satisfies it, by any
    sequence of system calls, interrupts and faults from which the kernel returns,
    with anything the user does in between, the kernel's invariant holds: the
    ready queues, their bitmap and the threads agree, the current thread, the
    scheduler's action and the idle thread are threads, priorities are bounded,
    threads and plain memory are apart; and the thread that the kernel returns
    to is running or the idle thread.  The premise, where a system call invokes a
    capability: no thread that is queued, current, idle or about to run lies in
    a page table, or in an untyped object without children and the rest of the
    256 bytes that a reset of it clears ([reuse_ok]); resetting an object
    smaller than 256 bytes can violate it. *)
Theorem reachable_ok (M : MachineReads) (s0 s : kst) :
  runs_ok s0 -> rtc kernel_step s0 s -> runs_ok s.
Proof.
  intros Hs Hr. induction Hr as [|s0 s1 s2 Hstep _ IH]; [exact Hs|]. apply IH. clear IH.
  destruct Hstep as [u n p i call ctx s' Hu Hm E|u ctx s' Hu E|u a r s' Hu E|u a b r s' Hu E];
    destruct (user_runs_ok _ _ Hs Hu) as (Hk & Ha & Hr).
  - eapply runs_syscall; [exact Hk|exact Ha|intros Hi; by apply Hr, Hm|exact E].
  - eapply runs_interrupt; [apply Hk|exact E].
  - eapply runs_vm_fault; [apply Hk|exact E].
  - eapply runs_user_fault; [apply Hk|exact E].
Qed.
End runs.

(** ** An instance *)
(** A thread and the idle thread; an untyped object without children, a word
    of it, and in it what is left of a deleted thread.  The thread tries to invoke
    a capability, it yields, an interrupt is lost, the thread faults. *)
#[local] Instance w_machine : Hardware := {| gic_int_ack := mret 0; get_far := mret 0; get_esr := mret 0 |}.
#[local] Instance w_thread_local : ThreadLocal := {| mrs_tpidr_el0 := mret 0; mrs_tpidrro_el0 := mret 0 |}.
Lemma w_machine_reads : MachineReads.
Proof. split; cbn; try apply reads_ret; by intros s v s' [<- _]%Ok_inv. Qed.
Definition w_idle : tcb_t := ts_set ts_type (ThreadState_to_usize ThreadStateIdleThreadState) tcb_zero.
Definition w_region : Z := 0xffffff8000020000.
Definition w_dead : Z := w_region + 1024.
Definition w_rsst : sst :=
  Sst (<[tA := w_tcb 200]> (<[tC := w_idle]> (<[w_dead := tcb_zero]> ∅))) (set_ksIdleThread tC (set_ksCurThread tA sched_init)).
Definition w_untyped : cte_t := Cte (new_untyped_cap 0 0 11 w_region) mdb_node_default.
Definition w_rslots : slots :=
  <[get_cspace tA tcbVTable := cte_default]> (<[get_cspace tA tcbCTable := cte_default]>
  (<[0xffffff8000003020 := w_untyped]> ∅)).
Definition w_rstate : kst := set_k_mem {[w_region := 0]} (set_k_slots w_rslots (set_k_sst w_rsst kst_empty)).
Lemma w_thread a t : tcbs w_rsst !! a = Some t ->
  (a = tA /\ t = w_tcb 200) \/ (a = tC /\ t = w_idle) \/ (a = w_dead /\ t = tcb_zero).
Proof.
  unfold w_rsst. cbn [tcbs]. intros Hx. apply lookup_insert_Some in Hx as [[<- <-]|[_ Hx]]; [by left|].
  apply lookup_insert_Some in Hx as [[<- <-]|[_ Hx]]; [by right; left|].
  apply lookup_insert_Some in Hx as [[<- <-]|[_ Hx]]; [by right; right|]. by rewrite lookup_empty in Hx.
Qed.
Lemma w_runs_ok : runs_ok w_rstate.
Proof.
  assert (forall a t, tcbs w_rsst !! a = Some t -> t = w_tcb 200 \/ t = w_idle \/ t = tcb_zero) as Ht.
  { intros a t Hx. apply w_thread in Hx. tauto. }
  assert (forall a, is_Some (k_mem w_rstate !! a) -> a = w_region) as Hm.
  { unfold w_rstate. cbn. intros a [v Hv]. by apply lookup_singleton_Some in Hv as [<- _]. }
  split; [split|].
  - split; [exists w_Q; apply idle_okb_ok; vm_compute; reflexivity| |by eexists|right; left; reflexivity|reflexivity].
    intros a t [-> | [-> | ->]]%Ht; split; try reflexivity; by eexists.
  - by exists w_idle.
  - by intros a t [-> | [-> | ->]]%Ht.
  - done.
  - intros a ->%Hm. vm_compute. reflexivity.
  - by intros a ->%Hm.
  - exists (w_tcb 200). split; [vm_compute; reflexivity|by left].
Qed.
Lemma w_reuse_ok : reuse_ok w_rstate.
Proof.
  intros p x Hx.
  assert (x = w_untyped \/ x = cte_default) as [-> | ->].
  { change (w_rslots !! p = Some x) in Hx. unfold w_rslots in Hx.
    apply lookup_insert_Some in Hx as [[_ <-]|[_ Hx]]; [by right|].
    apply lookup_insert_Some in Hx as [[_ <-]|[_ Hx]]; [by right|].
    apply lookup_insert_Some in Hx as [[_ <-]|[_ Hx]]; [by left|]. by rewrite lookup_empty in Hx. }
  - split; [|intros E; vm_compute in E; discriminate E]. intros _ _.
    split; [by vm_compute|]. split; [by vm_compute|]. intros a Ha t [[-> ->]|[[-> ->]|[-> ->]]]%w_thread.
    + vm_compute in Ha. by destruct Ha as [[] _].
    + vm_compute in Ha. by destruct Ha as [[] _].
    + by split_and!.
  - split; intros E; vm_compute in E; discriminate E.
Qed.

Definition w_user (s : kst) : kst := after (thread_mod (ksCurThread (gl (k_sst s))) (set_tcbArch (replicate 37 8))) s.
Lemma w_user_runs s : is_Some (tcbs (k_sst s) !! ksCurThread (gl (k_sst s))) -> user_runs s (w_user s).
Proof.
  intros [t Ht]. eexists (replicate 37 8), (k_mem s), _. split; [done|].
  split; [apply Forall_replicate; by vm_compute|]. split; [done|].
  unfold w_user, after, thread_mod, on_sst, zoom, tcb_mod, on_tcbs, store_with. rewrite Ht. split; [done|]. by destruct s.
Qed.

Definition w_reach0 : kst := after (c_handle_syscall 10 0 0 (as_usize SysNBSend)) (w_user w_rstate).
Definition w_reach1 : kst := after (c_handle_syscall 10 0 0 (as_usize SysYield)) (w_user w_reach0).
Definition w_reach2 : kst := after c_handle_interrupt (w_user w_reach1).
Definition w_reach3 : kst := after (handleUserLevelFault 1 2) (w_user w_reach2).
Lemma after_Ok {S A} (m : ST S A) (s : S) : (exists r s', m s = Ok (r, s')) -> exists r, m s = Ok (r, after m s).
Proof. intros (r & s' & E). exists r. unfold after. by rewrite E. Qed.
Lemma w_current s : bool_decide (is_Some (tcbs (k_sst s) !! ksCurThread (gl (k_sst s)))) = true -> user_runs s (w_user s).
Proof. intros Hs%bool_decide_eq_true. by apply w_user_runs. Qed.
Lemma w_reach0_step : kernel_step w_rstate w_reach0.
Proof.
  destruct (after_Ok (c_handle_syscall 10 0 0 (as_usize SysNBSend)) (w_user w_rstate)) as [r E].
  { do 2 eexists. vm_compute. reflexivity. }
  apply (step_syscall w_rstate (w_user w_rstate) 10 0 0 (as_usize SysNBSend) r); [|intros _; exact w_reuse_ok|exact E].
  apply w_current. vm_compute. reflexivity.
Qed.
Lemma w_reach1_step : kernel_step w_reach0 w_reach1.
Proof.
  destruct (after_Ok (c_handle_syscall 10 0 0 (as_usize SysYield)) (w_user w_reach0)) as [r E].
  { do 2 eexists. vm_compute. reflexivity. }
  apply (step_syscall w_reach0 (w_user w_reach0) 10 0 0 (as_usize SysYield) r); [|intros [=]|exact E].
  apply w_current. vm_compute. reflexivity.
Qed.
Lemma w_reach2_step : kernel_step w_reach1 w_reach2.
Proof.
  destruct (after_Ok c_handle_interrupt (w_user w_reach1)) as [r E].
  { do 2 eexists. vm_compute. reflexivity. }
  apply (step_interrupt w_reach1 (w_user w_reach1) r); [|exact E]. apply w_current. vm_compute. reflexivity.
Qed.
Lemma w_reach3_step : kernel_step w_reach2 w_reach3.
Proof.
  destruct (after_Ok (handleUserLevelFault 1 2) (w_user w_reach2)) as [r E].
  { do 2 eexists. vm_compute. reflexivity. }
  apply (step_user_fault w_reach2 (w_user w_reach2) 1 2 r); [|exact E]. apply w_current. vm_compute. reflexivity.
Qed.
Lemma w_reachable : rtc kernel_step w_rstate w_reach3.
Proof.
  apply (rtc_l _ _ w_reach0); [exact w_reach0_step|]. apply (rtc_l _ _ w_reach1); [exact w_reach1_step|]. apply (rtc_l _ _ w_reach2); [exact w_reach2_step|].
  apply rtc_once, w_reach3_step.
Qed.
Lemma reachable_ok_witness :
  (rtc kernel_step w_rstate w_reach3 /\ ksCurThread (gl (k_sst w_reach3)) = tC) /\ runs_ok w_reach3.
Proof.
  split; [split; [exact w_reachable|vm_compute; reflexivity]|].
  apply (reachable_ok w_machine_reads w_rstate w_reach3); [exact w_runs_ok|exact w_reachable].
Defined.
