(* ===== verification/RoundRobin.v ===== *)
(** * Time sharing: theorems

    Yielding and the end of a time slice, from the entry of the kernel to the
    thread it returns to: threads of one priority take turns, and the kernel
    always returns. *)

From stdpp Require Import base numbers gmap list.
From S2P Require Import Prelude Bitfield Common Cap DList CSpace Sched Bitmap SchedProps SchedInv SchedWit EpQueue State Vspace VspaceProps Threads Delete Ipc Finalise Syscall CNodeInv UntypedInv TcbInv MmuInv IrqInv Kernel Entry NtfnProps SwitchProps Keep KernelKeep Reuse Reach.
Local Open Scope Z_scope.
Local Open Scope krn_scope.

(** ** Resting states *)
(** A thread that can run. *)
Definition runs (t : tcb_t) : Prop := get_state t = Ok ThreadStateRunning \/ get_state t = Ok ThreadStateRestart.
(** A thread that may be made current: it can run and its address space can be
    loaded. *)
Definition ready (s : kst) (d : Z) : Prop := vroot_ok s d /\ exists t, tcbs (k_sst s) !! d = Some t /\ runs t.
(** The kernel at rest while a thread runs: the ready queues are [Q], the
    current thread is in none of them, and all could be made current. *)
Record resting (s : kst) (Q : list (list Z)) : Prop := {
  re_ok : kernel_ok s;
  re_queues : rq_ok (k_sst s) Q;
  re_vm : vm_ok (k_vm s);
  re_action : ksSchedulerAction (gl (k_sst s)) = SchedulerAction_ResumeCurrentThread;
  re_current : exists t, tcbs (k_sst s) !! ksCurThread (gl (k_sst s)) = Some t /\
    get_state t = Ok ThreadStateRunning /\ queued t = false;
  re_loads : vroot_ok s (ksCurThread (gl (k_sst s)));
  re_ready : forall (i : nat) l d, Q !! i = Some l -> d ∈ l -> ready s d }.
(** The priorities are the same and what can run still can. *)
Definition keeps_prio (x x' : sst) : Prop := forall a t, tcbs x !! a = Some t ->
  exists t', tcbs x' !! a = Some t' /\ tcbPriority t' = tcbPriority t /\ (runs t -> runs t') /\
    (get_state t = Ok ThreadStateRunning -> get_state t' = Ok ThreadStateRunning).
(** The queues without a thread. *)
Definition without (d : Z) (Q : list (list Z)) : list (list Z) := filter (fun a => a <> d) <$> Q.
(** The queues after the thread [c] of priority [p] has gone to the end of its
    queue. *)
Definition rotated (c p : Z) (Q : list (list Z)) : list (list Z) := <[Z.to_nat p := (Q !!! Z.to_nat p) ++ [c]]> Q.

Section queues.
Implicit Types (x : sst) (s : kst) (Q : list (list Z)) (a c d p : Z) (t : tcb_t) (l : list Z).

Lemma filter_all d l : d ∉ l -> filter (fun a => a <> d) l = l.
Proof.
  intros Hd. induction l as [|b l IH]; [done|]. apply not_elem_of_cons in Hd as [? ?].
  rewrite filter_cons, decide_True by done. by rewrite IH.
Qed.
Lemma dequeued_without x Q d t : rq_ok x Q -> tcbs x !! d = Some t -> dequeued d t Q = without d Q.
Proof.
  intros Hok Ht. apply list_eq. intros i. unfold without, dequeued. rewrite list_lookup_fmap.
  destruct (Q !! i) as [l|] eqn:Hl; cbn.
  - pose proof (rq_mem _ _ Hok d t i l Ht Hl) as Hm. destruct (queued t) eqn:Eq.
    + destruct (decide (i = Z.to_nat (tcbPriority t))) as [->|Hne].
      * pose proof (lookup_lt_Some _ _ _ Hl). by rewrite list_lookup_insert_eq, (list_lookup_total_correct _ _ _ Hl).
      * rewrite list_lookup_insert_ne by done. rewrite Hl. f_equal. symmetry. apply filter_all. tauto.
    + rewrite Hl. f_equal. symmetry. apply filter_all. rewrite Hm. by intros [? _].
  - destruct (queued t); [|done]. apply lookup_ge_None in Hl. apply lookup_ge_None. by rewrite length_insert.
Qed.
Lemma queued_in x Q a t l (p : nat) : rq_ok x Q -> Q !! p = Some l -> a ∈ l -> tcbs x !! a = Some t -> queued t = true.
Proof. intros Hok Hl Ha Ht. by apply (rq_mem _ _ Hok a t p l Ht Hl). Qed.
Lemma next_thread_in Q d : next_thread Q = Some d -> exists (p : nat) l, Q !! p = Some l /\ d ∈ l.
Proof.
  unfold next_thread. intros Hd.
  assert (d ∈ concat (rev Q)) as Hin by (destruct (concat (rev Q)); [done|]; injection Hd as ->; set_solver).
  apply list_elem_of_In, in_concat in Hin as (l & Hl & Hd2). apply in_rev, list_elem_of_In, list_elem_of_lookup in Hl as [i Hi].
  exists i, l. split; [done|]. by apply list_elem_of_In.
Qed.
Lemma next_thread_some Q a (p : nat) l : Q !! p = Some l -> a ∈ l -> exists d, next_thread Q = Some d.
Proof.
  intros Hl Ha. unfold next_thread. assert (In a (concat (rev Q))) as Hin.
  { apply in_concat. exists l. split; [|by apply list_elem_of_In]. apply in_rev. rewrite rev_involutive.
    apply list_elem_of_In. by eapply list_elem_of_lookup_2. }
  destruct (concat (rev Q)); [done|]. by eexists.
Qed.
End queues.

(** ** Back to user mode *)
Section tail.
Implicit Types (x : sst) (s : kst) (Q : list (list Z)) (a c d p : Z) (t : tcb_t).

Lemma same_ready x x' d t : same_threads x x' -> tcbs x !! d = Some t ->
  exists t', tcbs x' !! d = Some t' /\ tcb_strip t' = tcb_strip t.
Proof.
  intros Hs Ht. specialize (Hs d). rewrite Ht in Hs. revert Hs. destruct (tcbs x' !! d) as [t'|]; intros Hs; [|discriminate Hs].
  exists t'. split; [done|]. by apply (inj Some) in Hs.
Qed.
Lemma keeps_prio_refl x : keeps_prio x x.
Proof. intros a t Ht. eauto. Qed.
Lemma keeps_prio_trans x1 x2 x3 : keeps_prio x1 x2 -> keeps_prio x2 x3 -> keeps_prio x1 x3.
Proof.
  intros H1 H2 a t Ht. destruct (H1 a t Ht) as (t2 & Ht2 & E2 & R2 & S2). destruct (H2 a t2 Ht2) as (t3 & Ht3 & E3 & R3 & S3).
  exists t3. split_and!; [done|congruence|auto..].
Qed.
Lemma same_keeps_prio x x' : same_threads x x' -> keeps_prio x x'.
Proof.
  intros Hs a t Ht. destruct (same_ready _ _ _ _ Hs Ht) as (t' & Ht' & E). exists t'. split; [done|].
  split; [by apply strip_prio|]. unfold runs. by rewrite (strip_state _ _ E).
Qed.
Lemma ready_kept s s' d : k_slots s' = k_slots s -> keeps_prio (k_sst s) (k_sst s') -> ready s d -> ready s' d.
Proof.
  intros Es Hk [Hv (t & Ht & Hr)]. split; [unfold vroot_ok; by rewrite Es|].
  destruct (Hk _ _ Ht) as (t' & Ht' & _ & R & _). eauto.
Qed.
(** Activating a thread leaves the queues. *)
Lemma wp_activate x Q t (P : unit -> sst -> Prop) :
  rq_ok x Q -> tcbs x !! ksCurThread (gl x) = Some t -> length (tcbArch t) = 37%nat ->
  ksSchedulerAction (gl x) = SchedulerAction_ResumeCurrentThread ->
  runs t ->
  (forall x', rq_ok x' Q -> gl x' = gl x -> keeps_prio x x' ->
    (exists t', tcbs x' !! ksCurThread (gl x) = Some t' /\ get_state t' = Ok ThreadStateRunning) -> P tt x') ->
  wp activateThread P x.
Proof.
  intros Hok Ht Hl Ha Hs HP. unfold activateThread, get_currenct_thread, gl_get. do 3 wp_step.
  apply wp_bind, wp_assert; [rewrite bool_decide_false; [done|]; intros E; by rewrite E, (rq_null _ _ Hok) in Ht|]. wp_step.
  apply wp_bind. eapply wp_tcb_get; [exact Ht|].
  destruct Hs as [Hs|Hs]; apply wp_bind; (eapply wp_lift; [exact Hs|]).
  { apply wp_ret, HP; [done|done|by apply keeps_prio_refl|]. eauto. }
  destruct (lookup_lt_is_Some_2 (tcbArch t) 34 ltac:(lia)) as [v Hv].
  apply wp_bind. eapply (wp_lift _ _ _ v); [unfold get_register; cbn; by apply idx_Ok|].
  apply wp_bind. eapply wp_lift; [unfold set_register; cbn; apply upd_Ok; lia|].
  set (c := ksCurThread (gl x)) in *. apply wp_bind, wp_tcb_mod; [by eauto|]. unfold set_thread_state. cbn [gl tcbs].
  apply wp_bind, wp_tcb_mod; [cbn; rewrite is_Some_alter; by eauto|]. cbn [gl tcbs].
  match goal with |- wp _ _ (Sst ?h _) => set (h' := h) end.
  set (f := set_tcbArch _) in h'. pose (t' := ts_set ts_type (ThreadState_to_usize ThreadStateRunning) (f t)).
  assert (h' !! c = Some t') as Ht' by (unfold h'; by rewrite !lookup_alter_eq, Ht).
  assert (get_state t' = Ok ThreadStateRunning) as Hs' by exact (state_written (f t) _ (proj1 (rq_tcb _ _ Hok _ _ Ht))).
  assert (wp (schedule_tcb c) P (Sst h' (gl x))) as Hw; [|exact Hw].
  unfold schedule_tcb, get_currenct_thread_unsafe, get_ks_scheduler_action, gl_get. wp_steps. cbn [gl tcbs].
  rewrite bool_decide_true by done. rewrite Ha, bool_decide_true by done. cbn [andb].
  apply wp_bind. eapply wp_tcb_get; [exact Ht'|]. apply wp_bind. eapply wp_lift; [unfold is_runnable; by rewrite Hs'|].
  apply wp_ret, HP; [|done| |by eauto].
  2: { intros a ta Hta. destruct (decide (a = c)) as [->|Hne].
    - rewrite Ht in Hta. injection Hta as <-. exists t'. split_and!; [done|done|by left|done].
    - exists ta. split; [cbn; unfold h'; by rewrite !lookup_alter_ne by done|done]. }
  unfold h'.
  assert (rq_ok (Sst (alter f c (tcbs x)) (gl x)) Q) as H1.
  { apply rq_ok_tcb_mod; [|exact Hok]. intros t0 Ht0. split_and!; try done; by apply (rq_tcb _ _ Hok _ _ Ht0). }
  refine (rq_ok_tcb_mod (Sst (alter f c (tcbs x)) (gl x)) Q c _ _ H1). intros t0 Ht0.
  split_and!; try done; [apply queued_ts_type|]. apply tcb_ok_ts_set. by apply (rq_tcb _ _ H1 _ _ Ht0).
Qed.

Lemma wp_nextDomain x Q (P : unit -> sst -> Prop) :
  rq_ok x Q -> ksDomScheduleIdx (gl x) = 0 ->
  (forall x', rq_ok x' Q -> tcbs x' = tcbs x -> ksIdleThread (gl x') = ksIdleThread (gl x) -> P tt x') -> wp nextDomain P x.
Proof.
  intros Hok H0 HP. unfold nextDomain, gl_mod, gl_get. repeat (wp_steps; cbn; rewrite ?H0). apply HP; [|done|done].
  destruct Hok. by split.
Qed.
Lemma wp_chooses s Q (P : unit -> kst -> Prop) :
  rq_ok (k_sst s) Q -> ksDomScheduleIdx (gl (k_sst s)) = 0 -> vm_ok (k_vm s) ->
  (forall d, next_thread Q = Some d -> vroot_ok s d) ->
  (forall s', chosen Q s s' -> switched s s' -> P tt s') -> wp scheduleChooseNewThread P s.
Proof.
  intros Hok H0 Hv Hr HP. unfold scheduleChooseNewThread, gl_get. apply wp_bind, wp_zoom, wp_gets.
  replace (set_k_sst (k_sst s) s) with s by by destruct s. unfold id. apply wp_bind, wp_when; intros _.
  2: by eapply wp_chooseThread.
  apply wp_zoom. eapply wp_nextDomain; [done|done|]. intros x Hx Et Ei.
  eapply wp_chooseThread; [exact Hx|exact Hv|exact Hr|]. intros s' Hc (Hs & Hs2). apply HP.
  - unfold chosen in *. cbn in Hc. by rewrite Et, Ei in Hc.
  - split; [|done]. intros a. rewrite (Hs a). cbn. by rewrite Et.
Qed.

(** What a computation reaches, with what it keeps. *)
Lemma wp_kp {A : Type} (I : kst -> Prop) (m : ST kst A) s (P : A -> kst -> Prop) :
  kp I m -> I s -> wp m (fun (x : A) s' => I s' -> P x s') s -> wp m P s.
Proof. intros Hm Hs. unfold wp. destruct (m s) as [[x s']| | |] eqn:E; try done. intros HP. eapply HP, Hm; eauto. Qed.

(** The way back to user mode: the queues are [Q], a thread is asked for. *)
Definition chosen_next Q s s' : Prop := exists d, next_thread Q = Some d /\ ksCurThread (gl (k_sst s')) = d /\
  resting s' (without d Q) /\ keeps_prio (k_sst s) (k_sst s').
Definition back_to_user : ST kst exception_t := schedule ;; on_sst activateThread ;; mret EXCEPTION_NONE.
Lemma without_in Q d (i : nat) l a : without d Q !! i = Some l -> a ∈ l -> exists l', Q !! i = Some l' /\ a ∈ l' /\ a <> d.
Proof.
  unfold without. rewrite list_lookup_fmap. intros [l' [Hl' ->]]%fmap_Some Ha. apply list_elem_of_filter in Ha as [? ?]. eauto.
Qed.
Lemma resting_chosen s' Q d t :
  kernel_ok s' -> rq_ok (k_sst s') (without d Q) -> vm_ok (k_vm s') ->
  ksSchedulerAction (gl (k_sst s')) = SchedulerAction_ResumeCurrentThread -> ksCurThread (gl (k_sst s')) = d ->
  tcbs (k_sst s') !! d = Some t -> get_state t = Ok ThreadStateRunning ->
  (forall a, (exists (i : nat) (l : list Z), Q !! i = Some l /\ a ∈ l) -> ready s' a) ->
  (exists (i : nat) l, Q !! i = Some l /\ d ∈ l) -> resting s' (without d Q).
Proof.
  intros Hk Hq Hv Ha Ec Ht Hs Hr Hd. split; try done.
  - rewrite Ec. exists t. split_and!; [done|done|]. destruct (queued t) eqn:E; [|done].
    pose proof (rq_lookup_total _ _ _ _ Hq Ht) as Hl.
    assert (d ∈ without d Q !!! Z.to_nat (tcbPriority t)) as Hin by by apply (rq_mem _ _ Hq _ _ _ _ Ht Hl).
    by destruct (without_in _ _ _ _ _ Hl Hin) as (? & _ & _ & []).
  - rewrite Ec. by apply Hr.
  - intros i l a Hl Hin. destruct (without_in _ _ _ _ _ Hl Hin) as (l' & ? & ? & _). apply Hr. eauto.
Qed.
Lemma wp_schedule_choose s Q t (P : unit -> kst -> Prop) :
  sched_inv (k_sst s) -> rq_ok (k_sst s) Q -> vm_ok (k_vm s) ->
  ksSchedulerAction (gl (k_sst s)) = SchedulerAction_ChooseNewThread ->
  tcbs (k_sst s) !! ksCurThread (gl (k_sst s)) = Some t -> get_state t = Ok ThreadStateRunning -> queued t = true ->
  (forall d, next_thread Q = Some d -> vroot_ok s d) ->
  (forall s', chosen Q s s' -> switched s s' ->
    ksSchedulerAction (gl (k_sst s')) = SchedulerAction_ResumeCurrentThread -> P tt s') -> wp schedule P s.
Proof.
  intros Hi Hok Hv Ha Ht Hs Hq Hr HP. unfold schedule, get_ks_scheduler_action, gl_get.
  assert (set_k_sst (k_sst s) s = s) as Es by by destruct s.
  apply wp_bind, wp_zoom, wp_gets. rewrite Es, Ha.
  apply wp_bind, wp_when; [intros _|done].
  apply wp_bind, wp_zoom, wp_cur; [exact Hi|]. rewrite Es.
  apply wp_bind. eapply wp_thread; [exact Ht|]. apply wp_bind. eapply wp_lift; [unfold is_runnable; by rewrite Hs|].
  apply wp_bind, wp_when; [intros _|done]. apply wp_zoom. eapply wp_sched_enqueue; [exact Hok|exact Ht|].
  unfold enqueued. rewrite Hq. intros x Hx Hf. destruct (frame_gl _ _ Hf) as (_ & Ea & Ed & _ & Ei & _).
  apply wp_bind, wp_zoom, wp_gets. cbn [k_sst set_k_sst]. rewrite Ea, Ha, bool_decide_true by done.
  pose proof (si_idx _ Hi) as E0.
  eapply wp_chooses; [exact Hx|cbn; congruence|exact Hv|exact Hr|].
  intros s1 Hc (Hst & Esl & Hvm). cbn in Esl, Hvm. apply wp_zoom. unfold set_ks_scheduler_action, gl_mod. wp_steps. apply HP; [| |done].
  - unfold chosen in *. cbn [k_sst set_k_sst gl tcbs] in *. rewrite Ei in Hc. destruct (next_thread Q) as [d|].
    + destruct Hc as (Ec & td & Htd & Hqd). split; [done|].
      destruct (frame_thread_rev _ _ _ _ Hf Htd) as (t0 & Ht0 & E). exists t0. split; [done|].
      rewrite (dequeued_without _ _ _ _ Hx Htd) in Hqd. rewrite (dequeued_without _ _ _ _ Hok Ht0).
      destruct Hqd. by split.
    + destruct Hc as [Ec Hqd]. split; [done|]. destruct Hqd. by split.
  - split; [|done]. intros a. cbn. rewrite (Hst a). apply (proj2 Hf).
Qed.
Lemma wp_back_to_user s Q t (P : exception_t -> kst -> Prop) :
  kernel_ok s -> rq_ok (k_sst s) Q -> vm_ok (k_vm s) ->
  ksSchedulerAction (gl (k_sst s)) = SchedulerAction_ChooseNewThread ->
  tcbs (k_sst s) !! ksCurThread (gl (k_sst s)) = Some t -> get_state t = Ok ThreadStateRunning -> queued t = true ->
  (forall (i : nat) l d, Q !! i = Some l -> d ∈ l -> ready s d) ->
  (forall s', chosen_next Q s s' -> P EXCEPTION_NONE s') -> wp back_to_user P s.
Proof.
  intros Hk Hok Hv Ha Ht Hs Hq Hr HP. pose proof (ko_sched _ Hk) as Hi. unfold back_to_user.
  apply (wp_kp kernel_ok); [ko|done|]. apply wp_bind. eapply wp_schedule_choose; [done..| |].
  { intros d Hd. apply next_thread_in in Hd as (i & l & Hl & Hd). exact (proj1 (Hr i l d Hl Hd)). }
  intros s1 Hc Hsw Ha1. pose proof (rq_lookup_total _ _ _ _ Hok Ht) as Hl. set (c := ksCurThread (gl (k_sst s))) in *.
  assert (c ∈ Q !!! Z.to_nat (tcbPriority t)) as Hin by by apply (rq_mem _ _ Hok _ _ _ _ Ht Hl).
  destruct (next_thread_some _ _ _ _ Hl Hin) as [d Hn]. unfold chosen in Hc. rewrite Hn in Hc.
  destruct Hc as (Ec & td & Htd & Hqd). rewrite (dequeued_without _ _ _ _ Hok Htd) in Hqd.
  pose proof (next_thread_in _ _ Hn) as Hd.
  assert (forall a, (exists (i : nat) (l : list Z), Q !! i = Some l /\ a ∈ l) -> ready s1 a) as Hr1.
  { intros a (i & l & ? & ?). eapply ready_kept; [apply Hsw|apply same_keeps_prio, Hsw|eauto]. }
  destruct (Hr1 d Hd) as (_ & t1 & Ht1 & Hs1). destruct (same_ready _ _ _ _ (proj1 Hsw) Htd) as (t2 & Ht2 & E).
  assert (t2 = t1) as -> by congruence.
  apply wp_bind, wp_zoom. eapply (wp_activate _ (without d Q) t1); [exact Hqd|by rewrite Ec| |exact Ha1|exact Hs1|].
  { destruct (strip_prio _ _ E) as (_ & _ & _ & ->). by apply (si_thr _ Hi _ _ Htd). }
  rewrite Ec. intros x' Hx' Eg Hkp (t' & Ht' & Hs'). apply wp_ret. intros Hk'. apply HP. exists d.
  split_and!; [done|cbn; by rewrite Eg| |].
  - apply (resting_chosen _ Q d t'); cbn [k_sst set_k_sst]; rewrite ?Eg; try done.
    { exact (switched_vm _ _ Hsw Hv). }
    intros a Hra. eapply ready_kept; [|exact Hkp|by apply Hr1]. done.
  - eapply keeps_prio_trans; [apply same_keeps_prio, Hsw|done].
Qed.

(** ** The current thread to the end of its queue *)
Lemma rotated_in c p Q (i : nat) l a : rotated c p Q !! i = Some l -> a ∈ l ->
  a = c \/ exists (i : nat) (l : list Z), Q !! i = Some l /\ a ∈ l.
Proof.
  unfold rotated. intros Hl Ha. destruct (decide (i = Z.to_nat p)) as [->|Hne].
  2: { rewrite list_lookup_insert_ne in Hl by done. eauto. }
  apply list_lookup_insert_Some in Hl as [(_ & <- & Hlt)|[? _]]; [|done].
  apply elem_of_app in Ha as [Ha|Ha%list_elem_of_singleton]; [|by left].
  right. exists (Z.to_nat p), (Q !!! Z.to_nat p). split; [by apply list_lookup_lookup_total_lt|done].
Qed.
Lemma wp_on_sst_then {A} (m : ST sst unit) (m' : ST sst A) s (P : A -> kst -> Prop) :
  wp (on_sst (m ;; m')) P s -> wp (on_sst m ;; on_sst m') P s.
Proof.
  unfold wp, on_sst, zoom, mbind, st_bind. destruct (m (k_sst s)) as [[[] x]| | |]; done.
Qed.
Lemma wp_to_the_end x Q c t (P : unit -> sst -> Prop) :
  rq_ok x Q -> tcbs x !! c = Some t -> queued t = false ->
  ksSchedulerAction (gl x) = SchedulerAction_ResumeCurrentThread ->
  (forall x', rq_ok x' (rotated c (tcbPriority t) Q) -> same_threads x x' -> ksCurThread (gl x') = ksCurThread (gl x) ->
    ksSchedulerAction (gl x') = SchedulerAction_ChooseNewThread -> P tt x') ->
  wp (sched_append c ;; rescheduleRequired) P x.
Proof.
  intros Hok Ht Hq Ha HP. apply wp_bind. eapply wp_sched_append; [exact Hok|exact Ht|]. unfold enqueued. rewrite Hq.
  intros x' Hx' Hf. destruct (frame_gl _ _ Hf) as (Ec & Ea & _). unfold rescheduleRequired, get_ks_scheduler_action, gl_get.
  wp_steps. rewrite Ea, Ha, (bool_decide_true (SchedulerAction_ResumeCurrentThread = _)) by done. cbn [negb andb].
  unfold set_ks_scheduler_action, gl_mod. wp_steps. apply HP; [destruct Hx'; by split|exact (proj2 Hf)|done|done].
Qed.
Lemma wp_leave s s1 Q t (P : exception_t -> kst -> Prop) :
  resting s Q -> tcbs (k_sst s) !! ksCurThread (gl (k_sst s)) = Some t -> kernel_ok s1 ->
  rq_ok (k_sst s1) (rotated (ksCurThread (gl (k_sst s))) (tcbPriority t) Q) ->
  keeps_prio (k_sst s) (k_sst s1) -> ksCurThread (gl (k_sst s1)) = ksCurThread (gl (k_sst s)) ->
  ksSchedulerAction (gl (k_sst s1)) = SchedulerAction_ChooseNewThread -> k_slots s1 = k_slots s -> vm_ok (k_vm s1) ->
  (forall s', chosen_next (rotated (ksCurThread (gl (k_sst s))) (tcbPriority t) Q) s s' -> P EXCEPTION_NONE s') ->
  wp back_to_user P s1.
Proof.
  intros Hr Ht Hk Hok Hkp Ec Ha Esl Ev HP. set (c := ksCurThread (gl (k_sst s))) in *.
  destruct (Hkp _ _ Ht) as (t1 & Ht1 & Ep & R & Hst). destruct (re_current _ _ Hr) as (t0 & Ht0 & Hs0 & _).
  fold c in Ht0. assert (t0 = t) as -> by congruence. rewrite <- Ec in Ht1.
  assert (rotated c (tcbPriority t) Q !! Z.to_nat (tcbPriority t) = Some (Q !!! Z.to_nat (tcbPriority t) ++ [c])) as Hl.
  { apply list_lookup_insert_eq. pose proof (rq_lookup_total _ _ _ _ (re_queues _ _ Hr) Ht). by eapply lookup_lt_Some. }
  eapply (wp_back_to_user s1); [exact Hk|exact Hok|exact Ev|exact Ha|exact Ht1|by apply Hst| | |].
  - apply (rq_mem _ _ Hok _ _ _ _ Ht1 Hl). rewrite Ec. apply elem_of_app. right. by apply list_elem_of_singleton.
  - intros i l d Hd Hin. eapply ready_kept; [exact Esl|exact Hkp|].
    destruct (rotated_in _ _ _ _ _ _ Hd Hin) as [->|(i' & l' & Hl' & Hin')]; [|by eapply (re_ready _ _ Hr)].
    split; [apply (re_loads _ _ Hr)|]. exists t. split; [done|by left].
  - intros s' (d & Hn & Hcur & Hre & Hk2). apply HP. exists d. split_and!; [done..|by eapply keeps_prio_trans].
Qed.

(** ** Yielding *)
Lemma wp_handle_yield s Q t (P : unit -> kst -> Prop) :
  resting s Q -> tcbs (k_sst s) !! ksCurThread (gl (k_sst s)) = Some t ->
  (forall x, rq_ok x (rotated (ksCurThread (gl (k_sst s))) (tcbPriority t) Q) -> same_threads (k_sst s) x ->
    ksCurThread (gl x) = ksCurThread (gl (k_sst s)) -> ksSchedulerAction (gl x) = SchedulerAction_ChooseNewThread ->
    P tt (set_k_sst x s)) -> wp handle_yield P s.
Proof.
  intros Hr Ht HP. pose proof (ko_sched _ (re_ok _ _ Hr)) as Hi. set (c := ksCurThread (gl (k_sst s))) in *.
  destruct (re_current _ _ Hr) as (t0 & Ht0 & _ & Hq). fold c in Ht0. assert (t0 = t) as -> by congruence.
  assert (set_k_sst (k_sst s) s = s) as Es by by destruct s.
  unfold handle_yield. apply wp_bind, wp_zoom, wp_cur; [exact Hi|]. rewrite Es. fold c.
  apply wp_bind, wp_zoom. eapply wp_sched_dequeue; [apply Hr|exact Ht|]. unfold dequeued. rewrite Hq. intros x Hx Hf.
  destruct (frame_gl _ _ Hf) as (Ec & Ea & _). pose proof (sched_inv_frame _ _ _ Hi Hf Hx) as Hix.
  destruct (frame_thread _ _ _ _ Hf Ht) as (tx & Htx & E).
  assert (queued tx = false) as Hqx.
  { destruct (queued tx) eqn:Eq; [|done]. pose proof (rq_lookup_total _ _ _ _ Hx Htx) as Hl.
    assert (c ∈ Q !!! Z.to_nat (tcbPriority tx)) as Hin by by apply (rq_mem _ _ Hx _ _ _ _ Htx Hl).
    apply (rq_mem _ _ (re_queues _ _ Hr) _ _ _ _ Ht Hl) in Hin as [? _]. congruence. }
  apply wp_bind, wp_zoom, wp_cur; [exact Hix|]. cbn [k_sst set_k_sst]. rewrite Ec. fold c.
  cut (wp (on_sst (sched_append c ;; rescheduleRequired)) P (set_k_sst x s)); [apply wp_on_sst_then|].
  apply wp_zoom. eapply wp_to_the_end; [exact Hx|exact Htx|exact Hqx|cbn; rewrite Ea; apply Hr|].
  destruct (strip_prio _ _ E) as (-> & _). intros x' Hx' Hs' Ec' Ea'. cbn in Hs', Ec'. cbn. apply HP; [done| |by rewrite Ec', Ec|done].
  intros a. rewrite (Hs' a). apply (proj2 Hf).
Qed.
End tail.

Section turns.
Context {D : CSpaceDeps} {L : CSpaceKeeps D} {H : Hardware}.
Implicit Types (s : kst) (Q : list (list Z)) (a c d p : Z) (t : tcb_t).
Lemma wp_yield (n : nat) s Q t (P : exception_t -> kst -> Prop) :
  resting s Q -> tcbs (k_sst s) !! ksCurThread (gl (k_sst s)) = Some t ->
  (forall s', chosen_next (rotated (ksCurThread (gl (k_sst s))) (tcbPriority t) Q) s s' -> P EXCEPTION_NONE s') ->
  wp (handleSyscall n SysYield) P s.
Proof.
  intros Hr Ht HP. change (wp (handle_yield ;; back_to_user) P s). apply wp_bind.
  apply (wp_kp kernel_ok); [ko|apply Hr|]. eapply wp_handle_yield; [exact Hr|exact Ht|].
  intros x Hx Hs Ec Ea Hk. eapply wp_leave; [exact Hr|exact Ht|exact Hk|exact Hx|by apply same_keeps_prio|exact Ec|exact Ea|done|apply Hr|exact HP].
Qed.

(** *** Turns *)
(** The threads of the priority [p], in the order of their turns: the current
    thread first, then its queue; no queue above has a thread. *)
Definition turn (p : nat) s (o : list Z) : Prop := exists c l Q t,
  o = c :: l /\ resting s Q /\ ksCurThread (gl (k_sst s)) = c /\ tcbs (k_sst s) !! c = Some t /\
  Z.to_nat (tcbPriority t) = p /\ Q !! p = Some l /\ forall (q : nat) l', Q !! q = Some l' -> (p < q)%nat -> l' = [].
Lemma filter_head d l : NoDup (d :: l) -> filter (fun a => a <> d) (d :: l) = l.
Proof. intros [Hd _]%NoDup_cons. rewrite filter_cons, decide_False by tauto. by apply filter_all. Qed.
Lemma resting_nodup s Q (p : nat) l : resting s Q -> Q !! p = Some l -> NoDup (l ++ [ksCurThread (gl (k_sst s))]).
Proof.
  intros Hr Hl. pose proof (re_queues _ _ Hr) as Hok. destruct (rq_list _ _ Hok _ _ Hl) as (_ & Hnd & _).
  destruct (re_current _ _ Hr) as (t & Ht & _ & Hq). apply NoDup_app. split_and!; [done| |apply NoDup_singleton].
  intros a Ha Hc%list_elem_of_singleton. subst a. apply (rq_mem _ _ Hok _ _ _ _ Ht Hl) in Ha as [? _]. congruence.
Qed.
Lemma wp_turn (n : nat) (p : nat) s c l (P : exception_t -> kst -> Prop) :
  turn p s (c :: l) -> (forall s', turn p s' (l ++ [c]) -> P EXCEPTION_NONE s') -> wp (handleSyscall n SysYield) P s.
Proof.
  intros (c' & l' & Q & t & [= <- <-] & Hr & Ec & Ht & Ep & Hl & Hab) HP. rewrite <- Ec in Ht.
  eapply wp_yield; [exact Hr|exact Ht|]. rewrite Ec. intros s' (d & Hn & Hcd & Hre & Hk). apply HP.
  pose proof (resting_nodup _ _ _ _ Hr Hl) as Hnd. rewrite Ec in Hnd.
  assert (rotated c (tcbPriority t) Q !! p = Some (l ++ [c])) as Hp.
  { unfold rotated. rewrite Ep, (list_lookup_total_correct _ _ _ Hl). apply list_lookup_insert_eq. by eapply lookup_lt_Some. }
  assert (forall (q : nat) l', rotated c (tcbPriority t) Q !! q = Some l' -> (p < q)%nat -> l' = []) as Hab'.
  { intros q lq Hq Hlt. unfold rotated in Hq. rewrite list_lookup_insert_ne in Hq by lia. by eapply Hab. }
  destruct (l ++ [c]) as [|x o] eqn:Eo; [by destruct l|].
  rewrite (next_thread_spec _ _ _ _ Hp Hab') in Hn. injection Hn as <-.
  destruct (re_current _ _ Hre) as (t' & Ht' & _). rewrite Hcd in Ht'.
  assert (Z.to_nat (tcbPriority t') = p) as Ep'.
  { assert (x ∈ l ++ [c]) as [Hx| ->%list_elem_of_singleton]%elem_of_app by (rewrite Eo; by left).
    - destruct (rq_elem _ _ _ _ x (re_queues _ _ Hr) Hl Hx) as (tx & Htx & _).
      destruct (proj1 (rq_mem _ _ (re_queues _ _ Hr) _ _ _ _ Htx Hl) Hx) as [_ Epx].
      destruct (Hk _ _ Htx) as (t2 & Ht2 & E2 & _). congruence.
    - rewrite Ec in Ht. destruct (Hk _ _ Ht) as (t2 & Ht2 & E2 & _). congruence. }
  exists x, o, (without x (rotated c (tcbPriority t) Q)), t'. split_and!; try done.
  - unfold without. rewrite list_lookup_fmap, Hp. cbn [fmap option_fmap option_map]. by rewrite filter_head.
  - intros q lq Hq Hlt. unfold without in Hq. rewrite list_lookup_fmap in Hq.
    apply fmap_Some in Hq as (l2 & Hl2 & ->). by rewrite (Hab' _ _ Hl2 Hlt).
Qed.
(** [k] yields of whoever is current. *)
Fixpoint yields (n k : nat) : ST kst unit :=
  match k with O => skip | S k => yields n k ;; handleSyscall n SysYield ;; skip end.
Lemma turn_yields (n k p : nat) s o :
  turn p s o -> (k <= length o)%nat -> wp (yields n k) (fun _ s' => turn p s' (drop k o ++ take k o)) s.
Proof.
  intros Ht. induction k as [|k IH]; intros Hk; cbn [yields].
  - apply wp_ret. rewrite drop_0, take_0. by rewrite app_nil_r.
  - apply wp_bind. eapply wp_mono; [apply IH; lia|]. intros u s1 H1.
    destruct (lookup_lt_is_Some_2 o k Hk) as [x Hx]. rewrite (drop_S _ _ _ Hx) in H1. cbn [app] in H1.
    apply wp_bind. eapply wp_turn; [exact H1|]. intros s2 H2. apply wp_ret.
    by rewrite (take_S_r _ _ _ Hx), app_assoc.
Qed.

(** *** The timer *)
(** The timer interrupt is pending: it has been read from the controller
    already, or is what the controller reports. *)
Definition timer_pending s : Prop :=
  intStateIRQTable (k_irq s) !! Z.to_nat KERNEL_TIMER_IRQ = Some 2 /\
  (active_irq (k_irq s) = KERNEL_TIMER_IRQ \/
   IS_IRQ_VALID (active_irq (k_irq s)) = false /\ gic_int_ack s = Ok (KERNEL_TIMER_IRQ, s)).
Lemma wp_timer_pending s (P : Z -> kst -> Prop) :
  timer_pending s ->
  (forall i, intStateIRQTable i = intStateIRQTable (k_irq s) -> P KERNEL_TIMER_IRQ (set_k_irq i s)) ->
  wp getActiveIRQ P s.
Proof.
  intros [_ Ha] HP. assert (set_k_irq (k_irq s) s = s) as Es by by destruct s.
  unfold getActiveIRQ, irq_get, irq_mod. wp_steps. destruct Ha as [Ha|[Ha Hg]].
  - rewrite Ha. apply wp_ret. wp_steps. rewrite Ha. rewrite <- Es. by apply HP.
  - rewrite Ha. apply wp_bind. eapply wp_intro; [exact Hg|]. wp_steps. by apply HP.
Qed.
(** The time slice is no matter of the queues. *)
Definition with_slice (g : tcb_t -> Z) c (x : sst) : sst := Sst (alter (fun t => set_tcbTimeSlice (g t) t) c (tcbs x)) (gl x).
Lemma rq_ok_slice g c x Q : rq_ok x Q -> rq_ok (with_slice g c x) Q.
Proof.
  intros Hok. apply rq_ok_tcb_mod; [|done]. intros t Ht. split_and!; [done..|]. exact (rq_tcb _ _ Hok _ _ Ht).
Qed.
Lemma keeps_prio_slice g c x : keeps_prio x (with_slice g c x).
Proof.
  intros a t Ht. cbn. destruct (decide (a = c)) as [->|Hne]; [|rewrite lookup_alter_ne by done; eauto].
  rewrite lookup_alter_eq, Ht. eexists. split; [done|]. by split_and!.
Qed.
Lemma wp_tick x Q t (P : unit -> sst -> Prop) :
  sched_inv x -> rq_ok x Q -> tcbs x !! ksCurThread (gl x) = Some t -> get_state t = Ok ThreadStateRunning ->
  queued t = false -> ksSchedulerAction (gl x) = SchedulerAction_ResumeCurrentThread ->
  (tcbTimeSlice t > 1 ->
    P tt (with_slice (fun t => wsub (tcbTimeSlice t) 1) (ksCurThread (gl x)) x)) ->
  (forall x', tcbTimeSlice t <= 1 -> rq_ok x' (rotated (ksCurThread (gl x)) (tcbPriority t) Q) -> keeps_prio x x' ->
    ksCurThread (gl x') = ksCurThread (gl x) -> ksSchedulerAction (gl x') = SchedulerAction_ChooseNewThread -> P tt x') ->
  wp timerTick P x.
Proof.
  intros Hi Hok Ht Hs Hq Ha H1 H2. unfold timerTick. apply wp_bind, wp_cur; [exact Hi|].
  set (c := ksCurThread (gl x)) in *. apply wp_bind. eapply wp_tcb_get; [exact Ht|].
  apply wp_bind. eapply wp_lift; [exact Hs|]. apply wp_when; [intros _|by rewrite bool_decide_true].
  destruct (decide _) as [Hgt|Hle].
  - apply wp_tcb_mod; [by eauto|]. by apply H1.
  - apply wp_bind, wp_tcb_mod; [by eauto|]. set (x1 := with_slice (fun _ => CONFIG_TIME_SLICE) c x).
    assert (tcbs x1 !! c = Some (set_tcbTimeSlice CONFIG_TIME_SLICE t)) as Ht1 by (cbn; by rewrite lookup_alter_eq, Ht).
    eapply (wp_to_the_end x1 Q c); [by apply rq_ok_slice|exact Ht1|done|done|].
    intros x' Hx' Hst Ec Ea. apply H2; [lia|exact Hx'| |exact Ec|exact Ea].
    eapply keeps_prio_trans; [apply keeps_prio_slice|by apply same_keeps_prio].
Qed.
(** What is left of the turn, and what a tick of the timer does. *)
Definition slice s : Z := match tcbs (k_sst s) !! ksCurThread (gl (k_sst s)) with Some t => tcbTimeSlice t | None => 0 end.
Definition ticked Q s s' : Prop := exists t, tcbs (k_sst s) !! ksCurThread (gl (k_sst s)) = Some t /\
  if decide (tcbTimeSlice t > 1)
  then ksCurThread (gl (k_sst s')) = ksCurThread (gl (k_sst s)) /\ resting s' Q /\
    slice s' = wsub (tcbTimeSlice t) 1
  else chosen_next (rotated (ksCurThread (gl (k_sst s))) (tcbPriority t) Q) s s'.
Lemma wp_stay s Q (P : exception_t -> kst -> Prop) :
  resting s Q -> (forall s', resting s' Q -> k_sst s' = Sst (tcbs (k_sst s))
    (set_ksSchedulerAction SchedulerAction_ResumeCurrentThread (gl (k_sst s))) -> P EXCEPTION_NONE s') -> wp back_to_user P s.
Proof.
  intros Hr HP. destruct (re_current _ _ Hr) as (t & Ht & Hs & Hq). unfold back_to_user.
  assert (set_k_sst (k_sst s) s = s) as Es by by destruct s.
  apply (wp_kp kernel_ok); [ko|apply Hr|]. apply wp_bind. unfold schedule, get_ks_scheduler_action, gl_get.
  apply wp_bind, wp_zoom, wp_gets. rewrite Es, (re_action _ _ Hr), (bool_decide_true (_ = SchedulerAction_ResumeCurrentThread)) by done.
  apply wp_bind, wp_ret, wp_zoom. unfold set_ks_scheduler_action, gl_mod. wp_steps.
  apply wp_zoom. unfold activateThread. apply wp_bind. unfold get_currenct_thread, gl_get. wp_steps.
  apply wp_assert.
  { rewrite bool_decide_false; [done|]. cbn. intros E. by rewrite E, (rq_null _ _ (re_queues _ _ Hr)) in Ht. }
  apply wp_ret. cbn [k_sst set_k_sst gl]. apply wp_bind. eapply wp_tcb_get; [exact Ht|]. apply wp_bind. eapply wp_lift; [exact Hs|].
  apply wp_ret; apply wp_ret. intros Hk. apply HP; [|done]. by destruct Hr as [_ [] ? ? ? ? ?]; split.
Qed.
Lemma vm_ok_same v v' : armKSASIDTable v' = armKSASIDTable v -> asid_pools v' = asid_pools v -> vm_ok v -> vm_ok v'.
Proof. intros Et Ep [H1 H2 H3]. by split; rewrite ?Et, ?Ep. Qed.
Lemma wp_timer_ack s (P : unit -> kst -> Prop) :
  (forall s', k_sst s' = k_sst s -> k_slots s' = k_slots s -> (vm_ok (k_vm s) -> vm_ok (k_vm s')) -> P tt s') ->
  wp (hw ResetTimer) (fun _ => wp (ackInterrupt KERNEL_TIMER_IRQ) P) s.
Proof.
  intros HP. apply wp_hw. intros v Et Ep _. unfold ackInterrupt, irq_mod. wp_steps. rewrite bool_decide_true by done.
  apply wp_bind, wp_hw. cbn. intros v' Et' Ep' _. wp_steps. apply HP; [done|done|]. cbn.
  apply vm_ok_same; congruence.
Qed.
Lemma resting_slice g s s' Q : resting s Q -> kernel_ok s' -> k_sst s' = with_slice g (ksCurThread (gl (k_sst s))) (k_sst s) ->
  k_slots s' = k_slots s -> vm_ok (k_vm s') -> resting s' Q.
Proof.
  intros Hr Hk Es Esl Hv. pose proof (keeps_prio_slice g (ksCurThread (gl (k_sst s))) (k_sst s)) as Hkp. rewrite <- Es in Hkp.
  split; [done|rewrite Es; by apply rq_ok_slice, Hr|done|rewrite Es; apply Hr| | |].
  - rewrite Es. destruct (re_current _ _ Hr) as (t & Ht & Hs & Hq). cbn. rewrite lookup_alter_eq, Ht. by eexists.
  - unfold vroot_ok. rewrite Es, Esl. apply (re_loads _ _ Hr).
  - intros i l d Hl Hd. eapply ready_kept; [exact Esl|exact Hkp|]. by eapply (re_ready _ _ Hr).
Qed.
Lemma wp_timer_interrupt s Q (P : exception_t -> kst -> Prop) :
  resting s Q -> timer_pending s -> (forall s', ticked Q s s' -> P EXCEPTION_NONE s') -> wp handleInterruptEntry P s.
Proof.
  intros Hr Hp HP. pose proof (ko_sched _ (re_ok _ _ Hr)) as Hi. destruct (re_current _ _ Hr) as (t & Ht & Hs & Hq).
  change (wp (irq ← getActiveIRQ; when (irq <>w irqInvalid) (handleInterrupt irq) ;; back_to_user) P s).
  apply wp_bind. eapply wp_timer_pending; [exact Hp|]. intros i Ei. apply wp_bind.
  apply (wp_kp kernel_ok); [ko|by destruct Hr as [[]]|].
  apply wp_when; intros Hne; [|discriminate Hne]. unfold handleInterrupt, get_irq_state, irq_get.
  rewrite bool_decide_false by done. wp_steps. cbn. rewrite Ei.
  eapply wp_lift; [by apply (idx_Ok _ _ 2), Hp|]. eapply wp_lift; [reflexivity|]. apply wp_bind, wp_bind, wp_zoom.
  eapply wp_tick; [exact Hi|apply Hr|exact Ht|exact Hs|exact Hq|apply Hr| |].
  - intros Hgt. apply wp_timer_ack. intros s2 E2 Esl Hv Hk.
    eapply (wp_stay s2 Q).
    + eapply resting_slice; [exact Hr|exact Hk|exact E2|exact Esl|apply Hv, Hr].
    + intros s' Hr' Es'. apply HP. exists t. split; [done|]. rewrite decide_True by done. unfold slice. rewrite Es', E2. cbn.
      split_and!; [done|done|]. by rewrite lookup_alter_eq, Ht.
  - intros x Hle Hx Hkp Ec Ea. apply wp_timer_ack. cbn. intros s2 E2 Esl Hv Hk.
    subst x. eapply wp_leave; [exact Hr|exact Ht|exact Hk|exact Hx|exact Hkp|exact Ec|exact Ea|exact Esl|apply Hv, Hr|].
    intros s' Hc. apply HP. exists t. split; [done|]. by rewrite decide_False by lia.
Qed.
End turns.

(** C7: Threads of one priority take turns: if the current thread and the
    threads waiting in its queue are [o], in this order, and no thread of a
    higher priority is ready, then [k] yields of whoever is current return, the
    thread at position [k] is current and the threads before it wait behind the
    others.  So every one of them runs within as many yields as there are
    threads before it, and after a whole round the order is the first one
    again. *)
Theorem yields_take_turns (D : CSpaceDeps) (L : CSpaceKeeps D) (H : Hardware) (n k p : nat) (s : kst) (o : list Z) :
  turn p s o -> (k <= length o)%nat ->
  wp (yields n k) (fun _ s' => turn p s' (drop k o ++ take k o)) s.
Proof. apply turn_yields. Qed.

(** C20: The end of a time slice preempts: when the timer interrupts a running
    thread whose slice has more than one tick left, the thread stays current
    with one tick less and nothing else changes in the queues; at the last tick
    the thread goes to the end of its queue and the first thread of the highest
    non-empty queue (which may be the same) becomes current.  The kernel always returns
    to a running thread. *)
Theorem timer_ends_slice (D : CSpaceDeps) (L : CSpaceKeeps D) (H : Hardware) (s : kst) (Q : list (list Z)) :
  resting s Q -> timer_pending s ->
  wp handleInterruptEntry (fun r s' => r = EXCEPTION_NONE /\ ticked Q s s') s.
Proof. intros Hr Hp. by eapply wp_timer_interrupt. Qed.

(** ** An instance *)
(** Two threads of one priority, the second one waiting, and the idle
    thread. *)
Definition w_pair : sst := Sst (<[tA := w_tcb 200]> (<[tB := w_tcb 200]> (<[tC := w_idle]> ∅)))
  (set_ksSchedulerAction SchedulerAction_ResumeCurrentThread (set_ksIdleThread tC (set_ksCurThread tA sched_init))).
Definition w_pair_slots : slots :=
  <[get_cspace tA tcbVTable := cte_default]> (<[get_cspace tB tcbVTable := cte_default]> ∅).
#[local] Instance w_timer_machine : Hardware :=
  {| gic_int_ack := mret KERNEL_TIMER_IRQ; get_far := mret 0; get_esr := mret 0 |}.
Definition w_before : kst := set_k_slots w_pair_slots (set_k_sst w_pair kst_empty).
Definition w_rest : kst := after (on_sst (sched_enqueue tB)) w_before.
Definition w_restQ : list (list Z) := enqueued tB (w_tcb 200) w_Q.
Lemma w_before_ok : kernel_ok w_before.
Proof.
  assert (forall a t, tcbs w_pair !! a = Some t -> t = w_tcb 200 \/ t = w_idle) as Ht.
  { unfold w_pair. cbn [tcbs]. intros a t Hx. do 2 (apply lookup_insert_Some in Hx as [[_ <-]|[_ Hx]]; [by left|]).
    apply lookup_insert_Some in Hx as [[_ <-]|[_ Hx]]; [by right|]. by rewrite lookup_empty in Hx. }
  split.
  - split; [exists w_Q; apply idle_okb_ok; vm_compute; reflexivity| |by eexists|by left|reflexivity].
    intros a t [-> | ->]%Ht; split; try reflexivity; by eexists.
  - by exists w_idle.
  - by intros a t [-> | ->]%Ht.
  - done.
  - intros a [v Hv]. discriminate Hv.
  - intros a [v Hv]. discriminate Hv.
Qed.
Definition w_current_t : tcb_t := default tcb_zero (tcbs (k_sst w_rest) !! tA).
Lemma w_rest_ready d : d = tA \/ d = tB -> ready w_rest d.
Proof.
  intros [-> | ->]; (split; [exists cte_default, CapNullCap; split; vm_compute; reflexivity|]).
  - eexists. split; [vm_compute; reflexivity|by left].
  - eexists. split; [vm_compute; reflexivity|by left].
Qed.
Lemma w_rest_queued (i : nat) l d : w_restQ !! i = Some l -> d ∈ l -> d = tB.
Proof.
  change w_restQ with (<[200%nat := [tB]]> w_Q). intros Hl Hd. apply list_lookup_insert_Some in Hl as [(_ & <- & _)|[_ Hl]].
  - by apply list_elem_of_singleton.
  - apply lookup_replicate in Hl as [-> _]. by apply elem_of_nil in Hd.
Qed.
Lemma w_resting : resting w_rest w_restQ.
Proof.
  assert (on_sst (sched_enqueue tB) w_before = Ok (tt, w_rest)) as E by (vm_compute; reflexivity).
  split.
  - eapply (ltac:(ko) : kp kernel_ok (on_sst (sched_enqueue tB))); [exact w_before_ok|exact E].
  - assert (wp (on_sst (sched_enqueue tB)) (fun _ s => rq_ok (k_sst s) w_restQ) w_before) as Hw.
    { apply wp_zoom. eapply wp_sched_enqueue; [apply idle_okb_ok; vm_compute; reflexivity|reflexivity|]. done. }
    unfold wp in Hw. by rewrite E in Hw.
  - apply w_sw_vm_ok.
  - reflexivity.
  - exists w_current_t. split_and!; vm_compute; reflexivity.
  - change (ksCurThread (gl (k_sst w_rest))) with tA. apply w_rest_ready. by left.
  - intros i l d Hl Hd. apply w_rest_ready. right. by eapply w_rest_queued.
Qed.
Lemma w_turn : turn 200 w_rest [tA; tB].
Proof.
  exists tA, [tB], w_restQ, w_current_t. split_and!; [done|exact w_resting|by vm_compute..|].
  intros q l'. change w_restQ with (<[200%nat := [tB]]> w_Q). intros Hl Hlt. rewrite list_lookup_insert_ne in Hl by lia.
  by apply lookup_replicate in Hl as [-> _].
Qed.
Lemma yields_take_turns_witness :
  wp (yields 10 1) (fun _ s' => turn 200 s' [tB; tA]) w_rest /\ wp (yields 10 2) (fun _ s' => turn 200 s' [tA; tB]) w_rest.
Proof.
  split; [apply (yields_take_turns _ _ _ 10 1 200 w_rest [tA; tB] w_turn)|apply (yields_take_turns _ _ _ 10 2 200 w_rest [tA; tB] w_turn)];
    cbn; lia.
Defined.

(** The timer is pending; its interrupts are known to the kernel. *)
Definition at_tick (n : Z) (s : kst) : kst :=
  set_k_irq (Irq (<[27%nat := 2]> (replicate 160 0)) 0 irqInvalid)
    (set_k_sst (with_slice (fun _ => n) (ksCurThread (gl (k_sst s))) (k_sst s)) s).
Definition w_timer (n : Z) : kst := at_tick n w_rest.
Lemma kernel_ok_slice g c s s' : k_sst s' = with_slice g c (k_sst s) -> k_mem s' = k_mem s -> kernel_ok s -> kernel_ok s'.
Proof.
  intros Es Em [[[Q Hq] Hthr Hcur Hact Hidx] Hidle Hmcp Hdom Hap Hw].
  assert (forall a, tcbs (k_sst s') !! a = (if decide (a = c) then fun t => set_tcbTimeSlice (g t) t else id) <$> tcbs (k_sst s) !! a) as Hl.
  { intros a. rewrite Es. cbn. destruct (decide (a = c)) as [->|Hne]; [apply lookup_alter_eq|].
    rewrite lookup_alter_ne by done. by destruct (_ !! a). }
  assert (gl (k_sst s') = gl (k_sst s)) as Eg by by rewrite Es.
  split; [split|..]; rewrite ?Eg, ?Em; try done; try rewrite Hl, fmap_is_Some; try done.
  - exists Q. rewrite Es. by apply rq_ok_slice.
  - intros a t. rewrite Hl. intros (t0 & Ht0 & ->)%fmap_Some. specialize (Hthr _ _ Ht0). by case_decide.
  - intros a t. rewrite Hl. intros (t0 & Ht0 & ->)%fmap_Some. specialize (Hmcp _ _ Ht0). by case_decide.
  - intros a Ha. by rewrite Hl, (Hap _ Ha).
Qed.
Lemma at_tick_resting n s Q : resting s Q -> resting (at_tick n s) Q.
Proof.
  intros Hr. eapply (resting_slice (fun _ => n) s); [exact Hr| |done|done|apply Hr].
  eapply (kernel_ok_slice (fun _ => n)); [done|done|apply Hr].
Qed.
Lemma at_tick_pending n s : timer_pending (at_tick n s).
Proof. split; [reflexivity|]. right. done. Qed.
Lemma timer_ends_slice_witness :
  wp handleInterruptEntry (fun r s' => r = EXCEPTION_NONE /\ ticked w_restQ (w_timer 5) s') (w_timer 5) /\
  wp handleInterruptEntry (fun r s' => r = EXCEPTION_NONE /\ ticked w_restQ (w_timer 1) s') (w_timer 1) /\
  ksCurThread (gl (k_sst (after handleInterruptEntry (w_timer 1)))) = tB.
Proof.
  split; [|split; [|vm_compute; reflexivity]].
  - exact (timer_ends_slice _ _ _ (w_timer 5) w_restQ (at_tick_resting 5 _ _ w_resting) (at_tick_pending 5 w_rest)).
  - exact (timer_ends_slice _ _ _ (w_timer 1) w_restQ (at_tick_resting 1 _ _ w_resting) (at_tick_pending 1 w_rest)).
Defined.
