(* ===== verification/InvProps.v ===== *)
(** * Invocations: theorems

    Priorities are bounded by the authority that sets them; the request that
    sets both never succeeds; interrupt lines are handed out exactly when they
    are in use; the address space that is finalised is looked up under a fixed
    identifier. *)

From stdpp Require Import base numbers gmap list.
From S2P Require Import Prelude Bitfield Common Cap DList CSpace CSpaceProps Sched SchedProps SchedInv State Vspace Threads Delete Ipc Finalise Syscall CNodeInv UntypedInv TcbInv IrqInv NtfnProps CapProps VspaceProps UntypedProps SchedWit CSpaceWit.
Local Open Scope Z_scope.
Local Open Scope krn_scope.

(** ** Priorities *)
Section prios.
Implicit Types (s : sst) (a b p m : Z) (t : tcb_t) (f : tcb_t -> tcb_t).

(** A change of a thread that the scheduler's links and flag do not see. *)
Definition strips f : Prop := forall t, tcb_strip (f t) = f (tcb_strip t).
Lemma switches_alter s s1 s' a f : strips f -> switch_frame s s1 ->
  switches (Sst (alter f a (tcbs s1)) (gl s1)) s' -> switches (Sst (alter f a (tcbs s)) (gl s)) s'.
Proof.
  intros Hf [Ec Es] (Hi & Ec' & Es'). split; [done|]. split; [by rewrite Ec'|]. intros b. rewrite Es'. cbn.
  destruct (decide (b = a)) as [->|Hne]; [|by rewrite !lookup_alter_ne by done].
  rewrite !lookup_alter_eq. specialize (Es a). destruct (tcbs s1 !! a) as [t1|], (tcbs s !! a) as [t|]; try done.
  cbn in *. apply (inj Some) in Es. by rewrite !Hf, Es.
Qed.

Lemma wp_set_priority s a p (Q : unit -> sst -> Prop) :
  sched_inv s -> is_Some (tcbs s !! a) -> 0 <= p < 256 ->
  (forall s', switches (Sst (alter (set_tcbPriority p) a (tcbs s)) (gl s)) s' -> Q tt s') ->
  wp (set_priority a p) Q s.
Proof.
  intros Hi Hsome Hp HQ. unfold set_priority. apply wp_bind. eapply inv_dequeue; [done|done|]. intros s1 Hi1 Hf1 Hq1.
  assert (is_Some (tcbs s1 !! a)) as Hsome1 by by apply (frame_lookup _ _ a Hf1).
  pose proof (frame_switches _ _ Hi1 Hf1) as [_ Hs1].
  apply wp_bind. eapply wp_mono; [apply wp_and; [apply (keeps_unqueued_mod s1 a (set_tcbPriority p)); [done|done|done|]|
    apply (wp_tcb_mod _ _ _ (fun _ s2 => s2 = Sst (alter (set_tcbPriority p) a (tcbs s1)) (gl s1))); done]|].
  { intros t (? & ? & ?) ?. done. }
  intros [] s2 [[Hi2 _] E2].
  assert (is_Some (tcbs s2 !! a)) as [t Ht] by (rewrite E2; cbn; by rewrite is_Some_alter).
  apply wp_bind. eapply wp_tcb_get; [done|]. destruct (si_thr _ Hi2 _ _ Ht) as (_ & st & Est).
  apply wp_bind. eapply wp_lift; [unfold is_runnable; by rewrite Est|].
  assert (forall s3, switches s2 s3 -> Q tt s3) as Hend.
  { intros s3 Hs. apply HQ. eapply switches_alter; [done|exact Hs1|]. by rewrite <- E2. }
  destruct (match st with ThreadStateRunning => _ | _ => _ end); [|by apply wp_ret, Hend, switches_refl].
  apply wp_bind. unfold is_current. apply wp_bind, wp_cur; [done|]. apply wp_ret.
  case_bool_decide; (apply (wp_mono _ (fun _ => switches s2)); [|intros [] s3 Hs3; by apply Hend]).
  - by apply switches_reschedule.
  - apply switches_possible_switch_to; [done|by eexists].
Qed.

Lemma wp_set_mcp s a m (Q : unit -> sst -> Prop) :
  sched_inv s -> is_Some (tcbs s !! a) ->
  (forall s', switches (Sst (alter (set_tcbMCP m) a (tcbs s)) (gl s)) s' -> Q tt s') ->
  wp (set_mcp_priority a m) Q s.
Proof.
  intros Hi Hsome HQ. unfold set_mcp_priority.
  eapply wp_mono; [apply wp_and; [by apply (keeps_field s a (set_tcbMCP m))|
    apply (wp_tcb_mod _ _ _ (fun _ s2 => s2 = Sst (alter (set_tcbMCP m) a (tcbs s)) (gl s))); done]|].
  intros [] s2 [[Hi2 _] E2]. apply HQ. rewrite <- E2. by apply switches_refl.
Qed.

(** The checks both requests share, and what they do next. *)
Definition prio_request (prio auth : Z) (c : list Z) (k : Z -> ST kst exception_t) : ST kst exception_t :=
  try (check_prio prio auth) ;;; current_restart ;; target ← tcb_of c; k target.
(** Refused: the error is reported and nothing else changes. *)
Definition refused (s : kst) m (e : exception_t) (s' : kst) : Prop :=
  e = EXCEPTION_SYSCALL_ERROR /\ s' = set_k_sys (k_sys s') s /\
  se_type (current_syscall_error (k_sys s')) = seL4_RangeError /\
  rangeErrorMax (current_syscall_error (k_sys s')) = m.
(** Granted: the caller is to restart and [target] is changed by [f]; no other
    thread changes, but for the places in the ready queues, and nothing but the
    scheduler's state does. *)
Definition granted (s : kst) target f (e : exception_t) (s' : kst) : Prop :=
  let x := k_sst s in
  e = EXCEPTION_NONE /\ s' = set_k_sst (k_sst s') s /\ sched_inv (k_sst s') /\
  ksCurThread (gl (k_sst s')) = ksCurThread (gl x) /\
  forall b, tcb_strip <$> tcbs (k_sst s') !! b = tcb_strip <$>
    alter f target (alter (ts_set ts_type (ThreadState_to_usize ThreadStateRestart)) (ksCurThread (gl x)) (tcbs x)) !! b.

Lemma wp_prio_request prio auth c (k : Z -> ST kst exception_t) (s : kst) target ta f :
  sched_inv (k_sst s) -> tcbs (k_sst s) !! auth = Some ta -> bf_get tcb_ptr c = target ->
  is_Some (tcbs (k_sst s) !! target) -> strips f ->
  (forall (s1 : kst), prio <= tcbMCP ta -> sched_inv (k_sst s1) -> is_Some (tcbs (k_sst s1) !! target) ->
    wp (k target) (fun e (s' : kst) => e = EXCEPTION_NONE /\ s' = set_k_sst (k_sst s') s1 /\
      switches (Sst (alter f target (tcbs (k_sst s1))) (gl (k_sst s1))) (k_sst s')) s1) ->
  wp (prio_request prio auth c k) (fun e (s' : kst) =>
    if decide (prio <= tcbMCP ta) then granted s target f e s' else refused s (tcbMCP ta) e s') s.
Proof.
  intros Hi Hta Hc Ht Hf Hk. unfold prio_request, check_prio.
  assert (target <> 0) as Ht0 by (intros ->; rewrite (sched_inv_null _ Hi) in Ht; by destruct Ht).
  do 2 apply wp_bind. unfold thread. apply wp_zoom. eapply wp_tcb_get; [exact Hta|].
  replace (set_k_sst (k_sst s) s) with s by by destruct s. case_bool_decide as Hle.
  - do 2 apply wp_bind, wp_modify. apply wp_ret. cbn [ok_or]. unfold ok_or. rewrite bool_decide_true by done.
    apply wp_ret. rewrite decide_False by lia. split; [done|]. by destruct s.
  - apply wp_ret. unfold ok_or. rewrite bool_decide_false by (intros []; done).
    apply wp_bind. unfold current_restart. apply wp_bind, wp_zoom, wp_cur; [done|]. apply wp_zoom.
    replace (set_k_sst (k_sst s) s) with s by by destruct s.
    apply wp_set_thread_state; [done|apply (si_cur _ Hi)|]. intros s1 (Hi1 & Hs1).
    apply wp_bind. unfold tcb_of, ref. rewrite Hc. apply wp_bind, wp_assert; [by rewrite bool_decide_false|]. apply wp_ret.
    assert (is_Some (tcbs s1 !! target)) as Ht1.
    { rewrite <- (fmap_is_Some tcb_strip), (proj2 Hs1), fmap_is_Some. cbn. by apply is_Some_alter. }
    eapply wp_mono; [apply Hk; [lia|exact Hi1|exact Ht1]|]. cbn. intros e s' (He & Es' & Hsw).
    rewrite decide_True by lia. apply (switches_alter _ _ _ _ _ Hf Hs1) in Hsw as (Hi' & Ec & Hb).
    split; [done|]. split; [rewrite Es' at 1; by destruct s|]. by split_and!.
Qed.
End prios.

(** C10: with a thread capability as authority, a priority or a maximum
    controlled priority is set exactly when it is at most the maximum
    controlled priority of the authority; otherwise the request is refused
    with that bound and nothing but the reported error changes.  When it is
    granted, the caller is marked to restart, the target's field is set, and the
    scheduler's invariant is kept; of every other thread, and of these two
    otherwise, nothing but the place in the ready queues changes, and no other
    part of the kernel's state does. *)
Theorem decode_set_priority_bounded (c : list Z) (length buffer : Z) (s : kst) (prio auth target : Z) (ta : tcb_t) :
  sched_inv (k_sst s) -> 1 <= length -> extra_cap_is_none 0 s = Ok (false, s) ->
  get_syscall_arg 0 buffer s = Ok (prio, s) -> auth_thread s = Ok ((EXCEPTION_NONE, auth), s) ->
  tcbs (k_sst s) !! auth = Some ta -> 0 <= prio -> tcbMCP ta <= 255 ->
  bf_get tcb_ptr c = target -> is_Some (tcbs (k_sst s) !! target) ->
  wp (decode_set_priority c length buffer) (fun e s' =>
    if decide (prio <= tcbMCP ta) then granted s target (set_tcbPriority prio) e s' else refused s (tcbMCP ta) e s') s /\
  wp (decode_set_mc_priority c length buffer) (fun e s' =>
    if decide (prio <= tcbMCP ta) then granted s target (set_tcbMCP prio) e s' else refused s (tcbMCP ta) e s') s.
Proof.
  intros Hi Hl Hn Harg Hauth Hta Hp0 Hm Hc Ht.
  split; unfold decode_set_priority, decode_set_mc_priority;
    (apply wp_bind; eapply wp_intro; [exact Hn|]; rewrite bool_decide_false by lia; cbn [orb];
     apply wp_bind; eapply wp_intro; [exact Harg|]; apply wp_bind; eapply wp_intro; [exact Hauth|];
     unfold ok_or at 1; rewrite bool_decide_false by (intros []; done); cbn [fst snd];
     eapply (wp_prio_request prio auth c _ s target ta); [exact Hi|exact Hta|exact Hc|exact Ht|done|]; intros s1 Hle Hi1 Ht1).
  - unfold invoke_tcb_set_priority. apply wp_bind, wp_zoom. eapply wp_set_priority; [exact Hi1|exact Ht1|lia|].
    intros x Hx. by apply wp_ret.
  - unfold invoke_tcb_set_mcp. apply wp_bind, wp_zoom. eapply wp_set_mcp; [exact Hi1|exact Ht1|].
    intros x Hx. by apply wp_ret.
Qed.

(** ** Computations that only read *)
Lemma reads_get_syscall_arg i buffer : reads (get_syscall_arg i buffer).
Proof. unfold get_syscall_arg, get_currenct_thread, reg_get, thread, buf_msg, buf_field, word_get, tcb_get, gl_get. reads_k. Qed.
Lemma reads_extra_cap i : reads (extra_cap_is_none i) /\ reads (extra_cap_unwrap i).
Proof. unfold extra_cap_is_none, extra_cap_unwrap, get_extra_cap_by_index, sys_get. split; reads_k. Qed.

Lemma unwrap_none i s s1 r : extra_cap_is_none i s = Ok (true, s1) -> extra_cap_unwrap i s <> Ok r.
Proof.
  unfold extra_cap_is_none, extra_cap_unwrap, mbind, st_bind. destruct (get_extra_cap_by_index i s) as [[[p|] s2]| | |]; done.
Qed.

(** [decode_set_sched_params] never succeeds: with an extra capability it
    reports a truncated message, and without one it unwraps nothing and the
    kernel panics. *)
Theorem decode_set_sched_params_fails (c : list Z) (length buffer : Z) (s s' : kst) (e : exception_t) :
  decode_set_sched_params c length buffer s = Ok (e, s') -> e = EXCEPTION_SYSCALL_ERROR.
Proof.
  unfold decode_set_sched_params. intros H. apply st_bind_inv in H as (n0 & s1 & Hn & H).
  destruct (bool_decide (length < 2) || negb n0)%bool eqn:E.
  - unfold fail_with in H. by inv_ok.
  - apply orb_false_iff in E as [_ ->%negb_false_iff]. exfalso.
    pose proof (proj1 (reads_extra_cap 0) _ _ _ Hn) as ->. inv_ok.
    repeat match goal with H : get_syscall_arg _ _ _ = _ |- _ => apply reads_get_syscall_arg in H as -> end.
    match goal with H : auth_thread _ = _ |- _ => unfold auth_thread, extra_root in H end. inv_ok.
    by eapply unwrap_none.
Qed.

(** ** Interrupt lines *)
Section irq.
Context {D : CSpaceDeps}.
Implicit Types (s : kst) (irq p dest : Z).

Lemma wp_set_irq_state st irq s (Q : unit -> kst -> Prop) :
  0 <= irq < Z.of_nat (length (intStateIRQTable (k_irq s))) ->
  (forall v, Q tt (set_k_vm v (set_k_irq (Irq (<[Z.to_nat irq := IRQState_to_usize st]> (intStateIRQTable (k_irq s)))
    (intStateIRQNode (k_irq s)) (active_irq (k_irq s))) s))) ->
  wp (set_irq_state st irq) Q s.
Proof.
  intros Hi HQ. unfold set_irq_state, setIRQState. apply wp_bind, wp_gets, wp_bind.
  eapply wp_lift; [by apply upd_Ok|]. apply wp_bind, wp_modify. unfold mask_interrupt.
  assert (forall k : kst, k = set_k_vm (k_vm k) k) as Hvm by by intros [].
  case_match; [case_match|].
  - apply wp_ret. rewrite Hvm. apply HQ.
  - apply wp_modify. apply HQ.
  - apply wp_ret. rewrite Hvm. apply HQ.
Qed.

(** The request for a handler, with the arguments it reads. *)
Record irq_request (length_ irq index depth : Z) (root : list Z) s buffer : Prop := {
  ir_length : 3 <= length_;
  ir_some : extra_cap_is_none 0 s = Ok (false, s);
  ir_irq : get_syscall_arg 0 buffer s = Ok (irq, s);
  ir_index : get_syscall_arg 1 buffer s = Ok (index, s);
  ir_depth : get_syscall_arg 2 buffer s = Ok (depth, s);
  ir_root : extra_root 0 s = Ok (root, s);
  ir_range : irq <= maxIRQ }.

Lemma wp_issue n irq index depth root s buffer src (b : bool) (Q : exception_t -> kst -> Prop) :
  irq_request n irq index depth root s buffer -> is_irq_active irq s = Ok (b, s) ->
  wp (if b then fail_with seL4_RevokeFirst
      else lu_ret ← lookupSlotForCNodeOp false root index depth;
        ok_or lu_ret.1 (dest_slot ← ref lu_ret.2;
          t ← slot_tag dest_slot;
          if negb (t =t CapNullCap) then fail_with seL4_DeleteFirst
          else current_restart ;; invoke_irq_control irq dest_slot src)) Q s ->
  wp (decode_irq_control_invocation IRQIssueIRQHandler n src buffer) Q s.
Proof.
  intros [Hl Hn H0 H1 H2 Hr Hm] Ha HQ. unfold decode_irq_control_invocation. rewrite bool_decide_true by done.
  rewrite (bool_decide_false (n < 3)) by lia. apply wp_bind. eapply wp_intro; [exact Hn|].
  apply wp_bind. eapply wp_intro; [exact H0|]. apply wp_bind. eapply wp_intro; [exact H1|].
  apply wp_bind. eapply wp_intro; [exact H2|]. unfold issue_handler. apply wp_bind. eapply wp_intro; [exact Hr|].
  unfold check_irq. rewrite bool_decide_false by lia. apply wp_bind, wp_ret. unfold ok_or at 1.
  rewrite bool_decide_false by (intros []; done). apply wp_bind. eapply wp_intro; [exact Ha|]. exact HQ.
Qed.
End irq.

(** C38: the test for a free interrupt line is inverted.  A request for the
    handler of a line that is inactive is refused, so that no device interrupt
    is ever handed out; for a line that is in use, the timer's included, it is
    granted: the line becomes a signal, and the handler is in the slot. *)
Theorem irq_handlers_inverted (D : CSpaceDeps) (n irq index depth buffer src dest : Z) (root : list Z) (s : kst)
    (st : IRQState) (x d : cte_t) (l1 l2 : list Z) :
  irq_request n irq index depth root s buffer -> sched_inv (k_sst s) -> 0 <= irq ->
  intStateIRQTable (k_irq s) !! Z.to_nat irq = Some (IRQState_to_usize st) ->
  lookupSlotForCNodeOp false root index depth s = Ok ((EXCEPTION_NONE, dest), s) ->
  slots_ok (k_slots s) -> mdb (k_slots s) (l1 ++ src :: l2) -> k_slots s !! src = Some x ->
  k_slots s !! dest = Some d -> empty_slot d -> get_cap_type (cte_cap x) = Ok CapIrqControlCap ->
  wp (decode_irq_control_invocation IRQIssueIRQHandler n src buffer) (fun e s' =>
    if decide (st = IRQInactive) then
      e = EXCEPTION_SYSCALL_ERROR /\ s' = after (set_error seL4_RevokeFirst) s
    else
      e = EXCEPTION_NONE /\ intStateIRQTable (k_irq s') !! Z.to_nat irq = Some (IRQState_to_usize IRQSignal) /\
      cte_cap <$> k_slots s' !! dest = Some (new_irq_handler_cap irq) /\
      mdb (k_slots s') (l1 ++ src :: dest :: l2)) s.
Proof.
  intros Hr Hi Hirq Htab Hlu Hok Hm Hx Hd He Ht. eapply (wp_issue _ _ _ _ _ _ _ _ (bool_decide (st = IRQInactive))); [exact Hr| |].
  { unfold is_irq_active, get_irq_state, irq_get, mbind, st_bind, gets, idx, lift. rewrite decide_True by done.
    rewrite Htab. by destruct st. }
  assert (st = IRQInactive \/ st <> IRQInactive) as [->|Hst] by (destruct st; [left|right..]; done); [done|].
  rewrite bool_decide_false by done. apply wp_bind. eapply wp_intro; [exact Hlu|]. cbn [fst snd]. unfold ok_or.
  rewrite bool_decide_false by (intros []; done). assert (dest <> 0) as Hd0 by by eapply slots_not_null.
  apply wp_bind. unfold ref. apply wp_bind, wp_assert; [by rewrite bool_decide_false|]. apply wp_ret.
  apply wp_bind. unfold slot_tag. apply wp_bind, (wp_slot_cap _ _ d); [done|]. eapply wp_lift; [apply He|].
  rewrite (bool_decide_true (CapNullCap = CapNullCap)) by done. cbn [negb].
  apply wp_bind, wp_current_restart; [done|]. intros y _. unfold invoke_irq_control.
  apply wp_bind, wp_set_irq_state; [cbn; apply lookup_lt_Some in Htab; lia|]. intros v. apply wp_bind, wp_zoom.
  assert (src <> dest) as Hne.
  { intros ->. rewrite Hx in Hd. injection Hd as ->. destruct He as [He _]. by rewrite He in Ht. }
  assert (get_cap_type (new_irq_handler_cap irq) = Ok CapIrqHandlerCap) as Hnt.
  { apply (bf_new_tag [(irq_handler, irq)] CapIrqHandlerCap). reflexivity. }
  assert (dest ∉ l1 ++ src :: l2) as Hdn.
  { destruct He as (_ & Hn & Hp). eapply (mdb_free_notin _ _ dest src d); eauto. set_solver. }
  eapply (wp_cte_insert _ _ _ _ x d true); [exact Hok|exact Hm|exact Hx|exact Hd|exact He|exact Ht|exact Hnt| |].
  { unfold is_cap_revocable, isArchCap. rewrite Hnt. cbn. by rewrite Ht. }
  cbv beta. apply wp_ret. rewrite decide_False by done. split; [done|]. cbn. split.
  { rewrite list_lookup_insert_eq; [done|]. by apply lookup_lt_Some in Htab. }
  erewrite insert_heap_new; [|done..]. split; [done|]. by eapply insert_heap_mdb.
Qed.

(** ** Address spaces *)
(** The last capability of an address space is finalised under identifier
    1, whatever its own is: unless it happens to have that one, its entry stays
    in the table of address spaces and later lookups return the page table that
    is freed. *)
Theorem finalise_vspace_keeps_asid (D : CSpaceDeps) (c vc : list Z) (asid root : Z) (s : kst) :
  sched_inv (k_sst s) -> vm_ok (k_vm s) -> get_cap_type c = Ok CapVspaceCap -> bf_get vs_is_mapped c = 1 ->
  bf_get vs_base_ptr c = root -> bf_get vs_mapped_asid c = asid -> 0 <= asid < 2 ^ 16 ->
  asid_root (k_vm s) asid = Some root -> asid_root (k_vm s) 1 <> Some root ->
  cspace_cap (ksCurThread (gl (k_sst s))) tcbVTable s = Ok (vc, s) ->
  wp (Arch_finaliseCap c true) (fun r s' => s' = s /\
    find_vspace_for_asid asid s' = Ok (find_ret (Some root), s')) s.
Proof.
  intros Hi Hv Ht Hm Hroot Has Hr H1 H2 Hc. unfold Arch_finaliseCap. apply wp_bind. eapply wp_lift; [exact Ht|].
  rewrite Hm, Hroot. apply wp_bind. rewrite bool_decide_true by done. cbn [andb when]. unfold deleteASID.
  apply wp_bind, wp_zoom, wp_cur; [done|]. replace (set_k_sst (k_sst s) s) with s by by destruct s.
  apply wp_bind. eapply wp_intro; [exact Hc|]. apply wp_delete_asid_other; [done|lia|done|].
  apply wp_ret. split; [done|]. rewrite find_vspace_spec by done. by rewrite H1.
Qed.

Lemma decode_set_sched_params_fails_witness :
  let s := set_k_sst w_sst kst_empty in
  decode_set_sched_params new_null_cap 1 0 s = Ok (EXCEPTION_SYSCALL_ERROR, after (set_error seL4_TruncatedMessage) s) /\
  EXCEPTION_SYSCALL_ERROR = EXCEPTION_SYSCALL_ERROR.
Proof.
  intros s. assert (decode_set_sched_params new_null_cap 1 0 s =
    Ok (EXCEPTION_SYSCALL_ERROR, after (set_error seL4_TruncatedMessage) s)) as H by (vm_compute; reflexivity).
  split; [exact H|]. by apply (decode_set_sched_params_fails new_null_cap 1 0 s _ _ H).
Defined.

(** ** Instances *)
(** The current thread of [w_sst] with four message registers. *)
Definition w_msg (m0 m1 m2 : Z) : sst :=
  let t := w_tcb 200 in
  let regs := foldr (fun rv l => match set_register l rv.1 rv.2 with Ok l' => l' | _ => l end) (tcbArch t)
    [(RMsg 0, m0); (RMsg 1, m1); (RMsg 2, m2)] in
  Sst (<[tA := set_tcbArch regs t]> (<[tB := w_tcb 7]> ∅)) (set_ksCurThread tA sched_init).
Lemma w_msg_inv m0 m1 m2 : idle_okb (w_msg m0 m1 m2) = true -> sched_inv (w_msg m0 m1 m2).
Proof.
  intros Hb. split.
  - exists w_Q. by apply idle_okb_ok.
  - intros a t Ha. unfold w_msg in Ha. cbn in Ha.
    apply lookup_insert_Some in Ha as [[_ <-]|[_ Ha]]; [split; [reflexivity|by exists ThreadStateRunning]|].
    apply lookup_insert_Some in Ha as [[_ <-]|[_ Ha]]; [split; [reflexivity|by exists ThreadStateRunning]|].
    by rewrite lookup_empty in Ha.
  - eexists. reflexivity.
  - right. left. reflexivity.
  - reflexivity.
Qed.
(** A request with one extra capability, in the slot [sA]. *)
Definition w_request (c : list Z) (m0 m1 m2 : Z) : kst :=
  set_k_sys (set_excaprefs [sA; 0; 0] sys_init) (set_k_slots (w_uslots c) (set_k_sst (w_msg m0 m1 m2) kst_empty)).

Lemma decode_set_priority_bounded_witness :
  let s := w_request (new_thread_cap tA) 0 0 0 in
  let ta := default tcb_zero (tcbs (k_sst s) !! tA) in
  wp (decode_set_priority (new_thread_cap tB) 1 0) (fun e s' =>
    if decide (0 <= tcbMCP ta) then granted s tB (set_tcbPriority 0) e s' else refused s (tcbMCP ta) e s') s /\
  wp (decode_set_mc_priority (new_thread_cap tB) 1 0) (fun e s' =>
    if decide (0 <= tcbMCP ta) then granted s tB (set_tcbMCP 0) e s' else refused s (tcbMCP ta) e s') s.
Proof.
  intros s ta. apply (decode_set_priority_bounded (new_thread_cap tB) 1 0 s 0 tA tB ta);
    [apply w_msg_inv; by_compute|lia|by_compute..|done|by_decide|by_compute|by_decide].
Defined.

(** The timer's line is in use. *)
Definition w_irqs : irq_t := Irq (<[27%nat := IRQState_to_usize IRQTimer]> (replicate 160 0)) 0 0.
Definition w_root_cnode : list Z := new_cnode_cap 2 0 0 sA.
Definition w_irq_slots : slots :=
  <[sA := Cte new_irq_control_cap (mdb_node_new 0 1 1 0)]>
  (<[sB := Cte w_root_cnode mdb_node_default]> (<[sC := cte_default]> (<[sD := cte_default]> ∅))).
Definition w_irq_state : kst :=
  set_k_irq w_irqs (set_k_slots w_irq_slots
    (set_k_sys (set_excaprefs [sB; 0; 0] sys_init) (set_k_sst (w_msg 27 2 2) kst_empty))).

Lemma irq_handlers_inverted_witness :
  wp (decode_irq_control_invocation IRQIssueIRQHandler 3 sA 0) (fun e s' =>
    if decide (IRQTimer = IRQInactive) then
      e = EXCEPTION_SYSCALL_ERROR /\ s' = after (set_error seL4_RevokeFirst) w_irq_state
    else
      e = EXCEPTION_NONE /\ intStateIRQTable (k_irq s') !! 27%nat = Some (IRQState_to_usize IRQSignal) /\
      cte_cap <$> k_slots s' !! sC = Some (new_irq_handler_cap 27) /\
      mdb (k_slots s') ([] ++ sA :: sC :: [])) w_irq_state.
Proof.
  apply (irq_handlers_inverted kernel 3 27 2 2 0 sA sC w_root_cnode w_irq_state IRQTimer
    (Cte new_irq_control_cap (mdb_node_new 0 1 1 0)) cte_default [] []);
    [split; [lia|by_compute..|unfold maxIRQ; lia]|apply w_msg_inv; by_compute|lia|by_compute|by_compute|
     apply slots_okb_ok; by_compute|unfold mdb; by_decide|by_compute|by_compute|by_decide|by_compute].
Defined.

(** The address space [w_root] as ASID 3 of the pool, and its capability. *)
Definition w_asid3 : vm_t := one_pool (<[3%nat := asid_map_new_vspace w_root]> (replicate 512 0)).
Definition w_vspace : list Z := new_vspace_cap 3 w_root 1.
Definition w_finalise : kst :=
  set_k_vm w_asid3 (set_k_slots (<[get_cspace tA tcbVTable := cte_default]> ∅) (set_k_sst w_sst kst_empty)).
Lemma finalise_vspace_keeps_asid_witness :
  wp (Arch_finaliseCap w_vspace true) (fun r s' => s' = w_finalise /\
    find_vspace_for_asid 3 s' = Ok (find_ret (Some w_root), s')) w_finalise.
Proof.
  apply (finalise_vspace_keeps_asid kernel w_vspace new_null_cap 3 w_root w_finalise);
    [exact w_sched_inv|by apply one_pool_ok|by_compute..|lia|by_compute|by_decide|by_compute].
Defined.
