(* ===== verification/BootUntypedProps.v ===== *)
(** * Boot: theorems on untyped memory

    [create_untypeds_for_region] cuts a region into blocks that are aligned to
    their size and follow each other without a gap; every block of at least
    sixteen bytes becomes an untyped capability in the next slot of the root
    node, described in the boot information. *)

From stdpp Require Import base numbers gmap list.
From S2P Require Import Prelude Bitfield Common Cap DList CSpace Sched State Vspace Threads Delete Ipc Finalise Syscall CNodeInv UntypedInv MmuInv BootMem KWindow BootRoot Boot.
Local Open Scope Z_scope.
Local Open Scope krn_scope.

(** ** Alignment *)
Section align.
Implicit Types (a b k n x : Z).

Lemma tz_nonneg p : 0 <= pos_trailing_zeros p.
Proof. induction p; cbn; lia. Qed.
Lemma tz_odd p : exists q, Zpos p = 2 ^ pos_trailing_zeros p * (2 * q + 1) /\ 0 <= q.
Proof.
  induction p as [p IH|p IH|]; cbn [pos_trailing_zeros].
  - exists (Zpos p). lia.
  - destruct IH as (q & E & Hq). exists q. split; [|done]. pose proof (tz_nonneg p).
    rewrite Z.pow_add_r by lia. lia.
  - exists 0. lia.
Qed.

(** The alignment of an address, at most 38 bits. *)
Definition align a : Z := if bool_decide (a = 0) then 38 else Z.min 38 (trailing_zeros a).

Lemma align_bound a : is_word a -> 0 <= align a <= 38.
Proof.
  intros [Ha _]. unfold align. case_bool_decide; [lia|]. destruct a as [|p|p]; [done| |lia].
  cbn. pose proof (tz_nonneg p). lia.
Qed.
Lemma tz_spec a : 0 < a -> exists q, a = 2 ^ trailing_zeros a * (2 * q + 1) /\ 0 <= q /\ 0 <= trailing_zeros a.
Proof.
  intros Ha. destruct a as [|p|p]; try lia. cbn. destruct (tz_odd p) as (q & E & Hq).
  exists q. split; [exact E|]. split; [done|apply tz_nonneg].
Qed.
Lemma mod_mul_pow x k n : 0 <= k <= n -> (2 ^ n * x) `mod` 2 ^ k = 0.
Proof.
  intros Hk. replace (2 ^ n * x) with (2 ^ (n - k) * x * 2 ^ k); [apply Z.mod_mul; lia|].
  replace (2 ^ n) with (2 ^ (n - k) * 2 ^ k); [lia|]. rewrite <- Z.pow_add_r by lia. f_equal. lia.
Qed.
Lemma align_aligned a : is_word a -> a `mod` 2 ^ align a = 0.
Proof.
  intros Ha. unfold align. case_bool_decide as E; [by rewrite E|].
  destruct (tz_spec a) as (q & Eq & Hq & Ht); [destruct Ha; lia|]. rewrite Eq at 1. apply mod_mul_pow. lia.
Qed.
Lemma aligned_le a k : is_word a -> 0 <= k <= align a -> a `mod` 2 ^ k = 0.
Proof.
  intros Ha Hk. pose proof (align_aligned a Ha) as Hm. apply Z.mod_divide; [lia|].
  apply Z.mod_divide in Hm; [|lia]. etransitivity; [|exact Hm].
  exists (2 ^ (align a - k)). rewrite <- Z.pow_add_r by lia. f_equal. lia.
Qed.
Lemma aligned_align a k : is_word a -> 0 <= k <= 38 -> a `mod` 2 ^ k = 0 -> k <= align a.
Proof.
  intros Ha Hk Hm. unfold align. case_bool_decide as E; [lia|].
  destruct (tz_spec a) as (q & Eq & Hq & Ht); [destruct Ha; lia|].
  destruct (decide (k <= trailing_zeros a)) as [|Hn]; [lia|]. exfalso.
  set (t := trailing_zeros a) in *. assert (a `mod` 2 ^ (t + 1) = 0) as Hm1.
  { apply Z.mod_divide in Hm; [|lia]. apply Z.mod_divide; [lia|]. etransitivity; [|exact Hm].
    exists (2 ^ (k - (t + 1))). rewrite <- Z.pow_add_r by lia. f_equal. lia. }
  rewrite Eq in Hm1. rewrite Z.pow_add_r in Hm1 by lia. rewrite Z.mul_mod_distr_l in Hm1 by lia.
  change (2 ^ 1) with 2 in Hm1. assert ((2 * q + 1) `mod` 2 = 1) as E1 by (Z.to_euclidean_division_equations; lia).
  rewrite E1 in Hm1. pose proof (Z.pow_pos_nonneg 2 t). lia.
Qed.
(** Alignment is not lost in the reduction to a word. *)
Lemma wadd_mod a b k : 0 <= k <= 64 -> (wadd a b) `mod` 2 ^ k = (a + b) `mod` 2 ^ k.
Proof.
  intros Hk. unfold wadd. rewrite wrap_mod.
  replace (2 ^ 64) with (2 ^ k * 2 ^ (64 - k)) by (rewrite <- Z.pow_add_r by lia; f_equal; lia).
  rewrite Z.rem_mul_r by lia. rewrite (Z.mul_comm (2 ^ k)), Z.mod_add by lia. apply Z.mod_mod. lia.
Qed.
End align.

(** ** The blocks of a region *)
Section blocks.
Implicit Types (a b k n x : Z).

(** The size of the block that starts a region of [n] bytes at [a]. *)
Definition block_bits a n : Z := Z.min (Z.log2 n) (align a).

Lemma untyped_size_spec reg :
  is_word (rg_start reg) -> rg_start reg <> rg_end reg -> is_word (rg_end reg) ->
  untyped_size reg = block_bits (rg_start reg) (wsub (rg_end reg) (rg_start reg)).
Proof.
  intros Ha Hne He. set (n := wsub (rg_end reg) (rg_start reg)).
  assert (0 < n < 2 ^ 64) as Hn.
  { pose proof (wsub_is_word (rg_end reg) (rg_start reg)) as Hw. fold n in Hw. unfold is_word in *.
    assert (n <> 0); [|lia]. intros E. apply Hne. unfold n, wsub in E. rewrite wrap_mod in E.
    apply Z.mod_divide in E as [z E]; [|lia]. assert (z = 0) as -> by nia. lia. }
  assert (0 <= Z.log2 n < 64) as Hl by (split; [apply Z.log2_nonneg|apply Z.log2_lt_pow2; lia]).
  unfold untyped_size, block_bits, align. fold n. unfold leading_zeros.
  rewrite (bool_decide_false (n = 0)) by lia. change (wsub seL4_WordBits 1) with 63.
  rewrite wsub_small by (unfold is_word; lia). replace (63 - (63 - Z.log2 n)) with (Z.log2 n) by lia.
  change seL4_MaxUntypedBits with 38.
  destruct (decide (rg_start reg = 0)) as [E|E].
  - rewrite !bool_decide_true by done. cbn [negb]. case_bool_decide; lia.
  - rewrite !(bool_decide_false (rg_start reg = 0)) by done. cbn [negb].
    repeat case_bool_decide; lia.
Qed.

Lemma block_bits_bound a n : is_word a -> 0 < n -> 0 <= block_bits a n <= 38 /\ 2 ^ block_bits a n <= n.
Proof.
  intros Ha Hn. pose proof (align_bound a Ha). pose proof (Z.log2_nonneg n). unfold block_bits. split; [lia|].
  transitivity (2 ^ Z.log2 n); [apply Z.pow_le_mono_r; lia|]. by apply Z.log2_spec.
Qed.

Lemma align_step a n :
  is_word a -> 0 < n -> block_bits a n <= align (wadd a (2 ^ block_bits a n)) /\
  (Z.log2 n > align a -> align a < 38 -> align a < align (wadd a (2 ^ block_bits a n))).
Proof.
  intros Ha Hn. destruct (block_bits_bound a n Ha Hn) as [Hb _]. pose proof (align_bound a Ha) as Hal.
  set (b := block_bits a n) in *. split.
  - apply aligned_align; [apply wadd_is_word|lia|]. rewrite wadd_mod by lia.
    rewrite <- Zplus_mod_idemp_l. rewrite (aligned_le a b); [|done|unfold b, block_bits in *; lia].
    by rewrite Z.add_0_l, Z_mod_same_full.
  - intros Hl Ha38. assert (b = align a) as Eb by (unfold b, block_bits; lia).
    enough (align a + 1 <= align (wadd a (2 ^ b))) by lia. apply aligned_align; [apply wadd_is_word|lia|].
    rewrite wadd_mod by lia. rewrite Eb. unfold align in Ha38, Eb, Hb, Hl |- *.
    case_bool_decide as E; [lia|]. destruct (tz_spec a) as (q & Eq & Hq & Ht); [destruct Ha; lia|].
    rewrite Z.min_r in * by lia. set (t := trailing_zeros a) in *.
    replace (a + 2 ^ t) with (2 ^ (t + 1) * (q + 1)); [rewrite Z.mul_comm; apply Z.mod_mul; lia|].
    rewrite Eq at 1. rewrite Z.pow_add_r by lia. lia.
Qed.

(** The rounds that are left. *)
Definition shrink n : Z := if bool_decide (n = 0) then 0 else Z.log2 n + 1.
Definition rounds a n : Z :=
  if bool_decide (n < 2 ^ 38 /\ shrink n <= align a + 1) then shrink n
  else (38 - align a) + n / 2 ^ 38 + 40.

Lemma shrink_bound n k : 0 <= n < 2 ^ k -> 0 <= k -> 0 <= shrink n <= k.
Proof.
  intros Hn Hk. unfold shrink. case_bool_decide; [lia|]. pose proof (Z.log2_nonneg n).
  pose proof (proj1 (Z.log2_lt_pow2 n k ltac:(lia)) ltac:(lia)). lia.
Qed.
Lemma rounds_nonneg a n : is_word a -> 0 <= n -> 0 <= rounds a n <= 78 + n / 2 ^ 38.
Proof.
  intros Ha Hn. pose proof (align_bound a Ha). pose proof (Z.div_pos n (2 ^ 38) ltac:(lia) ltac:(lia)).
  unfold rounds. case_bool_decide as E; [|lia]. pose proof (shrink_bound n 38 ltac:(lia) ltac:(lia)). lia.
Qed.

Lemma rounds_step a n :
  is_word a -> 0 < n < 2 ^ 64 ->
  let b := block_bits a n in rounds (wadd a (2 ^ b)) (n - 2 ^ b) < rounds a n.
Proof.
  intros Ha Hn b. destruct (block_bits_bound a n Ha ltac:(lia)) as [Hb Hle]. fold b in Hb, Hle.
  pose proof (align_bound a Ha) as Hal. destruct (align_step a n Ha ltac:(lia)) as [Hs1 Hs2]. fold b in Hs1, Hs2.
  pose proof (align_bound (wadd a (2 ^ b)) (wadd_is_word _ _)) as Hal'.
  assert (0 <= n - 2 ^ b) as Hn' by lia. assert (0 < 2 ^ b) by lia.
  assert (shrink n = Z.log2 n + 1) as Esh by (unfold shrink; rewrite bool_decide_false by lia; done).
  pose proof (Z.div_le_mono (n - 2 ^ b) n (2 ^ 38) ltac:(lia) ltac:(lia)) as Hd.
  pose proof (Z.div_pos (n - 2 ^ b) (2 ^ 38) ltac:(lia) ltac:(lia)) as Hd0.
  unfold rounds at 2. case_bool_decide as E.
  - (* descending: the block is the leading bit of the size *)
    rewrite Esh in *. assert (b = Z.log2 n) as Eb by (unfold b, block_bits; lia).
    destruct (Z.log2_spec n ltac:(lia)) as [_ Hlt]. rewrite <- Eb in Hlt.
    rewrite Z.pow_succ_r in Hlt by lia.
    pose proof (shrink_bound (n - 2 ^ b) b ltac:(lia) ltac:(lia)).
    unfold rounds. rewrite bool_decide_true by lia. lia.
  - unfold rounds. case_bool_decide as E'.
    + pose proof (shrink_bound (n - 2 ^ b) 38 ltac:(lia) ltac:(lia)). lia.
    + destruct (decide (align a < 38)) as [H38|H38].
      * assert (Z.log2 n > align a) as Hl.
        { rewrite Esh in E. destruct (decide (n < 2 ^ 38)); [lia|].
          pose proof (Z.log2_le_mono (2 ^ 38) n ltac:(lia)) as Hm. rewrite Z.log2_pow2 in Hm by lia. lia. }
        specialize (Hs2 Hl H38). lia.
      * assert (2 ^ 38 <= n) as Hbig.
        { destruct (decide (n < 2 ^ 38)) as [Hlt|]; [|lia]. exfalso. apply E. split; [done|].
          pose proof (shrink_bound n 38 ltac:(lia) ltac:(lia)). lia. }
        assert (b = 38) as Eb.
        { pose proof (Z.log2_le_mono (2 ^ 38) n Hbig) as Hm. rewrite Z.log2_pow2 in Hm by lia.
          unfold b, block_bits. lia. }
        rewrite Eb in *. replace (n - 2 ^ 38) with (n + -1 * 2 ^ 38) by lia. rewrite Z.div_add by lia. lia.
Qed.
End blocks.

(** ** The capabilities *)
(** What [write_slot] leaves next to the capability. *)
Definition root_mdb : list Z := bf_set mdbFirstBadged 1 (bf_set mdbRevocable 1 mdb_node_default).
Definition untyped_of (dev : bool) (u : Z * Z) : list Z :=
  new_untyped_cap (MAX_FREE_INDEX u.2) (b2w dev) u.2 u.1.
Definition desc_of (dev : bool) (u : Z * Z) : seL4_UntypedDesc :=
  UntypedDesc (pptr_to_paddr u.1) u.2 (b2w dev).
(** One untyped capability more: in the next slot of the node at [P], and in
    the boot information. *)
Definition put_untyped (P first : Z) (dev : bool) (s : boot_t) (u : Z * Z) : boot_t :=
  let pos := slot_pos_cur s in
  set_slot_pos_cur (pos + 1)
    (set_b_k (set_k_slots (<[P + 32 * pos := Cte (untyped_of dev u) root_mdb]> (k_slots (b_k s))) (b_k s))
    (set_b_bi (alter (fun bi =>
        set_bi_untypedList (<[Z.to_nat (pos - first) := desc_of dev u]> (bi_untypedList bi)) bi)
      (bi_frame s) (b_bi s)) s)).

(** The root node is at [P], the boot information in place. *)
Record boot_ready (c : list Z) (P : Z) (s : boot_t) : Prop := {
  br_ptr : get_cap_ptr c = Ok P;
  br_node : 0 <= P /\ P + 32 * 2 ^ 13 <= 2 ^ 64;
  br_slots k : 0 <= k < 2 ^ 13 -> is_Some (k_slots (b_k s) !! (P + 32 * k));
  br_bi : exists bi, b_bi s !! bi_frame s = Some bi /\ length (bi_untypedList bi) = 230%nat }.

Section caps.
Implicit Types (s : boot_t) (P p first pos b : Z) (u : Z * Z) (c : list Z).

Lemma wp_boot_slot_mod p f (x : cte_t) (k : kst) (Q : unit -> kst -> Prop) :
  k_slots k !! p = Some x -> Q tt (set_k_slots (<[p := f x]> (k_slots k)) k) -> wp (slot_mod p f) Q k.
Proof. intros Hx HQ. apply wp_zoom. by eapply wp_store_with. Qed.
Lemma wp_write_slot p c (k : kst) (Q : unit -> kst -> Prop) :
  is_Some (k_slots k !! p) -> Q tt (set_k_slots (<[p := Cte c root_mdb]> (k_slots k)) k) ->
  wp (write_slot p c) Q k.
Proof.
  intros [x Hx] HQ. unfold write_slot. apply wp_bind. eapply wp_boot_slot_mod; [exact Hx|].
  apply wp_bind. eapply wp_boot_slot_mod; [apply lookup_insert_eq|].
  apply wp_bind. eapply wp_boot_slot_mod; [apply lookup_insert_eq|].
  eapply wp_boot_slot_mod; [apply lookup_insert_eq|]. cbn [k_slots set_k_slots]. rewrite !insert_insert_eq. exact HQ.
Qed.

Lemma br_put c P s first dev u :
  boot_ready c P s -> 0 <= slot_pos_cur s < 2 ^ 13 -> boot_ready c P (put_untyped P first dev s u).
Proof.
  intros [Hp Hn Hs (bi & Eb & El)] Hpos. split; [done|done| |].
  - intros k Hk. cbn. destruct (decide (P + 32 * k = P + 32 * slot_pos_cur s)) as [->|Hne].
    + rewrite lookup_insert_eq. by eexists.
    + rewrite lookup_insert_ne by done. by apply Hs.
  - cbn. rewrite lookup_alter_eq, Eb. eexists. split; [done|]. cbn. by rewrite length_insert.
Qed.

Lemma wp_provide_cap c P s ut (Q : bool -> boot_t -> Prop) :
  boot_ready c P s -> 0 <= slot_pos_cur s < 2 ^ 13 ->
  Q true (set_slot_pos_cur (slot_pos_cur s + 1)
    (set_b_k (set_k_slots (<[P + 32 * slot_pos_cur s := Cte ut root_mdb]> (k_slots (b_k s))) (b_k s)) s)) ->
  wp (provide_cap c ut) Q s.
Proof.
  intros [Hp Hn Hs _] Hpos HQ. unfold provide_cap. wp_steps.
  change (BIT CONFIG_ROOT_CNODE_SIZE_BITS) with (2 ^ 13). rewrite bool_decide_false by lia. wp_steps.
  unfold cnode_slot. wp_steps. eapply wp_lift; [exact Hp|]. apply wp_ret. wp_steps.
  assert (cte_add P (slot_pos_cur s) = P + 32 * slot_pos_cur s) as ->.
  { unfold cte_add, wmul. change cte_size with 32. rewrite wrap_id by (unfold is_word; lia).
    apply wadd_small. unfold is_word. lia. }
  apply wp_zoom. apply wp_write_slot; [by apply Hs|]. apply wp_bind, wp_modify, wp_ret.
  rewrite wadd_small by (unfold is_word; lia). exact HQ.
Qed.

(** A block an untyped capability may cover. *)
Definition block_ok (dev : bool) (u : Z * Z) : Prop :=
  is_word u.1 /\ 0 <= u.2 <= 38 /\ u.1 `mod` 2 ^ u.2 = 0 /\
  (dev = true \/ PPTR_BASE <= u.1 /\ u.1 + 2 ^ u.2 <= PPTR_TOP).

Lemma block_window dev u :
  block_ok dev u ->
  negb dev && negb (pptr_in_kernel_window u.1) = false /\
  negb dev && negb (pptr_in_kernel_window (wadd u.1 (MASK u.2))) = false.
Proof.
  intros (Hw & Hb & _ & [-> | [Hl Hh]]); [done|]. assert (0 < 2 ^ u.2) by lia.
  rewrite MASK_spec by lia. rewrite Z.ones_equiv. unfold PPTR_BASE, PPTR_TOP in *.
  rewrite wadd_small by (unfold is_word; lia). unfold pptr_in_kernel_window, PPTR_BASE, PPTR_TOP.
  rewrite !bool_decide_true by lia. by destruct dev.
Qed.

Lemma wp_provide_untyped c P s first dev u (Q : bool -> boot_t -> Prop) :
  boot_ready c P s -> block_ok dev u -> 4 <= u.2 -> 0 <= first <= slot_pos_cur s ->
  slot_pos_cur s - first < 230 -> slot_pos_cur s < 2 ^ 13 -> Q true (put_untyped P first dev s u) ->
  wp (provide_untyped_cap c dev u.1 u.2 first) Q s.
Proof.
  intros Hr Hu Hmin Hf Hi Hpos HQ. pose proof Hu as (Hw & Hb & Ha & _). destruct (block_window dev u Hu) as [W1 W2].
  destruct (br_bi _ _ _ Hr) as (bi & Eb & El). unfold provide_untyped_cap.
  change seL4_MaxUntypedBits with 38. change seL4_MinUntypedBits with 4.
  rewrite (bool_decide_false (u.2 > 38)), (bool_decide_false (u.2 < 4)) by lia.
  rewrite (proj2 (IS_ALIGNED_spec u.1 u.2 ltac:(lia)) Ha). rewrite W1, W2. cbn [negb orb].
  wp_steps. rewrite wsub_small by (unfold is_word; lia).
  change CONFIG_MAX_NUM_BOOTINFO_UNTYPED_CAPS with 230. rewrite bool_decide_true by lia. wp_steps.
  apply wp_zoom. eapply wp_load; [exact Eb|]. wp_steps. eapply wp_lift; [apply upd_Ok; lia|].
  wp_steps. unfold bi_mod. wp_steps. apply wp_zoom. eapply wp_store_with; [exact Eb|].
  assert (Z.land u.2 255 = u.2) as ->.
  { change 255 with (Z.ones 8). rewrite Z.land_ones by lia. apply Z.mod_small. lia. }
  apply wp_provide_cap with (P := P).
  - destruct Hr as [Hp Hn Hs _]. split; [done|done|exact Hs|]. cbn. rewrite lookup_insert_eq. eexists.
    split; [done|]. cbn. by rewrite length_insert.
  - cbn. lia.
  - revert HQ. unfold put_untyped. erewrite (alter_insert_id _ _ _ bi) by exact Eb. by destruct s.
Qed.
End caps.

(** ** The loop *)
(** Blocks that follow each other from one address to another. *)
Inductive tiles : Z -> list (Z * Z) -> Z -> Prop :=
| tiles_nil a : tiles a [] a
| tiles_cons a b l e :
    0 <= b <= 38 -> a `mod` 2 ^ b = 0 -> tiles (wadd a (2 ^ b)) l e -> tiles a ((a, b) :: l) e.
Definition block_bytes (l : list (Z * Z)) : Z := foldr (fun u n => 2 ^ u.2 + n) 0 l.
(** The blocks that get a capability. *)
Definition untyped_blocks (l : list (Z * Z)) : list (Z * Z) := filter (fun u => 4 <= u.2) l.
Definition region_bytes (reg : region_t) : Z := wsub (rg_end reg) (rg_start reg).
(** A region of words, inside the kernel window unless it is device memory. *)
Definition untyped_region (dev : bool) (reg : region_t) : Prop :=
  is_word (rg_start reg) /\ is_word (rg_end reg) /\
  (dev = true \/ PPTR_BASE <= rg_start reg /\ rg_start reg + region_bytes reg <= PPTR_TOP).

Section loop.
Implicit Types (s : boot_t) (P first : Z) (reg : region_t) (c : list Z).

Lemma block_bytes_cons a b l : block_bytes ((a, b) :: l) = 2 ^ b + block_bytes l.
Proof. done. Qed.
Lemma region_bytes_word reg : is_word (region_bytes reg).
Proof. apply wsub_is_word. Qed.
Lemma region_bytes_0 reg :
  is_word (rg_start reg) -> is_word (rg_end reg) -> region_bytes reg = 0 <-> rg_start reg = rg_end reg.
Proof.
  intros Hs He. unfold region_bytes, wsub. rewrite wrap_mod. split; [|intros ->; by rewrite Z.sub_diag].
  intros E. apply Z.mod_divide in E as [z E]; [|lia]. unfold is_word in *. assert (z = 0) as -> by nia. lia.
Qed.
Lemma region_next reg b :
  0 <= 2 ^ b <= region_bytes reg ->
  region_bytes (set_rg_start (wadd (rg_start reg) (2 ^ b)) reg) = region_bytes reg - 2 ^ b.
Proof.
  intros Hb. pose proof (region_bytes_word reg) as Hw. unfold region_bytes in *. cbn.
  unfold wsub at 1, wadd. rewrite !wrap_mod, Zminus_mod_idemp_r.
  rewrite <- (Z.mod_small (wsub (rg_end reg) (rg_start reg) - 2 ^ b) (2 ^ 64)) by (unfold is_word in Hw; lia).
  unfold wsub at 1. rewrite wrap_mod, Zminus_mod_idemp_l. f_equal. lia.
Qed.

Lemma untyped_region_next dev reg b :
  untyped_region dev reg -> 0 <= 2 ^ b <= region_bytes reg ->
  untyped_region dev (set_rg_start (wadd (rg_start reg) (2 ^ b)) reg).
Proof.
  intros (Hs & He & Hw) Hb. split; [apply wadd_is_word|]. split; [done|]. destruct Hw as [-> | [Hl Hh]]; [by left|].
  right. rewrite region_next by done. cbn. unfold PPTR_BASE, PPTR_TOP in *.
  rewrite wadd_small by (unfold is_word; lia). lia.
Qed.

Lemma region_block dev reg :
  untyped_region dev reg -> 0 < region_bytes reg ->
  block_ok dev (rg_start reg, block_bits (rg_start reg) (region_bytes reg)).
Proof.
  intros (Hs & He & Hw) Hn. destruct (block_bits_bound (rg_start reg) (region_bytes reg) Hs Hn) as [Hb Hle].
  split; [done|]. split; [done|]. cbn. split.
  - apply aligned_le; [done|]. unfold block_bits in *. lia.
  - destruct Hw as [-> | [Hl Hh]]; [by left|]. right. lia.
Qed.

Lemma wp_untypeds_loop c P first dev fuel : forall s reg (Q : bool -> boot_t -> Prop),
  rounds (rg_start reg) (region_bytes reg) < Z.of_nat fuel ->
  boot_ready c P s -> untyped_region dev reg -> 0 <= first <= slot_pos_cur s ->
  slot_pos_cur s - first + rounds (rg_start reg) (region_bytes reg) <= 230 ->
  slot_pos_cur s + rounds (rg_start reg) (region_bytes reg) <= 2 ^ 13 ->
  (forall bl, tiles (rg_start reg) bl (rg_end reg) -> block_bytes bl = region_bytes reg ->
    Q true (foldl (put_untyped P first dev) s (untyped_blocks bl))) ->
  wp (untypeds_loop fuel c dev reg first) Q s.
Proof.
  induction fuel as [|fuel IH]; intros s reg Q Hf Hr Hreg Hfirst Hd Hp HQ; pose proof Hreg as (Hs & He & _).
  { pose proof (rounds_nonneg (rg_start reg) (region_bytes reg) Hs (proj1 (region_bytes_word reg))). lia. }
  pose proof (region_bytes_word reg) as Hw. pose proof (region_bytes_0 reg Hs He) as H0.
  cbn [untypeds_loop]. unfold is_reg_empty. case_bool_decide as Ee.
  { apply wp_ret. apply (HQ []); [rewrite Ee; constructor|]. symmetry. by apply H0. }
  assert (0 < region_bytes reg) as Hn.
  { unfold is_word in Hw. destruct (decide (region_bytes reg = 0)) as [E%H0|]; [done|lia]. }
  rewrite untyped_size_spec by done. fold (region_bytes reg).
  pose proof (region_block dev reg Hreg Hn) as Hu.
  set (b := block_bits (rg_start reg) (region_bytes reg)) in *.
  destruct (block_bits_bound (rg_start reg) (region_bytes reg) Hs Hn) as [Hb Hle]. fold b in Hb, Hle.
  pose proof (rounds_step (rg_start reg) (region_bytes reg) Hs ltac:(unfold is_word in Hw; lia)) as Hst.
  cbv zeta in Hst. fold b in Hst.
  assert (0 <= 2 ^ b <= region_bytes reg) as Hbb by lia.
  pose proof (region_next reg b Hbb) as Hnx. rewrite BIT_spec by lia.
  pose proof (rounds_nonneg (wadd (rg_start reg) (2 ^ b)) (region_bytes reg - 2 ^ b) (wadd_is_word _ _) ltac:(lia)) as Hr0.
  change seL4_MinUntypedBits with 4. wp_steps. case_bool_decide as E4.
  - apply (wp_provide_untyped c P s first dev (rg_start reg, b)); [done|done|cbn; lia|lia|lia|lia|].
    cbn [negb]. apply IH; rewrite ?Hnx; cbn [rg_start set_rg_start rg_end slot_pos_cur put_untyped set_slot_pos_cur].
    + lia.
    + apply br_put; [done|lia].
    + by apply untyped_region_next.
    + lia.
    + lia.
    + lia.
    + intros bl Ht Hbl. specialize (HQ ((rg_start reg, b) :: bl)). unfold untyped_blocks in HQ |- *.
      rewrite filter_cons_True in HQ by (cbn; lia). apply HQ; [|rewrite block_bytes_cons; lia].
      destruct Hu as (_ & _ & Ha & _). by constructor.
  - apply wp_ret. cbn [negb]. apply IH; rewrite ?Hnx; cbn [rg_start set_rg_start rg_end]; try lia; [done|by apply untyped_region_next|].
    intros bl Ht Hbl. specialize (HQ ((rg_start reg, b) :: bl)). unfold untyped_blocks in HQ |- *.
    rewrite filter_cons_False in HQ by (cbn; lia). apply HQ; [|rewrite block_bytes_cons; lia].
    destruct Hu as (_ & _ & Ha & _). by constructor.
Qed.

(** C15: [create_untypeds_for_region] ends, whatever the region, and covers it:
    it cuts the region from its start to its end (the addresses may wrap around
    zero) into blocks aligned to their size of at most 38 bits, and makes an
    untyped capability, described in the boot information, of every block of at
    least sixteen bytes, in the next slots of the root node.  At most 78 blocks
    and one per 256 GiB are needed. *)
Theorem create_untypeds_for_region_tiles s c P first dev reg :
  boot_ready c P s -> untyped_region dev reg -> 0 <= first <= slot_pos_cur s ->
  slot_pos_cur s - first + 78 + region_bytes reg / 2 ^ 38 <= CONFIG_MAX_NUM_BOOTINFO_UNTYPED_CAPS ->
  slot_pos_cur s + 78 + region_bytes reg / 2 ^ 38 <= 2 ^ CONFIG_ROOT_CNODE_SIZE_BITS ->
  wp (create_untypeds_for_region c dev reg first) (fun ok s' => ok = true /\
    exists blocks, tiles (rg_start reg) blocks (rg_end reg) /\ block_bytes blocks = region_bytes reg /\
      s' = foldl (put_untyped P first dev) s (untyped_blocks blocks)) s.
Proof.
  intros Hr Hreg Hf Hd Hp. change CONFIG_MAX_NUM_BOOTINFO_UNTYPED_CAPS with 230 in Hd.
  change CONFIG_ROOT_CNODE_SIZE_BITS with 13 in Hp. pose proof Hreg as (Hs & _ & _).
  pose proof (rounds_nonneg (rg_start reg) (region_bytes reg) Hs (proj1 (region_bytes_word reg))) as Hb.
  apply wp_untypeds_loop with (P := P); [|done|done|lia|lia|lia|intros bl Ht Hbl; split; [done|by exists bl]].
  unfold untypeds_fuel. fold (region_bytes reg). change seL4_MaxUntypedBits with 38. lia.
Qed.
End loop.

(** ** An instance *)
(** The root node at an address of the window, and empty boot information. *)
Definition w_node : Z := PPTR_BASE + 0x60000000.
Definition w_bi_frame : Z := PPTR_BASE + 0x60042000.
Definition w_node_slots : gmap Z cte_t :=
  list_to_map ((fun k => (w_node + 32 * k, Cte new_null_cap mdb_node_default)) <$> seqZ 0 (2 ^ 13)).
Definition w_root_cap : list Z := new_cnode_cap CONFIG_ROOT_CNODE_SIZE_BITS 51 0 w_node.
Definition w_boot : boot_t :=
  Boot (set_k_slots w_node_slots kst_empty) (Kw kpt_init mm_init) {[ w_bi_frame := bootinfo_zero ]} w_bi_frame
    20 (Region 0 0) rootserver_init 0.

Lemma w_node_slot k : 0 <= k < 2 ^ 13 -> w_node_slots !! (w_node + 32 * k) = Some (Cte new_null_cap mdb_node_default).
Proof.
  intros Hk. unfold w_node_slots. apply elem_of_list_to_map_1.
  - rewrite <- list_fmap_compose. apply NoDup_fmap_2_strong; [|apply NoDup_seqZ]. intros x y _ _. cbn. lia.
  - apply list_elem_of_fmap. exists k. split; [done|]. apply elem_of_seqZ. lia.
Qed.
Lemma w_boot_ready : boot_ready w_root_cap w_node w_boot.
Proof.
  split; [vm_compute; reflexivity|by by_decide| |].
  - intros k Hk. exists (Cte new_null_cap mdb_node_default). by apply w_node_slot.
  - exists bootinfo_zero. split; [apply lookup_singleton_eq|reflexivity].
Qed.

Lemma create_untypeds_for_region_tiles_witness :
  let reg := Region (PPTR_BASE + 0x40001008) (PPTR_BASE + 0x40400000) in
  boot_ready w_root_cap w_node w_boot /\
  wp (create_untypeds_for_region w_root_cap false reg 20) (fun ok s' => ok = true /\
    exists blocks, tiles (rg_start reg) blocks (rg_end reg) /\ block_bytes blocks = 0x3feff8 /\
      s' = foldl (put_untyped w_node 20 false) w_boot (untyped_blocks blocks)) w_boot.
Proof.
  split; [exact w_boot_ready|]. apply create_untypeds_for_region_tiles; [exact w_boot_ready| |by_decide..].
  split; [by_decide|]. split; [by_decide|]. right. by_decide.
Defined.
