(* ===== verification/BootRootProps.v ===== *)
(** * Boot: theorems on the root server

    The objects of the first thread are laid out without gaps or overlaps,
    aligned to their sizes, in memory that leaves the free regions; the device
    tree handed to the first thread is overwritten. *)

From stdpp Require Import base numbers gmap list.
From S2P Require Import Prelude Bitfield Common Cap DList CSpace Sched State Vspace Threads Delete Ipc Finalise Syscall CNodeInv UntypedInv MmuInv BootMem KWindow BootRoot Boot VspaceProps BootProps.
Local Open Scope Z_scope.
Local Open Scope krn_scope.

(** ** The objects *)
(** Arrays of [n] objects of [2 ^ b] bytes, one after the other. *)
Inductive laid_out : Z -> list (Z * Z * Z) -> Z -> Prop :=
| laid_nil a : laid_out a [] a
| laid_cons a b n l e :
    a `mod` 2 ^ b = 0 -> 0 <= n -> laid_out (a + n * 2 ^ b) l e -> laid_out a ((a, b, n) :: l) e.

(** The objects of a root server by address; the extra boot information comes
    before the smaller objects. *)
Definition rootserver_objects (r : rootserver_mem_t) (extra n : Z) : list (Z * Z * Z) :=
  (if bool_decide (18 <= extra) then [(rs_extra_bi r, extra, 1)] else []) ++
  [(rs_cnode r, 18, 1)] ++
  (if bool_decide (0 < extra < 18) then [(rs_extra_bi r, extra, 1)] else []) ++
  [(rs_vspace r, 12, 1); (rs_asid_pool r, 12, 1); (rs_ipc_buf r, 12, 1); (rs_boot_info r, 12, 1);
   (rg_start (rs_paging r), 12, n); (rs_tcb r, 11, 1)].

(** A size [calculate_extra_bi_size_bits] gives, and a bound on the tables. *)
Definition extra_ok (extra : Z) : Prop := extra = 0 \/ 12 <= extra <= 40.
Definition paging_ok (it_v_reg : region_t) : Prop := 0 <= arch_get_n_paging it_v_reg <= 2 ^ 30.

Section objects.
Implicit Types (s : boot_t) (a b n e extra start : Z) (it : region_t).

Lemma rootserver_size it extra :
  extra_ok extra -> paging_ok it ->
  calculate_rootserver_size it extra =
    (if bool_decide (0 < extra) then 2 ^ extra else 0) + 2 ^ 18 + 4 * 2 ^ 12 + 2 ^ 11 + arch_get_n_paging it * 2 ^ 12.
Proof.
  intros He Hn. unfold calculate_rootserver_size, paging_ok in *.
  assert (0 <= (if bool_decide (0 < extra) then 2 ^ extra else 0) <= 2 ^ 40) as Hx.
  { case_bool_decide; [|lia]. destruct He as [->|He]; [lia|]. split; [lia|]. apply Z.pow_le_mono_r; lia. }
  replace (if bool_decide (extra > 0) then BIT extra else 0) with (if bool_decide (0 < extra) then 2 ^ extra else 0).
  - set (x := if bool_decide (0 < extra) then 2 ^ extra else 0) in *.
    change (BIT (CONFIG_ROOT_CNODE_SIZE_BITS + seL4_SlotBits)) with (2 ^ 18).
    change (BIT seL4_TCBBits) with (2 ^ 11). change (BIT seL4_PageBits) with (2 ^ 12).
    change (BIT BI_FRAME_SIZE_BITS) with (2 ^ 12). change (BIT seL4_ASIDPoolBits) with (2 ^ 12).
    change (BIT seL4_VSpaceBits) with (2 ^ 12). change (BIT seL4_PageTableBits) with (2 ^ 12).
    unfold wmul. rewrite (wrap_id (_ * _)) by (unfold is_word; lia).
    change (wadd (wadd (wadd (wadd (2 ^ 18) (2 ^ 11)) (2 ^ 12)) (2 ^ 12)) (2 ^ 12)) with (2 ^ 18 + 2 ^ 11 + 3 * 2 ^ 12).
    rewrite (wadd_small _ x) by (unfold is_word; lia). rewrite (wadd_small _ (2 ^ 12)) by (unfold is_word; lia).
    rewrite wadd_small by (unfold is_word; lia). lia.
  - case_bool_decide as E1; case_bool_decide as E2; try lia. destruct He as [->|He]; [lia|].
    symmetry. apply BIT_spec. lia.
Qed.

Lemma max_size extra : extra_ok extra -> rootserver_max_size_bits extra = Z.max 18 extra.
Proof.
  intros He. unfold rootserver_max_size_bits. change (CONFIG_ROOT_CNODE_SIZE_BITS + seL4_SlotBits) with 18.
  change seL4_VSpaceBits with 12. rewrite (bool_decide_true (18 > 12)) by lia. case_bool_decide; lia.
Qed.

Lemma wp_alloc b n a e s (Q : Z -> boot_t -> Prop) :
  rootserver_mem s = Region a e -> 0 <= b < 64 -> 0 <= n -> 0 <= a -> a `mod` 2 ^ b = 0 ->
  a + n * 2 ^ b <= e < 2 ^ 64 -> Q a (set_rootserver_mem (Region (a + n * 2 ^ b) e) s) ->
  wp (alloc_rootserver_obj b n) Q s.
Proof.
  intros Hm Hb Hn Ha Hal He HQ. assert (0 < 2 ^ b) by lia. unfold alloc_rootserver_obj. wp_steps.
  rewrite Hm. cbn [rg_start rg_end]. rewrite BIT_spec by lia. apply wp_assert; [by apply bool_decide_true|].
  unfold wmul. rewrite (wrap_id (n * 2 ^ b)) by (unfold is_word; nia).
  rewrite wadd_small by (unfold is_word; nia). apply wp_bind, wp_modify, wp_bind.
  apply wp_assert; [apply bool_decide_true; lia|]. apply wp_ret. exact HQ.
Qed.
End objects.

Section layout.
Implicit Types (s : boot_t) (a b n e extra start : Z) (it : region_t) (r : rootserver_mem_t).

Lemma laid_next a' a b n l e :
  a `mod` 2 ^ b = 0 -> 0 <= n -> a' = a + n * 2 ^ b -> laid_out a' l e -> laid_out a ((a, b, n) :: l) e.
Proof. intros Ha Hn -> Hl. by constructor. Qed.
(** The state with other root server objects and nothing left to place. *)
Definition placed r e s : boot_t := set_rootserver r (set_rootserver_mem (Region e e) s).

Lemma wp_maybe_skip cmp extra s (Q : unit -> boot_t -> Prop) :
  extra < cmp \/ rs_extra_bi (rootserver s) <> 0 -> Q tt s -> wp (maybe_alloc_extra_bi cmp extra) Q s.
Proof.
  intros Hs HQ. unfold maybe_alloc_extra_bi. wp_steps. destruct Hs as [Hs|Hs].
  - by rewrite (bool_decide_false (extra >= cmp)) by lia.
  - rewrite (bool_decide_false (rs_extra_bi _ = 0)) by done. by rewrite andb_false_r.
Qed.
Lemma wp_maybe_alloc cmp extra a e s (Q : unit -> boot_t -> Prop) :
  cmp <= extra -> rs_extra_bi (rootserver s) = 0 -> rootserver_mem s = Region a e -> 0 <= extra < 64 -> 0 <= a ->
  a `mod` 2 ^ extra = 0 -> a + 2 ^ extra <= e < 2 ^ 64 ->
  Q tt (set_rootserver (set_rs_extra_bi a (rootserver s)) (set_rootserver_mem (Region (a + 2 ^ extra) e) s)) ->
  wp (maybe_alloc_extra_bi cmp extra) Q s.
Proof.
  intros Hc Hz Hm Hx Ha Hal He HQ. unfold maybe_alloc_extra_bi. wp_steps.
  rewrite (bool_decide_true (extra >= cmp)) by lia. rewrite (bool_decide_true (rs_extra_bi _ = 0)) by done. cbn [andb when].
  apply wp_bind. apply (wp_alloc extra 1 a e); [done|lia|lia|lia|done|lia|]. rewrite Z.mul_1_l. apply wp_modify.
  exact HQ.
Qed.

(** The objects of a page and less. *)
Definition small_objects it extra : ST boot_t unit :=
  p ← alloc_rootserver_obj seL4_VSpaceBits 1; rs_mod (set_rs_vspace p) ;;
  maybe_alloc_extra_bi seL4_PageBits extra ;;
  p ← alloc_rootserver_obj seL4_ASIDPoolBits 1; rs_mod (set_rs_asid_pool p) ;;
  p ← alloc_rootserver_obj seL4_PageBits 1; rs_mod (set_rs_ipc_buf p) ;;
  p ← alloc_rootserver_obj BI_FRAME_SIZE_BITS 1; rs_mod (set_rs_boot_info p) ;;
  let n := arch_get_n_paging it in
  p ← alloc_rootserver_obj seL4_PageTableBits n;
  rs_mod (set_rs_paging (Region p (wadd p (wmul n (BIT seL4_PageTableBits))))) ;;
  p ← alloc_rootserver_obj seL4_TCBBits 1; rs_mod (set_rs_tcb p) ;;
  r ← gets rootserver_mem;
  assert_m (rg_start r =w rg_end r).

Lemma wp_small_objects it extra a e s (Q : unit -> boot_t -> Prop) :
  rootserver_mem s = Region a e -> extra < 12 \/ rs_extra_bi (rootserver s) <> 0 -> paging_ok it ->
  0 <= a -> a `mod` 2 ^ 12 = 0 -> a + 4 * 2 ^ 12 + arch_get_n_paging it * 2 ^ 12 + 2 ^ 11 = e -> e < 2 ^ 64 ->
  (forall r, rs_cnode r = rs_cnode (rootserver s) -> rs_extra_bi r = rs_extra_bi (rootserver s) ->
    rs_paging r = Region (rg_start (rs_paging r)) (rg_start (rs_paging r) + arch_get_n_paging it * 2 ^ 12) ->
    laid_out a [(rs_vspace r, 12, 1); (rs_asid_pool r, 12, 1); (rs_ipc_buf r, 12, 1); (rs_boot_info r, 12, 1);
      (rg_start (rs_paging r), 12, arch_get_n_paging it); (rs_tcb r, 11, 1)] e ->
    Q tt (placed r e s)) ->
  wp (small_objects it extra) Q s.
Proof.
  intros Hm Hx Hn Ha Hal He Hlt HQ. unfold paging_ok in Hn. set (n := arch_get_n_paging it) in *.
  assert (forall k, (a + k * 2 ^ 12) `mod` 2 ^ 12 = 0) as Hk by (intros k; by apply aligned_after).
  unfold small_objects. fold n. wp_steps. apply (wp_alloc 12 1 a e); [done|lia|lia|lia|done|lia|].
  apply wp_bind, wp_modify, wp_bind, wp_maybe_skip; [exact Hx|].
  apply wp_bind, (wp_alloc 12 1 (a + 1 * 2 ^ 12) e); [done|lia|lia|lia|apply Hk|lia|].
  apply wp_bind, wp_modify, wp_bind, (wp_alloc 12 1 (a + 2 * 2 ^ 12) e); [cbn; f_equal; lia|lia|lia|lia|apply Hk|lia|].
  apply wp_bind, wp_modify, wp_bind, (wp_alloc 12 1 (a + 3 * 2 ^ 12) e); [cbn; f_equal; lia|lia|lia|lia|apply Hk|lia|].
  apply wp_bind, wp_modify, wp_bind, (wp_alloc 12 n (a + 4 * 2 ^ 12) e); [cbn; f_equal; lia|lia|lia|lia|apply Hk|lia|].
  apply wp_bind, wp_modify, wp_bind, (wp_alloc 11 1 (a + (4 + n) * 2 ^ 12) e); [cbn; f_equal; lia|lia|lia|lia| |lia|].
  { apply (aligned_weaken _ 12); [lia|apply Hk]. }
  apply wp_bind, wp_modify, wp_bind, wp_gets, wp_assert; [cbn; apply bool_decide_true; lia|].
  unfold placed in HQ. replace (a + (4 + n) * 2 ^ 12 + 1 * 2 ^ 11) with e by lia.
  unfold wmul. change (BIT seL4_PageTableBits) with (2 ^ 12). rewrite (wrap_id (n * 2 ^ 12)) by (unfold is_word; lia).
  rewrite wadd_small by (unfold is_word; lia).
  eapply (HQ (Rootserver _ _ _ _ _ _ _ (Region _ _))); [done|done|done|]. cbn.
  apply (laid_next (a + 1 * 2 ^ 12)); [done|lia|lia|].
  apply (laid_next (a + 2 * 2 ^ 12)); [apply Hk|lia|lia|].
  apply (laid_next (a + 3 * 2 ^ 12)); [apply Hk|lia|lia|].
  apply (laid_next (a + 4 * 2 ^ 12)); [apply Hk|lia|lia|].
  apply (laid_next (a + (4 + n) * 2 ^ 12)); [apply Hk|lia|lia|].
  apply (laid_next e); [apply (aligned_weaken _ 12); [lia|apply Hk]|lia|lia|constructor].
Qed.

Lemma wp_objects it extra start s (Q : unit -> boot_t -> Prop) :
  extra_ok extra -> paging_ok it -> rs_extra_bi (rootserver s) = 0 ->
  0 < start -> start `mod` 2 ^ rootserver_max_size_bits extra = 0 ->
  start + calculate_rootserver_size it extra < 2 ^ 64 ->
  (forall r, rs_paging r = Region (rg_start (rs_paging r)) (rg_start (rs_paging r) + arch_get_n_paging it * 2 ^ 12) ->
    laid_out start (rootserver_objects r extra (arch_get_n_paging it)) (start + calculate_rootserver_size it extra) ->
    Q tt (placed r (start + calculate_rootserver_size it extra) s)) ->
  wp (create_rootserver_objects start it extra) Q s.
Proof.
  intros Hx Hn Hz Hs Hal Hlt HQ. rewrite max_size in Hal by done.
  set (e := start + calculate_rootserver_size it extra) in *. pose proof (rootserver_size it extra Hx Hn) as Hsz.
  assert (start `mod` 2 ^ 18 = 0) as Hal18 by (apply (aligned_weaken _ (Z.max 18 extra)); [lia|done]).
  assert (start `mod` 2 ^ 12 = 0) as Hal12 by (apply (aligned_weaken _ 18); [lia|done]).
  unfold paging_ok in Hn. unfold create_rootserver_objects. apply wp_bind, wp_modify.
  assert (0 <= calculate_rootserver_size it extra) as Hsz0 by (rewrite Hsz; case_bool_decide; lia).
  rewrite (wadd_small start) by (unfold is_word; lia). fold e. rewrite max_size by done.
  change (CONFIG_ROOT_CNODE_SIZE_BITS + seL4_SlotBits) with 18. fold (small_objects it extra).
  destruct (decide (18 <= extra)) as [H18|H18]; [|destruct Hx as [->|Hx]].
  - (* the extra boot information first *)
    rewrite bool_decide_true in Hsz by lia. assert (0 < 2 ^ extra) by lia.
    rewrite (Z.max_r 18 extra) in Hal |- * by lia. assert (extra <= 40) by (destruct Hx; lia).
    apply wp_bind, (wp_maybe_alloc _ _ start e); [lia|done|done|lia|lia|done|lia|].
    assert ((start + 2 ^ extra) `mod` 2 ^ 18 = 0) as Hal'.
    { rewrite <- (Z.mul_1_l (2 ^ extra)). apply aligned_after; [lia|done]. }
    apply wp_bind, (wp_alloc 18 1 (start + 2 ^ extra) e); [done|lia|lia|lia|done|lia|].
    apply wp_bind, wp_modify, wp_bind, wp_maybe_skip; [right; cbn; lia|].
    apply (wp_small_objects it extra (start + 2 ^ extra + 1 * 2 ^ 18) e); [done|right; cbn; lia|done|lia| |lia|lia|].
    { apply aligned_after; [lia|]. apply (aligned_weaken _ 18); [lia|done]. }
    intros r Hc Hb Hp Hl. apply HQ; [done|]. unfold rootserver_objects. rewrite bool_decide_true by lia.
    rewrite (bool_decide_false (0 < extra < 18)) by lia. cbn in Hc, Hb. rewrite Hc, Hb. cbn [app].
    apply (laid_next (start + 2 ^ extra)); [done|lia|lia|]. by apply (laid_next (start + 2 ^ extra + 1 * 2 ^ 18)).
  - (* no extra boot information *)
    change (bool_decide (0 < 0)) with false in Hsz. cbn iota in Hsz.
    apply wp_bind, wp_maybe_skip; [left; lia|]. apply wp_bind, (wp_alloc 18 1 start e); [done|lia|lia|lia|done|lia|].
    apply wp_bind, wp_modify, wp_bind, wp_maybe_skip; [left; by vm_compute|].
    apply (wp_small_objects it 0 (start + 1 * 2 ^ 18) e); [done|left; lia|done|lia| |lia|lia|].
    { apply aligned_after; [lia|done]. }
    intros r Hc Hb Hp Hl. apply HQ; [done|]. unfold rootserver_objects. cbn in Hc. rewrite Hc. cbn [app].
    by apply (laid_next (start + 1 * 2 ^ 18)).
  - (* after the node *)
    rewrite bool_decide_true in Hsz by lia. assert (0 < 2 ^ extra) by lia.
    apply wp_bind, wp_maybe_skip; [left; lia|]. apply wp_bind, (wp_alloc 18 1 start e); [done|lia|lia|lia|done|lia|].
    assert ((start + 1 * 2 ^ 18) `mod` 2 ^ extra = 0) as Hal'.
    { apply aligned_after; [lia|]. apply (aligned_weaken _ 18); [lia|done]. }
    apply wp_bind, wp_modify, wp_bind, (wp_maybe_alloc _ _ (start + 1 * 2 ^ 18) e);
      [change seL4_VSpaceBits with 12; lia|done|done|lia|lia|done|lia|].
    apply (wp_small_objects it extra (start + 1 * 2 ^ 18 + 2 ^ extra) e); [done|right; cbn; lia|done|lia| |lia|lia|].
    { rewrite <- (Z.mul_1_l (2 ^ extra)). apply aligned_after; [lia|]. apply aligned_after; [lia|done]. }
    intros r Hc Hb Hp Hl. apply HQ; [done|]. unfold rootserver_objects. rewrite bool_decide_false by lia.
    rewrite (bool_decide_true (0 < extra < 18)) by lia. cbn in Hc, Hb. rewrite Hc, Hb. cbn [app].
    apply (laid_next (start + 1 * 2 ^ 18)); [done|lia|lia|].
    by apply (laid_next (start + 1 * 2 ^ 18 + 2 ^ extra)); [done|lia|lia|].
Qed.
End layout.

(** ** Placing the objects *)
(** The free regions of the boot. *)
Definition b_free (s : boot_t) : list region_t := freemem (kw_mm (b_kw s)).
Definition set_b_free (l : list region_t) (s : boot_t) : boot_t :=
  set_b_kw (set_kw_mm (set_freemem l (kw_mm (b_kw s))) (b_kw s)) s.
(** [size] bytes fit at the end of a region, aligned to [2 ^ max]. *)
Definition round_down (x max : Z) : Z := x - x `mod` 2 ^ max.
Definition fits (size max : Z) (r : region_t) : Prop :=
  size <= rg_end r /\ rg_start r <= round_down (rg_end r - size) max.
Definition proper (r : region_t) : Prop := 0 < rg_start r < rg_end r /\ rg_end r < 2 ^ 64.
Definition apart (ins : list region_t) : Prop :=
  forall i j r r', ins !! i = Some r -> ins !! j = Some r' -> i <> j ->
    rg_end r <= rg_start r' \/ rg_end r' <= rg_start r.

Section place.
Context (it : region_t) (extra : Z) (Hx : extra_ok extra) (Hn : paging_ok it).
Implicit Types (s : boot_t) (r : region_t) (i : Z) (pre post ins : list region_t).
Abbreviation size := (calculate_rootserver_size it extra).
Abbreviation max := (rootserver_max_size_bits extra).
Abbreviation empty := (Region 0 0).

Lemma wp_b_free_get i r s (Q : region_t -> boot_t -> Prop) :
  0 <= i -> b_free s !! Z.to_nat i = Some r -> Q r s -> wp (on_b_mm (free_get i)) Q s.
Proof.
  intros Hi Hr HQ. unfold on_b_mm. apply wp_zoom, wp_zoom. unfold free_get. wp_steps.
  eapply wp_lift; [by apply idx_Ok|]. by destruct s as [? [] ? ? ? ? ? ?].
Qed.
Lemma wp_b_free_set i r s (Q : unit -> boot_t -> Prop) :
  0 <= i < Z.of_nat (length (b_free s)) -> Q tt (set_b_free (<[Z.to_nat i := r]> (b_free s)) s) ->
  wp (on_b_mm (free_set i r)) Q s.
Proof.
  intros Hi HQ. unfold on_b_mm. apply wp_zoom, wp_zoom. unfold free_set. wp_steps.
  eapply wp_lift; [apply upd_Ok; exact Hi|]. apply wp_modify. exact HQ.
Qed.
Lemma b_free_set l s : b_free (set_b_free l s) = l.
Proof. done. Qed.

Lemma b_free_twice l l' s : set_b_free l (set_b_free l' s) = set_b_free l s.
Proof. done. Qed.

Lemma b_free_placed l l' rs e s : set_b_free l (placed rs e (set_b_free l' s)) = set_b_free l (placed rs e s).
Proof. done. Qed.

Lemma size_bound : 0 < size < 2 ^ 63.
Proof.
  rewrite rootserver_size by done. pose proof Hn as Hn'. unfold paging_ok in Hn'. case_bool_decide as E; [|lia].
  assert (2 ^ extra <= 2 ^ 40) by (apply Z.pow_le_mono_r; [|destruct Hx]; lia). lia.
Qed.
Lemma max_bound : 18 <= max <= 40.
Proof. rewrite max_size by done. destruct Hx; lia. Qed.

Lemma fits_test r :
  proper r ->
  bool_decide (wsub (rg_end r) size <= rg_end r) &&
  bool_decide (ROUND_DOWN (wsub (rg_end r) size) max >= rg_start r) = bool_decide (fits size max r).
Proof.
  intros [Hr He]. pose proof size_bound. pose proof max_bound. unfold fits.
  destruct (decide (size <= rg_end r)) as [Hle|Hgt].
  - rewrite wsub_small by (unfold is_word; lia). rewrite ROUND_DOWN_spec by (unfold is_word; lia).
    fold (round_down (rg_end r - size) max). rewrite bool_decide_true by lia. cbn. apply bool_decide_ext. lia.
  - rewrite (bool_decide_false (_ /\ _)) by lia. unfold wsub. rewrite wrap_mod.
    replace ((rg_end r - size) `mod` 2 ^ 64) with (rg_end r - size + 2 ^ 64)
      by (apply Z.mod_unique with (-1); lia).
    by rewrite bool_decide_false by lia.
Qed.

Lemma fits_start r :
  proper r -> fits size max r ->
  let start := round_down (rg_end r - size) max in
  ROUND_DOWN (wsub (rg_end r) size) max = start /\ wadd start size = start + size /\
  start `mod` 2 ^ max = 0 /\ rg_start r <= start /\ start + size <= rg_end r.
Proof.
  intros [Hr He] [Hle Hst] start. pose proof size_bound. pose proof max_bound. assert (0 < 2 ^ max) by lia.
  pose proof (Z.mod_pos_bound (rg_end r - size) (2 ^ max) ltac:(lia)).
  rewrite wsub_small by (unfold is_word; lia). rewrite ROUND_DOWN_spec by (unfold is_word; lia).
  split; [done|]. unfold start, round_down in *. split; [apply wadd_small; unfold is_word; lia|].
  split; [|lia]. rewrite Zminus_mod, Z.mod_mod, Z.sub_diag by lia. apply Z.mod_0_l. lia.
Qed.

(** The objects at the end of the last region of [pre] they fit in. *)
Definition placed_in pre post s s' : Prop :=
  exists pre1 r pre2 start rs,
    pre = pre1 ++ r :: pre2 /\ rg_start r <= start /\ start + size <= rg_end r /\
    rs_paging rs = Region (rg_start (rs_paging rs)) (rg_start (rs_paging rs) + arch_get_n_paging it * 2 ^ 12) /\
    laid_out start (rootserver_objects rs extra (arch_get_n_paging it)) (start + size) /\
    s' = set_b_free (pre1 ++ Region (rg_start r) start :: Region (start + size) (rg_end r) :: pre2 ++ post)
           (placed rs (start + size) s).

Lemma placed_free rs e s : b_free (placed rs e s) = b_free s.
Proof. done. Qed.
Lemma last_index pre r : wsub (Z.of_nat (length (pre ++ [r]))) 1 = Z.of_nat (length pre) \/ (16 <= length pre)%nat.
Proof.
  rewrite length_app. cbn. destruct (decide (16 <= length pre)%nat); [by right|left].
  rewrite wsub_small by (unfold is_word; lia). lia.
Qed.

Lemma wp_place fuel : forall pre post s (Q : unit -> boot_t -> Prop),
  b_free s = pre ++ empty :: post -> length (b_free s) = 16%nat -> (length pre < fuel)%nat ->
  rs_extra_bi (rootserver s) = 0 -> Forall proper pre -> Exists (fits size max) pre ->
  (forall s', placed_in pre post s s' -> Q tt s') ->
  wp (place_rootserver fuel (wsub (Z.of_nat (length pre)) 1) size max it extra) Q s.
Proof.
  induction fuel as [|fuel IH]; intros pre post s Q Hf Hl Hfuel Hz Hall Hex HQ; [lia|].
  destruct pre as [|r0 pre0 _] using rev_ind; [by apply Exists_nil in Hex|]. rename pre0 into pre, r0 into r. pose proof Hl as Hlen. rewrite Hf in Hlen.
  rewrite !length_app in Hlen. cbn [length] in Hlen.
  destruct (last_index pre r) as [Ei|]; [|lia]. cbn [place_rootserver]. wp_steps. rewrite Ei.
  fold (b_free s). rewrite Hl. change (Z.of_nat 16) with 16. change (wsub 16 1) with 15.
  rewrite (bool_decide_false (_ = wmax)) by (unfold wmax; lia). rewrite !bool_decide_true by lia. cbn [negb andb].
  rewrite wadd_small by (unfold is_word; lia).
  assert (b_free s = pre ++ r :: empty :: post) as Hf' by (rewrite Hf, <- app_assoc; done).
  apply wp_bind, wp_assert; [done|]. apply wp_bind, (wp_b_free_get _ empty); [lia|rewrite Hf'; rewrite lookup_app_r by lia;
    replace (_ - _)%nat with 1%nat by lia; done|].
  apply wp_bind, wp_assert; [done|]. apply wp_bind, (wp_b_free_get _ r); [lia|rewrite Hf'; rewrite lookup_app_r by lia;
    replace (_ - _)%nat with 0%nat by lia; done|].
  apply Forall_app in Hall as [Hall Hr]. apply Forall_cons in Hr as [Hr _].
  rewrite fits_test by done. case_bool_decide as Hfit.
  - destruct (fits_start r Hr Hfit) as (-> & -> & Hal & Hlo & Hhi). set (start := round_down (rg_end r - size) max) in *.
    destruct Hr as [[Hr0 Hr1] Hr2]. apply wp_bind, wp_objects; [done|done|done|lia|done|lia|].
    intros rs Hp Hlaid. apply wp_bind, wp_b_free_set; [rewrite placed_free; lia|]. rewrite placed_free.
    apply wp_b_free_set; [rewrite b_free_set, length_insert; lia|]. rewrite b_free_set. apply HQ.
    exists pre, r, [], start, rs. split_and!; try done. cbn [app].
    rewrite b_free_twice. f_equal. rewrite Hf', insert_app_r_alt by lia.
    replace (_ - _)%nat with 1%nat by lia. cbn [insert list_insert]. rewrite insert_app_r_alt by lia.
    by replace (_ - _)%nat with 0%nat by lia.
  - apply wp_bind, wp_b_free_set; [lia|]. apply wp_bind, wp_b_free_set; [rewrite b_free_set, length_insert; lia|].
    rewrite b_free_set, b_free_twice. apply Exists_app in Hex as [Hex|Hex].
    2: { apply Exists_cons in Hex as [Hex|Hex]; [done|by apply Exists_nil in Hex]. }
    assert (<[Z.to_nat (Z.of_nat (length pre)):=empty]> (<[Z.to_nat (Z.of_nat (length pre) + 1):=r]> (b_free s)) =
      pre ++ empty :: r :: post) as ->.
    { rewrite Hf', insert_app_r_alt by lia. replace (_ - _)%nat with 1%nat by lia. cbn [insert list_insert].
      rewrite insert_app_r_alt by lia. by replace (_ - _)%nat with 0%nat by lia. }
    rewrite length_app in Hfuel. cbn [length] in Hfuel.
    apply (IH pre (r :: post)); [done|rewrite b_free_set, length_app; cbn; lia|lia|done|done|done|].
    intros s' (pre1 & r1 & pre2 & start & rs & -> & H1 & H2 & H3 & H4 & ->). apply HQ.
    exists pre1, r1, (pre2 ++ [r]), start, rs. split_and!; try done; [by rewrite <- app_assoc|].
    rewrite b_free_placed. f_equal. rewrite <- app_assoc. done.
Qed.

Lemma wp_skip_empty fuel : forall k m ins s (Q : Z -> boot_t -> Prop),
  b_free s = ins ++ replicate m empty -> length (b_free s) = 16%nat -> (k <= m)%nat -> (k < fuel)%nat ->
  Forall proper ins -> Q (wsub (Z.of_nat (length ins)) 1) s ->
  wp (skip_empty fuel (wsub (Z.of_nat (length ins + k)) 1)) Q s.
Proof.
  induction fuel as [|fuel IH]; intros k m ins s Q Hf Hl Hk Hfuel Hall HQ; [lia|]. cbn [skip_empty].
  pose proof Hl as Hlen. rewrite Hf, length_app, length_replicate in Hlen.
  case_bool_decide as Ei.
  - destruct k as [|k]; [|rewrite wsub_small in Ei by (unfold is_word; lia); unfold wmax in Ei; lia].
    rewrite Nat.add_0_r in Ei |- *. by apply wp_ret.
  - destruct (decide (length ins + k = 0)%nat) as [E0|Hnz]; [by rewrite E0 in Ei|].
    assert (wsub (Z.of_nat (length ins + k)) 1 = Z.of_nat (length ins + k - 1)) as ->
      by (rewrite wsub_small by (unfold is_word; lia); lia).
    destruct k as [|k].
    + destruct ins as [|r ins _] using rev_ind; [done|]. rewrite length_app in *. cbn [length] in *.
      apply wp_bind, (wp_b_free_get _ r); [lia| |].
      { rewrite Hf, <- app_assoc, lookup_app_r by lia. by replace (_ - _)%nat with 0%nat by lia. }
      apply Forall_app in Hall as [_ Hr]. apply Forall_cons in Hr as [[[_ Hr] _] _]. unfold is_reg_empty.
      rewrite bool_decide_false by lia. apply wp_ret. rewrite wsub_small in HQ by (unfold is_word; lia).
      by replace (Z.of_nat (length ins + 1 + 0 - 1)) with (Z.of_nat (length ins + 1) - 1) by lia.
    + apply wp_bind, (wp_b_free_get _ empty); [lia| |].
      { rewrite Hf, lookup_app_r by lia. apply lookup_replicate. split; [done|lia]. }
      change (is_reg_empty empty) with true. cbn iota.
      replace (length ins + S k - 1)%nat with (length ins + k)%nat by lia.
      eapply IH; [exact Hf|done|lia|lia|done|done].
Qed.

End place.

(** Taking the objects out of one of the regions. *)
Lemma covers_cut (pre1 pre2 post : list region_t) (r : region_t) (a e x : Z) :
  rg_start r <= a -> a <= e -> e <= rg_end r ->
  (forall r', r' ∈ pre1 ++ pre2 ++ post -> in_region r' x -> ~ in_region r x) ->
  (exists r', r' ∈ pre1 ++ Region (rg_start r) a :: Region e (rg_end r) :: pre2 ++ post /\ in_region r' x) <->
  (exists r', r' ∈ pre1 ++ r :: pre2 ++ post /\ in_region r' x) /\ ~ a <= x < e.
Proof.
  unfold in_region. intros Ha Hae He Hsep. split.
  - intros (r' & Hin & Hr). rewrite elem_of_app, !elem_of_cons in Hin.
    destruct Hin as [Hin|[->|[->|Hin]]]; cbn in Hr.
    + split; [exists r'; split; [set_solver|done]|]. specialize (Hsep r' ltac:(set_solver) Hr). lia.
    + split; [exists r; split; [set_solver|lia]|lia].
    + split; [exists r; split; [set_solver|lia]|lia].
    + split; [exists r'; split; [set_solver|done]|]. specialize (Hsep r' ltac:(set_solver) Hr). lia.
  - intros ((r' & Hin & Hr) & Hx'). rewrite elem_of_app, elem_of_cons in Hin.
    destruct Hin as [Hin|[->|Hin]]; [exists r'; split; [set_solver|done]| |exists r'; split; [set_solver|done]].
    destruct (decide (x < a)); [exists (Region (rg_start r) a)|exists (Region e (rg_end r))]; cbn; (split; [set_solver|lia]).
Qed.
Lemma covers_empty (pre1 pre2 post : list region_t) (r : region_t) (x : Z) :
  (exists r', r' ∈ pre1 ++ r :: pre2 ++ Region 0 0 :: post /\ in_region r' x) <->
  (exists r', r' ∈ pre1 ++ r :: pre2 ++ post /\ in_region r' x).
Proof.
  unfold in_region. split; intros (r' & Hin & Hr'); exists r'; (split; [|done]); [|set_solver].
  rewrite elem_of_app, elem_of_cons, elem_of_app, elem_of_cons in Hin.
  destruct Hin as [?|[?|[?|[->|?]]]]; [set_solver..|cbn in Hr'; lia|set_solver].
Qed.
Lemma apart_split (pre1 pre2 : list region_t) (r r' : region_t) (x : Z) :
  apart (pre1 ++ r :: pre2) -> r' ∈ pre1 ++ pre2 -> in_region r' x -> ~ in_region r x.
Proof.
  unfold in_region. intros Hap Hin Hr' Hr. apply elem_of_app in Hin as [Hin|Hin]; apply list_elem_of_lookup in Hin as [j Hj].
  - pose proof (lookup_lt_Some _ _ _ Hj). destruct (Hap j (length pre1) r' r) as [?|?]; [| |lia|lia|lia].
    + by rewrite lookup_app_l by lia.
    + rewrite lookup_app_r by lia. by rewrite Nat.sub_diag.
  - destruct (Hap (length pre1 + S j)%nat (length pre1) r' r) as [?|?]; [| |lia|lia|lia].
    + rewrite lookup_app_r by lia. by replace (_ - _)%nat with (S j) by lia.
    + rewrite lookup_app_r by lia. by rewrite Nat.sub_diag.
Qed.

(** ** The memory of the root server *)
Section init.
Implicit Types (it : region_t) (s : boot_t) (start extra x : Z).
Abbreviation free_in := (fun s => free_covers (kw_mm (b_kw s))).

Lemma free_in_alt s x : free_in s x <-> exists r, r ∈ b_free s /\ in_region r x.
Proof. done. Qed.

(** C16: [root_server_mem_init] finds room for the objects of the first thread
    whenever one of the free regions has it: the node, the address space, the
    pool, the buffers, the tables and the TCB follow each other without a gap,
    each aligned to its size, inside one free region; exactly their bytes are
    free no longer, and nothing else of the state changes. *)
Theorem root_server_mem_init_splits it extra s ins :
  extra_ok extra -> paging_ok it -> rs_extra_bi (rootserver s) = 0 ->
  (length ins <= 15)%nat -> b_free s = ins ++ replicate (16 - length ins) (Region 0 0) ->
  Forall proper ins -> apart ins ->
  Exists (fits (calculate_rootserver_size it extra) (rootserver_max_size_bits extra)) ins ->
  wp (root_server_mem_init it extra) (fun _ s' =>
    exists r start free' rs, r ∈ ins /\ rg_start r <= start /\
      let end_ := start + calculate_rootserver_size it extra in
      end_ <= rg_end r /\ laid_out start (rootserver_objects rs extra (arch_get_n_paging it)) end_ /\
      rs_paging rs = Region (rg_start (rs_paging rs)) (rg_start (rs_paging rs) + arch_get_n_paging it * 2 ^ 12) /\
      s' = set_b_free free' (placed rs end_ s) /\
      forall x, free_in s' x <-> free_in s x /\ ~ start <= x < end_) s.
Proof.
  intros Hx Hn Hz Hlen Hf Hall Hap Hex.
  assert (length (b_free s) = 16%nat) as Hl by (rewrite Hf, length_app, length_replicate; lia).
  unfold root_server_mem_init. apply wp_bind, wp_gets. fold (b_free s). rewrite Hl.
  replace (Z.of_nat 16) with (Z.of_nat (length ins + (16 - length ins))) by lia.
  apply wp_bind. eapply (wp_skip_empty 17 (16 - length ins)); [exact Hf|done|lia|lia|done|].
  assert (b_free s = ins ++ Region 0 0 :: replicate (15 - length ins) (Region 0 0)) as Hf'.
  { rewrite Hf. by replace (16 - length ins)%nat with (S (15 - length ins)) by lia. }
  eapply (wp_place it extra Hx Hn 17); [exact Hf'|done|lia|done|done|done|].
  intros s' (pre1 & r & pre2 & start & rs & -> & Hlo & Hhi & Hp & Hlaid & ->).
  eexists r, start, _, rs. split; [set_solver|]. split; [exact Hlo|]. split; [exact Hhi|]. split; [exact Hlaid|].
  split; [exact Hp|]. split; [reflexivity|]. intros x. rewrite <- app_assoc in Hf'. cbn [app] in Hf'.
  rewrite !free_in_alt, b_free_set, Hf', covers_empty.
  apply covers_cut; [done|pose proof (size_bound it extra Hx Hn); lia|done|].
  intros r' Hin Hr'. rewrite (assoc_L (++)) in Hin. apply elem_of_app in Hin as [Hin|Hin]; [by eapply apart_split|].
  apply elem_of_replicate in Hin as [-> _]. unfold in_region in Hr'. cbn in Hr'. lia.
Qed.
End init.

(** An instance: two free regions, of which only the first has room. *)
Definition w_ins : list region_t :=
  [Region (PPTR_BASE + 0x40000000) (PPTR_BASE + 0x48001000);
   Region (PPTR_BASE + 0x50000000) (PPTR_BASE + 0x50003000)].
Definition w_place : boot_t :=
  set_b_free (w_ins ++ replicate 14 (Region 0 0))
    (Boot kst_empty (Kw kpt_init mm_init) ∅ 0 0 (Region 0 0) rootserver_init 0).
Definition w_it : region_t := Region 0x400000 0x600000.

Lemma root_server_mem_init_splits_witness :
  arch_get_n_paging w_it = 3 /\
  wp (root_server_mem_init w_it 13) (fun _ s' =>
    exists r start free' rs, r ∈ w_ins /\ rg_start r <= start /\
      let end_ := start + calculate_rootserver_size w_it 13 in
      end_ <= rg_end r /\ laid_out start (rootserver_objects rs 13 (arch_get_n_paging w_it)) end_ /\
      rs_paging rs = Region (rg_start (rs_paging rs)) (rg_start (rs_paging rs) + arch_get_n_paging w_it * 2 ^ 12) /\
      s' = set_b_free free' (placed rs end_ w_place) /\
      forall x, free_covers (kw_mm (b_kw s')) x <-> free_covers (kw_mm (b_kw w_place)) x /\ ~ start <= x < end_) w_place.
Proof.
  split; [vm_compute; reflexivity|]. apply (root_server_mem_init_splits w_it 13 w_place w_ins).
  - right. lia.
  - unfold paging_ok. by_decide.
  - reflexivity.
  - cbn. lia.
  - reflexivity.
  - unfold proper. apply Forall_cons. split; [by_decide|]. apply Forall_cons. split; [by_decide|constructor].
  - intros [|[|i]] [|[|j]] r r' Hi Hj Hij; try done; cbn in Hi, Hj; simplify_eq; by_decide.
  - unfold fits. apply Exists_cons_hd. by_decide.
Defined.

(** ** The device tree in the boot information *)
Section bootinfo.
Implicit Types (s : boot_t) (p n i addr x : Z).
Abbreviation mem_at := (fun s => k_mem (b_k s)).

(** The words [p] to [p + n] can be read and written. *)
Definition words_at s p n : Prop := forall a, p <= a < p + n -> is_Some (mem_at s !! (8 * (a / 8))).
(** The state after a write to memory. *)
Definition with_mem (m : gmap Z Z) s : boot_t := set_b_k (set_k_mem m (b_k s)) s.

Lemma some_insert (m : gmap Z Z) i v a : is_Some (m !! a) -> is_Some (<[i := v]> m !! a).
Proof. intros Ha. destruct (decide (i = a)) as [->|?]; [rewrite lookup_insert_eq; by eexists|by rewrite lookup_insert_ne]. Qed.

Lemma wp_header s p h (Q : unit -> boot_t -> Prop) :
  is_Some (mem_at s !! p) -> is_Some (mem_at s !! (p + 8)) -> is_word (p + 8) ->
  Q tt (with_mem (<[p + 8 := bih_len h]> (<[p := bih_id h]> (mem_at s))) s) ->
  wp (on_k (write_header p h)) Q s.
Proof.
  intros Hp Hp8 Hw HQ. apply wp_zoom. unfold write_header. rewrite wadd_small by done.
  apply wp_bind, wp_word_set; [done|]. apply wp_word_set; [|exact HQ].
  by apply some_insert.
Qed.

Lemma words_at_dom s m p n :
  (forall a, is_Some (mem_at s !! a) -> is_Some (m !! a)) -> words_at s p n -> words_at (with_mem m s) p n.
Proof. intros Hm Hs a Ha. by apply Hm, Hs. Qed.

(** Copying bytes changes no word outside the destination. *)
Lemma wp_copy_bytes dst src n s (Q : unit -> boot_t -> Prop) :
  0 <= n -> words_at s dst n -> words_at s src n ->
  (forall m, (forall a, is_Some (m !! a) <-> is_Some (mem_at s !! a)) ->
    (forall a, a < 8 * (dst / 8) -> m !! a = mem_at s !! a) -> Q tt (with_mem m s)) ->
  wp (on_k (copy_bytes dst src n)) Q s.
Proof.
  intros Hn Hd Hs HQ. apply wp_zoom. unfold copy_bytes.
  apply (wp_for_range (fun _ (s' : kst) => exists m, s' = set_k_mem m (b_k s) /\
    (forall a, is_Some (m !! a) <-> is_Some (mem_at s !! a)) /\
    (forall a, a < 8 * (dst / 8) -> m !! a = mem_at s !! a))).
  - exists (mem_at s). split; [by destruct s as [[]]|done].
  - intros i t Hi (m & -> & Hdom & Hlow).
    assert (is_Some (m !! (8 * ((src + i) / 8)))) as [w Hw] by (apply Hdom, Hs; lia).
    assert (is_Some (m !! (8 * ((dst + i) / 8)))) as [v Hv] by (apply Hdom, Hd; lia).
    apply wp_bind, wp_bind, (wp_word_get _ _ w); [exact Hw|]. apply wp_ret. unfold byte_set, pte_mod. apply wp_zoom.
    eapply wp_store_with; [exact Hv|]. eexists. split; [reflexivity|]. split.
    + intros a. rewrite <- Hdom. destruct (decide (a = 8 * ((dst + i) / 8))) as [->|Hne].
      * rewrite lookup_insert_eq, Hv. by split; eexists.
      * by rewrite lookup_insert_ne by done.
    + intros a Ha. pose proof (Z.div_le_mono dst (dst + i) 8 ltac:(lia) ltac:(lia)).
      rewrite lookup_insert_ne by lia. by apply Hlow.
  - intros t (m & -> & Hdom & Hlow). by apply HQ.
Qed.

(** C37: the kernel hands the device tree to the first thread behind a header
    in the extra boot information, and then writes the header of the padding
    over the first sixteen bytes of the device tree, because the offset is not
    moved past it: whatever the tree is, its first two words become the
    padding's identifier and the tree's own size. *)
Theorem init_bootinfo_overwrites_dtb s n addr p reg extra_bi_size :
  init_dtb n addr 0 = Some (reg, extra_bi_size) ->
  rs_extra_bi (rootserver s) = p -> p `mod` 8 = 0 -> 0 < p -> 16 <= n -> p + 16 + n < 2 ^ 64 ->
  words_at s p (16 + n) -> words_at s (paddr_to_pptr addr) n ->
  wp (init_bootinfo n addr extra_bi_size) (fun _ s' =>
    mem_at s' !! p = Some SEL4_BOOTINFO_HEADER_FDT /\ mem_at s' !! (p + 8) = Some (16 + n) /\
    mem_at s' !! (p + 16) = Some SEL4_BOOTINFO_HEADER_PADDING /\ mem_at s' !! (p + 24) = Some n) s.
Proof.
  intros Hdtb Hp Hal H0 Hn Hlt Hd Hs.
  assert (extra_bi_size = 16 + n) as ->.
  { unfold init_dtb in Hdtb. rewrite bool_decide_true in Hdtb by lia. repeat case_match; simplify_eq.
    change header_size with 16. rewrite (wadd_small 16) by (unfold is_word; lia). apply wrap_id. unfold is_word. lia. }
  assert (forall k, 0 <= k <= 3 -> is_Some (mem_at s !! (p + 8 * k))) as Hk.
  { intros k Hk. specialize (Hd (p + 8 * k) ltac:(lia)). replace (8 * ((p + 8 * k) / 8)) with (p + 8 * k) in Hd; [done|].
    apply Z.div_exact; [lia|]. rewrite Z.mul_comm, Z.mod_add by lia. by rewrite Hal. }
  pose proof (Hk 0 ltac:(lia)) as K0. pose proof (Hk 1 ltac:(lia)) as K1. pose proof (Hk 2 ltac:(lia)) as K2.
  pose proof (Hk 3 ltac:(lia)) as K3. cbn in K0, K1, K2, K3. rewrite Z.add_0_r in K0.
  unfold init_bootinfo. apply wp_bind, wp_gets. rewrite Hp. rewrite bool_decide_true by lia.
  change header_size with 16. rewrite (wadd_small 16) by (unfold is_word; lia). apply wp_bind.
  apply wp_bind, wp_header; [done|done|unfold is_word; lia|]. cbn [bih_id bih_len].
  rewrite (wadd_small p) by (unfold is_word; lia). set (s1 := with_mem _ s).
  assert (forall q k, words_at s q k -> words_at s1 q k) as Hw1.
  { intros q k. apply words_at_dom. intros a Ha. by do 2 apply some_insert. }
  apply wp_bind, wp_copy_bytes; [lia| |by apply Hw1|].
  { apply Hw1. intros a Ha. apply Hd. lia. }
  intros m Hdom Hlow. apply wp_ret. cbn [when]. rewrite bool_decide_true by lia.
  assert (8 * ((p + 16) / 8) = p + 16) as Ep.
  { symmetry. apply Z.div_exact; [lia|]. replace (p + 16) with (p + 2 * 8) by lia. by rewrite Z.mod_add by lia. }
  rewrite Ep in Hlow. rewrite wsub_small by (unfold is_word; lia).
  rewrite (wadd_small p) by (unfold is_word; lia). apply wp_header; [| |unfold is_word; lia|].
  - cbn. apply Hdom. cbn. rewrite !lookup_insert_ne by lia. exact K2.
  - cbn. apply Hdom. cbn. rewrite !lookup_insert_ne by lia. by replace (p + 16 + 8) with (p + 24) by lia.
  - cbn. replace (p + 16 + 8) with (p + 24) by lia. split.
    { rewrite !lookup_insert_ne by lia. rewrite Hlow by lia. cbn. rewrite lookup_insert_ne by lia. by rewrite lookup_insert_eq. }
    split. { rewrite !lookup_insert_ne by lia. rewrite Hlow by lia. cbn. by rewrite lookup_insert_eq. }
    split; [rewrite lookup_insert_ne by lia; by rewrite lookup_insert_eq|].
    rewrite lookup_insert_eq. f_equal. lia.
Qed.
End bootinfo.

(** A tree of sixteen bytes. *)
Definition w_extra : Z := PPTR_BASE + 0x60000000.
Definition w_dtb : Z := 0x48000000.
Definition w_bootinfo : boot_t :=
  Boot (set_k_mem (list_to_map ((fun k => (w_extra + 8 * k, 7)) <$> seqZ 0 4) ∪
                   list_to_map ((fun k => (paddr_to_pptr w_dtb + 8 * k, 9)) <$> seqZ 0 2)) kst_empty)
    (Kw kpt_init mm_init) ∅ 0 0 (Region 0 0) (set_rs_extra_bi w_extra rootserver_init) 0.
(** Aligned words cover the bytes between them. *)
Lemma words_at_aligned s p n :
  p `mod` 8 = 0 -> (forall k, 0 <= k < n -> is_Some (k_mem (b_k s) !! (p + 8 * k))) -> words_at s p (8 * n).
Proof.
  intros Hp Hk a Ha. specialize (Hk ((a - p) / 8)).
  replace (p + 8 * ((a - p) / 8)) with (8 * (a / 8)) in Hk; [apply Hk|]; Z.to_euclidean_division_equations; lia.
Qed.
Lemma w_words p n :
  bool_decide (p `mod` 8 = 0) && forallb (fun k => bool_decide (is_Some (k_mem (b_k w_bootinfo) !! (p + 8 * k)))) (seqZ 0 n) = true ->
  words_at w_bootinfo p (8 * n).
Proof.
  intros [Hp Hk]%andb_prop. apply words_at_aligned; [by apply bool_decide_eq_true in Hp|]. intros k Hin.
  rewrite forallb_forall in Hk. eapply bool_decide_eq_true, Hk, list_elem_of_In, elem_of_seqZ. lia.
Qed.

Lemma init_bootinfo_overwrites_dtb_witness :
  wp (init_bootinfo 16 w_dtb 32) (fun _ s' =>
    k_mem (b_k s') !! w_extra = Some 6 /\ k_mem (b_k s') !! (w_extra + 8) = Some 32 /\
    k_mem (b_k s') !! (w_extra + 16) = Some 0 /\ k_mem (b_k s') !! (w_extra + 24) = Some 16) w_bootinfo.
Proof.
  eapply (init_bootinfo_overwrites_dtb w_bootinfo 16 w_dtb w_extra);
    [vm_compute; reflexivity|reflexivity|by_decide|by_decide|by_decide|by_decide|..].
  - by apply (w_words w_extra 4).
  - by apply (w_words (paddr_to_pptr w_dtb) 2).
Defined.
