(* ===== verification/Trace.v ===== *)
(** * Computations that add to a trace

    The machine's caches and its interrupt controller are seen through what is
    done to them.  [Trace] is the interface of a state with such a record;
    [runs m l] says that [m] returns having added [l] and done nothing else. *)

From stdpp Require Import base numbers list.
From S2P Require Import Prelude.
Local Open Scope Z_scope.

Class Trace (S E : Type) := {
  record : list E -> S -> S;
  record_nil : forall s, record [] s = s;
  record_app : forall l1 l2 s, record l2 (record l1 s) = record (l1 ++ l2) s }.

#[export] Instance list_trace {E} : Trace (list E) E.
Proof. refine {| record := fun l h => h ++ l |}; [apply app_nil_r|intros l1 l2 s; by rewrite (assoc_L app)]. Defined.

Section runs.
Context {S E : Type} {T : Trace S E}.
Implicit Types (m k : ST S unit) (l : list E).

Definition runs m l : Prop := forall s, m s = Ok (tt, record l s).

Lemma runs_skip : runs skip [].
Proof. intros s. by rewrite record_nil. Qed.
Lemma runs_bind m k l1 l2 : runs m l1 -> runs k l2 -> runs (m ;; k) (l1 ++ l2).
Proof. intros Hm Hk s. unfold mbind, st_bind. by rewrite Hm, Hk, record_app. Qed.
Lemma runs_when b m l : runs m l -> runs (when b m) (if b then l else []).
Proof. intros Hm. destruct b; [done|apply runs_skip]. Qed.
Lemma runs_for n lo (body : Z -> ST S unit) f :
  (forall i, lo <= i < lo + Z.of_nat n -> runs (body i) (f i)) ->
  runs (for_range n lo body) (mjoin (f <$> seqZ lo (Z.of_nat n))).
Proof.
  revert lo. induction n as [|n IH]; intros lo Hb; [apply runs_skip|]. cbn [for_range].
  rewrite seqZ_cons by lia. apply runs_bind; [apply Hb; lia|].
  replace (Z.pred (Z.of_nat (Datatypes.S n))) with (Z.of_nat n) by lia. apply IH. intros i Hi. apply Hb. lia.
Qed.
(** A loop whose every round executes one instruction on each of some operands. *)
Lemma runs_for_bind (o : Z -> E) (k lo : Z) (body : Z -> ST S unit) (f : Z -> list Z) : 0 <= k ->
  (forall i, lo <= i < lo + k -> runs (body i) (o <$> f i)) ->
  runs (for_range (Z.to_nat k) lo body) (o <$> (i ← seqZ lo k; f i)).
Proof.
  intros Hk Hb. assert (o <$> (i ← seqZ lo k; f i) = mjoin ((fun i => o <$> f i) <$> seqZ lo (Z.of_nat (Z.to_nat k)))) as ->.
  { rewrite Z2Nat.id by done. induction (seqZ lo k) as [|i l IH]; [done|].
    change (o <$> (f i ++ (l ≫= f)) = (o <$> f i) ++ mjoin ((fun i => o <$> f i) <$> l)). rewrite fmap_app. f_equal. exact IH. }
  apply runs_for. intros i Hi. apply Hb. lia.
Qed.
End runs.
Create HintDb runs.
#[export] Hint Resolve runs_skip : runs.
Ltac runs := repeat first [apply runs_bind | solve [auto with runs]].
