(* ===== verification/Machine.v ===== *)
(** * The machine: caches and the translation caches

    [sel4_vspace/src/arch/aarch64/machine.rs] and the start of a core in
    [kernel/src/arch/aarch64/platform.rs].  The other files record what the
    kernel asks of the machine; here are the instructions that answer.  A
    computation appends the barriers, cache instructions and register writes
    it executes to a trace; the identification registers are the class
    [CpuId]. *)

From stdpp Require Import base numbers list.
From S2P Require Import Prelude Trace Common Cap State Vspace.
Local Open Scope Z_scope.
Local Open Scope krn_scope.

(** ** Instructions *)
Inductive mop : Type :=
| Dsb | Dmb | Isb
| DcCvau (va : Z) | DcCvac (va : Z) | DcIvac (va : Z) | DcCivac (va : Z)
| DcCisw (wsl : Z)                       (** by level, set and way *)
| IcIvau (va : Z) | IcIallu
| TlbiVmalle1 | TlbiAside1 (v : Z) | TlbiVae1 (v : Z)
| MsrTtbr0 (v : Z) | MsrTtbr1 (v : Z) | MsrVbar (v : Z) | MsrTpidr (v : Z) | MsrCntkctl (v : Z).
#[export] Instance mop_eq_dec : EqDecision mop.
Proof. solve_decision. Defined.

(** The cache selection register and the instructions executed. *)
Record cpu_t := Cpu { csselr : Z; ops : list mop }.
Definition emits (l : list mop) (s : cpu_t) : cpu_t := Cpu (csselr s) (ops s ++ l).
#[export] Instance cpu_trace : Trace cpu_t mop.
Proof.
  refine {| record := emits |}.
  - intros []. unfold emits. cbn. by rewrite app_nil_r.
  - intros l1 l2 s. unfold emits. cbn. by rewrite <- (assoc_L app).
Defined.
Definition emit (o : mop) : ST cpu_t unit := modify (emits [o]).
Definition set_csselr (v : Z) (s : cpu_t) : cpu_t := Cpu v (ops s).

(** Identification registers: the cache levels, and the geometry of the cache
    that is selected. *)
Class CpuId := {
  clidr_el1 : Z;
  ccsidr_el1 : Z -> Z;
  id_aa64pfr0_el1 : Z }.

(** ** Barriers and single instructions *)
(* src: sel4_vspace/src/arch/aarch64/machine.rs 34-38 dsb *)
Definition dsb : ST cpu_t unit := emit Dsb.
(* src: sel4_vspace/src/arch/aarch64/machine.rs 41-45 isb *)
Definition isb : ST cpu_t unit := emit Isb.
(* src: sel4_vspace/src/arch/aarch64/machine.rs 111-115 dmb *)
Definition dmb : ST cpu_t unit := emit Dmb.
(* src: sel4_vspace/src/arch/aarch64/machine.rs 6-8 setCurrentKernelVSpaceRoot *)
Definition setCurrentKernelVSpaceRoot (val : Z) : ST cpu_t unit := emit (MsrTtbr1 val).
(* src: sel4_vspace/src/arch/aarch64/machine.rs 11-15 setCurrentUserVSpaceRoot *)
Definition setCurrentUserVSpaceRoot (val : Z) : ST cpu_t unit :=
  emit (MsrTtbr0 val) ;; emit TlbiVmalle1 ;; dsb ;; isb.
(* src: sel4_vspace/src/arch/aarch64/machine.rs 48-57 invalidate_local_tlb_asid *)
Definition invalidate_local_tlb_asid (asid : Z) : ST cpu_t unit :=
  assert_m (bool_decide (asid < wshl 1 16)) ;;
  dsb ;; emit (TlbiAside1 (wshl asid 48)) ;; dsb ;; isb.
(* src: sel4_vspace/src/arch/aarch64/machine.rs 60-67 invalidate_local_tlb_va_asid *)
Definition invalidate_local_tlb_va_asid (mva_plus_asid : Z) : ST cpu_t unit :=
  dsb ;; emit (TlbiVae1 mva_plus_asid) ;; dsb ;; isb.
(* src: sel4_vspace/src/arch/aarch64/machine.rs 306-313 invalidate_local_tlb *)
Definition invalidate_local_tlb : ST cpu_t unit := dsb ;; emit TlbiVmalle1 ;; dsb ;; isb.
(* src: sel4_vspace/src/arch/aarch64/machine.rs 70-75 clean_by_va_pou *)
Definition clean_by_va_pou (vaddr _paddr : Z) : ST cpu_t unit := emit (DcCvau vaddr) ;; dmb.
(* src: sel4_vspace/src/arch/aarch64/machine.rs 78-83 clean_by_va *)
Definition clean_by_va (vaddr _paddr : Z) : ST cpu_t unit := emit (DcCvac vaddr) ;; dmb.
(* src: sel4_vspace/src/arch/aarch64/machine.rs 86-91 invalidate_by_va *)
Definition invalidate_by_va (vaddr _paddr : Z) : ST cpu_t unit := emit (DcIvac vaddr) ;; dmb.
(* src: sel4_vspace/src/arch/aarch64/machine.rs 94-99 clean_inval_by_va *)
Definition clean_inval_by_va (vaddr _paddr : Z) : ST cpu_t unit := emit (DcCivac vaddr) ;; dsb.
(* src: sel4_vspace/src/arch/aarch64/machine.rs 102-108 invalidate_by_va_i *)
Definition invalidate_by_va_i (vaddr _paddr : Z) : ST cpu_t unit := emit (IcIvau vaddr) ;; dsb ;; isb.
(* src: sel4_vspace/src/arch/aarch64/machine.rs 239-244 invalidate_i_pou *)
Definition invalidate_i_pou : ST cpu_t unit := emit IcIallu ;; isb.

(** ** Ranges of addresses *)
(* src: sel4_common/src/sel4_config.rs 122-122 CONFIG_KERNEL_STACK_BITS *)
Definition CONFIG_KERNEL_STACK_BITS : Z := 12.
(* src: sel4_common/src/sel4_config.rs 67-67 L1_CACHE_LINE_SIZE_BITS *)
Definition L1_CACHE_LINE_SIZE_BITS : Z := 6.
(* src: sel4_vspace/src/arch/aarch64/machine.rs 128-130 LINE_START *)
Definition LINE_START (a : Z) : Z := ROUND_DOWN a L1_CACHE_LINE_SIZE_BITS.
(* src: sel4_vspace/src/arch/aarch64/machine.rs 133-135 LINE_INDEX *)
Definition LINE_INDEX (a : Z) : Z := wshr (LINE_START a) L1_CACHE_LINE_SIZE_BITS.

(** The loop that the range operations share: the lines from the one of
    [start] to the one of [end_], with their physical addresses. *)
Definition for_lines (start end_ pstart : Z) (op : Z -> Z -> ST cpu_t unit) : ST cpu_t unit :=
  for_range (Z.to_nat (wadd (LINE_INDEX end_) 1 - LINE_INDEX start)) (LINE_INDEX start) (fun idx =>
    let line := wshl idx L1_CACHE_LINE_SIZE_BITS in
    op line (wsub (wadd pstart line) start)).
(* src: sel4_vspace/src/arch/aarch64/machine.rs 138-143 invalidate_cache_range_i *)
Definition invalidate_cache_range_i (start end_ pstart : Z) : ST cpu_t unit :=
  for_lines start end_ pstart invalidate_by_va_i.
(* src: sel4_vspace/src/arch/aarch64/machine.rs 146-151 clean_cache_range_poc *)
Definition clean_cache_range_poc (start end_ pstart : Z) : ST cpu_t unit :=
  for_lines start end_ pstart clean_by_va.
(* src: sel4_vspace/src/arch/aarch64/machine.rs 154-159 clean_cache_range_pou *)
Definition clean_cache_range_pou (start end_ pstart : Z) : ST cpu_t unit :=
  for_lines start end_ pstart clean_by_va_pou.
(* src: sel4_vspace/src/arch/aarch64/machine.rs 161-161 plat_clean_l2_range *)
Definition plat_clean_l2_range (_pstart _pend : Z) : ST cpu_t unit := skip.
(* src: sel4_vspace/src/arch/aarch64/machine.rs 119-125 clean_cache_range_ram *)
Definition clean_cache_range_ram (start end_ pstart : Z) : ST cpu_t unit :=
  clean_cache_range_poc start end_ pstart ;;
  dsb ;;
  plat_clean_l2_range pstart (wadd pstart (wsub end_ start)).
(* src: sel4_vspace/src/arch/aarch64/machine.rs 194-194 plat_cleanInvalidateL2Range *)
Definition plat_cleanInvalidateL2Range (_start _end : Z) : ST cpu_t unit := skip.
(* src: sel4_vspace/src/arch/aarch64/machine.rs 197-208 clean_invalidate_cache_range_ram *)
Definition clean_invalidate_cache_range_ram (start end_ pstart : Z) : ST cpu_t unit :=
  clean_cache_range_poc start end_ pstart ;;
  dsb ;;
  plat_cleanInvalidateL2Range pstart (wsub (wadd pstart end_) start) ;;
  for_lines start end_ pstart clean_inval_by_va ;;
  dsb.
(* src: sel4_vspace/src/arch/aarch64/machine.rs 210-210 plat_invalidateL2Range *)
Definition plat_invalidateL2Range (_start _end : Z) : ST cpu_t unit := skip.
(* src: sel4_vspace/src/arch/aarch64/machine.rs 213-228 invalidate_cache_range_ram *)
Definition invalidate_cache_range_ram (start end_ pstart : Z) : ST cpu_t unit :=
  when (start <>w LINE_START start) (clean_cache_range_ram start end_ pstart) ;;
  when (wadd end_ 1 <>w LINE_START (wadd end_ 1))
    (let line := LINE_START end_ in
     clean_cache_range_ram line line (wsub (wadd pstart line) start)) ;;
  plat_invalidateL2Range pstart (wsub (wadd pstart end_) start) ;;
  for_lines start end_ pstart invalidate_by_va ;;
  dsb.
(** The instructions of a flush request ([doFlush] records the request). *)
(* src: sel4_vspace/src/arch/aarch64/interface.rs 440-459 doFlush *)
Definition doFlush (invLabel : MessageLabel) (start end_ pstart : Z) : ST cpu_t unit :=
  match invLabel with
  | ARMPageClean_Data | ARMVSpaceClean_Data => clean_cache_range_ram start end_ pstart
  | ARMPageInvalidate_Data | ARMVSpaceInvalidate_Data => invalidate_cache_range_ram start end_ pstart
  | ARMVSpaceCleanInvalidate_Data | ARMPageCleanInvalidate_Data =>
      clean_invalidate_cache_range_ram start end_ pstart
  | ARMPageUnify_Instruction | ARMVSpaceUnify_Instruction =>
      clean_cache_range_pou start end_ pstart ;; dsb ;;
      invalidate_cache_range_i start end_ pstart ;; isb
  | _ => panic
  end.

(** ** Whole caches, by set and way *)
(* src: sel4_vspace/src/arch/aarch64/machine.rs 164-166 loc *)
Definition loc (x : Z) : Z := wshr x 24 &&& MASK 3.
(* src: sel4_vspace/src/arch/aarch64/machine.rs 169-171 ctype *)
Definition ctype (x n : Z) : Z := wshr x (wmul n 3) &&& MASK 3.
(* src: sel4_vspace/src/arch/aarch64/machine.rs 174-176 line_bits *)
Definition line_bits (s : Z) : Z := wadd (s &&& MASK 3) 4.
(* src: sel4_vspace/src/arch/aarch64/machine.rs 179-181 assoc *)
Definition assoc (s : Z) : Z := wadd (wshr s 3 &&& MASK 10) 1.
(* src: sel4_vspace/src/arch/aarch64/machine.rs 184-186 nsets *)
Definition nsets (s : Z) : Z := wadd (wshr s 13 &&& MASK 15) 1.
(* src: sel4_vspace/src/arch/aarch64/machine.rs 188-192 arm_cache_type *)
Inductive arm_cache_type : Type := ARMCacheI | ARMCacheD | ARMCacheID.
(* src: sel4_vspace/src/arch/aarch64/machine.rs 188-192 arm_cache_type *)
Definition arm_cache_type_to_usize (c : arm_cache_type) : Z :=
  match c with ARMCacheI => 1 | ARMCacheD => 2 | ARMCacheID => 3 end.
(** [64 - x.leading_zeros()]: the number of significant bits. *)
Definition bit_length (x : Z) : Z := if x =w 0 then 0 else Z.log2 x + 1.
(* src: sel4_vspace/src/arch/aarch64/machine.rs 273-277 clean_invalidate_by_wsl *)
Definition clean_invalidate_by_wsl (wsl : Z) : ST cpu_t unit := emit (DcCisw wsl).

Section cpu.
Context `{CpuId}.
(* src: sel4_vspace/src/arch/aarch64/machine.rs 297-303 read_clid *)
Definition read_clid : ST cpu_t Z := mret clidr_el1.
(* src: sel4_vspace/src/arch/aarch64/machine.rs 280-294 read_cache_size *)
Definition read_cache_size (level instruction : Z) : ST cpu_t Z :=
  csselr_old ← gets csselr;
  modify (set_csselr (wshl level 1 ||| instruction)) ;;
  sel ← gets csselr;
  modify (set_csselr csselr_old) ;;
  mret (ccsidr_el1 sel).
(** The loop over the ways and sets of a level. *)
Definition for_ways_sets (level lbits assoc_bits assoc nsets : Z) : ST cpu_t unit :=
  for_range (Z.to_nat assoc) 0 (fun w =>
    for_range (Z.to_nat nsets) 0 (fun s =>
      clean_invalidate_by_wsl (wshl w (wsub 32 assoc_bits) ||| wshl s lbits ||| wshl level 1))).
(* src: sel4_vspace/src/arch/aarch64/machine.rs 258-270 clean_invalidate_d_by_level *)
Definition clean_invalidate_d_by_level (l : Z) : ST cpu_t unit :=
  lsize ← read_cache_size l 0;
  let lbits := line_bits lsize in
  let assoc_ := assoc lsize in
  let assoc_bits := bit_length (wsub assoc_ 1) in
  let nsets_ := nsets lsize in
  for_ways_sets l lbits assoc_bits assoc_ nsets_.
(* src: sel4_vspace/src/arch/aarch64/machine.rs 246-255 clean_invalidate_d_poc *)
Definition clean_invalidate_d_poc : ST cpu_t unit :=
  clid ← read_clid;
  for_range (Z.to_nat (loc clid)) 0 (fun l =>
    when (bool_decide (ctype clid l > arm_cache_type_to_usize ARMCacheI)) (clean_invalidate_d_by_level l)).
(* src: sel4_vspace/src/arch/aarch64/machine.rs 230-236 clean_invalidate_l1_caches *)
Definition clean_invalidate_l1_caches : ST cpu_t unit :=
  dsb ;; clean_invalidate_d_poc ;; dsb ;; invalidate_i_pou ;; dsb.

(** ** The platform's copies

    [1 << 3 - 1] is [1 << 2], and so on: the masks are single bits.  The size is read
    from the register that selects. *)
(* src: kernel/src/arch/aarch64/platform.rs 156-165 readCLID *)
Definition readCLID : ST cpu_t Z := mret clidr_el1.
(* src: kernel/src/arch/aarch64/platform.rs 167-189 readCacheSize *)
Definition readCacheSize (level : Z) : ST cpu_t Z :=
  csselr_old ← gets csselr;
  modify (set_csselr (wshl level 1 ||| csselr_old)) ;;
  size ← gets csselr;
  modify (set_csselr csselr_old) ;;
  mret size.
(* src: kernel/src/arch/aarch64/platform.rs 130-148 cleanInvalidate_D_by_level *)
Definition cleanInvalidate_D_by_level (level : Z) : ST cpu_t unit :=
  lsize ← readCacheSize level;
  let lbits := wadd (lsize &&& wshl 1 (3 - 1)) 4 in
  let assoc := wadd (wshr lsize 3 &&& wshl 1 (10 - 1)) 1 in
  let assoc_bits := wsub 64 (64 - bit_length (wsub assoc 1)) in
  let nsets := wadd (wshr lsize 13 &&& wshl 1 (15 - 1)) 1 in
  for_ways_sets level lbits assoc_bits assoc nsets.
(* src: kernel/src/arch/aarch64/platform.rs 119-127 cleanInvalidate_D_PoC *)
Definition cleanInvalidate_D_PoC : ST cpu_t unit :=
  clid ← readCLID;
  let loc := wshr clid 24 &&& wshl 1 (3 - 1) in
  for_range (Z.to_nat loc) 0 (fun l =>
    when (bool_decide (wshr clid (wmul l 3) &&& wsub (wshl 1 3) 1 > 1)) (cleanInvalidate_D_by_level l)).
(* src: kernel/src/arch/aarch64/platform.rs 150-155 invalidate_I_PoU *)
Definition invalidate_I_PoU : ST cpu_t unit := emit IcIallu ;; emit Isb.
(* src: kernel/src/arch/aarch64/platform.rs 101-109 cleanInvalidateL1Caches *)
Definition cleanInvalidateL1Caches : ST cpu_t unit :=
  emit Dsb ;; cleanInvalidate_D_PoC ;; emit Dsb ;; invalidate_I_PoU ;; emit Dsb.
(* src: kernel/src/arch/aarch64/platform.rs 110-117 invalidateLocalTLB *)
Definition invalidateLocalTLB : ST cpu_t unit := emit Dsb ;; emit TlbiVmalle1 ;; emit Dsb ;; emit Isb.

(** ** The start of a core *)
(* src: kernel/src/utils.rs 66-72 setVTable *)
Definition setVTable (addr : Z) : ST cpu_t unit := dsb ;; emit (MsrVbar addr) ;; isb.
(* src: sel4_common/src/sel4_config.rs 124-124 ID_AA64PFR0_EL1_FP *)
Definition ID_AA64PFR0_EL1_FP : Z := 16.
(* src: sel4_common/src/sel4_config.rs 125-125 ID_AA64PFR0_EL1_ASIMD *)
Definition ID_AA64PFR0_EL1_ASIMD : Z := 20.
(* src: kernel/src/utils.rs 76-92 fpsimd_HWCapTest *)
Definition fpsimd_HWCapTest : bool :=
  if (wshr id_aa64pfr0_el1 ID_AA64PFR0_EL1_FP &&& MASK 4 =w MASK 4)
     || (wshr id_aa64pfr0_el1 ID_AA64PFR0_EL1_ASIMD &&& MASK 4 =w MASK 4)
  then false else true.
(* src: kernel/src/arch/aarch64/platform.rs 191-193 armv_init_user_access *)
Definition armv_init_user_access : ST cpu_t unit := emit (MsrCntkctl 0).
(** The instructions of [activate_kernel_vspace]; [Boot.v] has its effect on the
    kernel's own state. *)
(* src: sel4_vspace/src/arch/aarch64/interface.rs 128-140 activate_kernel_vspace *)
Definition activate_kernel_vspace (kernel_base user_base : Z) : ST cpu_t unit :=
  clean_invalidate_l1_caches ;;
  setCurrentKernelVSpaceRoot (ttbr_new 0 (kpptr_to_paddr kernel_base)) ;;
  setCurrentUserVSpaceRoot (ttbr_new 0 (kpptr_to_paddr user_base)) ;;
  invalidate_local_tlb.
(** The interrupt controller ([Gic.v]) and the timer follow the accesses to the
    core's own registers. *)
(* src: kernel/src/arch/aarch64/platform.rs 23-55 init_cpu *)
Definition init_cpu (kernel_base user_base arm_vector_table kernel_stack_alloc : Z)
    (cpu_initLocalIRQController initTimer : ST cpu_t unit) : ST cpu_t bool :=
  activate_kernel_vspace kernel_base user_base ;;
  setVTable arm_vector_table ;;
  let stack_top := wadd kernel_stack_alloc (BIT CONFIG_KERNEL_STACK_BITS) in
  setVTable arm_vector_table ;;
  emit (MsrTpidr stack_top) ;;
  let haveHWFPU := fpsimd_HWCapTest in
  cpu_initLocalIRQController ;;
  armv_init_user_access ;;
  initTimer ;;
  mret true.
End cpu.
