(* ===== verification/MachineProps.v ===== *)
(** * The machine: theorems

    A range operation executes its instruction once for each cache line that
    the range touches, and invalidation writes back the lines that it shares with
    neighbouring data.  [clean_invalidate_d_poc] visits every set and way of
    every data cache exactly once; the platform's copy of it visits none. *)

From stdpp Require Import base numbers list.
From S2P Require Import Prelude Trace Common Cap State Vspace Machine.
Local Open Scope Z_scope.
Local Open Scope krn_scope.

Lemma runs_emit o : runs (emit o) [o].
Proof. done. Qed.
Lemma runs_emits m l s : runs m l -> m s = Ok (tt, emits l s).
Proof. intros Hm. apply Hm. Qed.
#[export] Hint Resolve runs_emit : runs.

(** ** Lines *)
(** The addresses of the lines that a range touches. *)
Definition lines (start end_ : Z) : list Z :=
  (fun i => wshl i 6) <$> seqZ (LINE_INDEX start) (Z.of_nat (Z.to_nat (wadd (LINE_INDEX end_) 1 - LINE_INDEX start))).

Section lines.
Implicit Types (start pstart a v : Z).

Lemma LINE_START_spec a : is_word a -> LINE_START a = a - a `mod` 64.
Proof. intros Ha. unfold LINE_START. by rewrite ROUND_DOWN_spec. Qed.
Lemma LINE_INDEX_spec a : is_word a -> LINE_INDEX a = a / 64.
Proof.
  intros Ha. unfold LINE_INDEX. rewrite LINE_START_spec, wshr_spec by done. change (2 ^ L1_CACHE_LINE_SIZE_BITS) with 64.
  pose proof (Z.div_mod a 64 ltac:(lia)). replace (a - a `mod` 64) with (a / 64 * 64) by lia. by rewrite Z.div_mul.
Qed.

Lemma lines_spec start end_ v : is_word start -> is_word end_ ->
  v ∈ lines start end_ <-> v `mod` 64 = 0 /\ start - start `mod` 64 <= v <= end_.
Proof.
  intros Hs He. unfold lines. rewrite list_elem_of_fmap. rewrite !LINE_INDEX_spec by done. unfold is_word in *.
  rewrite (wadd_small (end_ / 64) 1).
  2: { unfold is_word. pose proof (Z.div_pos end_ 64). assert (end_ / 64 <= end_) by (apply Z.div_le_upper_bound; lia).
       assert (end_ / 64 < 2 ^ 58) by (apply Z.div_lt_upper_bound; lia). lia. }
  assert (forall i, 0 <= i < 2 ^ 58 -> wshl i 6 = i * 64) as Hsh.
  { intros i Hi. rewrite wshl_spec by lia. apply wrap_id. unfold is_word. change (2 ^ 6) with 64. lia. }
  assert (end_ / 64 < 2 ^ 58) by (apply Z.div_lt_upper_bound; lia).
  pose proof (Z.div_pos start 64 ltac:(lia) ltac:(lia)).
  pose proof (Z.div_mod start 64 ltac:(lia)). pose proof (Z.div_mod end_ 64 ltac:(lia)).
  pose proof (Z.mod_pos_bound start 64 ltac:(lia)). pose proof (Z.mod_pos_bound end_ 64 ltac:(lia)).
  split.
  - intros (i & -> & Hi). apply elem_of_seqZ in Hi. rewrite Hsh by lia. rewrite Z.mod_mul by lia. lia.
  - intros (Hm & Hv1 & Hv2). exists (v / 64). pose proof (Z.div_mod v 64 ltac:(lia)).
    rewrite Hsh by lia. split; [lia|]. apply elem_of_seqZ. lia.
Qed.
Lemma lines_NoDup start end_ : is_word start -> is_word end_ -> NoDup (lines start end_).
Proof.
  intros Hs He. unfold lines. apply NoDup_fmap_2_strong; [|apply NoDup_seqZ].
  intros i j Hi%elem_of_seqZ Hj%elem_of_seqZ. rewrite !LINE_INDEX_spec in * by done. unfold is_word in *.
  pose proof (Z.div_pos start 64 ltac:(lia) ltac:(lia)). assert (end_ / 64 < 2 ^ 58) by (apply Z.div_lt_upper_bound; lia).
  pose proof (Z.div_pos end_ 64 ltac:(lia) ltac:(lia)).
  rewrite wadd_small in * by (unfold is_word; lia). rewrite !wshl_spec by lia.
  change (2 ^ 6) with 64. rewrite !wrap_id by (unfold is_word; lia). lia.
Qed.

Lemma runs_lines start end_ pstart op f :
  (forall line p, runs (op line p) (f line)) ->
  runs (for_lines start end_ pstart op) (mjoin (f <$> lines start end_)).
Proof.
  intros Hop. unfold lines. rewrite <- list_fmap_compose. unfold for_lines. apply runs_for. intros i _. apply Hop.
Qed.
End lines.

Lemma runs_clean_poc start end_ pstart :
  runs (clean_cache_range_poc start end_ pstart) (mjoin ((fun v => [DcCvac v; Dmb]) <$> lines start end_)).
Proof. apply runs_lines. intros v p. apply (runs_bind _ _ [_] [_]); done. Qed.
Lemma runs_clean_pou start end_ pstart :
  runs (clean_cache_range_pou start end_ pstart) (mjoin ((fun v => [DcCvau v; Dmb]) <$> lines start end_)).
Proof. apply runs_lines. intros v p. apply (runs_bind _ _ [_] [_]); done. Qed.
Lemma runs_inval_i start end_ pstart :
  runs (invalidate_cache_range_i start end_ pstart) (mjoin ((fun v => [IcIvau v; Dsb; Isb]) <$> lines start end_)).
Proof. apply runs_lines. intros v p. apply (runs_bind _ _ [_] [_;_]), (runs_bind _ _ [_] [_]); done. Qed.
Lemma runs_clean_ram start end_ pstart :
  runs (clean_cache_range_ram start end_ pstart) (mjoin ((fun v => [DcCvac v; Dmb]) <$> lines start end_) ++ [Dsb]).
Proof.
  apply runs_bind; [apply runs_clean_poc|]. rewrite <- (app_nil_r [Dsb]). apply runs_bind; [done|apply runs_skip].
Qed.
#[export] Hint Resolve runs_clean_poc runs_clean_pou runs_inval_i runs_clean_ram : runs.

(** The addresses of the instructions of one kind. *)
Definition addrs (f : mop -> option Z) (l : list mop) : list Z := omap f l.
Definition cvac (o : mop) : option Z := match o with DcCvac v => Some v | _ => None end.
Definition cvau (o : mop) : option Z := match o with DcCvau v => Some v | _ => None end.
Definition civac (o : mop) : option Z := match o with DcCivac v => Some v | _ => None end.
Definition ivac (o : mop) : option Z := match o with DcIvac v => Some v | _ => None end.
Definition ivau (o : mop) : option Z := match o with IcIvau v => Some v | _ => None end.

Lemma addrs_app f l1 l2 : addrs f (l1 ++ l2) = addrs f l1 ++ addrs f l2.
Proof. apply omap_app. Qed.
Lemma addrs_lines f (g : Z -> list mop) l : (forall v, addrs f (g v) = [v]) -> addrs f (mjoin (g <$> l)) = l.
Proof. intros Hg. induction l as [|v l IH]; [done|].
  change (mjoin (g <$> v :: l)) with (g v ++ mjoin (g <$> l)). by rewrite addrs_app, Hg, IH. Qed.
Lemma addrs_none f (g : Z -> list mop) l : (forall v, addrs f (g v) = []) -> addrs f (mjoin (g <$> l)) = [].
Proof. intros Hg. induction l as [|v l IH]; [done|].
  change (mjoin (g <$> v :: l)) with (g v ++ mjoin (g <$> l)). by rewrite addrs_app, Hg, IH. Qed.
Ltac addrs := repeat first [rewrite addrs_app | rewrite addrs_lines by done | rewrite addrs_none by done | rewrite app_nil_r | rewrite app_nil_l].

(** ** Flush requests *)
(** A part of a trace that executes [op] once on each of the lines [l], in this
    order, and nothing else but barriers. *)
Definition barrier (o : mop) : bool := match o with Dsb | Dmb | Isb => true | _ => false end.
Definition sweep (op : Z -> mop) (l : list Z) (t : list mop) : Prop := filter (fun o => barrier o = false) t = op <$> l.
(** The lines of a range of addresses, in ascending order. *)
Definition range_lines (start end_ : Z) : list Z :=
  (fun i => 64 * i) <$> seqZ (start / 64) (end_ / 64 + 1 - start / 64).
(** What each of the eight flush requests has to do; any other one panics. *)
Definition flushed (label : MessageLabel) (start end_ : Z) (s : cpu_t) (r : res (unit * cpu_t)) : Prop :=
  let l := range_lines start end_ in
  match label with
  | ARMPageClean_Data | ARMVSpaceClean_Data => exists t, r = Ok (tt, emits t s) /\ sweep DcCvac l t
  | ARMPageInvalidate_Data | ARMVSpaceInvalidate_Data =>
      exists l1 t1 t2, r = Ok (tt, emits (t1 ++ t2) s) /\ sweep DcCvac l1 t1 /\ sweep DcIvac l t2 /\
        (forall v, v ∈ l1 -> v ∈ l) /\ (forall v, v ∈ l -> v < start \/ end_ < v + 63 -> v ∈ l1)
  | ARMPageCleanInvalidate_Data | ARMVSpaceCleanInvalidate_Data =>
      exists t1 t2, r = Ok (tt, emits (t1 ++ Dsb :: t2) s) /\ sweep DcCvac l t1 /\ sweep DcCivac l t2
  | ARMPageUnify_Instruction | ARMVSpaceUnify_Instruction =>
      exists t1 t2, r = Ok (tt, emits (t1 ++ Dsb :: t2) s) /\ sweep DcCvau l t1 /\ sweep IcIvau l t2
  | _ => r = Panic
  end.

Section flush.
Implicit Types (start pstart a v : Z) (l : list Z) (t : list mop).

Lemma sweep_app op l1 l2 t1 t2 : sweep op l1 t1 -> sweep op l2 t2 -> sweep op (l1 ++ l2) (t1 ++ t2).
Proof. unfold sweep. intros H1 H2. by rewrite filter_app, H1, H2, fmap_app. Qed.
Lemma sweep_barriers op t : Forall (fun o => barrier o = true) t -> sweep op [] t.
Proof.
  unfold sweep. induction 1 as [|o t Ho _ IH]; [done|]. rewrite filter_cons_False; [exact IH|]. by rewrite Ho.
Qed.
Lemma sweep_lines op (g : Z -> list mop) l : (forall v, sweep op [v] (g v)) -> sweep op l (mjoin (g <$> l)).
Proof.
  intros Hg. induction l as [|v l IH]; [done|]. change (mjoin (g <$> v :: l)) with (g v ++ mjoin (g <$> l)).
  apply (sweep_app op [v] l); [apply Hg|exact IH].
Qed.
Lemma sweep_end op l t o : barrier o = true -> sweep op l t -> sweep op l (t ++ [o]).
Proof. intros Ho H. rewrite <- (app_nil_r l). apply sweep_app; [exact H|]. apply sweep_barriers. by constructor. Qed.
Lemma sweep_if op (b : bool) l t : sweep op l t -> sweep op (if b then l else []) (if b then t else []).
Proof. by destruct b. Qed.

Lemma range_lines_eq start end_ : is_word start -> is_word end_ -> start <= end_ -> lines start end_ = range_lines start end_.
Proof.
  unfold is_word. intros Hs He Hle. unfold lines, range_lines. rewrite !LINE_INDEX_spec by done.
  pose proof (Z.div_pos start 64 ltac:(lia) ltac:(lia)). pose proof (Z.div_le_mono start end_ 64 ltac:(lia) Hle).
  assert (end_ / 64 < 2 ^ 58) by (apply Z.div_lt_upper_bound; lia).
  rewrite wadd_small by (unfold is_word; lia). rewrite Z2Nat.id by lia.
  apply list_fmap_ext. intros i x Hx. apply list_elem_of_lookup_2, elem_of_seqZ in Hx.
  rewrite wshl_spec by lia. change (2 ^ 6) with 64. rewrite wrap_id by (unfold is_word; lia). lia.
Qed.
Lemma range_lines_elem start end_ v : is_word start -> is_word end_ -> start <= end_ ->
  v ∈ range_lines start end_ <-> exists a, start <= a <= end_ /\ v = a - a `mod` 64.
Proof.
  intros Hs He Hle. rewrite <- range_lines_eq, lines_spec by done. pose proof (Z.mod_pos_bound start 64 ltac:(lia)). split.
  - intros (Hv & H1 & H2). exists (Z.max start v). split; [lia|].
    pose proof (Z.div_mod start 64 ltac:(lia)). pose proof (Z.div_mod v 64 ltac:(lia)).
    destruct (Z.max_spec start v) as [[_ ->]|[Hge ->]]; lia.
  - intros (a & Ha & ->). pose proof (Z.div_mod a 64 ltac:(lia)). pose proof (Z.mod_pos_bound a 64 ltac:(lia)).
    pose proof (Z.div_mod start 64 ltac:(lia)). pose proof (Z.div_le_mono start a 64 ltac:(lia) ltac:(lia)).
    split; [|lia]. replace (a - a `mod` 64) with (a / 64 * 64) by lia. by apply Z.mod_mul.
Qed.

(** Invalidation, in two parts: the lines that it cleans, and the lines of the
    range. *)
Definition inval_first start : bool := start <>w LINE_START start.
Definition inval_last (end_ : Z) : bool := wadd end_ 1 <>w LINE_START (wadd end_ 1).
Definition inval_cleaned start (end_ : Z) : list Z :=
  (if inval_first start then lines start end_ else []) ++
  (if inval_last end_ then lines (LINE_START end_) (LINE_START end_) else []).
Definition cleans l : list mop := mjoin ((fun v => [DcCvac v; Dmb]) <$> l) ++ [Dsb].
Definition inval_pre start (end_ : Z) : list mop :=
  (if inval_first start then cleans (lines start end_) else []) ++
  (if inval_last end_ then cleans (lines (LINE_START end_) (LINE_START end_)) else []).
Definition inval_post start (end_ : Z) : list mop := mjoin ((fun v => [DcIvac v; Dmb]) <$> lines start end_) ++ [Dsb].

Lemma runs_inval_ram start end_ pstart :
  runs (invalidate_cache_range_ram start end_ pstart) (inval_pre start end_ ++ inval_post start end_).
Proof.
  unfold inval_pre. rewrite <- (assoc_L app). unfold invalidate_cache_range_ram.
  apply runs_bind; [apply runs_when, runs_clean_ram|]. apply runs_bind; [apply runs_when, runs_clean_ram|].
  apply (runs_bind _ _ []); [apply runs_skip|]. apply runs_bind; [|apply runs_emit].
  apply runs_lines. intros v p. apply (runs_bind _ _ [_] [_]); done.
Qed.
Lemma sweep_cleans l : sweep DcCvac l (cleans l).
Proof. by apply sweep_end, sweep_lines. Qed.
Lemma sweep_inval_pre start end_ : sweep DcCvac (inval_cleaned start end_) (inval_pre start end_).
Proof. apply sweep_app; apply sweep_if, sweep_cleans. Qed.
Lemma addrs_inval_pre start end_ : addrs cvac (inval_pre start end_) = inval_cleaned start end_ /\ addrs ivac (inval_pre start end_) = [].
Proof.
  unfold inval_pre, inval_cleaned, cleans. destruct (inval_first start), (inval_last end_); split; by addrs.
Qed.
Lemma LINE_START_word a : is_word a -> is_word (LINE_START a).
Proof.
  intros Ha. rewrite LINE_START_spec by done. unfold is_word in *. pose proof (Z.mod_pos_bound a 64).
  pose proof (Z.mod_le a 64). lia.
Qed.
Lemma last_line end_ v : is_word end_ -> v ∈ lines (LINE_START end_) (LINE_START end_) <-> v = LINE_START end_.
Proof.
  intros He. pose proof (LINE_START_word _ He) as Hw. rewrite lines_spec by done.
  rewrite LINE_START_spec in * by done. pose proof (Z.div_mod end_ 64 ltac:(lia)) as Hd.
  replace (end_ - end_ `mod` 64) with (end_ / 64 * 64) in * by lia. rewrite Z.mod_mul by lia. split; [lia|].
  intros ->. rewrite Z.mod_mul by lia. lia.
Qed.
(** A line that the range covers in part is cleaned, and no line outside. *)
Lemma inval_cleans_partial start end_ v : is_word start -> is_word end_ -> start <= end_ ->
  v ∈ lines start end_ -> v < start \/ end_ < v + 63 -> v ∈ inval_cleaned start end_.
Proof.
  intros Hs He Hle Hin Hout. unfold inval_cleaned. rewrite elem_of_app. pose proof Hin as (Hv & H1 & H2)%lines_spec; [|done..].
  pose proof (Z.div_mod v 64 ltac:(lia)). pose proof (Z.div_mod start 64 ltac:(lia)).
  pose proof (Z.div_mod end_ 64 ltac:(lia)). pose proof (Z.mod_pos_bound start 64 ltac:(lia)).
  pose proof (Z.mod_pos_bound end_ 64 ltac:(lia)). unfold is_word in *.
  destruct (decide (v < start)) as [Hlt|Hge].
  - left. unfold inval_first. rewrite LINE_START_spec, bool_decide_false by (unfold is_word; lia). done.
  - right. assert (v = LINE_START end_) as -> by (rewrite LINE_START_spec by (unfold is_word; lia); lia).
    assert (end_ < wmax) as Hmax.
    { destruct (decide (end_ = wmax)) as [E|]; [|unfold wmax in *; lia]. exfalso.
      rewrite LINE_START_spec, E in Hout by (unfold is_word; lia). change (wmax `mod` 64) with 63 in Hout. unfold wmax in *. lia. }
    unfold inval_last. rewrite wadd_small, (LINE_START_spec (end_ + 1)) by (unfold is_word, wmax in *; lia).
    rewrite bool_decide_false; [by apply last_line|]. intros E. assert ((end_ + 1) `mod` 64 = 0) as E' by lia.
    rewrite LINE_START_spec in Hout by done. pose proof (Z.div_mod (end_ + 1) 64 ltac:(lia)). lia.
Qed.
Lemma inval_cleaned_in start end_ v : is_word start -> is_word end_ -> start <= end_ ->
  v ∈ inval_cleaned start end_ -> v ∈ lines start end_.
Proof.
  intros Hs He Hle. unfold inval_cleaned. intros [Hv|Hv]%elem_of_app.
  - destruct (inval_first start); [done|by apply not_elem_of_nil in Hv].
  - destruct (inval_last end_); [|by apply not_elem_of_nil in Hv]. apply last_line in Hv as ->; [|done].
    apply lines_spec; [done..|]. rewrite LINE_START_spec by done. unfold is_word in *.
    pose proof (Z.div_mod end_ 64 ltac:(lia)). pose proof (Z.mod_pos_bound end_ 64 ltac:(lia)).
    pose proof (Z.div_mod start 64 ltac:(lia)). pose proof (Z.div_le_mono start end_ 64 ltac:(lia) Hle).
    replace (end_ - end_ `mod` 64) with (end_ / 64 * 64) by lia. split; [by apply Z.mod_mul|lia].
Qed.

Lemma flush_clean start end_ pstart s :
  exists t, clean_cache_range_ram start end_ pstart s = Ok (tt, emits t s) /\ sweep DcCvac (lines start end_) t.
Proof. eexists. split; [apply runs_clean_ram|apply sweep_cleans]. Qed.
Lemma flush_clean_inval start end_ pstart s :
  exists t1 t2, clean_invalidate_cache_range_ram start end_ pstart s = Ok (tt, emits (t1 ++ Dsb :: t2) s) /\
    sweep DcCvac (lines start end_) t1 /\ sweep DcCivac (lines start end_) t2.
Proof.
  eexists _, _. split; [|split].
  - apply runs_emits, runs_bind; [apply runs_clean_poc|].
    apply (runs_bind _ _ [Dsb]); [done|]; apply (runs_bind _ _ []); [apply runs_skip|]; apply runs_bind;
      [apply runs_lines; intros v p; apply (runs_bind _ _ [DcCivac v] [Dsb]); done|apply runs_emit].
  - by apply sweep_lines.
  - by apply sweep_end, sweep_lines.
Qed.
Lemma flush_unify start end_ pstart s :
  exists t1 t2, (clean_cache_range_pou start end_ pstart ;; dsb ;; invalidate_cache_range_i start end_ pstart ;; isb) s
      = Ok (tt, emits (t1 ++ Dsb :: t2) s) /\
    sweep DcCvau (lines start end_) t1 /\ sweep IcIvau (lines start end_) t2.
Proof.
  eexists _, _. split; [|split].
  - apply runs_emits, runs_bind; [apply runs_clean_pou|]. apply (runs_bind _ _ [Dsb]); [done|].
    apply runs_bind; [apply runs_inval_i|apply runs_emit].
  - by apply sweep_lines.
  - by apply sweep_end, sweep_lines.
Qed.
End flush.

(** C29: each of the flush requests, of a page or of an address space, executes
    its cache instruction once on every line that contains an address of the
    range, in ascending order, and besides barriers nothing else: cleaning;
    invalidating, after the lines that the range covers only in part are cleaned;
    cleaning every line and then, after a barrier, cleaning and invalidating every
    line; unifying, which cleans every line to the point of unification and then,
    after a barrier, invalidates it in the instruction cache.  Any other label
    panics. *)
Theorem doFlush_lines (start end_ pstart : Z) (label : MessageLabel) (s : cpu_t) :
  is_word start -> is_word end_ -> start <= end_ ->
  (forall v, v ∈ range_lines start end_ <-> exists a, start <= a <= end_ /\ v = a - a `mod` 64) /\
  flushed label start end_ s (doFlush label start end_ pstart s).
Proof.
  intros Hs He Hle. split; [intros v; by apply range_lines_elem|]. unfold flushed. rewrite <- range_lines_eq by done.
  destruct label; try reflexivity; cbn [doFlush];
    first [apply flush_clean | apply flush_clean_inval | apply flush_unify
          | exists (inval_cleaned start end_), (inval_pre start end_), (inval_post start end_);
            split; [apply runs_inval_ram|split; [apply sweep_inval_pre|split; [by apply sweep_end, sweep_lines|split]]];
            intros v; [by apply inval_cleaned_in|by apply inval_cleans_partial]].
Qed.

(** C30: invalidating a range loses no data outside it: the trace is a part
    that only cleans followed by the invalidation of the lines of the range,
    and a line that also holds bytes outside of the range has been cleaned. *)
Theorem invalidate_keeps_neighbours (start end_ pstart : Z) (s : cpu_t) :
  is_word start -> is_word end_ -> start <= end_ ->
  exists t1 t2, invalidate_cache_range_ram start end_ pstart s = Ok (tt, emits (t1 ++ t2) s) /\
    addrs ivac t1 = [] /\ addrs ivac t2 = lines start end_ /\
    forall v a, v ∈ addrs ivac t2 -> v <= a < v + 64 -> ~ start <= a <= end_ -> v ∈ addrs cvac t1.
Proof.
  intros Hs He Hle. destruct (addrs_inval_pre start end_) as [E1 E2].
  assert (addrs ivac (inval_post start end_) = lines start end_) as E3 by (unfold inval_post; by addrs).
  exists (inval_pre start end_), (inval_post start end_). split; [apply runs_emits, runs_inval_ram|].
  split; [exact E2|]. split; [exact E3|]. rewrite E1, E3. intros v a Hv Ha Hout.
  apply inval_cleans_partial; [done..|]. lia.
Qed.

(** ** Every set and way *)
(** The geometry that [ccsidr_el1] reports for the data cache of a level, and
    the condition that set and way fit the operand of the instruction. *)
Section sets.
Context `{CpuId}.
Definition csize (level : Z) : Z := ccsidr_el1 (wshl level 1 ||| 0).
Definition way_bits (level : Z) : Z := bit_length (wsub (assoc (csize level)) 1).
Definition fits (level : Z) : Prop := nsets (csize level) * 2 ^ line_bits (csize level) <= 2 ^ (32 - way_bits level).
Definition wsl_of (level way set : Z) : Z :=
  way * 2 ^ (32 - way_bits level) + set * 2 ^ line_bits (csize level) + level * 2.
(** A set and way of a data or unified cache before the point of coherency. *)
Definition cache_set (level way set : Z) : Prop :=
  0 <= level < loc clidr_el1 /\ 1 < ctype clidr_el1 level /\
  0 <= way < assoc (csize level) /\ 0 <= set < nsets (csize level).

Definition wsls (level : Z) : list Z :=
  way ← seqZ 0 (assoc (csize level)); set ← seqZ 0 (nsets (csize level)); [wsl_of level way set].
Definition all_wsls : list Z :=
  level ← seqZ 0 (loc clidr_el1); if bool_decide (ctype clidr_el1 level > 1) then wsls level else [].

Lemma field_bound x k n : 0 <= n < 64 -> 0 <= k < 64 -> 0 <= wshr x k &&& MASK n < 2 ^ n.
Proof. intros Hn Hk. rewrite MASK_spec, Z.land_ones by lia. apply Z.mod_pos_bound. lia. Qed.
Lemma geometry level : 4 <= line_bits (csize level) <= 11 /\ 1 <= assoc (csize level) <= 1024 /\
  1 <= nsets (csize level) <= 2 ^ 15 /\ 0 <= way_bits level <= 10 /\ assoc (csize level) <= 2 ^ way_bits level.
Proof.
  unfold line_bits, way_bits, assoc, nsets. set (c := csize level).
  pose proof (field_bound c 3 10 ltac:(lia) ltac:(lia)) as H1. pose proof (field_bound c 13 15 ltac:(lia) ltac:(lia)) as H2.
  assert (0 <= c &&& MASK 3 < 2 ^ 3) as H3.
  { rewrite MASK_spec, Z.land_ones by lia. by apply Z.mod_pos_bound. }
  set (x := wshr c 3 &&& MASK 10) in *. rewrite !wadd_small by (unfold is_word; lia).
  rewrite wsub_small by (unfold is_word; lia). replace (x + 1 - 1) with x by lia. unfold bit_length.
  case_bool_decide as E; [rewrite E; lia|]. pose proof (Z.log2_spec x ltac:(lia)).
  assert (Z.log2 x < 10) by (apply Z.log2_lt_pow2; lia). pose proof (Z.log2_nonneg x).
  replace (Z.succ (Z.log2 x)) with (Z.log2 x + 1) in * by lia. lia.
Qed.
Lemma loc_bound : 0 <= loc clidr_el1 <= 7.
Proof. pose proof (field_bound clidr_el1 24 3 ltac:(lia) ltac:(lia)). unfold loc. lia. Qed.

(** The operand packs level, set and way without overlap. *)
Lemma wsl_packs level way set :
  0 <= level <= 6 -> fits level -> 0 <= way < assoc (csize level) -> 0 <= set < nsets (csize level) ->
  wshl way (wsub 32 (way_bits level)) ||| wshl set (line_bits (csize level)) ||| wshl level 1 = wsl_of level way set.
Proof.
  intros Hl Hf Hw Hs. destruct (geometry level) as (HL & HA & HN & HB & HAB). unfold fits, wsl_of in *.
  set (L := line_bits (csize level)) in *. set (B := way_bits level) in *.
  rewrite wsub_small by (unfold is_word; lia). rewrite !wshl_spec by lia.
  assert (0 < 2 ^ L) by lia. assert (set * 2 ^ L < 2 ^ (32 - B)) by nia.
  assert (2 ^ B * 2 ^ (32 - B) = 2 ^ 32) as E32 by (rewrite <- Z.pow_add_r by lia; f_equal; lia).
  assert (0 < 2 ^ (32 - B)) by lia. assert (way * 2 ^ (32 - B) + 2 ^ (32 - B) <= 2 ^ 32) by nia.
  rewrite (wrap_id (way * _)), (wrap_id (set * _)), (wrap_id (level * _)) by (unfold is_word; nia).
  rewrite (lor_add way (set * 2 ^ L) (32 - B)) by lia.
  assert (2 ^ (32 - B) = 2 ^ (32 - B - L) * 2 ^ L) as EL.
  { rewrite <- Z.pow_add_r; [f_equal; lia| |lia]. apply Z.le_0_sub, (Z.pow_le_mono_r_iff 2); lia || nia. }
  replace (way * 2 ^ (32 - B) + set * 2 ^ L) with ((way * 2 ^ (32 - B - L) + set) * 2 ^ L) by (rewrite EL; ring).
  rewrite lor_add; [ring|lia|]. assert (2 ^ 4 <= 2 ^ L) by (apply Z.pow_le_mono_r; lia). lia.
Qed.
Lemma wsl_inj l1 w1 s1 l2 w2 s2 :
  0 <= l1 <= 6 -> 0 <= l2 <= 6 -> fits l1 -> fits l2 ->
  0 <= w1 < assoc (csize l1) -> 0 <= s1 < nsets (csize l1) ->
  0 <= w2 < assoc (csize l2) -> 0 <= s2 < nsets (csize l2) ->
  wsl_of l1 w1 s1 = wsl_of l2 w2 s2 -> l1 = l2 /\ w1 = w2 /\ s1 = s2.
Proof.
  intros Hl1 Hl2 Hf1 Hf2 Hw1 Hs1 Hw2 Hs2 E.
  assert (forall l w s, 0 <= l <= 6 -> wsl_of l w s `mod` 16 = l * 2) as Hmod.
  { intros l w s Hl. destruct (geometry l) as (HL & _ & _ & HB & _). unfold wsl_of.
    replace (2 ^ (32 - way_bits l)) with (2 ^ (28 - way_bits l) * 16)
      by (change 16 with (2 ^ 4); rewrite <- Z.pow_add_r by lia; f_equal; lia).
    replace (2 ^ line_bits (csize l)) with (2 ^ (line_bits (csize l) - 4) * 16)
      by (change 16 with (2 ^ 4); rewrite <- Z.pow_add_r by lia; f_equal; lia).
    rewrite !Z.mul_assoc, (Z.add_comm (_ + _)), <- Z.mul_add_distr_r, Z.mod_add by lia. apply Z.mod_small. lia. }
  assert (l1 = l2) as <- by (pose proof (Hmod l1 w1 s1 Hl1); pose proof (Hmod l2 w2 s2 Hl2); rewrite E in *; lia).
  split; [done|]. unfold wsl_of, fits in *. set (P := 2 ^ (32 - way_bits l1)) in *.
  set (Q := 2 ^ line_bits (csize l1)) in *.
  assert (0 < Q) by (unfold Q; destruct (geometry l1); lia).
  assert (s1 * Q < P /\ s2 * Q < P) as [? ?] by nia.
  destruct (Z.div_mod_unique P w1 w2 (s1 * Q) (s2 * Q)) as [-> Es]; [lia..|nia].
Qed.

Lemma read_size_restores level s : read_cache_size level 0 s = Ok (csize level, s).
Proof. by destruct s. Qed.
Lemma runs_level level : 0 <= level <= 6 -> fits level ->
  runs (clean_invalidate_d_by_level level) (DcCisw <$> wsls level).
Proof.
  intros Hl Hf s. unfold clean_invalidate_d_by_level. unfold mbind at 1, st_bind at 1.
  rewrite read_size_restores. revert s. change (runs (for_ways_sets level (line_bits (csize level)) (way_bits level)
    (assoc (csize level)) (nsets (csize level))) (DcCisw <$> wsls level)).
  destruct (geometry level) as (_ & HA & HN & _). unfold for_ways_sets, wsls.
  apply runs_for_bind; [lia|]. intros w Hw. apply runs_for_bind; [lia|]. intros t Ht.
  rewrite wsl_packs by done. apply runs_emit.
Qed.
Lemma runs_poc : (forall level, 0 <= level < loc clidr_el1 -> fits level) -> runs clean_invalidate_d_poc (DcCisw <$> all_wsls).
Proof.
  intros Hf. unfold clean_invalidate_d_poc. change (read_clid ≫= ?k) with (k clidr_el1). cbv beta.
  pose proof loc_bound. apply runs_for_bind; [lia|]. intros level Hl.
  change (arm_cache_type_to_usize ARMCacheI) with 1. case_bool_decide; [|apply runs_skip].
  apply runs_level; [lia|auto].
Qed.

Lemma wsls_elem level x : x ∈ wsls level <-> exists way set, 0 <= way < assoc (csize level) /\
  0 <= set < nsets (csize level) /\ x = wsl_of level way set.
Proof.
  unfold wsls. setoid_rewrite list_elem_of_bind. setoid_rewrite list_elem_of_bind.
  split.
  - intros (way & (set & ->%list_elem_of_singleton & Hs%elem_of_seqZ) & Hw%elem_of_seqZ). exists way, set. repeat split; lia.
  - intros (way & set & Hw & Hs & ->). exists way. split; [|apply elem_of_seqZ; lia]. exists set.
    split; [by apply list_elem_of_singleton|apply elem_of_seqZ; lia].
Qed.
Lemma all_wsls_elem x : x ∈ all_wsls <-> exists level way set, cache_set level way set /\ x = wsl_of level way set.
Proof.
  unfold all_wsls, cache_set. rewrite list_elem_of_bind. setoid_rewrite elem_of_seqZ. split.
  - intros (level & Hx & Hl). case_bool_decide; [|by apply elem_of_nil in Hx].
    apply wsls_elem in Hx as (way & set & ? & ? & ->). exists level, way, set. split; [|done]. repeat split; lia.
  - intros (level & way & set & (? & ? & ? & ?) & ->). exists level. rewrite bool_decide_true by lia.
    split; [|lia]. apply wsls_elem. by exists way, set.
Qed.
Lemma all_wsls_NoDup : (forall level, 0 <= level < loc clidr_el1 -> fits level) -> NoDup all_wsls.
Proof.
  intros Hf. pose proof loc_bound. unfold all_wsls. apply NoDup_bind; [|intros level Hl%elem_of_seqZ|apply NoDup_seqZ].
  - intros l1 l2 x Hl1%elem_of_seqZ Hl2%elem_of_seqZ.
    do 2 (case_bool_decide; [|by intros ?%elem_of_nil || by intros ? ?%elem_of_nil]).
    rewrite !wsls_elem. intros (w1 & s1 & ? & ? & ->) (w2 & s2 & ? & ? & E).
    eapply wsl_inj in E; [apply E|done || lia || (apply Hf; lia)..].
  - case_bool_decide; [|constructor]. assert (0 <= level <= 6 /\ fits level) as [Hl6 Hfl] by (split; [lia|apply Hf; lia]).
    unfold wsls. apply NoDup_bind; [|intros w Hw%elem_of_seqZ|apply NoDup_seqZ].
    + intros w1 w2 x Hw1%elem_of_seqZ Hw2%elem_of_seqZ (s1 & Hx1 & Hs1%elem_of_seqZ)%list_elem_of_bind
        (s2 & Hx2 & Hs2%elem_of_seqZ)%list_elem_of_bind.
      apply list_elem_of_singleton in Hx1 as ->, Hx2. eapply wsl_inj in Hx2; [apply Hx2|done || lia..].
    + apply NoDup_bind; [|intros; apply NoDup_singleton|apply NoDup_seqZ].
      intros s1 s2 x Hs1%elem_of_seqZ Hs2%elem_of_seqZ ->%list_elem_of_singleton Hx2%list_elem_of_singleton.
      eapply wsl_inj in Hx2; [apply Hx2|done || lia..].
Qed.
End sets.

(** C31: [clean_invalidate_d_poc] cleans and invalidates every set and way of
    every data and unified cache before the point of coherency exactly once,
    and nothing else; the cache selection register is restored. *)
Theorem clean_invalidate_d_poc_all `{CpuId} (s : cpu_t) :
  (forall level, 0 <= level < loc clidr_el1 -> fits level) ->
  exists l, clean_invalidate_d_poc s = Ok (tt, Cpu (csselr s) (ops s ++ (DcCisw <$> l))) /\ NoDup l /\
    forall x, x ∈ l <-> exists level way set, cache_set level way set /\ x = wsl_of level way set.
Proof.
  intros Hf. exists all_wsls. split; [by apply runs_poc|]. split; [by apply all_wsls_NoDup|]. exact all_wsls_elem.
Qed.

(** The boot's copy of it cleans nothing: its mask [1 << 3 - 1] is 4, so a
    machine whose point of coherency is before level four has no levels for
    it, whatever its caches are. *)
Theorem cleanInvalidate_D_PoC_nothing `{CpuId} (s : cpu_t) :
  loc clidr_el1 < 4 ->
  cleanInvalidate_D_PoC s = Ok (tt, s) /\
  cleanInvalidateL1Caches s = Ok (tt, Cpu (csselr s) (ops s ++ [Dsb; Dsb; IcIallu; Isb; Dsb])).
Proof.
  intros Hl. assert (runs cleanInvalidate_D_PoC []) as Hrun.
  { unfold cleanInvalidate_D_PoC. change (readCLID ≫= ?k) with (k clidr_el1). cbv beta.
    assert (wshr clidr_el1 24 &&& wshl 1 (3 - 1) = 0) as ->; [|apply runs_skip].
    unfold loc in Hl. revert Hl. generalize (wshr clidr_el1 24). intros x. change (MASK 3) with (Z.ones 3).
    change (wshl 1 (3 - 1)) with (2 ^ 2). rewrite Z.land_ones by lia. intros Hx.
    apply Z.bits_inj'. intros i Hi. rewrite Z.land_spec, Z.bits_0, Z.pow2_bits_eqb by lia.
    destruct (Z.eqb_spec 2 i) as [<-|]; [|by rewrite andb_false_r]. rewrite andb_true_r.
    rewrite <- (Z.mod_pow2_bits_low x 3 2) by lia. apply Z.bits_above_log2; [apply Z.mod_pos_bound; lia|].
    destruct (decide (x `mod` 2 ^ 3 = 0)) as [->|]; [done|]. apply Z.log2_lt_pow2; [|done].
    pose proof (Z.mod_pos_bound x (2 ^ 3) ltac:(lia)). lia. }
  split; [rewrite Hrun; by destruct s; rewrite record_nil|].
  assert (runs cleanInvalidateL1Caches ([Dsb] ++ [] ++ [Dsb] ++ ([IcIallu] ++ [Isb]) ++ [Dsb])) as Hr by runs.
  apply Hr.
Qed.

(** ** Instances: the caches of a Cortex-A53 (point of coherency 2; 32 KiB of
    four ways, 1 MiB of sixteen) *)
Definition a53 : CpuId := {|
  clidr_el1 := 0x0a200023;
  ccsidr_el1 := fun sel => if sel =w 0 then 0x700fe01a else 0x707fe07a;
  id_aa64pfr0_el1 := 0x2222 |}.
Definition w_cpu : cpu_t := Cpu 3 [].

Lemma doFlush_lines_witness :
  (forall v, v ∈ range_lines 0x1010 0x10ef <-> exists a, 0x1010 <= a <= 0x10ef /\ v = a - a `mod` 64) /\
  flushed ARMVSpaceInvalidate_Data 0x1010 0x10ef w_cpu (doFlush ARMVSpaceInvalidate_Data 0x1010 0x10ef 0x5010 w_cpu).
Proof. apply (doFlush_lines 0x1010 0x10ef 0x5010 ARMVSpaceInvalidate_Data w_cpu); [by_decide..|lia]. Defined.

Lemma invalidate_keeps_neighbours_witness :
  exists t1 t2, invalidate_cache_range_ram 0x1010 0x10ef 0x5010 w_cpu = Ok (tt, emits (t1 ++ t2) w_cpu) /\
    addrs ivac t1 = [] /\ addrs ivac t2 = lines 0x1010 0x10ef /\
    forall v a, v ∈ addrs ivac t2 -> v <= a < v + 64 -> ~ 0x1010 <= a <= 0x10ef -> v ∈ addrs cvac t1.
Proof. apply (invalidate_keeps_neighbours 0x1010 0x10ef 0x5010 w_cpu); [by_decide..|lia]. Defined.

Lemma a53_fits level : 0 <= level < loc (@clidr_el1 a53) -> @fits a53 level.
Proof.
  change (loc (@clidr_el1 a53)) with 2. intros Hl. assert (level = 0 \/ level = 1) as [-> | ->] by lia; vm_compute; discriminate.
Qed.
Lemma clean_invalidate_d_poc_all_witness :
  exists l, @clean_invalidate_d_poc a53 w_cpu = Ok (tt, Cpu 3 ([] ++ (DcCisw <$> l))) /\ NoDup l /\
    forall x, x ∈ l <-> exists level way set, @cache_set a53 level way set /\ x = @wsl_of a53 level way set.
Proof. apply (@clean_invalidate_d_poc_all a53 w_cpu). exact a53_fits. Defined.

Lemma cleanInvalidate_D_PoC_nothing_witness :
  @cleanInvalidate_D_PoC a53 w_cpu = Ok (tt, w_cpu) /\
  @cleanInvalidateL1Caches a53 w_cpu = Ok (tt, Cpu 3 ([] ++ [Dsb; Dsb; IcIallu; Isb; Dsb])).
Proof. apply (@cleanInvalidate_D_PoC_nothing a53 w_cpu). vm_compute. reflexivity. Defined.
