(* ===== verification/Gic.v ===== *)
(** * The interrupt controller

    [kernel/src/arch/aarch64/arm_gic/gic_v2]: the registers of the distributor
    and of the core's interface, their initialisation, and the accesses of the
    interrupt path.  The state is the history of accesses; what a read returns
    is the device's answer to that history. *)

From stdpp Require Import base numbers list.
From S2P Require Import Prelude Trace.
Local Open Scope Z_scope.
Local Open Scope krn_scope.

(** ** The device *)
Inductive gic_access : Type := GRd (reg v : Z) | GWr (reg v : Z).
#[export] Instance gic_access_eq_dec : EqDecision gic_access.
Proof. solve_decision. Defined.
Definition gic_t : Type := list gic_access.
(** The 32-bit value a register returns after a history. *)
Class GicDevice := gic_value : gic_t -> Z -> Z.

Definition reg_write (reg v : Z) : ST gic_t unit := modify (fun h => h ++ [GWr reg v]).
Definition reg_read `{GicDevice} (reg : Z) : ST gic_t Z :=
  v ← gets (fun h => gic_value h reg); modify (fun h => h ++ [GRd reg v]) ;; mret v.
(** A register of an array; the index is checked. *)
Definition reg_at (base len i : Z) : ST gic_t Z :=
  if decide (0 <= i < len) then mret (base + 4 * i) else panic.
(** [for i in (lo..hi).step_by(step)] *)
Definition for_step (lo hi step : Z) (body : Z -> ST gic_t unit) : ST gic_t unit :=
  for_range (Z.to_nat ((hi - lo + step - 1) / step)) 0 (fun j => body (lo + step * j)).

(** ** Constants and registers *)
(* src: kernel/src/arch/aarch64/arm_gic/gic_v2/consts.rs 2-2 GIC_V2_PPTR *)
Definition GIC_V2_PPTR : Z := 0xffffffffffe00000.
(* src: kernel/src/arch/aarch64/arm_gic/gic_v2/consts.rs 3-3 GIC_V2_DISTRIBUTOR_PPTR *)
Definition GIC_V2_DISTRIBUTOR_PPTR : Z := GIC_V2_PPTR + 0x1000.
(* src: kernel/src/arch/aarch64/arm_gic/gic_v2/consts.rs 4-4 GIC_V2_CONTROLLER_PPTR *)
Definition GIC_V2_CONTROLLER_PPTR : Z := GIC_V2_PPTR + 0x2000.
(* src: kernel/src/arch/aarch64/arm_gic/gic_v2/consts.rs 6-6 IRQ_SET_ALL *)
Definition IRQ_SET_ALL : Z := 0xffffffff.
(* src: kernel/src/arch/aarch64/arm_gic/gic_v2/consts.rs 7-7 IRQ_MASK *)
Definition IRQ_MASK : Z := Z.shiftl 1 10 - 1.
(* src: kernel/src/arch/aarch64/arm_gic/gic_v2/consts.rs 8-8 IRQ_NONE *)
Definition IRQ_NONE : Z := 1023.

(** The distributor: offsets, and the lengths of the arrays. *)
Module Dist.
(* src: kernel/src/arch/aarch64/arm_gic/gic_v2/mod.rs 13-13 Gic_Dist_Map_Regs::enable *)
Definition enable : Z := GIC_V2_DISTRIBUTOR_PPTR + 0x0.
(* src: kernel/src/arch/aarch64/arm_gic/gic_v2/mod.rs 14-14 Gic_Dist_Map_Regs::ic_type *)
Definition ic_type : Z := GIC_V2_DISTRIBUTOR_PPTR + 0x4.
(* src: kernel/src/arch/aarch64/arm_gic/gic_v2/mod.rs 17-17 Gic_Dist_Map_Regs::security *)
Definition security : Z -> ST gic_t Z := reg_at (GIC_V2_DISTRIBUTOR_PPTR + 0x80) 0x20.
(* src: kernel/src/arch/aarch64/arm_gic/gic_v2/mod.rs 18-18 Gic_Dist_Map_Regs::enable_set *)
Definition enable_set : Z -> ST gic_t Z := reg_at (GIC_V2_DISTRIBUTOR_PPTR + 0x100) 0x20.
(* src: kernel/src/arch/aarch64/arm_gic/gic_v2/mod.rs 19-19 Gic_Dist_Map_Regs::enable_clr *)
Definition enable_clr : Z -> ST gic_t Z := reg_at (GIC_V2_DISTRIBUTOR_PPTR + 0x180) 0x20.
(* src: kernel/src/arch/aarch64/arm_gic/gic_v2/mod.rs 21-21 Gic_Dist_Map_Regs::pending_clr *)
Definition pending_clr : Z -> ST gic_t Z := reg_at (GIC_V2_DISTRIBUTOR_PPTR + 0x280) 0x20.
(* src: kernel/src/arch/aarch64/arm_gic/gic_v2/mod.rs 24-24 Gic_Dist_Map_Regs::priority *)
Definition priority : Z -> ST gic_t Z := reg_at (GIC_V2_DISTRIBUTOR_PPTR + 0x400) 0xff.
(* src: kernel/src/arch/aarch64/arm_gic/gic_v2/mod.rs 26-26 Gic_Dist_Map_Regs::targets *)
Definition targets : Z -> ST gic_t Z := reg_at (GIC_V2_DISTRIBUTOR_PPTR + 0x800) 0xff.
(* src: kernel/src/arch/aarch64/arm_gic/gic_v2/mod.rs 28-28 Gic_Dist_Map_Regs::config *)
Definition config : Z -> ST gic_t Z := reg_at (GIC_V2_DISTRIBUTOR_PPTR + 0xc00) 0x40.
(* src: kernel/src/arch/aarch64/arm_gic/gic_v2/mod.rs 38-38 Gic_Dist_Map_Regs::sgi_pending_clr *)
Definition sgi_pending_clr : Z -> ST gic_t Z := reg_at (GIC_V2_DISTRIBUTOR_PPTR + 0xf10) 0x4.
End Dist.

(** The interface of the core. *)
Module Iface.
(* src: kernel/src/arch/aarch64/arm_gic/gic_v2/mod.rs 50-50 Gic_Cpu_Iface_Map_Regs::icontrol *)
Definition icontrol : Z := GIC_V2_CONTROLLER_PPTR + 0x0.
(* src: kernel/src/arch/aarch64/arm_gic/gic_v2/mod.rs 51-51 Gic_Cpu_Iface_Map_Regs::pri_msk_c *)
Definition pri_msk_c : Z := GIC_V2_CONTROLLER_PPTR + 0x4.
(* src: kernel/src/arch/aarch64/arm_gic/gic_v2/mod.rs 52-52 Gic_Cpu_Iface_Map_Regs::pb_c *)
Definition pb_c : Z := GIC_V2_CONTROLLER_PPTR + 0x8.
(* src: kernel/src/arch/aarch64/arm_gic/gic_v2/mod.rs 53-53 Gic_Cpu_Iface_Map_Regs::int_ack *)
Definition int_ack : Z := GIC_V2_CONTROLLER_PPTR + 0xc.
(* src: kernel/src/arch/aarch64/arm_gic/gic_v2/mod.rs 54-54 Gic_Cpu_Iface_Map_Regs::eoi *)
Definition eoi : Z := GIC_V2_CONTROLLER_PPTR + 0x10.
End Iface.

Definition set_in (array : Z -> ST gic_t Z) (i v : Z) : ST gic_t unit := r ← array i; reg_write r v.

(** ** Operations *)
(* src: kernel/src/arch/aarch64/arm_gic/gic_v2/gic_v2.rs 38-42 irq_enable *)
Definition irq_enable (irq : Z) : ST gic_t unit :=
  let word := wshr irq 5 in
  let bits := irq &&& 0x1f in
  set_in Dist.enable_set word (Z.shiftl 1 bits).
(* src: kernel/src/arch/aarch64/arm_gic/gic_v2/gic_v2.rs 50-52 ack_irq *)
Definition ack_irq (irq : Z) : ST gic_t unit := reg_write Iface.eoi (irq &&& 0xffffffff).
(* src: kernel/src/arch/aarch64/arm_gic/gic_v2/gic_v2.rs 169-171 TARGET_CPU_ALLINT *)
Definition TARGET_CPU_ALLINT (CPU : Z) : Z :=
  Z.shiftl CPU 0 ||| Z.shiftl CPU 8 ||| Z.shiftl CPU 16 ||| Z.shiftl CPU 24.

Section gic.
Context `{GicDevice}.
(* src: kernel/src/arch/aarch64/arm_gic/gic_v2/gic_v2.rs 45-47 gic_int_ack *)
Definition gic_int_ack : ST gic_t Z := reg_read Iface.int_ack.

(** The loop that completes the interrupts that are active. *)
(* src: kernel/src/arch/aarch64/arm_gic/gic_v2/gic_v2.rs 25-28 cpu_iface_init *)
Fixpoint ack_loop (fuel : nat) (i : Z) : ST gic_t unit :=
  match fuel with
  | O => no_fuel
  | S fuel =>
      if i &&& IRQ_MASK <>w IRQ_NONE then
        reg_write Iface.eoi i ;; i ← reg_read Iface.int_ack; ack_loop fuel i
      else skip
  end.
(* src: kernel/src/arch/aarch64/arm_gic/gic_v2/gic_v2.rs 10-31 cpu_iface_init *)
Definition cpu_iface_init (fuel : nat) : ST gic_t unit :=
  set_in Dist.enable_clr 0 IRQ_SET_ALL ;;
  set_in Dist.pending_clr 0 IRQ_SET_ALL ;;
  set_in Dist.security 0 0 ;;
  set_in Dist.priority 0 0 ;;
  for_step 0 16 4 (fun i => set_in Dist.sgi_pending_clr (Z.shiftr i 2) IRQ_SET_ALL) ;;
  reg_write Iface.icontrol 0 ;;
  reg_write Iface.pri_msk_c 0xf0 ;;
  reg_write Iface.pb_c 0x3 ;;
  i ← reg_read Iface.int_ack;
  ack_loop fuel i ;;
  reg_write Iface.icontrol 1.
(* src: kernel/src/arch/aarch64/arm_gic/gic_v2/gic_v2.rs 33-35 cpu_initLocalIRQController *)
Definition cpu_initLocalIRQController (fuel : nat) : ST gic_t unit := cpu_iface_init fuel.

(** The loop of [infer_cpu_gic_id]: [n] rounds from [i], until a target shows. *)
Fixpoint infer_loop (n : nat) (i target : Z) : ST gic_t Z :=
  match n with
  | O => mret target
  | S n =>
      r ← Dist.targets (Z.shiftr i 2);
      target ← reg_read r;
      let target := target ||| Z.shiftr target 16 in
      let target := target ||| Z.shiftr target 8 in
      if target <>w 0 then mret target else infer_loop n (i + 4) target
  end.
(* src: kernel/src/arch/aarch64/arm_gic/gic_v2/gic_v2.rs 152-167 infer_cpu_gic_id *)
Definition infer_cpu_gic_id (nirqs : Z) : ST gic_t Z :=
  target ← infer_loop (Z.to_nat ((nirqs + 3) / 4)) 0 0;
  let target := if target =w 0 then 1 else target in
  mret (target &&& 0xff).
(* src: kernel/src/arch/aarch64/arm_gic/gic_v2/gic_v2.rs 54-83 dist_init *)
Definition dist_init : ST gic_t unit :=
  t ← reg_read Dist.ic_type;
  let nirqs := 32 * ((t &&& 0x1f) + 1) in
  reg_write Dist.enable 0 ;;
  for_step 0 nirqs 32 (fun i =>
    set_in Dist.enable_clr (Z.shiftr i 5) IRQ_SET_ALL ;;
    set_in Dist.pending_clr (Z.shiftr i 5) IRQ_SET_ALL) ;;
  for_step 32 nirqs 4 (fun i => set_in Dist.priority (Z.shiftr i 2) 0) ;;
  target ← infer_cpu_gic_id nirqs;
  for_step 0 nirqs 4 (fun i => set_in Dist.targets (Z.shiftr i 2) (TARGET_CPU_ALLINT target)) ;;
  for_step 64 nirqs 32 (fun i => set_in Dist.config (Z.shiftr i 5) 0x55555555) ;;
  for_step 0 nirqs 32 (fun i => set_in Dist.security (Z.shiftr i 5) 0) ;;
  reg_write Dist.enable 1.
(* src: kernel/src/arch/aarch64/platform.rs 195-197 initIRQController *)
Definition initIRQController : ST gic_t unit := dist_init.
(* src: kernel/src/arch/aarch64/boot.rs 135-137 init_plat *)
Definition init_plat : ST gic_t unit := initIRQController.
End gic.
