(* ===== verification/GicProps.v ===== *)
(** * The interrupt controller: theorems

    What [dist_init] writes, and for which controllers it does not return;
    the core's interface is enabled once every interrupt that was active is
    completed. *)

From stdpp Require Import base numbers list.
From S2P Require Import Prelude Trace Gic.
Local Open Scope Z_scope.
Local Open Scope krn_scope.

(** ** Accesses *)
Section access.
Context `{GicDevice}.
Implicit Types (h : gic_t) (i v r : Z).

Lemma reg_read_Ok r h : reg_read r h = Ok (gic_value h r, h ++ [GRd r (gic_value h r)]).
Proof. done. Qed.
Lemma runs_write r v : runs (reg_write r v) [GWr r v].
Proof. done. Qed.
Lemma runs_set_in base len i v : 0 <= i < len -> runs (set_in (reg_at base len) i v) [GWr (base + 4 * i) v].
Proof. intros Hi s. unfold set_in, reg_at. by rewrite decide_True. Qed.

(** The numbers a stepped loop visits. *)
Definition steps (lo hi step : Z) : list Z := (fun j => lo + step * j) <$> seqZ 0 (Z.of_nat (Z.to_nat ((hi - lo + step - 1) / step))).
Lemma runs_step lo hi step body f :
  (forall i, i ∈ steps lo hi step -> runs (body i) (f i)) -> runs (for_step lo hi step body) (mjoin (f <$> steps lo hi step)).
Proof.
  intros Hb. unfold steps. rewrite <- list_fmap_compose. apply runs_for. intros i Hi. apply Hb.
  apply list_elem_of_fmap. exists i. split; [done|]. apply elem_of_seqZ. lia.
Qed.
(** They are the multiples of the step in the range. *)
Lemma steps_elem a b k x : 0 < k -> x ∈ steps (k * a) (k * b) k <-> exists q, a <= q < b /\ x = k * q.
Proof.
  intros Hk. unfold steps. rewrite list_elem_of_fmap.
  replace (k * b - k * a + k - 1) with (k - 1 + (b - a) * k) by ring.
  rewrite Z.div_add, Z.div_small by lia. split.
  - intros (j & -> & Hj%elem_of_seqZ). exists (a + j). split; [lia|ring].
  - intros (q & Hq & ->). exists (q - a). split; [ring|]. apply elem_of_seqZ. lia.
Qed.
Lemma elem_mjoin {A} (f : Z -> list A) (l : list Z) x : x ∈ mjoin (f <$> l) <-> exists i, x ∈ f i /\ i ∈ l.
Proof. rewrite list_elem_of_join. setoid_rewrite list_elem_of_fmap. naive_solver. Qed.
End access.
#[export] Hint Resolve runs_write : runs.

(** ** The distributor *)
Definition is_read (a : gic_access) : bool := match a with GRd _ _ => true | GWr _ _ => false end.
Definition ITLines (h : gic_t) `{GicDevice} : Z := gic_value h Dist.ic_type &&& 0x1f.
(** Registers have 32 bits. *)
Definition u32_device (D : GicDevice) : Prop := forall h r, 0 <= gic_value h r < 2 ^ 32.

(** The writes of the initialisation, by interrupt line: line [i] is bit
    [i mod 32] of a word of the bit arrays and byte [i mod 4] of a word of the
    byte arrays.  A register of the configuration holds sixteen lines, two bits
    each ([config_reg]); the code steps through them as if it held thirty-two, so
    that the registers it writes are the ones numbered 2 to [n / 32]. *)
Definition config_reg (i : Z) : Z := GIC_V2_DISTRIBUTOR_PPTR + 0xc00 + 4 * (i / 16).
Inductive init_write (n target : Z) : Z -> Z -> Prop :=
| iw_disable i : 0 <= i < n -> init_write n target (GIC_V2_DISTRIBUTOR_PPTR + 0x180 + 4 * (i / 32)) IRQ_SET_ALL
| iw_unpend i : 0 <= i < n -> init_write n target (GIC_V2_DISTRIBUTOR_PPTR + 0x280 + 4 * (i / 32)) IRQ_SET_ALL
| iw_priority i : 32 <= i < n -> init_write n target (GIC_V2_DISTRIBUTOR_PPTR + 0x400 + 4 * (i / 4)) 0
| iw_target i : 0 <= i < n -> init_write n target (GIC_V2_DISTRIBUTOR_PPTR + 0x800 + 4 * (i / 4)) (TARGET_CPU_ALLINT target)
| iw_config q : 2 <= q < n / 32 -> init_write n target (GIC_V2_DISTRIBUTOR_PPTR + 0xc00 + 4 * q) 0x55555555
| iw_security i : 0 <= i < n -> init_write n target (GIC_V2_DISTRIBUTOR_PPTR + 0x80 + 4 * (i / 32)) 0.

Section dist.
Context {D : GicDevice}.
Implicit Types (h : gic_t) (i k m : Z).

(** A loop over the words of an array: one write per word. *)
Lemma shiftr_step q k : 0 <= k -> Z.shiftr (2 ^ k * q) k = q.
Proof. intros Hk. rewrite Z.shiftr_div_pow2, Z.mul_comm by done. apply Z.div_mul. lia. Qed.
Definition words (k base a b v : Z) : list gic_access :=
  mjoin ((fun i => [GWr (base + 4 * Z.shiftr i k) v]) <$> steps (2 ^ k * a) (2 ^ k * b) (2 ^ k)).
Lemma runs_words k base len a b v : 0 <= k -> 0 <= a -> b <= len ->
  runs (for_step (2 ^ k * a) (2 ^ k * b) (2 ^ k) (fun i => set_in (reg_at base len) (Z.shiftr i k) v))
    (words k base a b v).
Proof.
  intros Hk Ha Hb. apply runs_step. intros i (q & Hq & ->)%steps_elem; [|lia]. apply runs_set_in.
  rewrite shiftr_step by done. lia.
Qed.
(** The writes of such a loop, by interrupt line. *)
Lemma words_elem k base a b v r w : 0 <= k ->
  GWr r w ∈ words k base a b v <->
  exists i, 2 ^ k * a <= i < 2 ^ k * b /\ r = base + 4 * (i / 2 ^ k) /\ w = v.
Proof.
  intros Hk. unfold words. rewrite elem_mjoin. assert (0 < 2 ^ k) by lia. split.
  - intros (i & Hi%list_elem_of_singleton & (q & Hq & ->)%steps_elem); [|done]. injection Hi as -> ->.
    exists (2 ^ k * q). rewrite shiftr_step by done. rewrite (Z.mul_comm _ q), Z.div_mul by lia. split; [nia|done].
  - intros (i & Hi & -> & ->). exists (2 ^ k * (i / 2 ^ k)). rewrite shiftr_step by done. split; [by apply list_elem_of_singleton|].
    apply steps_elem; [done|]. exists (i / 2 ^ k). split; [|done].
    split; [apply Z.div_le_lower_bound; lia|apply Z.div_lt_upper_bound; lia].
Qed.

Lemma nonzero_byte t : 0 < t < 2 ^ 32 -> let x := t ||| Z.shiftr t 16 in (x ||| Z.shiftr x 8) &&& 0xff <> 0.
Proof.
  intros Ht x E. assert (t = 0); [|lia]. apply Z.bits_inj'. intros i Hi. rewrite Z.bits_0.
  destruct (decide (i < 32)) as [Hlt|].
  - assert (forall j, 0 <= j < 8 -> Z.testbit t j = false /\ Z.testbit t (j + 16) = false /\
      Z.testbit t (j + 8) = false /\ Z.testbit t (j + 24) = false) as Hj.
    { intros j Hj. assert (Z.testbit ((x ||| Z.shiftr x 8) &&& 0xff) j = false) as Eb by (by rewrite E, Z.bits_0).
      unfold x in Eb. change 0xff with (Z.ones 8) in Eb. rewrite Z.land_spec, Z.ones_spec_low in Eb by lia.
      rewrite andb_true_r, !Z.lor_spec, !Z.shiftr_spec, Z.lor_spec, Z.shiftr_spec in Eb by lia.
      replace (j + 8 + 16) with (j + 24) in Eb by lia. apply orb_false_iff in Eb as [[? ?]%orb_false_iff [? ?]%orb_false_iff]. done. }
    assert (i < 8 \/ 8 <= i < 16 \/ 16 <= i < 24 \/ 24 <= i < 32) as [H|[H|[H|H]]] by lia.
    + apply (Hj i). lia.
    + replace i with (i - 8 + 8) by lia. apply (Hj (i - 8)). lia.
    + replace i with (i - 16 + 16) by lia. apply (Hj (i - 16)). lia.
    + replace i with (i - 24 + 24) by lia. apply (Hj (i - 24)). lia.
  - rewrite <- (Z.mod_small t (2 ^ 32)) by lia. apply Z.mod_pow2_bits_high. lia.
Qed.

(** The core's number is read from the target registers and is a byte that is not zero. *)
Lemma wp_infer_loop n q t0 h : u32_device D -> (t0 = 0 \/ t0 &&& 0xff <> 0) -> 0 <= q -> q + Z.of_nat n <= 0xff ->
  wp (infer_loop n (4 * q) t0) (fun t h' => (t = 0 \/ t &&& 0xff <> 0) /\
    exists l, h' = h ++ l /\ Forall is_read l) h.
Proof.
  intros HD. revert q t0 h. induction n as [|n IH]; intros q t0 h Ht Hq Hle.
  - apply wp_ret. split; [done|]. exists []. by rewrite app_nil_r.
  - cbn [infer_loop]. unfold Dist.targets, reg_at.
    change (Z.shiftr (4 * q) 2) with (Z.shiftr (2 ^ 2 * q) 2). rewrite shiftr_step by done. rewrite decide_True by lia.
    apply wp_bind, wp_ret, wp_bind. eapply wp_intro; [apply reg_read_Ok|].
    set (r := GIC_V2_DISTRIBUTOR_PPTR + 0x800 + 4 * q). set (v := gic_value h r).
    pose proof (HD h r) as Hv. fold v in Hv. cbv zeta. set (x := v ||| Z.shiftr v 16).
    assert (x ||| Z.shiftr x 8 = 0 \/ (x ||| Z.shiftr x 8) &&& 0xff <> 0) as Hx.
    { destruct (decide (v = 0)) as [E|]; [left; unfold x; by rewrite E|right; apply nonzero_byte; lia]. }
    case_bool_decide as E; cbn [negb].
    + replace (4 * q + 4) with (4 * (q + 1)) by lia. eapply wp_mono; [apply IH; [by left|lia..]|].
      intros t h' (Ht' & l & -> & Hl). split; [done|]. exists (GRd r v :: l). rewrite <- (assoc_L app).
      split; [done|by constructor].
    + apply wp_ret. split; [destruct Hx; [done|by right]|]. exists [GRd r v]. split; [done|]. by repeat constructor.
Qed.
Lemma wp_infer m h : u32_device D -> 0 <= m <= 0xff ->
  wp (infer_cpu_gic_id (4 * m)) (fun t h' => 0 < t < 256 /\ exists l, h' = h ++ l /\ Forall is_read l) h.
Proof.
  intros HD Hm. unfold infer_cpu_gic_id. replace ((4 * m + 3) / 4) with m.
  2: { rewrite (Z.mul_comm 4), Z.add_comm, Z.div_add by lia. by rewrite Z.div_small. }
  apply wp_bind. eapply wp_mono; [apply (wp_infer_loop _ 0); [done|by left|lia..]|].
  intros t h' (Ht & Hl). apply wp_ret. split; [|done].
  assert (forall x, 0 <= x &&& 0xff < 256) as Hb.
  { intros x. change 0xff with (Z.ones 8). rewrite Z.land_ones by lia. by apply Z.mod_pos_bound. }
  case_bool_decide; [by subst|]. pose proof (Hb t). destruct Ht as [|Ht]; [done|]. lia.
Qed.

Lemma ITLines_bound h : 0 <= ITLines h <= 31.
Proof.
  unfold ITLines. generalize (gic_value h Dist.ic_type). intros x.
  assert (x &&& 0x1f = x `mod` 32) as -> by (apply (Z.land_ones x 5); lia). pose proof (Z.mod_pos_bound x 32). lia.
Qed.

(** The first part of the initialisation, up to the priorities. *)
Definition clear_lines (n : Z) : list gic_access :=
  mjoin ((fun i => [GWr (GIC_V2_DISTRIBUTOR_PPTR + 0x180 + 4 * Z.shiftr i 5) IRQ_SET_ALL;
                    GWr (GIC_V2_DISTRIBUTOR_PPTR + 0x280 + 4 * Z.shiftr i 5) IRQ_SET_ALL]) <$> steps 0 n 32).
Lemma runs_clear_lines k : 0 <= k <= 32 ->
  runs (for_step 0 (32 * k) 32 (fun i => set_in Dist.enable_clr (Z.shiftr i 5) IRQ_SET_ALL ;;
    set_in Dist.pending_clr (Z.shiftr i 5) IRQ_SET_ALL)) (clear_lines (32 * k)).
Proof.
  intros Hk. apply runs_step. intros i (q & Hq & ->)%(steps_elem 0 k 32); [|done].
  change 32 with (2 ^ 5). apply (runs_bind _ _ [_] [_]); apply runs_set_in; rewrite shiftr_step; lia.
Qed.
Lemma clear_lines_elem k r v : GWr r v ∈ clear_lines (32 * k) <-> exists i, 0 <= i < 32 * k /\ v = IRQ_SET_ALL /\
  (r = GIC_V2_DISTRIBUTOR_PPTR + 0x180 + 4 * (i / 32) \/ r = GIC_V2_DISTRIBUTOR_PPTR + 0x280 + 4 * (i / 32)).
Proof.
  unfold clear_lines. rewrite elem_mjoin. split.
  - intros (i & Hi & (q & Hq & ->)%(steps_elem 0 k 32)); [|done]. exists (32 * q).
    change (Z.shiftr (32 * q) 5) with (Z.shiftr (2 ^ 5 * q) 5) in Hi. rewrite shiftr_step in Hi by done.
    rewrite (Z.mul_comm 32 q), Z.div_mul by done. split; [lia|].
    rewrite elem_of_cons, list_elem_of_singleton in Hi. by destruct Hi as [[= -> ->]|[= -> ->]]; auto.
  - intros (i & Hi & -> & Hr). exists (32 * (i / 32)).
    change (Z.shiftr (32 * (i / 32)) 5) with (Z.shiftr (2 ^ 5 * (i / 32)) 5). rewrite shiftr_step by done. split.
    + rewrite elem_of_cons, list_elem_of_singleton. destruct Hr as [-> | ->]; auto.
    + apply (steps_elem 0 k 32); [done|]. exists (i / 32). split; [|done].
      split; [apply Z.div_pos; lia|apply Z.div_lt_upper_bound; lia].
Qed.

(** The loop over the priorities of 1024 lines panics at its last word. *)
Lemma for_range_panics (m : nat) lo (body : Z -> ST gic_t unit) h :
  (forall i, lo <= i < lo + Z.of_nat m -> exists l, runs (body i) l) ->
  (forall h', body (lo + Z.of_nat m) h' = Panic) -> for_range (S m) lo body h = Panic.
Proof.
  revert lo h. induction m as [|m IH]; intros lo h Hb Hp; cbn [for_range].
  - unfold mbind, st_bind. rewrite Z.add_0_r in Hp. by rewrite Hp.
  - destruct (Hb lo) as [l Hl]; [lia|]. rewrite (st_bind_Ok _ _ _ _ _ (Hl h)). apply IH.
    + intros i Hi. apply Hb. lia.
    + intros h'. replace (lo + 1 + Z.of_nat m) with (lo + Z.of_nat (S m)) by lia. apply Hp.
Qed.
Lemma priority_1024_panics h :
  for_step 32 1024 4 (fun i => set_in Dist.priority (Z.shiftr i 2) 0) h = Panic.
Proof.
  unfold for_step. change (Z.to_nat ((1024 - 32 + 4 - 1) / 4)) with (S 247). apply for_range_panics.
  - intros i Hi. eexists. apply runs_set_in. replace (32 + 4 * i) with (2 ^ 2 * (8 + i)) by lia. rewrite shiftr_step; lia.
  - intros h'. reflexivity.
Qed.
(** The lines whose configuration is written. *)
Lemma init_write_config k target i : let n := 32 * k in n < 1024 -> 0 <= i < n ->
  (exists v, init_write n target (config_reg i) v) <-> 32 <= i < n / 2.
Proof.
  intros n Hn Hi. assert (n / 32 = k) as E1 by (unfold n; by rewrite Z.mul_comm, Z.div_mul).
  assert (n / 2 = 16 * k) as E2 by (unfold n; replace (32 * k) with (16 * k * 2) by lia; by rewrite Z.div_mul).
  pose proof (Z.div_mod i 16 ltac:(lia)) as Hdm. pose proof (Z.mod_pos_bound i 16 ltac:(lia)) as Hb. split.
  - intros [v Hw]. unfold config_reg in Hw.
    assert (forall j m, 0 < m -> 0 <= j < 32 * k -> 0 <= j / m /\ m * (j / m) <= j) as Hj.
    { intros j m Hm Hj. split; [apply Z.div_pos; lia|apply Z.mul_div_le; lia]. }
    inversion Hw as [j Hj1 E|j Hj1 E|j Hj1 E|j Hj1 E|q Hq E|j Hj1 E]; [..|lia|]; exfalso;
      [specialize (Hj j 32)|specialize (Hj j 32)|specialize (Hj j 4)|specialize (Hj j 4)|specialize (Hj j 32)]; lia.
  - intros Hc. eexists. apply iw_config. lia.
Qed.
End dist.

(** C28: [dist_init] returns exactly for a controller with fewer than 1024
    lines.  It then disables and clears every line, sends it to one core,
    clears its priority (the private lines' apart) and its security bit, writes
    the configuration registers numbered 2 to [n / 32], and makes no other write
    while the distributor is off.  A configuration register holds sixteen lines:
    line 32 to half of the lines are configured and no other, so that the upper
    half of the lines never is.  For 1024 lines the last word of the priority
    array is out of the bounds of the array as it is declared. *)
Theorem dist_init_writes (D : GicDevice) (h : gic_t) :
  u32_device D ->
  let n := 32 * (ITLines h + 1) in
  if decide (n < 1024) then
    exists target l, dist_init h = Ok (tt, h ++ GRd Dist.ic_type (gic_value h Dist.ic_type) :: GWr Dist.enable 0 :: l ++ [GWr Dist.enable 1]) /\
      0 < target < 256 /\ (forall r v, GWr r v ∈ l <-> init_write n target r v) /\
      forall i, 0 <= i < n -> (exists v, GWr (config_reg i) v ∈ l) <-> 32 <= i < n / 2
  else dist_init h = Panic.
Proof.
  intros HD n. pose proof (ITLines_bound h) as Hb. set (k := ITLines h + 1) in *. unfold dist_init.
  rewrite (st_bind_Ok _ _ _ _ _ (reg_read_Ok _ _)). fold (ITLines h). fold k. fold n.
  set (h1 := h ++ [GRd Dist.ic_type (gic_value h Dist.ic_type)]).
  rewrite (st_bind_Ok _ _ _ _ _ (runs_write _ _ h1)).
  rewrite (st_bind_Ok _ _ _ _ _ (runs_clear_lines k ltac:(lia) _)). case_decide as Hn.
  - pose proof (runs_words 2 (GIC_V2_DISTRIBUTOR_PPTR + 0x400) 0xff 8 (8 * k) 0 ltac:(lia) ltac:(lia) ltac:(lia)) as Hprio.
    replace (2 ^ 2 * (8 * k)) with n in Hprio by (unfold n; lia). rewrite (st_bind_Ok _ _ _ _ _ (Hprio _)).
    match goal with |- context [(infer_cpu_gic_id n ≫= _) ?s] => set (h2 := s) end.
    pose proof (wp_infer (8 * k) h2 HD ltac:(lia)) as Hinf. replace (4 * (8 * k)) with n in Hinf by (unfold n; lia).
    apply wp_elim in Hinf as (target & h3 & Hinf & Ht & rds & -> & Hrds). rewrite (st_bind_Ok _ _ _ _ _ Hinf).
    pose proof (runs_words 2 (GIC_V2_DISTRIBUTOR_PPTR + 0x800) 0xff 0 (8 * k) (TARGET_CPU_ALLINT target) ltac:(lia) ltac:(lia) ltac:(lia)) as Htg.
    replace (2 ^ 2 * (8 * k)) with n in Htg by (unfold n; lia). rewrite (st_bind_Ok _ _ _ _ _ (Htg _)).
    pose proof (runs_words 5 (GIC_V2_DISTRIBUTOR_PPTR + 0xc00) 0x40 2 k 0x55555555 ltac:(lia) ltac:(lia) ltac:(lia)) as Hcf.
    change (2 ^ 5 * k) with n in Hcf. rewrite (st_bind_Ok _ _ _ _ _ (Hcf _)).
    pose proof (runs_words 5 (GIC_V2_DISTRIBUTOR_PPTR + 0x80) 0x20 0 k 0 ltac:(lia) ltac:(lia) ltac:(lia)) as Hsec.
    change (2 ^ 5 * k) with n in Hsec. rewrite (st_bind_Ok _ _ _ _ _ (Hsec _)).
    rewrite (runs_write _ _ _). unfold record. cbn [list_trace].
    exists target, (clear_lines n ++ words 2 (GIC_V2_DISTRIBUTOR_PPTR + 0x400) 8 (8 * k) 0 ++ rds ++
      words 2 (GIC_V2_DISTRIBUTOR_PPTR + 0x800) 0 (8 * k) (TARGET_CPU_ALLINT target) ++
      words 5 (GIC_V2_DISTRIBUTOR_PPTR + 0xc00) 2 k 0x55555555 ++ words 5 (GIC_V2_DISTRIBUTOR_PPTR + 0x80) 0 k 0).
    match goal with |- context [GWr Dist.enable 0 :: ?x ++ _] => set (l := x) end.
    assert (forall r v, GWr r v ∈ l <-> init_write n target r v) as Hl.
    2: { split; [|split; [done|split; [exact Hl|]]].
      - unfold l, h2, h1, record. cbn [list_trace]. by rewrite <- !(assoc_L app).
      - intros i Hi. setoid_rewrite Hl. by apply (init_write_config k). }
    { intros r v. unfold l, n. rewrite !elem_of_app, (clear_lines_elem k), !words_elem by lia.
      assert (GWr r v ∈ rds <-> False) as -> by (split; [intros Hr; by apply (proj1 (Forall_forall _ _) Hrds) in Hr|done]).
      change (2 ^ 2) with 4. change (2 ^ 5) with 32.
      split.
      * intros [(i & Hi & -> & [-> | ->])|[(i & Hi & -> & ->)|[[]|[(i & Hi & -> & ->)|[(i & Hi & -> & ->)|(i & Hi & -> & ->)]]]]];
          constructor; try lia. rewrite (Z.mul_comm 32 k), Z.div_mul by done.
        split; [apply Z.div_le_lower_bound; lia|apply Z.div_lt_upper_bound; lia].
      * intros Hw. destruct Hw as [i Hi|i Hi|i Hi|i Hi|q Hq|i Hi].
        -- left. exists i. auto.
        -- left. exists i. auto.
        -- right. left. exists i. split; [lia|done].
        -- do 3 right. left. exists i. split; [lia|done].
        -- do 4 right. left. exists (32 * q). rewrite (Z.mul_comm 32 k), Z.div_mul in Hq by done.
           rewrite (Z.mul_comm 32 q), Z.div_mul by done. split; [lia|done].
        -- do 5 right. exists i. split; [lia|done]. }
  - assert (k = 32) as Hk by (unfold n in Hn; lia). unfold mbind, st_bind. unfold n. rewrite Hk. change (32 * 32) with 1024. by rewrite priority_1024_panics.
Qed.

(** ** The interface of the core *)
Section iface.
Context {D : GicDevice}.
Implicit Types (h : gic_t) (v : Z) (vs : list Z).

(** The accesses before the interrupts are acknowledged. *)
Definition iface_setup : list gic_access :=
  [GWr (GIC_V2_DISTRIBUTOR_PPTR + 0x180) IRQ_SET_ALL; GWr (GIC_V2_DISTRIBUTOR_PPTR + 0x280) IRQ_SET_ALL;
   GWr (GIC_V2_DISTRIBUTOR_PPTR + 0x80) 0; GWr (GIC_V2_DISTRIBUTOR_PPTR + 0x400) 0] ++
  ((fun i => GWr (GIC_V2_DISTRIBUTOR_PPTR + 0xf10 + 4 * i) IRQ_SET_ALL) <$> seqZ 0 4) ++
  [GWr Iface.icontrol 0; GWr Iface.pri_msk_c 0xf0; GWr Iface.pb_c 0x3].
(** An interrupt acknowledged and completed. *)
Definition acked v : list gic_access := [GRd Iface.int_ack v; GWr Iface.eoi v].
Definition spurious v : Prop := v &&& IRQ_MASK = IRQ_NONE.

(** The device has finitely many interrupts to deliver: with the lines
    disabled, each one that is completed leaves fewer. *)
Definition settles (active : gic_t -> nat) : Prop :=
  forall h, let v := gic_value h Iface.int_ack in ~ spurious v -> (active (h ++ acked v) < active h)%nat.

Lemma ack_loop_ends (active : gic_t -> nat) fuel h : settles active ->
  (active h < fuel)%nat ->
  exists vs v, (i ← reg_read Iface.int_ack; ack_loop fuel i) h = Ok (tt, h ++ mjoin (acked <$> vs) ++ [GRd Iface.int_ack v]) /\
    Forall (fun v => ~ spurious v) vs /\ spurious v /\ (length vs <= active h)%nat.
Proof.
  intros Hs. revert h. induction fuel as [|fuel IH]; intros h Hlt; [lia|].
  rewrite (st_bind_Ok _ _ _ _ _ (reg_read_Ok _ _)). set (v := gic_value h Iface.int_ack). cbn [ack_loop].
  case_bool_decide as Ev; cbn [negb].
  - exists [], v. split; [done|]. split; [constructor|]. split; [done|cbn; lia].
  - pose proof (Hs h Ev) as Hless. fold v in Hless. destruct (IH (h ++ acked v)) as (vs & v' & E & Hvs & Hv' & Hlen); [lia|].
    exists (v :: vs), v'. split; [|split; [by constructor|split; [done|cbn; lia]]].
    rewrite (st_bind_Ok _ _ _ _ _ (runs_write _ _ _)). unfold record. cbn [list_trace].
    rewrite <- (assoc_L app). change ([GRd Iface.int_ack v] ++ [GWr Iface.eoi v]) with (acked v). rewrite E.
    change (mjoin (acked <$> v :: vs)) with (acked v ++ mjoin (acked <$> vs)). by rewrite <- !(assoc_L app).
Qed.
End iface.

(** C27: the initialisation of the core's interface ends: when the controller
    has finitely many interrupts left to deliver, every one that is
    acknowledged is completed before the next is read, and once a read is
    spurious the interface is enabled.  One more round than there are
    interrupts is fuel enough. *)
Theorem cpu_iface_init_settles (D : GicDevice) (active : gic_t -> nat) (h : gic_t) (fuel : nat) :
  settles active -> (active (h ++ iface_setup) < fuel)%nat ->
  exists vs v, cpu_iface_init fuel h = Ok (tt, h ++ iface_setup ++ mjoin (acked <$> vs) ++ [GRd Iface.int_ack v; GWr Iface.icontrol 1]) /\
    Forall (fun v => ~ spurious v) vs /\ spurious v.
Proof.
  intros Hs Hlt. destruct (ack_loop_ends active fuel (h ++ iface_setup) Hs Hlt) as (vs & v & E & Hvs & Hv & _).
  exists vs, v. split; [|done]. unfold cpu_iface_init.
  unfold Dist.enable_clr, Dist.pending_clr, Dist.security, Dist.priority.
  do 3 (rewrite (st_bind_Ok _ _ _ _ _ (runs_set_in _ 0x20 0 _ ltac:(lia) _))).
  rewrite (st_bind_Ok _ _ _ _ _ (runs_set_in _ 0xff 0 _ ltac:(lia) _)).
  assert (runs (for_step 0 16 4 (fun i => set_in Dist.sgi_pending_clr (Z.shiftr i 2) IRQ_SET_ALL))
    ((fun i => GWr (GIC_V2_DISTRIBUTOR_PPTR + 0xf10 + 4 * i) IRQ_SET_ALL) <$> seqZ 0 4)) as Hsgi.
  { exact (runs_words 2 (GIC_V2_DISTRIBUTOR_PPTR + 0xf10) 4 0 4 IRQ_SET_ALL ltac:(lia) ltac:(lia) ltac:(lia)). }
  rewrite (st_bind_Ok _ _ _ _ _ (Hsgi _)). do 3 (rewrite (st_bind_Ok _ _ _ _ _ (runs_write _ _ _))).
  rewrite <- st_bind_assoc. unfold record. cbn [list_trace].
  match goal with |- (_ ≫= _) ?x = _ => replace x with (h ++ iface_setup) by (unfold iface_setup; by rewrite <- !(assoc_L app)) end.
  rewrite (st_bind_Ok _ _ _ _ _ E). rewrite (runs_write _ _ _). unfold record. cbn [list_trace]. by rewrite <- !(assoc_L app).
Qed.

(** ** Instances: a controller of 96 lines on core 0 that delivers its two
    interrupts 32 and 40 *)
Definition completed (h : list gic_access) : nat := length (filter (fun a => a = GWr Iface.eoi 32 \/ a = GWr Iface.eoi 40) h).
Definition w_gic : GicDevice := fun h reg =>
  if reg =w Dist.ic_type then 2
  else if reg =w Iface.int_ack then match completed h with O => 32 | 1%nat => 40 | _ => 1023 end
  else if reg =w GIC_V2_DISTRIBUTOR_PPTR + 0x800 then 0x01010101
  else 0.
Lemma w_gic_u32 : u32_device w_gic.
Proof. intros h r. unfold gic_value, w_gic. repeat case_bool_decide; [lia| |lia..]. destruct (completed h) as [|[|]]; lia. Qed.

Lemma dist_init_writes_witness :
  let n := 32 * (@ITLines [] w_gic + 1) in
  if decide (n < 1024) then
    exists target l, @dist_init w_gic [] = Ok (tt, [] ++ GRd Dist.ic_type (w_gic [] Dist.ic_type) :: GWr Dist.enable 0 :: l ++ [GWr Dist.enable 1]) /\
      0 < target < 256 /\ (forall r v, GWr r v ∈ l <-> init_write n target r v) /\
      forall i, 0 <= i < n -> (exists v, GWr (config_reg i) v ∈ l) <-> 32 <= i < n / 2
  else @dist_init w_gic [] = Panic.
Proof. apply (dist_init_writes w_gic []). exact w_gic_u32. Defined.

Lemma w_gic_settles : @settles w_gic (fun h => 2 - completed h)%nat.
Proof.
  intros h v Hv. unfold v, gic_value, w_gic in *. rewrite bool_decide_false in * by done. rewrite bool_decide_true in * by done.
  assert (forall x, completed (h ++ acked x) = completed h + (if decide (x = 32%Z \/ x = 40%Z) then 1 else 0))%nat as Hc.
  { intros x. unfold completed, acked. rewrite filter_app, length_app. f_equal.
    case_decide as E; [destruct E as [-> | ->]; done|]. rewrite filter_cons_False by naive_solver.
    rewrite filter_cons_False; [done|]. intros [[=]|[=]]; naive_solver. }
  rewrite Hc. destruct (completed h) as [|[|]]; [rewrite decide_True by auto; lia..|by destruct Hv].
Qed.
Lemma cpu_iface_init_settles_witness :
  exists vs v, @cpu_iface_init w_gic 3 [] = Ok (tt, [] ++ iface_setup ++ mjoin (acked <$> vs) ++ [GRd Iface.int_ack v; GWr Iface.icontrol 1]) /\
    Forall (fun v => ~ spurious v) vs /\ spurious v.
Proof.
  apply (cpu_iface_init_settles w_gic (fun h => 2 - completed h)%nat [] 3); [exact w_gic_settles|]. vm_compute. lia.
Defined.
