(* ===== verification/RvCommon.v ===== *)
(** * The RISC-V port: common definitions

    [sel4_common/src/arch/riscv64]: the address map, registers, rights,
    labels and objects of the RISC-V build.  The files whose names start with [Rv]
    model that build; what both builds share is in the other files. *)

From stdpp Require Import base numbers list.
From S2P Require Import Prelude Bitfield Common.
Local Open Scope Z_scope.
Local Open Scope krn_scope.

(** ** The address map *)
(* src: sel4_common/src/arch/riscv64/config.rs 4-4 PPTR_TOP *)
Definition PPTR_TOP : Z := 0xFFFFFFFF80000000.
(* src: sel4_common/src/arch/riscv64/config.rs 5-5 physBase *)
Definition physBase : Z := 0x80000000.
(* src: sel4_common/src/arch/riscv64/config.rs 6-6 KERNEL_ELF_PADDR_BASE *)
Definition KERNEL_ELF_PADDR_BASE : Z := physBase + 0x4000000.
(* src: sel4_common/src/arch/riscv64/config.rs 7-7 KERNEL_ELF_BASE *)
Definition KERNEL_ELF_BASE : Z := PPTR_TOP + (KERNEL_ELF_PADDR_BASE &&& MASK 30).
(* src: sel4_common/src/arch/riscv64/config.rs 8-8 KERNEL_ELF_BASE_OFFSET *)
Definition KERNEL_ELF_BASE_OFFSET : Z := KERNEL_ELF_BASE - KERNEL_ELF_PADDR_BASE.
(* src: sel4_common/src/arch/riscv64/config.rs 9-9 PPTR_BASE *)
Definition PPTR_BASE : Z := 0xFFFFFFC000000000.
(* src: sel4_common/src/arch/riscv64/config.rs 10-10 PADDR_BASE *)
Definition PADDR_BASE : Z := 0.
(* src: sel4_common/src/arch/riscv64/config.rs 11-11 PPTR_BASE_OFFSET *)
Definition PPTR_BASE_OFFSET : Z := PPTR_BASE - PADDR_BASE.
(* src: sel4_common/src/arch/riscv64/config.rs 12-12 PADDR_TOP *)
Definition PADDR_TOP : Z := PPTR_TOP - PPTR_BASE_OFFSET.

(* src: sel4_common/src/sel4_config.rs 17-17 RISCV_4K_Page *)
Definition RISCV_4K_Page : Z := 0.
(* src: sel4_common/src/sel4_config.rs 18-18 RISCV_Mega_Page *)
Definition RISCV_Mega_Page : Z := 1.
(* src: sel4_common/src/sel4_config.rs 19-19 RISCV_Giga_Page *)
Definition RISCV_Giga_Page : Z := 2.
(* src: sel4_common/src/sel4_config.rs 26-26 RISCVPageBits *)
Definition RISCVPageBits : Z := 12.
(* src: sel4_common/src/sel4_config.rs 27-27 RISCVMegaPageBits *)
Definition RISCVMegaPageBits : Z := 21.
(* src: sel4_common/src/sel4_config.rs 28-28 RISCVGigaPageBits *)
Definition RISCVGigaPageBits : Z := 30.
(* src: sel4_common/src/sel4_config.rs 39-39 CONFIG_PT_LEVELS *)
Definition CONFIG_PT_LEVELS : Z := 3.

(** ** Rights *)
(* src: sel4_common/src/arch/riscv64/vm_rights.rs 5-9 vm_rights_t *)
Inductive vm_rights_t : Type := VMKernelOnly | VMReadOnly | VMReadWrite.
#[export] Instance vm_rights_t_eq_dec : EqDecision vm_rights_t.
Proof. solve_decision. Defined.
(* src: sel4_common/src/arch/riscv64/vm_rights.rs 5-9 vm_rights_t *)
Definition vm_rights_to_usize (r : vm_rights_t) : Z :=
  match r with VMKernelOnly => 1 | VMReadOnly => 2 | VMReadWrite => 3 end.
(** [transmute]: a word that is no discriminant is undefined. *)
(* src: sel4_common/src/vm_rights.rs 3-5 vm_rights_from_word *)
Definition vm_rights_from_word (w : Z) : res vm_rights_t :=
  if w =w 1 then Ok VMKernelOnly else if w =w 2 then Ok VMReadOnly else if w =w 3 then Ok VMReadWrite else UB.
(* src: sel4_common/src/arch/riscv64/vm_rights.rs 12-14 RISCVGetWriteFromVMRights *)
Definition RISCVGetWriteFromVMRights (r : vm_rights_t) : bool := bool_decide (r = VMReadWrite).
(* src: sel4_common/src/arch/riscv64/vm_rights.rs 17-19 RISCVGetReadFromVMRights *)
Definition RISCVGetReadFromVMRights (r : vm_rights_t) : bool := bool_decide (r <> VMKernelOnly).
(* src: sel4_common/src/arch/riscv64/vm_rights.rs 26-38 maskVMRights *)
Definition maskVMRights (vm_rights : vm_rights_t) (rights : list Z) : vm_rights_t :=
  if bool_decide (vm_rights = VMReadOnly) && (bf_get allow_read rights <>w 0) then VMReadOnly
  else if bool_decide (vm_rights = VMReadWrite) && (bf_get allow_read rights <>w 0) then
    if bf_get allow_write rights =w 0 then VMReadOnly else VMReadWrite
  else VMKernelOnly.

(** ** Labels *)
(** The labels of the port come after the shared ones. *)
(* src: sel4_common/src/arch/riscv64/message_info.rs 4-46 MessageLabel *)
Inductive RvLabel : Type :=
| Shared (l : MessageLabel)
| RISCVPageTableMap | RISCVPageTableUnmap | RISCVPageMap | RISCVPageUnmap | RISCVPageGetAddress
| RISCVASIDControlMakePool | RISCVASIDPoolAssign | RISCVIRQIssueIRQHandlerTrigger | nArchInvocationLabels.
#[export] Instance RvLabel_eq_dec : EqDecision RvLabel.
Proof. solve_decision. Defined.

(** ** Objects *)
(* src: sel4_common/src/arch/riscv64/object.rs 8-19 ObjectType *)
Inductive ObjectType : Type :=
| UnytpedObject | TCBObject | EndpointObject | NotificationObject | CapTableObject
| GigaPageObject | NormalPageObject | MegaPageObject | PageTableObject.
#[export] Instance ObjectType_eq_dec : EqDecision ObjectType.
Proof. solve_decision. Defined.
(* src: sel4_common/src/sel4_config.rs 45-45 seL4_HugePageBits *)
Definition seL4_HugePageBits : Z := 30.
(* src: sel4_common/src/sel4_config.rs 46-46 seL4_LargePageBits *)
Definition seL4_LargePageBits : Z := 21.
(* src: sel4_common/src/arch/riscv64/object.rs 22-30 arch_get_object_size *)
Definition arch_get_object_size (t : ObjectType) : res Z :=
  match t with
  | GigaPageObject => Ok seL4_HugePageBits
  | NormalPageObject => Ok seL4_PageBits
  | MegaPageObject => Ok seL4_LargePageBits
  | PageTableObject => Ok seL4_PageBits
  | _ => Panic
  end.
(* src: sel4_common/src/arch/riscv64/object.rs 37-46 get_frame_type *)
Definition get_frame_type (t : ObjectType) : res Z :=
  match t with
  | NormalPageObject => Ok RISCV_4K_Page
  | MegaPageObject => Ok RISCV_Mega_Page
  | GigaPageObject => Ok RISCV_Giga_Page
  | _ => Panic
  end.
(* src: sel4_common/src/arch/riscv64/object.rs 53-58 is_arch_type *)
Definition is_arch_type (t : ObjectType) : bool :=
  match t with GigaPageObject | NormalPageObject | MegaPageObject => true | _ => false end.

(** ** Registers *)
(* src: sel4_common/src/arch/riscv64/registers.rs 41-41 SCAUSE *)
Definition SCAUSE : Z := 31.
(* src: sel4_common/src/arch/riscv64/registers.rs 42-42 SSTATUS *)
Definition SSTATUS : Z := 32.
(* src: sel4_common/src/arch/riscv64/registers.rs 44-44 FaultIP *)
Definition FaultIP : Z := 33.
(* src: sel4_common/src/arch/riscv64/registers.rs 45-45 NextIP *)
Definition NextIP : Z := 34.
(* src: sel4_common/src/arch/riscv64/registers.rs 5-5 sp *)
Definition sp : Z := 1.
(* src: sel4_common/src/arch/riscv64/registers.rs 48-48 CONTEXT_REG_NUM *)
Definition CONTEXT_REG_NUM : Z := 35.
(* src: sel4_common/src/arch/riscv64/registers.rs 49-49 msgRegisterNum *)
Definition msgRegisterNum : Z := 4.
(* src: sel4_common/src/arch/riscv64/registers.rs 50-50 msgRegister *)
Definition msgRegister : list Z := [11; 12; 13; 14].
(* src: sel4_common/src/arch/riscv64/registers.rs 52-52 SSTATUS_SPIE *)
Definition SSTATUS_SPIE : Z := 0x20.
(* src: sel4_common/src/arch/riscv64/registers.rs 53-53 SSTATUS_SPP *)
Definition SSTATUS_SPP : Z := 0x100.
(* src: sel4_common/src/arch/riscv64/registers.rs 58-61 fault_messages *)
Definition fault_messages : list (list Z) :=
  [[33; 1; 0; 9; 10; 11; 12; 13; 14; 15]; [33; 1; 0; 0; 0; 0; 0; 0; 0; 0]].
(* src: sel4_common/src/arch/riscv64/registers.rs 66-67 frameRegisters *)
Definition frameRegisters : list Z := [33; 0; 1; 2; 7; 8; 17; 18; 19; 20; 21; 22; 23; 24; 25; 26].
(* src: sel4_common/src/arch/riscv64/registers.rs 68-69 gpRegisters *)
Definition gpRegisters : list Z := [9; 10; 11; 12; 13; 14; 15; 16; 4; 5; 6; 27; 28; 29; 30; 3].
(* src: sel4_common/src/arch/riscv64/registers.rs 73-86 ArchReg::to_index *)
Definition to_index (r : ArchReg) : res Z :=
  match r with
  | TlsBase => Ok 3 | RCap => Ok 9 | RBadge => Ok 9 | RMsgInfo => Ok 10
  | RFaultIP => Ok 33 | RNextIP => Ok 34
  | RMsg i => idx msgRegister i
  | RFrame i => idx frameRegisters i
  | RGP i => idx gpRegisters i
  | RFaultMessage id index => idx fault_messages id ≫= fun row => idx row index
  end.
(* src: sel4_common/src/arch/mod.rs 20-22 ArchTCB::set_register *)
Definition set_register (regs : list Z) (reg : ArchReg) (w : Z) : res (list Z) :=
  to_index reg ≫= fun i => upd regs i w.
(* src: sel4_common/src/arch/mod.rs 30-32 ArchTCB::get_register *)
Definition get_register (regs : list Z) (reg : ArchReg) : res Z :=
  to_index reg ≫= fun i => idx regs i.
(* src: sel4_common/src/arch/riscv64/arch_tcb.rs 16-20 ArchTCB::default *)
Definition ArchTCB_default : list Z :=
  <[Z.to_nat SSTATUS := 0x00040020]> (replicate (Z.to_nat CONTEXT_REG_NUM) 0).
(** [stack_last] is the address of the last byte of the kernel's stack. *)
(* src: sel4_common/src/arch/riscv64/arch_tcb.rs 25-31 ArchTCB::config_idle_thread *)
Definition config_idle_thread (stack_last : Z) (regs : list Z) (idle_thread : Z) : res (list Z) :=
  upd regs NextIP idle_thread ≫= fun r =>
  upd r SSTATUS (SSTATUS_SPP ||| SSTATUS_SPIE) ≫= fun r =>
  upd r sp stack_last.

(** ** Calls of the machine's firmware *)
(* src: sel4_common/src/arch/riscv64/mod.rs 17-17 SBI_SET_TIMER *)
Definition SBI_SET_TIMER : Z := 0.
(* src: sel4_common/src/arch/riscv64/mod.rs 21-21 SBI_CLEAR_IPI *)
Definition SBI_CLEAR_IPI : Z := 3.
(* src: sel4_common/src/arch/riscv64/mod.rs 22-22 SBI_REMOTE_SFENCE_VMA *)
Definition SBI_REMOTE_SFENCE_VMA : Z := 6.
(* src: sel4_common/src/arch/riscv64/mod.rs 23-23 SBI_SHUTDOWN *)
Definition SBI_SHUTDOWN : Z := 8.
