(* ===== verification/RvCap.v ===== *)
(** * The RISC-V port: capabilities

    [sel4_cspace/src/arch/riscv64/mod.rs]: the layout of the capabilities in 39-bit
    addresses, and the operations of the port on them.  Fields that are
    sign-extended are extended from bit 38. *)

From stdpp Require Import base numbers gmap list.
From S2P Require Import Prelude Bitfield Common RvCommon Cap.
Local Open Scope Z_scope.
Local Open Scope krn_scope.

(** ** Fields *)
(** A field without its sign extension. *)
Definition unsigned (f : bitfield) : bitfield := Bf (bf_index f) (bf_offset f) (bf_bits f) (bf_shift f) false.
(* src: sel4_common/src/utils.rs 32-45 plus_define_bitfield! getter *)
Definition rv_get (f : bitfield) (ws : list Z) : Z :=
  let ret := bf_get (unsigned f) ws in
  if (bf_sign f && (ret &&& wshl 1 38 <>w 0))%bool then ret ||| 0xffffff8000000000 else ret.

(** The tags of the port; there is no kind for address spaces. *)
(* src: sel4_cspace/src/arch/riscv64/mod.rs 96-112 CapTag *)
Definition rv_tag_of (n : Z) : res CapTag :=
  match CapTag_of n with Ok CapVspaceCap => UB | r => r end.
(* src: sel4_cspace/src/cap/mod.rs 140-142 cap_t::get_cap_type *)
Definition get_cap_type (c : cap) : res CapTag := rv_tag_of (bf_type cap_t c).

(* src: sel4_cspace/src/arch/riscv64/mod.rs 13-13 capFreeIndex *)
Definition untyped_free_index : bitfield := Bf 1 25 39 0 false.
(* src: sel4_cspace/src/arch/riscv64/mod.rs 14-14 capIsDevice *)
Definition untyped_is_device : bitfield := Bf 1 6 1 0 false.
(* src: sel4_cspace/src/arch/riscv64/mod.rs 15-15 capBlockSize *)
Definition untyped_block_size : bitfield := Bf 1 0 6 0 false.
(* src: sel4_cspace/src/arch/riscv64/mod.rs 16-16 capPtr *)
Definition untyped_ptr : bitfield := Bf 0 0 39 0 true.
(* src: sel4_cspace/src/arch/riscv64/mod.rs 19-19 capEPBadge *)
Definition ep_badge : bitfield := Bf 1 0 64 0 false.
(* src: sel4_cspace/src/arch/riscv64/mod.rs 20-20 capCanGrantReply *)
Definition ep_can_grant_reply : bitfield := Bf 0 58 1 0 false.
(* src: sel4_cspace/src/arch/riscv64/mod.rs 21-21 capCanGrant *)
Definition ep_can_grant : bitfield := Bf 0 57 1 0 false.
(* src: sel4_cspace/src/arch/riscv64/mod.rs 22-22 capCanSend *)
Definition ep_can_send : bitfield := Bf 0 55 1 0 false.
(* src: sel4_cspace/src/arch/riscv64/mod.rs 23-23 capCanReceive *)
Definition ep_can_receive : bitfield := Bf 0 56 1 0 false.
(* src: sel4_cspace/src/arch/riscv64/mod.rs 24-24 capEPPtr *)
Definition ep_ptr : bitfield := Bf 0 0 39 0 true.
(* src: sel4_cspace/src/arch/riscv64/mod.rs 27-27 capNtfnBadge *)
Definition nf_badge : bitfield := Bf 1 0 64 0 false.
(* src: sel4_cspace/src/arch/riscv64/mod.rs 28-28 capNtfnCanReceive *)
Definition nf_can_receive : bitfield := Bf 0 58 1 0 false.
(* src: sel4_cspace/src/arch/riscv64/mod.rs 29-29 capNtfnCanSend *)
Definition nf_can_send : bitfield := Bf 0 57 1 0 false.
(* src: sel4_cspace/src/arch/riscv64/mod.rs 30-30 capNtfnPtr *)
Definition nf_ptr : bitfield := Bf 0 0 39 0 true.
(* src: sel4_cspace/src/arch/riscv64/mod.rs 33-33 capReplyCanGrant *)
Definition reply_can_grant : bitfield := Bf 0 1 1 0 false.
(* src: sel4_cspace/src/arch/riscv64/mod.rs 34-34 capReplyMaster *)
Definition reply_master : bitfield := Bf 0 0 1 0 false.
(* src: sel4_cspace/src/arch/riscv64/mod.rs 35-35 capTCBPtr *)
Definition reply_tcb_ptr : bitfield := Bf 1 0 64 0 false.
(* src: sel4_cspace/src/arch/riscv64/mod.rs 38-38 capCNodeRadix *)
Definition cnode_radix : bitfield := Bf 0 47 6 0 false.
(* src: sel4_cspace/src/arch/riscv64/mod.rs 39-39 capCNodeGuardSize *)
Definition cnode_guard_size : bitfield := Bf 0 53 6 0 false.
(* src: sel4_cspace/src/arch/riscv64/mod.rs 40-40 capCNodeGuard *)
Definition cnode_guard : bitfield := Bf 1 0 64 0 false.
(* src: sel4_cspace/src/arch/riscv64/mod.rs 41-41 capCNodePtr *)
Definition cnode_ptr : bitfield := Bf 0 0 38 1 true.
(* src: sel4_cspace/src/arch/riscv64/mod.rs 44-44 capTCBPtr *)
Definition tcb_ptr : bitfield := Bf 0 0 39 0 true.
(* src: sel4_cspace/src/arch/riscv64/mod.rs 48-48 capIRQ *)
Definition irq_handler : bitfield := Bf 1 0 12 0 false.
(* src: sel4_cspace/src/arch/riscv64/mod.rs 51-51 capZombieID *)
Definition zombie_id : bitfield := Bf 1 0 64 0 false.
(* src: sel4_cspace/src/arch/riscv64/mod.rs 52-52 capZombieType *)
Definition zombie_type : bitfield := Bf 0 0 7 0 false.
(* src: sel4_cspace/src/arch/riscv64/mod.rs 56-56 capFMappedASID *)
Definition frame_mapped_asid : bitfield := Bf 1 48 16 0 false.
(* src: sel4_cspace/src/arch/riscv64/mod.rs 57-57 capFBasePtr *)
Definition frame_base_ptr : bitfield := Bf 1 9 39 0 true.
(* src: sel4_cspace/src/arch/riscv64/mod.rs 58-58 capFSize *)
Definition frame_size : bitfield := Bf 0 57 2 0 false.
(* src: sel4_cspace/src/arch/riscv64/mod.rs 59-59 capFVMRights *)
Definition frame_vm_rights : bitfield := Bf 0 55 2 0 false.
(* src: sel4_cspace/src/arch/riscv64/mod.rs 60-60 capFIsDevice *)
Definition frame_is_device : bitfield := Bf 0 54 1 0 false.
(* src: sel4_cspace/src/arch/riscv64/mod.rs 61-61 capFMappedAddress *)
Definition frame_mapped_address : bitfield := Bf 0 0 39 0 true.
(* src: sel4_cspace/src/arch/riscv64/mod.rs 64-64 capPTMappedASID *)
Definition pt_mapped_asid : bitfield := Bf 1 48 16 0 false.
(* src: sel4_cspace/src/arch/riscv64/mod.rs 65-65 capPTBasePtr *)
Definition pt_base_ptr : bitfield := Bf 1 9 39 0 true.
(* src: sel4_cspace/src/arch/riscv64/mod.rs 66-66 capPTIsMapped *)
Definition pt_is_mapped : bitfield := Bf 0 39 1 0 false.
(* src: sel4_cspace/src/arch/riscv64/mod.rs 67-67 capPTMappedAddress *)
Definition pt_mapped_address : bitfield := Bf 0 0 39 0 true.
(* src: sel4_cspace/src/arch/riscv64/mod.rs 71-71 capASIDBase *)
Definition asid_base : bitfield := Bf 0 43 16 0 false.
(* src: sel4_cspace/src/arch/riscv64/mod.rs 72-72 capASIDPool *)
Definition asid_pool : bitfield := Bf 0 0 37 2 true.

(* src: sel4_cspace/src/arch/riscv64/mod.rs 11-11 new_null_cap *)
Definition new_null_cap : cap :=
  bf_new cap_t [] (CapTag_to_usize CapNullCap).
(* src: sel4_cspace/src/arch/riscv64/mod.rs 12-17 new_untyped_cap *)
Definition new_untyped_cap (capFreeIndex capIsDevice capBlockSize capPtr : Z) : cap :=
  bf_new cap_t [(untyped_free_index, capFreeIndex); (untyped_is_device, capIsDevice); (untyped_block_size, capBlockSize); (untyped_ptr, capPtr)] (CapTag_to_usize CapUntypedCap).
(* src: sel4_cspace/src/arch/riscv64/mod.rs 18-25 new_endpoint_cap *)
Definition new_endpoint_cap (capEPBadge capCanGrantReply capCanGrant capCanSend capCanReceive capEPPtr : Z) : cap :=
  bf_new cap_t [(ep_badge, capEPBadge); (ep_can_grant_reply, capCanGrantReply); (ep_can_grant, capCanGrant); (ep_can_send, capCanSend); (ep_can_receive, capCanReceive); (ep_ptr, capEPPtr)] (CapTag_to_usize CapEndpointCap).
(* src: sel4_cspace/src/arch/riscv64/mod.rs 26-31 new_notification_cap *)
Definition new_notification_cap (capNtfnBadge capNtfnCanReceive capNtfnCanSend capNtfnPtr : Z) : cap :=
  bf_new cap_t [(nf_badge, capNtfnBadge); (nf_can_receive, capNtfnCanReceive); (nf_can_send, capNtfnCanSend); (nf_ptr, capNtfnPtr)] (CapTag_to_usize CapNotificationCap).
(* src: sel4_cspace/src/arch/riscv64/mod.rs 32-36 new_reply_cap *)
Definition new_reply_cap (capReplyCanGrant capReplyMaster capTCBPtr : Z) : cap :=
  bf_new cap_t [(reply_can_grant, capReplyCanGrant); (reply_master, capReplyMaster); (reply_tcb_ptr, capTCBPtr)] (CapTag_to_usize CapReplyCap).
(* src: sel4_cspace/src/arch/riscv64/mod.rs 37-42 new_cnode_cap *)
Definition new_cnode_cap (capCNodeRadix capCNodeGuardSize capCNodeGuard capCNodePtr : Z) : cap :=
  bf_new cap_t [(cnode_radix, capCNodeRadix); (cnode_guard_size, capCNodeGuardSize); (cnode_guard, capCNodeGuard); (cnode_ptr, capCNodePtr)] (CapTag_to_usize CapCNodeCap).
(* src: sel4_cspace/src/arch/riscv64/mod.rs 43-45 new_thread_cap *)
Definition new_thread_cap (capTCBPtr : Z) : cap :=
  bf_new cap_t [(tcb_ptr, capTCBPtr)] (CapTag_to_usize CapThreadCap).
(* src: sel4_cspace/src/arch/riscv64/mod.rs 46-46 new_irq_control_cap *)
Definition new_irq_control_cap : cap :=
  bf_new cap_t [] (CapTag_to_usize CapIrqControlCap).
(* src: sel4_cspace/src/arch/riscv64/mod.rs 47-49 new_irq_handler_cap *)
Definition new_irq_handler_cap (capIRQ : Z) : cap :=
  bf_new cap_t [(irq_handler, capIRQ)] (CapTag_to_usize CapIrqHandlerCap).
(* src: sel4_cspace/src/arch/riscv64/mod.rs 50-53 new_zombie_cap *)
Definition new_zombie_cap (capZombieID capZombieType : Z) : cap :=
  bf_new cap_t [(zombie_id, capZombieID); (zombie_type, capZombieType)] (CapTag_to_usize CapZombieCap).
(* src: sel4_cspace/src/arch/riscv64/mod.rs 54-54 new_domain_cap *)
Definition new_domain_cap : cap :=
  bf_new cap_t [] (CapTag_to_usize CapDomainCap).
(* src: sel4_cspace/src/arch/riscv64/mod.rs 55-62 new_frame_cap *)
Definition new_frame_cap (capFMappedASID capFBasePtr capFSize capFVMRights capFIsDevice capFMappedAddress : Z) : cap :=
  bf_new cap_t [(frame_mapped_asid, capFMappedASID); (frame_base_ptr, capFBasePtr); (frame_size, capFSize); (frame_vm_rights, capFVMRights); (frame_is_device, capFIsDevice); (frame_mapped_address, capFMappedAddress)] (CapTag_to_usize CapFrameCap).
(* src: sel4_cspace/src/arch/riscv64/mod.rs 63-68 new_page_table_cap *)
Definition new_page_table_cap (capPTMappedASID capPTBasePtr capPTIsMapped capPTMappedAddress : Z) : cap :=
  bf_new cap_t [(pt_mapped_asid, capPTMappedASID); (pt_base_ptr, capPTBasePtr); (pt_is_mapped, capPTIsMapped); (pt_mapped_address, capPTMappedAddress)] (CapTag_to_usize CapPageTableCap).
(* src: sel4_cspace/src/arch/riscv64/mod.rs 69-69 new_asid_control_cap *)
Definition new_asid_control_cap : cap :=
  bf_new cap_t [] (CapTag_to_usize CapASIDControlCap).
(* src: sel4_cspace/src/arch/riscv64/mod.rs 70-73 new_asid_pool_cap *)
Definition new_asid_pool_cap (capASIDBase capASIDPool : Z) : cap :=
  bf_new cap_t [(asid_base, capASIDBase); (asid_pool, capASIDPool)] (CapTag_to_usize CapASIDPoolCap).
Definition cap_variants : list (list bitfield) :=
  [[];
   [untyped_free_index; untyped_is_device; untyped_block_size; untyped_ptr];
   [ep_badge; ep_can_grant_reply; ep_can_grant; ep_can_send; ep_can_receive; ep_ptr];
   [nf_badge; nf_can_receive; nf_can_send; nf_ptr];
   [reply_can_grant; reply_master; reply_tcb_ptr];
   [cnode_radix; cnode_guard_size; cnode_guard; cnode_ptr];
   [tcb_ptr];
   [];
   [irq_handler];
   [zombie_id; zombie_type];
   [];
   [frame_mapped_asid; frame_base_ptr; frame_size; frame_vm_rights; frame_is_device; frame_mapped_address];
   [pt_mapped_asid; pt_base_ptr; pt_is_mapped; pt_mapped_address];
   [];
   [asid_base; asid_pool]].

(** ** Operations

    The layout of zombies is the same in both builds. *)
(* src: sel4_cspace/src/arch/riscv64/mod.rs 78-91 cap_t::get_cap_ptr *)
Definition get_cap_ptr (c : cap) : res Z :=
  t ← get_cap_type c;
  mret match t with
  | CapUntypedCap => rv_get untyped_ptr c
  | CapEndpointCap => rv_get ep_ptr c
  | CapNotificationCap => rv_get nf_ptr c
  | CapCNodeCap => rv_get cnode_ptr c
  | CapThreadCap => rv_get tcb_ptr c
  | CapZombieCap => get_zombie_ptr c
  | CapFrameCap => rv_get frame_base_ptr c
  | CapPageTableCap => rv_get pt_base_ptr c
  | CapASIDPoolCap => rv_get asid_pool c
  | _ => 0
  end.
(* src: sel4_cspace/src/arch/riscv64/mod.rs 115-144 cte_t::arch_derive_cap *)
Definition arch_derive_cap (c : cap) : res (exception_t * cap) :=
  t ← get_cap_type c;
  match t with
  | CapPageTableCap =>
      if rv_get pt_is_mapped c <>w 0 then mret (EXCEPTION_NONE, c)
      else mret (EXCEPTION_SYSCALL_ERROR, new_null_cap)
  | CapFrameCap => mret (EXCEPTION_NONE, bf_set frame_mapped_asid 0 (bf_set frame_mapped_address 0 c))
  | CapASIDControlCap | CapASIDPoolCap => mret (EXCEPTION_NONE, c)
  | _ => Panic
  end.
(* src: sel4_cspace/src/arch/riscv64/mod.rs 147-157 arch_mask_cap_rights *)
Definition arch_mask_cap_rights (rights : list Z) (c : cap) : res cap :=
  t ← get_cap_type c;
  if t =t CapFrameCap then
    vm_rights ← RvCommon.vm_rights_from_word (rv_get frame_vm_rights c);
    let vm_rights := RvCommon.maskVMRights vm_rights rights in
    mret (bf_set frame_vm_rights (RvCommon.vm_rights_to_usize vm_rights) c)
  else mret c.
(* src: sel4_cspace/src/arch/riscv64/mod.rs 168-195 arch_same_region_as *)
Definition arch_same_region_as (cap1 cap2 : cap) : res bool :=
  t1 ← get_cap_type cap1;
  match t1 with
  | CapFrameCap =>
      t2 ← get_cap_type cap2;
      if t2 =t CapFrameCap then
        let botA := rv_get frame_base_ptr cap1 in
        let botB := rv_get frame_base_ptr cap2 in
        bitsA ← pageBitsForSize (rv_get frame_size cap1);
        bitsB ← pageBitsForSize (rv_get frame_size cap2);
        let topA := wadd botA (MASK bitsA) in
        let topB := wadd botB (MASK bitsB) in
        mret (bool_decide (botA <= botB) && bool_decide (topA >= topB) && bool_decide (botB <= topB))
      else mret false
  | CapPageTableCap =>
      t2 ← get_cap_type cap2;
      if t2 =t CapPageTableCap then mret (rv_get pt_base_ptr cap1 =w rv_get pt_base_ptr cap2)
      else mret false
  | CapASIDControlCap => t2 ← get_cap_type cap2; mret (t2 =t CapASIDControlCap)
  | CapASIDPoolCap =>
      t2 ← get_cap_type cap2;
      if t2 =t CapASIDPoolCap then mret (rv_get asid_pool cap1 =w rv_get asid_pool cap2)
      else mret false
  | _ => Panic
  end.
(* src: sel4_cspace/src/arch/riscv64/mod.rs 159-166 arch_same_object_as *)
Definition arch_same_object_as (cap1 cap2 : cap) : res bool :=
  t1 ← get_cap_type cap1;
  t2 ← get_cap_type cap2;
  if (t1 =t CapFrameCap) && (t2 =t CapFrameCap) then
    mret ((rv_get frame_base_ptr cap1 =w rv_get frame_base_ptr cap2)
      && (rv_get frame_size cap1 =w rv_get frame_size cap2)
      && bool_decide ((rv_get frame_is_device cap1 =w 0) = (rv_get frame_is_device cap2 =w 0)))
  else arch_same_region_as cap1 cap2.
(** Comparing capabilities, as in [Cap.v]. *)
(* src: sel4_cspace/src/cap/mod.rs 171-173 cap_t::isArchCap *)
Definition isArchCap (c : cap) : res bool :=
  t ← get_cap_type c; mret ((CapTag_to_usize t) `mod` 2 <>w 0).
(* src: sel4_cspace/src/cap/mod.rs 144-154 cap_t::get_cap_size_bits *)
Definition get_cap_size_bits (c : cap) : res Z :=
  t ← get_cap_type c;
  mret match t with
  | CapUntypedCap => rv_get untyped_block_size c
  | CapEndpointCap => seL4_EndpointBits
  | CapNotificationCap => seL4_NotificationBits
  | CapCNodeCap => wadd (rv_get cnode_radix c) seL4_SlotBits
  | CapPageTableCap => PT_SIZE_BITS
  | CapReplyCap => seL4_ReplyBits
  | _ => 0
  end.
(* src: sel4_cspace/src/cap/mod.rs 156-169 cap_t::get_cap_is_physical *)
Definition get_cap_is_physical (c : cap) : res bool :=
  t ← get_cap_type c;
  mret match t with
  | CapUntypedCap | CapEndpointCap | CapNotificationCap | CapCNodeCap | CapFrameCap
  | CapASIDPoolCap | CapPageTableCap | CapZombieCap | CapThreadCap => true
  | _ => false
  end.
(* src: sel4_cspace/src/cap/mod.rs 176-229 same_region_as *)
Definition same_region_as (cap1 cap2 : cap) : res bool :=
  t1 ← get_cap_type cap1;
  match t1 with
  | CapUntypedCap =>
      ph ← get_cap_is_physical cap2;
      if ph : bool then
        let aBase := rv_get untyped_ptr cap1 in
        bBase ← get_cap_ptr cap2;
        let aTop := wadd aBase (MASK (rv_get untyped_block_size cap1)) in
        bits2 ← get_cap_size_bits cap2;
        let bTop := wadd bBase (MASK bits2) in
        mret (bool_decide (aBase <= bBase) && bool_decide (bTop <= aTop) && bool_decide (bBase <= bTop))
      else mret false
  | CapEndpointCap | CapNotificationCap | CapPageTableCap | CapASIDPoolCap | CapThreadCap =>
      t2 ← get_cap_type cap2;
      if t2 =t t1 then p1 ← get_cap_ptr cap1; p2 ← get_cap_ptr cap2; mret (p1 =w p2)
      else mret false
  | CapASIDControlCap | CapDomainCap => t2 ← get_cap_type cap2; mret (t2 =t t1)
  | CapCNodeCap =>
      t2 ← get_cap_type cap2;
      if t2 =t CapCNodeCap then
        mret ((rv_get cnode_ptr cap1 =w rv_get cnode_ptr cap2)
          && (rv_get cnode_radix cap1 =w rv_get cnode_radix cap2))
      else mret false
  | CapIrqControlCap =>
      t2 ← get_cap_type cap2; mret ((t2 =t CapIrqControlCap) || (t2 =t CapIrqHandlerCap))
  | CapIrqHandlerCap =>
      t2 ← get_cap_type cap2;
      if t2 =t CapIrqHandlerCap then mret (rv_get irq_handler cap1 =w rv_get irq_handler cap2)
      else mret false
  | _ => mret false
  end.
(* src: sel4_cspace/src/cap/mod.rs 231-249 same_object_as *)
Definition same_object_as (cap1 cap2 : cap) : res bool :=
  t1 ← get_cap_type cap1;
  if t1 =t CapUntypedCap then mret false
  else
    t2 ← get_cap_type cap2;
    if (t1 =t CapIrqControlCap) && (t2 =t CapIrqHandlerCap) then mret false
    else
      a1 ← isArchCap cap1;
      a2 ← isArchCap cap2;
      if (a1 && a2)%bool then arch_same_object_as cap1 cap2 else same_region_as cap1 cap2.
(* src: sel4_cspace/src/cap/mod.rs 251-274 is_cap_revocable *)
Definition is_cap_revocable (derived_cap src_cap : cap) : res bool :=
  a ← isArchCap derived_cap;
  if a : bool then mret false
  else
    t ← get_cap_type derived_cap;
    match t with
    | CapEndpointCap =>
        ts ← get_cap_type src_cap;
        _ ← assert_r (ts =t CapEndpointCap);
        mret (rv_get ep_badge derived_cap <>w rv_get ep_badge src_cap)
    | CapNotificationCap =>
        ts ← get_cap_type src_cap;
        _ ← assert_r (ts =t CapNotificationCap);
        mret (rv_get nf_badge derived_cap <>w rv_get nf_badge src_cap)
    | CapIrqHandlerCap => ts ← get_cap_type src_cap; mret (ts =t CapIrqControlCap)
    | CapUntypedCap => mret true
    | _ => mret false
    end.
(** The frame and page-table objects of a retype. *)
(* src: kernel/src/syscall/invocation/arch/riscv64.rs 8-36 arch_create_object *)
Definition arch_create_object (obj_type : RvCommon.ObjectType) (region_base user_size device_mem : Z) : res cap :=
  match obj_type with
  | RvCommon.PageTableObject => mret (new_page_table_cap asidInvalid region_base 0 0)
  | RvCommon.NormalPageObject | RvCommon.GigaPageObject | RvCommon.MegaPageObject =>
      frame_type ← RvCommon.get_frame_type obj_type;
      mret (new_frame_cap asidInvalid region_base frame_type (RvCommon.vm_rights_to_usize RvCommon.VMReadWrite) device_mem 0)
  | _ => Panic
  end.
