(* ===== verification/RvCapProps.v ===== *)
(** * The RISC-V port: capabilities, theorems

    The layout of every kind is well formed: what a constructor is given is
    read back, pointers as whole 64-bit addresses although a field keeps 39
    bits. *)

From stdpp Require Import base numbers gmap list.
From S2P Require Import Prelude Bitfield Common Cap RvCommon RvCap.
Local Open Scope Z_scope.
Local Open Scope krn_scope.

(** The fields of each kind, in the order of its constructor. *)
Definition rv_fields (t : CapTag) : list bitfield :=
  match t with
  | CapUntypedCap => [untyped_free_index; untyped_is_device; untyped_block_size; untyped_ptr]
  | CapEndpointCap => [ep_badge; ep_can_grant_reply; ep_can_grant; ep_can_send; ep_can_receive; ep_ptr]
  | CapNotificationCap => [nf_badge; nf_can_receive; nf_can_send; nf_ptr]
  | CapReplyCap => [reply_can_grant; reply_master; reply_tcb_ptr]
  | CapCNodeCap => [cnode_radix; cnode_guard_size; cnode_guard; cnode_ptr]
  | CapThreadCap => [tcb_ptr]
  | CapIrqHandlerCap => [irq_handler]
  | CapZombieCap => [zombie_id; zombie_type]
  | CapFrameCap =>
      [frame_mapped_asid; frame_base_ptr; frame_size; frame_vm_rights; frame_is_device; frame_mapped_address]
  | CapPageTableCap => [pt_mapped_asid; pt_base_ptr; pt_is_mapped; pt_mapped_address]
  | CapASIDPoolCap => [asid_base; asid_pool]
  | _ => []
  end.
(** The constructor of each kind, on a list of arguments. *)
Definition rv_new (t : CapTag) (vs : list Z) : option (list Z) :=
  match t, vs with
  | CapNullCap, [] => Some new_null_cap
  | CapUntypedCap, [a; b; c; d] => Some (new_untyped_cap a b c d)
  | CapEndpointCap, [a; b; c; d; e; f] => Some (new_endpoint_cap a b c d e f)
  | CapNotificationCap, [a; b; c; d] => Some (new_notification_cap a b c d)
  | CapReplyCap, [a; b; c] => Some (new_reply_cap a b c)
  | CapCNodeCap, [a; b; c; d] => Some (new_cnode_cap a b c d)
  | CapThreadCap, [a] => Some (new_thread_cap a)
  | CapIrqControlCap, [] => Some new_irq_control_cap
  | CapIrqHandlerCap, [a] => Some (new_irq_handler_cap a)
  | CapZombieCap, [a; b] => Some (new_zombie_cap a b)
  | CapDomainCap, [] => Some new_domain_cap
  | CapFrameCap, [a; b; c; d; e; f] => Some (new_frame_cap a b c d e f)
  | CapPageTableCap, [a; b; c; d] => Some (new_page_table_cap a b c d)
  | CapASIDControlCap, [] => Some new_asid_control_cap
  | CapASIDPoolCap, [a; b] => Some (new_asid_pool_cap a b)
  | _, _ => None
  end.
(** A 39-bit address: the bits above 37 are equal.  A field holds a number of
    its width, or an address aligned to its shift. *)
Definition canonical (v : Z) : Prop := 0 <= v < 2 ^ 38 \/ 2 ^ 64 - 2 ^ 38 <= v < 2 ^ 64.
Definition fits (f : bitfield) (v : Z) : Prop :=
  if bf_sign f then canonical v /\ v `mod` 2 ^ bf_shift f = 0 else 0 <= v < 2 ^ bf_bits f.

Section fields.
Implicit Types (f : bitfield) (t : CapTag) (v : Z) (vs c : list Z).

Definition field_ok f : bool :=
  if bf_sign f then bool_decide (0 <= bf_shift f < 39 /\ bf_bits f = 39 - bf_shift f)
  else bool_decide (bf_shift f = 0 /\ 0 <= bf_bits f <= 64).
Lemma rv_fields_ok t : variant_ok cap_t (unsigned <$> rv_fields t) = true /\ forallb field_ok (rv_fields t) = true.
Proof. by destruct t. Qed.

Lemma rv_new_generic t vs c : rv_new t vs = Some c ->
  t <> CapVspaceCap /\ c = bf_new cap_t (zip (unsigned <$> rv_fields t) vs) (CapTag_to_usize t) /\ length vs = length (rv_fields t).
Proof.
  intros H. destruct t; cbn in H; repeat (destruct vs as [|? vs]; try discriminate H);
    injection H as <-; (split; [done|]); split; reflexivity.
Qed.

(** What a field keeps, and how the getter extends it. *)
Lemma norm_mod f v : bf_shift f < 39 -> 0 <= bf_shift f -> bf_bits f = 39 - bf_shift f -> v `mod` 2 ^ bf_shift f = 0 ->
  0 <= v -> bf_norm (unsigned f) v = v `mod` 2 ^ 39.
Proof.
  intros Hs H0 Hb Ha Hv. unfold bf_norm. cbn. unfold bf_sext. cbn [andb].
  rewrite bf_mask_ones, Z.land_ones, wshr_spec, wshl_spec by lia. rewrite Hb.
  apply Z.mod_divide in Ha as [q ->]; [|lia]. rewrite Z.div_mul by lia.
  replace (2 ^ 39) with (2 ^ (39 - bf_shift f) * 2 ^ bf_shift f) by (rewrite <- Z.pow_add_r by lia; f_equal; lia).
  rewrite Z.mul_mod_distr_r by lia. apply wrap_id. pose proof (Z.mod_pos_bound q (2 ^ (39 - bf_shift f)) ltac:(lia)).
  assert (2 ^ (39 - bf_shift f) * 2 ^ bf_shift f = 2 ^ 39) by (rewrite <- Z.pow_add_r by lia; f_equal; lia).
  unfold is_word. nia.
Qed.
Lemma rv_extend f v : field_ok f = true -> fits f v ->
  let ret := bf_norm (unsigned f) v in
  (if (bf_sign f && (ret &&& wshl 1 38 <>w 0))%bool then ret ||| 0xffffff8000000000 else ret) = v.
Proof.
  intros Hok Hf ret. unfold fits, field_ok in *. destruct (bf_sign f) eqn:Es; cbn [andb].
  - apply bool_decide_eq_true in Hok. destruct Hf as [Hc Ha]. assert (0 <= v) by (unfold canonical in Hc; lia).
    unfold ret. rewrite norm_mod by (done || lia).
    assert (Z.testbit (v `mod` 2 ^ 39) 38 = bool_decide (2 ^ 38 <= v)) as Hbit.
    { rewrite Z.mod_pow2_bits_low by lia. unfold canonical in Hc.
      case_bool_decide; [apply Z.testbit_true|apply Z.testbit_false]; try lia; Z.to_euclidean_division_equations; lia. }
    assert ((v `mod` 2 ^ 39 &&& wshl 1 38 <>w 0) = bool_decide (2 ^ 38 <= v)) as ->.
    { rewrite <- Hbit. change (wshl 1 38) with (2 ^ 38). destruct (Z.testbit (v `mod` 2 ^ 39) 38) eqn:E; [rewrite bool_decide_false|rewrite bool_decide_true]; try done.
      - intros Hz. apply (f_equal (fun x => Z.testbit x 38)) in Hz. by rewrite Z.land_spec, E, Z.pow2_bits_true, Z.bits_0 in Hz by lia.
      - apply Z.bits_inj'. intros i Hi. rewrite Z.land_spec, Z.pow2_bits_eqb, Z.bits_0 by lia.
        destruct (Z.eqb_spec 38 i) as [<-|]; [by rewrite E|apply andb_false_r]. }
    unfold canonical in Hc. case_bool_decide; [|apply Z.mod_small; lia].
    change 0xffffff8000000000 with (0x1ffffff * 2 ^ 39). rewrite Z.lor_comm.
    rewrite lor_add by (lia || (apply Z.mod_pos_bound; lia)). Z.to_euclidean_division_equations; lia.
  - apply bool_decide_eq_true in Hok. destruct Hok as [Hs Hb]. unfold ret. by apply bf_norm_small.
Qed.
End fields.

(** C26: for every kind of capability of the port (there is none for address
    spaces) the constructor builds a capability of that kind, from which every
    accessor reads the argument at its position: numbers of the width of the
    field, and 39-bit addresses as the sign-extended words they are. *)
Theorem rv_cap_fields (t : CapTag) (vs c : list Z) :
  rv_new t vs = Some c -> Forall2 fits (rv_fields t) vs ->
  get_cap_type c = Ok t /\ (fun f => rv_get f c) <$> rv_fields t = vs.
Proof.
  intros (Ht & -> & Hl)%rv_new_generic Hfit. destruct (rv_fields_ok t) as [Hok Hfs].
  assert (fst <$> zip (unsigned <$> rv_fields t) vs = unsigned <$> rv_fields t) as Hz by (apply fst_zip; rewrite length_fmap; lia).
  assert (0 <= CapTag_to_usize t < 2 ^ bs_type_bits cap_t) as Hb by (destruct t; cbn; lia). split.
  - unfold get_cap_type. rewrite bf_new_type; [by destruct t|by rewrite Hz|done].
  - apply list_eq. intros i. rewrite list_lookup_fmap. destruct (rv_fields t !! i) as [f|] eqn:Hf; cbn.
    + destruct (Forall2_lookup_l _ _ _ _ _ Hfit Hf) as (v & Hv & Hfv). rewrite Hv. f_equal. unfold rv_get.
      rewrite (bf_new_get _ _ _ (unsigned f) v); [|by rewrite Hz|unfold is_word; cbn in Hb; lia|].
      * apply rv_extend; [|done]. rewrite forallb_forall in Hfs. apply Hfs, list_elem_of_In. by eapply list_elem_of_lookup_2.
      * apply list_elem_of_lookup. exists i. rewrite lookup_zip_with, list_lookup_fmap, Hf. cbn. by rewrite Hv.
    + apply lookup_ge_None in Hf. symmetry. apply lookup_ge_None. lia.
Qed.
Lemma rv_cap_fields_witness :
  let c := new_frame_cap 7 0xffffffc080200000 1 3 0 0x200000 in
  get_cap_type c = Ok CapFrameCap /\
  (fun f => rv_get f c) <$> rv_fields CapFrameCap = [7; 0xffffffc080200000; 1; 3; 0; 0x200000].
Proof.
  intros c. apply (rv_cap_fields CapFrameCap [7; 0xffffffc080200000; 1; 3; 0; 0x200000] c); [reflexivity|].
  repeat constructor; unfold fits, canonical; cbn; lia.
Defined.
