(* ===== verification/RvCSpace.v ===== *)
(** * The RISC-V port: slots

    The operations of [sel4_cspace] that the invocations of the port call, over
    the capabilities of the port: [CSpace.v] with the fields of [RvCap.v]. *)

From stdpp Require Import base numbers gmap list.
From S2P Require Import Prelude Bitfield Common Cap DList CSpace RvCommon RvCap.
Local Open Scope Z_scope.
Local Open Scope krn_scope.

(* src: sel4_cspace/src/mdb.rs 11-11 mdb_node_t *)
Definition mdb_node_t : bitstruct := Bs 2 0 0 0.
(* src: sel4_cspace/src/mdb.rs 13-13 mdbNext *)
Definition mdbNext : bitfield := Bf 1 2 37 2 true.
(* src: sel4_cspace/src/mdb.rs 14-14 mdbRevocable *)
Definition mdbRevocable : bitfield := Bf 1 1 1 0 false.
(* src: sel4_cspace/src/mdb.rs 15-15 mdbFirstBadged *)
Definition mdbFirstBadged : bitfield := Bf 1 0 1 0 false.
(* src: sel4_cspace/src/mdb.rs 16-16 mdbPrev *)
Definition mdbPrev : bitfield := Bf 0 0 64 0 false.
(* src: sel4_cspace/src/mdb.rs 12-17 mdb_node_t::new *)
Definition mdb_node_new (next revocable firstBadged prev : Z) : list Z :=
  bf_new mdb_node_t [(mdbNext, next); (mdbRevocable, revocable);
    (mdbFirstBadged, firstBadged); (mdbPrev, prev)] 0.

Definition rv_mdb_get (f : bitfield) (x : cte_t) : Z := rv_get f (cteMDBNode x).

(* src: sel4_cspace/src/cte.rs 87-114 cte_t::is_mdb_parent_of *)
Definition is_mdb_parent_of (self next : cte_t) : res bool :=
  if rv_mdb_get mdbRevocable self =w 0 then mret false
  else
    r ← same_region_as (cte_cap self) (cte_cap next);
    if negb r then mret false
    else
      t ← get_cap_type (cte_cap self);
      match t with
      | CapEndpointCap =>
          tn ← get_cap_type (cte_cap next);
          _ ← assert_r (tn =t CapEndpointCap);
          let badge := rv_get ep_badge (cte_cap self) in
          if badge =w 0 then mret true
          else mret ((badge =w rv_get ep_badge (cte_cap next)) && (rv_mdb_get mdbFirstBadged next =w 0))
      | CapNotificationCap =>
          tn ← get_cap_type (cte_cap next);
          _ ← assert_r (tn =t CapNotificationCap);
          let badge := rv_get nf_badge (cte_cap self) in
          if badge =w 0 then mret true
          else mret ((badge =w rv_get nf_badge (cte_cap next)) && (rv_mdb_get mdbFirstBadged next =w 0))
      | _ => mret true
      end.

(* src: sel4_cspace/src/cte.rs 77-86 cte_t::ensure_no_children *)
Definition ensure_no_children (self : Z) : ST slots exception_t :=
  x ← load self;
  if rv_mdb_get mdbNext x <>w 0 then
    next ← load_ref (rv_mdb_get mdbNext x);
    p ← lift (is_mdb_parent_of x next);
    if p : bool then mret EXCEPTION_SYSCALL_ERROR else mret EXCEPTION_NONE
  else mret EXCEPTION_NONE.

(* src: sel4_cspace/src/cte.rs 44-76 cte_t::derive_cap *)
Definition derive_cap (self : Z) (c : list Z) : ST slots (exception_t * list Z) :=
  a ← lift (isArchCap c);
  if a : bool then lift (arch_derive_cap c)
  else
    t ← lift (get_cap_type c);
    match t with
    | CapZombieCap => mret (EXCEPTION_NONE, new_null_cap)
    | CapUntypedCap =>
        st ← ensure_no_children self;
        mret (if bool_decide (st <> EXCEPTION_NONE) then (st, new_null_cap) else (st, c))
    | CapReplyCap => mret (EXCEPTION_NONE, new_null_cap)
    | CapIrqControlCap => mret (EXCEPTION_NONE, new_null_cap)
    | _ => mret (EXCEPTION_NONE, c)
    end.

(* src: sel4_cspace/src/cte.rs 116-136 cte_t::is_final_cap *)
Definition is_final_cap (self : Z) : ST slots bool :=
  x ← load self;
  prev_is_same_obj ←
    (if rv_mdb_get mdbPrev x =w 0 then mret false
     else prev ← load_ref (rv_mdb_get mdbPrev x); lift (same_object_as (cte_cap prev) (cte_cap x)));
  if (prev_is_same_obj : bool) then mret false
  else if rv_mdb_get mdbNext x =w 0 then mret true
  else
    next ← load_ref (rv_mdb_get mdbNext x);
    b ← lift (same_object_as (cte_cap x) (cte_cap next));
    mret (negb b).

(* src: sel4_cspace/src/cte.rs 469-482 setUntypedCapAsFull *)
Definition setUntypedCapAsFull (srcCap newCap : list Z) (srcSlot : Z) : ST slots unit :=
  ts ← lift (get_cap_type srcCap);
  if negb (ts =t CapUntypedCap) then mret tt
  else
    tn ← lift (get_cap_type newCap);
    if negb (tn =t CapUntypedCap) then mret tt
    else
      x ← load srcSlot;
      tx ← lift (get_cap_type (cte_cap x));
      assert_m (tx =t CapUntypedCap) ;;
      when ((rv_get untyped_ptr srcCap =w rv_get untyped_ptr newCap)
            && (rv_get untyped_block_size srcCap =w rv_get untyped_block_size newCap))
        (store_with srcSlot (fun x => set_cap (bf_set untyped_free_index
           (MAX_FREE_INDEX (rv_get untyped_block_size srcCap)) (cte_cap x)) x)).

(* src: sel4_cspace/src/cte.rs 335-365 cte_insert *)
Definition cte_insert (new_cap : list Z) (src_slot dest_slot : Z) : ST slots unit :=
  src ← load src_slot;
  let srcCap := cte_cap src in
  newCapIsRevocable ← lift (is_cap_revocable new_cap srcCap);
  let newMDB := bf_set mdbFirstBadged (b2w newCapIsRevocable)
                 (bf_set mdbRevocable (b2w newCapIsRevocable)
                 (bf_set mdbPrev src_slot (cteMDBNode src))) in
  dest ← load dest_slot;
  td ← lift (get_cap_type (cte_cap dest));
  assert_m (td =t CapNullCap) ;;
  assert_m ((rv_mdb_get mdbNext dest =w 0) && (rv_mdb_get mdbPrev dest =w 0)) ;;
  setUntypedCapAsFull srcCap new_cap src_slot ;;
  store_with dest_slot (set_cap new_cap) ;;
  store_with dest_slot (set_mdb newMDB) ;;
  store_with src_slot (mdb_set mdbNext dest_slot) ;;
  when (rv_get mdbNext newMDB <>w 0) (store_ref (rv_get mdbNext newMDB) (mdb_set mdbPrev dest_slot)).

(* src: sel4_cspace/src/cte.rs 367-377 insert_new_cap *)
Definition insert_new_cap (parent slot : Z) (c : list Z) : ST slots unit :=
  p ← load parent;
  let next := rv_mdb_get mdbNext p in
  store_with slot (set_cap c) ;;
  store_with slot (set_mdb (mdb_node_new next 1 1 parent)) ;;
  when (next <>w 0) (store_ref next (mdb_set mdbPrev slot)) ;;
  store_with parent (mdb_set mdbNext slot).

(* src: sel4_cspace/src/cte.rs 379-407 cte_move *)
Definition cte_move (new_cap : list Z) (src_slot dest_slot : Z) : ST slots unit :=
  dest ← load dest_slot;
  td ← lift (get_cap_type (cte_cap dest));
  assert_m (td =t CapNullCap) ;;
  assert_m ((rv_mdb_get mdbNext dest =w 0) && (rv_mdb_get mdbPrev dest =w 0)) ;;
  src ← load src_slot;
  let mdb := cteMDBNode src in
  store_with dest_slot (set_cap new_cap) ;;
  store_with src_slot (set_cap new_null_cap) ;;
  store_with dest_slot (set_mdb mdb) ;;
  store_with src_slot (set_mdb (mdb_node_new 0 0 0 0)) ;;
  when (rv_get mdbPrev mdb <>w 0) (store_ref (rv_get mdbPrev mdb) (mdb_set mdbNext dest_slot)) ;;
  when (rv_get mdbNext mdb <>w 0) (store_ref (rv_get mdbNext mdb) (mdb_set mdbPrev dest_slot)).

(* src: sel4_cspace/src/cte.rs 409-448 cte_swap *)
Definition cte_swap (cap1 : list Z) (slot1 : Z) (cap2 : list Z) (slot2 : Z) : ST slots unit :=
  x1 ← load slot1;
  x2 ← load slot2;
  let mdb1 := cteMDBNode x1 in
  let mdb2 := cteMDBNode x2 in
  when (rv_get mdbPrev mdb1 <>w 0) (store_ref (rv_get mdbPrev mdb1) (mdb_set mdbNext slot2)) ;;
  when (rv_get mdbNext mdb1 <>w 0) (store_ref (rv_get mdbNext mdb1) (mdb_set mdbPrev slot2)) ;;
  store_with slot1 (set_cap cap2) ;;
  store_with slot2 (set_cap cap1) ;;
  store_with slot1 (set_mdb mdb2) ;;
  store_with slot2 (set_mdb mdb1) ;;
  when (rv_get mdbPrev mdb2 <>w 0) (store_ref (rv_get mdbPrev mdb2) (mdb_set mdbNext slot1)) ;;
  when (rv_get mdbNext mdb2 <>w 0) (store_ref (rv_get mdbNext mdb2) (mdb_set mdbPrev slot1)).

(* src: sel4_cspace/src/cte.rs 506-534 resolve_address_bits *)
Definition resolve_step (nodeCap : list Z) (cap_ptr n_bits0 n_bits : Z)
    : ST slots (list Z * Z + resolveAddressBits_ret_t) :=
  let radixBits := rv_get cnode_radix nodeCap in
  let guardBits := rv_get cnode_guard_size nodeCap in
  let levelBits := wadd radixBits guardBits in
  assert_m (levelBits <>w 0) ;;
  let capGuard := rv_get cnode_guard nodeCap in
  let guard := wshr cap_ptr (wsub n_bits guardBits &&& MASK wordRadix) &&& MASK guardBits in
  if bool_decide (guardBits > n_bits) || (guard <>w capGuard) then
    mret (inr (ResolveRet EXCEPTION_LOOKUP_FAULT 0 n_bits0))
  else if bool_decide (levelBits > n_bits) then
    mret (inr (ResolveRet EXCEPTION_LOOKUP_FAULT 0 n_bits0))
  else
    let offset := wshr cap_ptr (wsub n_bits levelBits) &&& MASK radixBits in
    let slot := cte_add (rv_get cnode_ptr nodeCap) offset in
    if n_bits =w levelBits then mret (inr (ResolveRet EXCEPTION_NONE slot 0))
    else
      let n_bits := wsub n_bits levelBits in
      x ← load slot;
      let nodeCap := cte_cap x in
      t ← lift (get_cap_type nodeCap);
      if negb (t =t CapCNodeCap) then mret (inr (ResolveRet EXCEPTION_NONE slot n_bits))
      else mret (inl (nodeCap, n_bits)).

(* src: sel4_cspace/src/cte.rs 505-536 resolve_address_bits *)
Fixpoint resolve_loop (fuel : nat) (nodeCap : list Z) (cap_ptr n_bits0 n_bits : Z)
    : ST slots resolveAddressBits_ret_t :=
  match fuel with
  | O => no_fuel
  | S fuel =>
      r ← resolve_step nodeCap cap_ptr n_bits0 n_bits;
      match r with
      | inr ret => mret ret
      | inl (nodeCap, n_bits) => resolve_loop fuel nodeCap cap_ptr n_bits0 n_bits
      end
  end.

(* src: sel4_cspace/src/cte.rs 484-537 resolve_address_bits *)
Definition resolve_address_bits (node_cap : list Z) (cap_ptr n_bits : Z)
    : ST slots resolveAddressBits_ret_t :=
  t ← lift (get_cap_type node_cap);
  if negb (t =t CapCNodeCap) then mret (ResolveRet EXCEPTION_LOOKUP_FAULT 0 n_bits)
  else resolve_loop (S (Z.to_nat n_bits)) node_cap cap_ptr n_bits n_bits.
