(* ===== verification/RvVspace.v ===== *)
(** * The RISC-V port: address spaces

    [sel4_vspace/src/arch/riscv64]: page-table entries, the lookup of a slot,
    the ASID table, mapping and unmapping, the root of translation, the
    kernel's own tables.  Page tables and ASID pools are words of memory. *)

From stdpp Require Import base numbers gmap list.
From S2P Require Import Prelude Bitfield Common Cap CSpace Sched State Vspace RvCommon RvCap.
Local Open Scope Z_scope.
Local Open Scope krn_scope.

(** ** State *)
Inductive rv_event : Type := Satp (v : Z) | Sfence | SfenceAsid (asid : Z) | SetTimer (t : Z) | SieSet (mask : Z) | SieClear (mask : Z).
#[export] Instance rv_event_eq_dec : EqDecision rv_event.
Proof. solve_decision. Defined.

(** The state that both builds share, the ASID table and what the core is told. *)
(* src: sel4_vspace/src/arch/riscv64/asid.rs 17-18 riscvKSASIDTable *)
Record rv_t := Rv { rv_k : kst; riscvKSASIDTable : list Z; rv_trace : list rv_event }.
Definition set_rv_k (k : kst) (s : rv_t) : rv_t := Rv k (riscvKSASIDTable s) (rv_trace s).
Definition set_table (t : list Z) (s : rv_t) : rv_t := Rv (rv_k s) t (rv_trace s).
Definition told (e : rv_event) (s : rv_t) : rv_t := Rv (rv_k s) (riscvKSASIDTable s) (rv_trace s ++ [e]).
Definition on_k {A} : ST kst A -> ST rv_t A := zoom rv_k set_rv_k.
Definition tell (e : rv_event) : ST rv_t unit := modify (told e).
Definition rd (p : Z) : ST rv_t Z := on_k (word_get p).
Definition wr (p v : Z) : ST rv_t unit := on_k (word_set p v).
(** [convert_to_mut_type_ref] *)
Definition rv_ref (p : Z) : ST rv_t Z := on_k (ref p).

(** ** Addresses *)
(* src: sel4_vspace/src/arch/riscv64/utils.rs 13-16 RISCV_GET_PT_INDEX *)
Definition RISCV_GET_PT_INDEX (addr n : Z) : Z :=
  wshr addr (wadd (wmul PT_INDEX_BITS (wsub (wsub CONFIG_PT_LEVELS 1) n)) seL4_PageBits) &&& MASK PT_INDEX_BITS.
(* src: sel4_vspace/src/arch/riscv64/utils.rs 25-27 RISCV_GET_LVL_PGSIZE_BITS *)
Definition RISCV_GET_LVL_PGSIZE_BITS (n : Z) : Z :=
  wadd (wmul PT_INDEX_BITS (wsub (wsub CONFIG_PT_LEVELS 1) n)) seL4_PageBits.
(* src: sel4_vspace/src/arch/riscv64/utils.rs 36-38 RISCV_GET_LVL_PGSIZE *)
Definition RISCV_GET_LVL_PGSIZE (n : Z) : Z := BIT (RISCV_GET_LVL_PGSIZE_BITS n).
(* src: sel4_vspace/src/arch/riscv64/utils.rs 48-50 kpptr_to_paddr *)
Definition kpptr_to_paddr (x : Z) : Z := wsub x KERNEL_ELF_BASE_OFFSET.
(* src: sel4_vspace/src/arch/riscv64/utils.rs 54-56 pptr_to_paddr *)
Definition pptr_to_paddr (x : Z) : Z := wsub x PPTR_BASE_OFFSET.
(* src: sel4_vspace/src/arch/riscv64/utils.rs 60-62 paddr_to_pptr *)
Definition paddr_to_pptr (x : Z) : Z := wadd x PPTR_BASE_OFFSET.

(** ** Page-table entries *)
Module Flag.
(* src: sel4_vspace/src/arch/riscv64/pte.rs 22-22 PTEFlags::V *)
Definition V : Z := BIT 0.
(* src: sel4_vspace/src/arch/riscv64/pte.rs 23-23 PTEFlags::R *)
Definition R : Z := BIT 1.
(* src: sel4_vspace/src/arch/riscv64/pte.rs 24-24 PTEFlags::W *)
Definition W : Z := BIT 2.
(* src: sel4_vspace/src/arch/riscv64/pte.rs 25-25 PTEFlags::X *)
Definition X : Z := BIT 3.
(* src: sel4_vspace/src/arch/riscv64/pte.rs 26-26 PTEFlags::U *)
Definition U : Z := BIT 4.
(* src: sel4_vspace/src/arch/riscv64/pte.rs 27-27 PTEFlags::G *)
Definition G : Z := BIT 5.
(* src: sel4_vspace/src/arch/riscv64/pte.rs 28-28 PTEFlags::A *)
Definition A : Z := BIT 6.
(* src: sel4_vspace/src/arch/riscv64/pte.rs 29-29 PTEFlags::D *)
Definition D : Z := BIT 7.
(* src: sel4_vspace/src/arch/riscv64/pte.rs 31-31 PTEFlags::VRWX *)
Definition VRWX : Z := V ||| R ||| W ||| X.
(* src: sel4_vspace/src/arch/riscv64/pte.rs 34-34 PTEFlags::ADUVRWX *)
Definition ADUVRWX : Z := A ||| D ||| U ||| VRWX.
End Flag.
(* src: sel4_vspace/src/arch/riscv64/pte.rs 47-49 PTE::new *)
Definition PTE_new (ppn flags : Z) : Z := flags ||| wshl ppn 10.
(* src: sel4_vspace/src/arch/riscv64/pte.rs 117-119 PTE::pte_invalid *)
Definition pte_invalid : Z := 0.
(* src: sel4_vspace/src/arch/riscv64/pte.rs 53-70 PTE::make_user_pte *)
Definition make_user_pte (paddr : Z) (executable : bool) (vm_rights : RvCommon.vm_rights_t) : Z :=
  let write := RISCVGetWriteFromVMRights vm_rights in
  let read := RISCVGetReadFromVMRights vm_rights in
  if (negb executable && negb read && negb write)%bool then pte_invalid
  else
    let flag := Flag.V ||| Flag.D ||| Flag.A ||| Flag.U in
    let flag := if executable then flag ||| Flag.X else flag in
    let flag := if write then flag ||| Flag.W else flag in
    let flag := if read then flag ||| Flag.R else flag in
    PTE_new (wshr paddr seL4_PageBits) flag.
(* src: sel4_vspace/src/arch/riscv64/pte.rs 74-82 PTE::pte_next_table *)
Definition pte_next_table (phys_addr : Z) (is_leaf : bool) : Z :=
  let ppn := wshr phys_addr 12 in
  let flag := Flag.V ||| Flag.G in
  let flag := if is_leaf then flag ||| (Flag.X ||| Flag.W ||| Flag.R ||| Flag.A ||| Flag.D) else flag in
  PTE_new ppn flag.
(* src: sel4_vspace/src/arch/riscv64/pte.rs 139-141 PTE::get_valid *)
Definition get_valid (pte : Z) : Z := wshr (pte &&& 0x1) 0.
(* src: sel4_vspace/src/arch/riscv64/pte.rs 144-146 PTE::get_ppn *)
Definition get_ppn (pte : Z) : Z := wshr (pte &&& 0x3ffffffffffc00) 10.
(* src: sel4_vspace/src/arch/riscv64/pte.rs 149-151 PTE::get_execute *)
Definition get_execute (pte : Z) : Z := wshr (pte &&& 0x8) 3.
(* src: sel4_vspace/src/arch/riscv64/pte.rs 154-156 PTE::get_write *)
Definition get_write (pte : Z) : Z := wshr (pte &&& 0x4) 2.
(* src: sel4_vspace/src/arch/riscv64/pte.rs 159-161 PTE::get_read *)
Definition get_read (pte : Z) : Z := wshr (pte &&& 0x2) 1.
(* src: sel4_vspace/src/arch/riscv64/pte.rs 123-126 PTE::is_pte_table *)
Definition is_pte_table (pte : Z) : bool :=
  (get_valid pte <>w 0) && negb ((get_read pte <>w 0) || (get_write pte <>w 0) || (get_execute pte <>w 0)).
(** The table an entry points to. *)
(* src: sel4_vspace/src/arch/riscv64/pte.rs 129-131 PTE::get_pte_from_ppn_mut *)
Definition get_pte_from_ppn_mut (pte : Z) : ST rv_t Z :=
  rv_ref (paddr_to_pptr (wshl (get_ppn pte) seL4_PageTableBits)).
(** [*mut PTE::add] *)
Definition pte_add (pt i : Z) : Z := wadd pt (8 * i).

(* src: sel4_vspace/src/arch/riscv64/satp.rs 47-52 sfence *)
Definition sfence : ST rv_t unit := tell Sfence.
(* src: sel4_vspace/src/arch/riscv64/pte.rs 85-88 PTE::update *)
Definition pte_update (p pte : Z) : ST rv_t unit := wr p pte ;; sfence.

(** ** The lookup of a slot *)
(* src: sel4_vspace/src/arch/riscv64/structures.rs 10-13 lookupPTSlot_ret_t *)
Record lookupPTSlot_ret_t := LookupPTSlot { ptSlot : Z; ptBitsLeft : Z }.
(** The loop, by the level that is left. *)
Fixpoint lookup_loop (level : nat) (vptr : Z) (ret : lookupPTSlot_ret_t) : ST rv_t lookupPTSlot_ret_t :=
  pte ← rd (ptSlot ret);
  match level with
  | S level =>
      if is_pte_table pte then
        let bits := wsub (ptBitsLeft ret) PT_INDEX_BITS in
        pt ← get_pte_from_ppn_mut pte;
        lookup_loop level vptr (LookupPTSlot (pte_add pt (wshr vptr bits &&& MASK PT_INDEX_BITS)) bits)
      else mret ret
  | O => mret ret
  end.
(* src: sel4_vspace/src/arch/riscv64/pte.rs 164-181 PTE::lookup_pt_slot *)
Definition lookup_pt_slot (self vptr : Z) : ST rv_t lookupPTSlot_ret_t :=
  let level := CONFIG_PT_LEVELS - 1 in
  let bits := wadd (wmul PT_INDEX_BITS level) seL4_PageBits in
  lookup_loop (Z.to_nat level) vptr
    (LookupPTSlot (pte_add self (wshr vptr bits &&& MASK PT_INDEX_BITS)) bits).

(** ** The root of translation *)
(* src: sel4_vspace/src/arch/riscv64/satp.rs 11-18 satp_t::new *)
Definition satp_new (mode asid ppn : Z) : Z :=
  0 ||| wshl (mode &&& 0xf) 60 ||| wshl (asid &&& 0xffff) 44 ||| wshl (ppn &&& 0xfffffffffff) 0.
(* src: sel4_vspace/src/arch/riscv64/satp.rs 59-66 setVSpaceRoot *)
Definition setVSpaceRoot (addr asid : Z) : ST rv_t unit :=
  let satp := satp_new 8 asid (wshr addr 12) in
  tell (Satp satp) ;; sfence.

(** ** ASIDs *)
(** An entry of a pool, as a word of memory. *)
Definition pool_entry (pool asid : Z) : Z := pte_add pool (asid &&& MASK asidLowBits).
(* src: sel4_vspace/src/arch/riscv64/asid.rs 126-130 hwASIDFlush *)
Definition hwASIDFlush (asid : Z) : ST rv_t unit := tell (SfenceAsid asid).
Definition table_get (i : Z) : ST rv_t Z := t ← gets riscvKSASIDTable; lift (idx t i).
Definition table_set (i v : Z) : ST rv_t unit := t ← gets riscvKSASIDTable; t' ← lift (upd t i v); modify (set_table t').
(* src: sel4_vspace/src/arch/riscv64/asid.rs 54-59 set_asid_pool_by_index *)
Definition set_asid_pool_by_index (index pool_ptr : Z) : ST rv_t unit := table_set index pool_ptr.
(* src: sel4_vspace/src/arch/riscv64/asid.rs 65-72 get_asid_pool_by_index *)
Definition get_asid_pool_by_index (index : Z) : ST rv_t (option Z) :=
  if bool_decide (index >= BIT asidHighBits) then mret None
  else p ← table_get index; mret (if p =w 0 then None else Some p).
(* src: sel4_vspace/src/arch/riscv64/asid.rs 78-103 find_vspace_for_asid *)
Definition find_vspace_for_asid (asid : Z) : ST rv_t findVSpaceForASID_ret :=
  poolPtr ← table_get (wshr asid asidLowBits);
  if poolPtr =w 0 then mret (FindVSpaceRet EXCEPTION_LOOKUP_FAULT None (Some lookup_fault_new_root_invalid))
  else
    vspace_root ← rd (pool_entry poolPtr asid);
    if vspace_root =w 0 then mret (FindVSpaceRet EXCEPTION_LOOKUP_FAULT None (Some lookup_fault_new_root_invalid))
    else mret (FindVSpaceRet EXCEPTION_NONE (Some vspace_root) None).

(** ** The root of a thread, and the deletion of ASIDs *)
Section roots.
(** The address of the kernel's root table. *)
Variable kernel_root_pageTable : Z.
Definition kernel_root : ST rv_t unit := setVSpaceRoot (kpptr_to_paddr kernel_root_pageTable) 0.
(* src: sel4_vspace/src/arch/riscv64/pagetable.rs 137-141 activate_kernel_vspace *)
Definition activate_kernel_vspace : ST rv_t unit := kernel_root.
(** The fault of a [Result], if any. *)
(* src: sel4_vspace/src/arch/riscv64/interface.rs 19-44 set_vm_root *)
Definition set_vm_root (vspace_root : list Z) : ST rv_t (option (list Z)) :=
  t ← lift (get_cap_type vspace_root);
  if negb (t =t CapPageTableCap) then kernel_root ;; mret None
  else
    lvl1pt ← rv_ref (rv_get pt_base_ptr vspace_root);
    let asid := rv_get pt_mapped_asid vspace_root in
    find_ret ← find_vspace_for_asid asid;
    ret ← (if bool_decide (fv_status find_ret <> EXCEPTION_NONE) || bool_decide (fv_vspace_root find_ret <> Some lvl1pt)
           then kernel_root ;; mret (fv_lookup_fault find_ret)
           else mret None);
    setVSpaceRoot (pptr_to_paddr lvl1pt) asid ;;
    mret ret.
(* src: sel4_vspace/src/arch/riscv64/asid.rs 33-49 delete_asid *)
Definition delete_asid (asid vspace : Z) (default_vspace_cap : list Z) : ST rv_t (option (list Z)) :=
  poolPtr ← table_get (wshr asid asidLowBits);
  hit ← (if poolPtr <>w 0 then root ← rd (pool_entry poolPtr asid); mret (root =w vspace) else mret false);
  if hit : bool then
    hwASIDFlush asid ;;
    wr (pool_entry poolPtr asid) 0 ;;
    set_vm_root default_vspace_cap
  else mret None.
(* src: sel4_vspace/src/arch/riscv64/asid.rs 109-122 delete_asid_pool *)
Definition delete_asid_pool (asid_base pool : Z) (default_vspace_cap : list Z) : ST rv_t (option (list Z)) :=
  p ← table_get (wshr asid_base asidLowBits);
  if p =w pool then
    table_set (wshr asid_base asidLowBits) 0 ;;
    set_vm_root default_vspace_cap
  else mret None.
End roots.
(* src: sel4_common/src/sel4_config.rs 64-64 IT_ASID *)
Definition IT_ASID : Z := 1.
(* src: sel4_vspace/src/arch/riscv64/asid.rs 20-27 write_it_asid_pool *)
Definition write_it_asid_pool (it_ap_cap it_lvl1pt_cap : list Z) : ST rv_t unit :=
  ap ← lift (get_cap_ptr it_ap_cap);
  root ← lift (get_cap_ptr it_lvl1pt_cap);
  wr (wadd ap (8 * IT_ASID)) root ;;
  table_set (wshr IT_ASID asidLowBits) ap.

(** ** Unmapping *)
(** The walk from the root towards the table: at most two levels. *)
Fixpoint unmap_walk (n : nat) (i pt ptSlot vptr target_pt : Z) : ST rv_t (option (Z * Z)) :=
  match n with
  | O => mret (Some (pt, ptSlot))
  | S n =>
      if pt <>w target_pt then
        let ptSlot := pte_add pt (RISCV_GET_PT_INDEX vptr i) in
        pte ← rd ptSlot;
        if is_pte_table pte then mret None
        else pt ← get_pte_from_ppn_mut pte; unmap_walk n (i + 1) pt ptSlot vptr target_pt
      else mret (Some (pt, ptSlot))
  end.
(* src: sel4_vspace/src/arch/riscv64/interface.rs 45-69 unmap_page_table *)
Definition unmap_page_table (asid vptr target_pt : Z) : ST rv_t unit :=
  find_ret ← find_vspace_for_asid asid;
  if bool_decide (fv_status find_ret <> EXCEPTION_NONE) then skip
  else
    root ← lift (or_panic (fv_vspace_root find_ret));
    assert_m (root <>w target_pt) ;;
    r ← unmap_walk (Z.to_nat (CONFIG_PT_LEVELS - 1)) 0 root (pte_add root (RISCV_GET_PT_INDEX vptr 0)) vptr target_pt;
    match r with
    | None => skip
    | Some (pt, ptSlot) =>
        if pt <>w target_pt then skip
        else wr ptSlot (PTE_new 0 0) ;; sfence
    end.
(** The method of the same name is the same code. *)
(* src: sel4_vspace/src/arch/riscv64/pte.rs 90-114 PTE::unmap_page_table *)
Definition PTE_unmap_page_table (self asid vptr : Z) : ST rv_t unit := unmap_page_table asid vptr self.
(* src: sel4_vspace/src/arch/riscv64/pagetable.rs 167-228 unmapPage *)
Definition unmapPage (page_size asid vptr pptr : Z) : ST rv_t (option (list Z)) :=
  find_ret ← find_vspace_for_asid asid;
  if bool_decide (fv_status find_ret <> EXCEPTION_NONE) then
    f ← lift (or_panic (fv_lookup_fault find_ret)); mret (Some f)
  else
    root ← lift (or_panic (fv_vspace_root find_ret));
    lu_ret ← lookup_pt_slot root vptr;
    bits ← lift (pageBitsForSize page_size);
    if ptBitsLeft lu_ret <>w bits then mret None
    else
      pte ← rd (ptSlot lu_ret);
      if (get_valid pte =w 0) || is_pte_table pte || (wshl (get_ppn pte) seL4_PageBits <>w pptr_to_paddr pptr)
      then mret None
      else wr (ptSlot lu_ret) 0 ;; sfence ;; mret None.

(** ** The tables of the kernel *)
(* src: sel4_vspace/src/arch/riscv64/pagetable.rs 25-26 kernel_root_pageTable *)
Record kpt_t := Kpt { kpt_root : list Z; kpt_level2 : list Z }.
(* src: sel4_vspace/src/pagetable.rs 26-29 map_next_table *)
Definition map_next_table (ptes : list Z) (i addr : Z) (is_leaf : bool) : res (list Z) :=
  upd ptes i (pte_next_table addr is_leaf).
Definition root_map (i addr : Z) (is_leaf : bool) : ST kpt_t unit :=
  t ← gets kpt_root; t' ← lift (map_next_table t i addr is_leaf); modify (fun k => Kpt t' (kpt_level2 k)).
Definition level2_map (i addr : Z) (is_leaf : bool) : ST kpt_t unit :=
  t ← gets kpt_level2; t' ← lift (map_next_table t i addr is_leaf); modify (fun k => Kpt (kpt_root k) t').
(** [for a in (lo..hi).step_by(step)]: the number of rounds. *)
Definition rounds (lo hi step : Z) : Z := (hi - lo + step - 1) / step.
(* src: sel4_vspace/src/arch/riscv64/device.rs 6-6 KDEV_BASE *)
Definition KDEV_BASE : Z := 0xFFFFFFFFC0000000.
(* src: sel4_vspace/src/arch/riscv64/boot.rs 14-26 map_kernel_frame *)
Definition map_kernel_frame (paddr vaddr : Z) (_vm_rights : RvCommon.vm_rights_t) : ST kpt_t unit :=
  if bool_decide (vaddr >= KDEV_BASE) then
    let paddr := ROUND_DOWN paddr (RISCV_GET_LVL_PGSIZE_BITS 1) in
    level2_map (RISCV_GET_PT_INDEX vaddr 0) paddr true
  else
    let paddr := ROUND_DOWN paddr (RISCV_GET_LVL_PGSIZE_BITS 0) in
    root_map (RISCV_GET_PT_INDEX vaddr 0) paddr true.
(** The list of device frames is empty on this platform. *)
(* src: sel4_vspace/src/arch/riscv64/device.rs 29-41 map_kernel_devices *)
Definition map_kernel_devices : ST kpt_t unit :=
  foldr (fun (f : Z * Z) m => map_kernel_frame f.1 f.2 VMKernelOnly ;; m) skip [].
(** [level2_base] is the address of the second-level table. *)
(* src: sel4_vspace/src/arch/riscv64/pagetable.rs 88-131 rust_map_kernel_window *)
Definition rust_map_kernel_window (level2_base : Z) : ST kpt_t unit :=
  let step := RISCV_GET_LVL_PGSIZE 0 in
  for_range (Z.to_nat (Z.min (rounds PPTR_BASE PPTR_TOP step) (rounds PADDR_BASE PADDR_TOP step))) 0 (fun k =>
    root_map (RISCV_GET_PT_INDEX (PPTR_BASE + step * k) 0) (PADDR_BASE + step * k) true) ;;
  let pptr := ROUND_DOWN KERNEL_ELF_BASE (RISCV_GET_LVL_PGSIZE_BITS 0) in
  let paddr := ROUND_DOWN KERNEL_ELF_PADDR_BASE (RISCV_GET_LVL_PGSIZE_BITS 0) in
  root_map (RISCV_GET_PT_INDEX (wadd KERNEL_ELF_PADDR_BASE PPTR_BASE_OFFSET) 0) (kpptr_to_paddr level2_base) false ;;
  root_map (RISCV_GET_PT_INDEX pptr 0) (kpptr_to_paddr level2_base) false ;;
  let step2 := RISCV_GET_LVL_PGSIZE 1 in
  for_range (Z.to_nat (rounds pptr (wadd PPTR_TOP step) step2)) 0 (fun index =>
    level2_map index (wadd paddr (wmul step2 index)) true) ;;
  map_kernel_devices.
(** The kernel's part of a root table: from entry two on. *)
(* src: sel4_vspace/src/arch/riscv64/pagetable.rs 148-157 copyGlobalMappings *)
Definition copyGlobalMappings (kernel_root_pageTable : list Z) (Lvl1pt : Z) : ST rv_t unit :=
  let i := RISCV_GET_PT_INDEX 0x80000000 0 in
  for_range (Z.to_nat (BIT PT_INDEX_BITS - i)) i (fun i =>
    let newLvl1pt := wadd Lvl1pt (i * 8) in
    e ← lift (idx kernel_root_pageTable i);
    wr newLvl1pt e).

(** ** The address space of the first thread *)
(* src: sel4_vspace/src/arch/riscv64/boot.rs 30-38 map_it_pt_cap *)
Definition map_it_pt_cap (_vspace_cap _pt_cap : list Z) : ST rv_t unit :=
  let vptr := rv_get pt_mapped_address _pt_cap in
  root ← lift (get_cap_ptr _vspace_cap);
  lvl1pt ← rv_ref root;
  pt ← lift (get_cap_ptr _pt_cap);
  pt_ret ← lookup_pt_slot lvl1pt vptr;
  targetSlot ← rv_ref (ptSlot pt_ret);
  wr targetSlot (PTE_new (wshr (pptr_to_paddr pt) seL4_PageBits) Flag.V) ;; sfence.
(* src: sel4_vspace/src/arch/riscv64/boot.rs 41-54 map_it_frame_cap *)
Definition map_it_frame_cap (_vspace_cap _frame_cap : list Z) : ST rv_t unit :=
  let vptr := rv_get frame_mapped_address _frame_cap in
  root ← lift (get_cap_ptr _vspace_cap);
  lvl1pt ← rv_ref root;
  frame_pptr ← lift (get_cap_ptr _frame_cap);
  pt_ret ← lookup_pt_slot lvl1pt vptr;
  targetSlot ← rv_ref (ptSlot pt_ret);
  wr targetSlot (PTE_new (wshr (pptr_to_paddr frame_pptr) seL4_PageBits) Flag.ADUVRWX) ;; sfence.
(* src: sel4_vspace/src/arch/riscv64/boot.rs 58-82 create_mapped_it_frame_cap *)
Definition create_mapped_it_frame_cap (pd_cap : list Z) (pptr vptr asid : Z) (use_large _exec : bool) : ST rv_t (list Z) :=
  let frame_size := if use_large then RISCVMegaPageBits else RISCVPageBits in
  let c := new_frame_cap asid pptr frame_size (vm_rights_to_usize VMReadWrite) 0 vptr in
  map_it_frame_cap pd_cap c ;; mret c.
(* src: sel4_vspace/src/arch/riscv64/boot.rs 84-86 create_unmapped_it_frame_cap *)
Definition create_unmapped_it_frame_cap (pptr : Z) (_use_large : bool) : list Z := new_frame_cap 0 pptr 0 0 0 0.
(* src: sel4_vspace/src/boot.rs 7-11 create_it_pt_cap *)
Definition create_it_pt_cap (vspace_cap : list Z) (pptr vptr asid : Z) : ST rv_t (list Z) :=
  let c := new_page_table_cap asid pptr 1 vptr in
  map_it_pt_cap vspace_cap c ;; mret c.
