(* ===== verification/RvInv.v ===== *)
(** * The RISC-V port: invocations of address-space capabilities

    [decode/arch/riscv64.rs] and the RISC-V parts of [invoke_mmu_op.rs],
    [interfaces_impl/cspace.rs] and [interrupt/mod.rs].  The state and the
    error reports are those of the other build; the capabilities, slots,
    page tables and ASIDs are the port's. *)

From stdpp Require Import base numbers gmap list.
From S2P Require Import Prelude Bitfield Common Cap DList CSpace Sched State Vspace Threads Delete Ipc Finalise Syscall CNodeInv UntypedInv MmuInv RvCommon RvCap RvCSpace RvVspace.
Local Open Scope Z_scope.
Local Open Scope krn_scope.

(** ** Shared operations, on the state of the port *)
Definition rv_fail (m : ST kst exception_t) : ST rv_t exception_t := on_k m.
Definition rv_slots {A} (m : ST slots A) : ST rv_t A := on_k (on_slots m).
Definition rv_ok_or (st : exception_t) (k : ST rv_t exception_t) : ST rv_t exception_t :=
  if bool_decide (st <> EXCEPTION_NONE) then mret st else k.
Definition rv_restart : ST rv_t unit := on_k current_restart.
Definition rv_cap (s : Z) : ST rv_t (list Z) := on_k (slot_cap s).
Definition rv_cap_set (s : Z) (f : bitfield) (v : Z) : ST rv_t unit := on_k (slot_cap_set s f v).
Definition none_extra (i : Z) : ST rv_t bool := on_k (extra_cap_is_none i).
Definition extra (i : Z) : ST rv_t Z := on_k (extra_cap_unwrap i).
Definition set_rv_fault (o : option (list Z)) : ST rv_t unit :=
  match o with Some f => on_k (sys_mod (set_lookup_fault f)) | None => skip end.
(* src: kernel/src/syscall/utils.rs 80-85 get_syscall_arg *)
Definition get_syscall_arg (i ipc_buffer : Z) : ST rv_t Z :=
  if bool_decide (i < RvCommon.msgRegisterNum) then
    c ← on_k (on_sst get_currenct_thread);
    t ← on_k (thread c); lift (RvCommon.get_register (tcbArch t) (RMsg i))
  else on_k (buf_msg ipc_buffer i).
(** Clearing memory; no cache is cleaned on this architecture. *)
(* src: kernel/src/utils.rs 13-17 clear_memory *)
Definition clear_memory (ptr bits : Z) : ST rv_t unit := on_k (fill_zero ptr (BIT bits)).
(* src: kernel/src/syscall/utils.rs 150-152 is_valid_vtable_root *)
Definition is_valid_vtable_root (c : list Z) : res bool :=
  t ← RvCap.get_cap_type c; mret ((t =t CapPageTableCap) && (rv_get pt_is_mapped c <>w 0)).
(** Lookup of a slot for an invocation. *)
(* src: kernel/src/syscall/utils.rs 159-208 lookup_slot_for_cnode_op *)
Definition lookup_slot_for_cnode_op (is_source : bool) (root : list Z) (cap_ptr depth : Z) : ST rv_t (exception_t * Z) :=
  t ← lift (RvCap.get_cap_type root);
  if negb (t =t CapCNodeCap) then
    st ← on_k (fail_lookup (b2w is_source));
    on_k (sys_mod (set_lookup_fault lookup_fault_new_root_invalid)) ;; mret (st, 0)
  else if bool_decide (depth < 1) || bool_decide (depth > wordBits) then
    st ← on_k (fail_range 1 wordBits); mret (st, 0)
  else
    res_ret ← rv_slots (RvCSpace.resolve_address_bits root cap_ptr depth);
    if bool_decide (rab_status res_ret <> EXCEPTION_NONE) then
      st ← on_k (fail_lookup (b2w is_source)); mret (st, 0)
    else if rab_bitsRemaining res_ret <>w 0 then
      st ← on_k (fail_lookup (b2w is_source));
      on_k (sys_mod (set_lookup_fault (lookup_fault_new_depth_mismatch 0 (rab_bitsRemaining res_ret)))) ;;
      mret (st, 0)
    else mret (EXCEPTION_NONE, rab_slot res_ret).

(** ** Operations *)
Section rv.
(** The address and the contents of the kernel's root table. *)
Variable kernel_root : Z.
Variable kernel_root_pageTable : list Z.

(* src: kernel/src/syscall/invocation/invoke_mmu_op.rs 35-43 invoke_page_table_unmap *)
Definition invoke_page_table_unmap (pt_slot : Z) : ST rv_t exception_t :=
  c ← rv_cap pt_slot;
  when (rv_get pt_is_mapped c <>w 0)
    (pt ← rv_ref (rv_get pt_base_ptr c);
     unmap_page_table (rv_get pt_mapped_asid c) (rv_get pt_mapped_address c) pt ;;
     clear_memory pt seL4_PageTableBits) ;;
  rv_cap_set pt_slot pt_is_mapped 0 ;;
  mret EXCEPTION_NONE.
(* src: kernel/src/syscall/invocation/invoke_mmu_op.rs 45-59 invoke_page_table_map *)
Definition invoke_page_table_map (cap_slot pt_slot asid vaddr : Z) : ST rv_t exception_t :=
  c ← rv_cap cap_slot;
  let paddr := pptr_to_paddr (rv_get pt_base_ptr c) in
  let pte := PTE_new (wshr paddr seL4_PageBits) Flag.V in
  wr pt_slot pte ;;
  rv_cap_set cap_slot pt_is_mapped 1 ;;
  rv_cap_set cap_slot pt_mapped_asid asid ;;
  rv_cap_set cap_slot pt_mapped_address vaddr ;;
  sfence ;; mret EXCEPTION_NONE.
(* src: kernel/src/syscall/invocation/invoke_mmu_op.rs 98-116 invoke_page_unmap *)
Definition invoke_page_unmap (frame_slot : Z) : ST rv_t exception_t :=
  c ← rv_cap frame_slot;
  when (rv_get pt_mapped_asid c <>w asidInvalid)
    (e ← unmapPage (rv_get frame_size c) (rv_get frame_mapped_asid c) (rv_get frame_mapped_address c)
           (rv_get frame_base_ptr c);
     set_rv_fault e) ;;
  rv_cap_set frame_slot frame_mapped_address 0 ;;
  rv_cap_set frame_slot frame_mapped_asid asidInvalid ;;
  mret EXCEPTION_NONE.
(* src: sel4_vspace/src/structures.rs 55-57 vm_attributes_t::get_execute_never *)
Definition get_execute_never (attr : Z) : Z := attr &&& 1.
(* src: kernel/src/syscall/invocation/invoke_mmu_op.rs 119-142 invoke_page_map *)
Definition invoke_page_map (w_rights_mask vaddr asid attr pt_slot frame_slot : Z) : ST rv_t exception_t :=
  c ← rv_cap frame_slot;
  frame_vm_rights ← lift (RvCommon.vm_rights_from_word (rv_get frame_vm_rights c));
  let vm_rights := RvCommon.maskVMRights frame_vm_rights (rights_from_word w_rights_mask) in
  let frame_addr := pptr_to_paddr (rv_get frame_base_ptr c) in
  rv_cap_set frame_slot frame_mapped_address vaddr ;;
  rv_cap_set frame_slot frame_mapped_asid asid ;;
  let executable := get_execute_never attr =w 0 in
  let pte := make_user_pte frame_addr executable vm_rights in
  rv_restart ;;
  pte_update pt_slot pte ;;
  mret EXCEPTION_NONE.
(** [set_mr] writes the first message register. *)
(* src: kernel/src/syscall/invocation/invoke_mmu_op.rs 84-96 invoke_page_get_address *)
Definition invoke_page_get_address (vbase_ptr : Z) (call : bool) : ST rv_t exception_t :=
  thread_ ← on_k (on_sst get_currenct_thread);
  let reg_set r v := on_k (x ← thread thread_; regs ← lift (RvCommon.set_register (tcbArch x) r v); thread_mod thread_ (set_tcbArch regs)) in
  when call
    (reg_set RBadge 0 ;;
     reg_set (RMsg 0) vbase_ptr ;;
     let length := 1 in
     reg_set RMsgInfo (message_info_to_word (message_info_new 0 0 0 length))) ;;
  rv_restart ;;
  mret EXCEPTION_NONE.
(* src: kernel/src/syscall/invocation/invoke_mmu_op.rs 244-262 invoke_asid_control *)
Definition invoke_asid_control (frame_ptr slot_ parent_slot asid_base : Z) : ST rv_t exception_t :=
  c ← rv_cap parent_slot;
  rv_cap_set parent_slot untyped_free_index (MAX_FREE_INDEX (rv_get untyped_block_size c)) ;;
  bits ← lift (pageBitsForSize RISCV_4K_Page);
  clear_memory frame_ptr bits ;;
  rv_slots (RvCSpace.cte_insert (new_asid_pool_cap asid_base frame_ptr) parent_slot slot_) ;;
  assert_m (asid_base &&& MASK asidLowBits =w 0) ;;
  set_asid_pool_by_index (wshr asid_base asidLowBits) frame_ptr ;;
  mret EXCEPTION_NONE.
(* src: kernel/src/syscall/invocation/invoke_mmu_op.rs 265-278 invoke_asid_pool *)
Definition invoke_asid_pool (asid pool vspace_slot : Z) : ST rv_t exception_t :=
  c ← rv_cap vspace_slot;
  let region_base := rv_get pt_base_ptr c in
  rv_cap_set vspace_slot pt_is_mapped 1 ;;
  rv_cap_set vspace_slot pt_mapped_address 0 ;;
  rv_cap_set vspace_slot pt_mapped_asid asid ;;
  copyGlobalMappings kernel_root_pageTable region_base ;;
  wr (pool_entry pool asid) region_base ;;
  mret EXCEPTION_NONE.

(** ** Decoding *)
(** The root table and the ASID of a top-level page-table capability. *)
(* src: kernel/src/syscall/invocation/decode/arch/riscv64.rs 422-457 get_vspace *)
Definition get_vspace (lvl1pt_cap : list Z) : ST rv_t (option (Z * Z)) :=
  t ← lift (RvCap.get_cap_type lvl1pt_cap);
  if negb (t =t CapPageTableCap) || (rv_get pt_is_mapped lvl1pt_cap =w asidInvalid) then
    rv_fail (fail_cap 1) ;; mret None
  else
    lvl1pt ← rv_ref (rv_get pt_base_ptr lvl1pt_cap);
    let asid := rv_get pt_mapped_asid lvl1pt_cap in
    find_ret ← find_vspace_for_asid asid;
    if bool_decide (fv_status find_ret <> EXCEPTION_NONE) then
      f ← lift (or_panic (fv_lookup_fault find_ret));
      set_rv_fault (Some f) ;; rv_fail (fail_lookup 0) ;; mret None
    else
      root ← lift (or_panic (fv_vspace_root find_ret));
      if root <>w lvl1pt then rv_fail (fail_cap 1) ;; mret None
      else mret (Some (lvl1pt, asid)).
(* src: kernel/src/syscall/invocation/decode/arch/riscv64.rs 371-420 decode_page_table_map *)
Definition decode_page_table_map (length pt_cte buffer : Z) : ST rv_t exception_t :=
  n0 ← none_extra 0;
  if (bool_decide (length < 2) || n0)%bool then rv_fail (fail_with seL4_TruncatedMessage)
  else
    c ← rv_cap pt_cte;
    if rv_get pt_is_mapped c <>w 0 then rv_fail (fail_cap 0)
    else
      vaddr ← get_syscall_arg 0 buffer;
      if bool_decide (vaddr >= USER_TOP) then
        rv_fail (set_error seL4_InvalidArgument ;; syscall_error (set_invalidCapNumber 0) ;; mret EXCEPTION_SYSCALL_ERROR)
      else
        s ← extra 0;
        lvl1pt_cap ← rv_cap s;
        v ← get_vspace lvl1pt_cap;
        match v with
        | None => mret EXCEPTION_SYSCALL_ERROR
        | Some (lvl1pt, asid) =>
            lu_ret ← lookup_pt_slot lvl1pt vaddr;
            lu_slot ← rv_ref (ptSlot lu_ret);
            full ← (if ptBitsLeft lu_ret =w seL4_PageBits then mret true
                    else pte ← rd lu_slot; mret (get_valid pte <>w 0));
            if full : bool then rv_fail (fail_with seL4_DeleteFirst)
            else
              rv_restart ;;
              invoke_page_table_map pt_cte lu_slot asid (vaddr &&& wnot (MASK (ptBitsLeft lu_ret)))
        end.
(* src: kernel/src/syscall/invocation/decode/arch/riscv64.rs 340-369 decode_page_table_unmap *)
Definition decode_page_table_unmap (pt_cte : Z) : ST rv_t exception_t :=
  f ← rv_slots (RvCSpace.is_final_cap pt_cte);
  if negb f then rv_fail (fail_with seL4_RevokeFirst)
  else
    c ← rv_cap pt_cte;
    top ← (if rv_get pt_is_mapped c <>w 0 then
             let asid := rv_get pt_mapped_asid c in
             find_ret ← find_vspace_for_asid asid;
             let pte_ptr := rv_get pt_base_ptr c in
             top ← (if bool_decide (fv_status find_ret = EXCEPTION_NONE)
                    then root ← lift (or_panic (fv_vspace_root find_ret)); mret (root =w pte_ptr)
                    else mret false);
             if top : bool then mret true
             else fault ← lift (or_panic (fv_lookup_fault find_ret)); set_rv_fault (Some fault) ;; mret false
           else mret false);
    if top : bool then rv_fail (fail_with seL4_RevokeFirst)
    else rv_restart ;; invoke_page_table_unmap pt_cte.
(* src: kernel/src/syscall/invocation/decode/arch/riscv64.rs 64-82 decode_page_table_invocation *)
Definition decode_page_table_invocation (label : RvLabel) (length cte buffer : Z) : ST rv_t exception_t :=
  match label with
  | RISCVPageTableUnmap => decode_page_table_unmap cte
  | RISCVPageTableMap => decode_page_table_map length cte buffer
  | _ => rv_fail (fail_with seL4_IllegalOperation)
  end.
(* src: sel4_vspace/src/utils.rs 5-7 checkVPAlignment *)
Definition checkVPAlignment (sz w : Z) : res bool :=
  bits ← pageBitsForSize sz; mret (w &&& MASK bits =w 0).
(** The conditions on an entry that a frame is mapped in. *)
Definition check_frame_slot (c : list Z) (asid vaddr pte : Z) : ST rv_t exception_t :=
  let frame_asid := rv_get frame_mapped_asid c in
  if frame_asid <>w asidInvalid then
    if frame_asid <>w asid then rv_fail (fail_cap 1)
    else if rv_get frame_mapped_address c <>w vaddr then rv_fail (fail_argument 0)
    else if is_pte_table pte then rv_fail (fail_with seL4_DeleteFirst)
    else mret EXCEPTION_NONE
  else if get_valid pte <>w 0 then rv_fail (fail_with seL4_DeleteFirst)
  else mret EXCEPTION_NONE.
(* src: kernel/src/syscall/invocation/decode/arch/riscv64.rs 248-338 decode_frame_map *)
Definition decode_frame_map (length frame_slot buffer : Z) : ST rv_t exception_t :=
  n0 ← (if bool_decide (length < 3) then mret true else none_extra 0);
  if n0 : bool then rv_fail (fail_with seL4_TruncatedMessage)
  else
    vaddr ← get_syscall_arg 0 buffer;
    w_rights_mask ← get_syscall_arg 1 buffer;
    attr ← get_syscall_arg 2 buffer;
    s ← extra 0;
    lvl1pt_cap ← rv_cap s;
    v ← get_vspace lvl1pt_cap;
    match v with
    | None => mret EXCEPTION_SYSCALL_ERROR
    | Some (lvl1pt, asid) =>
        c ← rv_cap frame_slot;
        let frame_size_ := rv_get frame_size c in
        bits ← lift (pageBitsForSize frame_size_);
        let vtop := wsub (wadd vaddr (BIT bits)) 1 in
        aligned ← lift (checkVPAlignment frame_size_ vaddr);
        if bool_decide (vtop >= USER_TOP) then
          rv_fail (set_error seL4_InvalidArgument ;; syscall_error (set_invalidCapNumber 0) ;; mret EXCEPTION_SYSCALL_ERROR)
        else if negb aligned then rv_fail (fail_with seL4_AlignmentError)
        else
          lu_ret ← lookup_pt_slot lvl1pt vaddr;
          if ptBitsLeft lu_ret <>w bits then
            set_rv_fault (Some (lookup_fault_new_missing_cap (ptBitsLeft lu_ret))) ;; rv_fail (fail_lookup 0)
          else
            pt_slot ← rv_ref (ptSlot lu_ret);
            pte ← rd pt_slot;
            st ← check_frame_slot c asid vaddr pte;
            rv_ok_or st (invoke_page_map w_rights_mask vaddr asid attr pt_slot frame_slot)
    end.
(* src: kernel/src/syscall/invocation/decode/arch/riscv64.rs 84-109 decode_frame_invocation *)
Definition decode_frame_invocation (label : RvLabel) (length frame_slot : Z) (call : bool) (buffer : Z) : ST rv_t exception_t :=
  match label with
  | RISCVPageMap => decode_frame_map length frame_slot buffer
  | RISCVPageUnmap => rv_restart ;; invoke_page_unmap frame_slot
  | RISCVPageGetAddress =>
      rv_restart ;; c ← rv_cap frame_slot; invoke_page_get_address (rv_get frame_base_ptr c) call
  | _ => rv_fail (fail_with seL4_IllegalOperation)
  end.

(** The first index that has no pool: the table has 128 entries. *)
Fixpoint free_pool (fuel : nat) (i : Z) : ST rv_t Z :=
  match fuel with
  | O => no_fuel
  | S fuel => p ← get_asid_pool_by_index i; match p with Some _ => free_pool fuel (i + 1) | None => mret i end
  end.
(* src: kernel/src/syscall/invocation/decode/arch/riscv64.rs 111-181 decode_asid_control *)
Definition decode_asid_control (label : RvLabel) (length buffer : Z) : ST rv_t exception_t :=
  if bool_decide (label <> RISCVASIDControlMakePool) then rv_fail (fail_with seL4_IllegalOperation)
  else
    n ← (if bool_decide (length < 2) then mret true
         else n0 ← none_extra 0; if n0 : bool then mret true else none_extra 1);
    if n : bool then rv_fail (fail_with seL4_TruncatedMessage)
    else
      index ← get_syscall_arg 0 buffer;
      depth ← get_syscall_arg 1 buffer;
      parent_slot ← extra 0;
      untyped_cap ← rv_cap parent_slot;
      root_slot ← extra 1;
      root ← rv_cap root_slot;
      i ← free_pool (Z.to_nat (nASIDPools + 1)) 0;
      if i =w nASIDPools then rv_fail (fail_with seL4_DeleteFirst)
      else
        let asid_base := wshl i asidLowBits in
        t ← lift (RvCap.get_cap_type untyped_cap);
        if negb (t =t CapUntypedCap) || (rv_get untyped_block_size untyped_cap <>w seL4_ASIDPoolBits)
           || (rv_get untyped_is_device untyped_cap <>w 0)
        then rv_fail (fail_cap 1)
        else
          status ← rv_slots (RvCSpace.ensure_no_children parent_slot);
          if bool_decide (status <> EXCEPTION_NONE) then rv_fail (set_error seL4_RevokeFirst ;; mret status)
          else
            let frame := rv_get untyped_ptr untyped_cap in
            lu_ret ← lookup_slot_for_cnode_op false root index depth;
            rv_ok_or lu_ret.1
              (dest_slot ← rv_ref lu_ret.2;
               d ← rv_cap dest_slot;
               td ← lift (RvCap.get_cap_type d);
               if negb (td =t CapNullCap) then rv_fail (fail_with seL4_DeleteFirst)
               else rv_restart ;; invoke_asid_control frame dest_slot parent_slot asid_base).
(** The first ASID of the pool that is neither zero nor taken. *)
Fixpoint free_asid (fuel : nat) (pool asid i : Z) : ST rv_t Z :=
  match fuel with
  | O => no_fuel
  | S fuel =>
      if bool_decide (i < BIT asidLowBits) then
        taken ← (if wadd asid i =w 0 then mret true
                 else root ← rd (pte_add pool i); mret (root <>w 0));
        if taken : bool then free_asid fuel pool asid (i + 1) else mret i
      else mret i
  end.
(* src: kernel/src/syscall/invocation/decode/arch/riscv64.rs 183-246 decode_asid_pool *)
Definition decode_asid_pool (label : RvLabel) (cte : Z) : ST rv_t exception_t :=
  if bool_decide (label <> RISCVASIDPoolAssign) then rv_fail (fail_with seL4_IllegalOperation)
  else
    n0 ← none_extra 0;
    if n0 : bool then rv_fail (fail_with seL4_TruncatedMessage)
    else
      vspace_slot ← extra 0;
      vspace_cap ← rv_cap vspace_slot;
      t ← lift (RvCap.get_cap_type vspace_cap);
      if negb (t =t CapPageTableCap) || (rv_get pt_is_mapped vspace_cap <>w 0) then rv_fail (fail_cap 1)
      else
        c ← rv_cap cte;
        let asid := rv_get asid_base c in
        o ← get_asid_pool_by_index (wshr asid asidLowBits);
        match o with
        | Some pool =>
            if pool <>w rv_get asid_pool c then rv_fail (fail_cap 0)
            else
              i ← free_asid (Z.to_nat (BIT asidLowBits + 1)) pool asid 0;
              if i =w BIT asidLowBits then rv_fail (fail_with seL4_DeleteFirst)
              else rv_restart ;; invoke_asid_pool (wadd asid i) pool vspace_slot
        | None =>
            set_rv_fault (Some lookup_fault_new_root_invalid) ;; rv_fail (fail_lookup 0)
        end.
(* src: kernel/src/syscall/invocation/decode/arch/riscv64.rs 46-62 decode_mmu_invocation *)
Definition decode_mmu_invocation (label : RvLabel) (length slot_ : Z) (call : bool) (buffer : Z) : ST rv_t exception_t :=
  c ← rv_cap slot_;
  t ← lift (RvCap.get_cap_type c);
  match t with
  | CapPageTableCap => decode_page_table_invocation label length slot_ buffer
  | CapFrameCap => decode_frame_invocation label length slot_ call buffer
  | CapASIDControlCap => decode_asid_control label length buffer
  | CapASIDPoolCap => decode_asid_pool label slot_
  | _ => panic
  end.

(** ** Finalisation

    The slots of a thread are before it, in an object of [2 ^ 10] bytes. *)
(* src: sel4_common/src/sel4_config.rs 78-78 seL4_TCBBits *)
Definition seL4_TCBBits : Z := 10.
(* src: sel4_task/src/tcb.rs 71-78 tcb_t::get_cspace *)
Definition get_cspace (tcb i : Z) : Z := cte_add (tcb &&& wnot (MASK seL4_TCBBits)) i.
(** [get_currenct_thread().get_cspace(tcbVTable).cap] *)
Definition current_vtable : ST kst (list Z) :=
  cur ← on_sst get_currenct_thread; x ← slot (get_cspace cur tcbVTable); mret (cte_cap x).
(* src: kernel/src/interfaces_impl/cspace.rs 267-277 deleteASID *)
Definition deleteASID (asid vspace : Z) : ST rv_t unit :=
  c ← on_k current_vtable;
  f ← delete_asid kernel_root asid vspace c;
  set_rv_fault f.
(* src: kernel/src/interfaces_impl/cspace.rs 294-304 deleteASIDPool *)
Definition deleteASIDPool (asid_base pool : Z) : ST rv_t unit :=
  c ← on_k current_vtable;
  f ← delete_asid_pool kernel_root asid_base pool c;
  set_rv_fault f.
(* src: kernel/src/interfaces_impl/cspace.rs 21-69 Arch_finaliseCap *)
Definition Arch_finaliseCap (c : list Z) (final_ : bool) : ST rv_t finaliseCap_ret :=
  t ← lift (RvCap.get_cap_type c);
  (match t with
   | CapFrameCap =>
       when (rv_get frame_mapped_asid c <>w 0)
         (e ← unmapPage (rv_get frame_size c) (rv_get frame_mapped_asid c) (rv_get frame_mapped_address c)
                (rv_get frame_base_ptr c);
          set_rv_fault e)
   | CapPageTableCap =>
       when (final_ && (rv_get pt_is_mapped c <>w 0))
         (let asid := rv_get pt_mapped_asid c in
          find_ret ← find_vspace_for_asid asid;
          let pte := rv_get pt_base_ptr c in
          is_root ← (if bool_decide (fv_status find_ret = EXCEPTION_NONE)
                     then root ← lift (or_panic (fv_vspace_root find_ret)); mret (root =w pte) else mret false);
          (if is_root : bool then deleteASID asid pte
           else p ← rv_ref pte; PTE_unmap_page_table p asid (rv_get pt_mapped_address c)) ;;
          set_rv_fault (fv_lookup_fault find_ret))
   | CapASIDPoolCap => when final_ (deleteASIDPool (rv_get asid_base c) (rv_get asid_pool c))
   | _ => skip
   end) ;;
  mret (FinaliseCapRet new_null_cap new_null_cap).

(** ** Interrupts *)
(* src: kernel/src/config.rs 113-113 KERNEL_TIMER_IRQ *)
Definition KERNEL_TIMER_IRQ : Z := 1.
(* src: kernel/src/config.rs 119-119 maxIRQ *)
Definition maxIRQ : Z := KERNEL_TIMER_IRQ.
(* src: kernel/src/config.rs 70-70 SIE_STIE *)
Definition SIE_STIE : Z := 5.
(* src: kernel/src/config.rs 72-72 SIE_SEIE *)
Definition SIE_SEIE : Z := 9.
(* src: kernel/src/interrupt/mod.rs 94-99 set_sie_mask *)
Definition set_sie_mask (mask_high : Z) : ST rv_t unit := tell (SieSet mask_high).
(* src: kernel/src/interrupt/mod.rs 102-107 clear_sie_mask *)
Definition clear_sie_mask (mask_low : Z) : ST rv_t unit := tell (SieClear mask_low).
(* src: kernel/src/interrupt/mod.rs 110-129 mask_interrupt *)
Definition mask_interrupt (disable : bool) (irq : Z) : ST rv_t unit :=
  when (irq =w KERNEL_TIMER_IRQ)
    (if disable then clear_sie_mask (BIT SIE_STIE) else set_sie_mask (BIT SIE_STIE)).
(* src: kernel/src/interrupt/mod.rs 74-79 setIRQState *)
Definition setIRQState (state : IRQState) (irq : Z) : ST rv_t unit :=
  t ← on_k (irq_get intStateIRQTable);
  t' ← lift (upd t irq (IRQState_to_usize state));
  on_k (irq_mod (fun i => Irq t' (intStateIRQNode i) (State.active_irq i))) ;;
  mask_interrupt (bool_decide (state = IRQInactive)) irq.
(* src: kernel/src/syscall/invocation/decode/arch/riscv64.rs 459-473 check_irq *)
Definition check_irq (irq : Z) : ST rv_t exception_t :=
  if bool_decide (irq > maxIRQ) || (irq =w irqInvalid) then rv_fail (fail_range 1 maxIRQ) else mret EXCEPTION_NONE.
(* src: kernel/src/syscall/invocation/invoke_irq.rs 6-14 invoke_irq_control *)
Definition invoke_irq_control (irq handler_slot control_slot : Z) : ST rv_t exception_t :=
  setIRQState IRQSignal irq ;;
  rv_slots (RvCSpace.cte_insert (new_irq_handler_cap irq) control_slot handler_slot) ;;
  mret EXCEPTION_NONE.
(* src: kernel/src/syscall/invocation/decode/arch/riscv64.rs 475-521 arch_decode_irq_control_invocation *)
Definition arch_decode_irq_control_invocation (label : RvLabel) (length src_slot buffer : Z) : ST rv_t exception_t :=
  if bool_decide (label = RISCVIRQIssueIRQHandlerTrigger) then
    n ← (if bool_decide (length < 4) then mret true else none_extra 0);
    if n : bool then rv_fail (fail_with seL4_TruncatedMessage)
    else
      irq ← get_syscall_arg 0 buffer;
      _trigger ← get_syscall_arg 1 buffer;
      index ← get_syscall_arg 2 buffer;
      depth ← get_syscall_arg 3 buffer;
      s ← extra 0;
      cnode_cap ← rv_cap s;
      status ← check_irq irq;
      rv_ok_or status
        (active ← on_k (is_irq_active irq);
         if active : bool then rv_fail (fail_with seL4_RevokeFirst)
         else
           lu_ret ← lookup_slot_for_cnode_op false cnode_cap index depth;
           rv_ok_or lu_ret.1
             (rv_restart ;;
              dest ← rv_ref lu_ret.2;
              invoke_irq_control irq dest src_slot))
  else rv_fail (fail_with seL4_IllegalOperation).
End rv.
