(* ===== verification/RvTrap.v ===== *)
(** * The RISC-V port: traps, interrupts and the timer

    [kernel/src/arch/riscv] and the RISC-V parts of [interrupt/mod.rs]: which fault a
    trap reports, which interrupt is active, the timer, the start of a core and
    the return to user mode.  What the core's registers hold is the class
    [RvHardware]. *)

From stdpp Require Import base numbers gmap list.
From S2P Require Import Prelude Bitfield Common Cap DList CSpace Sched State Vspace Threads Ipc IrqInv RvCommon RvCap RvVspace RvInv.
Local Open Scope Z_scope.
Local Open Scope krn_scope.

Class RvHardware := {
  stval : rv_t -> Z;
  sip : rv_t -> Z;
  time : rv_t -> Z }.

(* src: kernel/src/config.rs 78-78 RISCVInstructionAccessFault *)
Definition RISCVInstructionAccessFault : Z := 1.
(* src: kernel/src/config.rs 81-81 RISCVLoadAccessFault *)
Definition RISCVLoadAccessFault : Z := 5.
(* src: kernel/src/config.rs 83-83 RISCVStoreAccessFault *)
Definition RISCVStoreAccessFault : Z := 7.
(* src: kernel/src/config.rs 85-85 RISCVInstructionPageFault *)
Definition RISCVInstructionPageFault : Z := 12.
(* src: kernel/src/config.rs 86-86 RISCVLoadPageFault *)
Definition RISCVLoadPageFault : Z := 13.
(* src: kernel/src/config.rs 87-87 RISCVStorePageFault *)
Definition RISCVStorePageFault : Z := 15.
(* src: kernel/src/config.rs 63-63 SIP_STIP *)
Definition SIP_STIP : Z := 5.
(* src: kernel/src/config.rs 65-65 SIP_SEIP *)
Definition SIP_SEIP : Z := 9.
(* src: kernel/src/config.rs 134-134 RESET_CYCLES *)
Definition RESET_CYCLES : Z := 10000000 / 1000 * 2.

Section trap.
Context `{RvHardware}.

(* src: kernel/src/arch/riscv/mod.rs 17-23 read_stval *)
Definition read_stval : ST rv_t Z := gets stval.
(* src: kernel/src/arch/riscv/mod.rs 25-31 read_sip *)
Definition read_sip : ST rv_t Z := gets sip.
(* src: kernel/src/arch/riscv/mod.rs 33-39 read_time *)
Definition read_time : ST rv_t Z := gets time.
(* src: sel4_common/src/arch/riscv64/mod.rs 41-43 set_timer *)
Definition set_timer (timer : Z) : ST rv_t unit := tell (SetTimer timer).

(** ** Faults

    The layout of a fault of the address space; the other faults are laid out as in
    [Common.v]. *)
(* src: sel4_common/src/fault.rs 38-38 address *)
Definition vm_fault_address : bitfield := Bf 1 0 64 0 false.
(* src: sel4_common/src/fault.rs 39-39 fsr *)
Definition vm_fault_fsr : bitfield := Bf 0 27 5 0 false.
(* src: sel4_common/src/fault.rs 40-40 instruction_fault *)
Definition vm_fault_instruction_fault : bitfield := Bf 0 19 1 0 false.
(* src: sel4_common/src/fault.rs 37-41 new_vm_fault *)
Definition fault_new_vm_fault (address fsr instruction_fault : Z) : list Z :=
  bf_new seL4_Fault_t [(vm_fault_address, address); (vm_fault_fsr, fsr);
    (vm_fault_instruction_fault, instruction_fault)] (FaultType_to_usize VMFault).

(* src: kernel/src/arch/riscv/exception.rs 111-134 handle_vm_fault *)
Definition handle_vm_fault (type_ : Z) : ST rv_t exception_t :=
  addr ← read_stval;
  let fault fsr instr := on_k (sys_mod (set_fault (fault_new_vm_fault addr fsr instr))) ;; mret EXCEPTION_FAULT in
  if (type_ =w RISCVLoadPageFault) || (type_ =w RISCVLoadAccessFault) then fault RISCVLoadAccessFault 0
  else if (type_ =w RISCVStorePageFault) || (type_ =w RISCVStoreAccessFault) then fault RISCVStoreAccessFault 0
  else if (type_ =w RISCVInstructionAccessFault) || (type_ =w RISCVInstructionPageFault)
  then fault RISCVInstructionAccessFault 1
  else panic.

(** ** Interrupts *)
(* src: kernel/src/interrupt/mod.rs 132-139 isIRQPending *)
Definition isIRQPending : ST rv_t bool :=
  sip ← read_sip; mret (sip &&& (BIT SIP_STIP ||| BIT SIP_SEIP) <>w 0).
(* src: kernel/src/interrupt/mod.rs 246-248 IS_IRQ_VALID *)
Definition IS_IRQ_VALID (x : Z) : bool := bool_decide (x <= RvInv.maxIRQ) && (x <>w irqInvalid).
Definition active_set (v : Z) : ST rv_t unit := on_k (irq_mod (IrqInv.set_active_irq v)).
(* src: kernel/src/interrupt/mod.rs 182-215 getActiveIRQ *)
Definition getActiveIRQ : ST rv_t Z :=
  irq ← on_k (irq_get active_irq);
  if IS_IRQ_VALID irq then mret irq
  else
    sip ← read_sip;
    let irq := if sip &&& BIT SIP_SEIP <>w 0 then 0
               else if sip &&& BIT SIP_STIP <>w 0 then RvInv.KERNEL_TIMER_IRQ
               else irqInvalid in
    active_set irq ;; mret irq.
(* src: kernel/src/interrupt/mod.rs 147-167 ackInterrupt *)
Definition ackInterrupt (irq : Z) : ST rv_t unit := active_set irqInvalid.

(** ** The timer *)
(** The clock is read again after every setting; each round is one setting. *)
Fixpoint timer_loop (fuel : nat) (target : Z) : ST rv_t unit :=
  match fuel with
  | O => no_fuel
  | S fuel =>
      t ← read_time;
      if bool_decide (t > target) then
        t ← read_time;
        let target := wadd t RESET_CYCLES in
        set_timer target ;; timer_loop fuel target
      else skip
  end.
(* src: kernel/src/arch/riscv/mod.rs 50-57 resetTimer *)
Definition resetTimer (fuel : nat) : ST rv_t unit :=
  t ← read_time;
  let target := wadd t RESET_CYCLES in
  set_timer target ;; timer_loop fuel target.

(** ** The start of a core *)
(* src: kernel/src/arch/riscv/platform.rs 20-37 init_cpu *)
Definition init_cpu (kernel_root : Z) : ST rv_t unit :=
  activate_kernel_vspace kernel_root ;;
  set_sie_mask (BIT SIE_SEIE ||| BIT SIE_STIE) ;;
  t ← read_time;
  set_timer (wadd t RESET_CYCLES).
End trap.

(** ** The return to user mode *)
(** The registers loaded before [sret]: [x1] to [x31], the program counter and
    the status. *)
Record rv_ctx := RvCtx { rc_x : list Z; rc_sepc : Z; rc_sstatus : Z }.
(* src: kernel/src/arch/riscv/c_traps.rs 27-93 restore_user_context *)
Definition restore_user_context : ST rv_t rv_ctx :=
  cur ← on_k (on_sst get_currenct_thread);
  t ← on_k (thread cur);
  let regs := tcbArch t in
  sepc ← lift (idx regs RvCommon.NextIP);
  sstatus ← lift (idx regs RvCommon.SSTATUS);
  mret (RvCtx (take 31 regs) sepc sstatus).
