(* ===== verification/RvWalk.v ===== *)
(** * The RISC-V port: translation

    How the hardware translates an address (SV39: three levels of tables, pages
    of 4 KiB, 2 MiB and 1 GiB), as a function of the physical memory.  It is
    the specification of what the port builds; the kernel's own lookup
    [lookup_pt_slot] is shown to follow it. *)

From stdpp Require Import base numbers gmap list.
From S2P Require Import Prelude Bitfield Common Cap DList CSpace Sched State Vspace VspaceProps RvCommon RvCap RvVspace.
Local Open Scope Z_scope.
Local Open Scope krn_scope.

(** ** The hardware *)
(** What an entry allows. *)
Record perms := Perms { p_read : bool; p_write : bool; p_exec : bool; p_user : bool }.
Definition pte_perms (e : Z) : perms := Perms (Z.testbit e 1) (Z.testbit e 2) (Z.testbit e 3) (Z.testbit e 4).
(** The physical page of an entry, and the index of an address in a table whose
    entries stand for [2 ^ (12 + 9 * n)] bytes. *)
Definition pte_page (e : Z) : Z := (e / 2 ^ 10) `mod` 2 ^ 44.
Definition level_bits (n : nat) : Z := 12 + 9 * Z.of_nat n.
Definition vpn (v : Z) (n : nat) : Z := (v / 2 ^ level_bits n) `mod` 512.

(** The leaf that the walk from the entry at physical address [a] ends at; a fault
    is [None]: an invalid or reserved entry, a page that is not aligned, a
    pointer in a table of the last level. *)
Fixpoint sv39_from (mem : Z -> option Z) (n : nat) (a v : Z) : option (Z * nat) :=
  e ← mem a;
  if negb (Z.testbit e 0) || (Z.testbit e 2 && negb (Z.testbit e 1)) then None
  else if Z.testbit e 1 || Z.testbit e 3 then
    if decide (pte_page e `mod` 2 ^ (9 * Z.of_nat n) = 0) then Some (e, n) else None
  else match n with
       | O => None
       | S n => sv39_from mem n (2 ^ 12 * pte_page e + 8 * vpn v n) v
       end.
(** The translation of an address by the table at physical address [root]. *)
Definition leaf_addr (r : Z * nat) (v : Z) : Z * perms :=
  (2 ^ 12 * pte_page r.1 + v `mod` 2 ^ level_bits r.2, pte_perms r.1).
Definition sv39 (mem : Z -> option Z) (root v : Z) : option (Z * perms) :=
  (fun r => leaf_addr r v) <$> sv39_from mem 2 (root + 8 * vpn v 2) v.

(** ** Entries *)
Section entries.
Implicit Types (e a v f : Z) (n : nat).

Lemma testbit_get e i : 0 <= i < 64 -> (wshr (e &&& 2 ^ i) i <>w 0) = Z.testbit e i.
Proof.
  intros Hi. assert (wshr (e &&& 2 ^ i) i = if Z.testbit e i then 1 else 0) as ->; [|by destruct (Z.testbit e i)].
  apply Z.bits_inj'. intros j Hj. rewrite wshr_testbit, Z.land_spec, Z.pow2_bits_eqb by lia.
  destruct (decide (j = 0)) as [->|].
  - rewrite Z.add_0_l, Z.eqb_refl, andb_true_r. by destruct (Z.testbit e i).
  - rewrite (proj2 (Z.eqb_neq i (j + i))) by lia. rewrite andb_false_r.
    destruct (Z.testbit e i); [|by rewrite Z.bits_0]. symmetry. apply Z.bits_above_log2; [lia|]. cbn. lia.
Qed.
(** The getters of the source read the same bits. *)
Lemma is_pte_table_bits e :
  is_pte_table e = Z.testbit e 0 && negb (Z.testbit e 1 || Z.testbit e 2 || Z.testbit e 3).
Proof.
  unfold is_pte_table, get_valid, get_read, get_write, get_execute.
  rewrite <- (testbit_get e 0), <- (testbit_get e 1), <- (testbit_get e 2), <- (testbit_get e 3) by lia. reflexivity.
Qed.
Lemma get_ppn_page e : get_ppn e = pte_page e.
Proof.
  unfold get_ppn, pte_page. change 0x3ffffffffffc00 with (Z.shiftl (Z.ones 44) 10).
  rewrite <- Z.land_ones, <- Z.shiftr_div_pow2 by lia. apply Z.bits_inj'. intros i Hi.
  rewrite wshr_testbit, !Z.land_spec, Z.shiftl_spec, Z.shiftr_spec by lia. do 2 f_equal. lia.
Qed.
Lemma pte_page_bound e : 0 <= pte_page e < 2 ^ 44.
Proof. apply Z.mod_pos_bound. lia. Qed.
Lemma vpn_bound v n : 0 <= vpn v n < 512.
Proof. apply Z.mod_pos_bound. lia. Qed.
Lemma vpn_code v n : (n < 3)%nat -> wshr v (level_bits n) &&& MASK PT_INDEX_BITS = vpn v n.
Proof.
  intros Hn. unfold vpn, level_bits. rewrite wshr_spec, MASK_spec by (unfold PT_INDEX_BITS; lia).
  change PT_INDEX_BITS with 9. by rewrite Z.land_ones by lia.
Qed.
(** Addresses in one page have the same indices above it. *)
Lemma vpn_page v v' (m n : nat) : (m <= n)%nat ->
  v' / 2 ^ level_bits m = v / 2 ^ level_bits m -> vpn v' n = vpn v n.
Proof.
  intros Hm E. unfold vpn. f_equal.
  replace (level_bits n) with (level_bits m + 9 * (Z.of_nat n - Z.of_nat m)) by (unfold level_bits; lia).
  rewrite Z.pow_add_r by (unfold level_bits; lia). rewrite <- !Z.div_div by (unfold level_bits; lia). by rewrite E.
Qed.

(** An entry made of an address and flags. *)
Lemma PTE_new_testbit ppn f i : 0 <= i < 10 -> Z.testbit (PTE_new ppn f) i = Z.testbit f i.
Proof.
  intros Hi. unfold PTE_new. rewrite Z.lor_spec, wshl_testbit by lia.
  rewrite (Z.testbit_neg_r ppn) by lia. by rewrite orb_false_r.
Qed.
Lemma PTE_new_page ppn f : 0 <= f < 2 ^ 10 -> 0 <= ppn < 2 ^ 44 -> pte_page (PTE_new ppn f) = ppn.
Proof.
  intros Hf Hp. unfold pte_page, PTE_new. rewrite wshl_spec, wrap_id by (unfold is_word; lia).
  rewrite Z.lor_comm, (lor_add ppn f 10) by lia. rewrite Z.add_comm, Z.div_add, Z.div_small by lia.
  by apply Z.mod_small.
Qed.
End entries.

(** ** The kernel's view of physical memory *)
Definition pmem (s : rv_t) (a : Z) : option Z := k_mem (rv_k s) !! paddr_to_pptr a.
Definition rv_mem (m : gmap Z Z) (s : rv_t) : rv_t := set_rv_k (set_k_mem m (rv_k s)) s.

Section mem.
Implicit Types (s : rv_t) (a p v w i : Z) (m : gmap Z Z).

Lemma wrap_wrap_l x y : wrap (wrap x + y) = wrap (x + y).
Proof. rewrite !wrap_mod. by rewrite Z.add_mod_idemp_l by lia. Qed.
Lemma pte_add_paddr a i : pte_add (paddr_to_pptr a) i = paddr_to_pptr (a + 8 * i).
Proof. unfold pte_add, paddr_to_pptr, wadd. rewrite wrap_wrap_l. f_equal. lia. Qed.
Lemma pptr_paddr p : is_word p -> paddr_to_pptr (pptr_to_paddr p) = p.
Proof.
  intros Hp. unfold paddr_to_pptr, pptr_to_paddr, wadd, wsub. rewrite wrap_wrap_l.
  replace (p - PPTR_BASE_OFFSET + PPTR_BASE_OFFSET) with p by lia. by apply wrap_id.
Qed.
Lemma next_table_addr e : paddr_to_pptr (wshl (get_ppn e) seL4_PageTableBits) = paddr_to_pptr (2 ^ 12 * pte_page e).
Proof.
  rewrite get_ppn_page. pose proof (pte_page_bound e). change seL4_PageTableBits with 12.
  rewrite wshl_spec, wrap_id by (unfold is_word; lia). f_equal. lia.
Qed.

Lemma set_rv_k_id s : set_rv_k (rv_k s) s = s.
Proof. by destruct s. Qed.
Lemma wp_on_k {A} (m : ST kst A) s (Q : A -> rv_t -> Prop) :
  wp m (fun (x : A) k => Q x (set_rv_k k s)) (rv_k s) -> wp (on_k m) Q s.
Proof. apply wp_zoom. Qed.
Lemma rd_Ok p s w : k_mem (rv_k s) !! p = Some w -> rd p s = Ok (w, s).
Proof.
  intros Hw. unfold rd, on_k, zoom, word_get, on_mem, zoom. rewrite (load_Ok _ _ w) by done.
  destruct s as [[] ? ?]. done.
Qed.
Lemma rd_inv p s w s' : rd p s = Ok (w, s') -> k_mem (rv_k s) !! p = Some w /\ s' = s.
Proof.
  intros (k & H & ->)%zoom_inv. apply zoom_inv in H as (m & H & ->). unfold load in H.
  destruct (k_mem (rv_k s) !! p) eqn:E; [|by apply (f_equal (fun r => match r with Ok _ => true | _ => false end)) in H].
  apply Ok_inv in H as [-> <-]. split; [done|]. by destruct s as [[] ? ?].
Qed.
Lemma wp_wr p v s (Q : unit -> rv_t -> Prop) :
  is_Some (k_mem (rv_k s) !! p) -> Q tt (rv_mem (<[p := v]> (k_mem (rv_k s))) s) -> wp (wr p v) Q s.
Proof. intros Hp HQ. apply wp_on_k. by apply wp_word_set. Qed.
Lemma rv_ref_Ok p s : p <> 0 -> rv_ref p s = Ok (p, s).
Proof.
  intros Hp. unfold rv_ref, on_k, zoom, ref. rewrite (bool_decide_false (p = 0)) by done.
  by destruct s.
Qed.
Lemma rv_ref_inv p s q s' : rv_ref p s = Ok (q, s') -> q = p /\ s' = s.
Proof.
  intros (k & H & ->)%zoom_inv. unfold ref in H. inv_ok. split; [done|apply set_rv_k_id].
Qed.
End mem.

(** ** The kernel's lookup *)
Section lookup.
Implicit Types (s : rv_t) (a p v e : Z) (n m : nat).

(** The loop goes down from level [n] and ends at level [m]; the walk of every
    address of the page found goes the same way, whatever is then written
    into the entry found (unless that entry was a table). *)
Lemma lookup_loop_walk n : forall a v s r s',
  (n < 3)%nat -> lookup_loop n v (LookupPTSlot (paddr_to_pptr a) (level_bits n)) s = Ok (r, s') ->
  s' = s /\ exists m a', (m <= n)%nat /\ r = LookupPTSlot (paddr_to_pptr a') (level_bits m) /\
    forall e' w, (forall e, pmem s a' = Some e -> is_pte_table e = false) ->
      w / 2 ^ level_bits m = v / 2 ^ level_bits m ->
      let mem := pmem (rv_mem (<[paddr_to_pptr a' := e']> (k_mem (rv_k s))) s) in
      sv39_from mem n a w = sv39_from mem m a' w.
Proof.
  induction n as [|n IH]; intros a v s r s' Hn H; cbn [lookup_loop] in H;
    apply st_bind_inv in H as (e & s1 & He & H); apply rd_inv in He as [He ->]; cbn [ptSlot] in He.
  - inv_ok. split; [done|]. exists O, a. done.
  - destruct (is_pte_table e) eqn:Ht.
    2: { inv_ok. split; [done|]. exists (S n), a. done. }
    apply st_bind_inv in H as (pt & s1 & Hpt & H). unfold get_pte_from_ppn_mut in Hpt.
    apply rv_ref_inv in Hpt as [-> ->]. rewrite next_table_addr, pte_add_paddr in H. cbn [ptBitsLeft] in H.
    assert (wsub (level_bits (S n)) PT_INDEX_BITS = level_bits n) as E.
    { change PT_INDEX_BITS with 9. rewrite wsub_small by (unfold is_word, level_bits; lia). unfold level_bits. lia. }
    rewrite E, vpn_code in H by lia. apply IH in H as (-> & m & a' & Hm & -> & Hw); [|lia]. split; [done|].
    exists m, a'. split; [lia|]. split; [done|]. intros e' w Hnt Hv mem. cbn [sv39_from].
    assert (mem a = Some e) as ->.
    { unfold mem, pmem. cbn. rewrite lookup_insert_ne; [done|]. intros Ea.
      specialize (Hnt e). unfold pmem in Hnt. rewrite Ea, He in Hnt. by rewrite Hnt in Ht. }
    rewrite is_pte_table_bits in Ht. apply andb_true_iff in Ht as [Hv0 Hl%negb_true_iff].
    apply orb_false_iff in Hl as [[H1 H2]%orb_false_iff H3]. cbn [mbind option_bind]. rewrite Hv0, H1, H2, H3. cbn [negb andb orb].
    rewrite (vpn_page v w m) by (lia || done). by apply Hw.
Qed.

Lemma lookup_pt_slot_loop root v s : is_word root ->
  lookup_pt_slot root v s =
  lookup_loop 2 v (LookupPTSlot (paddr_to_pptr (pptr_to_paddr root + 8 * vpn v 2)) (level_bits 2)) s.
Proof.
  intros Hr. unfold lookup_pt_slot. change (CONFIG_PT_LEVELS - 1) with 2. change (Z.to_nat 2) with 2%nat.
  change (wadd (wmul PT_INDEX_BITS 2) seL4_PageBits) with (level_bits 2). rewrite vpn_code by lia.
  rewrite <- (pptr_paddr root) at 1 by done. by rewrite pte_add_paddr.
Qed.
End lookup.
