(* ===== verification/RvProps.v ===== *)
(** * The RISC-V port: theorems

    Mapping a frame is what the hardware then translates; which addresses the
    checks on a mapping let through; and three places where the port does not do
    what it means to: the root of a thread whose ASID is gone, the removal of a
    page table, the request to remove one. *)

From stdpp Require Import base numbers gmap list.
From S2P Require Import Prelude Bitfield Common Cap DList CSpace CSpaceWit Sched SchedInv SchedWit State Vspace VspaceProps UntypedProps Threads Syscall CNodeInv UntypedInv MmuInv RvCommon RvCap RvCSpace RvVspace RvInv RvWalk.
Local Open Scope Z_scope.
Local Open Scope krn_scope.

(** ** Entries of user pages *)
Section user_pte.
Implicit Types (paddr v o : Z) (r : RvCommon.vm_rights_t) (x : bool) (n : nat).

Definition user_flags x r : Z :=
  0xd1 ||| (if x then Flag.X else 0) ||| (if RISCVGetWriteFromVMRights r then Flag.W else 0)
  ||| (if RISCVGetReadFromVMRights r then Flag.R else 0).
Definition grants x r : bool := x || RISCVGetReadFromVMRights r.
Lemma make_user_pte_new paddr x r :
  make_user_pte paddr x r = if grants x r then PTE_new (wshr paddr seL4_PageBits) (user_flags x r) else pte_invalid.
Proof. by destruct x, r. Qed.

(** The hardware's reading of such an entry, found at level [n]. *)
Lemma user_pte_leaf (mem : Z -> option Z) n a paddr x r v :
  0 <= paddr < 2 ^ 56 -> paddr `mod` 2 ^ level_bits n = 0 -> mem a = Some (make_user_pte paddr x r) ->
  (fun e => leaf_addr e v) <$> sv39_from mem n a v =
  if grants x r then Some (paddr + v `mod` 2 ^ level_bits n,
    Perms (RISCVGetReadFromVMRights r) (RISCVGetWriteFromVMRights r) x true) else None.
Proof.
  intros Hb Ha Hm.
  assert (sv39_from mem n a v = if grants x r then Some (make_user_pte paddr x r, n) else None) as ->.
  - assert (pte_page (PTE_new (wshr paddr seL4_PageBits) (user_flags x r)) `mod` 2 ^ (9 * Z.of_nat n) = 0) as Hal.
    { change seL4_PageBits with 12. rewrite wshr_spec by lia.
      rewrite PTE_new_page; [|by destruct x, r|split; [apply Z.div_pos; lia|apply Z.div_lt_upper_bound; lia]].
      unfold level_bits in Ha. rewrite Z.pow_add_r, Z.rem_mul_r in Ha by lia.
      pose proof (Z.mod_pos_bound paddr (2 ^ 12) ltac:(lia)).
      pose proof (Z.mod_pos_bound (paddr / 2 ^ 12) (2 ^ (9 * Z.of_nat n)) ltac:(lia)). lia. }
    destruct n; cbn [sv39_from]; rewrite Hm; cbn [mbind option_bind]; rewrite make_user_pte_new;
      (destruct (grants x r) eqn:Hg; [|done]); rewrite !PTE_new_testbit by lia; rewrite decide_True by exact Hal; by destruct x, r.
  - rewrite make_user_pte_new. destruct (grants x r); [|done]. cbn [fmap option_fmap option_map]. unfold leaf_addr. cbn [fst snd].
    change seL4_PageBits with 12. rewrite wshr_spec by lia.
    rewrite PTE_new_page; [|by destruct x, r|split; [apply Z.div_pos; lia|apply Z.div_lt_upper_bound; lia]].
    unfold pte_perms. rewrite !PTE_new_testbit by lia. f_equal. f_equal; [|by destruct x, r].
    f_equal. unfold level_bits in Ha. rewrite Z.pow_add_r in Ha by lia.
    pose proof (Z.div_mod paddr (2 ^ 12) ltac:(lia)). pose proof (Z.mod_pos_bound paddr (2 ^ 12) ltac:(lia)).
    rewrite Z.rem_mul_r in Ha by lia.
    pose proof (Z.mod_pos_bound (paddr / 2 ^ 12) (2 ^ (9 * Z.of_nat n)) ltac:(lia)). lia.
Qed.
(** An address of a page, from its distance. *)
Lemma page_offset v o b : 0 < b -> v `mod` b = 0 -> 0 <= o < b -> (v + o) / b = v / b /\ (v + o) `mod` b = o.
Proof.
  intros Hb Hv Ho. apply Z.mod_divide in Hv as [q ->]; [|lia].
  rewrite Z.div_add_l, Z.div_mul, Z.div_small, Z.add_0_r by lia. split; [done|].
  rewrite Z.add_comm, Z.mod_add by lia. by apply Z.mod_small.
Qed.
End user_pte.

(** C24: mapping a frame makes the hardware translate exactly as asked.  When
    the lookup finds a slot that holds no table, whose size is the alignment
    of the address and of the frame, [invoke_page_map] returns without error,
    and every address of the page is then translated (SV39) to the address at
    the same distance in the frame, with the rights of the capability as the
    request restricts them; a request that leaves no right at all maps
    nothing. *)
Theorem invoke_page_map_translates (s : rv_t) (mask vaddr asid attr p bits frame_slot root : Z) (x : cte_t) (r : RvCommon.vm_rights_t) :
  sched_inv (k_sst (rv_k s)) -> is_word root -> lookup_pt_slot root vaddr s = Ok (LookupPTSlot p bits, s) ->
  (exists e, k_mem (rv_k s) !! p = Some e /\ is_pte_table e = false) ->
  k_slots (rv_k s) !! frame_slot = Some x -> RvCommon.vm_rights_from_word (rv_get frame_vm_rights (cte_cap x)) = Ok r ->
  let paddr := pptr_to_paddr (rv_get frame_base_ptr (cte_cap x)) in
  let rights := RvCommon.maskVMRights r (rights_from_word mask) in
  let exec := get_execute_never attr =w 0 in
  paddr < 2 ^ 56 -> paddr `mod` 2 ^ bits = 0 -> vaddr `mod` 2 ^ bits = 0 ->
  wp (invoke_page_map mask vaddr asid attr p frame_slot) (fun e s' => e = EXCEPTION_NONE /\
    forall o, 0 <= o < 2 ^ bits -> sv39 (pmem s') (pptr_to_paddr root) (vaddr + o) =
      if grants exec rights then
        Some (paddr + o, Perms (RISCVGetReadFromVMRights rights) (RISCVGetWriteFromVMRights rights) exec true)
      else None) s.
Proof.
  intros Hi Hroot Hl (e & He & Ht) Hx Hr paddr rights exec Hp Hal Hva.
  rewrite lookup_pt_slot_loop in Hl by done. apply lookup_loop_walk in Hl as (_ & n & a & Hn & [= -> ->] & Hw); [|lia].
  unfold invoke_page_map. apply wp_bind, wp_on_k, (wp_slot_cap _ _ x); [done|]. rewrite set_rv_k_id.
  apply wp_bind. eapply wp_lift; [exact Hr|]. cbv zeta. apply wp_bind, wp_on_k, (wp_slot_upd _ _ _ x); [done|].
  apply wp_bind, wp_on_k. eapply wp_slot_upd; [apply lookup_insert_eq|].
  apply wp_bind, wp_on_k, wp_current_restart; [done|]. intros y _.
  apply wp_bind, wp_bind, wp_wr; [exists e; exact He|]. cbn [rv_k set_rv_k k_mem set_k_slots set_k_sst]. apply wp_modify, wp_ret. split; [done|]. intros o Ho.
  unfold sv39. destruct (page_offset vaddr o (2 ^ level_bits n)) as [Ed Em]; [lia|done..|].
  rewrite (vpn_page vaddr (vaddr + o) n 2) by (lia || done).
  specialize (Hw (make_user_pte paddr exec rights) (vaddr + o)). cbv zeta in Hw.
  match goal with |- context [sv39_from ?mem 2 _ _] => change mem with (pmem (rv_mem (<[paddr_to_pptr a:=make_user_pte paddr exec rights]> (k_mem (rv_k s))) s)) end.
  rewrite Hw; [|intros e' He'; unfold pmem in He'; congruence|done].
  rewrite (user_pte_leaf _ n a paddr exec rights); [|split; [apply wrap_is_word|done]|done|unfold pmem; cbn; apply lookup_insert_eq].
  by rewrite Em.
Qed.

(** ** Addresses of user mappings *)
Section alias.
Implicit Types (s : rv_t) (v k root p : Z) (n : nat).
Lemma vpn_mod k n : (n < 3)%nat -> vpn (k `mod` 2 ^ 39) n = vpn k n.
Proof.
  intros Hn. unfold vpn. assert (n = 0%nat \/ n = 1%nat \/ n = 2%nat) as [-> | [-> | ->]] by lia; unfold level_bits;
    [change (12 + 9 * Z.of_nat 0) with 12|change (12 + 9 * Z.of_nat 1) with 21|change (12 + 9 * Z.of_nat 2) with 30];
    Z.to_euclidean_division_equations; lia.
Qed.
Lemma lookup_loop_ext n v k p s : (n < 3)%nat -> (forall m, (m < n)%nat -> vpn v m = vpn k m) ->
  lookup_loop n v (LookupPTSlot p (level_bits n)) s = lookup_loop n k (LookupPTSlot p (level_bits n)) s.
Proof.
  revert p s. induction n as [|n IH]; intros p s Hn Hv; [done|]. cbn [lookup_loop ptSlot ptBitsLeft].
  unfold mbind, st_bind. destruct (rd p s) as [[e s1]| | |]; [|done..]. destruct (is_pte_table e); [|done].
  destruct (get_pte_from_ppn_mut e s1) as [[q s2]| | |]; [|done..].
  assert (wsub (level_bits (S n)) PT_INDEX_BITS = level_bits n) as ->.
  { change PT_INDEX_BITS with 9. rewrite wsub_small by (unfold is_word, level_bits; lia). unfold level_bits. lia. }
  rewrite !vpn_code by lia. rewrite (Hv n) by lia. apply IH; [lia|]. intros m Hm. apply Hv. lia.
Qed.
End alias.

(** The limit on user addresses (2^47 - 1, as on aarch64) does not keep user
    mappings out of the kernel's half of a 39-bit address space: for every
    kernel address there is an address below the limit, at the same offset in
    its page, for which the lookup finds the very same slot (of the root's upper
    half, or below it), so that what is mapped there appears at the kernel
    address. *)
Theorem user_limit_reaches_kernel_half (s : rv_t) (root k : Z) :
  is_word root -> 2 ^ 64 - 2 ^ 38 <= k < 2 ^ 64 ->
  exists v, 0 <= v < USER_TOP /\ v `mod` 2 ^ 12 = k `mod` 2 ^ 12 /\ 256 <= vpn v 2 < 512 /\
    lookup_pt_slot root v s = lookup_pt_slot root k s.
Proof.
  intros Hr Hk. exists (k `mod` 2 ^ 39). pose proof (Z.mod_pos_bound k (2 ^ 39) ltac:(lia)). unfold USER_TOP. split; [lia|].
  split; [Z.to_euclidean_division_equations; lia|]. rewrite vpn_mod by lia. split.
  - unfold vpn, level_bits. change (12 + 9 * Z.of_nat 2) with 30. Z.to_euclidean_division_equations; lia.
  - rewrite !lookup_pt_slot_loop, vpn_mod by (done || lia). apply lookup_loop_ext; [lia|]. intros m Hm. apply vpn_mod. lia.
Qed.

(** ** ASIDs *)
(** The entries of the table lead to pools of 512 words. *)
Record rv_asid_ok (s : rv_t) : Prop := {
  ra_table : length (riscvKSASIDTable s) = 128%nat;
  ra_pools : forall i p j, riscvKSASIDTable s !! i = Some p -> p <> 0 -> 0 <= j < 512 ->
    is_Some (k_mem (rv_k s) !! pte_add p j) }.
(** The finite map from ASIDs to root tables that the two levels represent. *)
Definition rv_root (s : rv_t) (asid : Z) : option Z :=
  p ← riscvKSASIDTable s !! Z.to_nat (asid / 512);
  if decide (p = 0) then None
  else r ← k_mem (rv_k s) !! pte_add p (asid `mod` 512); if decide (r = 0) then None else Some r.

Section asid.
Implicit Types (s : rv_t) (asid kr base pt vptr : Z) (c : list Z).

Definition rv_find (r : option Z) : findVSpaceForASID_ret :=
  match r with
  | Some root => FindVSpaceRet EXCEPTION_NONE (Some root) None
  | None => FindVSpaceRet EXCEPTION_LOOKUP_FAULT None (Some lookup_fault_new_root_invalid)
  end.
Lemma rv_find_spec s asid : rv_asid_ok s -> 0 <= asid < 2 ^ 16 ->
  find_vspace_for_asid asid s = Ok (rv_find (rv_root s asid), s).
Proof.
  intros Hok Ha. destruct (asid_split asid Ha) as (E1 & E2 & H1 & H2).
  unfold find_vspace_for_asid, table_get, pool_entry, rv_root. rewrite E1, E2.
  destruct (lookup_lt_is_Some_2 (riscvKSASIDTable s) (Z.to_nat (asid / 512))) as [p Hp].
  { rewrite (ra_table _ Hok). lia. }
  rewrite Hp. unfold gets, mbind, st_bind, lift. rewrite (idx_Ok _ _ p) by (done || lia). cbn [option_bind].
  case_bool_decide as E; [by rewrite decide_True|]. rewrite decide_False by done.
  destruct (ra_pools _ Hok _ _ (asid `mod` 512) Hp E) as [r Hr]; [done|]. rewrite (rd_Ok _ _ r) by done. rewrite Hr. cbn [option_bind].
  case_bool_decide; [by rewrite decide_True|by rewrite decide_False].
Qed.
Lemma rv_get_bound n f ws : wf_bf n f = true -> bf_sign f = false -> bf_shift f = 0 -> 0 <= rv_get f ws < 2 ^ bf_bits f.
Proof.
  intros Hf Hs Hsh. unfold rv_get. rewrite Hs. cbn [andb].
  by apply (bf_get_bound n (unsigned f) ws).
Qed.
Definition satps kr : list rv_event := [Satp (satp_new 8 0 (wshr (kpptr_to_paddr kr) 12)); Sfence].
Definition tolds (l : list rv_event) s : rv_t := Rv (rv_k s) (riscvKSASIDTable s) (rv_trace s ++ l).
Lemma setVSpaceRoot_Ok addr asid s : setVSpaceRoot addr asid s = Ok (tt, tolds [Satp (satp_new 8 asid (wshr addr 12)); Sfence] s).
Proof.
  unfold setVSpaceRoot, sfence, tell. rewrite (st_bind_Ok _ _ s tt (told (Satp (satp_new 8 asid (wshr addr 12))) s)) by done.
  unfold modify, told, tolds. cbn [rv_k riscvKSASIDTable rv_trace]. by rewrite <- (assoc_L app).
Qed.
End asid.

(** [set_vm_root] installs the root table of a page-table capability
    whatever its ASID says: when the ASID is gone, or belongs to another table,
    the kernel's root is installed first (and the fault of the lookup, if any,
    reported), and then the table of the capability all the same. *)
Theorem set_vm_root_installs_any (s : rv_t) (kr base : Z) (c : list Z) :
  rv_asid_ok s -> RvCap.get_cap_type c = Ok CapPageTableCap -> rv_get pt_base_ptr c = base -> base <> 0 ->
  let asid := rv_get pt_mapped_asid c in
  let valid := bool_decide (rv_root s asid = Some base) in
  set_vm_root kr c s = Ok (match rv_root s asid with Some _ => None | None => Some lookup_fault_new_root_invalid end,
    tolds ((if valid then [] else satps kr) ++ [Satp (satp_new 8 asid (wshr (pptr_to_paddr base) 12)); Sfence]) s).
Proof.
  intros Hok Ht <- Hb asid valid. assert (0 <= asid < 2 ^ 16) as Ha by by apply (rv_get_bound 2 pt_mapped_asid).
  unfold set_vm_root. rewrite Ht. rewrite (st_bind_Ok _ _ s CapPageTableCap s) by done.
  rewrite (bool_decide_true (CapPageTableCap = CapPageTableCap)) by done. cbn [negb].
  rewrite (st_bind_Ok _ _ _ _ _ (rv_ref_Ok _ s Hb)). cbv zeta. fold asid.
  rewrite (st_bind_Ok _ _ _ _ _ (rv_find_spec s asid Hok Ha)).
  assert (forall o : option Z, o <> None -> exists r, o = Some r) as Hsome by (intros [r|]; [by exists r|done]).
  destruct (rv_root s asid) as [r|] eqn:E; cbn [rv_find fv_status fv_vspace_root fv_lookup_fault].
  - rewrite bool_decide_false by (intros H; by apply H). cbn [orb]. unfold valid.
    assert (bool_decide (Some r <> Some (rv_get pt_base_ptr c)) = negb (bool_decide (Some r = Some (rv_get pt_base_ptr c)))) as ->
      by apply bool_decide_not.
    case_bool_decide; cbn [negb app].
    + rewrite (st_bind_Ok _ _ s None s) by done. by rewrite (st_bind_Ok _ _ _ _ _ (setVSpaceRoot_Ok _ _ _)).
    + unfold kernel_root. rewrite st_bind_assoc, (st_bind_Ok _ _ _ _ _ (setVSpaceRoot_Ok _ _ _)).
      rewrite (st_bind_Ok _ _ _ None _) by done. rewrite (st_bind_Ok _ _ _ _ _ (setVSpaceRoot_Ok _ _ _)).
      unfold tolds, satps. cbn. by rewrite <- (assoc_L app).
  - rewrite bool_decide_true by done. cbn [orb]. unfold valid. rewrite bool_decide_false by done.
    unfold kernel_root. rewrite st_bind_assoc, (st_bind_Ok _ _ _ _ _ (setVSpaceRoot_Ok _ _ _)).
    rewrite (st_bind_Ok _ _ _ (Some lookup_fault_new_root_invalid) _) by done. rewrite (st_bind_Ok _ _ _ _ _ (setVSpaceRoot_Ok _ _ _)).
    unfold tolds, satps. cbn. by rewrite <- (assoc_L app).
Qed.

(** ** Removing a page table *)
Section unmap.
Implicit Types (s : rv_t) (asid pt vptr root p e : Z).

(** The walk only reads, and does not step through tables. *)
Lemma unmap_walk_slot n : forall i pt p vptr target s o s',
  unmap_walk n i pt p vptr target s = Ok (o, s') ->
  s' = s /\ forall r, o = Some r -> r.2 = p \/ exists e, k_mem (rv_k s) !! r.2 = Some e /\ is_pte_table e = false.
Proof.
  induction n as [|n IH]; intros i pt p vptr target s o s' H; cbn [unmap_walk] in H;
    [inv_ok; split; [done|]; intros r [= <-]; by left|].
  case_bool_decide; cbn [negb] in H; [inv_ok; split; [done|]; intros r [= <-]; by left|].
  apply st_bind_inv in H as (e & s1 & He & H). apply rd_inv in He as [He ->].
  destruct (is_pte_table e) eqn:Ht; [by inv_ok|]. apply st_bind_inv in H as (q & s1 & Hq & H).
  apply rv_ref_inv in Hq as [-> ->]. apply IH in H as [-> Hr]. split; [done|]. intros r Er. right.
  destruct (Hr r Er) as [Hp|Hp]; [|done]. rewrite Hp. by exists e.
Qed.
End unmap.

(** [unmap_page_table] never takes a page table out of its address space.
    The walk stops at the entries that point to tables (its test is the wrong
    way round): when the root's entry for the address does, as for every
    mapped table, nothing at all happens, and in no case is an entry that
    points to a table changed. *)
Theorem unmap_page_table_keeps_tables (s : rv_t) (asid vptr pt root : Z) :
  rv_asid_ok s -> 0 <= asid < 2 ^ 16 -> rv_root s asid = Some root -> root <> pt ->
  (forall e, k_mem (rv_k s) !! pte_add root (RISCV_GET_PT_INDEX vptr 0) = Some e -> is_pte_table e = true ->
    unmap_page_table asid vptr pt s = Ok (tt, s)) /\
  wlp (unmap_page_table asid vptr pt) (fun _ s' => forall p e, k_mem (rv_k s) !! p = Some e -> is_pte_table e = true ->
    k_mem (rv_k s') !! p = Some e) s.
Proof.
  intros Hok Ha Hr Hne. unfold unmap_page_table, wlp. rewrite !(st_bind_Ok _ _ _ _ _ (rv_find_spec s asid Hok Ha)). rewrite Hr.
  cbn [rv_find fv_status fv_vspace_root]. rewrite (bool_decide_false (EXCEPTION_NONE <> EXCEPTION_NONE)) by (intros H; by apply H).
  rewrite !(st_bind_Ok _ _ s root s) by done. rewrite (bool_decide_false (root = pt)) by done.
  rewrite !(st_bind_Ok (assert_m _) _ s tt s) by done. change (Z.to_nat (CONFIG_PT_LEVELS - 1)) with 2%nat. split.
  - intros e He Ht. cbn [unmap_walk]. rewrite (bool_decide_false (root = pt)) by done. cbn [negb].
    rewrite st_bind_assoc, (st_bind_Ok _ _ _ _ _ (rd_Ok _ _ _ He)). rewrite Ht. done.
  - match goal with |- match ?m with _ => _ end => destruct m as [[[] s']| | |] eqn:E; [|done..] end.
    intros p e Hp Hpt. apply st_bind_inv in E as (r & s1 & Hw & E).
    destruct (unmap_walk_slot _ _ _ _ _ _ _ _ _ Hw) as [-> _]. destruct r as [[q slot_]|]; [|by inv_ok].
    cbn [unmap_walk] in Hw. rewrite (bool_decide_false (root = pt)) in Hw by done. cbn [negb] in Hw.
    apply st_bind_inv in Hw as (e0 & s2 & He0 & Hw). apply rd_inv in He0 as [He0 ->].
    destruct (is_pte_table e0) eqn:Ht0; [by inv_ok|]. apply st_bind_inv in Hw as (q0 & s2 & Hq0 & Hw).
    apply rv_ref_inv in Hq0 as [-> ->]. apply (unmap_walk_slot 1) in Hw as [_ Hslot].
    specialize (Hslot _ eq_refl). cbn [snd] in Hslot.
    case_bool_decide; cbn [negb] in E; [|by inv_ok].
    apply st_bind_inv in E as ([] & s2 & Hwr & E). unfold sfence, tell in E. inv_ok. cbn [rv_k told].
    apply zoom_inv in Hwr as (k & Hwr & ->). apply zoom_inv in Hwr as (m & Hwr & ->). unfold store_with in Hwr.
    destruct (k_mem (rv_k s) !! slot_) eqn:El; [|by apply (f_equal (fun r => match r with Ok _ => true | _ => false end)) in Hwr].
    inv_ok. cbn. rewrite lookup_insert_ne; [done|]. intros <-.
    destruct Hslot as [->|(e1 & He1 & Ht1)]; congruence.
Qed.

(** The request to remove a page table does not return: for a table that is
    mapped, that no other capability refers to, and that is not the root of
    its address space, the fault of a lookup that did not fail is unwrapped. *)
Theorem decode_page_table_unmap_panics (s : rv_t) (pt_cte root : Z) (x : cte_t) :
  rv_asid_ok s -> k_slots (rv_k s) !! pt_cte = Some x -> rv_slots (RvCSpace.is_final_cap pt_cte) s = Ok (true, s) ->
  rv_get pt_is_mapped (cte_cap x) <> 0 -> rv_root s (rv_get pt_mapped_asid (cte_cap x)) = Some root ->
  root <> rv_get pt_base_ptr (cte_cap x) ->
  decode_page_table_unmap pt_cte s = Panic.
Proof.
  intros Hok Hx Hf Hm Hr Hne. assert (0 <= rv_get pt_mapped_asid (cte_cap x) < 2 ^ 16) as Ha by by apply (rv_get_bound 2 pt_mapped_asid).
  unfold decode_page_table_unmap. rewrite (st_bind_Ok _ _ _ _ _ Hf). cbn [negb].
  assert (rv_cap pt_cte s = Ok (cte_cap x, s)) as Hc.
  { unfold rv_cap, on_k, zoom, slot_cap, slot, on_slots, zoom, mbind, st_bind. rewrite (load_Ok _ _ x) by done.
    destruct s as [[] ? ?]. done. }
  rewrite (st_bind_Ok _ _ _ _ _ Hc). rewrite (bool_decide_false (_ = 0)) by done. cbn [negb].
  rewrite st_bind_assoc, (st_bind_Ok _ _ _ _ _ (rv_find_spec s _ Hok Ha)). rewrite Hr.
  cbn [rv_find fv_status fv_vspace_root fv_lookup_fault]. rewrite (bool_decide_true (EXCEPTION_NONE = _)) by done.
  rewrite !st_bind_assoc, (st_bind_Ok _ _ s root s) by done. rewrite bool_decide_false by done.
  rewrite (st_bind_Ok _ _ s false s) by done. done.
Qed.

(** ** Instances

    One ASID pool; ASID 1 is an address space of three tables, in whose last the
    entry for [0x1000] is free. *)
Definition w_rv_pool : Z := 0xffffffc080300000.
Definition w_rv_root : Z := 0xffffffc080100000.
Definition w_rv_level1 : Z := 0xffffffc080101000.
Definition w_rv_slot : Z := 0xffffffc080102008.
Definition w_rv_frame : Z := 0xffffffc080200000.
Definition w_rv_mem : gmap Z Z :=
  <[w_rv_root := PTE_new 0x80101 Flag.V]> (<[w_rv_level1 := PTE_new 0x80102 Flag.V]> (<[w_rv_slot := 0]>
  (<[pte_add w_rv_pool 1 := w_rv_root]> (list_to_map ((fun j => (pte_add w_rv_pool j, 0)) <$> seqZ 0 512))))).
Definition w_rv (c : list Z) : rv_t :=
  Rv (set_k_slots {[sA := Cte c [0; 0]]} (set_k_sst w_sst (set_k_mem w_rv_mem kst_empty)))
    (<[0%nat := w_rv_pool]> (replicate 128 0)) [].
Lemma w_rv_ok c : rv_asid_ok (w_rv c).
Proof.
  split; [done|]. intros i p j Hi Hp Hj. assert (p = w_rv_pool) as ->.
  { cbn in Hi. destruct (decide (i = 0%nat)) as [->|]; [by injection Hi|].
    change (<[0%nat := w_rv_pool]> (replicate 128 0) !! i = Some p) in Hi.
    rewrite list_lookup_insert_ne in Hi by done. by apply lookup_replicate in Hi as [-> _]. }
  assert (Forall (fun j => is_Some (w_rv_mem !! pte_add w_rv_pool j)) (seqZ 0 512)) as H by by_decide.
  rewrite Forall_forall in H. apply H, elem_of_seqZ. lia.
Qed.
Definition w_rv_frame_cap : list Z := new_frame_cap 0 w_rv_frame 0 3 0 0.
Definition w_rv_pt_cap (base : Z) : list Z := new_page_table_cap 1 base 1 0x1000.

Lemma invoke_page_map_translates_witness :
  wp (invoke_page_map 3 0x1000 1 1 w_rv_slot sA) (fun e s' => e = EXCEPTION_NONE /\
    forall o, 0 <= o < 2 ^ 12 -> sv39 (pmem s') (pptr_to_paddr w_rv_root) (0x1000 + o) =
      if grants false RvCommon.VMReadWrite then
        Some (pptr_to_paddr (rv_get frame_base_ptr w_rv_frame_cap) + o, Perms true true false true)
      else None) (w_rv w_rv_frame_cap).
Proof.
  apply (invoke_page_map_translates (w_rv w_rv_frame_cap) 3 0x1000 1 1 w_rv_slot 12 sA w_rv_root
    (Cte w_rv_frame_cap [0; 0]) RvCommon.VMReadWrite).
  - exact w_sched_inv.
  - by_decide.
  - vm_cast_no_check (eq_refl (Ok (LookupPTSlot w_rv_slot 12, w_rv w_rv_frame_cap))).
  - exists 0. split; [vm_compute; reflexivity|done].
  - vm_compute. reflexivity.
  - vm_compute. reflexivity.
  - vm_compute. reflexivity.
  - vm_compute. reflexivity.
  - done.
Defined.
Lemma user_limit_reaches_kernel_half_witness :
  exists v, 0 <= v < USER_TOP /\ v `mod` 2 ^ 12 = 0xffffffffc0000000 `mod` 2 ^ 12 /\ 256 <= vpn v 2 < 512 /\
    lookup_pt_slot w_rv_root v (w_rv []) = lookup_pt_slot w_rv_root 0xffffffffc0000000 (w_rv []).
Proof. apply (user_limit_reaches_kernel_half (w_rv []) w_rv_root 0xffffffffc0000000); [by_decide|lia]. Defined.
Lemma set_vm_root_installs_any_witness :
  let c := w_rv_pt_cap w_rv_level1 in
  let asid := rv_get pt_mapped_asid c in
  set_vm_root 0xffffffff84001000 c (w_rv c) = Ok (match rv_root (w_rv c) asid with Some _ => None | None => Some lookup_fault_new_root_invalid end,
    tolds ((if bool_decide (rv_root (w_rv c) asid = Some w_rv_level1) then [] else satps 0xffffffff84001000) ++
      [Satp (satp_new 8 asid (wshr (pptr_to_paddr w_rv_level1) 12)); Sfence]) (w_rv c)).
Proof.
  intros c asid. apply (set_vm_root_installs_any (w_rv c) 0xffffffff84001000 w_rv_level1 c);
    [apply w_rv_ok|vm_compute; reflexivity..|done].
Defined.
Lemma unmap_page_table_keeps_tables_witness :
  (forall e, k_mem (rv_k (w_rv [])) !! pte_add w_rv_root (RISCV_GET_PT_INDEX 0x1000 0) = Some e -> is_pte_table e = true ->
    unmap_page_table 1 0x1000 w_rv_level1 (w_rv []) = Ok (tt, w_rv [])) /\
  wlp (unmap_page_table 1 0x1000 w_rv_level1) (fun _ s' => forall p e, k_mem (rv_k (w_rv [])) !! p = Some e -> is_pte_table e = true ->
    k_mem (rv_k s') !! p = Some e) (w_rv []).
Proof.
  apply (unmap_page_table_keeps_tables (w_rv []) 1 0x1000 w_rv_level1 w_rv_root); [apply w_rv_ok|lia|vm_compute; reflexivity|done].
Defined.
Lemma decode_page_table_unmap_panics_witness : decode_page_table_unmap sA (w_rv (w_rv_pt_cap w_rv_level1)) = Panic.
Proof.
  apply (decode_page_table_unmap_panics (w_rv (w_rv_pt_cap w_rv_level1)) sA w_rv_root (Cte (w_rv_pt_cap w_rv_level1) [0; 0]));
    [apply w_rv_ok|vm_compute; reflexivity|vm_cast_no_check (eq_refl (Ok (true, w_rv (w_rv_pt_cap w_rv_level1))))|by vm_compute|vm_compute; reflexivity|by vm_compute].
Defined.
