(* ===== verification/RvWindowProps.v ===== *)
(** * The RISC-V port: the kernel window

    What the hardware translates with the two tables [rust_map_kernel_window]
    fills: the window on physical memory, and the kernel image above it. *)

From stdpp Require Import base numbers gmap list.
From S2P Require Import Prelude Bitfield Common Cap DList CSpace Sched State Vspace RvCommon RvCap RvVspace RvWalk.
Local Open Scope Z_scope.
Local Open Scope krn_scope.

(** A page of the kernel image. *)
Definition image_page (a : Z) : Prop := KERNEL_ELF_BASE <= a < KDEV_BASE /\ a `mod` 2 ^ 12 = 0.
(** The physical memory that holds the two tables at these addresses. *)
Definition kpt_mem (root level2 : Z) (t : kpt_t) (a : Z) : option Z :=
  let at_ base l := if decide (base <= a < base + 2 ^ 12 /\ a `mod` 8 = 0) then Some (l !!! Z.to_nat ((a - base) / 8)) else None in
  match at_ (kpptr_to_paddr root) (kpt_root t) with
  | Some e => Some e
  | None => at_ (kpptr_to_paddr level2) (kpt_level2 t)
  end.
Definition kernel_perms : perms := Perms true true true false.

Section window.
Implicit Types (t : kpt_t) (l : list Z) (a b i j k v : Z) (n : nat).

Definition table_set l i e : list Z := <[Z.to_nat i := e]> l.
Lemma wp_root_map i a f t (Q : unit -> kpt_t -> Prop) :
  length (kpt_root t) = 512%nat -> 0 <= i < 512 ->
  Q tt (Kpt (table_set (kpt_root t) i (pte_next_table a f)) (kpt_level2 t)) -> wp (root_map i a f) Q t.
Proof.
  intros Hl Hi HQ. unfold root_map, map_next_table. wp_steps. eapply wp_lift; [apply upd_Ok; lia|]. by apply wp_modify.
Qed.
Lemma wp_level2_map i a f t (Q : unit -> kpt_t -> Prop) :
  length (kpt_level2 t) = 512%nat -> 0 <= i < 512 ->
  Q tt (Kpt (kpt_root t) (table_set (kpt_level2 t) i (pte_next_table a f))) -> wp (level2_map i a f) Q t.
Proof.
  intros Hl Hi HQ. unfold level2_map, map_next_table. wp_steps. eapply wp_lift; [apply upd_Ok; lia|]. by apply wp_modify.
Qed.
Lemma table_set_lookup l i j e : length l = 512%nat -> 0 <= i < 512 -> 0 <= j < 512 ->
  table_set l i e !!! Z.to_nat j = if decide (j = i) then e else l !!! Z.to_nat j.
Proof.
  intros Hl Hi Hj. unfold table_set. case_decide as E.
  - subst. apply list_lookup_total_insert_eq. lia.
  - apply list_lookup_total_insert_ne. lia.
Qed.
Lemma table_set_length l i e : length (table_set l i e) = length l.
Proof. apply length_insert. Qed.

(** ** Entries *)
Lemma next_table_pte a f : 0 <= a < 2 ^ 56 ->
  pte_page (pte_next_table a f) = a / 2 ^ 12 /\ Z.testbit (pte_next_table a f) 0 = true /\
  (forall i, 1 <= i < 4 -> Z.testbit (pte_next_table a f) i = f) /\ Z.testbit (pte_next_table a f) 4 = false.
Proof.
  intros Ha. unfold pte_next_table. cbv zeta. split_and!.
  - rewrite wshr_spec by lia. rewrite PTE_new_page; [done|by destruct f|]. split; [apply Z.div_pos; lia|apply Z.div_lt_upper_bound; lia].
  - rewrite PTE_new_testbit by lia. by destruct f.
  - intros i Hi. rewrite PTE_new_testbit by lia. assert (i = 1 \/ i = 2 \/ i = 3) as [-> | [-> | ->]] by lia; by destruct f.
  - rewrite PTE_new_testbit by lia. by destruct f.
Qed.
Lemma leaf_walk (mem : Z -> option Z) n a p v : mem a = Some (pte_next_table p true) -> 0 <= p < 2 ^ 56 ->
  p `mod` 2 ^ level_bits n = 0 ->
  (fun r => leaf_addr r v) <$> sv39_from mem n a v = Some (p + v `mod` 2 ^ level_bits n, kernel_perms).
Proof.
  intros Hm Hp Hal. destruct (next_table_pte p true Hp) as (Hpg & H0 & Hb & H4).
  assert ((p / 2 ^ 12) `mod` 2 ^ (9 * Z.of_nat n) = 0 /\ 2 ^ 12 * (p / 2 ^ 12) = p) as [Ha Hp2].
  { unfold level_bits in Hal. rewrite Z.pow_add_r, Z.rem_mul_r in Hal by lia.
    pose proof (Z.div_mod p (2 ^ 12) ltac:(lia)). pose proof (Z.mod_pos_bound p (2 ^ 12) ltac:(lia)).
    pose proof (Z.mod_pos_bound (p / 2 ^ 12) (2 ^ (9 * Z.of_nat n)) ltac:(lia)). lia. }
  assert (sv39_from mem n a v = Some (pte_next_table p true, n)) as ->.
  { destruct n; unfold sv39_from; rewrite Hm; cbn [mbind option_bind]; rewrite H0, !Hb by lia; cbn [negb andb orb];
      rewrite Hpg; by rewrite decide_True by exact Ha. }
  cbn [fmap option_fmap option_map]. unfold leaf_addr, pte_perms. cbn [fst snd]. by rewrite Hpg, Hp2, !Hb, H4 by lia.
Qed.
Lemma table_walk (mem : Z -> option Z) n a p v : mem a = Some (pte_next_table p false) -> 0 <= p < 2 ^ 56 -> p `mod` 2 ^ 12 = 0 ->
  sv39_from mem (S n) a v = sv39_from mem n (p + 8 * vpn v n) v.
Proof.
  intros Hm Hp Hal. destruct (next_table_pte p false Hp) as (Hpg & H0 & Hb & _).
  cbn [sv39_from]. rewrite Hm. cbn [mbind option_bind]. rewrite H0, !Hb, Hpg by lia. cbn [negb andb orb].
  f_equal. pose proof (Z.div_mod p (2 ^ 12) ltac:(lia)). lia.
Qed.

(** ** The tables *)
Definition root_entry (level2 i : Z) : Z :=
  if decide (i = 258 \/ i = 510) then pte_next_table (kpptr_to_paddr level2) false else pte_next_table ((i - 256) * 2 ^ 30) true.
Definition window_tables (level2 : Z) (t0 t : kpt_t) : Prop :=
  (forall i, 256 <= i < 511 -> kpt_root t !!! Z.to_nat i = root_entry level2 i) /\
  (forall i, 0 <= i < 256 \/ i = 511 -> kpt_root t !!! Z.to_nat i = kpt_root t0 !!! Z.to_nat i) /\
  (forall j, 0 <= j < 512 -> kpt_level2 t !!! Z.to_nat j = pte_next_table (0x80000000 + j * 2 ^ 21) true).

Lemma rv_window_index k : 0 <= k < 255 -> RISCV_GET_PT_INDEX (PPTR_BASE + 2 ^ 30 * k) 0 = 256 + k.
Proof.
  intros Hk. unfold RISCV_GET_PT_INDEX. change (wadd (wmul PT_INDEX_BITS (wsub (wsub CONFIG_PT_LEVELS 1) 0)) seL4_PageBits) with (level_bits 2).
  rewrite vpn_code by lia. unfold vpn, level_bits. change (12 + 9 * Z.of_nat 2) with 30. unfold PPTR_BASE.
  Z.to_euclidean_division_equations; lia.
Qed.

Lemma wp_map_kernel_window level2 t0 (Q : unit -> kpt_t -> Prop) :
  length (kpt_root t0) = 512%nat -> length (kpt_level2 t0) = 512%nat ->
  (forall t, window_tables level2 t0 t -> Q tt t) -> wp (rust_map_kernel_window level2) Q t0.
Proof.
  intros Hr Hl HQ. unfold rust_map_kernel_window. cbv zeta.
  change (Z.to_nat (Z.min (rounds PPTR_BASE PPTR_TOP (RISCV_GET_LVL_PGSIZE 0)) (rounds PADDR_BASE PADDR_TOP (RISCV_GET_LVL_PGSIZE 0)))) with 254%nat.
  change (RISCV_GET_LVL_PGSIZE 0) with (2 ^ 30). apply wp_bind.
  apply (wp_for_range (fun k t => length (kpt_root t) = 512%nat /\ kpt_level2 t = kpt_level2 t0 /\
    forall i, 0 <= i < 512 -> kpt_root t !!! Z.to_nat i =
      if decide (256 <= i < 256 + k) then pte_next_table ((i - 256) * 2 ^ 30) true else kpt_root t0 !!! Z.to_nat i)).
  { split; [done|]. split; [done|]. intros i Hi. by rewrite decide_False by lia. }
  { intros k t Hk (Hlen & H2 & Ht). rewrite rv_window_index by lia. apply wp_root_map; [done|lia|]. cbn [kpt_root kpt_level2].
    rewrite table_set_length. split; [done|]. split; [done|]. intros i Hi. rewrite table_set_lookup by (done || lia). case_decide as E.
    - rewrite decide_True by lia. f_equal. unfold PADDR_BASE. lia.
    - rewrite Ht by done. destruct (decide (256 <= i < 256 + k)); [by rewrite decide_True by lia|by rewrite decide_False by lia]. }
  intros t (Hlen & H2 & Ht). apply wp_bind, wp_root_map; [done|by_compute|].
  change (RISCV_GET_PT_INDEX (wadd KERNEL_ELF_PADDR_BASE PPTR_BASE_OFFSET) 0) with 258.
  apply wp_bind, wp_root_map; [by cbn [kpt_root]; rewrite table_set_length|by_compute|]. cbn [kpt_root kpt_level2].
  change (RISCV_GET_PT_INDEX (ROUND_DOWN KERNEL_ELF_BASE (RISCV_GET_LVL_PGSIZE_BITS 0)) 0) with 510.
  change (Z.to_nat (rounds _ _ _)) with 512%nat.
  change (ROUND_DOWN KERNEL_ELF_PADDR_BASE (RISCV_GET_LVL_PGSIZE_BITS 0)) with 0x80000000. change (RISCV_GET_LVL_PGSIZE 1) with (2 ^ 21).
  set (root := table_set _ 510 _).
  apply wp_bind, (wp_for_range (fun k t' => kpt_root t' = root /\ length (kpt_level2 t') = 512%nat /\
    forall j, 0 <= j < k -> kpt_level2 t' !!! Z.to_nat j = pte_next_table (0x80000000 + j * 2 ^ 21) true)).
  { cbn [kpt_root kpt_level2]. split; [done|]. rewrite H2. split; [done|]. lia. }
  { intros k t' Hk (Er & Hl2 & Hj). apply wp_level2_map; [done|lia|]. cbn [kpt_root kpt_level2]. split; [done|].
    rewrite table_set_length. split; [done|]. intros j Hjk. rewrite table_set_lookup by (done || lia). case_decide as E; [|apply Hj; lia].
    subst. f_equal. unfold wmul. rewrite wrap_id by (unfold is_word; lia). rewrite wadd_small by (unfold is_word; lia). lia. }
  intros t' (Er & Hl2 & Hj). apply wp_ret, HQ. unfold window_tables. rewrite Er. unfold root. split; [|split; [|exact Hj]]; intros i Hi;
    (rewrite !table_set_lookup by (rewrite ?table_set_length; done || lia)); rewrite Ht by lia; unfold root_entry.
  - repeat case_decide; try lia; done.
  - repeat case_decide; try lia; done.
Qed.

Lemma image_paddr a : image_page a -> kpptr_to_paddr a = a - KERNEL_ELF_BASE_OFFSET /\
  0x84000000 <= kpptr_to_paddr a < 0xc0000000 /\ kpptr_to_paddr a `mod` 2 ^ 12 = 0.
Proof.
  intros [Hr Ha]. change KERNEL_ELF_BASE with 0xffffffff84000000 in Hr. unfold KDEV_BASE in Hr.
  assert (kpptr_to_paddr a = a - KERNEL_ELF_BASE_OFFSET) as E.
  { unfold kpptr_to_paddr. apply wsub_small. change KERNEL_ELF_BASE_OFFSET with 0xffffffff00000000. unfold is_word. lia. }
  split; [done|]. rewrite E. change KERNEL_ELF_BASE_OFFSET with 0xffffffff00000000. split; [lia|].
  Z.to_euclidean_division_equations; lia.
Qed.

Lemma kpt_mem_root root level2 t i : image_page root -> 0 <= i < 512 ->
  kpt_mem root level2 t (kpptr_to_paddr root + 8 * i) = Some (kpt_root t !!! Z.to_nat i).
Proof.
  intros Hr Hi. destruct (image_paddr root Hr) as (_ & Hb & Ha). unfold kpt_mem.
  rewrite decide_True by (split; [lia|Z.to_euclidean_division_equations; lia]). do 3 f_equal. rewrite Z.add_simpl_l.
  rewrite Z.mul_comm. apply Z.div_mul. lia.
Qed.
Lemma kpt_mem_level2 root level2 t i : image_page root -> image_page level2 -> root <> level2 -> 0 <= i < 512 ->
  kpt_mem root level2 t (kpptr_to_paddr level2 + 8 * i) = Some (kpt_level2 t !!! Z.to_nat i).
Proof.
  intros Hr Hl Hne Hi. destruct (image_paddr root Hr) as (Er & Hb & Ha). destruct (image_paddr level2 Hl) as (El & Hb2 & Ha2).
  unfold kpt_mem. rewrite decide_False by (Z.to_euclidean_division_equations; lia).
  rewrite decide_True by (split; [lia|Z.to_euclidean_division_equations; lia]). do 3 f_equal. rewrite Z.add_simpl_l.
  rewrite Z.mul_comm. apply Z.div_mul. lia.
Qed.
(** The two ways to a page: one leaf of 1 GiB, or through the second table. *)
Lemma window_gigapage root level2 t0 t v : image_page root -> window_tables level2 t0 t ->
  256 <= vpn v 2 < 511 -> vpn v 2 <> 258 -> vpn v 2 <> 510 ->
  sv39 (kpt_mem root level2 t) (kpptr_to_paddr root) v = Some ((vpn v 2 - 256) * 2 ^ 30 + v `mod` 2 ^ 30, kernel_perms).
Proof.
  intros Hr (Ht & _) Hv H1 H2. unfold sv39. apply (leaf_walk _ 2); unfold level_bits; change (12 + 9 * Z.of_nat 2) with 30.
  - rewrite kpt_mem_root by (done || lia). rewrite Ht by done. unfold root_entry. by rewrite decide_False by lia.
  - lia.
  - by rewrite Z.mod_mul.
Qed.
Lemma window_megapage root level2 t0 t v : image_page root -> image_page level2 -> root <> level2 -> window_tables level2 t0 t ->
  vpn v 2 = 258 \/ vpn v 2 = 510 ->
  sv39 (kpt_mem root level2 t) (kpptr_to_paddr root) v = Some (0x80000000 + vpn v 1 * 2 ^ 21 + v `mod` 2 ^ 21, kernel_perms).
Proof.
  intros Hr Hl Hne (Ht & _ & H2) Hv. pose proof (vpn_bound v 1). destruct (image_paddr level2 Hl) as (_ & Hb & Ha). unfold sv39.
  rewrite (table_walk _ 1 _ (kpptr_to_paddr level2)); [|rewrite kpt_mem_root by (done || lia)|lia|done].
  2: { rewrite Ht by lia. unfold root_entry. by rewrite decide_True. }
  apply (leaf_walk _ 1); unfold level_bits; change (12 + 9 * Z.of_nat 1) with 21; [|lia|].
  - rewrite kpt_mem_level2 by done. by rewrite H2 by done.
  - Z.to_euclidean_division_equations; lia.
Qed.
End window.

(** C25: with the tables [rust_map_kernel_window] fills, the hardware translates
    every address of the window on physical memory to its distance from
    [PPTR_BASE], every address of the kernel image (up to the devices) by the
    image's offset, both for the kernel only; user addresses and the devices
    are left as they were. *)
Theorem rust_map_kernel_window_translates (root level2 : Z) (t0 : kpt_t) :
  image_page root -> image_page level2 -> root <> level2 ->
  length (kpt_root t0) = 512%nat -> length (kpt_level2 t0) = 512%nat ->
  wp (rust_map_kernel_window level2) (fun _ t =>
    let walk := sv39 (kpt_mem root level2 t) (kpptr_to_paddr root) in
    (forall v, PPTR_BASE <= v < PPTR_TOP -> walk v = Some (v - PPTR_BASE, kernel_perms)) /\
    (forall v, PPTR_TOP <= v < KDEV_BASE -> walk v = Some (v - KERNEL_ELF_BASE_OFFSET, kernel_perms)) /\
    (forall i, 0 <= i < 256 \/ i = 511 -> kpt_root t !!! Z.to_nat i = kpt_root t0 !!! Z.to_nat i)) t0.
Proof.
  intros Hr Hl Hne H1 H2. apply wp_map_kernel_window; [done..|]. intros t Ht. cbv zeta. split; [|split; [|apply Ht]].
  - intros v Hv. unfold PPTR_BASE, PPTR_TOP in *.
    assert (vpn v 2 = 256 + (v - 0xffffffc000000000) / 2 ^ 30) as E.
    { unfold vpn, level_bits. change (12 + 9 * Z.of_nat 2) with 30. Z.to_euclidean_division_equations; lia. }
    destruct (decide (vpn v 2 = 258)) as [E2|].
    + rewrite (window_megapage _ _ t0) by auto. do 2 f_equal. rewrite E in E2. unfold vpn, level_bits.
      change (12 + 9 * Z.of_nat 1) with 21. Z.to_euclidean_division_equations; lia.
    + rewrite (window_gigapage _ _ t0) by (done || (rewrite ?E; Z.to_euclidean_division_equations; lia)).
      do 2 f_equal. rewrite E. Z.to_euclidean_division_equations; lia.
  - intros v Hv. unfold PPTR_TOP, KDEV_BASE in Hv. rewrite (window_megapage _ _ t0); [|done..|].
    + do 2 f_equal. unfold vpn, level_bits. change (12 + 9 * Z.of_nat 1) with 21. change KERNEL_ELF_BASE_OFFSET with 0xffffffff00000000.
      Z.to_euclidean_division_equations; lia.
    + right. unfold vpn, level_bits. change (12 + 9 * Z.of_nat 2) with 30. Z.to_euclidean_division_equations; lia.
Qed.
Lemma rust_map_kernel_window_translates_witness :
  let t0 := Kpt (replicate 512 0) (replicate 512 0) in
  wp (rust_map_kernel_window 0xffffffff84002000) (fun _ t =>
    let walk := sv39 (kpt_mem 0xffffffff84001000 0xffffffff84002000 t) (kpptr_to_paddr 0xffffffff84001000) in
    (forall v, PPTR_BASE <= v < PPTR_TOP -> walk v = Some (v - PPTR_BASE, kernel_perms)) /\
    (forall v, PPTR_TOP <= v < KDEV_BASE -> walk v = Some (v - KERNEL_ELF_BASE_OFFSET, kernel_perms)) /\
    (forall i, 0 <= i < 256 \/ i = 511 -> kpt_root t !!! Z.to_nat i = kpt_root t0 !!! Z.to_nat i)) t0.
Proof.
  intros t0. apply (rust_map_kernel_window_translates 0xffffffff84001000 0xffffffff84002000 t0); by_compute.
Defined.
