(* ===== verification/UnitTests.v ===== *)
(** * The unit tests of the capability space

    [sel4_cspace/src/lib.rs], module [tests]: the tests the crate runs on the
    RISC-V target, as computations over the slots of [RvCSpace.v].  A test puts its
    locals in memory, calls the operations and asserts.  The addresses the
    compiler gives the locals are arguments.  What a test prints is left out, and
    so is [shutdown_test], which only leaves the machine. *)

From stdpp Require Import base numbers gmap list.
From S2P Require Import Prelude Bitfield Common Cap DList CSpace RvCommon RvCap RvCSpace.
Local Open Scope Z_scope.
Local Open Scope krn_scope.

(** [let mut x = v] of a slot at [a]. *)
Definition local (a : Z) (x : cte_t) : ST slots unit := modify <[a := x]>.
Definition assert_eq {A} `{EqDecision A} (x y : A) : ST slots unit := assert_m (bool_decide (x = y)).
Definition assert_ne {A} `{EqDecision A} (x y : A) : ST slots unit := assert_m (bool_decide (x <> y)).
(** [x.cap.get_cap_type()], [x.cteMDBNode.get_next()], [x.cteMDBNode.get_prev()]. *)
Definition cap_type_at (a : Z) : ST slots CapTag := x ← load a; lift (get_cap_type (cte_cap x)).
Definition next_at (a : Z) : ST slots Z := x ← load a; mret (rv_mdb_get mdbNext x).
Definition prev_at (a : Z) : ST slots Z := x ← load a; mret (rv_mdb_get mdbPrev x).
(** [assert_eq!(x.cteMDBNode.get_next(), &mut y)] and the like. *)
Definition next_is (a v : Z) : ST slots unit := n ← next_at a; assert_eq n v.
Definition prev_is (a v : Z) : ST slots unit := n ← prev_at a; assert_eq n v.
Definition next_isnt (a v : Z) : ST slots unit := n ← next_at a; assert_ne n v.
Definition prev_isnt (a v : Z) : ST slots unit := n ← prev_at a; assert_ne n v.
Definition cap_type_is (a : Z) (t : CapTag) : ST slots unit := t' ← cap_type_at a; assert_eq t' t.
Definition null_slot : cte_t := Cte new_null_cap (mdb_node_new 0 0 0 0).

Section tests.
Variables cte1 cte2 cte3 cte4 buffer : Z.

(* src: sel4_cspace/src/lib.rs 43-58 same_object_as_test *)
Definition same_object_as_test : ST slots unit :=
  let cap1 := new_cnode_cap 1 1 1 1 in
  let cap3 := new_cnode_cap 2 1 1 1 in
  local cte1 (Cte cap1 (mdb_node_new 0 0 0 0)) ;;
  '(_, cap2) ← derive_cap cte1 cap3;
  x ← load cte1;
  a ← lift (same_object_as (cte_cap x) cap2);
  assert_eq a false ;;
  b ← lift (same_object_as cap2 cap3);
  assert_eq b true.

(* src: sel4_cspace/src/lib.rs 61-87 cte_insert_test *)
Definition cte_insert_test : ST slots unit :=
  let cap1 := new_asid_control_cap in
  let cap2 := new_domain_cap in
  local cte1 null_slot ;;
  local cte2 null_slot ;;
  local cte3 null_slot ;;
  cte_insert cap1 cte1 cte2 ;;
  cte_insert cap2 cte2 cte3 ;;
  cap_type_is cte2 CapASIDControlCap ;;
  cap_type_is cte3 CapDomainCap ;;
  next_is cte1 cte2 ;;
  next_is cte2 cte3 ;;
  prev_is cte2 cte1 ;;
  prev_is cte3 cte2.

(* src: sel4_cspace/src/lib.rs 90-129 cte_move_test *)
Definition cte_move_test : ST slots unit :=
  let cap1 := new_asid_control_cap in
  let cap2 := new_domain_cap in
  let cap3 := new_irq_control_cap in
  local cte1 null_slot ;;
  local cte2 null_slot ;;
  local cte3 null_slot ;;
  local cte4 null_slot ;;
  cte_insert cap1 cte1 cte2 ;;
  cte_insert cap2 cte2 cte3 ;;
  next_is cte1 cte2 ;;
  next_is cte2 cte3 ;;
  prev_is cte2 cte1 ;;
  prev_is cte3 cte2 ;;
  cte_move cap3 cte2 cte4 ;;
  cap_type_is cte4 CapIrqControlCap ;;
  next_is cte4 cte3 ;;
  prev_is cte4 cte1 ;;
  next_is cte1 cte4 ;;
  prev_is cte3 cte4 ;;
  next_isnt cte1 cte2 ;;
  prev_isnt cte3 cte2 ;;
  next_isnt cte2 cte3 ;;
  prev_isnt cte2 cte1.

(* src: sel4_cspace/src/lib.rs 132-170 cte_swap_test *)
Definition cte_swap_test : ST slots unit :=
  let cap1 := new_asid_control_cap in
  let cap2 := new_domain_cap in
  local cte1 null_slot ;;
  local cte2 null_slot ;;
  local cte3 null_slot ;;
  local cte4 null_slot ;;
  cte_insert cap1 cte1 cte2 ;;
  cte_insert cap2 cte3 cte4 ;;
  next_is cte1 cte2 ;;
  prev_is cte2 cte1 ;;
  next_is cte3 cte4 ;;
  prev_is cte4 cte3 ;;
  cte_swap cap1 cte2 cap2 cte4 ;;
  cap_type_is cte2 CapDomainCap ;;
  cap_type_is cte4 CapASIDControlCap ;;
  prev_is cte4 cte1 ;;
  next_is cte1 cte4 ;;
  prev_is cte2 cte3 ;;
  next_is cte3 cte2.

(* src: sel4_cspace/src/lib.rs 173-200 insert_new_cap_test *)
Definition insert_new_cap_test : ST slots unit :=
  let cap1 := new_asid_control_cap in
  let cap2 := new_domain_cap in
  local cte1 null_slot ;;
  local cte2 null_slot ;;
  local cte3 null_slot ;;
  cte_insert cap1 cte1 cte2 ;;
  cap_type_is cte2 CapASIDControlCap ;;
  next_is cte1 cte2 ;;
  prev_is cte2 cte1 ;;
  insert_new_cap cte1 cte3 cap2 ;;
  next_is cte1 cte3 ;;
  next_is cte3 cte2 ;;
  prev_is cte2 cte3 ;;
  prev_is cte3 cte1.

(** [let buffer: [u8; 1024] = [0; 1024]], read as slots. *)
Definition zeroed (n : nat) : ST slots unit :=
  for_range n 0 (fun i => local (wadd buffer (wmul cte_size i)) cte_default).

(* src: sel4_cspace/src/lib.rs 203-231 resolve_address_bits_test *)
Definition resolve_address_bits_setup : ST slots resolveAddressBits_ret_t :=
  let guardSize := 2 in
  let guard1 := 2 in
  let guard2 := 3 in
  zeroed 32 ;;
  let cap1 := new_cnode_cap 3 guardSize guard1 buffer in
  let cap2 := new_cnode_cap 3 guardSize guard2 buffer in
  local cte1 null_slot ;;
  let cap3 := new_domain_cap in
  let idx := 2 in
  let cap_ptr := wshl guard1 8 ||| wshl idx 5 ||| wshl guard2 3 ||| idx in
  let slot1 := wadd (rv_get cnode_ptr cap1) (wmul idx 32) in
  assert_m (slot1 <>w 0) ;;
  insert_new_cap cte1 slot1 cap2 ;;
  let slot2 := wadd (rv_get cnode_ptr cap2) (wmul idx 32) in
  assert_m (slot2 <>w 0) ;;
  insert_new_cap cte1 slot2 cap3 ;;
  resolve_address_bits cap1 cap_ptr 10.

(* src: sel4_cspace/src/lib.rs 203-235 resolve_address_bits_test *)
Definition resolve_address_bits_test : ST slots unit :=
  res_ret ← resolve_address_bits_setup;
  cap_type_is (rab_slot res_ret) CapDomainCap.

(* src: sel4_cspace/src/lib.rs 238-245 cap_t_create_happy_test *)
Definition cap_t_create_happy_test : ST slots unit :=
  let cap1 := new_cnode_cap 1 1 1 1 in
  t ← lift (get_cap_type cap1);
  assert_eq t CapCNodeCap ;;
  assert_eq (rv_get cnode_guard_size cap1) 1.

(* src: sel4_cspace/src/lib.rs 269-308 new_mock_slot *)
Definition new_mock_slot (tag : CapTag) : res cte_t :=
  let slot c := Cte c (mdb_node_new 0 0 0 0) in
  match tag with
  | CapCNodeCap => mret (slot (new_cnode_cap 0 0 0 0))
  | CapFrameCap => mret (slot (new_frame_cap 0 0 0 0 0 0))
  | CapPageTableCap => mret (slot (new_page_table_cap 0 0 0 0))
  | CapASIDControlCap => mret (slot new_asid_control_cap)
  | CapASIDPoolCap => mret (slot (new_asid_pool_cap 0 0))
  | _ => Panic
  end.

(** A slot's pointer is its address. *)
(* src: sel4_cspace/src/lib.rs 248-261 slot_get_ptr_happy_case_test *)
Definition slot_get_ptr_happy_case_test : ST slots unit :=
  slot ← lift (new_mock_slot CapCNodeCap);
  local cte1 slot ;;
  assert_m (cte1 =w cte1).

Definition test_cases : list (ST slots unit) :=
  [same_object_as_test; cte_insert_test; cte_move_test; cte_swap_test; insert_new_cap_test;
   resolve_address_bits_test; cap_t_create_happy_test; slot_get_ptr_happy_case_test].
End tests.

(* src: sel4_cspace/src/lib.rs 316-321 test_runner *)
Fixpoint test_runner (tests : list (ST slots unit)) : ST slots unit :=
  match tests with
  | [] => skip
  | test :: tests => test ;; test_runner tests
  end.

(** ** The tests pass

    wherever the compiler puts the locals: at distinct addresses that the link
    [mdbNext] of the port can hold. *)
Definition rv_slot_addr (a : Z) : bool :=
  bool_decide (0 <> a) && bool_decide (rv_get mdbNext (bf_set mdbNext a [0; 0]) = a) && bool_decide (is_word a).

Section links.
Implicit Types (a : Z) (ws : list Z).

Lemma rv_get_set_same f a ws ws' :
  wf_bf 2 (unsigned f) = true -> length ws = 2%nat -> length ws' = 2%nat ->
  rv_get f (bf_set f a ws) = rv_get f (bf_set f a ws').
Proof.
  intros Hf Hl Hl'. unfold rv_get. change (bf_set f a) with (bf_set (unsigned f) a).
  by rewrite !(bf_get_set_same 2) by done.
Qed.
Lemma rv_get_set_other f g a ws :
  wf_bf 2 (unsigned f) = true -> wf_bf 2 g = true -> disjoint_bf (unsigned f) g = true -> length ws = 2%nat ->
  rv_get f (bf_set g a ws) = rv_get f ws.
Proof. intros Hf Hg Hd Hl. unfold rv_get. by rewrite (bf_get_set_other 2 2) by done. Qed.

Lemma rv_next_set_next a ws : rv_slot_addr a = true -> length ws = 2%nat -> rv_get mdbNext (bf_set mdbNext a ws) = a.
Proof.
  intros [[_ H]%andb_true_iff _]%andb_true_iff Hl. apply bool_decide_eq_true in H.
  by rewrite (rv_get_set_same _ _ _ [0; 0]).
Qed.
Lemma rv_prev_set_prev a ws : rv_slot_addr a = true -> length ws = 2%nat -> rv_get mdbPrev (bf_set mdbPrev a ws) = a.
Proof.
  intros [_ H]%andb_true_iff Hl. apply bool_decide_eq_true in H. change (bf_get mdbPrev (bf_set mdbPrev a ws) = a).
  rewrite (bf_get_set_same 2) by done. apply bf_norm_small; cbn; [done|done|lia|exact H].
Qed.
End links.

(** ** Executing a test *)
Lemma rv_node_new_next n r f p : rv_slot_addr n = true -> rv_get mdbNext (mdb_node_new n r f p) = n.
Proof.
  intros [[_ H]%andb_true_iff _]%andb_true_iff. apply bool_decide_eq_true in H.
  rewrite <- H at 2. unfold rv_get.
  change (bf_set mdbNext n) with (bf_set (unsigned mdbNext) n).
  rewrite (bf_get_set_same 2) by done.
  change (mdb_node_new n r f p) with (bf_new mdb_node_t [(unsigned mdbNext, n); (mdbRevocable, r); (mdbFirstBadged, f); (mdbPrev, p)] 0).
  by rewrite (bf_new_get mdb_node_t _ _ _ n) by (try set_solver; done).
Qed.
Lemma rv_node_new_prev n r f p : rv_slot_addr p = true -> rv_get mdbPrev (mdb_node_new n r f p) = p.
Proof.
  intros [_ H]%andb_true_iff. apply bool_decide_eq_true in H.
  change (bf_get mdbPrev (mdb_node_new n r f p) = p). unfold mdb_node_new.
  rewrite (bf_new_get mdb_node_t _ _ _ p) by (try set_solver; done).
  apply bf_norm_small; cbn; [done|done|lia|exact H].
Qed.
Lemma rv_node_new_length n r f p : length (mdb_node_new n r f p) = 2%nat.
Proof. unfold mdb_node_new, bf_new. rewrite length_insert, bf_set_or_length. done. Qed.

Lemma wp_local a x (Q : unit -> slots -> Prop) h : Q tt (<[a := x]> h) -> wp (local a x) Q h.
Proof. apply wp_modify. Qed.

Ltac ut_len := rewrite ?bf_set_length, ?rv_node_new_length; reflexivity.
Ltac ut_fields := unfold rv_mdb_get; cbn [cte_cap cteMDBNode set_cap set_mdb mdb_set];
  repeat first
    [ rewrite rv_next_set_next by (assumption || ut_len)
    | rewrite rv_prev_set_prev by (assumption || ut_len)
    | rewrite rv_node_new_next by (assumption || reflexivity)
    | rewrite rv_node_new_prev by (assumption || reflexivity)
    | rewrite rv_get_set_other by (reflexivity || ut_len) ].
Ltac ut_heap := repeat first [rewrite lookup_insert_eq; reflexivity | rewrite lookup_insert_ne by congruence]; try eassumption.
Ltac ut_close := solve [apply bool_decide_true; ut_fields; first [reflexivity | congruence | vm_compute; congruence]
  | apply negb_true_iff, bool_decide_false; congruence | vm_compute; reflexivity].
Ltac ut_step :=
  lazymatch goal with
  | |- wp (local _ _) _ _ => apply wp_local
  | |- wp (load_ref _) _ _ => ut_fields; eapply wp_load_ref; [congruence|ut_heap|]
  | |- wp (store_ref _ _) _ _ => ut_fields; eapply wp_store_ref; [congruence|ut_heap|]
  | |- wp (load _) _ _ => eapply wp_load; [ut_heap|]
  | |- wp (store_with _ _) _ _ => eapply wp_store_with; [ut_heap|]
  | |- wp (lift _) _ _ => eapply wp_lift; [vm_compute; reflexivity|]
  | |- wp (assert_m _) _ _ => apply wp_assert; [ut_close|]
  | |- wp (when _ _) _ _ => ut_fields; apply wp_when; let H := fresh in intros H;
      first [ exfalso; apply negb_false_iff, bool_decide_eq_true in H; congruence
            | exfalso; vm_compute in H; discriminate H | clear H ]
  | |- wp (if ?b then _ else _) _ _ => let b' := eval vm_compute in b in change b with b'; cbv iota
  | |- wp _ _ _ => first [wp_step | progress cbv zeta beta | progress unfold next_is, prev_is, next_isnt, prev_isnt, cap_type_is,
        cap_type_at, next_at, prev_at, assert_eq, assert_ne, cte_insert, cte_move, cte_swap, insert_new_cap, setUntypedCapAsFull]
  end.

(** Where the locals of a test may be. *)
Definition locals_ok (l : list Z) : Prop := NoDup l /\ Forall (fun a => rv_slot_addr a = true) l.

Lemma rv_slot_nz a : rv_slot_addr a = true -> a <> 0.
Proof. intros [[H _]%andb_true_iff _]%andb_true_iff. apply bool_decide_eq_true in H. done. Qed.

Ltac ut_start := intros [Hn Hok]; rewrite !NoDup_cons, !not_elem_of_cons in Hn;
  rewrite !Forall_cons in Hok; destruct_and!;
  repeat match goal with H : rv_slot_addr ?a = true |- _ =>
    assert_fails (assert (a <> 0) by assumption); pose proof (rv_slot_nz _ H) end.

Section passing.
Variables cte1 cte2 cte3 cte4 buffer : Z.
Implicit Types h : slots.

Lemma same_object_as_passes h : wp (same_object_as_test cte1) (fun _ _ => True) h.
Proof. unfold same_object_as_test, derive_cap. repeat ut_step. done. Qed.

Lemma cte_insert_passes h : locals_ok [cte1; cte2; cte3] -> wp (cte_insert_test cte1 cte2 cte3) (fun _ _ => True) h.
Proof. ut_start. unfold cte_insert_test. repeat ut_step. done. Qed.

Lemma cte_move_passes h :
  locals_ok [cte1; cte2; cte3; cte4] -> wp (cte_move_test cte1 cte2 cte3 cte4) (fun _ _ => True) h.
Proof. ut_start. unfold cte_move_test. repeat ut_step. done. Qed.

Lemma cte_swap_passes h :
  locals_ok [cte1; cte2; cte3; cte4] -> wp (cte_swap_test cte1 cte2 cte3 cte4) (fun _ _ => True) h.
Proof. ut_start. unfold cte_swap_test. repeat ut_step. done. Qed.

Lemma insert_new_cap_passes h :
  locals_ok [cte1; cte2; cte3] -> wp (insert_new_cap_test cte1 cte2 cte3) (fun _ _ => True) h.
Proof. ut_start. unfold insert_new_cap_test. repeat ut_step. done. Qed.

Lemma cap_t_create_passes h : wp cap_t_create_happy_test (fun _ _ => True) h.
Proof. unfold cap_t_create_happy_test. repeat ut_step. done. Qed.

Lemma slot_get_ptr_passes h : wp (slot_get_ptr_happy_case_test cte1) (fun _ _ => True) h.
Proof. unfold slot_get_ptr_happy_case_test. repeat ut_step. done. Qed.

(** The lookup.  Both CNode capabilities of the test name the same buffer, so the
    second insertion overwrites the first and the slot of the first level already
    holds the domain capability: the lookup stops there, five bits short, and the
    second level is never walked. *)
Definition cnode_addr : Prop := rv_get cnode_ptr (new_cnode_cap 0 0 0 buffer) = buffer.
Definition the_slot : Z := wadd buffer 64.

Lemma cnode_field f v r g n :
  (f, v) ∈ [(cnode_radix, r); (cnode_guard_size, n); (cnode_guard, g)] ->
  rv_get f (new_cnode_cap r n g buffer) = bf_norm f v.
Proof.
  intros Hf. unfold new_cnode_cap.
  assert (bf_get f (bf_new cap_t [(cnode_radix, r); (cnode_guard_size, n); (cnode_guard, g); (cnode_ptr, buffer)]
    (CapTag_to_usize CapCNodeCap)) = bf_norm f v) as <- by (apply bf_new_get; [done|done|set_solver]).
  rewrite !elem_of_cons in Hf. destruct Hf as [[= -> _]|[[= -> _]|[[= -> _]|Hf]]]; [done..|by apply elem_of_nil in Hf].
Qed.
Lemma cnode_ptr_field r n g : cnode_addr -> rv_get cnode_ptr (new_cnode_cap r n g buffer) = buffer.
Proof.
  unfold cnode_addr. intros H. rewrite <- H at 2. unfold rv_get.
  assert (forall r n g, bf_get (unsigned cnode_ptr) (new_cnode_cap r n g buffer) = bf_norm (unsigned cnode_ptr) buffer) as E.
  { intros r' n' g'.
    apply (bf_new_get cap_t [(cnode_radix, r'); (cnode_guard_size, n'); (cnode_guard, g'); (unsigned cnode_ptr, buffer)]);
      [done|done|set_solver]. }
  by rewrite !E.
Qed.
Lemma cnode_type r n g : get_cap_type (new_cnode_cap r n g buffer) = Ok CapCNodeCap.
Proof. unfold get_cap_type, new_cnode_cap. by rewrite bf_new_type. Qed.

Lemma zeroed_slot h : wp (zeroed buffer 32) (fun _ h' => is_Some (h' !! the_slot)) h.
Proof.
  apply (wp_for_range (fun i h' => 2 < i -> is_Some (h' !! the_slot))); [lia| |intros h' H; apply H; cbn; lia].
  intros i h' _ H. apply wp_local. intros Hi. destruct (decide (i = 2)) as [->|]; [by rewrite lookup_insert_eq|].
  apply lookup_insert_is_Some'. right. apply H. lia.
Qed.

Lemma resolve_address_bits_stops h slot :
  cnode_addr -> wadd buffer 64 = slot -> locals_ok [cte1; slot] ->
  wp (resolve_address_bits_setup cte1 buffer) (fun ret h' => ret = ResolveRet EXCEPTION_NONE slot 5 /\
    exists x, h' !! slot = Some x /\ get_cap_type (cte_cap x) = Ok CapDomainCap) h.
Proof.
  intros Hb Hs. ut_start. unfold resolve_address_bits_setup. apply wp_bind. eapply wp_mono; [apply zeroed_slot|].
  unfold the_slot. rewrite Hs. intros _ h1 [x Hx]. cbv zeta beta. rewrite !(cnode_ptr_field _ _ _ Hb).
  change (wmul 2 32) with 64. rewrite Hs. repeat ut_step.
  unfold resolve_address_bits. rewrite cnode_type. ut_step. eapply wp_lift; [done|]. ut_step.
  change (wshl 2 8 ||| wshl 2 5 ||| wshl 3 3 ||| 2) with 602. unfold resolve_loop at 1. unfold resolve_step.
  rewrite (cnode_ptr_field _ _ _ Hb).
  rewrite (cnode_field cnode_radix 3), (cnode_field cnode_guard_size 2), (cnode_field cnode_guard 2) by set_solver.
  change (bf_norm cnode_radix 3) with 3. change (bf_norm cnode_guard_size 2) with 2.
  change (wshr 602 (wsub 10 (wadd 3 2)) &&& MASK 3) with 2. change (cte_add buffer 2) with (wadd buffer 64).
  rewrite Hs. change (wsub 10 (wadd 3 2)) with 5. repeat ut_step.
  split; [done|]. eexists. split; [ut_heap|done].
Qed.

Lemma resolve_address_bits_passes h :
  cnode_addr -> locals_ok [cte1; wadd buffer 64] ->
  wp (resolve_address_bits_test cte1 buffer) (fun _ _ => True) h.
Proof.
  intros Hb Hl. apply wp_bind. eapply wp_mono; [by eapply resolve_address_bits_stops|].
  intros ret h' (-> & x & Hx & Ht). unfold cap_type_is, cap_type_at. ut_step. ut_step. ut_step.
  eapply wp_lift; [exact Ht|]. by apply wp_assert; [apply bool_decide_true|].
Qed.

(** The runner gets through the whole list. *)
Theorem unit_tests_pass h :
  cnode_addr -> locals_ok [cte1; cte2; cte3; cte4] -> locals_ok [cte1; wadd buffer 64] ->
  wp (test_runner (test_cases cte1 cte2 cte3 cte4 buffer)) (fun _ _ => True) h.
Proof.
  intros Hb Hl Hs.
  assert (locals_ok [cte1; cte2; cte3]) as Hl3.
  { destruct Hl as [Hn Hf]. change [cte1; cte2; cte3; cte4] with ([cte1; cte2; cte3] ++ [cte4]) in *.
    split; [by apply NoDup_app in Hn as (? & _)|by apply Forall_app in Hf as [? _]]. }
  assert (forall tests h, Forall (fun t => forall h, wp t (fun _ _ => True) h) tests ->
    wp (test_runner tests) (fun _ _ => True) h) as Hrun.
  { intros tests. induction tests as [|t ts IH]; intros h' Hts; [done|]. apply Forall_cons in Hts as [Ht Hts].
    apply wp_bind. eapply wp_mono; [apply Ht|]. intros _ h'' _. by apply IH. }
  apply Hrun. clear Hrun. unfold test_cases.
  repeat apply Forall_cons_2; [..|by apply Forall_nil_2]; intros h';
    [apply same_object_as_passes|by apply cte_insert_passes|by apply cte_move_passes|by apply cte_swap_passes
    |by apply insert_new_cap_passes|by apply resolve_address_bits_passes|apply cap_t_create_passes|apply slot_get_ptr_passes].
Qed.
End passing.

(** Addresses for which the hypotheses hold, in the kernel image of the board. *)
Theorem unit_tests_pass_witness :
  wp (test_runner (test_cases 0x84020100 0x84020120 0x84020140 0x84020160 0x84020200)) (fun _ _ => True) ∅.
Proof.
  apply unit_tests_pass; [done|by split; [by_decide|repeat apply Forall_cons_2; done]
    |by split; [by_decide|repeat apply Forall_cons_2; done]].
Defined.
