(* ===== verification/Devices.v ===== *)
(** * Serial ports, the console, firmware calls

    [serial-frame], [serial-impl], [driver-collect] and the modules [console],
    [logging], [smp] and [arch] of [sel4_common]: the interface of a serial driver and its
    two implementations, printing and logging over it, the calls to the firmware
    that the two builds make (PSCI, SBI), the numbers of the cores.  As in
    [Gic.v], the state is the history of accesses and what the hardware answers
    is a function of that history. *)

From stdpp Require Import base numbers list strings pretty.
From S2P Require Import Prelude Trace.
Local Open Scope Z_scope.
Local Open Scope krn_scope.

(** ** The machine *)

(** [Ecall]: a call of the supervisor's firmware, with its number and arguments.
    [EcallRef]: one whose first argument is the address of a word that holds
    [v].  [Hvc]: a call of the hypervisor. *)
Inductive dev_access : Type :=
| Rd (reg v : Z)
| Wr (reg v : Z)
| Ecall (which arg0 arg1 arg2 : Z)
| EcallRef (which v arg1 arg2 : Z)
| Hvc (func arg0 arg1 arg2 : Z).
#[export] Instance dev_access_eq_dec : EqDecision dev_access.
Proof. solve_decision. Defined.
Definition dev_t : Type := list dev_access.

(** What the hardware answers after a history: the 32-bit value of a register,
    the word that a call returns. *)
Class Machine := {
  reg_value : dev_t -> Z -> Z;
  call_value : dev_t -> Z;
  timer_value : dev_t -> Z }.

Definition emit (e : dev_access) : ST dev_t unit := modify (fun h => h ++ [e]).
Definition reg_set (reg v : Z) : ST dev_t unit := emit (Wr reg v).
Definition as_u8 (x : Z) : Z := x &&& 0xff.
(** [x as i32] of a word. *)
Definition as_i32 (x : Z) : Z := let y := x &&& 0xffffffff in if decide (y < 2 ^ 31) then y else y - 2 ^ 32.

(** Levels of the [log] crate. *)
Module Level.
Inductive t := Error | Warn | Info | Debug | Trace.
End Level.
Module LevelFilter.
Inductive t := Off | Error | Warn | Info | Debug | Trace.
End LevelFilter.

Section machine.
Context {M : Machine}.

Definition reg_get (reg : Z) : ST dev_t Z :=
  v ← gets (fun h => reg_value h reg); emit (Rd reg v) ;; mret v.
Definition call (e : dev_access) : ST dev_t Z := emit e ;; gets call_value.

(** ** The serial interface *)
(* src: serial-frame/src/lib.rs 8-19 SerialDriver *)
Class SerialDriver (Self : Type) := {
  new : Z -> Self;
  init : Self -> ST dev_t unit;
  putchar : Self -> Z -> ST dev_t unit;
  getchar : Self -> ST dev_t (option Z) }.

(** ** The PL011 *)
(* src: serial-impl/pl011/src/lib.rs 51-53 Pl011Uart *)
Record Pl011Uart := { base : Z }.

Section pl011.
Variable self : Pl011Uart.
(* src: serial-impl/pl011/src/lib.rs 22-22 Pl011UartRegs::dr *)
Definition dr : Z := wadd (base self) 0x00.
(* src: serial-impl/pl011/src/lib.rs 25-25 Pl011UartRegs::fr *)
Definition fr : Z := wadd (base self) 0x18.
(* src: serial-impl/pl011/src/lib.rs 28-28 Pl011UartRegs::cr *)
Definition cr : Z := wadd (base self) 0x30.
(* src: serial-impl/pl011/src/lib.rs 30-30 Pl011UartRegs::ifls *)
Definition ifls : Z := wadd (base self) 0x34.
(* src: serial-impl/pl011/src/lib.rs 32-32 Pl011UartRegs::imsc *)
Definition imsc : Z := wadd (base self) 0x38.
(* src: serial-impl/pl011/src/lib.rs 36-36 Pl011UartRegs::mis *)
Definition mis : Z := wadd (base self) 0x40.
(* src: serial-impl/pl011/src/lib.rs 38-38 Pl011UartRegs::icr *)
Definition icr : Z := wadd (base self) 0x44.

(* src: serial-impl/pl011/src/lib.rs 65-68 Pl011Uart::is_receive_interrupt *)
Definition is_receive_interrupt : ST dev_t bool :=
  pending ← reg_get mis;
  mret (pending &&& wshl 1 4 <>w 0).
(* src: serial-impl/pl011/src/lib.rs 71-73 Pl011Uart::ack_interrupts *)
Definition ack_interrupts : ST dev_t unit := reg_set icr 0x7ff.
(** The wait for room in the transmission queue. *)
(* src: serial-impl/pl011/src/lib.rs 79-79 Pl011Uart::putchar *)
Fixpoint wait_loop (fuel : nat) : ST dev_t unit :=
  match fuel with
  | O => no_fuel
  | S fuel => v ← reg_get fr; if v &&& wshl 1 5 <>w 0 then wait_loop fuel else skip
  end.
(* src: serial-impl/pl011/src/lib.rs 78-81 Pl011Uart::putchar *)
Definition pl011_putchar (fuel : nat) (c : Z) : ST dev_t unit := wait_loop fuel ;; reg_set dr c.
(* src: serial-impl/pl011/src/lib.rs 84-90 Pl011Uart::getchar *)
Definition pl011_getchar : ST dev_t (option Z) :=
  v ← reg_get fr;
  if v &&& wshl 1 4 =w 0 then c ← reg_get dr; mret (Some (as_u8 c)) else mret None.
(* src: serial-impl/pl011/src/lib.rs 100-112 Pl011Uart::init *)
Definition pl011_init : ST dev_t unit :=
  reg_set icr 0x7ff ;;
  reg_set ifls 0 ;;
  reg_set imsc (wshl 1 4) ;;
  reg_set cr (wshl 1 0 ||| wshl 1 8 ||| wshl 1 9).
End pl011.

(* src: serial-impl/pl011/src/lib.rs 76-113 SerialDriver for Pl011Uart *)
#[export] Instance pl011_driver (fuel : nat) : SerialDriver Pl011Uart := {|
  new addr := {| base := addr |};
  init := pl011_init;
  putchar self := pl011_putchar self fuel;
  getchar := pl011_getchar |}.

(** ** The firmware's console *)
(* src: serial-impl/sbi/src/lib.rs 13-25 sbi_call *)
Definition sbi_call (which arg0 arg1 arg2 : Z) : ST dev_t Z := call (Ecall which arg0 arg1 arg2).
(* src: serial-impl/sbi/src/lib.rs 8-8 SBI_CONSOLE_PUTCHAR *)
Definition SBI_CONSOLE_PUTCHAR : Z := 1.
(* src: serial-impl/sbi/src/lib.rs 10-10 SBI_CONSOLE_GETCHAR *)
Definition SBI_CONSOLE_GETCHAR : Z := 2.
(* src: serial-impl/sbi/src/lib.rs 27-27 SerialSBI *)
Inductive SerialSBI := mk_SerialSBI.
(* src: serial-impl/sbi/src/lib.rs 30-52 SerialDriver for SerialSBI *)
#[export] Instance sbi_driver : SerialDriver SerialSBI := {|
  new _ := mk_SerialSBI;
  init _ := skip;
  putchar _ c := sbi_call SBI_CONSOLE_PUTCHAR c 0 0 ;; skip;
  getchar _ :=
    r ← sbi_call SBI_CONSOLE_GETCHAR 0 0 0;
    mret (if r <>w 2 ^ 64 - 1 then Some (as_u8 r) else None) |}.

(** ** The driver of each build *)
Section default_serial.
Context {D : Type} {Hd : SerialDriver D}.
Variable addr : Z.
(** [addr] is the address the build passes, [AARCH64_SERIAL] or [RISCV_SERIAL]. *)
(* src: driver-collect/src/lib.rs 19-30 default_serial *)
Definition default_serial : D := new addr.
(* src: driver-collect/src/lib.rs 35-37 init *)
Definition drivers_init : ST dev_t unit := init default_serial.

(** ** Printing

    A string is the list of its characters' code points; [c as _] keeps the low
    byte.  The arguments are rendered piece by piece by the formatter. *)
(* src: sel4_common/src/console.rs 10-17 Stdout::write_str *)
Fixpoint write_str (s : list Z) : ST dev_t unit :=
  match s with
  | [] => skip
  | c :: s => putchar default_serial (as_u8 c) ;; write_str s
  end.
(* src: sel4_common/src/console.rs 19-21 print *)
Fixpoint print (args : list (list Z)) : ST dev_t unit :=
  match args with
  | [] => skip
  | s :: args => write_str s ;; print args
  end.
End default_serial.
(* src: driver-collect/src/lib.rs 21-21 default_serial *)
Definition AARCH64_SERIAL : Z := 0xffffffffffe00000.
(* src: driver-collect/src/lib.rs 29-29 default_serial *)
Definition RISCV_SERIAL : Z := 0xf.

(** ** Logging *)
(** The [log] crate lets a record pass when its level is at most the filter. *)
Definition passes (l : Level.t) (m : LevelFilter.t) : bool :=
  let lv := match l with Level.Error => 1 | Level.Warn => 2 | Level.Info => 3 | Level.Debug => 4 | Level.Trace => 5 end in
  let mv := match m with LevelFilter.Off => 0 | LevelFilter.Error => 1 | LevelFilter.Warn => 2 | LevelFilter.Info => 3
    | LevelFilter.Debug => 4 | LevelFilter.Trace => 5 end in
  bool_decide (lv <= mv).
(* src: sel4_common/src/logging.rs 28-34 SimpleLogger::log *)
Definition log_color (l : Level.t) : Z :=
  match l with Level.Error => 31 | Level.Warn => 93 | Level.Info => 34 | Level.Debug => 32 | Level.Trace => 90 end.
(** [Display] of a level, padded to five characters on the left. *)
Definition level_field (l : Level.t) : string :=
  match l with Level.Error => "ERROR" | Level.Warn => " WARN" | Level.Info => " INFO" | Level.Debug => "DEBUG" | Level.Trace => "TRACE" end.
Definition chars (s : string) : list Z := (fun a => Z.of_N (Ascii.N_of_ascii a)) <$> String.list_ascii_of_string s.
Definition ESC : string := String (Ascii.ascii_of_N 0x1b) EmptyString.
Definition newline : string := String (Ascii.ascii_of_N 10) EmptyString.
(** The pieces that the format string of [log] prints; the message is the list
    of pieces that its own arguments print. *)
(* src: sel4_common/src/logging.rs 35-41 SimpleLogger::log *)
Definition log_pieces (l : Level.t) (cpu_id : Z) (args : list (list Z)) : list (list Z) :=
  [chars ESC; chars "["; chars (pretty (log_color l)); chars "m["; chars (level_field l); chars " ";
   chars (pretty cpu_id); chars "] "] ++ args ++ [chars ESC; chars ("[0m" +:+ newline)].
Section logging.
Context {D : Type} {Hd : SerialDriver D}.
(** [enabled] answers yes; the lock around the printing is left out. *)
(* src: sel4_common/src/logging.rs 23-42 SimpleLogger::log *)
Definition log (addr : Z) (l : Level.t) (cpu_id : Z) (args : list (list Z)) : ST dev_t unit :=
  print addr (log_pieces l cpu_id args).
End logging.
(** The filter that the environment variable [LOG] of the build selects. *)
(* src: sel4_common/src/logging.rs 51-58 init *)
Definition max_level (LOG : option string) : LevelFilter.t :=
  match LOG with
  | None => LevelFilter.Error
  | Some s =>
      if decide (s = "ERROR") then LevelFilter.Error
      else if decide (s = "WARN") then LevelFilter.Warn
      else if decide (s = "INFO") then LevelFilter.Info
      else if decide (s = "DEBUG") then LevelFilter.Debug
      else if decide (s = "TRACE") then LevelFilter.Trace
      else LevelFilter.Error
  end.

(** ** Calls of the hypervisor (aarch64) *)
(* src: sel4_common/src/arch/aarch64/mod.rs 14-14 PSCI_0_2_FN_BASE *)
Definition PSCI_0_2_FN_BASE : Z := 0x84000000.
(* src: sel4_common/src/arch/aarch64/mod.rs 20-20 PSCI_0_2_FN_SYSTEM_OFF *)
Definition PSCI_0_2_FN_SYSTEM_OFF : Z := PSCI_0_2_FN_BASE + 8.
(* src: sel4_common/src/arch/aarch64/mod.rs 29-39 PsciError *)
Inductive PsciError :=
| NotSupported | InvalidParams | Denied | AlreadyOn | OnPending | InternalFailure | NotPresent
| Disabled | InvalidAddress.
#[export] Instance PsciError_eq_dec : EqDecision PsciError.
Proof. solve_decision. Defined.
(* src: sel4_common/src/arch/aarch64/mod.rs 29-39 PsciError *)
Definition PsciError_code (e : PsciError) : Z :=
  match e with
  | NotSupported => -1 | InvalidParams => -2 | Denied => -3 | AlreadyOn => -4 | OnPending => -5
  | InternalFailure => -6 | NotPresent => -7 | Disabled => -8 | InvalidAddress => -9
  end.
(* src: sel4_common/src/arch/aarch64/mod.rs 41-57 PsciError::from *)
Definition PsciError_from (code : Z) : res PsciError :=
  match code with
  | -1 => Ok NotSupported
  | -2 => Ok InvalidParams
  | -3 => Ok Denied
  | -4 => Ok AlreadyOn
  | -5 => Ok OnPending
  | -6 => Ok InternalFailure
  | -7 => Ok NotPresent
  | -8 => Ok Disabled
  | -9 => Ok InvalidAddress
  | _ => Panic
  end.
(* src: sel4_common/src/arch/aarch64/mod.rs 60-72 psci_hvc_call *)
Definition psci_hvc_call (func arg0 arg1 arg2 : Z) : ST dev_t Z := call (Hvc func arg0 arg1 arg2).
(* src: sel4_common/src/arch/aarch64/mod.rs 74-86 psci_call *)
Definition psci_call (func arg0 arg1 arg2 : Z) : ST dev_t (option PsciError) :=
  ret ← psci_hvc_call func arg0 arg1 arg2;
  if ret =w 0 then mret None else e ← lift (PsciError_from (as_i32 ret)); mret (Some e).
(* src: sel4_common/src/arch/aarch64/mod.rs 88-92 shutdown *)
Definition psci_shutdown {D} {Hd : SerialDriver D} (addr : Z) (max : LevelFilter.t) (cpu_id : Z) : ST dev_t unit :=
  when (passes Level.Info max) (log addr Level.Info cpu_id [chars "Shutting down..."]) ;;
  psci_call PSCI_0_2_FN_SYSTEM_OFF 0 0 0 ;;
  panic.
(* src: sel4_common/src/arch/aarch64/mod.rs 94-96 get_time *)
Definition aarch64_get_time : ST dev_t Z := panic.

(** ** Calls of the firmware (RISC-V) *)
(* src: sel4_common/src/arch/riscv64/mod.rs 17-17 SBI_SET_TIMER *)
Definition SBI_SET_TIMER : Z := 0.
(* src: sel4_common/src/arch/riscv64/mod.rs 21-21 SBI_CLEAR_IPI *)
Definition SBI_CLEAR_IPI : Z := 3.
(* src: sel4_common/src/arch/riscv64/mod.rs 22-22 SBI_REMOTE_SFENCE_VMA *)
Definition SBI_REMOTE_SFENCE_VMA : Z := 6.
(* src: sel4_common/src/arch/riscv64/mod.rs 23-23 SBI_SHUTDOWN *)
Definition SBI_SHUTDOWN : Z := 8.
(* src: sel4_common/src/arch/riscv64/mod.rs 24-24 SYSCALL_WRITE *)
Definition SYSCALL_WRITE : Z := 64.
(** The same function as the serial driver's. *)
(* src: sel4_common/src/arch/riscv64/mod.rs 27-39 sbi_call *)
Definition arch_sbi_call (which arg0 arg1 arg2 : Z) : ST dev_t Z := call (Ecall which arg0 arg1 arg2).
(* src: sel4_common/src/arch/riscv64/mod.rs 41-43 set_timer *)
Definition set_timer (timer : Z) : ST dev_t unit := arch_sbi_call SBI_SET_TIMER timer 0 0 ;; skip.
(* src: sel4_common/src/arch/riscv64/mod.rs 45-47 clear_ipi *)
Definition clear_ipi : ST dev_t unit := arch_sbi_call SBI_CLEAR_IPI 0 0 0 ;; skip.
(* src: sel4_common/src/arch/riscv64/mod.rs 48-51 shutdown *)
Definition sbi_shutdown : ST dev_t unit := arch_sbi_call SBI_SHUTDOWN 0 0 0 ;; panic.
(** The buffer is its address and its length. *)
(* src: sel4_common/src/arch/riscv64/mod.rs 53-55 sys_write *)
Definition sys_write (fd ptr len : Z) : ST dev_t unit := arch_sbi_call SYSCALL_WRITE fd ptr len ;; skip.
(** The mask is passed by reference, and the range not at all. *)
(* src: sel4_common/src/arch/riscv64/mod.rs 57-60 remote_sfence_vma *)
Definition remote_sfence_vma (hart_mask _start _size : Z) : ST dev_t unit :=
  call (EcallRef SBI_REMOTE_SFENCE_VMA hart_mask 0 0) ;; skip.
(* src: sel4_common/src/arch/riscv64/mod.rs 62-64 get_time *)
Definition get_time : ST dev_t Z := gets timer_value.
End machine.

(** ** The numbers of the cores

    Of the build with several cores.  [coreMap] is the table the boot code of the C
    side fills. *)
Section cores.
Variable coreMap : list Z.
(* src: sel4_common/src/sel4_config.rs 95-95 CONFIG_MAX_NUM_NODES *)
Definition CONFIG_MAX_NUM_NODES : Z := 4.
Definition CONFIG_KERNEL_STACK_BITS : Z := 12.
(* src: sel4_common/src/smp.rs 7-9 get_core_map_ref *)
Definition get_core_map_ref : list Z := coreMap.
(* src: sel4_common/src/smp.rs 12-15 cpu_index_to_id *)
Definition cpu_index_to_id (index : Z) : res Z :=
  _ ← assert_r (bool_decide (index < CONFIG_MAX_NUM_NODES));
  idx get_core_map_ref index.
(* src: sel4_common/src/smp.rs 18-25 hart_id_to_core_id *)
Definition hart_id_to_core_id (hart_id : Z) : Z :=
  match list_find (fun x => x = hart_id) get_core_map_ref with
  | Some (core_id, _) => Z.of_nat core_id
  | None => 0
  end.
(** [sscratch] is the stack pointer of the core. *)
(* src: sel4_common/src/smp.rs 28-38 get_currenct_cpu_index *)
Definition riscv_cpu_index (kernel_stack_alloc sscratch : Z) : Z :=
  wshr (wsub sscratch (wadd kernel_stack_alloc 8)) CONFIG_KERNEL_STACK_BITS.
(* src: sel4_common/src/smp.rs 39-48 get_currenct_cpu_index *)
Definition aarch64_cpu_index (tpidr_el1 : Z) : Z := tpidr_el1 &&& 0xfff.
(** The loop of [get_sbi_mask_for_all_remote_harts] over [l]. *)
Fixpoint mask_loop (current : Z) (l : list Z) (mask : Z) : res Z :=
  match l with
  | [] => mret mask
  | i :: l =>
      if i <>w current then id ← cpu_index_to_id i; mask_loop current l (mask ||| BIT id)
      else mask_loop current l mask
  end.
(* src: sel4_common/src/smp.rs 51-59 get_sbi_mask_for_all_remote_harts *)
Definition get_sbi_mask_for_all_remote_harts (current : Z) : res Z :=
  mask_loop current (seqZ 0 CONFIG_MAX_NUM_NODES) 0.
End cores.
