(* ===== verification/DevicesProps.v ===== *)
(** * Serial ports, the console, firmware calls: theorems

    What is printed reaches the line, byte for byte, over any driver that keeps
    the promise of [SerialLaws]; the two drivers keep it. *)

From stdpp Require Import base numbers list strings pretty.
From S2P Require Import Prelude Trace Devices.
Local Open Scope Z_scope.
Local Open Scope krn_scope.

(** ** What a driver promises *)
Section console.
Context {M : Machine}.

(** The bytes that have gone out, and the promise that a byte goes out. *)
Class SerialLaws (D : Type) {Hd : SerialDriver D} (d : D) := {
  sent : dev_t -> list Z;
  putchar_sends : forall c h, 0 <= c < 256 -> wp (putchar d c) (fun _ h' => sent h' = sent h ++ [c]) h }.
#[local] Arguments sent {D Hd} d {_}.

Lemma as_u8_byte x : 0 <= as_u8 x < 256.
Proof.
  unfold as_u8. change 0xff with (Z.ones 8). rewrite Z.land_ones by lia. apply Z.mod_pos_bound. lia.
Qed.

Section print.
Context {D : Type} {Hd : SerialDriver D} (addr : Z) {L : SerialLaws D (default_serial addr)}.
Implicit Types (h : dev_t) (s : list Z).
#[local] Abbreviation out := (sent (default_serial addr)).

Lemma wp_write_str s h : wp (write_str addr s) (fun _ h' => out h' = out h ++ (as_u8 <$> s)) h.
Proof.
  revert h. induction s as [|c s IH]; intros h; cbn [write_str fmap list_fmap].
  - apply wp_ret. by rewrite app_nil_r.
  - apply wp_bind. eapply wp_mono; [apply putchar_sends, as_u8_byte|]. intros [] h' Hh'.
    eapply wp_mono; [apply IH|]. cbn beta. intros [] h'' Hh''. by rewrite Hh'', Hh', <- app_assoc.
Qed.

(** Printing puts exactly the bytes of the text on the line, in order and
    after what was there: every character leaves as its low byte, whatever the
    driver behind the interface, if a character it accepts always goes out. *)
Theorem print_sends (args : list (list Z)) h :
  wp (print addr args) (fun _ h' => out h' = out h ++ (as_u8 <$> mjoin args)) h.
Proof.
  revert h. induction args as [|s args IH]; intros h; cbn [print mjoin list_join].
  - apply wp_ret. by rewrite app_nil_r.
  - apply wp_bind. eapply wp_mono; [apply wp_write_str|]. intros [] h' Hh'.
    eapply wp_mono; [apply IH|]. cbn beta. intros [] h'' Hh''. by rewrite Hh'', Hh', <- app_assoc, fmap_app.
Qed.
End print.
End console.
#[global] Arguments sent {D Hd} d {_}.

(** ** The drivers keep it *)
Section pl011.
Context {M : Machine} (u : Pl011Uart).
Implicit Types (h : dev_t).

Definition full h : bool := reg_value h (fr u) &&& wshl 1 5 <>w 0.
(** The queue empties: after [busy h] polls there is room, and that is never
    [fuel] polls or more. *)
Definition drains (fuel : nat) : Prop := exists busy : dev_t -> nat, forall h, (busy h < fuel)%nat /\
  (full h = true -> (busy (h ++ [Rd (fr u) (reg_value h (fr u))]) < busy h)%nat).
(** The values written to the data register. *)
Definition data_writes h : list Z :=
  omap (fun e => match e with Wr r v => if decide (r = dr u) then Some v else None | _ => None end) h.

Lemma data_writes_app h1 h2 : data_writes (h1 ++ h2) = data_writes h1 ++ data_writes h2.
Proof. apply omap_app. Qed.

Lemma wp_wait n h (busy : dev_t -> nat) :
  (forall h, full h = true -> (busy (h ++ [Rd (fr u) (reg_value h (fr u))]) < busy h)%nat) -> (busy h < n)%nat ->
  wp (wait_loop u n) (fun _ h' => data_writes h' = data_writes h) h.
Proof.
  intros Hb. revert h. induction n as [|n IH]; intros h Hn; [lia|]. cbn [wait_loop].
  assert (data_writes (h ++ [Rd (fr u) (reg_value h (fr u))]) = data_writes h) as E
    by (rewrite data_writes_app; apply app_nil_r).
  apply wp_bind. unfold reg_get, emit. wp_steps. fold (full h). destruct (full h) eqn:Hf.
  - eapply wp_mono; [apply IH; specialize (Hb _ Hf); lia|]. cbn beta. intros [] h' Hh'. by rewrite Hh'.
  - apply wp_ret. exact E.
Qed.

#[export] Instance pl011_laws (fuel : nat) (H : drains fuel) : SerialLaws Pl011Uart (Hd := pl011_driver fuel) u.
Proof.
  refine {| sent := data_writes |}. intros c h _. destruct H as [busy Hb]. cbn [putchar pl011_driver]. unfold pl011_putchar.
  apply wp_bind. eapply wp_mono; [eapply (wp_wait _ _ busy); [apply Hb|apply Hb]|]. intros [] h' Hh'.
  unfold reg_set, emit. wp_steps. rewrite data_writes_app, Hh'. f_equal. cbn. by rewrite decide_True.
Defined.
End pl011.

Section sbi.
Context {M : Machine}.
(** The characters of the calls [SBI_CONSOLE_PUTCHAR]. *)
Definition console_calls (h : dev_t) : list Z :=
  omap (fun e => match e with Ecall w c _ _ => if decide (w = SBI_CONSOLE_PUTCHAR) then Some c else None | _ => None end) h.
#[export] Instance sbi_laws : SerialLaws SerialSBI (Hd := sbi_driver) mk_SerialSBI.
Proof.
  refine {| sent := console_calls |}. intros c h _. cbn [putchar sbi_driver]. unfold sbi_call, call, emit. wp_steps.
  unfold console_calls. by rewrite omap_app.
Defined.
End sbi.

(** ** Receiving *)
Section receive.
Context {M : Machine} (u : Pl011Uart).

(** The PL011 is asked for a byte only when it says it has one. *)
Theorem pl011_getchar_spec (h : dev_t) :
  let f := reg_value h (fr u) in let h1 := h ++ [Rd (fr u) f] in
  pl011_getchar u h =
    if f &&& wshl 1 4 =w 0 then
      Ok (Some (as_u8 (reg_value h1 (dr u))), h1 ++ [Rd (dr u) (reg_value h1 (dr u))])
    else Ok (None, h1).
Proof. cbn zeta. unfold pl011_getchar, reg_get, emit, mbind, st_bind, gets, modify, mret, st_ret. by case_bool_decide. Qed.

(** The firmware answers -1 when it has none; every other answer is a byte. *)
Theorem sbi_getchar_spec (h : dev_t) :
  let h1 := h ++ [Ecall SBI_CONSOLE_GETCHAR 0 0 0] in
  getchar (SerialDriver := sbi_driver) mk_SerialSBI h =
    Ok (if decide (call_value h1 = 2 ^ 64 - 1) then None else Some (as_u8 (call_value h1)), h1).
Proof. cbn. unfold sbi_call, call, emit, mbind, st_bind, gets, modify, mret, st_ret. by case_decide; case_bool_decide. Qed.
End receive.

(** ** Firmware calls *)
Section firmware.
Context {M : Machine}.
Implicit Types (h : dev_t).

Lemma PsciError_from_code (e : PsciError) : PsciError_from (PsciError_code e) = Ok e.
Proof. by destruct e. Qed.

Lemma PsciError_from_cases n : (exists e, PsciError_from n = Ok e) \/ PsciError_from n = Panic.
Proof. unfold PsciError_from. repeat case_match; eauto. Qed.

(** A call of the hypervisor returns unless its answer is none of the listed
    errors. *)
Theorem psci_call_spec func a0 a1 a2 h :
  let h' := h ++ [Hvc func a0 a1 a2] in let ret := call_value h' in
  psci_call func a0 a1 a2 h =
    if decide (ret = 0) then Ok (None, h')
    else match PsciError_from (as_i32 ret) with Ok e => Ok (Some e, h') | _ => Panic end.
Proof.
  cbn zeta. unfold psci_call, psci_hvc_call, call, emit, mbind, st_bind, gets, modify, lift. cbn -[as_i32 PsciError_from].
  case_decide; case_bool_decide; [done..|].
  by destruct (PsciError_from_cases (as_i32 (call_value (h ++ [Hvc func a0 a1 a2])))) as [[e ->]| ->].
Qed.

(** Neither build's [shutdown] returns. *)
Theorem psci_shutdown_diverges D (Hd : SerialDriver D) addr max cpu h r : psci_shutdown addr max cpu h <> Ok r.
Proof.
  destruct r as [[] h0]. intros E. unfold psci_shutdown in E. apply st_bind_inv in E as (? & h1 & _ & E).
  by apply st_bind_inv in E as (? & h2 & _ & E).
Qed.
Theorem sbi_shutdown_diverges h r : sbi_shutdown h <> Ok r.
Proof. destruct r as [[] h0]. intros E. unfold sbi_shutdown in E. by apply st_bind_inv in E as (? & h2 & _ & E). Qed.

(** The range of a remote fence is not passed on. *)
Theorem remote_sfence_vma_range m a n a' n' h : remote_sfence_vma m a n h = remote_sfence_vma m a' n' h.
Proof. done. Qed.
End firmware.

(** ** The numbers of the cores *)
Section cores.
Implicit Types (coreMap : list Z).

Theorem core_map_inverse coreMap i id : NoDup coreMap ->
  cpu_index_to_id coreMap i = Ok id -> hart_id_to_core_id coreMap id = i.
Proof.
  intros Hn. unfold cpu_index_to_id, hart_id_to_core_id, get_core_map_ref. intros E.
  apply res_bind_inv in E as (_ & _ & E). unfold idx, or_panic in E. case_decide as Hi; [|done].
  destruct (coreMap !! Z.to_nat i) as [x|] eqn:Hx; [|done]. injection E as ->.
  assert (list_find (fun x => x = id) coreMap = Some (Z.to_nat i, id)) as ->.
  - apply list_find_Some. split_and!; [done|done|]. intros j y Hj Hlt ->.
    pose proof (NoDup_lookup _ _ _ _ Hn Hj Hx). lia.
  - lia.
Qed.

(** The stacks of the cores lie one after the other; the first word of a stack
    is not part of it. *)
Theorem riscv_cpu_index_stack (base sp i : Z) :
  is_word base -> 0 <= i -> base + 8 + i * 2 ^ 12 <= sp < base + 8 + (i + 1) * 2 ^ 12 -> sp < 2 ^ 64 ->
  riscv_cpu_index base sp = i.
Proof.
  intros Hb Hi Hsp Hw. unfold riscv_cpu_index, is_word in *. rewrite wadd_small by (unfold is_word; lia).
  rewrite wsub_small by (unfold is_word; lia). change CONFIG_KERNEL_STACK_BITS with 12. rewrite wshr_spec by lia.
  symmetry. apply (Z.div_unique _ _ _ (sp - (base + 8) - i * 2 ^ 12)); lia.
Qed.

Lemma mask_loop_spec coreMap current l mask m : Forall (fun id => 0 <= id < 64) coreMap ->
  mask_loop coreMap current l mask = Ok m ->
  forall k, 0 <= k -> Z.testbit m k = true <->
    Z.testbit mask k = true \/ exists i, i ∈ l /\ i <> current /\ cpu_index_to_id coreMap i = Ok k.
Proof.
  intros Hids. revert mask. induction l as [|i l IH]; intros mask E k Hk; cbn [mask_loop] in E.
  - injection E as ->. split; [by left|]. intros [?|(i & Hi & _)]; [done|by apply elem_of_nil in Hi].
  - case_bool_decide as Hc; cbn [negb] in E.
    + rewrite (IH _ E k Hk). split; (intros [?|(j & Hj & Hn & Ej)]; [by left|right; exists j]).
      * split_and!; [by apply elem_of_cons; right|done|done].
      * apply elem_of_cons in Hj as [->|Hj]; [by subst|done].
    + apply res_bind_inv in E as (id & Eid & E). rewrite (IH _ E k Hk).
      assert (0 <= id < 64) as Hid.
      { unfold cpu_index_to_id in Eid. apply res_bind_inv in Eid as (? & _ & Eid). unfold idx, or_panic in Eid.
        case_decide; [|done]. destruct (get_core_map_ref coreMap !! Z.to_nat i) as [y|] eqn:Hx; [|done].
        injection Eid as ->. rewrite Forall_lookup in Hids. exact (Hids _ _ Hx). }
      rewrite Z.lor_spec, orb_true_iff, BIT_spec, Z.pow2_bits_eqb, Z.eqb_eq by lia. split.
      * intros [[?| ->]|(j & Hj & Hn & Ej)]; [by left|right; exists i|right; exists j];
          (split_and!; [apply elem_of_cons; auto|done|done]).
      * intros [?|(j & Hj & Hn & Ej)]; [by left; left|].
        apply elem_of_cons in Hj as [->|Hj]; [left; right; congruence|right; by exists j].
Qed.

(** The mask holds exactly the identifiers of the other cores. *)
Theorem remote_harts_mask coreMap current m : Forall (fun id => 0 <= id < 64) coreMap ->
  get_sbi_mask_for_all_remote_harts coreMap current = Ok m ->
  forall k, 0 <= k -> Z.testbit m k = true <->
    exists i, 0 <= i < CONFIG_MAX_NUM_NODES /\ i <> current /\ cpu_index_to_id coreMap i = Ok k.
Proof.
  intros Hids E k Hk. rewrite (mask_loop_spec _ _ _ _ _ Hids E k Hk), Z.bits_0. split.
  - intros [?|(i & Hi & H)]; [done|]. exists i. apply elem_of_seqZ in Hi. split; [lia|done].
  - intros (i & Hi & H). right. exists i. split; [apply elem_of_seqZ; lia|done].
Qed.
End cores.

(** ** A machine

    whose serial port is busy for two polls. *)
Section witness.
Definition polls (h : dev_t) : nat := length (omap (fun e => match e with Rd r _ => Some r | _ => None end) h).
Definition w_machine : Machine := {|
  reg_value h _ := if decide (polls h < 2)%nat then wshl 1 5 else 0;
  call_value _ := 0;
  timer_value _ := 0 |}.
Definition w_uart : Pl011Uart := {| base := AARCH64_SERIAL |}.

Lemma w_drains : drains (M := w_machine) w_uart 3.
Proof.
  exists (fun h => 2 - polls h)%nat. intros h. split; [lia|]. unfold full. cbn [reg_value w_machine]. case_decide; [|done].
  intros _. unfold polls in *. rewrite omap_app, length_app. cbn. lia.
Qed.
Lemma print_sends_witness :
  wp (print (Hd := pl011_driver (M := w_machine) 3) AARCH64_SERIAL [chars "ok"; [0x20ac]])
    (fun _ h => data_writes w_uart h = [111; 107; 0xac]) [].
Proof.
  eapply wp_mono; [exact (@print_sends _ (pl011_driver 3) AARCH64_SERIAL (@pl011_laws w_machine w_uart 3 w_drains) [chars "ok"; [0x20ac]] [])|].
  intros [] h' E. exact E.
Defined.
End witness.
