(* ===== verification/Smp.v ===== *)
(** * The scheduler of the build with several cores

    [sel4_task/src/scheduler.rs] and [tcb.rs] under the feature [ENABLE_SMP]: every
    core has its own queues, bitmap, current thread and action ([SmpStateData]), a
    thread belongs to the core of its affinity, and a core that makes a thread of
    another core ready asks that core to reschedule.  The operations run on one
    core, [cpu].  Where the two builds share a body up to the place its globals are
    kept, it is the definition of [Sched.v] run at a core ([at_node]). *)

From stdpp Require Import base numbers gmap list.
From S2P Require Import Prelude Bitfield Common DList Sched.
Local Open Scope Z_scope.
Local Open Scope krn_scope.

(* src: sel4_common/src/sel4_config.rs 95-95 CONFIG_MAX_NUM_NODES *)
Definition CONFIG_MAX_NUM_NODES : Z := 4.

(** ** State *)
(* src: sel4_task/src/scheduler.rs 35-53 SmpStateData *)
Record SmpStateData := Node {
  ipiReschedulePending : Z;
  n_ksReadyQueues : list tcb_queue_t;
  n_ksReadyQueuesL1Bitmap : list Z;
  n_ksReadyQueuesL2Bitmap : list (list Z);
  n_ksCurThread : Z;
  n_ksIdleThread : Z;
  n_ksSchedulerAction : Z;
  ksDebugTCBs : Z;
}.
(** The initial value of a node. *)
(* src: sel4_task/src/scheduler.rs 55-66 ksSMP *)
Definition node_init : SmpStateData :=
  Node 0 (replicate (Z.to_nat NUM_READY_QUEUES) (Queue 0 0)) [0] [replicate (Z.to_nat L2_BITMAP_SIZE) 0] 0 0 1 0.

(** The threads, their field [tcbAffinity] (a map of its own), the nodes, and the
    globals that the cores share. *)
Record smp_t := Smp {
  sm_tcbs : gmap Z tcb_t;
  tcbAffinity : gmap Z Z;
  ksSMP : list SmpStateData;
  sm_ksDomainTime : Z;
  sm_ksCurDomain : Z;
  sm_ksDomScheduleIdx : Z;
  sm_ksWorkUnitsCompleted : Z;
}.

(** What an operation of the build with one core sees when its globals are those
    of node [nd], and what it leaves there. *)
Definition view (nd : SmpStateData) (s : smp_t) : sst :=
  Sst (sm_tcbs s) (Sched (sm_ksDomainTime s) (sm_ksCurDomain s) (sm_ksDomScheduleIdx s) (n_ksCurThread nd)
    (n_ksIdleThread nd) (n_ksSchedulerAction nd) (n_ksReadyQueues nd) (n_ksReadyQueuesL2Bitmap nd)
    (n_ksReadyQueuesL1Bitmap nd) (sm_ksWorkUnitsCompleted s)).
Definition node_of (nd : SmpStateData) (x : sst) : SmpStateData :=
  let g := gl x in
  Node (ipiReschedulePending nd) (ksReadyQueues g) (ksReadyQueuesL1Bitmap g) (ksReadyQueuesL2Bitmap g)
    (ksCurThread g) (ksIdleThread g) (ksSchedulerAction g) (ksDebugTCBs nd).
Definition put (i : nat) (nd : SmpStateData) (x : sst) (s : smp_t) : smp_t :=
  let g := gl x in
  Smp (tcbs x) (tcbAffinity s) (<[i := node_of nd x]> (ksSMP s)) (ksDomainTime g) (ksCurDomain g)
    (ksDomScheduleIdx g) (ksWorkUnitsCompleted g).
(** [m] with [ksSMP[n]] for the globals; the index is checked. *)
Definition at_node {A} (n : Z) (m : ST sst A) : ST smp_t A := fun s =>
  match idx (ksSMP s) n with
  | Ok nd => match m (view nd s) with
             | Ok (a, x) => Ok (a, put (Z.to_nat n) nd x s)
             | Panic => Panic | UB => UB | NoFuel => NoFuel
             end
  | _ => Panic
  end.

Definition set_sm_tcbs (h : gmap Z tcb_t) (s : smp_t) : smp_t :=
  Smp h (tcbAffinity s) (ksSMP s) (sm_ksDomainTime s) (sm_ksCurDomain s) (sm_ksDomScheduleIdx s) (sm_ksWorkUnitsCompleted s).
Definition set_tcbAffinity (a : gmap Z Z) (s : smp_t) : smp_t :=
  Smp (sm_tcbs s) a (ksSMP s) (sm_ksDomainTime s) (sm_ksCurDomain s) (sm_ksDomScheduleIdx s) (sm_ksWorkUnitsCompleted s).
Definition set_ksSMP (l : list SmpStateData) (s : smp_t) : smp_t :=
  Smp (sm_tcbs s) (tcbAffinity s) l (sm_ksDomainTime s) (sm_ksCurDomain s) (sm_ksDomScheduleIdx s) (sm_ksWorkUnitsCompleted s).
Definition on_threads {A} (m : ST (gmap Z tcb_t) A) : ST smp_t A := fun s =>
  match m (sm_tcbs s) with
  | Ok (a, h) => Ok (a, set_sm_tcbs h s) | Panic => Panic | UB => UB | NoFuel => NoFuel
  end.
Definition affinity (p : Z) : ST smp_t Z := a ← gets (fun s => tcbAffinity s !! p); lift (or_ub a).
Definition node (n : Z) : ST smp_t SmpStateData := s ← gets id; lift (idx (ksSMP s) n).
Definition node_mod (n : Z) (f : SmpStateData -> SmpStateData) : ST smp_t unit :=
  s ← gets id; nd ← lift (idx (ksSMP s) n); l ← lift (upd (ksSMP s) n (f nd)); modify (set_ksSMP l).
Definition set_ipi (v : Z) (nd : SmpStateData) : SmpStateData :=
  Node v (n_ksReadyQueues nd) (n_ksReadyQueuesL1Bitmap nd) (n_ksReadyQueuesL2Bitmap nd) (n_ksCurThread nd)
    (n_ksIdleThread nd) (n_ksSchedulerAction nd) (ksDebugTCBs nd).

Module Smp.
Section core.
Variable cpu : Z.

(** ** The globals of the core *)
(* src: sel4_task/src/scheduler.rs 126-137 get_idle_thread *)
Definition get_idle_thread : ST smp_t Z := at_node cpu Sched.get_idle_thread.
(* src: sel4_task/src/scheduler.rs 141-152 get_ks_scheduler_action *)
Definition get_ks_scheduler_action : ST smp_t Z := at_node cpu Sched.get_ks_scheduler_action.
(* src: sel4_task/src/scheduler.rs 156-170 set_ks_scheduler_action *)
Definition set_ks_scheduler_action (action : Z) : ST smp_t unit := at_node cpu (Sched.set_ks_scheduler_action action).
(* src: sel4_task/src/scheduler.rs 175-186 get_currenct_thread *)
Definition get_currenct_thread : ST smp_t Z := at_node cpu Sched.get_currenct_thread.
(* src: sel4_task/src/scheduler.rs 190-201 get_currenct_thread_unsafe *)
Definition get_currenct_thread_unsafe : ST smp_t Z := at_node cpu Sched.get_currenct_thread_unsafe.
(* src: sel4_task/src/scheduler.rs 205-216 set_current_scheduler_action *)
Definition set_current_scheduler_action (action : Z) : ST smp_t unit :=
  at_node cpu (Sched.set_current_scheduler_action action).
(* src: sel4_task/src/scheduler.rs 220-231 set_current_thread *)
Definition set_current_thread (thread : Z) : ST smp_t unit := at_node cpu (Sched.set_current_thread thread).
(* src: sel4_task/src/scheduler.rs 277-291 getHighestPrio *)
Definition getHighestPrio (dom : Z) : ST smp_t Z := at_node cpu (Sched.getHighestPrio dom).
(* src: sel4_task/src/scheduler.rs 295-304 isHighestPrio *)
Definition isHighestPrio (dom prio : Z) : ST smp_t bool := at_node cpu (Sched.isHighestPrio dom prio).
(* src: sel4_task/src/tcb.rs 126-128 tcb_t::is_current *)
Definition is_current (self : Z) : ST smp_t bool := p ← get_currenct_thread; mret (self =w p).
End core.

(** ** The queues of a thread's core *)
(* src: sel4_task/src/scheduler.rs 308-324 addToBitmap *)
Definition addToBitmap (cpu dom prio : Z) : ST smp_t unit := at_node cpu (Sched.addToBitmap cpu dom prio).
(* src: sel4_task/src/scheduler.rs 328-348 removeFromBitmap *)
Definition removeFromBitmap (cpu dom prio : Z) : ST smp_t unit := at_node cpu (Sched.removeFromBitmap cpu dom prio).
(* src: sel4_task/src/tcb.rs 203-209 tcb_t::get_sched_queue *)
Definition get_sched_queue (self i : Z) : ST smp_t tcb_queue_t :=
  a ← affinity self; at_node a (Sched.get_sched_queue i).
(* src: sel4_task/src/tcb.rs 203-209 tcb_t::get_sched_queue *)
Definition mod_sched_queue (self i : Z) (f : tcb_queue_t -> tcb_queue_t) : ST smp_t unit :=
  a ← affinity self; at_node a (Sched.mod_sched_queue i f).
(* src: sel4_task/src/tcb.rs 220-224 tcb_t::get_cpu *)
Definition get_cpu (self : Z) : ST smp_t Z := affinity self.

Definition tcb_get (p : Z) : ST smp_t tcb_t := on_threads (load p).
Definition tcb_mod (p : Z) (f : tcb_t -> tcb_t) : ST smp_t unit := on_threads (store_with p f).
Definition tcb_mod_ref (p : Z) (f : tcb_t -> tcb_t) : ST smp_t unit := on_threads (store_ref p f).

Section threads.
Variable cpu : Z.

(* src: sel4_task/src/tcb.rs 288-304 tcb_t::update_queue *)
Definition update_queue (self : Z) : ST smp_t unit :=
  a ← affinity self;
  t ← tcb_get self;
  d ← gets sm_ksCurDomain;
  if (a <>w cpu) && (domain t =w d) then
    nd ← node a;
    assert_m (n_ksCurThread nd <>w 0) ;;
    wake ← (if n_ksIdleThread nd =w n_ksCurThread nd then mret true
            else target_current ← tcb_get (n_ksCurThread nd);
                 mret (bool_decide (tcbPriority t > tcbPriority target_current)));
    when wake (node_mod cpu (fun me => set_ipi (ipiReschedulePending me ||| BIT a) me))
  else skip.

(* src: sel4_task/src/tcb.rs 177-199 tcb_t::sched_enqueue *)
Definition sched_enqueue (self : Z) : ST smp_t unit :=
  t ← tcb_get self;
  (if ts_get tcb_queued t =w 0 then
     let dom := domain t in
     let prio := tcbPriority t in
     let i := ready_queues_index dom prio in
     queue ← get_sched_queue self i;
     (if tail queue =w 0 then
        mod_sched_queue self i (set_head self) ;;
        c ← get_cpu self; addToBitmap c dom prio
      else tcb_mod_ref (tail queue) (set_tcbSchedNext self)) ;;
     tcb_mod self (set_tcbSchedPrev (tail queue)) ;;
     tcb_mod self (set_tcbSchedNext 0) ;;
     mod_sched_queue self i (set_tail self) ;;
     tcb_mod self (ts_set tcb_queued 1)
   else skip) ;;
  update_queue self.

(* src: sel4_task/src/tcb.rs 258-286 tcb_t::sched_append *)
Definition sched_append (self : Z) : ST smp_t unit :=
  t ← tcb_get self;
  (if ts_get tcb_queued t =w 0 then
     let dom := domain t in
     let prio := tcbPriority t in
     let i := ready_queues_index dom prio in
     queue ← get_sched_queue self i;
     (if head queue =w 0 then
        mod_sched_queue self i (set_head self) ;;
        c ← get_cpu self; addToBitmap c dom prio
      else
        let next := tail queue in
        tcb_mod_ref next (set_tcbSchedNext self)) ;;
     tcb_mod self (set_tcbSchedPrev (tail queue)) ;;
     tcb_mod self (set_tcbSchedNext 0) ;;
     mod_sched_queue self i (set_tail self) ;;
     tcb_mod self (ts_set tcb_queued 1)
   else skip) ;;
  update_queue self.

(* src: sel4_task/src/tcb.rs 231-256 tcb_t::sched_dequeue *)
Definition sched_dequeue (self : Z) : ST smp_t unit :=
  t ← tcb_get self;
  if ts_get tcb_queued t <>w 0 then
    let dom := domain t in
    let prio := tcbPriority t in
    let i := ready_queues_index dom prio in
    _ ← get_sched_queue self i;
    (if tcbSchedPrev t <>w 0 then
       tcb_mod_ref (tcbSchedPrev t) (set_tcbSchedNext (tcbSchedNext t))
     else
       mod_sched_queue self i (set_head (tcbSchedNext t)) ;;
       when (tcbSchedNext t =w 0) (c ← get_cpu self; removeFromBitmap c dom prio)) ;;
    (if tcbSchedNext t <>w 0 then
       tcb_mod_ref (tcbSchedNext t) (set_tcbSchedPrev (tcbSchedPrev t))
     else mod_sched_queue self i (set_tail (tcbSchedPrev t))) ;;
    tcb_mod self (ts_set tcb_queued 0)
  else skip.

(* src: sel4_task/src/scheduler.rs 419-429 rescheduleRequired *)
Definition rescheduleRequired : ST smp_t unit :=
  a ← get_ks_scheduler_action cpu;
  when ((a <>w SchedulerAction_ResumeCurrentThread) && (a <>w SchedulerAction_ChooseNewThread))
    (assert_m (a <>w 0) ;; sched_enqueue a) ;;
  set_ks_scheduler_action cpu SchedulerAction_ChooseNewThread.

(* src: sel4_task/src/scheduler.rs 473-482 schedule_tcb *)
Definition schedule_tcb (tcb_ref : Z) : ST smp_t unit :=
  cur ← get_currenct_thread_unsafe cpu;
  a ← get_ks_scheduler_action cpu;
  if (tcb_ref =w cur) && (a =w SchedulerAction_ResumeCurrentThread) then
    t ← tcb_get tcb_ref;
    r ← lift (is_runnable t);
    when (negb r) rescheduleRequired
  else skip.

(* src: sel4_task/src/scheduler.rs 484-496 possible_switch_to *)
Definition possible_switch_to (target : Z) : ST smp_t unit :=
  d ← gets sm_ksCurDomain;
  t ← tcb_get target;
  a ← affinity target;
  if (d <>w domain t) || (a <>w cpu) then sched_enqueue target
  else
    act ← get_ks_scheduler_action cpu;
    if act <>w SchedulerAction_ResumeCurrentThread then
      rescheduleRequired ;; sched_enqueue target
    else set_ks_scheduler_action cpu target.

(* src: sel4_task/src/tcb.rs 791-799 set_thread_state *)
Definition set_thread_state (tcb : Z) (state : ThreadState) : ST smp_t unit :=
  tcb_mod tcb (ts_set ts_type (ThreadState_to_usize state)) ;; schedule_tcb tcb.

(* src: sel4_task/src/scheduler.rs 512-536 timerTick *)
Definition timerTick : ST smp_t unit :=
  current ← get_currenct_thread cpu;
  t ← tcb_get current;
  st ← lift (get_state t);
  when (bool_decide (st = ThreadStateRunning))
    (if decide (tcbTimeSlice t > 1) then
       tcb_mod current (fun t => set_tcbTimeSlice (wsub (tcbTimeSlice t) 1) t)
     else
       tcb_mod current (set_tcbTimeSlice CONFIG_TIME_SLICE) ;;
       sched_append current ;;
       rescheduleRequired).

(** The end of [schedule]: the cores that were asked are told, by the external
    [doMaskReschedule]. *)
(* src: sel4_task/src/scheduler.rs 466-470 schedule *)
Definition schedule_end (doMaskReschedule : Z -> ST smp_t unit) : ST smp_t unit :=
  nd ← node cpu;
  doMaskReschedule (ipiReschedulePending nd) ;;
  node_mod cpu (set_ipi 0).

(** ** Moving a thread to another core

    [migrateTCB] is the external function that gives the thread its new core.
    The requested core is the argument of the message. *)
(* src: kernel/src/syscall/invocation/invoke_tcb.rs 248-264 invoke_tcb_set_affinity *)
Definition invoke_tcb_set_affinity (migrateTCB : Z -> Z -> ST smp_t unit) (thread affinitiy : Z) : ST smp_t exception_t :=
  sched_dequeue thread ;;
  migrateTCB thread affinitiy ;;
  t ← tcb_get thread;
  r ← lift (is_runnable t);
  when r (sched_append thread) ;;
  c ← is_current cpu thread;
  when c rescheduleRequired ;;
  mret EXCEPTION_NONE.

(** The error is the type put in [current_syscall_error]. *)
(* src: kernel/src/syscall/invocation/decode/decode_tcb_invocation.rs 620-643 decode_set_affinity *)
Definition decode_set_affinity (migrateTCB : Z -> Z -> ST smp_t unit) (tcb_ptr length arg0 : Z)
    : ST smp_t (exception_t * Z) :=
  if bool_decide (length < 1) then mret (EXCEPTION_SYSCALL_ERROR, seL4_TruncatedMessage)
  else
    let affinity := arg0 in
    if bool_decide (affinity > CONFIG_MAX_NUM_NODES) then mret (EXCEPTION_SYSCALL_ERROR, seL4_IllegalOperation)
    else
      cur ← get_currenct_thread cpu;
      set_thread_state cur ThreadStateRestart ;;
      assert_m (tcb_ptr <>w 0) ;;
      e ← invoke_tcb_set_affinity migrateTCB tcb_ptr affinity;
      mret (e, 0).
End threads.
End Smp.
