(* ===== verification/SmpProps.v ===== *)
(** * The scheduler of the build with several cores: theorems

    The operations on the queues are those of the build with one core, run at the
    core of the thread, and touch no other core.  Moving a thread checks the number of
    the core one too far. *)

From stdpp Require Import base numbers gmap list.
From S2P Require Import Prelude Bitfield Common DList Sched Keep Smp.
Local Open Scope Z_scope.
Local Open Scope krn_scope.

(** ** Running at a core *)
Section at_node.
Implicit Types (s : smp_t) (x : sst) (nd : SmpStateData) (n a : Z).

Lemma idx_Ok_iff {A} (l : list A) (i : Z) (v : A) : idx l i = Ok v <-> 0 <= i /\ l !! Z.to_nat i = Some v.
Proof.
  unfold idx, or_panic. case_decide; [|split; [done|lia]]. destruct (l !! Z.to_nat i); split.
  - by intros [= ->].
  - by intros [_ [= ->]].
  - done.
  - by intros [_ ?].
Qed.

Lemma view_put i nd x s : view (node_of nd x) (put i nd x s) = x.
Proof. by destruct x as [h []]. Qed.
Lemma put_put i nd x x' s : put i (node_of nd x) x' (put i nd x s) = put i nd x' s.
Proof. unfold put. cbn. f_equal. apply list_insert_insert_eq. Qed.
Lemma put_node s i nd x : ksSMP s !! i = Some nd -> ksSMP (put i nd x s) !! i = Some (node_of nd x).
Proof. intros H. apply list_lookup_insert_eq. by eapply lookup_lt_Some. Qed.
Lemma put_view s i nd : ksSMP s !! i = Some nd -> put i nd (view nd s) s = s.
Proof. intros H. unfold put. destruct s. cbn. f_equal. destruct nd. apply list_insert_id, H. Qed.

(** The core [a] exists and is that of the thread [self]. *)
Definition on_core (self a : Z) (s : smp_t) : Prop :=
  tcbAffinity s !! self = Some a /\ exists nd, idx (ksSMP s) a = Ok nd.

Lemma at_node_core {A} self a (m : ST sst A) : kp (on_core self a) (at_node a m).
Proof.
  intros s r s' [Ha [nd Hn]] E. unfold at_node in E. rewrite Hn in E. destruct (m (view nd s)) as [[v x]| | |]; try done.
  injection E as <- <-. split; [done|]. apply idx_Ok_iff in Hn as [? Hn]. exists (node_of nd x). apply idx_Ok_iff.
  split; [done|by apply put_node].
Qed.

(** [m] does at the core of [self] what [m'] does where there is one core. *)
Definition runs_at {A} (self a : Z) (m : ST smp_t A) (m' : ST sst A) : Prop :=
  forall s, on_core self a s -> m s = at_node a m' s.

Section rules.
Context (self a : Z).
#[local] Abbreviation runs_at := (runs_at self a).

Lemma at_bind {A B} (m : ST smp_t A) (f : A -> ST smp_t B) m' f' :
  runs_at m m' -> (forall v, runs_at (f v) (f' v)) -> runs_at (m ≫= f) (m' ≫= f').
Proof.
  intros Hm Hf s Hs. unfold mbind, st_bind. rewrite (Hm s Hs). pose proof (at_node_core self a m' s) as Hk.
  destruct Hs as [Ha [nd Hn]]. pose proof Hn as [Hi Hl]%idx_Ok_iff. unfold at_node in *. rewrite Hn in *.
  destruct (m' (view nd s)) as [[v x]| | |] eqn:E; try done.
  rewrite Hf by (eapply Hk; [split; [done|by exists nd]|done]). unfold at_node.
  assert (idx (ksSMP (put (Z.to_nat a) nd x s)) a = Ok (node_of nd x)) as -> by (apply idx_Ok_iff; split; [done|by apply put_node]).
  rewrite view_put. destruct (f' v x) as [[w y]| | |]; try done. by rewrite put_put.
Qed.
Lemma at_ret {A} (v : A) : runs_at (mret v) (mret v).
Proof. intros s [_ [nd Hn]]. unfold at_node. rewrite Hn. cbn. by rewrite put_view by (apply idx_Ok_iff in Hn; apply Hn). Qed.
Lemma at_skip : runs_at skip skip.
Proof. apply at_ret. Qed.
Lemma at_if {A} (b : bool) (m1 m2 : ST smp_t A) m1' m2' :
  runs_at m1 m1' -> runs_at m2 m2' -> runs_at (if b then m1 else m2) (if b then m1' else m2').
Proof. by destruct b. Qed.
Lemma at_when (b : bool) (m : ST smp_t unit) m' : runs_at m m' -> runs_at (when b m) (when b m').
Proof. intros H. apply at_if; [done|apply at_skip]. Qed.
Lemma at_threads {A} (m : ST (gmap Z tcb_t) A) : runs_at (on_threads m) (on_tcbs m).
Proof.
  intros s [_ [nd Hn]]. pose proof Hn as [_ Hl]%idx_Ok_iff. unfold at_node, on_threads, on_tcbs. rewrite Hn. cbn [tcbs view].
  destruct (m (sm_tcbs s)) as [[v h]| | |]; try done. do 2 f_equal. unfold put, set_sm_tcbs. cbn. f_equal.
  destruct nd. symmetry. apply list_insert_id, Hl.
Qed.
Lemma at_affinity {A} (f : Z -> ST smp_t A) m' : runs_at (f a) m' -> runs_at (affinity self ≫= f) m'.
Proof.
  intros H s Hs. rewrite <- (H s Hs). destruct Hs as [Ha _]. unfold affinity, mbind, st_bind, gets, lift. by rewrite Ha.
Qed.
Lemma at_self {A} (m : ST sst A) : runs_at (at_node a m) m.
Proof. done. Qed.
Lemma at_tcb_get p : runs_at (Smp.tcb_get p) (Sched.tcb_get p).
Proof. apply at_threads. Qed.
Lemma at_tcb_mod p f : runs_at (Smp.tcb_mod p f) (Sched.tcb_mod p f).
Proof. apply at_threads. Qed.
Lemma at_tcb_mod_ref p f : runs_at (Smp.tcb_mod_ref p f) (Sched.tcb_mod_ref p f).
Proof. apply at_threads. Qed.
Lemma at_get_queue i : runs_at (Smp.get_sched_queue self i) (Sched.get_sched_queue i).
Proof. apply at_affinity, at_self. Qed.
Lemma at_mod_queue i f : runs_at (Smp.mod_sched_queue self i f) (Sched.mod_sched_queue i f).
Proof. apply at_affinity, at_self. Qed.
Lemma at_add d p : runs_at (c ← Smp.get_cpu self; Smp.addToBitmap c d p) (Sched.addToBitmap (Sched.get_cpu self) d p).
Proof. apply at_affinity, at_self. Qed.
Lemma at_remove d p :
  runs_at (c ← Smp.get_cpu self; Smp.removeFromBitmap c d p) (Sched.removeFromBitmap (Sched.get_cpu self) d p).
Proof. apply at_affinity, at_self. Qed.
End rules.
End at_node.

Create HintDb at_node.
#[export] Hint Resolve at_ret at_skip at_tcb_get at_tcb_mod at_tcb_mod_ref at_get_queue at_mod_queue at_add at_remove : at_node.
Ltac at_node := repeat first
  [ solve [auto with at_node] | apply at_bind; [|intros ?] | apply at_when | apply at_if ].

(** A computation followed by another, read either way. *)
Lemma then_at self a {A} (m : ST smp_t A) (body : A -> ST smp_t unit) m' (k : ST smp_t unit) s :
  runs_at self a (m ≫= body) m' -> on_core self a s -> (m ≫= fun x => body x ;; k) s = (at_node a m' ;; k) s.
Proof.
  intros H Hs. unfold mbind, st_bind. rewrite <- (H s Hs). unfold mbind, st_bind. by destruct (m s) as [[x s']| | |].
Qed.

Section queues.
Context (cpu self a : Z).
Implicit Types (s : smp_t).

(** On the core a thread belongs to, queuing it does what the build with one core
    does; then that core is told, if it is another. *)
Theorem sched_enqueue_at s : on_core self a s ->
  Smp.sched_enqueue cpu self s = (at_node a (Sched.sched_enqueue self) ;; Smp.update_queue cpu self) s.
Proof. apply then_at. unfold Sched.sched_enqueue. at_node. Qed.
Theorem sched_append_at s : on_core self a s ->
  Smp.sched_append cpu self s = (at_node a (Sched.sched_append self) ;; Smp.update_queue cpu self) s.
Proof. apply then_at. unfold Sched.sched_append. at_node. Qed.
Theorem sched_dequeue_at s : on_core self a s ->
  Smp.sched_dequeue self s = at_node a (Sched.sched_dequeue self) s.
Proof. revert s. change (runs_at self a (Smp.sched_dequeue self) (Sched.sched_dequeue self)). unfold Smp.sched_dequeue, Sched.sched_dequeue. at_node. Qed.
End queues.

(** ** Moving a thread

    What the operations on the queues keep of a thread: its state; and the number of cores. *)
Section affinity.
Context (self : Z) (st : ThreadState).

(** [migrateTCB] sets the field [tcbAffinity]. *)
Definition migrates (migrateTCB : Z -> Z -> ST smp_t unit) : Prop := forall p n s r s',
  migrateTCB p n s = Ok (r, s') -> s' = set_tcbAffinity (<[p := n]> (tcbAffinity s)) s.

Definition in_state (t : tcb_t) : Prop := length (tcbState t) = 3%nat /\ get_state t = Ok st.
Definition thread_is (P : tcb_t -> Prop) (s : smp_t) : Prop :=
  length (ksSMP s) = Z.to_nat CONFIG_MAX_NUM_NODES /\ exists t, sm_tcbs s !! self = Some t /\ P t.

Lemma kp_threads (P : tcb_t -> Prop) {A} (m : ST (gmap Z tcb_t) A) :
  kp (fun h => exists t, h !! self = Some t /\ P t) m -> kp (thread_is P) (on_threads m).
Proof.
  intros Hm s r s' [Hl Ht] E. unfold on_threads in E. destruct (m (sm_tcbs s)) as [[v h]| | |] eqn:Em; try done.
  injection E as <- <-. split; [done|]. by eapply Hm.
Qed.
Lemma kp_store (P : tcb_t -> Prop) p f : (forall t, P t -> P (f t)) ->
  kp (fun h => exists t, h !! self = Some t /\ P t) (store_with p f).
Proof.
  intros Hf h r h' (t & Ht & HP) E. unfold store_with in E. destruct (h !! p) as [x|] eqn:Hx; [|done].
  injection E as _ <-. destruct (decide (p = self)) as [->|Hne].
  - exists (f t). rewrite lookup_insert_eq. split; [congruence|by apply Hf].
  - exists t. by rewrite lookup_insert_ne.
Qed.
Lemma kp_tcb_get P p : kp (thread_is P) (Smp.tcb_get p).
Proof. apply kp_threads. intros h r h' Hh E. unfold load in E. destruct (h !! p); [|done]. by injection E as _ <-. Qed.
Lemma kp_tcb_mod (P : tcb_t -> Prop) p f : (forall t, P t -> P (f t)) -> kp (thread_is P) (Smp.tcb_mod p f).
Proof. intros Hf. by apply kp_threads, kp_store. Qed.
Lemma kp_tcb_mod_ref (P : tcb_t -> Prop) p f : (forall t, P t -> P (f t)) -> kp (thread_is P) (Smp.tcb_mod_ref p f).
Proof. intros Hf. apply kp_threads, kp_bind; [apply kp_assert|]. intros _. by apply kp_store. Qed.
Lemma kp_affinity P p : kp (thread_is P) (affinity p).
Proof. unfold affinity. kp. Qed.
(** At a core, what touches no thread. *)
Lemma kp_at_node P {A} n (m : ST sst A) : (forall h, kp (fun x => tcbs x = h) m) -> kp (thread_is P) (at_node n m).
Proof.
  intros Hm s r s' [Hl Ht] E. unfold at_node in E. destruct (idx (ksSMP s) n) as [nd| | |]; try done.
  destruct (m (view nd s)) as [[v x]| | |] eqn:Em; try done. injection E as <- <-. split.
  - cbn. by rewrite length_insert.
  - cbn. assert (tcbs x = sm_tcbs s) as -> by (by eapply (Hm (sm_tcbs s)); [|exact Em]). done.
Qed.
Lemma kp_gl_get h {A} (f : sched_t -> A) : kp (fun x => tcbs x = h) (gl_get f).
Proof. apply kp_gets. Qed.
Lemma kp_gl_mod h f : kp (fun x => tcbs x = h) (gl_mod f).
Proof. by apply kp_modify. Qed.
#[local] Hint Resolve kp_tcb_get kp_affinity kp_gl_get kp_gl_mod : keep.

Lemma kp_get_queue P i : kp (thread_is P) (Smp.get_sched_queue self i).
Proof. unfold Smp.get_sched_queue. kp_step; [auto with keep|]. apply kp_at_node. intros h. unfold get_sched_queue. kp. Qed.
Lemma kp_mod_queue P i f : kp (thread_is P) (Smp.mod_sched_queue self i f).
Proof. unfold Smp.mod_sched_queue. kp_step; [auto with keep|]. apply kp_at_node. intros h. unfold mod_sched_queue. kp. Qed.
Lemma kp_remove P c d p : kp (thread_is P) (Smp.removeFromBitmap c d p).
Proof. apply kp_at_node. intros h. unfold removeFromBitmap, upd_l1, upd_l2, get_l2. kp. Qed.
#[local] Hint Resolve kp_get_queue kp_mod_queue kp_remove : keep.

Lemma links_keep_state v t : in_state t -> in_state (set_tcbSchedNext v t) /\ in_state (set_tcbSchedPrev v t).
Proof. done. Qed.
Lemma dequeued_state t : in_state t -> in_state (ts_set tcb_queued 0 t) /\ ts_get tcb_queued (ts_set tcb_queued 0 t) = 0.
Proof.
  intros [Hl Hs]. unfold in_state, ts_get, ts_set, get_state in *. cbn [tcbState set_tcbState].
  rewrite bf_set_length, (bf_get_set_same 3) by done. split; [split; [done|]|done].
  rewrite <- Hs. f_equal. unfold ts_get. cbn [tcbState set_tcbState]. by rewrite (bf_get_set_other 3 3) by done.
Qed.

Definition free_state (t : tcb_t) : Prop := in_state t /\ ts_get tcb_queued t = 0.

(** After the removal the thread is in no queue, and its state is what it was. *)
Lemma dequeue_frees : kpto (thread_is in_state) (thread_is free_state) (Smp.sched_dequeue self).
Proof.
  unfold Smp.sched_dequeue. intros s r s' Hs E. apply st_bind_inv in E as (t & s1 & E1 & E).
  assert (sm_tcbs s !! self = Some t /\ s1 = s) as [Ht ->].
  { unfold Smp.tcb_get, on_threads, load in E1. destruct (sm_tcbs s !! self); [|done]. injection E1 as -> <-. by destruct s. }
  case_bool_decide as Hq; cbn [negb] in E.
  - injection E as _ <-. destruct Hs as [Hl (t' & Ht' & Hst)]. split; [done|]. exists t'. split; [done|split; [done|congruence]].
  - revert E. apply (kpto_bind (thread_is in_state) (thread_is free_state)); [apply kp_get_queue| |done].
    intros _. apply kpto_bind; [kp; apply kp_tcb_mod_ref; by apply links_keep_state|]. intros _.
    apply kpto_bind; [kp; apply kp_tcb_mod_ref; by apply links_keep_state|]. intros _.
    intros s0 r0 s0' (Hl & t0 & Ht0 & Hst0) E0. unfold Smp.tcb_mod, on_threads, store_with in E0. rewrite Ht0 in E0.
    injection E0 as _ <-. split; [done|]. eexists. split; [apply lookup_insert_eq|]. by apply dequeued_state.
Qed.
End affinity.

(** Giving a thread the core after the last one, which the check lets through, does
    not return when the thread can run: its queue is looked up in a node that is not there. *)
Theorem set_affinity_past_the_end cpu migrateTCB self s t r :
  migrates migrateTCB -> length (ksSMP s) = Z.to_nat CONFIG_MAX_NUM_NODES ->
  sm_tcbs s !! self = Some t -> length (tcbState t) = 3%nat -> is_runnable t = Ok true ->
  Smp.invoke_tcb_set_affinity cpu migrateTCB self CONFIG_MAX_NUM_NODES s <> Ok r.
Proof.
  intros Hm Hl Ht Hlen Hr E. unfold Smp.invoke_tcb_set_affinity in E. destruct r as [e s'].
  assert (exists st, get_state t = Ok st) as [st Hst] by (unfold is_runnable in Hr; destruct (get_state t) as [st| | |]; eauto; done).
  apply st_bind_inv in E as ([] & s1 & E1 & E). apply st_bind_inv in E as ([] & s2 & E2 & E).
  assert (thread_is self (free_state st) s1) as (Hl1 & t1 & Ht1 & [_ Hst1] & Hq1).
  { eapply (dequeue_frees self st); [|exact E1]. split; [done|]. exists t. done. }
  apply Hm in E2 as ->. apply st_bind_inv in E as (t2 & s3 & E3 & E).
  assert (t2 = t1 /\ s3 = set_tcbAffinity (<[self := CONFIG_MAX_NUM_NODES]> (tcbAffinity s1)) s1) as [-> ->].
  { unfold Smp.tcb_get, on_threads, load in E3. cbn in E3. rewrite Ht1 in E3. by injection E3 as <- <-. }
  apply st_bind_inv in E as (r2 & s4 & [E4 ->]%lift_inv & E).
  assert (r2 = true) as -> by (unfold is_runnable in *; rewrite Hst1 in E4; rewrite Hst in Hr; congruence).
  apply st_bind_inv in E as ([] & s5 & E5 & _). cbn [when] in E5. unfold Smp.sched_append in E5.
  apply st_bind_inv in E5 as (t3 & s6 & E6 & E5).
  unfold Smp.tcb_get, on_threads, load in E6. cbn in E6. rewrite Ht1 in E6. injection E6 as <- <-.
  rewrite Hq1 in E5. cbn [bool_decide] in E5. apply st_bind_inv in E5 as ([] & s7 & E7 & _).
  rewrite bool_decide_true in E7 by done. apply st_bind_inv in E7 as (q & s8 & E8 & _).
  unfold Smp.get_sched_queue, affinity in E8. unfold mbind, st_bind, gets, lift in E8. cbn in E8.
  rewrite lookup_insert_eq in E8. cbn in E8. unfold at_node, idx, or_panic in E8. cbn in E8.
  rewrite (lookup_ge_None_2 (ksSMP s1)) in E8 by (rewrite Hl1; done). by rewrite decide_True in E8 by done.
Qed.

(** From the system call, on a machine with its four cores their idle threads and one more,
    which runs. *)
Section witness.
Definition w_migrate (p n : Z) : ST smp_t unit := modify (fun s => set_tcbAffinity (<[p := n]> (tcbAffinity s)) s).
Definition w_thread : tcb_t := ts_set ts_type 1 tcb_zero.
Definition w_node (cur idle : Z) : SmpStateData :=
  Node 0 (n_ksReadyQueues node_init) [0] (n_ksReadyQueuesL2Bitmap node_init) cur idle 0 0.
Definition w_idle : tcb_t := ts_set ts_type 7 tcb_zero.
Definition w_smp : smp_t :=
  Smp (<[0x1000 := w_thread]> (list_to_map ((fun a => (a, w_idle)) <$> [0x2000; 0x2400; 0x2800; 0x2c00])))
    (list_to_map [(0x1000, 0); (0x2000, 0); (0x2400, 1); (0x2800, 2); (0x2c00, 3)])
    [w_node 0x1000 0x2000; w_node 0x2400 0x2400; w_node 0x2800 0x2800; w_node 0x2c00 0x2c00] 0 0 0 0.
Lemma set_affinity_3 : wp (Smp.decode_set_affinity 0 w_migrate 0x1000 1 3)
  (fun r s => r = (EXCEPTION_NONE, 0) /\ (ipiReschedulePending <$> ksSMP s !! 0%nat) = Some (BIT 3)) w_smp.
Proof. vm_compute. done. Qed.
Lemma set_affinity_4 : Smp.decode_set_affinity 0 w_migrate 0x1000 1 4 w_smp = Panic.
Proof. vm_compute. reflexivity. Qed.
Lemma set_affinity_5 :
  Smp.decode_set_affinity 0 w_migrate 0x1000 1 5 w_smp = Ok ((EXCEPTION_SYSCALL_ERROR, seL4_IllegalOperation), w_smp).
Proof. done. Qed.
End witness.
